(* ===== verification/_CoqProject ===== *)
-Q . S2P
Prelude.v
LinkedList.v
FrameTable.v
VmState.v
Vm.v
AddrSpace.v
VmSpec.v
File.v
FileSpec.v
Bswap.v
Cstring.v
Printf.v
Millicode.v
Qdivrem.v
Syscall.v
Queue.v
Synch.v
ProducerConsumer.v
Maths.v
TwoLocks.v
Bar.v
BarInv.v
BarSpec.v
CopyInOut.v
Uio.v
Bitmap.v
Lhd.v
SfsDisk.v
SfsBmap.v
SfsTrunc.v
SfsIo.v
SfsWrite.v
SfsDir.v
SfsVnode.v
SfsVol.v
SfsTree.v
SfsOps.v
SfsDemo.v
SfsSpec.v
SfsFsops.v
Mksfs.v
Kmalloc.v
KmallocInv.v
KmallocSlots.v
KmallocSpec.v
