(* ===== verification/Prelude.v ===== *)
(** * OS/161 and the COMP9201 assignments

    This library models the operating system kernel of the repository and proves what
    its parts promise.  The sources are a student's solutions of three assignments
    (src/asst1: synchronisation problems, src/asst2: file system calls, src/asst3:
    virtual memory) on top of OS/161 (src/original_asst3), a small kernel for a 32-bit
    big-endian MIPS machine.

    ** How the code is translated

    Pure functions become functions, operations on kernel data become functions that
    pass the state along, and everything that can go wrong is a value: kernel code
    returns an [outcome] ([Ok], [Panic] for KASSERT and panic, [Fault] for an access
    that C leaves undefined, [Hang] for a loop that outruns its fuel), and error codes
    are returned as the code returns them.  Integers are in [Z]; where the C type can
    wrap around the conversion [u32], [s32], [u64] or [s64] is written out.  Arrays are
    lists indexed through [zget] and [zset], objects reached through pointers live in
    finite maps from addresses, and [NULL] is 0.  Code that is not in the repository
    (the disk, the compiler's layout of user memory) and code behind an interface of
    the kernel (kmalloc for the virtual memory system, the virtual file system for the
    file calls) is a class whose laws are the documented behaviour, with a concrete
    instance for the examples.  A theorem about an operation says that the call returns;
    a [Hang] never satisfies it.

    ** Prelude.v

    Outcomes, machine integers, arrays, the counting of list elements, reachability
    under a step relation, the error numbers, the tactic [width] for goals about machine
    integers, and the rewriting lemmas the monadic proofs share.

    ** Virtual memory (src/asst3)

    FrameTable.v models ram.c and frametable.c, LinkedList.v the lists that vm.c and
    addrspace.c thread through their structs, VmState.v the state, Vm.v the hashed page
    table and [vm_fault] of vm.c, AddrSpace.v addrspace.c.  VmSpec.v runs the operations
    as steps of one system and proves its invariant: frames are never shared, a TLB
    entry leads to a page of the running process and is writable only if the page is,
    [as_copy] and [as_destroy] copy and free what they should, [vm_fault] does what it
    should on every branch, and no call panics or loops in a reachable state as long as
    the calls of the heap return (an assumption of the class [KMalloc]), except that
    [as_copy] faults when the frames run out while it copies a page.  The loops over a bucket or a region list take fuel; the
    fuel [list_fuel] of a heap is enough for every list in it ([LinkedList]), and the
    theorem [vm_calls_return] rules [Hang] out.

    ** File system calls (src/asst2)

    File.v models file.c over the interface [Vfs], FileSpec.v states what each call does
    to descriptors, offsets and reference counts, Syscall.v models the dispatch in
    syscall.c with the register convention for 64-bit arguments, Bswap.v the byte order
    functions it uses.

    ** Synchronisation (src/asst1 and kern/thread/synch.c)

    Synch.v models semaphores, locks and condition variables and a machine that
    interleaves threads at the granularity of one primitive or one access to a shared
    variable; its theorems hold for every program: no wakeup is lost, locks exclude, and
    a state without a thread that can run has the shape of a deadlock.
    ProducerConsumer.v runs producerconsumer.c and its driver on that machine: the
    buffer is a bounded queue, every schedule ends and every item is delivered.
    Maths.v (math.c) and TwoLocks.v (twolocks.c) show that the adders count correctly
    and that the two locks cannot deadlock.  Bar.v is bar.c with its driver; BarInv.v
    has its invariant, a conservation law for each semaphore and for the doses of each
    bottle, with a proof that it holds under every schedule, that the program ends and
    that no deadlock is possible; BarSpec.v states the results and exhibits the two
    runs that go wrong outside the assumptions: an order whose first bottle is not its
    smallest, and a stack frame that is used again too early.  The numbers of threads,
    items, rounds and customers are arguments of the theorems.  Termination of these
    programs is accessibility of the step relation, for every schedule; no fuel is
    involved.  Queue.v models queue.c as an implementation of lists.

    ** The SFS file system (kern/fs/sfs, kern/vfs/vnode.c, kern/dev/lamebus/lhd.c)

    From the bottom: CopyInOut.v (copyinout.c) and Uio.v (uio.c) move bytes between
    kernel and user memory; Bitmap.v (bitmap.c) is the free map; Lhd.v is the disk driver
    with the retries of [sfs_rwblock]; SfsDisk.v is the on-disk format with its round
    trips; SfsBmap.v models sfs_balloc.c and sfs_bmap.c, with the proofs about truncation
    in SfsTrunc.v; SfsIo.v and SfsWrite.v are sfs_io.c; SfsDir.v is sfs_dir.c;
    SfsVnode.v models sfs_inode.c and sfs_vnops.c and the reference counts of vnode.c.
    SfsVol.v has the invariant of a volume (no block belongs to two files, what is not
    dirty is on disk), SfsTree.v the specification: a name space, files with their
    bytes, and the handles the kernel holds; [represents] relates a volume to it.
    SfsOps.v and SfsSpec.v prove that every vnode operation implements its counterpart
    on the specification, on every branch.  Where the code does not do what its manual
    page says (a rename to a name that exists, a link to a directory, the first indirect
    block past a new end) the lemmas of SfsSpec.v state what it does, and the theorems
    are restricted to the other cases; reads stop with EFBIG at the end of the block map,
    73216 bytes.  SfsFsops.v models sfs_fsops.c; what the
    superblock and the freemap have on disk is part of [represents], so that every
    operation keeps it, and the theorem says that a volume that has been synced is
    found again by a mount.  SfsDemo.v is a small volume that represents
    something, on which the theorems are applied.  The disk may fail operations (class
    [Hardware]); the theorems about files assume it does not ([Reliable]), the one about
    block reads does not.  No loop of SFS needs fuel: they run over the slots, blocks or
    bytes the code counts.

    ** 64-bit arithmetic (common/gcc-millicode)

    Millicode.v models the functions the compiler calls for operations on [long long]
    and proves that each computes its operation modulo [2 ^ 64]; Qdivrem.v proves the
    division, Knuth's Algorithm D in base 2^16, for all operands.  The loop that lowers
    the guess of a digit runs at most twice, the one that normalises the divisor at most
    15 times and the ones that skip zero digits at most 3 times; [millicode_divides] shows
    that the fuel given to them is never used up.

    ** The kernel heap (kern/vm/kmalloc.c)

    Kmalloc.v models [kmalloc] and [kfree] as compiled by default, as a system of threads:
    the allocator gives up its lock around the calls of the frame allocator, so a call is a
    sequence of atomic sections ([kpc], [kstep]) and the sections of all threads
    interleave.  The clients are part of the system and may write to the blocks they have.
    KmallocInv.v has the invariant of the lists and the free blocks of a page,
    KmallocSlots.v that of the pagerefs, KmallocSpec.v that of the whole system, against the
    class [KPagesOk], of which the frame table of FrameTable.v is an instance.  No assertion
    of the allocator can fail, the blocks are disjoint and keep their contents, and all
    pages come back, as long as fewer than 256 pagerefs are lost or being claimed;
    [kmalloc_lost_pagerefs] is a run of one well-behaved client that passes the bound and
    stops the kernel.  The searches in the lists of pages take one more unit of fuel than
    there are pagerefs, which is enough because a list holds each of them at most once.

    ** Strings and printing (common/libc, kern/lib/kprintf.c, userland/lib/libc)

    Cstring.v models the string and memory functions and [atoi] on a memory of bytes, and
    relates them to lists of bytes; their fuel is the size of the memory, which no string
    exceeds.  Printf.v models the format interpreter of __printf.c over an arbitrary client
    function with a class ([Sink]) of what it promises, and its clients [snprintf],
    [kprintf] and [printf]; the text of a format is a specification of its own ([render]),
    with the meaning of modifiers in any order ([spec_of]); %X, documented but not
    implemented, is outside it.

    ** Making a volume (userland/sbin/mksfs)

    Mksfs.v models the program with its disk access, over a script of results of [read]
    and [write].  It composes with SfsFsops.v: what mksfs has written, [sfs_domount] accepts
    as an empty volume.  A loop that transfers a block has fuel for every byte of it and
    every interruption in the script.

    ** Not modelled

    Threads below the primitives of synch.c (thread.c, switchframe, spinlocks): a
    primitive is one atomic step because it runs under its spinlock with interrupts off.
    The virtual memory system and the file calls use kmalloc through their own interfaces,
    or an argument says whether an allocation succeeds; the growing array of vnodes
    (array.c) is a map of vnodes with such outcomes; the guard bands, labels, SLOW
    checks and statistics of kmalloc.c, none of which is compiled or changes its state, are
    left out.  The virtual file system above SFS (vfslookup.c, vfslist.c, vfspath.c,
    devices), the emulator file system (emufs), semfs and the console and network drivers
    are not modelled; where modelled code calls them they are behind the interfaces above.
    The file and process calls of the assignment 3 kernel (kern/syscall, pid.c) repeat the
    file calls of assignment 2 in another form; they and the program loader are not
    modelled.  Traps, exceptions and context switches are assembly.  Of the user programs
    only mksfs and of the C library only the string, number and printing functions are
    modelled: the others are clients of the system calls, tests, or, like sfsck, malloc.c
    and qsort.c, have not been modelled yet.  The menu starts components and the build tree
    is generated.  Inside the modelled parts, kprintf, DEBUG and the names of locks and
    semaphores have no effect on the state and are left out, and so is the big VFS lock,
    which makes the operations of SFS atomic. *)

From stdpp Require Export base list gmap strings sorting.
From Stdlib Require Export ZArith Lia.

#[global] Open Scope Z_scope.

(** ** Outcomes of kernel code

    Kernel code either returns ([Ok]), stops the machine through [KASSERT]
    or [panic] ([Panic]), performs an access the C language leaves
    undefined, such as dereferencing [NULL] ([Fault]), or goes round a loop
    more often than the fuel given to the model of the loop ([Hang]). *)

Inductive outcome (A : Type) : Type :=
| Ok (a : A)
| Panic
| Fault
| Hang.

Arguments Ok {A} a.
Arguments Panic {A}.
Arguments Fault {A}.
Arguments Hang {A}.

#[export] Instance outcome_ret : MRet outcome := λ A a, Ok a.

#[export] Instance outcome_bind : MBind outcome := λ A B f m,
  match m with
  | Ok a => f a
  | Panic => Panic
  | Fault => Fault
  | Hang => Hang
  end.

(** [KASSERT(b)] *)
Definition kassert (b : bool) : outcome unit := if b then Ok tt else Panic.

(** Reading through a pointer or an array index that may be invalid. *)
Definition deref {A} (o : option A) : outcome A :=
  match o with
  | Some a => Ok a
  | None => Fault
  end.

(** ** Machine integers *)

Definition two32 : Z := 4294967296.
Definition two31 : Z := 2147483648.
Definition two64 : Z := 18446744073709551616.
Definition two63 : Z := 9223372036854775808.

(** Conversion to [uint32_t], [int32_t], [uint64_t] and [int64_t]. *)
Definition u32 (z : Z) : Z := z mod two32.
Definition s32 (z : Z) : Z := (z + two31) mod two32 - two31.
Definition u64 (z : Z) : Z := z mod two64.
Definition s64 (z : Z) : Z := (z + two63) mod two64 - two63.

Definition is_u32 (z : Z) : Prop := 0 ≤ z < two32.
Definition is_s32 (z : Z) : Prop := - two31 ≤ z < two31.
Definition is_u64 (z : Z) : Prop := 0 ≤ z < two64.
Definition is_s64 (z : Z) : Prop := - two63 ≤ z < two63.

(** A boolean as a number. *)
Definition b2z (b : bool) : Z := if b then 1 else 0.

(** ** Arrays indexed by machine integers *)

Definition zget {A} (l : list A) (i : Z) : option A :=
  if decide (0 ≤ i) then l !! Z.to_nat i else None.

Definition zset {A} (l : list A) (i : Z) (x : A) : list A :=
  if decide (0 ≤ i) then <[Z.to_nat i := x]> l else l.

Definition zlen {A} (l : list A) : Z := Z.of_nat (length l).

(** Storing to an array element: a store outside the array is a [Fault]. *)
Definition zput {A} (l : list A) (i : Z) (x : A) : outcome (list A) :=
  if decide (0 ≤ i < zlen l) then Ok (zset l i x) else Fault.

(** ** Error numbers (kern/include/kern/errno.h) *)

Definition ENOSYS : Z := 1.
Definition ENOMEM : Z := 3.
Definition EAGAIN : Z := 4.
Definition EFAULT : Z := 6.
Definition ENAMETOOLONG : Z := 7.
Definition EINVAL : Z := 8.
Definition EPERM : Z := 9.
Definition ENPROC : Z := 12.
Definition ESRCH : Z := 15.
Definition ECHILD : Z := 16.
Definition EMFILE : Z := 28.
Definition ENOTDIR : Z := 17.
Definition EISDIR : Z := 18.
Definition ENOENT : Z := 19.
Definition EEXIST : Z := 22.
Definition EBUSY : Z := 27.
Definition ENXIO : Z := 26.
Definition EIO : Z := 32.
Definition EFBIG : Z := 38.
Definition EBADF : Z := 30.
Definition ESPIPE : Z := 33.
Definition ENOSPC : Z := 36.

(** Number of elements of a list that satisfy a boolean test. *)
Definition cnt {A} (P : A → bool) (l : list A) : nat :=
  length (filter (λ x, P x = true) l).

(** Reachability of a step relation. *)
Inductive reachable {S} (init : S → Prop) (step : S → S → Prop) : S → Prop :=
| reach_init s : init s → reachable init step s
| reach_step s s' : reachable init step s → step s s' → reachable init step s'.

(** ** Tactics and hints *)

Create HintDb os161.
Create Rewrite HintDb os161.

(** Unfolds the integer-width definitions and calls [lia]. *)
Ltac width :=
  unfold u32, s32, u64, s64, is_u32, is_s32, is_u64, is_s64,
    two32, two31, two64, two63 in *; lia.

(** Case analysis on every [if] and [match] that blocks a computation in [H]. *)
Ltac break_step H :=
  match type of H with
  | context [match ?x with _ => _ end] =>
      lazymatch x with
      | context [match _ with _ => _ end] => fail
      | _ => let E := fresh "E" in destruct x eqn:E
      end
  end; simplify_eq/=.

Ltac break H := repeat (break_step H; try done).

Ltac break_goal :=
  repeat (match goal with
  | |- context [match ?x with _ => _ end] =>
      lazymatch x with
      | context [match _ with _ => _ end] => fail
      | _ => let E := fresh "E" in destruct x eqn:E
      end
  end; simplify_eq/=).

(** ** Outcome lemmas *)

Lemma bind_Ok {A B} (m : outcome A) (f : A → outcome B) b :
  (m ≫= f) = Ok b ↔ ∃ a, m = Ok a ∧ f a = Ok b.
Proof. destruct m; naive_solver. Qed.

Lemma bind_of_Ok {A B} (a : A) (f : A → outcome B) : (Ok a ≫= f) = f a.
Proof. done. Qed.

(** The test of a [result] that is 0. *)
Lemma no_error {A} (x y : A) : (if negb (0 =? 0) then x else y) = y.
Proof. done. Qed.

Lemma kassert_Ok b u : kassert b = Ok u ↔ b = true.
Proof. destruct b, u; simpl; naive_solver. Qed.

Lemma deref_Ok {A} (o : option A) a : deref o = Ok a ↔ o = Some a.
Proof. destruct o; simpl; naive_solver. Qed.

(** ** Integer lemmas *)

Lemma u32_id z : is_u32 z → u32 z = z.
Proof. intros ?. apply Z.mod_small. width. Qed.

Lemma u32_range z : is_u32 (u32 z).
Proof. apply Z.mod_pos_bound. done. Qed.

Lemma s32_id z : is_s32 z → s32 z = z.
Proof. intros ?. unfold s32. rewrite Z.mod_small; width. Qed.

Lemma b2z_nat b : b2z b = Z.of_nat (Nat.b2n b).
Proof. by destruct b. Qed.

Lemma b2z_nonneg b : 0 ≤ b2z b.
Proof. by destruct b. Qed.

Lemma s64_id z : is_s64 z → s64 z = z.
Proof. intros ?. unfold s64. rewrite Z.mod_small; width. Qed.

Lemma s64_range z : is_s64 (s64 z).
Proof.
  unfold s64, is_s64. pose proof (Z.mod_pos_bound (z + two63) two64 ltac:(done)).
  width.
Qed.

Lemma s32_range z : is_s32 (s32 z).
Proof.
  unfold s32, is_s32. pose proof (Z.mod_pos_bound (z + two31) two32 ltac:(done)).
  width.
Qed.

(** A page-aligned address and an offset below the page size do not share bits. *)
Lemma lor_page i m : 0 ≤ m < 4096 → Z.lor (i * 4096) m = i * 4096 + m.
Proof.
  intros Hm. pose proof (Z.add_lor_land (i * 4096) m) as Ha.
  assert (Z.land (i * 4096) m = 0) as Hl; [|lia].
  change 4096 with (2 ^ 12) in *. apply Z.bits_inj'. intros n Hn.
  rewrite Z.land_spec, Z.bits_0. destruct (decide (n < 12)).
  - by rewrite Z.mul_pow2_bits_low by lia.
  - rewrite (Z.bits_above_log2 m); [apply andb_false_r|lia|].
    destruct (decide (m = 0)) as [->|]; [simpl; lia|].
    apply Z.log2_lt_pow2; [lia|]. eapply Z.lt_le_trans; [apply Hm|].
    apply Z.pow_le_mono_r; lia.
Qed.

Lemma land_page_frame x : is_u32 x → Z.land x 4294963200 = x / 4096 * 4096.
Proof.
  intros Hx. change 4294963200 with (Z.ldiff (Z.ones 32) (Z.ones 12)).
  change 4096 with (2 ^ 12). rewrite <-Z.shiftr_div_pow2, <-Z.shiftl_mul_pow2 by lia.
  apply Z.bits_inj'. intros n Hn. rewrite Z.land_spec, Z.ldiff_spec.
  rewrite Z.shiftl_spec by lia. destruct (decide (n < 12)).
  - rewrite (Z.ones_spec_low 12) by lia. rewrite !andb_false_r.
    symmetry. apply Z.testbit_neg_r. lia.
  - rewrite (Z.ones_spec_high 12) by lia. rewrite Z.shiftr_spec by lia.
    replace (n - 12 + 12) with n by lia. rewrite andb_true_r.
    destruct (decide (n < 32)).
    + by rewrite (Z.ones_spec_low 32), andb_true_r by lia.
    + rewrite (Z.ones_spec_high 32), andb_false_r by lia. symmetry.
      destruct (decide (x = 0)) as [->|]; [apply Z.bits_0|].
      apply Z.bits_above_log2; [width|]. apply Z.log2_lt_pow2; [width|].
      eapply Z.lt_le_trans; [apply Hx|]. change two32 with (2 ^ 32).
      apply Z.pow_le_mono_r; lia.
Qed.

Lemma land_page_offset x : Z.land x 4095 = x mod 4096.
Proof. change 4095 with (Z.ones 12). by rewrite Z.land_ones by lia. Qed.

(** ** Array lemmas *)

Section arrays.
Context {A : Type}.
Implicit Types (l : list A) (i j : Z) (x y : A).

Lemma zget_Some_range l i x : zget l i = Some x → 0 ≤ i < zlen l.
Proof.
  unfold zget, zlen. case_decide; [|done].
  intros ?%lookup_lt_Some. lia.
Qed.

Lemma zget_range l i : 0 ≤ i < zlen l → ∃ x, zget l i = Some x.
Proof.
  unfold zget, zlen. intros. rewrite decide_True by lia.
  apply lookup_lt_is_Some. lia.
Qed.

Lemma zget_None l i : zget l i = None ↔ i < 0 ∨ zlen l ≤ i.
Proof.
  unfold zget, zlen. case_decide.
  - rewrite lookup_ge_None. lia.
  - split; [lia|done].
Qed.

Lemma zlen_nonneg l : 0 ≤ zlen l.
Proof. unfold zlen. lia. Qed.

Lemma zlen_zset l i x : zlen (zset l i x) = zlen l.
Proof. unfold zlen, zset. case_decide; [|done]. by rewrite length_insert. Qed.

Lemma zget_zset_eq l i x : 0 ≤ i < zlen l → zget (zset l i x) i = Some x.
Proof.
  unfold zget, zset, zlen. intros. rewrite !decide_True by lia.
  apply list_lookup_insert_eq. lia.
Qed.

Lemma zget_zset_ne l i j x : i ≠ j → zget (zset l i x) j = zget l j.
Proof.
  unfold zget, zset. intros. repeat case_decide; try done.
  apply list_lookup_insert_ne. lia.
Qed.

Lemma zget_zset l i j x :
  zget (zset l i x) j = if decide (i = j ∧ 0 ≤ i < zlen l) then Some x else zget l j.
Proof.
  case_decide as H.
  - destruct H as [-> ?]. by apply zget_zset_eq.
  - destruct (decide (i = j)) as [->|]; [|by apply zget_zset_ne].
    unfold zset. case_decide; [|done]. rewrite list_insert_ge; [done|].
    unfold zlen in *. lia.
Qed.

Lemma zput_Ok l i x l' : zput l i x = Ok l' ↔ 0 ≤ i < zlen l ∧ l' = zset l i x.
Proof. unfold zput. case_decide; naive_solver. Qed.

Lemma zset_id l i x : zget l i = Some x → zset l i x = l.
Proof. unfold zget, zset. case_decide; [|done]. apply list_insert_id. Qed.

Lemma zset_zset l i x y : zset (zset l i x) i y = zset l i y.
Proof. unfold zset. case_decide; [|done]. apply list_insert_insert_eq. Qed.

Lemma zlen_app l1 l2 : zlen (l1 ++ l2) = zlen l1 + zlen l2.
Proof. unfold zlen. rewrite length_app. lia. Qed.

Lemma zlen_singleton (x : A) : zlen [x] = 1.
Proof. done. Qed.

Lemma zget_cons x l i : 0 < i → zget (x :: l) i = zget l (i - 1).
Proof.
  unfold zget. intros. rewrite !decide_True by lia.
  by replace (Z.to_nat i) with (S (Z.to_nat (i - 1))) by lia.
Qed.

Lemma zset_lookup l (k : nat) i x :
  zset l i x !! k =
    if decide (Z.of_nat k = i ∧ i < zlen l) then Some x else l !! k.
Proof.
  replace (zset l i x !! k) with (zget (zset l i x) (Z.of_nat k))
    by (unfold zget; rewrite decide_True by lia; f_equal; lia).
  rewrite zget_zset. unfold zget. rewrite (decide_True (P := 0 ≤ Z.of_nat k)) by lia.
  rewrite Nat2Z.id. repeat case_decide; naive_solver lia.
Qed.

End arrays.

Lemma elem_of_zget {A} (l : list A) x : x ∈ l ↔ ∃ i, zget l i = Some x.
Proof.
  rewrite list_elem_of_lookup. unfold zget. split.
  - intros [i Hi]. exists (Z.of_nat i). rewrite decide_True by lia. by rewrite Nat2Z.id.
  - intros [i Hi]. case_decide; [eauto|done].
Qed.

Lemma zlen_take {A} n (l : list A) : 0 ≤ n ≤ zlen l → zlen (take (Z.to_nat n) l) = n.
Proof. unfold zlen. rewrite length_take. lia. Qed.

Lemma zget_take {A} n (l : list A) i : i < n → zget (take (Z.to_nat n) l) i = zget l i.
Proof. intros Hi. unfold zget. case_decide; [|done]. apply lookup_take_lt. lia. Qed.

Lemma zlen_cons {A} (x : A) (l : list A) : zlen (x :: l) = zlen l + 1.
Proof. unfold zlen. simpl. lia. Qed.

Lemma zget_app_l {A} (l k : list A) i : i < zlen l → zget (l ++ k) i = zget l i.
Proof. unfold zget, zlen. intros. case_decide; [|done]. apply lookup_app_l. lia. Qed.

Lemma zget_app_r {A} (l k : list A) i : zlen l ≤ i → zget (l ++ k) i = zget k (i - zlen l).
Proof.
  unfold zget, zlen. intros. rewrite !decide_True by lia. rewrite lookup_app_r by lia. f_equal. lia.
Qed.

Lemma zset_app_l {A} (l k : list A) i x : i < zlen l → zset (l ++ k) i x = zset l i x ++ k.
Proof. unfold zset, zlen. intros. case_decide; [|done]. apply insert_app_l. lia. Qed.

Lemma zset_app_r {A} (l k : list A) i x : zlen l ≤ i → zset (l ++ k) i x = l ++ zset k (i - zlen l) x.
Proof.
  unfold zset, zlen. intros. rewrite !decide_True by lia.
  rewrite insert_app_r_alt by lia. do 2 f_equal. lia.
Qed.

Lemma zset_cons {A} (x y : A) l i : 0 < i → zset (x :: l) i y = x :: zset l (i - 1) y.
Proof.
  unfold zset. intros. rewrite !decide_True by lia.
  by replace (Z.to_nat i) with (S (Z.to_nat (i - 1))) by lia.
Qed.

Lemma zlen_map_seqZ {A} (f : Z → A) n : 0 ≤ n → zlen (map f (seqZ 0 n)) = n.
Proof. intros. unfold zlen. rewrite length_map, length_seqZ. lia. Qed.

Lemma zget_map_seqZ {A} (f : Z → A) n i :
  0 ≤ i < n → zget (map f (seqZ 0 n)) i = Some (f i).
Proof.
  intros. unfold zget. rewrite decide_True by lia.
  change (map f (seqZ 0 n)) with (f <$> seqZ 0 n).
  rewrite list_lookup_fmap, lookup_seqZ_lt by lia. simpl. f_equal. f_equal. lia.
Qed.

Lemma Forall2_impl_elem {A B} (P Q : A → B → Prop) l k :
  Forall2 P l k → (∀ x y, x ∈ l → P x y → Q x y) → Forall2 Q l k.
Proof.
  induction 1 as [|x y l k Hxy _ IH]; intros Himp; constructor.
  - apply Himp; [by left|done].
  - apply IH. intros x' y' ?. apply Himp. by right.
Qed.

(** ** Counting lemmas *)

Section counting.
Context {A : Type}.
Implicit Types (P Q : A → bool) (l : list A).

Lemma cnt_nil P : cnt P [] = 0%nat.
Proof. done. Qed.

Lemma cnt_cons P x l : cnt P (x :: l) = (Nat.b2n (P x) + cnt P l)%nat.
Proof. unfold cnt. rewrite filter_cons. destruct (P x) eqn:E; by case_decide. Qed.

Lemma cnt_app P l1 l2 : cnt P (l1 ++ l2) = (cnt P l1 + cnt P l2)%nat.
Proof. unfold cnt. by rewrite filter_app, length_app. Qed.

(** Replacing one element moves the count by the difference of the two tests. *)
Lemma cnt_insert P l i x y :
  l !! i = Some x →
  (cnt P (<[i:=y]> l) + Nat.b2n (P x) = cnt P l + Nat.b2n (P y))%nat.
Proof.
  intros Hi. rewrite <-(take_drop_middle l i x Hi) at 2.
  rewrite insert_take_drop by (by eapply lookup_lt_Some).
  rewrite !cnt_app, !cnt_cons. lia.
Qed.

Lemma cnt_zset P l i x y :
  zget l i = Some x → (cnt P (zset l i y) + Nat.b2n (P x) = cnt P l + Nat.b2n (P y))%nat.
Proof. unfold zget, zset. case_decide; [|done]. apply cnt_insert. Qed.

Lemma cnt_pos P l i x : l !! i = Some x → P x = true → (1 ≤ cnt P l)%nat.
Proof.
  intros Hi HP. rewrite <-(take_drop_middle l i x Hi).
  rewrite cnt_app, cnt_cons, HP. simpl. lia.
Qed.

Lemma cnt_pos_inv P l : (1 ≤ cnt P l)%nat → ∃ i x, l !! i = Some x ∧ P x = true.
Proof.
  induction l as [|y l IH]; [cbn; lia|]. rewrite cnt_cons.
  destruct (P y) eqn:E; [by exists 0%nat, y|].
  intros [i [x Hx]]%IH. by exists (S i), x.
Qed.

Lemma cnt_zero P l : cnt P l = 0%nat ↔ ∀ i x, l !! i = Some x → P x = false.
Proof.
  split.
  - intros H0 i x Hi. destruct (P x) eqn:E; [|done].
    pose proof (cnt_pos _ _ _ _ Hi E). lia.
  - intros H. destruct (cnt P l) eqn:E; [done|].
    destruct (cnt_pos_inv P l) as (i & x & Hi & Hx); [lia|].
    by rewrite (H _ _ Hi) in Hx.
Qed.

(** Two distinct positions that satisfy the test give a count of at least two. *)
Lemma cnt_two P l i j x y :
  i ≠ j → l !! i = Some x → l !! j = Some y → P x = true → P y = true →
  (2 ≤ cnt P l)%nat.
Proof.
  intros Hij Hi Hj Hx Hy.
  assert (Hj' : <[i:=x]> l !! j = Some y) by by rewrite list_lookup_insert_ne.
  rewrite <-(take_drop_middle l i x Hi) in Hj |- *.
  rewrite cnt_app, cnt_cons, Hx. simpl.
  destruct (decide (j < i)%nat).
  - rewrite lookup_app_l in Hj
      by (rewrite length_take; apply lookup_lt_Some in Hi; lia).
    pose proof (cnt_pos P _ _ _ Hj Hy). lia.
  - rewrite lookup_app_r in Hj
      by (rewrite length_take; apply lookup_lt_Some in Hi; lia).
    rewrite length_take, Nat.min_l in Hj by (apply lookup_lt_Some in Hi; lia).
    destruct (j - i)%nat eqn:Ej; [lia|]. simpl in Hj.
    pose proof (cnt_pos P _ _ _ Hj Hy). lia.
Qed.

Lemma cnt_le P l : (cnt P l ≤ length l)%nat.
Proof. apply length_filter. Qed.

Lemma cnt_all P l :
  cnt P l = length l ↔ ∀ i x, l !! i = Some x → P x = true.
Proof.
  induction l as [|y l IH]; [done|]. rewrite cnt_cons. simpl.
  pose proof (cnt_le P l). split.
  - intros H1 [|i] x Hi; simplify_eq/=.
    + destruct (P x); simpl in *; [done|lia].
    + apply (proj1 IH) with i; [|done]. destruct (P y); simpl in *; lia.
  - intros H1. rewrite (H1 0%nat y eq_refl). simpl.
    rewrite (proj2 IH); [lia|]. intros i x. apply (H1 (S i) x).
Qed.

Lemma cnt_mono_in P Q l :
  (∀ i y, l !! i = Some y → P y = true → Q y = true) → (cnt P l ≤ cnt Q l)%nat.
Proof.
  induction l as [|y l IH]; [done|]. intros HPQ. rewrite !cnt_cons.
  specialize (IH (λ i, HPQ (S i))). specialize (HPQ 0%nat y eq_refl).
  destruct (P y), (Q y); simpl; first [lia|by specialize (HPQ eq_refl)].
Qed.

Lemma cnt_mono P Q l : (∀ y, P y = true → Q y = true) → (cnt P l ≤ cnt Q l)%nat.
Proof. intros HPQ. apply cnt_mono_in. eauto. Qed.

(** A stronger test that fails somewhere the weaker one holds counts less. *)
Lemma cnt_lt P Q l i x :
  (∀ y, P y = true → Q y = true) → l !! i = Some x → P x = false → Q x = true →
  (cnt P l < cnt Q l)%nat.
Proof.
  intros HPQ Hi HP HQ. rewrite <-(take_drop_middle l i x Hi).
  rewrite !cnt_app, !cnt_cons, HP, HQ.
  pose proof (cnt_mono P Q (take i l) HPQ). pose proof (cnt_mono P Q (drop (S i) l) HPQ). simpl. lia.
Qed.

(** Sums of a measure over a list. *)
Lemma sum_insert (f : A → nat) l i x y :
  l !! i = Some x → (sum_list_with f (<[i:=y]> l) + f x = sum_list_with f l + f y)%nat.
Proof.
  intros Hi. rewrite <-(take_drop_middle l i x Hi) at 2.
  rewrite insert_take_drop by (by eapply lookup_lt_Some).
  rewrite !sum_list_with_app. simpl. lia.
Qed.

Lemma sum_lookup_le (f : A → nat) l i x : l !! i = Some x → (f x ≤ sum_list_with f l)%nat.
Proof.
  intros Hi. rewrite <-(take_drop_middle l i x Hi). rewrite sum_list_with_app. simpl. lia.
Qed.

Lemma sum_cnt_le (f : A → nat) P n l :
  (∀ i x, l !! i = Some x → f x ≤ n * Nat.b2n (P x))%nat → (sum_list_with f l ≤ n * cnt P l)%nat.
Proof.
  induction l as [|y l IH]; [cbn; lia|]. intros H. rewrite cnt_cons. simpl.
  pose proof (H 0%nat y eq_refl). pose proof (IH (λ i x, H (S i) x)). lia.
Qed.

(** Replacing one element of a list whose elements carry lists. *)
Lemma flat_insert {B} (f : A → list B) l i x y :
  l !! i = Some x → flat_map f (<[i:=y]> l) ++ f x ≡ₚ flat_map f l ++ f y.
Proof.
  intros Hi. rewrite <-(take_drop_middle l i x Hi) at 2.
  rewrite insert_take_drop by (by eapply lookup_lt_Some).
  rewrite !flat_map_app. simpl. solve_Permutation.
Qed.

End counting.

(** ** Reachability *)

Lemma reachable_invariant {S} (init : S → Prop) (step : S → S → Prop) (I : S → Prop) :
  (∀ s, init s → I s) →
  (∀ s s', I s → step s s' → I s') →
  ∀ s, reachable init step s → I s.
Proof. intros Hi Hs s. induction 1; eauto. Qed.

(** Positions in a ring of [n] slots. *)
Lemma mod_distinct a j k n : 0 ≤ j < k → k < n → (a + j) mod n ≠ (a + k) mod n.
Proof.
  intros Hj Hk E. assert ((a + k - (a + j)) mod n = 0) as H by (by rewrite Zminus_mod, E, Z.sub_diag, Zmod_0_l).
  replace (a + k - (a + j)) with (k - j) in H by lia. rewrite Z.mod_small in H by lia. lia.
Qed.

#[export] Hint Rewrite @zlen_zset @cnt_app @cnt_cons @cnt_nil : os161.
#[export] Hint Resolve u32_range s64_range s32_range zlen_nonneg : os161.
