(* ===== verification/LinkedList.v ===== *)
(** * Singly linked lists in a heap

    The C code links [struct page_table_entry] and [struct region] nodes
    through a [next] pointer.  A heap maps addresses to nodes; address 0 is
    [NULL].  [chain h p l] says that following [next] from [p] visits exactly
    the nodes at the addresses [l].  The loops take their number of iterations
    as fuel; [list_fuel h] is enough for any chain of [h]. *)

From S2P Require Import Prelude.

Class Linked (V : Type) := {
  next : V → Z;
  set_next : Z → V → V
}.

Class LinkedLaws (V : Type) `{Linked V} := {
  next_set_next p v : next (set_next p v) = p;
  set_next_set_next p q (v : V) : set_next p (set_next q v) = set_next p v;
  set_next_next (v : V) : set_next (next v) v = v
}.

Section linked.
Context `{Linked V}.
Implicit Types (h : gmap Z V) (p : Z) (l : list Z).

Definition list_fuel h : nat := S (size h).

(** [while (cur != NULL) { if (test(cur)) return cur; cur = cur->next; }
    return NULL;] *)
Fixpoint find_node (fuel : nat) (h : gmap Z V) (test : V → bool) (cur : Z) : outcome Z :=
  match fuel with
  | O => Hang
  | S fuel =>
      if cur =? 0 then Ok 0
      else
        v ← deref (h !! cur);
        if test v then Ok cur else find_node fuel h test (next v)
  end.

(** [while (pe->next != NULL) pe = pe->next;] *)
Fixpoint last_node (fuel : nat) (h : gmap Z V) (pe : Z) : outcome Z :=
  match fuel with
  | O => Hang
  | S fuel =>
      v ← deref (h !! pe);
      if next v =? 0 then Ok pe else last_node fuel h (next v)
  end.

(** Appends the node at address [new] to the list headed by [head]: the head
    itself if the list is empty, the [next] field of the last node otherwise. *)
Definition append_node (h : gmap Z V) (head new : Z) : outcome (gmap Z V * Z) :=
  if head =? 0 then Ok (h, new)
  else
    pe ← last_node (list_fuel h) h head;
    v ← deref (h !! pe);
    Ok (<[pe := set_next new v]> h, head).

Fixpoint chain h p l : Prop :=
  match l with
  | [] => p = 0
  | a :: l' => p = a ∧ a ≠ 0 ∧ ∃ v, h !! a = Some v ∧ chain h (next v) l'
  end.

(** A chain that ends at address [q] rather than at [NULL]. *)
Fixpoint seg h p l q : Prop :=
  match l with
  | [] => p = q
  | a :: l' => p = a ∧ a ≠ 0 ∧ ∃ v, h !! a = Some v ∧ seg h (next v) l' q
  end.

(** The first node of [l] that passes [test], or [NULL]. *)
Fixpoint first_match h (test : V → bool) l : Z :=
  match l with
  | [] => 0
  | a :: l' =>
      match h !! a with
      | Some v => if test v then a else first_match h test l'
      | None => 0
      end
  end.

Lemma chain_seg h p l1 l2 : chain h p (l1 ++ l2) ↔ ∃ q, seg h p l1 q ∧ chain h q l2.
Proof.
  revert p. induction l1 as [|a l1 IH]; simpl; intros p; [naive_solver|]. split.
  - intros (-> & ? & v & ? & (q & ? & ?)%IH). eauto 10.
  - intros (q & (-> & ? & v & ? & ?) & ?). split_and!; [done..|].
    exists v. split; [done|]. apply IH. eauto.
Qed.

Lemma chain_det h p l1 l2 : chain h p l1 → chain h p l2 → l1 = l2.
Proof.
  revert p l2. induction l1 as [|a l1 IH]; intros p [|b l2]; simpl; [done| | |].
  - naive_solver.
  - naive_solver.
  - intros (-> & ? & v & Hv & Hc) (-> & ? & v' & Hv' & Hc'). simplify_eq.
    f_equal. eauto.
Qed.

Lemma chain_elem h p l a : chain h p l → a ∈ l → a ≠ 0 ∧ is_Some (h !! a).
Proof.
  revert p. induction l as [|b l IH]; intros p; simpl; [by intros _ ?%elem_of_nil|].
  intros (-> & ? & v & ? & ?) [->|?]%elem_of_cons; eauto.
Qed.

Lemma chain_suffix h p l1 a l2 :
  chain h p (l1 ++ a :: l2) → ∃ v, h !! a = Some v ∧ a ≠ 0 ∧ chain h (next v) l2.
Proof. rewrite chain_seg. intros (q & _ & (-> & ? & v & ? & ?)). eauto. Qed.

Lemma chain_NoDup h p l : chain h p l → NoDup l.
Proof.
  revert p. induction l as [|a l IH]; intros p; simpl; [constructor|].
  intros (-> & Ha & v & Hv & Hc). apply NoDup_cons. split; [|eauto].
  intros Hin. apply list_elem_of_split in Hin as (l1 & l2 & ->).
  destruct (chain_suffix _ _ _ _ _ Hc) as (v' & Hv' & _ & Hc'). simplify_eq.
  pose proof (chain_det _ _ _ _ Hc Hc') as Heq.
  apply (f_equal length) in Heq. rewrite length_app in Heq. simpl in Heq. lia.
Qed.

Lemma chain_length h p l : chain h p l → (length l ≤ size h)%nat.
Proof.
  intros Hc. pose proof (chain_NoDup _ _ _ Hc) as Hnd.
  rewrite <-size_dom. rewrite <-(size_list_to_set (C := gset Z) l Hnd).
  apply subseteq_size. intros a Ha%elem_of_list_to_set.
  apply elem_of_dom. by eapply chain_elem.
Qed.

Lemma chain_frame h h' p l :
  (∀ a, a ∈ l → h' !! a = h !! a) → chain h p l → chain h' p l.
Proof.
  revert p. induction l as [|a l IH]; intros p Hh; simpl; [done|].
  intros (-> & ? & v & ? & ?). split_and!; [done..|]. exists v.
  rewrite Hh by set_solver. split; [done|]. apply IH; set_solver.
Qed.

Lemma seg_frame h h' p l q :
  (∀ a, a ∈ l → h' !! a = h !! a) → seg h p l q → seg h' p l q.
Proof.
  revert p. induction l as [|a l IH]; intros p Hh; simpl; [done|].
  intros (-> & ? & v & ? & ?). split_and!; [done..|]. exists v.
  rewrite Hh by set_solver. split; [done|]. apply IH; set_solver.
Qed.

Lemma chain_head h p l : chain h p l → (p = 0 ↔ l = []).
Proof. destruct l; simpl; naive_solver. Qed.

Lemma find_node_chain h test p l fuel :
  chain h p l → (length l < fuel)%nat →
  find_node fuel h test p = Ok (first_match h test l).
Proof.
  revert p l. induction fuel as [|fuel IH]; intros p l Hc Hf; [lia|]. simpl.
  destruct l as [|a l]; simpl in *; [by subst|].
  destruct Hc as (-> & Ha & v & Hv & Hc).
  rewrite (proj2 (Z.eqb_neq _ _)) by done. rewrite Hv. simpl.
  destruct (test v); [done|]. apply IH; [done|lia].
Qed.

Lemma last_node_chain h p l a fuel :
  chain h p (l ++ [a]) → (length l < fuel)%nat → last_node fuel h p = Ok a.
Proof.
  revert p l. induction fuel as [|fuel IH]; intros p l Hc Hf; [lia|]. simpl.
  destruct l as [|b l]; simpl in *.
  - destruct Hc as (-> & ? & v & Hv & Hn). rewrite Hv. simpl. by rewrite Hn.
  - destruct Hc as (-> & ? & v & Hv & Hc). rewrite Hv. simpl.
    rewrite (proj2 (Z.eqb_neq _ _)).
    + apply (IH _ l); [done|lia].
    + intros Hn. apply (chain_head _ _ _ Hc) in Hn. by destruct l.
Qed.

Lemma first_match_Some h test l a :
  first_match h test l = a → a ≠ 0 →
  a ∈ l ∧ ∃ v, h !! a = Some v ∧ test v = true.
Proof.
  induction l as [|b l IH]; simpl; [naive_solver|]. intros Ha Hn.
  destruct (h !! b) as [v|] eqn:E; [|naive_solver].
  destruct (test v) eqn:Et; [|set_solver]. subst. set_solver.
Qed.

Lemma first_match_None h p test l :
  chain h p l → first_match h test l = 0 →
  ∀ a v, a ∈ l → h !! a = Some v → test v = false.
Proof.
  revert p. induction l as [|b l IH]; simpl; [by intros ? ? ? ? ? ?%elem_of_nil|].
  intros p (-> & Hb & v & Hv & Hc). rewrite Hv.
  destruct (test v) eqn:Et; [naive_solver|].
  intros Hf a v' [->|Hin]%elem_of_cons Hv'; [naive_solver|]. eauto.
Qed.

(** The node that [test] accepts is found when it is unique in the chain. *)
Lemma first_match_unique h p test l a v :
  chain h p l → a ∈ l → h !! a = Some v → test v = true →
  (∀ b w, b ∈ l → h !! b = Some w → test w = true → b = a) →
  first_match h test l = a.
Proof.
  intros Hc Ha Hv Ht Hu.
  destruct (decide (first_match h test l = 0)) as [H0|Hn].
  - pose proof (first_match_None _ _ _ _ Hc H0 _ _ Ha Hv). congruence.
  - destruct (first_match_Some _ _ _ _ eq_refl Hn) as (Hin & w & Hw & Htw). eauto.
Qed.

Context `{!LinkedLaws V}.

(** Appending: the list grows at its end, and no field but [next] of the old
    last node changes. *)
Lemma append_node_chain h p l new v :
  chain h p l → new ≠ 0 → new ∉ l → h !! new = Some v → next v = 0 →
  ∃ h' p', append_node h p new = Ok (h', p') ∧ chain h' p' (l ++ [new]) ∧
    (∀ a, a ∉ l → h' !! a = h !! a) ∧
    (∀ a, ∃ q, h' !! a = set_next q <$> h !! a) ∧ (p ≠ 0 → p' = p).
Proof.
  intros Hc Hn Hni Hv Hnx. unfold append_node.
  assert (∀ o : option V, ∃ q, o = set_next q <$> o) as Hid.
  { intros [w|]; [exists (next w); simpl; by rewrite set_next_next|by exists 0]. }
  destruct l as [|x l _] using rev_ind.
  { simpl in Hc. subst p. simpl. exists h, new.
    split; [done|]. split; [simpl; eauto 10|]. split; [done|]. split; [|done].
    intros a. apply Hid. }
  rewrite (proj2 (Z.eqb_neq _ _))
    by (intros ?%(chain_head _ _ _ Hc); by destruct l).
  pose proof (chain_length _ _ _ Hc) as Hlen. rewrite length_app in Hlen. simpl in Hlen.
  rewrite (last_node_chain _ _ l x) by (done || unfold list_fuel; lia). simpl.
  pose proof (chain_NoDup _ _ _ Hc) as (Hnd & Hd & _)%NoDup_app.
  apply chain_seg in Hc as (q & Hs & (-> & Hx & w & Hw & Hwn)). rewrite Hw. simpl.
  exists (<[x:=set_next new w]> h), p. split_and!; [done| | | |done].
  - apply chain_seg. exists new. split.
    + (* the old part now ends at the new node *)
      clear Hni Hwn. revert p Hs Hd. clear Hlen Hnd.
      induction l as [|b l IH]; simpl; intros p.
      * intros ->. rewrite lookup_insert_eq. intros _. split_and!; [done..|].
        eexists. split; [done|]. by rewrite next_set_next.
      * intros (-> & ? & u & Hu & Hs) Hd. split_and!; [done..|]. exists u.
        rewrite lookup_insert_ne by (intros ->; apply (Hd b); set_solver).
        split; [done|]. apply IH; [done|set_solver].
    + simpl. split_and!; [done..|]. exists v.
      rewrite lookup_insert_ne by set_solver. done.
  - intros a Ha. rewrite lookup_insert_ne by set_solver. done.
  - intros a. destruct (decide (a = x)) as [->|].
    + rewrite lookup_insert_eq, Hw. by exists new.
    + rewrite lookup_insert_ne by done. apply Hid.
Qed.

(** Removing the node after a segment: the predecessor is relinked. *)
Lemma chain_unlink h p l x a l2 v w :
  chain h p (l ++ x :: a :: l2) → h !! x = Some w → h !! a = Some v →
  chain (delete a (<[x := set_next (next v) w]> h)) p (l ++ x :: l2).
Proof.
  intros Hc Hw Hv. pose proof (chain_NoDup _ _ _ Hc) as Hnd.
  apply NoDup_app in Hnd as (_ & Hd & Hnd2).
  apply NoDup_cons in Hnd2 as [Hx2 Hnd2]. apply NoDup_cons in Hnd2 as [Ha2 _].
  apply chain_seg in Hc as (q & Hs & (-> & ? & w' & Hw' & (Hnx & ? & v' & Hv' & Hc))).
  assert (w' = w) as -> by congruence. assert (v' = v) as -> by congruence.
  apply chain_seg. exists x. split.
  - eapply seg_frame; [|done]. intros b Hb. specialize (Hd _ Hb).
    rewrite lookup_delete_ne, lookup_insert_ne by set_solver. done.
  - simpl. split_and!; [done..|]. eexists.
    rewrite lookup_delete_ne, lookup_insert_eq by set_solver. split; [done|].
    rewrite next_set_next. eapply chain_frame; [|done]. intros b Hb.
    rewrite lookup_delete_ne, lookup_insert_ne by set_solver. done.
Qed.

Lemma chain_pop h p a l v :
  chain h p (a :: l) → h !! a = Some v → chain (delete a h) (next v) l.
Proof.
  intros Hc Hv. pose proof (chain_NoDup _ _ _ Hc) as [Hna _]%NoDup_cons.
  destruct Hc as (-> & ? & v' & Hv' & Hc). simplify_eq.
  eapply chain_frame; [|done]. intros b Hb. rewrite lookup_delete_ne by set_solver. done.
Qed.

End linked.

#[global] Arguments find_node : simpl never.
#[global] Arguments last_node : simpl never.
#[global] Arguments append_node : simpl never.
