(* ===== verification/FrameTable.v ===== *)
(** * Physical memory: the RAM bootstrap allocator and the frame table

    Module [Ram] models kern/arch/mips/vm/ram.c; module [FrameTable] models
    asst3/kern/vm/frametable.c.  Frames are handed out from a free list that
    is threaded through the frame table by [next_empty_frame_index].

    The spinlock [ft_lock] makes each operation atomic; the model runs the
    operations one after the other and does not mention the lock. *)

From S2P Require Import Prelude.

(** ** Address arithmetic (kern/arch/mips/include/vm.h) *)

Definition PAGE_SIZE : Z := 4096.
Definition PAGE_FRAME : Z := 4294963200.
Definition MIPS_KSEG0 : Z := 2147483648.

Definition paddr_to_kvaddr (paddr : Z) : Z := u32 (paddr + MIPS_KSEG0).
Definition kvaddr_to_paddr (vaddr : Z) : Z := u32 (vaddr - MIPS_KSEG0).

Module Ram.

(** The file-scope variables of ram.c. *)
Record ram_state := RamState {
  firstpaddr : Z;
  lastpaddr : Z
}.

(** [ramsize] is the value of [mainbus_ramsize()], [firstfree] the variable
    set by start.S. *)
Definition ram_bootstrap (ramsize firstfree : Z) : ram_state :=
  let ramsize := if 512 * 1024 * 1024 <? ramsize then 512 * 1024 * 1024 else ramsize in
  RamState (u32 (firstfree - MIPS_KSEG0)) ramsize.

Definition ram_stealmem (npages : Z) (s : ram_state) : Z * ram_state :=
  let size := u32 (npages * PAGE_SIZE) in
  if lastpaddr s <? u32 (firstpaddr s + size) then (0, s)
  else (firstpaddr s, RamState (u32 (firstpaddr s + size)) (lastpaddr s)).

Definition ram_getsize (s : ram_state) : Z := lastpaddr s.

Definition ram_getfirstfree (s : ram_state) : Z * ram_state :=
  (firstpaddr s, RamState 0 0).

End Ram.

Module FrameTable.
Import Ram.

Record frame_table_entry := FTE {
  is_used : bool;
  next_empty_frame_index : Z
}.

(** The file-scope variables of frametable.c, with those of ram.c;
    [frame_table] is [None] while the pointer is [NULL]. *)
Record ft_state := FTState {
  ram : ram_state;
  frame_table : option (list frame_table_entry);
  frame_nums : Z;
  current_empty_frame_index : Z
}.

Definition ft_boot (r : ram_state) : ft_state := FTState r None 0 0.

Definition get_frame_paddr (index : Z) : Z := u32 (index * PAGE_SIZE).

(** The struct has one byte, three bytes of padding and a [size_t]. *)
Definition sizeof_frame_table_entry : Z := 8.
Definition sizeof_ptr : Z := 4.

(** The loop that fills the table; [mem i] is what the RAM under entry [i]
    held, which stays in the field the loop does not write. *)
Definition init_entry (cur : Z) (mem : Z → frame_table_entry) (i : Z) : frame_table_entry :=
  if i <? cur then FTE true (next_empty_frame_index (mem i)) else FTE false (i + 1).

(** Returns the page table address ([0] for [NULL]), [*page_nums] and the new
    state. *)
Definition init_pagetable (mem : Z → frame_table_entry) (s : ft_state) : Z * Z * ft_state :=
  let top_of_ram := ram_getsize (ram s) in
  let '(ft_base, r) := ram_getfirstfree (ram s) in
  let frame_nums := top_of_ram / PAGE_SIZE in
  let ft_size := u32 (sizeof_frame_table_entry * frame_nums) in
  let cur := u32 (ft_base + ft_size + PAGE_SIZE - 1) / PAGE_SIZE in
  let page_table := paddr_to_kvaddr (get_frame_paddr cur) in
  let page_nums := u32 (frame_nums * 2) in
  let pt_size := u32 (sizeof_ptr * page_nums) in
  let cur := u32 (cur + u32 (pt_size + PAGE_SIZE - 1) / PAGE_SIZE) in
  if frame_nums <=? cur then
    (0, page_nums, FTState r (Some (map mem (seqZ 0 frame_nums))) frame_nums cur)
  else
    (page_table, page_nums,
     FTState r (Some (map (init_entry cur mem) (seqZ 0 frame_nums))) frame_nums cur).

Definition alloc_kpages (npages : Z) (s : ft_state) : outcome (Z * ft_state) :=
  '(addr, s) ←
    match frame_table s with
    | Some t =>
        if npages =? 1 then
          if frame_nums s <=? current_empty_frame_index s then Ok (0, s)
          else
            fte ← deref (zget t (current_empty_frame_index s));
            let addr := get_frame_paddr (current_empty_frame_index s) in
            let t := zset t (current_empty_frame_index s)
                       (FTE true (next_empty_frame_index fte)) in
            Ok (addr, FTState (ram s) (Some t) (frame_nums s) (next_empty_frame_index fte))
        else Ok (0, s)
    | None =>
        let '(addr, r) := ram_stealmem npages (ram s) in
        Ok (addr, FTState r None (frame_nums s) (current_empty_frame_index s))
    end;
  if addr =? 0 then Ok (0, s) else Ok (paddr_to_kvaddr addr, s).

Definition free_kpages (vaddr : Z) (s : ft_state) : outcome ft_state :=
  let paddr := kvaddr_to_paddr vaddr in
  let frame_index := paddr / PAGE_SIZE in
  if frame_nums s <=? frame_index then Ok s
  else
    t ← deref (frame_table s);
    fte ← deref (zget t frame_index);
    if is_used fte then
      let t := zset t frame_index (FTE false (current_empty_frame_index s)) in
      Ok (FTState (ram s) (Some t) (frame_nums s) frame_index)
    else Ok s.

(** ** The abstract view: which frames are in use *)

Definition frame_used (s : ft_state) (i : Z) : bool :=
  match frame_table s ≫= λ t, zget t i with
  | Some e => is_used e
  | None => false
  end.

(** [fl] is the free list that starts at index [cur]. *)
Fixpoint free_chain (t : list frame_table_entry) (cur : Z) (fl : list Z) : Prop :=
  match fl with
  | [] => cur = zlen t
  | i :: fl' =>
      cur = i ∧ 0 < i ∧
      ∃ e, zget t i = Some e ∧ is_used e = false ∧
           free_chain t (next_empty_frame_index e) fl'
  end.

Record ft_ok (s : ft_state) (fl : list Z) : Prop := {
  ok_table : ∃ t, frame_table s = Some t ∧ zlen t = frame_nums s ∧
    free_chain t (current_empty_frame_index s) fl ∧
    (∀ i e, zget t i = Some e → is_used e = false → i ∈ fl);
  ok_size : frame_nums s ≤ 131072;
  ok_nodup : NoDup fl
}.

(** The invariant of the frame table after a successful [init_pagetable]. *)
Definition ft_inv (s : ft_state) : Prop := ∃ fl, ft_ok s fl.

(** Client operations on the allocator, with the pages each client holds. *)
Inductive ft_step : ft_state * list Z → ft_state * list Z → Prop :=
| step_alloc s s' live v :
    alloc_kpages 1 s = Ok (v, s') → v ≠ 0 → ft_step (s, live) (s', v :: live)
| step_alloc_fail s s' live :
    alloc_kpages 1 s = Ok (0, s') → ft_step (s, live) (s', live)
| step_free s s' live1 v live2 :
    free_kpages v s = Ok s' → ft_step (s, live1 ++ v :: live2) (s', live1 ++ live2).

(** [n] successive calls of [alloc_kpages(1)], with the addresses returned. *)
Fixpoint alloc_many (n : nat) (s : ft_state) : outcome (list Z * ft_state) :=
  match n with
  | O => Ok ([], s)
  | S n' =>
      '(v, s) ← alloc_kpages 1 s;
      '(vs, s) ← alloc_many n' s;
      Ok (v :: vs, s)
  end.

(** The number of frames of the table that are not in use. *)
Definition free_frames (s : ft_state) : list Z :=
  filter (λ i, frame_used s i = false) (seqZ 0 (frame_nums s)).

(** The kernel address of frame [i]. *)
Definition frame_kvaddr (i : Z) : Z := MIPS_KSEG0 + i * PAGE_SIZE.

(** ** Address lemmas *)

Lemma frame_kvaddr_eq i :
  0 ≤ i < 131072 → paddr_to_kvaddr (get_frame_paddr i) = frame_kvaddr i.
Proof.
  intros. unfold paddr_to_kvaddr, get_frame_paddr, frame_kvaddr, MIPS_KSEG0, PAGE_SIZE.
  rewrite (u32_id (i * 4096)) by width. rewrite u32_id by width. lia.
Qed.

Lemma kvaddr_frame v :
  MIPS_KSEG0 ≤ v < two32 → kvaddr_to_paddr v / PAGE_SIZE = (v - MIPS_KSEG0) / PAGE_SIZE.
Proof. intros. unfold kvaddr_to_paddr. rewrite u32_id; [done|]. unfold MIPS_KSEG0 in *. width. Qed.

Lemma frame_of_kvaddr i o :
  0 ≤ i < 131072 → 0 ≤ o < PAGE_SIZE →
  kvaddr_to_paddr (frame_kvaddr i + o) / PAGE_SIZE = i.
Proof.
  intros. unfold PAGE_SIZE in *. rewrite kvaddr_frame.
  - unfold frame_kvaddr, PAGE_SIZE. symmetry. apply (Z.div_unique _ _ _ o); lia.
  - unfold frame_kvaddr, MIPS_KSEG0, PAGE_SIZE. width.
Qed.

(** ** The free list *)

Lemma free_chain_zset t cur fl i e :
  i ∉ fl → free_chain t cur fl → free_chain (zset t i e) cur fl.
Proof.
  revert cur. induction fl as [|j fl IH]; simpl; intros cur Hi.
  - by rewrite zlen_zset.
  - intros (-> & ? & e' & He & ? & ?). apply not_elem_of_cons in Hi as [? ?].
    split_and!; [done..|]. exists e'. rewrite zget_zset_ne by done. eauto.
Qed.

Lemma free_chain_elem t cur fl i :
  free_chain t cur fl → i ∈ fl →
  0 < i < zlen t ∧ ∃ e, zget t i = Some e ∧ is_used e = false.
Proof.
  revert cur. induction fl as [|j fl IH]; simpl; intros cur; [by intros _ ?%elem_of_nil|].
  intros (-> & ? & e & He & Hu & Hc) [->|Hi]%elem_of_cons; [|eauto].
  pose proof (zget_Some_range _ _ _ He). split; [lia|eauto].
Qed.

Lemma frame_used_zset r t n c i e j :
  0 ≤ i < zlen t →
  frame_used (FTState r (Some (zset t i e)) n c) j =
    if decide (j = i) then is_used e else
      match zget t j with Some e' => is_used e' | None => false end.
Proof.
  intros. unfold frame_used. simpl. rewrite zget_zset.
  repeat case_decide; naive_solver.
Qed.

Section invariant.
Implicit Types (s : ft_state) (fl : list Z).

Lemma ft_ok_free_iff s fl i :
  ft_ok s fl → i ∈ fl ↔ 0 ≤ i < frame_nums s ∧ frame_used s i = false.
Proof.
  intros [(t & Ht & Hlen & Hc & Hall) _ _]. unfold frame_used. rewrite Ht. simpl. split.
  - intros Hi. destruct (free_chain_elem _ _ _ _ Hc Hi) as (? & e & -> & ?).
    split; [lia|done].
  - intros [Hr Hu]. destruct (zget_range t i) as [e He]; [lia|].
    rewrite He in Hu. eauto.
Qed.

Lemma ft_ok_range s fl i : ft_ok s fl → i ∈ fl → 0 < i < frame_nums s.
Proof.
  intros [(t & Ht & Hlen & Hc & Hall) _ _] Hi.
  destruct (free_chain_elem _ _ _ _ Hc Hi). lia.
Qed.

Lemma alloc_nil s : ft_ok s [] → alloc_kpages 1 s = Ok (0, s).
Proof.
  intros [(t & Ht & Hlen & Hc & _) _ _]. simpl in Hc.
  unfold alloc_kpages. rewrite Ht. simpl.
  rewrite (proj2 (Z.leb_le _ _)) by lia. done.
Qed.

Lemma alloc_cons s i fl :
  ft_ok s (i :: fl) →
  ∃ s', alloc_kpages 1 s = Ok (frame_kvaddr i, s') ∧ ft_ok s' fl ∧
    frame_nums s' = frame_nums s ∧
    ∀ j, frame_used s' j = if decide (j = i) then true else frame_used s j.
Proof.
  intros Hok. pose proof (ft_ok_range _ _ i Hok (list_elem_of_here _ _)) as Hr.
  destruct Hok as [(t & Ht & Hlen & (Hcur & ? & e & He & Hu & Hc) & Hall) Hsz Hnd].
  apply NoDup_cons in Hnd as [Hni Hnd].
  eexists (FTState (ram s) (Some (zset t i (FTE true (next_empty_frame_index e))))
             (frame_nums s) (next_empty_frame_index e)).
  split_and!; [| |done|].
  - unfold alloc_kpages. rewrite Ht. simpl. rewrite Hcur.
    rewrite (proj2 (Z.leb_gt _ _)) by lia. rewrite He. simpl.
    rewrite (proj2 (Z.eqb_neq _ _)).
    + by rewrite frame_kvaddr_eq by lia.
    + unfold get_frame_paddr, PAGE_SIZE. rewrite u32_id by width. lia.
  - split; [|done..]. eexists. split_and!; [done|simpl; by rewrite zlen_zset| |].
    + simpl. by apply free_chain_zset.
    + intros j e'. rewrite zget_zset. case_decide; [naive_solver|].
      intros Hj Hf. specialize (Hall _ _ Hj Hf). apply elem_of_cons in Hall as [->|]; [lia|done].
  - intros j. rewrite frame_used_zset by lia. unfold frame_used. rewrite Ht. done.
Qed.

Lemma free_used s fl i o :
  ft_ok s fl → 0 < i < frame_nums s → 0 ≤ o < PAGE_SIZE → frame_used s i = true →
  ∃ s', free_kpages (frame_kvaddr i + o) s = Ok s' ∧ ft_ok s' (i :: fl) ∧
    frame_nums s' = frame_nums s ∧
    ∀ j, frame_used s' j = if decide (j = i) then false else frame_used s j.
Proof.
  intros Hok Hr Ho Hu. assert (i ∉ fl) as Hni.
  { intros ?%(ft_ok_free_iff _ _ _ Hok). destruct_and!; congruence. }
  destruct Hok as [(t & Ht & Hlen & Hc & Hall) Hsz Hnd].
  destruct (zget_range t i) as [e He]; [lia|].
  unfold frame_used in Hu. rewrite Ht in Hu. simpl in Hu. rewrite He in Hu.
  exists (FTState (ram s) (Some (zset t i (FTE false (current_empty_frame_index s))))
             (frame_nums s) i).
  split_and!; [| |done|].
  - unfold free_kpages. rewrite frame_of_kvaddr by lia.
    rewrite (proj2 (Z.leb_gt _ _)) by lia. rewrite Ht. simpl. rewrite He. simpl.
    by rewrite Hu.
  - split; [|done|by apply NoDup_cons].
    eexists. split_and!; [done|simpl; by rewrite zlen_zset| |].
    + simpl. split_and!; [done|lia|]. rewrite zget_zset_eq by lia.
      eexists. split_and!; [done..|]. simpl. by apply free_chain_zset.
    + intros j e'. rewrite zget_zset. case_decide; [set_solver|].
      intros Hj Hf. specialize (Hall _ _ Hj Hf). set_solver.
  - intros j. rewrite frame_used_zset by lia. unfold frame_used. rewrite Ht. done.
Qed.

(** Freeing a page that is not in use, or an address outside RAM, does nothing. *)
Lemma free_unused s fl v :
  ft_ok s fl →
  frame_nums s ≤ kvaddr_to_paddr v / PAGE_SIZE ∨
    frame_used s (kvaddr_to_paddr v / PAGE_SIZE) = false →
  free_kpages v s = Ok s.
Proof.
  intros Hok Hc. unfold free_kpages.
  destruct (frame_nums s <=? kvaddr_to_paddr v / PAGE_SIZE) eqn:E; [done|].
  apply Z.leb_gt in E. destruct Hok as [(t & Ht & Hlen & _) _ _].
  assert (0 ≤ kvaddr_to_paddr v / PAGE_SIZE).
  { apply Z.div_pos; [|done]. apply u32_range. }
  destruct (zget_range t (kvaddr_to_paddr v / PAGE_SIZE)) as [e He]; [lia|].
  rewrite Ht. simpl. rewrite He. simpl.
  destruct Hc as [?|Hu]; [lia|]. unfold frame_used in Hu. rewrite Ht in Hu.
  simpl in Hu. rewrite He in Hu. by rewrite Hu.
Qed.

Lemma ft_ok_perm s fl : ft_ok s fl → Permutation fl (free_frames s).
Proof.
  intros Hok. apply NoDup_Permutation.
  - by destruct Hok.
  - apply NoDup_filter, NoDup_seqZ.
  - intros i. unfold free_frames. rewrite list_elem_of_filter, elem_of_seqZ.
    rewrite (ft_ok_free_iff _ _ _ Hok). intuition lia.
Qed.

Lemma alloc_many_ok fl s :
  ft_ok s fl →
  ∃ s', alloc_many (length fl) s = Ok (map frame_kvaddr fl, s') ∧ ft_ok s' [].
Proof.
  revert s. induction fl as [|i fl IH]; intros s Hok; simpl; [eauto|].
  destruct (alloc_cons _ _ _ Hok) as (s1 & -> & Hok1 & _). simpl.
  destruct (IH _ Hok1) as (s2 & -> & ?). simpl. eauto.
Qed.

Lemma init_chain f n cur :
  (∀ i, cur ≤ i < n → f i = FTE false (i + 1)) → 0 < cur ≤ n →
  free_chain (map f (seqZ 0 n)) cur (seqZ cur (n - cur)).
Proof.
  intros Hf. remember (Z.to_nat (n - cur)) as k eqn:Hk.
  revert cur Hf Hk. induction k as [|k IH]; intros cur Hf Hk Hc.
  - replace (n - cur) with 0 by lia. simpl. rewrite zlen_map_seqZ by lia. lia.
  - rewrite (seqZ_cons cur) by lia. simpl. split_and!; [done|lia|].
    exists (FTE false (cur + 1)). rewrite zget_map_seqZ by lia.
    split_and!; [f_equal; apply Hf; lia|done|]. simpl.
    replace (Z.pred (n - cur)) with (n - (cur + 1)) by lia.
    apply IH; [|lia..]. intros i ?. apply Hf. lia.
Qed.

Lemma init_pagetable_inv mem s pt n s' :
  0 ≤ lastpaddr (ram s) ≤ 512 * 1024 * 1024 →
  0 ≤ firstpaddr (ram s) ≤ lastpaddr (ram s) →
  init_pagetable mem s = (pt, n, s') → pt ≠ 0 →
  ∃ fcur cur,
    fcur = (firstpaddr (ram s) + 8 * frame_nums s' + 4095) / 4096 ∧
    cur = fcur + (8 * frame_nums s' + 4095) / 4096 ∧
    0 < cur < frame_nums s' ∧ frame_nums s' = lastpaddr (ram s) / PAGE_SIZE ∧
    pt = frame_kvaddr fcur ∧ n = 2 * frame_nums s' ∧
    ft_ok s' (seqZ cur (frame_nums s' - cur)) ∧
    ∀ i, 0 ≤ i < frame_nums s' → frame_used s' i = bool_decide (i < cur).
Proof.
  intros Hlast Hfirst Hinit Hpt. unfold init_pagetable, ram_getfirstfree, ram_getsize in Hinit.
  simpl in Hinit. unfold sizeof_frame_table_entry, sizeof_ptr, PAGE_SIZE in Hinit.
  set (N := lastpaddr (ram s) / 4096) in *.
  assert (0 ≤ N ≤ 131072 ∧ 4096 * N ≤ lastpaddr (ram s)) as [HN HN'].
  { subst N. split; [split|]; [apply Z.div_pos; lia|apply Z.div_le_upper_bound; lia|].
    apply Z.mul_div_le. lia. }
  rewrite (u32_id (8 * N)) in Hinit by width.
  rewrite (u32_id (N * 2)) in Hinit by width.
  rewrite (u32_id (4 * (N * 2))) in Hinit by width.
  rewrite (u32_id (_ + 8 * N + _ - 1)) in Hinit by width.
  rewrite (u32_id (4 * (N * 2) + _ - 1)) in Hinit by width.
  set (fcur := (firstpaddr (ram s) + 8 * N + 4096 - 1) / 4096) in *.
  assert (0 ≤ fcur ≤ 4194304) as Hf.
  { subst fcur. split; [apply Z.div_pos; lia|apply Z.div_le_upper_bound; lia]. }
  set (d := (4 * (N * 2) + 4096 - 1) / 4096) in *.
  assert (0 ≤ d ≤ 4096) as Hd.
  { subst d. split; [apply Z.div_pos; lia|apply Z.div_le_upper_bound; lia]. }
  rewrite (u32_id (fcur + d)) in Hinit by width.
  destruct (N <=? fcur + d) eqn:E; simplify_eq/=. apply Z.leb_gt in E.
  assert (0 < fcur + d).
  { subst d. assert (1 ≤ (4 * (N * 2) + 4096 - 1) / 4096); [|lia].
    apply Z.div_le_lower_bound; lia. }
  exists fcur, (fcur + d). split_and!.
  - subst fcur. f_equal. lia.
  - subst d. do 2 f_equal. lia.
  - lia.
  - lia.
  - done.
  - apply frame_kvaddr_eq. lia.
  - lia.
  - split; simpl; [|lia|apply NoDup_seqZ].
    eexists. split_and!; [done|by rewrite zlen_map_seqZ by lia| |].
    + apply init_chain; [|lia]. intros i Hi. unfold init_entry.
      by rewrite (proj2 (Z.ltb_ge _ _)) by lia.
    + intros i e Hi Hu. pose proof (zget_Some_range _ _ _ Hi) as Hr.
      rewrite zlen_map_seqZ in Hr by lia. rewrite zget_map_seqZ in Hi by lia.
      simplify_eq. unfold init_entry in Hu. apply elem_of_seqZ.
      destruct (i <? fcur + d) eqn:Ei; [done|]. apply Z.ltb_ge in Ei. lia.
  - intros i Hi. unfold frame_used. simpl. rewrite zget_map_seqZ by lia.
    unfold init_entry. destruct (i <? fcur + d) eqn:Ei; simpl; symmetry;
      [apply bool_decide_eq_true; apply Z.ltb_lt in Ei; lia
      |apply bool_decide_eq_false; apply Z.ltb_ge in Ei; lia].
Qed.

Lemma ft_step_inv s0 :
  ft_inv s0 →
  ∀ c, reachable (eq (s0, [])) ft_step c →
  ft_inv c.1 ∧ frame_nums c.1 = frame_nums s0 ∧ NoDup c.2 ∧
  (∀ i, frame_used s0 i = true → frame_used c.1 i = true) ∧
  ∀ v, v ∈ c.2 → ∃ i, v = frame_kvaddr i ∧ 0 < i < frame_nums s0 ∧
    frame_used c.1 i = true ∧ frame_used s0 i = false.
Proof.
  intros Hinv0. apply reachable_invariant.
  { intros ? <-. split_and!; [done..|constructor|done|]. by intros ? ?%elem_of_nil. }
  intros [s live] c' ([fl Hok] & Hn & Hnd & Hkeep & Hlive) Hstep. simpl in *.
  inversion Hstep as [? s' ? v Ha Hv|? s' ? Ha|? s' live1 v live2 Hf]; subst; simpl in *.
  - destruct fl as [|i fl]; [rewrite alloc_nil in Ha by done; congruence|].
    destruct (alloc_cons _ _ _ Hok) as (s1 & Hs1 & Hok1 & Hn1 & Hu1).
    rewrite Hs1 in Ha. simplify_eq.
    pose proof (ft_ok_range _ _ i Hok (list_elem_of_here _ _)) as Hr.
    assert (frame_used s i = false) as Hui.
    { apply (ft_ok_free_iff _ _ _ Hok). by left. }
    split_and!; [by eexists|congruence| | |].
    + apply NoDup_cons. split; [|done]. intros (j & Hj & ? & Huj & _)%Hlive.
      assert (i = j) by (unfold frame_kvaddr, PAGE_SIZE in Hj; lia). congruence.
    + intros j Hj. rewrite Hu1. case_decide; auto.
    + intros v [->|Hin]%elem_of_cons.
      * exists i. rewrite Hu1, decide_True by done. split_and!; [done|lia|lia|done|].
        destruct (frame_used s0 i) eqn:E; [|done]. apply Hkeep in E. congruence.
      * destruct (Hlive _ Hin) as (j & -> & ? & ? & ?). exists j.
        rewrite Hu1. case_decide; eauto.
  - destruct fl as [|i fl].
    + rewrite alloc_nil in Ha by done. simplify_eq.
      split_and!; [by eexists|done..].
    + destruct (alloc_cons _ _ _ Hok) as (s1 & Hs1 & _).
      pose proof (ft_ok_range _ _ i Hok (list_elem_of_here _ _)) as Hr.
      rewrite Hs1 in Ha. unfold frame_kvaddr, MIPS_KSEG0, PAGE_SIZE in Ha. by simplify_eq; lia.
  - destruct (Hlive v) as (i & -> & Hr & Hu & Hu0); [set_solver|].
    destruct (free_used _ _ i 0 Hok) as (s1 & Hs1 & Hok1 & Hn1 & Hu1);
      [lia|done|done|].
    rewrite Z.add_0_r in Hs1. rewrite Hs1 in Hf. simplify_eq.
    apply NoDup_app in Hnd as (Hnd1 & Hd & Hnd2). apply NoDup_cons in Hnd2 as [Hni Hnd2].
    split_and!; [by eexists|congruence| | |].
    + apply NoDup_app. split_and!; [done| |done]. set_solver.
    + intros j Hj. rewrite Hu1. case_decide; [|auto]. congruence.
    + intros v Hin. assert (v ≠ frame_kvaddr i) as Hne.
      { intros ->. set_solver. }
      destruct (Hlive v) as (j & -> & ? & ? & ?); [set_solver|]. exists j.
      rewrite Hu1. case_decide; [congruence|]. eauto.
Qed.

End invariant.

(** ** Properties of the frame allocator *)

(** When [init_pagetable] succeeds the frame table invariant holds, the
    page table has two slots per frame, and every frame that holds a byte of
    the kernel below the frame table, of the frame table, or of the page table
    is marked in use, while all later frames are free. *)
Theorem init_pagetable_reserves mem s pt n s'
  (Hlast : 0 ≤ lastpaddr (ram s) ≤ 512 * 1024 * 1024)
  (Hfirst : 0 ≤ firstpaddr (ram s) ≤ lastpaddr (ram s))
  (Hinit : init_pagetable mem s = (pt, n, s')) (Hpt : pt ≠ 0) :
  ft_inv s' ∧ n = 2 * frame_nums s' ∧
  (∀ a, 0 ≤ a < firstpaddr (ram s) + sizeof_frame_table_entry * frame_nums s' ∨
        kvaddr_to_paddr pt ≤ a < kvaddr_to_paddr pt + sizeof_ptr * n →
        a / PAGE_SIZE < frame_nums s' ∧ frame_used s' (a / PAGE_SIZE) = true) ∧
  (∀ i, kvaddr_to_paddr pt + sizeof_ptr * n ≤ i * PAGE_SIZE → i < frame_nums s' →
        frame_used s' i = false).
Proof.
  destruct (init_pagetable_inv _ _ _ _ _ Hlast Hfirst Hinit Hpt)
    as (fcur & cur & Hf & Hc & Hr & HN & -> & -> & Hok & Hu).
  assert (0 ≤ fcur) by (subst fcur; apply Z.div_pos; lia).
  pose proof (ok_size _ _ Hok) as Hsz.
  assert (0 ≤ (8 * frame_nums s' + 4095) / 4096) by (apply Z.div_pos; lia).
  assert (kvaddr_to_paddr (frame_kvaddr fcur) = 4096 * fcur) as Hk.
  { unfold kvaddr_to_paddr, frame_kvaddr, MIPS_KSEG0, PAGE_SIZE. rewrite u32_id; width. }
  rewrite Hk. unfold sizeof_frame_table_entry, sizeof_ptr, PAGE_SIZE in *.
  assert (0 ≤ frame_nums s') by lia.
  pose proof (Z.mul_div_le (8 * frame_nums s' + 4095) 4096 ltac:(lia)).
  pose proof (Z.mod_pos_bound (8 * frame_nums s' + 4095) 4096 ltac:(lia)).
  pose proof (Z.div_mod (8 * frame_nums s' + 4095) 4096 ltac:(lia)).
  pose proof (Z.mod_pos_bound (firstpaddr (ram s) + 8 * frame_nums s' + 4095) 4096 ltac:(lia)).
  pose proof (Z.div_mod (firstpaddr (ram s) + 8 * frame_nums s' + 4095) 4096 ltac:(lia)).
  split_and!; [by eexists|done| |].
  - intros a Ha. assert (0 ≤ a / 4096 < cur) as Hac.
    { split; [apply Z.div_pos; lia|]. apply Z.div_lt_upper_bound; lia. }
    split; [lia|]. rewrite Hu by lia. apply bool_decide_eq_true. lia.
  - intros i Hi Hin. rewrite Hu by lia. apply bool_decide_eq_false. lia.
Qed.

(** [alloc_kpages(1)] on a well-formed frame table either finds every frame
    in use, returns 0 and changes nothing, or returns the page-aligned kernel
    address of a frame that was free and marks exactly that frame in use. *)
Theorem alloc_kpages_one s (Hinv : ft_inv s) :
  (alloc_kpages 1 s = Ok (0, s) ∧ ∀ i, 0 ≤ i < frame_nums s → frame_used s i = true) ∨
  ∃ i s', alloc_kpages 1 s = Ok (frame_kvaddr i, s') ∧ 0 < i < frame_nums s ∧
    frame_used s i = false ∧ ft_inv s' ∧ frame_nums s' = frame_nums s ∧
    ∀ j, frame_used s' j = if decide (j = i) then true else frame_used s j.
Proof.
  destruct Hinv as [[|i fl] Hok].
  - left. split; [by apply alloc_nil|]. intros i Hi.
    destruct (frame_used s i) eqn:E; [done|].
    by destruct (not_elem_of_nil i (proj2 (ft_ok_free_iff _ _ i Hok) (conj Hi E))).
  - right. destruct (alloc_cons _ _ _ Hok) as (s' & ? & ? & ? & ?). exists i, s'.
    pose proof (list_elem_of_here i fl) as Hin. pose proof (ft_ok_range _ _ _ Hok Hin).
    split_and!; [done|lia|lia| |by eexists|done|done].
    by apply (ft_ok_free_iff _ _ _ Hok).
Qed.

(** [free_kpages] accepts any address inside a page: if the frame is in
    use it becomes free and nothing else changes, and if it is already free or
    outside RAM (a double free, a wild address) the call has no effect. *)
Theorem free_kpages_spec s i o (Hinv : ft_inv s)
  (Hi : 0 < i < 131072) (Ho : 0 ≤ o < PAGE_SIZE) :
  ∃ s', free_kpages (frame_kvaddr i + o) s = Ok s' ∧ ft_inv s' ∧
    (∀ j, frame_used s' j = if decide (j = i) then false else frame_used s j) ∧
    (frame_used s i = false → s' = s).
Proof.
  destruct Hinv as [fl Hok]. destruct (frame_used s i) eqn:E.
  - assert (i < frame_nums s).
    { unfold frame_used in E. destruct Hok as [(t & Ht & <- & _) _ _].
      rewrite Ht in E. simpl in E. destruct (zget t i) eqn:Eg; [|done].
      apply zget_Some_range in Eg. lia. }
    destruct (free_used s fl i o Hok) as (s' & ? & ? & ? & ?); [lia|done|done|].
    exists s'. split_and!; [done|by eexists|done|done].
  - exists s. split_and!; [|by eexists| |done].
    + apply (free_unused _ fl); [done|]. rewrite frame_of_kvaddr by lia. auto.
    + intros j. case_decide; by subst.
Qed.

(** C6: over any interleaving of [alloc_kpages(1)] and [free_kpages] calls in
    which clients free only pages they hold, no page is ever held twice, every
    held page is marked in use, and no page held was in use at the start. *)
Theorem frames_never_shared s0 s live
  (Hinv : ft_inv s0) (Hreach : reachable (eq (s0, [])) ft_step (s, live)) :
  NoDup live ∧
  ∀ v, v ∈ live → ∃ i, v = frame_kvaddr i ∧ 0 < i < frame_nums s0 ∧
    frame_used s i = true ∧ frame_used s0 i = false.
Proof. by destruct (ft_step_inv s0 Hinv _ Hreach) as (_ & _ & ? & _ & ?). Qed.

(** No free frame is ever lost: from any well-formed table exactly as
    many allocations succeed as there are frames not in use, they return all
    those frames, and the next allocation fails. *)
Theorem alloc_exhausts s (Hinv : ft_inv s) :
  ∃ vs s', alloc_many (length (free_frames s)) s = Ok (vs, s') ∧
    Permutation vs (map frame_kvaddr (free_frames s)) ∧
    alloc_kpages 1 s' = Ok (0, s').
Proof.
  destruct Hinv as [fl Hok]. pose proof (ft_ok_perm _ _ Hok) as Hp.
  destruct (alloc_many_ok _ _ Hok) as (s' & Hs & Hok').
  exists (map frame_kvaddr fl), s'. rewrite <-Hp. split_and!; [done|done|].
  by apply alloc_nil.
Qed.

(** ** A concrete machine: 64 KB of RAM, the kernel in the first page *)

Definition demo_mem (i : Z) : frame_table_entry := FTE false 0.
Definition demo_boot : ft_state := ft_boot (RamState 4096 65536).
Definition demo_ft : ft_state := (init_pagetable demo_mem demo_boot).2.

Lemma demo_ft_inv : ft_inv demo_ft.
Proof.
  destruct (init_pagetable_inv demo_mem demo_boot (frame_kvaddr 2) 32 demo_ft)
    as (? & ? & _ & _ & _ & _ & _ & _ & ? & _); [simpl; lia..|done|done|].
  by eexists.
Qed.

Lemma init_pagetable_reserves_witness :
  ft_inv demo_ft ∧ frame_nums demo_ft = 16 ∧ frame_used demo_ft (8300 / PAGE_SIZE) = true ∧
  frame_used demo_ft 3 = false.
Proof.
  destruct (init_pagetable_reserves demo_mem demo_boot (frame_kvaddr 2) 32 demo_ft)
    as (H1 & H2 & H3 & H4); [simpl; lia..|reflexivity|discriminate|].
  split; [exact H1|]. split; [reflexivity|]. split.
  - apply H3. right. vm_compute. split; discriminate || reflexivity.
  - apply H4; vm_compute; discriminate || reflexivity.
Defined.

Lemma alloc_kpages_one_witness :
  ∃ i s', alloc_kpages 1 demo_ft = Ok (frame_kvaddr i, s') ∧ frame_used demo_ft i = false.
Proof.
  destruct (alloc_kpages_one demo_ft demo_ft_inv) as [[H _]|(i & s' & H & _ & Hu & _)].
  - vm_compute in H. discriminate H.
  - exists i, s'. split; [exact H|exact Hu].
Defined.

Lemma free_kpages_spec_witness :
  ∃ s', free_kpages (frame_kvaddr 2 + 17) demo_ft = Ok s' ∧ frame_used s' 2 = false.
Proof.
  destruct (free_kpages_spec demo_ft 2 17 demo_ft_inv) as (s' & H & _ & Hu & _);
    [lia|unfold PAGE_SIZE; lia|].
  exists s'. split; [exact H|]. rewrite Hu. reflexivity.
Defined.

Lemma frames_never_shared_witness :
  ∃ s, alloc_kpages 1 demo_ft = Ok (frame_kvaddr 3, s) ∧
    reachable (eq (demo_ft, [])) ft_step (s, [frame_kvaddr 3]) ∧ NoDup [frame_kvaddr 3].
Proof.
  eexists. split; [vm_compute; reflexivity|].
  match goal with |- reachable _ _ ?c ∧ _ => assert (reachable (eq (demo_ft, [])) ft_step c) as Hr end.
  { eapply reach_step; [apply reach_init; reflexivity|].
    apply step_alloc; [vm_compute; reflexivity|discriminate]. }
  split; [exact Hr|]. exact (proj1 (frames_never_shared _ _ _ demo_ft_inv Hr)).
Defined.

Lemma alloc_exhausts_witness :
  ∃ vs s', alloc_many 13 demo_ft = Ok (vs, s') ∧ alloc_kpages 1 s' = Ok (0, s').
Proof.
  destruct (alloc_exhausts demo_ft demo_ft_inv) as (vs & s' & H & _ & H').
  exists vs, s'. split; [exact H|exact H'].
Defined.

End FrameTable.
