(* ===== verification/VmState.v ===== *)
(** * Kernel state of the virtual memory system

    The structs of asst3/kern/include/{vm,addrspace}.h, the file-scope
    variables of asst3/kern/vm/vm.c, the TLB and physical memory.  Pointers are
    machine addresses, with 0 for [NULL]; the objects of each type live in a
    heap from addresses to values.

    The kernel heap (kmalloc.c) is an interface: the class [KMalloc] gives the
    two calls and [KMallocLaws] what the virtual memory code relies on. *)

From S2P Require Import Prelude LinkedList FrameTable.
Import Ram FrameTable.

Record page_table_entry := PTE {
  pid : Z;
  page_vaddr : Z;
  frame_paddr : Z;
  pte_next : Z
}.

Record region := Region {
  base_page_vaddr : Z;
  region_page_nums : Z;
  permission : Z;
  next_region : Z
}.

Record addrspace := AddrSpace {
  as_regions : Z;
  dirty_mask : Z
}.

#[export] Instance pte_linked : Linked page_table_entry := {
  next := pte_next;
  set_next p v := PTE (pid v) (page_vaddr v) (frame_paddr v) p
}.

#[export] Instance region_linked : Linked region := {
  next := next_region;
  set_next p r := Region (base_page_vaddr r) (region_page_nums r) (permission r) p
}.

#[export] Instance pte_linked_laws : LinkedLaws page_table_entry.
Proof. by split; intros; try destruct v. Qed.

#[export] Instance region_linked_laws : LinkedLaws region.
Proof. by split; intros; try destruct v. Qed.

(** Values of elf.h and tlb.h. *)
Definition PERMISSION_READ : Z := 4.
Definition PERMISSION_WRITE : Z := 2.
Definition PERMISSION_EXECUTE : Z := 1.

Definition TLBLO_DIRTY : Z := 1024.
Definition TLBLO_VALID : Z := 512.
Definition NUM_TLB : Z := 64.
Definition TLBHI_INVALID (entryno : Z) : Z := u32 (Z.shiftl (524288 + entryno) 12).
Definition TLBLO_INVALID : Z := 0.

Definition USERSTACK : Z := MIPS_KSEG0.

(** The contents of one physical page, a list of [PAGE_SIZE] bytes. *)
Abbreviation page := (list Z).
Definition zero_page : page := replicate (Z.to_nat PAGE_SIZE) 0.

(** Physical memory: the frame table, the contents of the pages, and the frames
    the heap allocator has taken for itself. *)
Record phys := Phys {
  p_ft : ft_state;
  p_ram : gmap Z page;
  p_heap : gset Z
}.

(** [curproc_as] is [None] when [curproc] is [NULL] and [Some as] when the
    current process has the address space pointer [as], possibly [NULL].
    [page_table_lock] tells whether the current thread holds the lock. *)
Record kern := Kern {
  k_phys : phys;
  page_table : list Z;
  page_nums : Z;
  page_table_lock : bool;
  ptes : gmap Z page_table_entry;
  aspaces : gmap Z addrspace;
  regions : gmap Z region;
  tlb : list (Z * Z);
  curproc_as : option Z
}.

Definition with_phys (ph : phys) (k : kern) : kern :=
  Kern ph (page_table k) (page_nums k) (page_table_lock k) (ptes k)
    (aspaces k) (regions k) (tlb k) (curproc_as k).

Definition with_pt (pt : list Z) (h : gmap Z page_table_entry) (k : kern) : kern :=
  Kern (k_phys k) pt (page_nums k) (page_table_lock k) h
    (aspaces k) (regions k) (tlb k) (curproc_as k).

Definition with_lock (b : bool) (k : kern) : kern :=
  Kern (k_phys k) (page_table k) (page_nums k) b (ptes k)
    (aspaces k) (regions k) (tlb k) (curproc_as k).

Definition with_as (ass : gmap Z addrspace) (rs : gmap Z region) (k : kern) : kern :=
  Kern (k_phys k) (page_table k) (page_nums k) (page_table_lock k) (ptes k)
    ass rs (tlb k) (curproc_as k).

Definition with_tlb (t : list (Z * Z)) (k : kern) : kern :=
  Kern (k_phys k) (page_table k) (page_nums k) (page_table_lock k) (ptes k)
    (aspaces k) (regions k) t (curproc_as k).

(** [lock_acquire]/[lock_release] of [page_table_lock], with the assertions of
    synch.c: a thread neither takes a lock it holds nor drops one it does not. *)
Definition lock_pt (k : kern) : outcome kern :=
  if page_table_lock k then Panic else Ok (with_lock true k).
Definition unlock_pt (k : kern) : outcome kern :=
  if page_table_lock k then Ok (with_lock false k) else Panic.

(** [tlb_write]; [tlb_random] is the same with a slot chosen by the processor. *)
Definition tlb_write (entryhi entrylo index : Z) (k : kern) : kern :=
  with_tlb (zset (tlb k) index (entryhi, entrylo)) k.

(** The frame behind a page-aligned kernel address of kseg0. *)
Definition kpage (vaddr : Z) : option Z :=
  if decide (MIPS_KSEG0 ≤ vaddr < MIPS_KSEG0 + 512 * 1024 * 1024 ∧ vaddr mod PAGE_SIZE = 0)
  then Some ((vaddr - MIPS_KSEG0) / PAGE_SIZE) else None.

Definition bzero_page (vaddr : Z) (k : kern) : outcome kern :=
  let ph := k_phys k in
  i ← deref (kpage vaddr);
  Ok (with_phys (Phys (p_ft ph) (<[i := zero_page]> (p_ram ph)) (p_heap ph)) k).

Definition memcpy_page (dst src : Z) (k : kern) : outcome kern :=
  let ph := k_phys k in
  i ← deref (kpage dst);
  j ← deref (kpage src);
  p ← deref (p_ram ph !! j);
  Ok (with_phys (Phys (p_ft ph) (<[i := p]> (p_ram ph)) (p_heap ph)) k).

(** Calls of the frame allocator. *)
Definition alloc_kpage (k : kern) : outcome (Z * kern) :=
  let ph := k_phys k in
  '(v, ft) ← alloc_kpages 1 (p_ft ph);
  Ok (v, with_phys (Phys ft (p_ram ph) (p_heap ph)) k).

Definition free_kpage (vaddr : Z) (k : kern) : outcome kern :=
  let ph := k_phys k in
  ft ← free_kpages vaddr (p_ft ph);
  Ok (with_phys (Phys ft (p_ram ph) (p_heap ph)) k).

(** The frame that holds a mapped page. *)
Definition pte_frame (v : page_table_entry) : Z := frame_paddr v / PAGE_SIZE.

(** Object addresses in use. *)
Definition live_object (k : kern) (a : Z) : Prop :=
  is_Some (ptes k !! a) ∨ is_Some (aspaces k !! a) ∨ is_Some (regions k !! a).

(** The frame table is well formed and the heap's frames are in use. *)
Definition phys_inv (ph : phys) : Prop :=
  ft_inv (p_ft ph) ∧ ∀ i, i ∈ p_heap ph → frame_used (p_ft ph) i = true.

(** Frame [i] belongs to a client of the frame allocator, not to the heap. *)
Definition owned (ph : phys) (i : Z) : Prop :=
  frame_used (p_ft ph) i = true ∧ i ∉ p_heap ph.

(** A change of physical memory that leaves alone every owned frame. *)
Definition phys_ext (ph ph' : phys) : Prop :=
  (phys_inv ph → phys_inv ph') ∧
  frame_nums (p_ft ph') = frame_nums (p_ft ph) ∧
  ∀ i, owned ph i → owned ph' i ∧ p_ram ph' !! i = p_ram ph !! i.

(** The heap allocator.  It takes pages from the frame table and returns them
    to it, so both calls give the physical memory they leave.  They are functions: that
    the allocator returns from every call is an assumption of this interface.  Kmalloc
    models kmalloc.c itself, which does return as long as fewer than 256 pagerefs have
    been lost by failed allocations, and fails an assertion after that. *)
Class KMalloc := {
  kmalloc : kern → Z * phys;
  kfree : Z → kern → phys
}.

Class KMallocLaws `{KMalloc} := {
  (** A non-[NULL] result is the address of no live object, and no page of
      another client of the frame table is touched. *)
  kmalloc_laws k a ph :
    kmalloc k = (a, ph) →
    phys_ext (k_phys k) ph ∧ (a ≠ 0 → is_u32 a ∧ ¬ live_object k a);
  (** [kfree] gives pages back and takes none. *)
  kfree_laws a k : phys_ext (k_phys k) (kfree a k);
  kfree_takes_none a k i :
    frame_used (p_ft (k_phys k)) i = false → frame_used (p_ft (kfree a k)) i = false
}.

(** [kmalloc] and [kfree] for a caller that keeps the state. *)
Definition run_kmalloc `{KMalloc} (k : kern) : Z * kern :=
  let '(a, ph) := kmalloc k in (a, with_phys ph k).

Definition run_kfree `{KMalloc} (a : Z) (k : kern) : kern := with_phys (kfree a k) k.

(** ** An allocator that satisfies the interface

    It never gives up pages and hands out 64-byte slots of a fixed arena. *)

Definition arena (k : kern) : list Z :=
  map (λ i, MIPS_KSEG0 + 1048576 + 64 * i)
    (seqZ 0 (Z.of_nat (size (ptes k) + size (aspaces k) + size (regions k)) + 1)).

Definition arena_free (k : kern) (a : Z) : bool :=
  bool_decide (a < two32 ∧ ptes k !! a = None ∧ aspaces k !! a = None ∧ regions k !! a = None).

#[export] Instance arena_kmalloc : KMalloc := {
  kmalloc k := (default 0 (head (filter (λ a, arena_free k a = true) (arena k))), k_phys k);
  kfree a k := k_phys k
}.

#[export] Instance arena_kmalloc_laws : KMallocLaws.
Proof.
  split.
  - intros k a ph. simpl. intros [= <- <-]. split; [done|].
    destruct (filter _ _) as [|a l] eqn:E; [done|]. simpl. intros _.
    assert (a ∈ filter (λ a, arena_free k a = true) (arena k)) as Hin by (rewrite E; by left).
    apply list_elem_of_filter in Hin as [Hf Ha].
    apply bool_decide_eq_true in Hf as (? & Hp & Has & Hr).
    apply list_elem_of_fmap in Ha as (i & -> & Hi%elem_of_seqZ).
    split; [unfold MIPS_KSEG0 in *; width|]. unfold live_object. rewrite Hp, Has, Hr.
    by intros [[??]|[[??]|[??]]].
  - done.
  - done.
Qed.

(** ** Physical memory lemmas *)

Lemma phys_ext_refl ph : phys_ext ph ph.
Proof. done. Qed.

Lemma phys_ext_trans ph1 ph2 ph3 : phys_ext ph1 ph2 → phys_ext ph2 ph3 → phys_ext ph1 ph3.
Proof.
  intros (Hi & Hn & Ho) (Hi' & Hn' & Ho'). split_and!; [auto|congruence|].
  intros i [Hi1 Hr1]%Ho. destruct (Ho' _ Hi1) as [? ->]. done.
Qed.

#[export] Instance phys_ext_preorder : PreOrder phys_ext.
Proof. split; [exact phys_ext_refl|exact phys_ext_trans]. Qed.

Lemma kpage_frame i : 0 ≤ i < 131072 → kpage (frame_kvaddr i) = Some i.
Proof.
  intros. unfold kpage, frame_kvaddr, PAGE_SIZE. rewrite decide_True.
  - f_equal. rewrite Z.add_simpl_l. by apply Z.div_mul.
  - split; [lia|]. unfold MIPS_KSEG0.
    replace (2147483648 + i * 4096) with ((524288 + i) * 4096) by lia. by apply Z.mod_mul.
Qed.

(** Whether a frame is in use. *)
Definition used (k : kern) (i : Z) : bool := frame_used (p_ft (k_phys k)) i.

(** Taking a page: either none is left and the state is unchanged, or the new
    page belongs to the caller and every other owned page is as before. *)
Lemma alloc_kpage_spec k :
  phys_inv (k_phys k) →
  alloc_kpage k = Ok (0, k) ∧ (∀ i, 0 ≤ i < frame_nums (p_ft (k_phys k)) → used k i = true) ∨
  ∃ i ph, alloc_kpage k = Ok (frame_kvaddr i, with_phys ph k) ∧
    0 < i < 131072 ∧ ¬ owned (k_phys k) i ∧ owned ph i ∧ phys_ext (k_phys k) ph ∧
    phys_inv ph ∧ p_ram ph = p_ram (k_phys k) ∧ used k i = false ∧
    ∀ j, frame_used (p_ft ph) j = if decide (j = i) then true else used k j.
Proof.
  destruct k as [[ft r hp] ???????]. simpl. intros [[fl Hok] Hh]. unfold alloc_kpage. simpl in *.
  destruct fl as [|i fl].
  { left. rewrite alloc_nil by done. split; [done|]. intros i Hi. unfold used. simpl.
    destruct (frame_used ft i) eqn:E; [done|]. by destruct (not_elem_of_nil i (proj2 (ft_ok_free_iff _ _ i Hok) (conj Hi E))). }
  right. destruct (alloc_cons _ _ _ Hok) as (ft' & -> & Hok' & Hn & Hu).
  pose proof (ft_ok_range _ _ _ Hok (list_elem_of_here _ _)).
  pose proof (ok_size _ _ Hok).
  assert (frame_used ft i = false) as Hi by (apply (ft_ok_free_iff _ _ _ Hok); by left).
  assert (i ∉ hp) by (intros ?%Hh; congruence).
  assert (phys_inv (Phys ft' r hp)).
  { split; [by eexists|]. intros j Hj. simpl. rewrite Hu. case_decide; auto. }
  exists i, (Phys ft' r hp). split_and!; try done; [lia..| | |].
  - intros [Hx _]. simpl in Hx. congruence.
  - split; simpl; [|done]. by rewrite Hu, decide_True.
  - split_and!; [done..|]. intros j [Hj Hjh]. simpl in *. split; [|done].
    split; simpl; [|done]. rewrite Hu. case_decide; auto.
Qed.

(** Returning an owned page, by any address in it. *)
Lemma free_kpage_spec k i o :
  phys_inv (k_phys k) → owned (k_phys k) i → 0 < i < 131072 → 0 ≤ o < PAGE_SIZE →
  ∃ ph, free_kpage (frame_kvaddr i + o) k = Ok (with_phys ph k) ∧ phys_inv ph ∧
    frame_nums (p_ft ph) = frame_nums (p_ft (k_phys k)) ∧
    (∀ j, frame_used (p_ft ph) j =
            if decide (j = i) then false else frame_used (p_ft (k_phys k)) j) ∧
    p_ram ph = p_ram (k_phys k) ∧
    ∀ j, j ≠ i → owned (k_phys k) j → owned ph j.
Proof.
  destruct k as [[ft r hp] ???????]. simpl. intros [[fl Hok] Hh] [Hu Hi] Hr Ho.
  unfold free_kpage. simpl in *.
  assert (i < frame_nums ft).
  { unfold frame_used in Hu. destruct Hok as [(t & Ht & <- & _) _ _].
    rewrite Ht in Hu. simpl in Hu. destruct (zget t i) eqn:Eg; [|done].
    apply zget_Some_range in Eg. lia. }
  destruct (free_used ft fl i o Hok) as (ft' & -> & Hok' & Hn & Hu'); [lia|done|done|].
  exists (Phys ft' r hp). split_and!; [done| |done| |done|].
  - split; [by eexists|]. intros j Hj. simpl. rewrite Hu'. case_decide; [by subst|auto].
  - done.
  - intros j Hne [Hj Hjh]. split; simpl in *; [|done]. by rewrite Hu', decide_False.
Qed.
