(* ===== verification/Vm.v ===== *)
(** * The hashed page table and the fault handler

    Models asst3/kern/vm/vm.c.  Each bucket of [page_table] heads a linked list
    of page table entries of any address space; [vm_view] is the abstraction,
    the finite map from (address space, virtual page) to the TLB low word.

    The operations run one after the other: [page_table_lock] is taken and
    released as in the code, and taking it twice is a [Panic]. *)

From S2P Require Import Prelude LinkedList FrameTable VmState.
Import Ram FrameTable.

Section vm.
Context `{KMalloc}.
Implicit Types (k : kern).

(** [vm_bootstrap] with [init_page_table]; [init_pagetable] is called on the
    frame table of the boot state. *)
Definition vm_bootstrap (mem : Z → frame_table_entry) (k : kern) : outcome kern :=
  let ph := k_phys k in
  let '(pt, n, ft) := init_pagetable mem (p_ft ph) in
  if pt =? 0 then Panic
  else
    Ok (Kern (Phys ft (p_ram ph) (p_heap ph)) (replicate (Z.to_nat n) 0) n false (ptes k)
          (aspaces k) (regions k) (tlb k) (curproc_as k)).

Definition PAGE_BITS : Z := 12.

Definition hpt_hash (k : kern) (as_ vaddr : Z) : Z :=
  Z.lxor as_ (Z.shiftr vaddr PAGE_BITS) mod page_nums k.

Definition lookup_pht (as_ vaddr hash : Z) (k : kern) : outcome Z :=
  cur ← deref (zget (page_table k) hash);
  find_node (list_fuel (ptes k)) (ptes k)
    (λ cur, (pid cur =? as_) && (page_vaddr cur =? vaddr)) cur.

(** [slot] is the TLB slot the processor picks for [tlb_random]. *)
Definition update_tlb (slot faultvaddr frame_paddr dirty_mask : Z) (k : kern) : kern :=
  let ehi := faultvaddr in
  let elo := Z.lor frame_paddr dirty_mask in
  tlb_write ehi elo slot k.

(** The condition of the loop of [check_regions]. *)
Definition region_covers (vaddr : Z) (r : region) : bool :=
  (base_page_vaddr r <=? vaddr) &&
  (vaddr <? u32 (base_page_vaddr r + PAGE_SIZE * region_page_nums r)).

Definition check_regions (as_ : addrspace) (vaddr : Z) (k : kern) : outcome Z :=
  find_node (list_fuel (regions k)) (regions k) (region_covers vaddr) (as_regions as_).

(** The insertion shared by [vm_fault] and [vm_copy]: the new entry becomes the
    head of an empty bucket or is linked after the last entry. *)
Definition insert_pte (hash new : Z) (k : kern) : outcome kern :=
  pe ← deref (zget (page_table k) hash);
  '(h, head) ← append_node (ptes k) pe new;
  pt ← zput (page_table k) hash head;
  Ok (with_pt pt h k).

(** The TLB low word of a page [vm_fault] has just allocated at the kernel
    address [vaddr] in a region with the given permissions. *)
Definition fresh_frame_paddr (vaddr permission : Z) : Z :=
  let fp := Z.lor (kvaddr_to_paddr vaddr) TLBLO_VALID in
  if negb (Z.land permission PERMISSION_WRITE =? 0) then Z.lor fp TLBLO_DIRTY else fp.

Definition VM_FAULT_READ : Z := 0.
Definition VM_FAULT_WRITE : Z := 1.
Definition VM_FAULT_READONLY : Z := 2.

Definition vm_fault (slot faulttype faultvaddr : Z) (k : kern) : outcome (Z * kern) :=
  if faulttype =? VM_FAULT_READONLY then Ok (EFAULT, k)
  else if negb ((faulttype =? VM_FAULT_READ) || (faulttype =? VM_FAULT_WRITE))
  then Ok (EINVAL, k)
  else
  match curproc_as k with
  | None => Ok (EFAULT, k)
  | Some as_ =>
    if as_ =? 0 then Ok (EFAULT, k)
    else
    let faultvaddr := Z.land faultvaddr PAGE_FRAME in
    let hash := hpt_hash k as_ faultvaddr in
    k ← lock_pt k;
    pte ← lookup_pht as_ faultvaddr hash k;
    k ← unlock_pt k;
    asp ← deref (aspaces k !! as_);
    if negb (pte =? 0) then
      v ← deref (ptes k !! pte);
      Ok (0, update_tlb slot faultvaddr (frame_paddr v) (dirty_mask asp) k)
    else
      region ← check_regions asp faultvaddr k;
      if region =? 0 then Ok (EFAULT, k)
      else
        '(vaddr, k) ← alloc_kpage k;
        if vaddr =? 0 then Ok (ENOMEM, k)
        else
          k ← bzero_page vaddr k;
          let '(new_insert, k) := run_kmalloc k in
          if new_insert =? 0 then
            k ← free_kpage vaddr k;
            Ok (ENOMEM, k)
          else
            r ← deref (regions k !! region);
            let fp := fresh_frame_paddr vaddr (permission r) in
            let k := with_pt (page_table k)
                       (<[new_insert := PTE as_ faultvaddr fp 0]> (ptes k)) k in
            k ← lock_pt k;
            k ← insert_pte hash new_insert k;
            k ← unlock_pt k;
            Ok (0, update_tlb slot faultvaddr fp (dirty_mask asp) k)
  end.

(** One iteration of the loop of [vm_copy] over the buckets: [inl k] goes on,
    [inr k] is the [ENOMEM] return. *)
Definition vm_copy_bucket (old new i : Z) (k : kern) : outcome (kern + kern) :=
  cur ← deref (zget (page_table k) i);
  if cur =? 0 then Ok (inl k)
  else
    c ← deref (ptes k !! cur);
    if negb (pid c =? old) then Ok (inl k)
    else
      let '(new_pte, k) := run_kmalloc k in
      if new_pte =? 0 then
        k ← unlock_pt k;
        Ok (inr k)
      else
        '(vaddr, k) ← alloc_kpage k;
        k ← memcpy_page vaddr (paddr_to_kvaddr (Z.land (frame_paddr c) PAGE_FRAME)) k;
        let fp := Z.lor (kvaddr_to_paddr vaddr)
                    (Z.land (frame_paddr c) (u32 (Z.lnot PAGE_FRAME))) in
        let k := with_pt (page_table k)
                   (<[new_pte := PTE new (page_vaddr c) fp 0]> (ptes k)) k in
        let hash := hpt_hash k new (page_vaddr c) in
        k ← insert_pte hash new_pte k;
        Ok (inl k).

Fixpoint vm_copy_loop (old new : Z) (idx : list Z) (k : kern) : outcome (Z * kern) :=
  match idx with
  | [] =>
      k ← unlock_pt k;
      Ok (0, k)
  | i :: idx =>
      r ← vm_copy_bucket old new i k;
      match r with
      | inl k => vm_copy_loop old new idx k
      | inr k => Ok (ENOMEM, k)
      end
  end.

Definition vm_copy (old new : Z) (k : kern) : outcome (Z * kern) :=
  k ← lock_pt k;
  vm_copy_loop old new (seqZ 0 (page_nums k)) k.

(** The [while] loop of [vm_destroy] on bucket [i]. *)
Fixpoint vm_destroy_bucket (fuel : nat) (as_ i c_pe n_pe : Z) (k : kern) : outcome kern :=
  match fuel with
  | O => Hang
  | S fuel =>
      if c_pe =? 0 then Ok k
      else
        c ← deref (ptes k !! c_pe);
        if pid c =? as_ then
          head ← deref (zget (page_table k) i);
          '(n_pe, k) ←
            (if head =? c_pe then
               pt ← zput (page_table k) i (pte_next c);
               Ok (pte_next c, with_pt pt (ptes k) k)
             else
               n ← deref (ptes k !! n_pe);
               Ok (n_pe, with_pt (page_table k) (<[n_pe := set_next (pte_next c) n]> (ptes k)) k));
          let t_pe := pte_next c in
          k ← free_kpage (paddr_to_kvaddr (frame_paddr c)) k;
          let k := run_kfree c_pe (with_pt (page_table k) (delete c_pe (ptes k)) k) in
          vm_destroy_bucket fuel as_ i t_pe n_pe k
        else vm_destroy_bucket fuel as_ i (pte_next c) c_pe k
  end.

Fixpoint vm_destroy_loop (as_ : Z) (idx : list Z) (k : kern) : outcome kern :=
  match idx with
  | [] => Ok k
  | i :: idx =>
      head ← deref (zget (page_table k) i);
      k ← vm_destroy_bucket (list_fuel (ptes k)) as_ i head head k;
      vm_destroy_loop as_ idx k
  end.

Definition vm_destroy (as_ : Z) (k : kern) : outcome kern :=
  k ← lock_pt k;
  k ← vm_destroy_loop as_ (seqZ 0 (page_nums k)) k;
  unlock_pt k.

Definition vm_tlbshootdown (k : kern) : outcome kern := Panic.

End vm.

(** ** Abstraction and invariant *)

(** A page table entry without its link: key and TLB low word. *)
Abbreviation entry := (Z * Z * Z)%type.
Definition pte_data (v : page_table_entry) : entry := (pid v, page_vaddr v, frame_paddr v).
Definition entries (k : kern) : gmap Z entry := pte_data <$> ptes k.

(** The page table as a finite map from (address space, page) to the TLB low
    word of the frame. *)
Definition view (D : gmap Z entry) : gmap (Z * Z) Z := list_to_map (map_to_list D).*2.
Definition vm_view (k : kern) : gmap (Z * Z) Z := view (entries k).

(** The frame of an entry, and the contents of the page it maps. *)
Definition entry_frame (x : entry) : Z := x.2 / PAGE_SIZE.
Definition page_at (k : kern) (key : Z * Z) : option page :=
  fp ← vm_view k !! key; p_ram (k_phys k) !! (fp / PAGE_SIZE).

(** Every (address space, page) has at most one entry. *)
Definition keys_ok (D : gmap Z entry) : Prop :=
  ∀ a b x y, D !! a = Some x → D !! b = Some y → x.1 = y.1 → a = b.

(** Each mapped page has a frame of its own, held by the page table and by no
    one else. *)
Record frames_ok (ph : phys) (D : gmap Z entry) : Prop := {
  fr_phys : phys_inv ph;
  fr_owned : ∀ a x, D !! a = Some x →
    owned ph (entry_frame x) ∧ 0 < entry_frame x < 131072 ∧ is_u32 x.2 ∧
    is_Some (p_ram ph !! entry_frame x);
  fr_inj : ∀ a b x y, D !! a = Some x → D !! b = Some y →
    entry_frame x = entry_frame y → a = b
}.

(** Bucket [i] lists exactly the entries that hash to [i]. *)
Definition bucket_ok (k : kern) (i head : Z) : Prop :=
  ∃ l, chain (ptes k) head l ∧
    ∀ a, a ∈ l ↔ ∃ x, entries k !! a = Some x ∧ hpt_hash k x.1.1 x.1.2 = i.

Record pt_ok (k : kern) : Prop := {
  pt_len : zlen (page_table k) = page_nums k;
  pt_pos : 0 < page_nums k;
  pt_buckets : ∀ i head, zget (page_table k) i = Some head → bucket_ok k i head;
  pt_keys : keys_ok (entries k)
}.

Record vm_inv (k : kern) : Prop := {
  inv_pt : pt_ok k;
  inv_frames : frames_ok (k_phys k) (entries k);
  inv_lock : page_table_lock k = false
}.

(** ** Lemmas on entries and the view *)

Lemma view_lookup D key fp :
  keys_ok D → view D !! key = Some fp ↔ ∃ a, D !! a = Some (key, fp).
Proof.
  intros HD. unfold view. rewrite <-elem_of_list_to_map.
  - rewrite list_elem_of_fmap. split.
    + intros ([a x] & -> & Hin%elem_of_map_to_list). eauto.
    + intros [a Ha]. exists (a, (key, fp)). split; [done|]. by apply elem_of_map_to_list.
  - rewrite <-list_fmap_compose. apply NoDup_fmap_2_strong; [|apply NoDup_map_to_list].
    intros [a x] [b y] Ha%elem_of_map_to_list Hb%elem_of_map_to_list Heq. simpl in *.
    assert (a = b) as -> by eauto. by simplify_eq.
Qed.

Lemma view_lookup_None D key :
  keys_ok D → view D !! key = None ↔ ∀ a x, D !! a = Some x → x.1 ≠ key.
Proof.
  intros HD. rewrite eq_None_not_Some. split.
  - intros Hn a [key' fp] Ha <-. apply Hn. exists fp. apply view_lookup; eauto.
  - intros Hn [fp [a Ha]%view_lookup]; [|done]. by apply (Hn _ _ Ha).
Qed.

Lemma keys_ok_insert D a key fp :
  keys_ok D → D !! a = None → view D !! key = None → keys_ok (<[a := (key, fp)]> D).
Proof.
  intros HD Ha Hn. rewrite view_lookup_None in Hn by done. intros b c x y.
  rewrite !lookup_insert. repeat case_decide; intros Hx Hy Heq; simplify_eq/=; try done.
  - by destruct (Hn _ _ Hy).
  - by destruct (Hn _ _ Hx).
  - eauto.
Qed.

Lemma view_insert D a key fp :
  keys_ok D → D !! a = None → view D !! key = None →
  view (<[a := (key, fp)]> D) = <[key := fp]> (view D).
Proof.
  intros HD Ha Hn. pose proof (keys_ok_insert D a key fp HD Ha Hn) as HD'.
  apply map_eq. intros key'. apply option_eq. intros fp'.
  rewrite view_lookup by done. rewrite lookup_insert. case_decide as Hk.
  - subst. split.
    + intros [b Hb]. rewrite lookup_insert in Hb. case_decide; [by simplify_eq|].
      rewrite view_lookup_None in Hn by done. by destruct (Hn _ _ Hb).
    + intros ?. simplify_eq. exists a. apply lookup_insert_eq.
  - rewrite view_lookup by done. split; intros [b Hb]; exists b.
    + rewrite lookup_insert in Hb. case_decide; naive_solver.
    + rewrite lookup_insert_ne; [done|]. congruence.
Qed.

Lemma keys_ok_delete D a : keys_ok D → keys_ok (delete a D).
Proof.
  intros HD b c x y. rewrite !lookup_delete. repeat case_decide; [done..|]. apply HD.
Qed.

Lemma view_delete D a key fp :
  keys_ok D → D !! a = Some (key, fp) → view (delete a D) = delete key (view D).
Proof.
  intros HD Ha. pose proof (keys_ok_delete D a HD) as HD'.
  apply map_eq. intros key'. apply option_eq. intros fp'.
  rewrite view_lookup by done. rewrite lookup_delete. case_decide as Hk.
  - subst. split; [|done]. intros [b Hb]. rewrite lookup_delete in Hb.
    case_decide; [done|]. by destruct (HD _ _ _ _ Ha Hb eq_refl).
  - rewrite view_lookup by done. split; intros [b Hb]; exists b.
    + rewrite lookup_delete in Hb. by case_decide.
    + rewrite lookup_delete_ne; [done|]. congruence.
Qed.

Lemma frames_ok_ext ph ph' D : phys_ext ph ph' → frames_ok ph D → frames_ok ph' D.
Proof.
  intros (Hi & Hn & Ho) [Hp Hown Hinj]. split; [auto| |done].
  intros a x Hx. destruct (Hown _ _ Hx) as (Hox & ? & ? & ?).
  destruct (Ho _ Hox) as [? ->]. done.
Qed.

Lemma frames_ok_insert ph D a x :
  frames_ok ph D → D !! a = None → owned ph (entry_frame x) →
  0 < entry_frame x < 131072 → is_u32 x.2 → is_Some (p_ram ph !! entry_frame x) →
  (∀ b y, D !! b = Some y → entry_frame y ≠ entry_frame x) →
  frames_ok ph (<[a := x]> D).
Proof.
  intros [Hp Hown Hinj] Ha Ho Hr Hu Hm Hd. split; [done| |].
  - intros b y. rewrite lookup_insert. case_decide; [|by apply Hown].
    intros ?. by simplify_eq.
  - intros b c y z. rewrite !lookup_insert.
    repeat case_decide; intros Hy Hz Heq; simplify_eq/=; try done.
    + by destruct (Hd _ _ Hz).
    + by destruct (Hd _ _ Hy).
    + eauto.
Qed.

(** ** Lookup and insertion *)

Lemma hpt_hash_range k p va : 0 < page_nums k → 0 ≤ hpt_hash k p va < page_nums k.
Proof. intros. by apply Z.mod_pos_bound. Qed.

Lemma entries_lookup k a v : ptes k !! a = Some v → entries k !! a = Some (pte_data v).
Proof. intros Ha. unfold entries. by rewrite lookup_fmap, Ha. Qed.

Lemma entries_lookup_inv k a x :
  entries k !! a = Some x → ∃ v, ptes k !! a = Some v ∧ pte_data v = x.
Proof. unfold entries. rewrite lookup_fmap. intros (v & ? & ?)%fmap_Some. eauto. Qed.

Lemma lookup_pht_spec k p va :
  pt_ok k →
  ∃ a, lookup_pht p va (hpt_hash k p va) k = Ok a ∧
    ((a = 0 ∧ vm_view k !! (p, va) = None) ∨
     (a ≠ 0 ∧ ∃ v, ptes k !! a = Some v ∧ vm_view k !! (p, va) = Some (frame_paddr v))).
Proof.
  intros [Hlen Hpos Hb Hk]. pose proof (hpt_hash_range k p va Hpos) as Hr.
  destruct (zget_range (page_table k) (hpt_hash k p va)) as [head Hh]; [lia|].
  destruct (Hb _ _ Hh) as (l & Hc & Hl). unfold lookup_pht. rewrite Hh. simpl.
  set (test := λ v : page_table_entry, _).
  rewrite (find_node_chain _ test _ l)
    by (done || unfold list_fuel; pose proof (chain_length _ _ _ Hc); lia).
  eexists. split; [done|].
  destruct (decide (first_match (ptes k) test l = 0)) as [H0|Hn].
  - left. split; [done|]. apply view_lookup_None; [done|].
    intros a x Hx Heq. destruct (entries_lookup_inv _ _ _ Hx) as (v & Hv & <-).
    assert (a ∈ l) as Hin.
    { apply Hl. exists (pte_data v). split; [done|]. by rewrite Heq. }
    pose proof (first_match_None _ _ _ _ Hc H0 _ _ Hin Hv) as Ht.
    unfold test in Ht. simpl in Heq. simplify_eq. by rewrite !Z.eqb_refl in Ht.
  - right. split; [done|].
    destruct (first_match_Some _ _ _ _ eq_refl Hn) as (Hin & v & Hv & Ht).
    exists v. split; [done|]. apply view_lookup; [done|].
    eexists. rewrite (entries_lookup _ _ _ Hv). unfold pte_data.
    unfold test in Ht. apply andb_true_iff in Ht as [->%Z.eqb_eq ->%Z.eqb_eq]. done.
Qed.

(** Linking a new entry at the end of its bucket keeps the table well formed and
    adds exactly that entry. *)
Lemma insert_pte_spec k new v :
  pt_ok k → new ≠ 0 → ptes k !! new = None → pte_next v = 0 →
  vm_view k !! (pid v, page_vaddr v) = None →
  ∃ pt h, insert_pte (hpt_hash k (pid v) (page_vaddr v)) new
      (with_pt (page_table k) (<[new := v]> (ptes k)) k) = Ok (with_pt pt h k) ∧
    pt_ok (with_pt pt h k) ∧
    entries (with_pt pt h k) = <[new := pte_data v]> (entries k) ∧
    ∀ i hd, zget (page_table k) i = Some hd → hd ≠ 0 → zget pt i = Some hd.
Proof.
  intros [Hlen Hpos Hb Hk] Hn Hnew Hnx Hv.
  set (i := hpt_hash k (pid v) (page_vaddr v)).
  pose proof (hpt_hash_range k (pid v) (page_vaddr v) Hpos) as Hr. fold i in Hr.
  destruct (zget_range (page_table k) i) as [head Hh]; [lia|].
  destruct (Hb _ _ Hh) as (l & Hc & Hl).
  assert (∀ l' head', chain (ptes k) head' l' → new ∉ l') as Hfresh.
  { intros l' head' Hc' [_ [w Hw]]%(chain_elem _ _ _ _ Hc'). congruence. }
  assert (∀ l' head', chain (ptes k) head' l' → chain (<[new:=v]> (ptes k)) head' l') as Hframe.
  { intros l' head' Hc'. eapply chain_frame; [|done]. intros a Ha.
    rewrite lookup_insert_ne; [done|]. intros <-. by apply (Hfresh _ _ Hc'). }
  destruct (append_node_chain (<[new:=v]> (ptes k)) head l new v)
    as (h' & head' & Happ & Hc' & Hout & Hdata & Hhead);
    [by apply Hframe|done|by eapply Hfresh|by rewrite lookup_insert_eq|done|].
  assert (pte_data <$> h' = <[new := pte_data v]> (entries k)) as Hent.
  { unfold entries. rewrite <-fmap_insert. apply map_eq. intros a.
    rewrite !lookup_fmap. destruct (Hdata a) as [q ->].
    by destruct (<[new:=v]> (ptes k) !! a). }
  exists (zset (page_table k) i head'), h'. split; [|split; [|split]].
  - unfold insert_pte. simpl. rewrite Hh. simpl. rewrite Happ. simpl.
    unfold zput. rewrite decide_True by lia. done.
  - split.
    + simpl. by rewrite zlen_zset.
    + done.
    + simpl. intros j head2. rewrite zget_zset. case_decide as Hij.
      * destruct Hij as [<- _]. intros [= <-]. exists (l ++ [new]). split; [done|].
        intros a. unfold entries. simpl. rewrite Hent, elem_of_app, list_elem_of_singleton.
        rewrite lookup_insert. unfold hpt_hash in *. simpl. rewrite Hl.
        case_decide as Ha.
        -- subst a. split; [|auto]. intros _. exists (pte_data v). split; [done|done].
        -- naive_solver.
      * intros Hj. destruct (Hb _ _ Hj) as (l2 & Hc2 & Hl2). exists l2.
        assert (∀ a, a ∈ l2 → a ∉ l) as Hdisj.
        { intros a (x & Hx & Hxj)%Hl2 (y & Hy & Hyi)%Hl. simplify_eq. apply Hij.
          split; [done|lia]. }
        split.
        -- simpl. eapply chain_frame; [|by apply Hframe]. intros a Ha.
           rewrite Hout by auto. done.
        -- intros a. unfold entries. simpl. rewrite Hent, lookup_insert, Hl2.
           unfold hpt_hash in *. simpl. case_decide as Ha; [|done].
           subst a. split.
           ++ intros (x & Hx & _). apply entries_lookup_inv in Hx as (w & Hw & _). congruence.
           ++ intros (x & [= <-] & Hxj). destruct Hij. split; [done|lia].
    + unfold entries. simpl. rewrite Hent. unfold pte_data at 1.
      apply keys_ok_insert; [done| |done]. unfold entries. by rewrite lookup_fmap, Hnew.
  - unfold entries at 1. simpl. done.
  - intros j hd Hj Hne. rewrite zget_zset. case_decide as Hij; [|done].
    destruct Hij as [<- _]. f_equal. simplify_eq. auto.
Qed.

(** ** The fault handler *)

(** The region list of an address space is a well-formed chain. *)
Definition as_ok (k : kern) (as_ : Z) (asp : addrspace) (l : list Z) : Prop :=
  as_ ≠ 0 ∧ aspaces k !! as_ = Some asp ∧ chain (regions k) (as_regions asp) l.

(** The fault types for which [vm_fault] looks the address up. *)
Definition lookup_fault (faulttype : Z) : Prop :=
  faulttype = VM_FAULT_READ ∨ faulttype = VM_FAULT_WRITE.

Lemma kvaddr_paddr_frame i : 0 ≤ i < 131072 → kvaddr_to_paddr (frame_kvaddr i) = i * PAGE_SIZE.
Proof.
  intros. unfold kvaddr_to_paddr, frame_kvaddr, MIPS_KSEG0, PAGE_SIZE. rewrite u32_id; width.
Qed.

Lemma fresh_frame_paddr_spec i perm :
  0 ≤ i < 131072 →
  ∃ m, fresh_frame_paddr (frame_kvaddr i) perm = i * 4096 + m ∧ 0 ≤ m < 4096 ∧
    m = TLBLO_VALID + (if Z.land perm PERMISSION_WRITE =? 0 then 0 else TLBLO_DIRTY).
Proof.
  intros Hi. unfold fresh_frame_paddr. rewrite kvaddr_paddr_frame by done.
  unfold PAGE_SIZE, TLBLO_VALID, TLBLO_DIRTY. eexists. split; [|split; [|reflexivity]].
  - destruct (Z.land perm PERMISSION_WRITE =? 0); simpl; [by rewrite lor_page by lia|].
    rewrite <-Z.lor_assoc. change (Z.lor 512 1024) with 1536. rewrite lor_page by lia. lia.
  - case_match; lia.
Qed.

Lemma div_page i m : 0 ≤ m < 4096 → (i * 4096 + m) / 4096 = i.
Proof. intros. symmetry. apply (Z.div_unique _ _ _ m); lia. Qed.

Lemma kern_lock_id k : page_table_lock k = false → with_lock false k = k.
Proof. destruct k; simpl. by intros ->. Qed.

Lemma lock_pt_ok k : page_table_lock k = false → lock_pt k = Ok (with_lock true k).
Proof. unfold lock_pt. by intros ->. Qed.

Lemma unlock_pt_ok k : page_table_lock k = true → unlock_pt k = Ok (with_lock false k).
Proof. unfold unlock_pt. by intros ->. Qed.

Lemma pt_ok_phys ph k : pt_ok k → pt_ok (with_phys ph k).
Proof. intros [????]. by split. Qed.

Lemma bzero_page_frame i k :
  0 ≤ i < 131072 →
  bzero_page (frame_kvaddr i) k =
    Ok (with_phys (Phys (p_ft (k_phys k)) (<[i := zero_page]> (p_ram (k_phys k)))
                    (p_heap (k_phys k))) k).
Proof. intros. unfold bzero_page. by rewrite kpage_frame. Qed.

(** Storing into a frame the page table does not own yet is invisible to it. *)
Lemma phys_ext_store ph ph1 i p :
  ¬ owned ph i → phys_ext ph ph1 →
  phys_ext ph (Phys (p_ft ph1) (<[i := p]> (p_ram ph1)) (p_heap ph1)).
Proof.
  intros Hi (Hp & Hn & Ho). split_and!; [exact Hp|done|].
  intros j Hj. destruct (Ho _ Hj) as [? Hr]. split; [done|]. simpl.
  rewrite lookup_insert_ne by (intros ->; done). done.
Qed.

Section vm_fault.
Context `{KMallocLaws}.

Lemma check_regions_spec k as_ asp l va :
  as_ok k as_ asp l →
  check_regions asp va k = Ok (first_match (regions k) (region_covers va) l).
Proof.
  intros (_ & _ & Hc). unfold check_regions. apply find_node_chain; [done|].
  pose proof (chain_length _ _ _ Hc). unfold list_fuel. lia.
Qed.

(** Up to the lookup, [vm_fault] leaves the state alone. *)
Lemma vm_fault_lookup slot ft fva k as_ asp l :
  vm_inv k → lookup_fault ft → curproc_as k = Some as_ → as_ok k as_ asp l →
  let va := Z.land fva PAGE_FRAME in
  let hash := hpt_hash k as_ va in
  vm_fault slot ft fva k =
    match vm_view k !! (as_, va) with
    | Some fp => Ok (0, update_tlb slot va fp (dirty_mask asp) k)
    | None =>
        let region := first_match (regions k) (region_covers va) l in
        if region =? 0 then Ok (EFAULT, k)
        else
          '(vaddr, k) ← alloc_kpage k;
          if vaddr =? 0 then Ok (ENOMEM, k)
          else
            k ← bzero_page vaddr k;
            let '(new_insert, k) := run_kmalloc k in
            if new_insert =? 0 then
              k ← free_kpage vaddr k;
              Ok (ENOMEM, k)
            else
              r ← deref (regions k !! region);
              let fp := fresh_frame_paddr vaddr (permission r) in
              let k := with_pt (page_table k)
                         (<[new_insert := PTE as_ va fp 0]> (ptes k)) k in
              k ← lock_pt k;
              k ← insert_pte hash new_insert k;
              k ← unlock_pt k;
              Ok (0, update_tlb slot va fp (dirty_mask asp) k)
    end.
Proof.
  intros [Hpt Hfr Hlk] Hft Hcur Has va hash. unfold vm_fault.
  rewrite (proj2 (Z.eqb_neq _ _)) by (destruct Hft; subst; done).
  replace (negb _) with false by (destruct Hft; subst; done).
  rewrite Hcur. destruct (Has) as (Hn & Hasp & _).
  rewrite (proj2 (Z.eqb_neq _ _)) by done. fold va.
  rewrite (lock_pt_ok k) by done. simpl.
  change (lookup_pht as_ va (hpt_hash k as_ va) (with_lock true k))
    with (lookup_pht as_ va (hpt_hash k as_ va) k).
  destruct (lookup_pht_spec k as_ va Hpt) as (a & -> & Ha). simpl.
  change (with_lock false (with_lock true k)) with (with_lock false k).
  rewrite kern_lock_id by done. rewrite Hasp. simpl.
  destruct Ha as [[-> ->]|[Hna (v & Hv & ->)]].
  - simpl. rewrite (check_regions_spec _ _ _ _ _ Has). reflexivity.
  - rewrite (proj2 (Z.eqb_neq _ _)) by done. simpl. by rewrite Hv.
Qed.

Lemma page_at_ext k k' key p :
  pt_ok k → frames_ok (k_phys k) (entries k) → phys_ext (k_phys k) (k_phys k') →
  (∀ fp, vm_view k !! key = Some fp → vm_view k' !! key = Some fp) →
  page_at k key = Some p → page_at k' key = Some p.
Proof.
  intros [_ _ _ Hk] Hfr (_ & _ & Ho) Hv Hp. unfold page_at in *.
  apply bind_Some in Hp as (fp & Hfp & Hp). rewrite (Hv _ Hfp). simpl.
  apply view_lookup in Hfp as [a Ha]; [|done].
  destruct (fr_owned _ _ Hfr _ _ Ha) as (Hown & _). unfold entry_frame in Hown. simpl in Hown.
  by destruct (Ho _ Hown) as [_ ->].
Qed.

(** What the kernel state has in common before and after an operation that only
    touches the page table, memory and the TLB. *)
Definition same_spaces (k k' : kern) : Prop :=
  aspaces k' = aspaces k ∧ regions k' = regions k ∧ curproc_as k' = curproc_as k ∧
  page_nums k' = page_nums k.

(** Why a fault fails with ENOMEM, and what it leaves: every frame is in use and nothing
    has happened; or a frame [i] was taken, the heap had no room for the entry in the
    state [k1] in which only [i] is in use besides, and [i] has been given back.  The
    page table, the address spaces and the TLB are the same. *)
Inductive no_memory (k : kern) : kern → Prop :=
| no_frame_left :
    (∀ i, 0 ≤ i < frame_nums (p_ft (k_phys k)) → used k i = true) → no_memory k k
| no_heap_left ph' i k1 ph :
    used k i = false → (∀ j, used k1 j = if decide (j = i) then true else used k j) →
    kmalloc k1 = (0, ph) →
    (∀ j, frame_used (p_ft ph') j = if decide (j = i) then false else frame_used (p_ft ph) j) →
    no_memory k (with_phys ph' k).

Lemma no_memory_same k k' : no_memory k k' → vm_view k' = vm_view k ∧ tlb k' = tlb k.
Proof. by intros []. Qed.

Lemma vm_fault_pagein slot ft fva k as_ asp l ra r :
  let va := Z.land fva PAGE_FRAME in
  vm_inv k → lookup_fault ft → curproc_as k = Some as_ → as_ok k as_ asp l →
  vm_view k !! (as_, va) = None →
  first_match (regions k) (region_covers va) l = ra → ra ≠ 0 → regions k !! ra = Some r →
  ∃ e k', vm_fault slot ft fva k = Ok (e, k') ∧ vm_inv k' ∧ same_spaces k k' ∧
    phys_ext (k_phys k) (k_phys k') ∧
    ((e = ENOMEM ∧ no_memory k k') ∨
     (e = 0 ∧ ∃ i, 0 < i < 131072 ∧ ¬ owned (k_phys k) i ∧
       vm_view k' = <[(as_, va) := fresh_frame_paddr (frame_kvaddr i) (permission r)]> (vm_view k) ∧
       p_ram (k_phys k') !! i = Some zero_page ∧
       tlb k' = zset (tlb k) slot
         (va, Z.lor (fresh_frame_paddr (frame_kvaddr i) (permission r)) (dirty_mask asp)))).
Proof.
  intros va Hinv Hft Hcur Has Hview Hra Hran Hr.
  rewrite (vm_fault_lookup _ _ _ _ _ _ _ Hinv Hft Hcur Has). fold va. cbv zeta.
  rewrite Hview, Hra.
  rewrite (proj2 (Z.eqb_neq _ _)) by done.
  destruct Hinv as [Hpt Hfr Hlk].
  destruct (alloc_kpage_spec k (fr_phys _ _ Hfr))
    as [[-> Hfull]|(i & ph1 & -> & Hi & Hni & Hoi & Hext1 & Hinv1 & Hram1 & Hfi0 & Hu1)]; simpl.
  { exists ENOMEM, k. split_and!; try done. left. split; [done|]. by apply no_frame_left. }
  rewrite (proj2 (Z.eqb_neq _ _)) by (unfold frame_kvaddr, MIPS_KSEG0, PAGE_SIZE; lia).
  rewrite bzero_page_frame by lia. simpl.
  set (ph2 := Phys (p_ft ph1) (<[i := zero_page]> (p_ram ph1)) (p_heap ph1)).
  pose proof (phys_ext_store _ _ i zero_page Hni Hext1) as Hext2. fold ph2 in Hext2.
  unfold run_kmalloc. simpl.
  destruct (kmalloc (with_phys ph2 (with_phys ph1 k))) as [new ph3] eqn:Hkm.
  destruct (kmalloc_laws _ _ _ Hkm) as (Hext3 & Hnew). simpl in Hext3.
  assert (owned ph2 i) as Hoi2 by done.
  destruct (proj2 (proj2 Hext3) _ Hoi2) as [Hoi3 Hz].
  assert (phys_ext (k_phys k) ph3) as Hext by (by transitivity ph2).
  assert (p_ram ph3 !! i = Some zero_page) as Hz3.
  { rewrite Hz. simpl. by rewrite lookup_insert_eq. }
  case_match eqn:Enew; [apply Z.eqb_eq in Enew|apply Z.eqb_neq in Enew].
  - (* kmalloc failed: the page goes back *)
    destruct (free_kpage_spec (with_phys ph3 k) i 0) as (ph4 & Hf4 & Hinv4 & Hn4 & Hu4 & Hr4 & Ho4);
      [by apply Hext, Hfr|done|lia|unfold PAGE_SIZE; lia|].
    rewrite Z.add_0_r in Hf4.
    change (with_phys ph3 (with_phys ph2 (with_phys ph1 k))) with (with_phys ph3 k).
    rewrite Hf4. simpl. simpl in Ho4, Hr4, Hn4.
    assert (phys_ext (k_phys k) ph4) as Hext4.
    { destruct Hext as (_ & Hn & Ho). split_and!; [done|congruence|].
      intros j Hj. destruct (Ho _ Hj) as [Hj3 Hrj]. rewrite Hr4, Hrj. split; [|done].
      apply Ho4; [|done]. by intros ->. }
    exists ENOMEM, (with_phys ph4 k). split_and!; try done;
      [|left; split; [done|]; by apply (no_heap_left k ph4 i (with_phys ph2 (with_phys ph1 k)) ph3); [| |subst new|]].
    split; [by apply pt_ok_phys|by apply (frames_ok_ext (k_phys k))|done].
  - (* the new entry is filled in and linked *)
    simpl. rewrite Hr. simpl. set (fp := fresh_frame_paddr _ _).
    destruct (Hnew Enew) as [_ Hlive]. unfold live_object in Hlive. simpl in Hlive.
    assert (ptes k !! new = None) as Hnone.
    { apply eq_None_not_Some. intros ?. apply Hlive. by left. }
    destruct (insert_pte_spec (with_lock true (with_phys ph3 k)) new (PTE as_ va fp 0))
      as (pt & h & Hins & Hpt' & Hent & _).
    { destruct Hpt as [????]. by split. } { done. } { done. } { done. } { done. }
    rewrite lock_pt_ok by done. simpl. simpl in Hins. unfold hpt_hash in Hins |- *. simpl in Hins.
    change (with_lock true (with_pt (page_table k) (<[new:=PTE as_ va fp 0]> (ptes k))
      (with_phys ph3 (with_phys ph2 (with_phys ph1 k)))))
      with (with_pt (page_table k) (<[new:=PTE as_ va fp 0]> (ptes k))
        (with_lock true (with_phys ph3 k))).
    rewrite Hins. simpl.
    destruct (fresh_frame_paddr_spec i (permission r)) as (m & Hm & Hmr & _); [lia|].
    fold fp in Hm.
    assert (entries k !! new = None) as Hnone'.
    { unfold entries. by rewrite lookup_fmap, Hnone. }
    set (k' := update_tlb _ _ _ _ _).
    assert (entries k' = <[new := (as_, va, fp)]> (entries k)) as Hent' by exact Hent.
    assert (entry_frame (as_, va, fp) = i) as Hfi.
    { unfold entry_frame. simpl. rewrite Hm. by apply div_page. }
    exists 0, k'. split; [done|]. split; [split|split; [done|split; [done|]]].
    + destruct Hpt' as [????]. by split.
    + rewrite Hent'. change (k_phys k') with ph3. apply frames_ok_insert; [|done|..].
      * by apply (frames_ok_ext (k_phys k)).
      * by rewrite Hfi.
      * by rewrite Hfi.
      * simpl. rewrite Hm. width.
      * rewrite Hfi. eauto.
      * intros b y Hb Hf. rewrite Hfi in Hf. apply Hni. rewrite <-Hf.
        by apply (fr_owned _ _ Hfr b).
    + done.
    + right. split; [done|]. exists i. split_and!; try done; [lia..|].
      unfold vm_view. rewrite Hent'. apply view_insert; [by apply Hpt|done|done].
Qed.

End vm_fault.

(** ** Removing entries *)

(** Unlinking the node [a] from bucket [i], whatever the relinking did, keeps the
    table well formed. *)
Lemma pt_ok_remove k i head l1 a l2 pt' h' head' :
  pt_ok k → zget (page_table k) i = Some head → chain (ptes k) head (l1 ++ a :: l2) →
  zlen pt' = zlen (page_table k) → zget pt' i = Some head' →
  (∀ j, j ≠ i → zget pt' j = zget (page_table k) j) →
  chain h' head' (l1 ++ l2) → pte_data <$> h' = delete a (entries k) →
  (∀ b, b ∉ l1 ++ a :: l2 → h' !! b = ptes k !! b) →
  pt_ok (with_pt pt' h' k).
Proof.
  intros [Hlen Hpos Hb Hk] Hi Hc Hlen' Hi' Hj Hc' Hent Hout. split; [simpl; congruence|done| |].
  - simpl. intros j hd Hhd. destruct (decide (j = i)) as [->|Hne].
    + assert (hd = head') as -> by congruence. exists (l1 ++ l2). split; [done|].
      destruct (Hb _ _ Hi) as (l & Hcl & Hl).
      assert (l = l1 ++ a :: l2) as -> by exact (chain_det _ _ _ _ Hcl Hc).
      pose proof (chain_NoDup _ _ _ Hc) as (_ & Hd & [Ha _]%NoDup_cons)%NoDup_app.
      intros b. unfold entries. simpl. rewrite Hent, lookup_delete.
      unfold hpt_hash in *. simpl. case_decide as Hba.
      * subst b. split; [|naive_solver]. intros [Hb1|Hb2]%elem_of_app; [|done].
        exfalso. apply (Hd _ Hb1). by left.
      * rewrite <-Hl. set_solver.
    + rewrite Hj in Hhd by done. destruct (Hb _ _ Hhd) as (l & Hcl & Hl).
      assert (∀ b, b ∈ l → b ∉ l1 ++ a :: l2) as Hdisj.
      { intros b (x & Hx & Hxj)%Hl Hin. destruct (Hb _ _ Hi) as (l' & Hcl' & Hl').
        rewrite <-(chain_det _ _ _ _ Hcl' Hc) in Hin. apply Hl' in Hin as (y & Hy & Hyi).
        simplify_eq. }
      exists l. split.
      * eapply chain_frame; [|done]. intros b Hbl. apply Hout. auto.
      * intros b. unfold entries. simpl. rewrite Hent, lookup_delete.
        unfold hpt_hash in *. simpl. case_decide as Hba; [|apply Hl].
        subst b. split; [|naive_solver]. intros Ha. destruct (Hdisj _ Ha). set_solver.
  - unfold entries. simpl. rewrite Hent. by apply keys_ok_delete.
Qed.

(** The state after some entries have been removed and their pages freed. *)
Record shrinks (k k' : kern) : Prop := {
  sh_sub : entries k' ⊆ entries k;
  sh_free i : frame_used (p_ft (k_phys k)) i = false → frame_used (p_ft (k_phys k')) i = false;
  sh_gone a x : entries k !! a = Some x → entries k' !! a = None →
    frame_used (p_ft (k_phys k')) (entry_frame x) = false;
  sh_ram a x : entries k' !! a = Some x →
    p_ram (k_phys k') !! entry_frame x = p_ram (k_phys k) !! entry_frame x;
  sh_spaces : same_spaces k k';
  sh_tlb : tlb k' = tlb k;
  sh_lock : page_table_lock k' = page_table_lock k
}.

Lemma shrinks_refl k : shrinks k k.
Proof. split; try done. intros. congruence. Qed.

Lemma shrinks_trans k1 k2 k3 : shrinks k1 k2 → shrinks k2 k3 → shrinks k1 k3.
Proof.
  intros H12 H23. split.
  - etransitivity; [apply H23|apply H12].
  - intros i Hi. by apply H23, H12.
  - intros a x Ha Hn. destruct (entries k2 !! a) as [y|] eqn:E.
    + assert (y = x) as -> by (pose proof (lookup_weaken _ _ _ _ E (sh_sub _ _ H12)); congruence).
      eapply sh_gone; eauto.
    + eapply sh_free; [done|]. eapply sh_gone; eauto.
  - intros a x Ha. rewrite (sh_ram _ _ H23 _ _ Ha). eapply sh_ram; [done|].
    eapply lookup_weaken; [done|]. apply H23.
  - destruct (sh_spaces _ _ H12) as (?&?&?&?), (sh_spaces _ _ H23) as (?&?&?&?).
    split_and!; congruence.
  - rewrite (sh_tlb _ _ H23). apply H12.
  - rewrite (sh_lock _ _ H23). apply H12.
Qed.

Lemma frames_ok_delete ph ph' D a x :
  frames_ok ph D → D !! a = Some x → phys_inv ph' →
  (∀ j, j ≠ entry_frame x → owned ph j → owned ph' j ∧ p_ram ph' !! j = p_ram ph !! j) →
  frames_ok ph' (delete a D).
Proof.
  intros [Hp Hown Hinj] Ha Hp' Ho. split; [done| |].
  - intros b y Hb. rewrite lookup_delete in Hb. case_decide; [done|].
    destruct (Hown _ _ Hb) as (? & ? & ? & ?).
    destruct (Ho (entry_frame y)) as [? ->]; [|done|done].
    intros Heq. assert (b = a) by eauto. congruence.
  - intros b c y z. rewrite !lookup_delete. repeat case_decide; try done. apply Hinj.
Qed.

Section vm_destroy.
Context `{KMallocLaws}.

(** Freeing the page of an unlinked entry, then the entry. *)
Lemma free_entry_spec k k1 a x :
  frames_ok (k_phys k) (entries k) → entries k !! a = Some x →
  k_phys k1 = k_phys k → entries k1 = delete a (entries k) → same_spaces k k1 →
  tlb k1 = tlb k → page_table_lock k1 = page_table_lock k →
  ∃ ph, (k2 ← free_kpage (paddr_to_kvaddr x.2) k1; Ok k2) = Ok (with_phys ph k1) ∧
    (let k3 := run_kfree a (with_phys ph k1) in
     shrinks k k3 ∧ frames_ok (k_phys k3) (entries k3)).
Proof.
  intros Hfr Ha Hph Hent Hsp Htlb Hlk.
  destruct (fr_owned _ _ Hfr _ _ Ha) as (Hown & Hr & Hu & Hm).
  assert (paddr_to_kvaddr x.2 = frame_kvaddr (entry_frame x) + x.2 mod 4096) as ->.
  { unfold paddr_to_kvaddr, frame_kvaddr, entry_frame, MIPS_KSEG0, PAGE_SIZE in *.
    pose proof (Z.div_mod x.2 4096 ltac:(lia)). pose proof (Z.mod_pos_bound x.2 4096 ltac:(lia)).
    rewrite u32_id; width. }
  destruct (free_kpage_spec k1 (entry_frame x) (x.2 mod 4096))
    as (ph & -> & Hinv & Hn & Hfree & Hram & Ho); rewrite ?Hph;
    [by apply Hfr|done|done|unfold PAGE_SIZE; pose proof (Z.mod_pos_bound x.2 4096); lia|].
  exists ph. split; [done|]. cbv zeta. unfold run_kfree.
  pose proof (kfree_laws a (with_phys ph k1)) as (Hi' & Hn' & Ho'). simpl in Hi', Hn', Ho'.
  pose proof (kfree_takes_none a (with_phys ph k1)) as Htn. simpl in Htn.
  rewrite Hph in Ho, Hram. set (ph3 := kfree a (with_phys ph k1)) in *.
  assert (∀ j, j ≠ entry_frame x → owned (k_phys k) j →
            owned ph3 j ∧ p_ram ph3 !! j = p_ram (k_phys k) !! j) as Hkeep.
  { intros j Hj Hoj. destruct (Ho' j) as [? ->]; [by apply Ho|]. by rewrite Hram. }
  assert (frames_ok ph3 (delete a (entries k))) as Hfr3.
  { eapply frames_ok_delete; eauto. }
  split.
  - split; simpl; try done.
    + change (entries (with_phys ph3 (with_phys ph k1))) with (entries k1).
      rewrite Hent. apply delete_subseteq.
    + intros i Hi. apply Htn. rewrite Hfree, Hph. by case_decide.
    + intros b y Hb. change (entries (with_phys ph3 (with_phys ph k1))) with (entries k1).
      rewrite Hent, lookup_delete. case_decide; [|congruence]. subst b. intros _.
      simplify_eq. apply Htn. by rewrite Hfree, decide_True.
    + intros b y. change (entries (with_phys ph3 (with_phys ph k1))) with (entries k1).
      rewrite Hent, lookup_delete. case_decide; [done|]. intros Hb.
      destruct (Hkeep (entry_frame y)) as [_ ?]; [|by eapply fr_owned|done].
      intros Heq. assert (b = a) by (by eapply (fr_inj _ _ Hfr)). congruence.
  - simpl. change (entries (with_phys ph3 (with_phys ph k1))) with (entries k1).
    by rewrite Hent.
Qed.

(** One turn of the loop of [vm_destroy] that finds an entry of [as_]. *)
Lemma unlink_step k i head kept a rest n_pe c :
  pt_ok k → frames_ok (k_phys k) (entries k) →
  zget (page_table k) i = Some head → chain (ptes k) head (kept ++ a :: rest) →
  (kept = [] ∨ ∃ kept', kept = kept' ++ [n_pe]) → ptes k !! a = Some c →
  ∃ n_pe' k1 ph head',
    (if head =? a then
       pt ← zput (page_table k) i (pte_next c);
       Ok (pte_next c, with_pt pt (ptes k) k)
     else
       n ← deref (ptes k !! n_pe);
       Ok (n_pe, with_pt (page_table k) (<[n_pe := set_next (pte_next c) n]> (ptes k)) k))
      = Ok (n_pe', k1) ∧
    (k2 ← free_kpage (paddr_to_kvaddr (frame_paddr c)) k1; Ok k2) = Ok (with_phys ph k1) ∧
    let k3 := run_kfree a
      (with_pt (page_table (with_phys ph k1)) (delete a (ptes (with_phys ph k1))) (with_phys ph k1)) in
    shrinks k k3 ∧ pt_ok k3 ∧ frames_ok (k_phys k3) (entries k3) ∧
    entries k3 = delete a (entries k) ∧
    zget (page_table k3) i = Some head' ∧ chain (ptes k3) head' (kept ++ rest) ∧
    (kept = [] ∨ ∃ kept', kept = kept' ++ [n_pe']) ∧ pte_next c = hd 0 rest.
Proof.
  intros Hpt Hfr Hi Hc Hkept Hac.
  pose proof (zget_Some_range _ _ _ Hi) as Hir.
  pose proof (entries_lookup _ _ _ Hac) as Ha.
  pose proof (chain_NoDup _ _ _ Hc) as (Hnd1 & Hd & [Har Hndr]%NoDup_cons)%NoDup_app.
  assert (pte_next c = hd 0 rest) as Hnext.
  { apply chain_suffix in Hc as (v & Hv & _ & Hcr). simplify_eq.
    destruct rest; simpl in Hcr; [done|]. by destruct Hcr. }
  (* the two relinkings, up to the freeing of page and entry *)
  assert (∃ n_pe' pt1 h1 head',
    (if head =? a then
       pt ← zput (page_table k) i (pte_next c);
       Ok (pte_next c, with_pt pt (ptes k) k)
     else
       n ← deref (ptes k !! n_pe);
       Ok (n_pe, with_pt (page_table k) (<[n_pe := set_next (pte_next c) n]> (ptes k)) k))
      = Ok (n_pe', with_pt pt1 h1 k) ∧
    zlen pt1 = zlen (page_table k) ∧ zget pt1 i = Some head' ∧
    (∀ j, j ≠ i → zget pt1 j = zget (page_table k) j) ∧
    chain (delete a h1) head' (kept ++ rest) ∧ pte_data <$> h1 = entries k ∧
    (∀ b, b ∉ kept ++ a :: rest → h1 !! b = ptes k !! b) ∧
    (kept = [] ∨ ∃ kept', kept = kept' ++ [n_pe'])) as Hlink.
  { destruct Hkept as [->|[kept' ->]].
    - simpl in Hc. destruct (Hc) as (-> & _). rewrite Z.eqb_refl.
      exists (pte_next c), (zset (page_table k) i (pte_next c)), (ptes k), (pte_next c).
      split_and!.
      + unfold zput. rewrite decide_True by lia. done.
      + apply zlen_zset.
      + by apply zget_zset_eq.
      + intros j Hj. by apply zget_zset_ne.
      + exact (chain_pop (ptes k) a a rest c Hc Hac).
      + done.
      + done.
      + by left.
    - rewrite <-app_assoc in Hc. simpl in Hc.
      destruct (chain_suffix _ _ _ _ _ Hc) as (n & Hn & _ & _).
      rewrite (proj2 (Z.eqb_neq _ _)).
      2:{ intros ->. apply (Hd a); [|by left]. destruct kept' as [|b kept'].
          - simpl in Hc. destruct Hc as [-> _]. by left.
          - simpl in Hc. destruct Hc as [-> _]. by left. }
      exists n_pe, (page_table k), (<[n_pe:=set_next (pte_next c) n]> (ptes k)), head.
      rewrite Hn. split_and!; try done.
      + rewrite <-app_assoc. simpl. exact (chain_unlink (ptes k) head kept' n_pe a rest c n Hc Hn Hac).
      + unfold entries. rewrite fmap_insert. apply insert_id. by rewrite lookup_fmap, Hn.
      + intros b Hb. rewrite lookup_insert_ne; [done|]. set_solver.
      + right. by exists kept'. }
  destruct Hlink as (n_pe' & pt1 & h1 & head' & -> & Hlen & Hhd & Hj & Hch & Hdata & Hout & Hk').
  destruct (free_entry_spec k (with_pt pt1 (delete a h1) k) a (pte_data c))
    as (ph & Hfree & Hsh & Hfr3); try done.
  { unfold entries at 1. simpl. by rewrite fmap_delete, Hdata. }
  exists n_pe', (with_pt pt1 h1 k), ph, head'. split; [done|].
  assert ((k2 ← free_kpage (paddr_to_kvaddr (frame_paddr c)) (with_pt pt1 h1 k); Ok k2) =
    Ok (with_phys ph (with_pt pt1 h1 k))) as Hfree'.
  { unfold free_kpage in *. simpl in *. destruct (free_kpages _ _); simplify_eq/=. done. }
  split; [done|]. cbv zeta.
  change (with_pt (page_table (with_phys ph (with_pt pt1 h1 k)))
    (delete a (ptes (with_phys ph (with_pt pt1 h1 k)))) (with_phys ph (with_pt pt1 h1 k)))
    with (with_phys ph (with_pt pt1 (delete a h1) k)).
  split_and!; try done.
  - apply pt_ok_phys, pt_ok_phys. eapply pt_ok_remove; try done.
    + by rewrite fmap_delete, Hdata.
    + intros b Hb. rewrite lookup_delete_ne by set_solver. auto.
  - unfold entries at 1. simpl. by rewrite fmap_delete, Hdata.
Qed.

(** Entries that survive the destruction of [as_] in the buckets [P]. *)
Definition survive (as_ : Z) (P : Z → Prop) `{!∀ a, Decision (P a)} (D : gmap Z entry) :
    gmap Z entry :=
  filter (λ ax, ¬ (P ax.1 ∧ ax.2.1.1 = as_)) D.

Lemma survive_delete as_ (P Q : Z → Prop) `{!∀ a, Decision (P a), !∀ a, Decision (Q a)} D a x :
  D !! a = Some x → x.1.1 = as_ → (∀ b, Q b ↔ b = a ∨ P b) →
  survive as_ P (delete a D) = survive as_ Q D.
Proof.
  intros Ha Hx HQ. apply map_eq. intros b. apply option_eq. intros y.
  unfold survive. rewrite !map_lookup_filter_Some, lookup_delete. simpl.
  setoid_rewrite HQ. case_decide; naive_solver.
Qed.

Lemma survive_skip as_ (P Q : Z → Prop) `{!∀ a, Decision (P a), !∀ a, Decision (Q a)} D a x :
  D !! a = Some x → x.1.1 ≠ as_ → (∀ b, Q b ↔ b = a ∨ P b) →
  survive as_ P D = survive as_ Q D.
Proof.
  intros Ha Hx HQ. apply map_eq. intros b. apply option_eq. intros y.
  unfold survive. rewrite !map_lookup_filter_Some. simpl. setoid_rewrite HQ. naive_solver.
Qed.

Lemma vm_destroy_bucket_spec as_ i rest : ∀ fuel kept k head n_pe,
  pt_ok k → frames_ok (k_phys k) (entries k) →
  zget (page_table k) i = Some head → chain (ptes k) head (kept ++ rest) →
  (kept = [] ∨ ∃ kept', kept = kept' ++ [n_pe]) → (length rest < fuel)%nat →
  ∃ k', vm_destroy_bucket fuel as_ i (hd 0 rest) n_pe k = Ok k' ∧
    shrinks k k' ∧ pt_ok k' ∧ frames_ok (k_phys k') (entries k') ∧
    entries k' = survive as_ (.∈ rest) (entries k).
Proof.
  induction rest as [|a rest IH]; intros [|fuel] kept k head n_pe Hpt Hfr Hi Hc Hkept Hf;
    simpl in Hf; try lia; cbn [vm_destroy_bucket hd].
  { exists k. simpl. split_and!; [done|apply shrinks_refl|done|done|].
    symmetry. apply map_filter_id. intros b y _ [?%elem_of_nil _]. done. }
  destruct (chain_suffix _ _ _ _ _ Hc) as (c & Hac & Hn & Hcr).
  rewrite (proj2 (Z.eqb_neq _ _)) by done. rewrite Hac. cbn [deref mbind outcome_bind].
  pose proof (entries_lookup _ _ _ Hac) as Ha.
  assert (∀ b, b ∈ a :: rest ↔ b = a ∨ b ∈ rest) as Hsplit by set_solver.
  destruct (pid c =? as_) eqn:Ep; [apply Z.eqb_eq in Ep|apply Z.eqb_neq in Ep].
  - rewrite Hi. cbn [deref mbind outcome_bind].
    destruct (unlink_step k i head kept a rest n_pe c Hpt Hfr Hi Hc Hkept Hac)
      as (n_pe' & k1 & ph & head' & Hlink & Hfree & Hsh & Hpt3 & Hfr3 & Hent & Hi3 & Hc3 & Hk3 & Hnx).
    rewrite Hlink. simpl.
    destruct (free_kpage (paddr_to_kvaddr (frame_paddr c)) k1) as [k2| | |]; simplify_eq/=.
    destruct (IH fuel kept _ head' n_pe' Hpt3 Hfr3 Hi3 Hc3 Hk3) as (k' & Hk' & Hsh' & ? & ? & Hent');
      [lia|].
    rewrite Hnx. exists k'. split_and!; try done.
    + by eapply shrinks_trans.
    + rewrite Hent', Hent. by apply (survive_delete _ _ _ _ _ (pte_data c)).
  - destruct (IH fuel (kept ++ [a]) k head a) as (k' & Hk' & Hsh' & ? & ? & Hent'); try done.
    { by rewrite <-app_assoc. } { right. by exists kept. } { lia. }
    assert (pte_next c = hd 0 rest) as ->.
    { destruct rest; simpl in Hcr; [done|]. by destruct Hcr. }
    exists k'. split_and!; try done.
    rewrite Hent'. by apply (survive_skip _ _ _ _ a (pte_data c)).
Qed.

Definition bucket_of (k : kern) (D : gmap Z entry) (idx : list Z) (a : Z) : Prop :=
  ∃ x, D !! a = Some x ∧ hpt_hash k x.1.1 x.1.2 ∈ idx.

#[global] Instance bucket_of_dec k D idx a : Decision (bucket_of k D idx a).
Proof.
  unfold bucket_of. destruct (D !! a) as [x|].
  - destruct (decide (hpt_hash k x.1.1 x.1.2 ∈ idx)); [left|right]; naive_solver.
  - right. naive_solver.
Defined.

Lemma survive_bucket k as_ i (l : list Z) idx D :
  (∀ a, a ∈ l ↔ ∃ x, D !! a = Some x ∧ hpt_hash k x.1.1 x.1.2 = i) →
  survive as_ (bucket_of k (survive as_ (.∈ l) D) idx) (survive as_ (.∈ l) D) =
  survive as_ (bucket_of k D (i :: idx)) D.
Proof.
  intros Hl. apply map_eq. intros a. apply option_eq. intros x. unfold survive, bucket_of.
  rewrite !map_lookup_filter_Some. setoid_rewrite map_lookup_filter_Some. simpl.
  setoid_rewrite Hl. setoid_rewrite elem_of_cons. naive_solver.
Qed.

Lemma vm_destroy_loop_spec as_ idx : ∀ k,
  pt_ok k → frames_ok (k_phys k) (entries k) →
  Forall (λ i, 0 ≤ i < page_nums k) idx →
  ∃ k', vm_destroy_loop as_ idx k = Ok k' ∧ shrinks k k' ∧ pt_ok k' ∧
    frames_ok (k_phys k') (entries k') ∧
    entries k' = survive as_ (bucket_of k (entries k) idx) (entries k).
Proof.
  induction idx as [|i idx IH]; intros k Hpt Hfr Hidx; cbn [vm_destroy_loop].
  { exists k. split_and!; [done|apply shrinks_refl|done|done|].
    symmetry. apply map_filter_id. intros b y _ [(? & _ & ?%elem_of_nil) _]. done. }
  apply Forall_cons in Hidx as [Hi Hidx].
  destruct (zget_range (page_table k) i) as [head Hh]; [by rewrite (pt_len _ Hpt)|].
  rewrite Hh. cbn [deref mbind outcome_bind]. destruct (pt_buckets _ Hpt _ _ Hh) as (l & Hc & Hl).
  destruct (vm_destroy_bucket_spec as_ i l (list_fuel (ptes k)) [] k head head)
    as (k1 & Hk1 & Hsh1 & Hpt1 & Hfr1 & Hent1); try done.
  { by left. } { pose proof (chain_length _ _ _ Hc). unfold list_fuel. lia. }
  assert (hd 0 l = head) as Hhd.
  { destruct l; simpl in Hc; [done|]. by destruct Hc. }
  rewrite Hhd in Hk1. rewrite Hk1. simpl.
  pose proof (sh_spaces _ _ Hsh1) as (_ & _ & _ & Hpn).
  destruct (IH k1 Hpt1 Hfr1) as (k' & -> & Hsh' & ? & ? & Hent'); [by rewrite Hpn|].
  exists k'. split_and!; try done; [by eapply shrinks_trans|].
  rewrite Hent', Hent1. rewrite <-(survive_bucket k as_ i l idx (entries k) Hl).
  apply map_filter_ext. intros b y _. unfold bucket_of, hpt_hash. by rewrite Hpn.
Qed.

End vm_destroy.

(** The view without the pages of one address space. *)
Lemma view_filter as_ D :
  keys_ok D →
  view (filter (λ ax, ax.2.1.1 ≠ as_) D) = filter (λ kv, kv.1.1 ≠ as_) (view D).
Proof.
  intros HD.
  assert (keys_ok (filter (λ ax, ax.2.1.1 ≠ as_) D)) as HD'.
  { intros a b x y [Hx _]%map_lookup_filter_Some [Hy _]%map_lookup_filter_Some. by apply HD. }
  apply map_eq. intros key. apply option_eq. intros fp.
  rewrite map_lookup_filter_Some, !view_lookup by done.
  setoid_rewrite map_lookup_filter_Some. simpl. naive_solver.
Qed.

Section vm_destroy.
Context `{KMallocLaws}.

Lemma vm_destroy_spec as_ k :
  vm_inv k →
  ∃ k', vm_destroy as_ k = Ok k' ∧ vm_inv k' ∧ shrinks k k' ∧
    entries k' = filter (λ ax, ax.2.1.1 ≠ as_) (entries k).
Proof.
  intros [Hpt Hfr Hlk]. unfold vm_destroy. rewrite lock_pt_ok by done. simpl.
  destruct (vm_destroy_loop_spec as_ (seqZ 0 (page_nums k)) (with_lock true k))
    as (k1 & -> & Hsh & Hpt1 & Hfr1 & Hent).
  { by destruct Hpt; split. } { done. }
  { apply Forall_forall. intros i ?%elem_of_seqZ. simpl. lia. }
  simpl. rewrite unlock_pt_ok by (by rewrite (sh_lock _ _ Hsh)).
  eexists. split; [done|]. split; [split; [by destruct Hpt1; split|done|done]|]. split.
  - destruct Hsh as [?????? _]. split; try done.
  - change (entries (with_lock false k1)) with (entries k1). rewrite Hent.
    apply map_filter_ext. intros a x Hx. simpl.
    assert (bucket_of (with_lock true k) (entries k) (seqZ 0 (page_nums k)) a) as Hb.
    { exists x. split; [done|]. apply elem_of_seqZ.
      pose proof (hpt_hash_range (with_lock true k) x.1.1 x.1.2 (pt_pos _ Hpt)).
      simpl in *. lia. }
    naive_solver.
Qed.

End vm_destroy.

(** ** Copying an address space *)

Section vm_copy.
Context `{KMallocLaws}.

(** Progress of [vm_copy] from [k0] to [k] after the buckets [seen]: old entries
    and their pages are untouched, every additional entry maps a copy of a page
    of [old] from a bucket already seen, and the first entry of each bucket seen
    has been copied if it belongs to [old]. *)
Record copying (old new : Z) (k0 : kern) (seen : list Z) (k : kern) : Prop := {
  cp_pt : pt_ok k;
  cp_frames : frames_ok (k_phys k) (entries k);
  cp_lock : page_table_lock k = true;
  cp_spaces : same_spaces k0 k;
  cp_tlb : tlb k = tlb k0;
  cp_phys : phys_ext (k_phys k0) (k_phys k);
  cp_sub : entries k0 ⊆ entries k;
  cp_heads i hd : zget (page_table k0) i = Some hd → hd ≠ 0 → zget (page_table k) i = Some hd;
  cp_new a x : entries k !! a = Some x → entries k0 !! a = None →
    x.1.1 = new ∧ ∃ b y, entries k0 !! b = Some y ∧ y.1 = (old, x.1.2) ∧
      hpt_hash k0 old x.1.2 ∈ seen ∧ x.2 mod 4096 = y.2 mod 4096 ∧
      p_ram (k_phys k) !! entry_frame x = p_ram (k_phys k0) !! entry_frame y;
  cp_done i hd y : i ∈ seen → zget (page_table k0) i = Some hd → entries k0 !! hd = Some y →
    y.1.1 = old → is_Some (vm_view k !! (new, y.1.2))
}.

(** The ways [vm_copy] can end: it returns, with or without memory for all
    entries, or it runs out of frames and copies to address 0. *)
Definition out_of_frames (k0 : kern) : Prop :=
  ∃ k, phys_ext (k_phys k0) (k_phys k) ∧ alloc_kpage k = Ok (0, k).

Lemma memcpy_page_frame k i j p :
  0 ≤ i < 131072 → 0 ≤ j < 131072 → p_ram (k_phys k) !! j = Some p →
  memcpy_page (frame_kvaddr i) (frame_kvaddr j) k =
    Ok (with_phys (Phys (p_ft (k_phys k)) (<[i := p]> (p_ram (k_phys k))) (p_heap (k_phys k))) k).
Proof. intros ?? Hp. unfold memcpy_page. rewrite !kpage_frame by done. simpl. by rewrite Hp. Qed.

Lemma copy_source fp :
  is_u32 fp → 0 < fp / 4096 < 131072 →
  paddr_to_kvaddr (Z.land fp PAGE_FRAME) = frame_kvaddr (fp / PAGE_SIZE).
Proof.
  intros Hu Hr. unfold PAGE_FRAME, PAGE_SIZE. rewrite land_page_frame by done.
  unfold paddr_to_kvaddr, frame_kvaddr, PAGE_SIZE, MIPS_KSEG0. rewrite u32_id; width.
Qed.

Lemma copy_flags i fp :
  0 ≤ i < 131072 →
  Z.lor (kvaddr_to_paddr (frame_kvaddr i)) (Z.land fp (u32 (Z.lnot PAGE_FRAME))) =
    i * 4096 + fp mod 4096.
Proof.
  intros. change (u32 (Z.lnot PAGE_FRAME)) with 4095. rewrite land_page_offset.
  rewrite kvaddr_paddr_frame by done. apply lor_page. apply Z.mod_pos_bound. lia.
Qed.

Lemma pt_ok_nonnull k a x : pt_ok k → entries k !! a = Some x → a ≠ 0.
Proof.
  intros Hpt Hx. pose proof (hpt_hash_range k x.1.1 x.1.2 (pt_pos _ Hpt)) as Hr.
  destruct (zget_range (page_table k) (hpt_hash k x.1.1 x.1.2)) as [hd Hhd];
    [by rewrite (pt_len _ Hpt)|].
  destruct (pt_buckets _ Hpt _ _ Hhd) as (l & Hc & Hl).
  apply (chain_elem _ _ _ _ Hc). apply Hl. eauto.
Qed.

(** The head of a bucket is [NULL] or an entry that hashes to the bucket. *)
Lemma bucket_head k i hd :
  pt_ok k → zget (page_table k) i = Some hd → hd ≠ 0 →
  ∃ c, ptes k !! hd = Some c ∧ hpt_hash k (pid c) (page_vaddr c) = i.
Proof.
  intros Hpt Hhd Hn. destruct (pt_buckets _ Hpt _ _ Hhd) as (l & Hc & Hl).
  destruct l as [|a l]; simpl in Hc; [done|]. destruct Hc as (-> & _ & c & Hv & _).
  exists c. split; [done|]. destruct (proj1 (Hl a)) as (x & Hx & Hh); [by left|].
  rewrite (entries_lookup _ _ _ Hv) in Hx. by simplify_eq.
Qed.

Lemma copying_phys old new k0 seen k ph :
  copying old new k0 seen k → phys_ext (k_phys k) ph →
  copying old new k0 seen (with_phys ph k).
Proof.
  intros Hcp Hext. pose proof (cp_frames _ _ _ _ _ Hcp) as Hfr.
  destruct Hcp as [?? ? Hsp ? ? ? ? Hnew Hdone]. split; try done.
  - by apply pt_ok_phys.
  - by apply (frames_ok_ext (k_phys k)).
  - by transitivity (k_phys k).
  - intros a x Hx Hn. destruct (Hnew _ _ Hx Hn) as (? & b & y & ? & ? & ? & ? & Hram).
    split; [done|]. exists b, y. split_and!; try done. rewrite <-Hram.
    by apply Hext, (fr_owned _ _ Hfr a).
Qed.

Lemma copying_skip old new k0 seen k i :
  copying old new k0 seen k →
  (∀ hd y, zget (page_table k0) i = Some hd → entries k0 !! hd = Some y → y.1.1 ≠ old) →
  copying old new k0 (i :: seen) k.
Proof.
  intros [????????? Hdone] Hi. split; try done.
  - intros a x Hx Hn. destruct (cp_new0 _ _ Hx Hn) as (? & b & y & ? & ? & ? & ? & ?).
    split; [done|]. exists b, y. split_and!; try done. by right.
  - intros j hd y [->|Hj]%elem_of_cons Hhd Hy Ho; [|eauto]. by destruct (Hi _ _ Hhd Hy).
Qed.

(** Linking the copy of the first page of bucket [i]: [k] is the state with the
    page copied to frame [j], [k'] the one with the new entry. *)
Lemma copying_insert old new k0 seen k i hd va fp y a j p pt h :
  copying old new k0 seen k → pt_ok (with_pt pt h k) →
  entries (with_pt pt h k) = <[a := (new, va, fp)]> (entries k) →
  (∀ i hd, zget (page_table k) i = Some hd → hd ≠ 0 → zget pt i = Some hd) →
  entries k !! a = None → vm_view k !! (new, va) = None →
  entries k0 !! hd = Some y → y.1 = (old, va) → hpt_hash k0 old va = i →
  (∀ hd' y', zget (page_table k0) i = Some hd' → entries k0 !! hd' = Some y' → hd' = hd) →
  fp / 4096 = j → is_u32 fp → fp mod 4096 = y.2 mod 4096 →
  0 < j < 131072 → owned (k_phys k) j → (∀ b x, entries k !! b = Some x → entry_frame x ≠ j) →
  p_ram (k_phys k) !! j = Some p → p_ram (k_phys k0) !! entry_frame y = Some p →
  copying old new k0 (i :: seen) (with_pt pt h k).
Proof.
  intros Hcp Hpt Hent Hheads Hnone Hview Hy Hyk Hi Huniq Hj Hu Hfl Hjr Hown Hjn Hpj Hpy.
  assert (vm_view (with_pt pt h k) = <[(new, va) := fp]> (vm_view k)) as Hv.
  { unfold vm_view. rewrite Hent. apply view_insert; [by apply Hcp|done|done]. }
  pose proof (cp_sub _ _ _ _ _ Hcp) as Hsub.
  split; try done; try apply Hcp.
  - rewrite Hent. apply frames_ok_insert; try done; [by apply Hcp|..];
      unfold entry_frame, PAGE_SIZE; simpl; rewrite Hj; try done.
  - rewrite Hent. etransitivity; [exact Hsub|]. by apply insert_subseteq.
  - intros i' hd' Hh Hn. eapply Hheads; [|done]. by apply Hcp.
  - intros b x. rewrite Hent, lookup_insert. case_decide as Hab.
    + intros [= <-] _. split; [done|]. exists hd, y. split_and!; try done.
      * simpl. rewrite Hi. by left.
      * unfold entry_frame at 1, PAGE_SIZE. simpl. by rewrite Hj, Hpj.
    + intros Hx Hn. destruct (cp_new _ _ _ _ _ Hcp _ _ Hx Hn) as (? & b' & y' & ? & ? & ? & ? & ?).
      split; [done|]. exists b', y'. split_and!; try done. by right.
  - intros i' hd' y' [->|Hin]%elem_of_cons Hh Hy' Ho.
    + assert (hd' = hd) as -> by eauto. simplify_eq. rewrite Hyk, Hv. simpl.
      rewrite lookup_insert_eq. eauto.
    + destruct (cp_done _ _ _ _ _ Hcp _ _ _ Hin Hh Hy' Ho) as [fp' Hfp'].
      rewrite Hv, lookup_insert. case_decide; eauto.
Qed.

Lemma vm_copy_bucket_spec old new k0 seen k i :
  pt_ok k0 → frames_ok (k_phys k0) (entries k0) → old ≠ new →
  (∀ va, vm_view k0 !! (new, va) = None) → copying old new k0 seen k → i ∉ seen → 0 ≤ i < page_nums k0 →
  (∃ k', vm_copy_bucket old new i k = Ok (inl k') ∧ copying old new k0 (i :: seen) k') ∨
  (∃ k1, vm_copy_bucket old new i k = Ok (inr (with_lock false k1)) ∧
     copying old new k0 seen k1) ∨
  (vm_copy_bucket old new i k = Fault ∧ out_of_frames k0).
Proof.
  intros Hpt0 Hfr0 Hne Hfresh Hcp Hi Hir. pose proof (cp_pt _ _ _ _ _ Hcp) as Hpt.
  pose proof (cp_spaces _ _ _ _ _ Hcp) as (_ & _ & _ & Hpn).
  assert (∀ p va, hpt_hash k p va = hpt_hash k0 p va) as Hhash.
  { intros. unfold hpt_hash. by rewrite Hpn. }
  destruct (zget_range (page_table k) i) as [cur Hcur]; [rewrite (pt_len _ Hpt); lia|].
  unfold vm_copy_bucket. rewrite Hcur. cbn [deref mbind outcome_bind].
  assert (∀ hd y, zget (page_table k0) i = Some hd → entries k0 !! hd = Some y → hd = cur) as Hhd.
  { intros hd y Hh Hy. pose proof (pt_ok_nonnull _ _ _ Hpt0 Hy).
    pose proof (cp_heads _ _ _ _ _ Hcp _ _ Hh). naive_solver. }
  destruct (cur =? 0) eqn:Ec; [apply Z.eqb_eq in Ec|apply Z.eqb_neq in Ec].
  { left. exists k. split; [done|]. apply copying_skip; [done|]. intros hd y Hh Hy _.
    pose proof (pt_ok_nonnull _ _ _ Hpt0 Hy). specialize (Hhd _ _ Hh Hy). congruence. }
  destruct (bucket_head _ _ _ Hpt Hcur Ec) as (c & Hc & Hci). rewrite Hc. simpl.
  pose proof (entries_lookup _ _ _ Hc) as Hce.
  destruct (pid c =? old) eqn:Eo; [apply Z.eqb_eq in Eo|apply Z.eqb_neq in Eo]; simpl.
  2:{ left. exists k. split; [done|]. apply copying_skip; [done|]. intros hd y Hh Hy Hyo.
      rewrite (Hhd _ _ Hh Hy) in Hy.
      pose proof (lookup_weaken _ _ _ _ Hy (cp_sub _ _ _ _ _ Hcp)). simplify_eq. }
  subst old.
  assert (entries k0 !! cur = Some (pte_data c)) as Hce0.
  { destruct (entries k0 !! cur) as [y|] eqn:Ey.
    - pose proof (lookup_weaken _ _ _ _ Ey (cp_sub _ _ _ _ _ Hcp)). congruence.
    - by destruct (cp_new _ _ _ _ _ Hcp _ _ Hce Ey). }
  unfold run_kmalloc. destruct (kmalloc k) as [new_pte ph1] eqn:Hkm.
  destruct (kmalloc_laws _ _ _ Hkm) as (Hext1 & Hnew).
  pose proof (copying_phys _ _ _ _ _ _ Hcp Hext1) as Hcp1.
  destruct (new_pte =? 0) eqn:En; [apply Z.eqb_eq in En|apply Z.eqb_neq in En].
  { right; left. exists (with_phys ph1 k). split; [|done].
    rewrite unlock_pt_ok by apply Hcp1. done. }
  destruct (Hnew En) as [_ Hlive]. clear Hnew.
  pose proof (cp_frames _ _ _ _ _ Hcp1) as Hfr1. simpl in Hfr1.
  change (entries (with_phys ph1 k)) with (entries k) in Hfr1.
  destruct (alloc_kpage_spec (with_phys ph1 k) (fr_phys _ _ Hfr1))
    as [[Ha _]|(j & ph2 & -> & Hj & Hnj & Hoj & Hext2 & Hinv2 & Hram2 & _)].
  { right; right. rewrite Ha. simpl. split; [done|]. exists (with_phys ph1 k).
    split; [apply Hcp1|done]. }
  simpl in Hnj, Hext2, Hram2. cbn [mbind outcome_bind].
  destruct (fr_owned _ _ Hfr1 _ _ Hce) as (Hoc & Hcr & Hcu & [p Hp]).
  unfold entry_frame in Hcr, Hp. cbn [pte_data snd] in Hcr, Hcu, Hp.
  rewrite copy_source by done.
  rewrite (memcpy_page_frame _ j _ p) by (done || lia || (simpl; by rewrite Hram2)).
  cbn [mbind outcome_bind]. rewrite copy_flags by lia.
  set (ph3 := Phys _ _ _). set (fp := j * 4096 + _).
  assert (phys_ext ph1 ph3) as Hext3 by (by apply phys_ext_store).
  pose proof (copying_phys _ _ _ _ _ _ Hcp1 Hext3) as Hcp3.
  change (with_phys ph3 (with_phys ph1 k)) with (with_phys ph3 k) in Hcp3.
  assert (vm_view k !! (new, page_vaddr c) = None) as Hvn.
  { apply eq_None_not_Some. intros [fp' [a Ha]%view_lookup]; [|by apply Hpt].
    destruct (entries k0 !! a) as [y|] eqn:Ey.
    - pose proof (lookup_weaken _ _ _ _ Ey (cp_sub _ _ _ _ _ Hcp)). simplify_eq.
      by destruct (proj1 (view_lookup_None _ _ (pt_keys _ Hpt0)) (Hfresh (page_vaddr c)) _ _ Ey).
    - destruct (cp_new _ _ _ _ _ Hcp _ _ Ha Ey) as (_ & b & y & _ & _ & Hin & _). simpl in Hin.
      rewrite <-Hhash, Hci in Hin. done. }
  assert (ptes k !! new_pte = None) as Hnone.
  { apply eq_None_not_Some. intros ?. apply Hlive. by left. }
  destruct (insert_pte_spec (with_phys ph3 k) new_pte (PTE new (page_vaddr c) fp 0))
    as (pt & h & Hins & Hpt' & Hent & Hheads); [by apply Hcp3|done|done|done|done|].
  left. exists (with_pt pt h (with_phys ph3 k)). split.
  { simpl in Hins. unfold hpt_hash in Hins |- *. simpl in Hins |- *.
    change (with_phys ph3 (with_phys ph2 (with_phys ph1 k))) with (with_phys ph3 k).
    by rewrite Hins. }
  apply (copying_insert _ _ _ _ _ _ cur (page_vaddr c) fp (pte_data c) new_pte j p); try done.
  - unfold entries. simpl. by rewrite lookup_fmap, Hnone.
  - by rewrite <-Hhash.
  - unfold fp. apply div_page. by apply Z.mod_pos_bound.
  - unfold fp. pose proof (Z.mod_pos_bound (frame_paddr c) 4096). width.
  - unfold fp. rewrite Z.add_comm, Z.mod_add by lia. by apply Z.mod_mod.
  - intros b x Hx <-. apply Hnj. by apply (fr_owned _ _ Hfr1 b).
  - apply lookup_insert_eq.
  - destruct (fr_owned _ _ Hfr0 _ _ Hce0) as [Hoc0 _].
    by rewrite <-(proj2 (proj2 (proj2 (cp_phys _ _ _ _ _ Hcp1)) _ Hoc0)).
Qed.

Lemma vm_copy_loop_spec old new k0 idx : ∀ seen k,
  pt_ok k0 → frames_ok (k_phys k0) (entries k0) → old ≠ new →
  (∀ va, vm_view k0 !! (new, va) = None) →
  copying old new k0 seen k → NoDup (idx ++ seen) → Forall (λ i, 0 ≤ i < page_nums k0) idx →
  (∃ k1, vm_copy_loop old new idx k = Ok (0, with_lock false k1) ∧
     copying old new k0 (reverse idx ++ seen) k1) ∨
  (∃ k1 seen', vm_copy_loop old new idx k = Ok (ENOMEM, with_lock false k1) ∧
     copying old new k0 seen' k1) ∨
  (vm_copy_loop old new idx k = Fault ∧ out_of_frames k0).
Proof.
  induction idx as [|i idx IH]; intros seen k Hpt0 Hfr0 Hne Hfresh Hcp Hnd Hidx;
    cbn [vm_copy_loop].
  { left. exists k. rewrite unlock_pt_ok by apply Hcp. done. }
  apply NoDup_cons in Hnd as [Hni Hnd]. apply Forall_cons in Hidx as [Hi Hidx].
  destruct (vm_copy_bucket_spec old new k0 seen k i)
    as [(k1 & -> & Hcp1)|[(k1 & -> & Hcp1)|[-> ?]]]; try done; [set_solver|..];
    cbn [mbind outcome_bind].
  - destruct (IH (i :: seen) k1) as [(k2 & -> & Hk2)|[(k2 & s2 & -> & Hk2)|[-> ?]]]; try done.
    + apply NoDup_app in Hnd as (? & ? & ?). apply NoDup_app. split_and!; [done| |].
      * set_solver.
      * apply NoDup_cons. set_solver.
    + left. exists k2. split; [done|]. by rewrite reverse_cons, <-app_assoc.
    + right; left. eauto.
    + right; right. done.
  - right; left. eauto.
  - right; right. done.
Qed.

Lemma vm_copy_spec old new k :
  vm_inv k → old ≠ new → (∀ va, vm_view k !! (new, va) = None) →
  (∃ e k1 seen, vm_copy old new k = Ok (e, with_lock false k1) ∧
     copying old new (with_lock true k) seen k1 ∧
     (e = ENOMEM ∨ e = 0 ∧ ∀ i, 0 ≤ i < page_nums k → i ∈ seen)) ∨
  (vm_copy old new k = Fault ∧ out_of_frames k).
Proof.
  intros [Hpt Hfr Hlk] Hne Hfresh. unfold vm_copy. rewrite lock_pt_ok by done.
  cbn [mbind outcome_bind].
  assert (pt_ok (with_lock true k)) as Hpt' by (by destruct Hpt; split).
  assert (copying old new (with_lock true k) [] (with_lock true k)) as Hcp.
  { split; try done.
    - intros a x Hx Hn. congruence.
    - by intros ??? ?%elem_of_nil. }
  destruct (vm_copy_loop_spec old new (with_lock true k) (seqZ 0 (page_nums k)) [] (with_lock true k))
    as [(k1 & Hk1 & Hcp1)|[(k1 & s1 & Hk1 & Hcp1)|[Hk1 ?]]]; try done.
  - rewrite app_nil_r. apply NoDup_seqZ.
  - apply Forall_forall. intros i ?%elem_of_seqZ. simpl. lia.
  - left. eexists 0, k1, _. split; [exact Hk1|]. split; [exact Hcp1|]. right. split; [done|].
    intros i Hi. rewrite app_nil_r, elem_of_reverse, elem_of_seqZ. lia.
  - left. exists ENOMEM, k1, s1. split; [exact Hk1|]. split; [done|by left].
  - by right.
Qed.

End vm_copy.
