(* ===== verification/AddrSpace.v ===== *)
(** * Address spaces

    Models asst3/kern/vm/addrspace.c: the list of regions of an address space,
    its creation, copy and destruction, and the TLB flush of [as_activate]. *)

From S2P Require Import Prelude LinkedList FrameTable VmState Vm.
Import Ram FrameTable.

Section addrspace.
Context `{KMalloc}.
Implicit Types (k : kern).

Definition proc_getas (k : kern) : Z :=
  match curproc_as k with
  | None => 0
  | Some as_ => as_
  end.

Definition as_create (k : kern) : Z * kern :=
  let '(as_, k) := run_kmalloc k in
  if as_ =? 0 then (0, k)
  else (as_, with_as (<[as_ := AddrSpace 0 0]> (aspaces k)) (regions k) k).

(** The fields of the region that [as_define_region] fills in. *)
Definition new_region (vaddr memsize readable writeable executable : Z) : region :=
  Region (Z.land vaddr PAGE_FRAME)
    (u32 (memsize + vaddr mod PAGE_SIZE + PAGE_SIZE - 1) / PAGE_SIZE)
    (Z.lor (Z.lor readable writeable) executable) 0.

Definition as_define_region (as_ vaddr memsize readable writeable executable : Z) (k : kern) :
    outcome (Z * kern) :=
  let '(nr, k) := run_kmalloc k in
  if nr =? 0 then Ok (ENOMEM, k)
  else
    let rs := <[nr := new_region vaddr memsize readable writeable executable]> (regions k) in
    asp ← deref (aspaces k !! as_);
    '(rs, head) ← append_node rs (as_regions asp) nr;
    Ok (0, with_as (<[as_ := AddrSpace head (dirty_mask asp)]> (aspaces k)) rs k).

Definition as_activate (k : kern) : kern :=
  if proc_getas k =? 0 then k
  else foldl (λ k i, tlb_write (TLBHI_INVALID i) TLBLO_INVALID i k) k (seqZ 0 NUM_TLB).

Definition as_deactivate (k : kern) : kern := as_activate k.

Definition as_prepare_load (as_ : Z) (k : kern) : outcome (Z * kern) :=
  asp ← deref (aspaces k !! as_);
  Ok (0, as_activate
           (with_as (<[as_ := AddrSpace (as_regions asp) TLBLO_DIRTY]> (aspaces k)) (regions k) k)).

Definition as_complete_load (as_ : Z) (k : kern) : outcome (Z * kern) :=
  asp ← deref (aspaces k !! as_);
  Ok (0, as_activate
           (with_as (<[as_ := AddrSpace (as_regions asp) 0]> (aspaces k)) (regions k) k)).

Definition USER_STACKPAGES : Z := 16.

(** Returns the error code and [*stackptr]. *)
Definition as_define_stack (as_ : Z) (k : kern) : outcome (Z * Z * kern) :=
  '(err, k) ← as_define_region as_ (USERSTACK - PAGE_SIZE * USER_STACKPAGES)
                (PAGE_SIZE * USER_STACKPAGES) PERMISSION_READ PERMISSION_WRITE 0 k;
  Ok (err, USERSTACK, k).

(** The loop of [as_destroy] that frees the regions. *)
Fixpoint free_regions (fuel : nat) (region : Z) (k : kern) : outcome kern :=
  match fuel with
  | O => Hang
  | S fuel =>
      if region =? 0 then Ok k
      else
        r ← deref (regions k !! region);
        let tmp := region in
        let region := next_region r in
        free_regions fuel region
          (run_kfree tmp (with_as (aspaces k) (delete tmp (regions k)) k))
  end.

Definition as_destroy (as_ : Z) (k : kern) : outcome kern :=
  k ← vm_destroy as_ k;
  asp ← deref (aspaces k !! as_);
  k ← free_regions (list_fuel (regions k)) (as_regions asp) k;
  Ok (run_kfree as_ (with_as (delete as_ (aspaces k)) (regions k) k)).

(** The loop of [as_copy] over the regions of the old address space. *)
Fixpoint copy_regions (fuel : nat) (new old_region : Z) (k : kern) : outcome (Z * kern) :=
  match fuel with
  | O => Hang
  | S fuel =>
      if old_region =? 0 then Ok (0, k)
      else
        r ← deref (regions k !! old_region);
        '(err, k) ← as_define_region new (base_page_vaddr r)
                      (u32 (PAGE_SIZE * region_page_nums r))
                      (Z.land (permission r) PERMISSION_READ)
                      (Z.land (permission r) PERMISSION_WRITE)
                      (Z.land (permission r) PERMISSION_EXECUTE) k;
        if negb (err =? 0) then Ok (err, k)
        else
          r ← deref (regions k !! old_region);
          copy_regions fuel new (next_region r) k
  end.

(** Returns the error code, [*ret] if it was written, and the state. *)
Definition as_copy (old : Z) (k : kern) : outcome (Z * option Z * kern) :=
  let '(new, k) := as_create k in
  if new =? 0 then Ok (ENOMEM, None, k)
  else
    o ← deref (aspaces k !! old);
    n ← deref (aspaces k !! new);
    let k := with_as (<[new := AddrSpace (as_regions n) (dirty_mask o)]> (aspaces k)) (regions k) k in
    '(err, k) ← copy_regions (list_fuel (regions k)) new (as_regions o) k;
    if negb (err =? 0) then
      k ← as_destroy new k;
      Ok (err, None, k)
    else
      '(err, k) ← vm_copy old new k;
      if negb (err =? 0) then
        k ← as_destroy new k;
        Ok (err, Some new, k)
      else Ok (err, Some new, k).

End addrspace.

(** ** Invariant of the address spaces *)

(** A region without its link. *)
Definition region_data (r : region) : Z * Z * Z :=
  (base_page_vaddr r, region_page_nums r, permission r).

(** [l] are the region nodes of [as_], in order. *)
Definition region_chain (k : kern) (as_ : Z) (l : list Z) : Prop :=
  ∃ asp, aspaces k !! as_ = Some asp ∧ chain (regions k) (as_regions asp) l.

(** The regions of [as_], in order, without links. *)
Definition region_list (k : kern) (as_ : Z) (ds : list (Z * Z * Z)) : Prop :=
  ∃ l, region_chain k as_ l ∧ Forall2 (λ a d, region_data <$> regions k !! a = Some d) l ds.

Record spaces_ok (k : kern) : Prop := {
  sp_chain as_ asp : aspaces k !! as_ = Some asp → as_ ≠ 0 ∧ ∃ l, chain (regions k) (as_regions asp) l;
  sp_disj as1 as2 l1 l2 : as1 ≠ as2 → region_chain k as1 l1 → region_chain k as2 l2 →
    ∀ a, a ∈ l1 → a ∉ l2
}.

(** Every page belongs to a live address space. *)
Definition pids_ok (k : kern) : Prop :=
  ∀ a x, entries k !! a = Some x → is_Some (aspaces k !! x.1.1).

Record kern_inv (k : kern) : Prop := {
  ki_vm : vm_inv k;
  ki_spaces : spaces_ok k;
  ki_pids : pids_ok k
}.

Lemma vm_inv_as ass rs k : vm_inv k → vm_inv (with_as ass rs k).
Proof. intros [Hpt Hfr Hlk]. split; [by destruct Hpt; split|done|done]. Qed.

Lemma vm_inv_phys ph k : vm_inv k → phys_ext (k_phys k) ph → vm_inv (with_phys ph k).
Proof.
  intros [Hpt Hfr Hlk] Hext. split; [by apply pt_ok_phys| |done].
  by apply (frames_ok_ext (k_phys k)).
Qed.

Lemma region_chain_det k as_ l1 l2 : region_chain k as_ l1 → region_chain k as_ l2 → l1 = l2.
Proof. intros (a1 & ? & ?) (a2 & ? & ?). simplify_eq. by eapply chain_det. Qed.

(** The state [k0] with one more address space [new], whose regions are the
    nodes [l] with contents [ds], none of which exists in [k0]. *)
Definition with_space (k0 : kern) (new dm : Z) (l : list Z) (ds : list (Z * Z * Z)) (k : kern) : Prop :=
  ∃ ph rs head, k = with_as (<[new := AddrSpace head dm]> (aspaces k0)) rs (with_phys ph k0) ∧
    phys_ext (k_phys k0) ph ∧ chain rs head l ∧
    (∀ a, a ∈ l → regions k0 !! a = None) ∧
    (∀ a, a ∉ l → rs !! a = regions k0 !! a) ∧
    Forall2 (λ a d, region_data <$> rs !! a = Some d) l ds.

Section as_lemmas.
Context `{KMallocLaws}.

(** Defining a region appends one node to the list of its address space. *)
Lemma as_define_region_with_space k0 new dm l ds k vaddr memsize r w x :
  with_space k0 new dm l ds k →
  (∃ ph, as_define_region new vaddr memsize r w x k = Ok (ENOMEM, with_phys ph k) ∧
     with_space k0 new dm l ds (with_phys ph k)) ∨
  (∃ nr k', as_define_region new vaddr memsize r w x k = Ok (0, k') ∧
     with_space k0 new dm (l ++ [nr]) (ds ++ [region_data (new_region vaddr memsize r w x)]) k').
Proof.
  intros (ph & rs & head & -> & Hext & Hc & Hl & Hout & Hds).
  unfold as_define_region, run_kmalloc.
  destruct (kmalloc _) as [nr ph1] eqn:Hkm. destruct (kmalloc_laws _ _ _ Hkm) as (Hext1 & Hnew).
  simpl in Hext1. assert (phys_ext (k_phys k0) ph1) as Hext' by (by transitivity ph).
  destruct (nr =? 0) eqn:En; [apply Z.eqb_eq in En|apply Z.eqb_neq in En].
  { left. exists ph1. split; [done|]. exists ph1, rs, head. split_and!; done. }
  right. destruct (Hnew En) as [_ Hlive]. unfold live_object in Hlive. simpl in Hlive.
  assert (rs !! nr = None) as Hnr.
  { apply eq_None_not_Some. intros ?. apply Hlive. auto. }
  assert (nr ∉ l) as Hnl.
  { intros Hin. destruct (chain_elem _ _ _ _ Hc Hin) as [_ [??]]. congruence. }
  cbn [regions aspaces with_phys with_as]. rewrite lookup_insert_eq. cbn [deref mbind outcome_bind as_regions].
  set (R := new_region vaddr memsize r w x).
  assert (chain (<[nr:=R]> rs) head l) as Hc'.
  { eapply chain_frame; [|done]. intros a Ha. rewrite lookup_insert_ne; [done|]. congruence. }
  destruct (append_node_chain (<[nr:=R]> rs) head l nr R)
    as (h' & head' & -> & Hch & Hout' & Hdata & _); try done.
  { by rewrite lookup_insert_eq. }
  cbn [mbind outcome_bind]. eexists nr, _. split; [reflexivity|].
  exists ph1, h', head'. split_and!; try done.
  - rewrite insert_insert_eq. done.
  - intros a [Ha|Ha%list_elem_of_singleton]%elem_of_app; [auto|].
    subst a. rewrite <-Hout by done. done.
  - intros a Ha. rewrite not_elem_of_app, not_elem_of_cons in Ha. destruct Ha as (Ha & Hna & _).
    rewrite Hout' by done. rewrite lookup_insert_ne by done. auto.
  - assert (∀ a, region_data <$> h' !! a = region_data <$> <[nr:=R]> rs !! a) as Hd.
    { intros a. destruct (Hdata a) as [q ->]. by destruct (<[nr:=R]> rs !! a). }
    apply Forall2_app.
    + eapply Forall2_impl_elem; [exact Hds|]. intros a d Ha Had. rewrite Hd.
      rewrite lookup_insert_ne by congruence. done.
    + constructor; [|constructor]. by rewrite Hd, lookup_insert_eq.
Qed.

(** What [as_copy] makes of one region. *)
Definition copy_data (d : Z * Z * Z) : Z * Z * Z :=
  let '(b, n, p) := d in
  region_data (new_region b (u32 (PAGE_SIZE * n)) (Z.land p PERMISSION_READ)
                 (Z.land p PERMISSION_WRITE) (Z.land p PERMISSION_EXECUTE)).

Lemma copy_regions_with_space k0 new dm rest drest : ∀ fuel l ds k p,
  with_space k0 new dm l ds k → chain (regions k0) p rest →
  Forall2 (λ a d, region_data <$> regions k0 !! a = Some d) rest drest →
  (length rest < fuel)%nat →
  (∃ k' l' ds', copy_regions fuel new p k = Ok (ENOMEM, k') ∧ with_space k0 new dm l' ds' k') ∨
  (∃ k' l', copy_regions fuel new p k = Ok (0, k') ∧
     with_space k0 new dm l' (ds ++ map copy_data drest) k').
Proof.
  intros fuel l ds k p Hws Hc Hd. revert fuel l ds k p Hws Hc.
  induction Hd as [|a [[b n] pm] rest drest Hd _ IH]; intros [|fuel] l ds k p Hws Hc Hf;
    simpl in Hf; try lia; cbn [copy_regions].
  { simpl in Hc. subst p. right. exists k, l. simpl. by rewrite app_nil_r. }
  destruct Hc as (-> & Hn & r & Hr & Hc).
  assert (∀ l' ds' k', with_space k0 new dm l' ds' k' → regions k' !! a = Some r) as Hsame.
  { intros l' ds' k' (? & ? & ? & -> & _ & _ & Hl & Hout & _). simpl. rewrite Hout; [done|].
    intros Ha%Hl. congruence. }
  rewrite (proj2 (Z.eqb_neq _ _)) by done. rewrite (Hsame _ _ _ Hws). cbn [deref mbind outcome_bind].
  rewrite Hr in Hd. simpl in Hd. injection Hd as <- <- <-.
  destruct (as_define_region_with_space _ _ _ _ _ _ (base_page_vaddr r)
    (u32 (PAGE_SIZE * region_page_nums r)) (Z.land (permission r) PERMISSION_READ)
    (Z.land (permission r) PERMISSION_WRITE) (Z.land (permission r) PERMISSION_EXECUTE) Hws)
    as [(ph & -> & Hws')|(nr & k' & -> & Hws')]; cbn [mbind outcome_bind].
  - left. eauto.
  - change (negb (0 =? 0)) with false. cbn iota.
    rewrite (Hsame _ _ _ Hws'). cbn [deref mbind outcome_bind].
    destruct (IH fuel _ _ k' (next_region r) Hws' Hc) as [?|(k2 & l2 & -> & Hws2)]; [lia|by left|].
    right. exists k2, l2. split; [done|]. by rewrite <-app_assoc in Hws2.
Qed.

Lemma free_regions_spec l : ∀ fuel p k,
  chain (regions k) p l → (length l < fuel)%nat →
  ∃ ph, free_regions fuel p k =
      Ok (with_as (aspaces k) (filter (λ ar, ar.1 ∉ l) (regions k)) (with_phys ph k)) ∧
    phys_ext (k_phys k) ph ∧
    (∀ i, frame_used (p_ft (k_phys k)) i = false → frame_used (p_ft ph) i = false).
Proof.
  induction l as [|a l IH]; intros [|fuel] p k Hc Hf; simpl in Hf; try lia; cbn [free_regions].
  { simpl in Hc. subst p. exists (k_phys k). split; [|done]. simpl.
    rewrite map_filter_id by (intros; apply not_elem_of_nil). by destruct k. }
  pose proof (chain_NoDup _ _ _ Hc) as [Hna Hnd]%NoDup_cons.
  destruct (Hc) as (-> & Hn & r & Hr & Hcr).
  rewrite (proj2 (Z.eqb_neq _ _)) by done. rewrite Hr. cbn [deref mbind outcome_bind].
  set (k1 := run_kfree _ _).
  destruct (IH fuel (next_region r) k1) as (ph & -> & Hext & Hfr); [|lia|].
  { unfold k1, run_kfree. simpl. exact (chain_pop (regions k) a a l r Hc Hr). }
  exists ph. unfold k1, run_kfree in *. simpl in *. split_and!.
  - f_equal. unfold with_as, with_phys. simpl. f_equal.
    apply map_eq. intros b. apply option_eq. intros y.
    rewrite !map_lookup_filter_Some, lookup_delete_Some, not_elem_of_cons. simpl. naive_solver.
  - etransitivity; [|exact Hext].
    exact (kfree_laws a (with_as (aspaces k) (delete a (regions k)) k)).
  - intros i Hi. apply Hfr.
    by apply (kfree_takes_none a (with_as (aspaces k) (delete a (regions k)) k)).
Qed.

(** Destroying an address space: its pages, its regions and the struct itself go,
    and nothing else changes. *)
Lemma as_destroy_spec k as_ l :
  vm_inv k → region_chain k as_ l →
  ∃ k', as_destroy as_ k = Ok k' ∧ vm_inv k' ∧
    aspaces k' = delete as_ (aspaces k) ∧
    regions k' = filter (λ ar, ar.1 ∉ l) (regions k) ∧
    entries k' = filter (λ ax, ax.2.1.1 ≠ as_) (entries k) ∧
    tlb k' = tlb k ∧ curproc_as k' = curproc_as k ∧ page_nums k' = page_nums k ∧
    (∀ a x, entries k !! a = Some x → x.1.1 = as_ →
       frame_used (p_ft (k_phys k')) (entry_frame x) = false) ∧
    (∀ a x, entries k' !! a = Some x →
       p_ram (k_phys k') !! entry_frame x = p_ram (k_phys k) !! entry_frame x).
Proof.
  intros Hinv (asp & Hasp & Hc). unfold as_destroy.
  destruct (vm_destroy_spec as_ k Hinv) as (k1 & -> & Hinv1 & Hsh & Hent).
  destruct (sh_spaces _ _ Hsh) as (Ha1 & Hr1 & Hc1 & Hpn1).
  cbn [mbind outcome_bind]. rewrite Ha1, Hasp. cbn [deref mbind outcome_bind]. rewrite Hr1.
  destruct (free_regions_spec l (list_fuel (regions k)) (as_regions asp) k1)
    as (ph & -> & Hext & Htn); [by rewrite Hr1|..].
  { pose proof (chain_length _ _ _ Hc). unfold list_fuel. lia. }
  cbn [mbind outcome_bind]. eexists. split; [reflexivity|]. unfold run_kfree. simpl.
  set (k2 := with_as _ _ _). pose proof (kfree_laws as_ k2) as Hext2.
  assert (phys_ext (k_phys k1) (kfree as_ k2)) as Hext'
    by (etransitivity; [exact Hext|exact Hext2]).
  split_and!.
  - exact (vm_inv_as (delete as_ (aspaces k1)) (filter (λ ar, ar.1 ∉ l) (regions k1)) _
             (vm_inv_phys _ k1 Hinv1 Hext')).
  - by rewrite Ha1.
  - by rewrite Hr1.
  - exact Hent.
  - apply Hsh.
  - done.
  - done.
  - intros a x Hx Hp. apply (kfree_takes_none as_ k2), Htn. eapply sh_gone; [done..|].
    rewrite Hent. apply map_lookup_filter_None. right. naive_solver.
  - intros a x Hx. rewrite <-(sh_ram _ _ Hsh a x Hx).
    apply Hext'. by apply (fr_owned _ _ (inv_frames _ Hinv1) a).
Qed.

(** ** Adding an address space keeps the invariant *)

Lemma region_chain_with_space k0 new dm l ds k as_ l' :
  spaces_ok k0 → as_ ≠ new → with_space k0 new dm l ds k →
  region_chain k as_ l' ↔ region_chain k0 as_ l'.
Proof.
  intros Hsp Hne (ph & rs & head & -> & _ & Hc & Hl & Hout & _). unfold region_chain. simpl.
  setoid_rewrite lookup_insert_ne; [|done].
  assert (∀ asp l0, chain (regions k0) (as_regions asp) l0 → chain rs (as_regions asp) l0) as Hto.
  { intros asp l0 Hc0. eapply chain_frame; [|done]. intros a Ha. apply Hout. intros Ha'%Hl.
    destruct (chain_elem _ _ _ _ Hc0 Ha) as [_ [??]]. congruence. }
  split; intros (asp & Hasp & Hc'); exists asp; (split; [done|]).
  - destruct (sp_chain _ Hsp _ _ Hasp) as [_ [l0 Hl0]].
    by rewrite (chain_det _ _ _ _ Hc' (Hto _ _ Hl0)).
  - by apply Hto.
Qed.

Lemma with_space_chain k0 new dm l ds k : with_space k0 new dm l ds k → region_chain k new l.
Proof.
  intros (ph & rs & head & -> & _ & Hc & _). eexists. simpl. by rewrite lookup_insert_eq.
Qed.

Lemma with_space_spaces k0 new dm l ds k :
  spaces_ok k0 → new ≠ 0 → with_space k0 new dm l ds k → spaces_ok k ∧ region_list k new ds.
Proof.
  intros Hsp Hn Hws. pose proof (with_space_chain _ _ _ _ _ _ Hws) as Hchain.
  destruct (Hws) as (ph & rs & head & Hk & Hext & Hc & Hl & Hout & Hds).
  split; [split|].
  - intros as_ asp Hasp. destruct (decide (as_ = new)) as [->|Hne].
    + split; [done|]. subst k. simpl in Hasp. rewrite lookup_insert_eq in Hasp.
      injection Hasp as <-. eauto.
    + assert (aspaces k0 !! as_ = Some asp) as Hasp0.
      { subst k. simpl in Hasp. by rewrite lookup_insert_ne in Hasp. }
      destruct (sp_chain _ Hsp _ _ Hasp0) as [? [l0 Hl0]]. split; [done|]. exists l0.
      destruct (proj2 (region_chain_with_space _ _ _ _ _ _ as_ l0 Hsp Hne Hws)) as (asp' & ? & ?);
        [by exists asp|congruence].
  - assert (∀ as_ l', as_ ≠ new → region_chain k as_ l' → ∀ a, a ∈ l' → a ∉ l) as Hdisj.
    { intros as_ l' Hne Hch a Ha Hal.
      apply (region_chain_with_space _ _ _ _ _ _ _ _ Hsp Hne Hws) in Hch as (asp & _ & Hch).
      destruct (chain_elem _ _ _ _ Hch Ha) as [_ [??]]. apply Hl in Hal. congruence. }
    intros as1 as2 l1 l2 Hne H1 H2 a Ha1 Ha2.
    destruct (decide (as1 = new)) as [->|Hn1].
    { rewrite (region_chain_det _ _ _ _ H1 Hchain) in Ha1. by eapply (Hdisj as2). }
    destruct (decide (as2 = new)) as [->|Hn2].
    { rewrite (region_chain_det _ _ _ _ H2 Hchain) in Ha2. by eapply (Hdisj as1). }
    apply (region_chain_with_space _ _ _ _ _ _ _ _ Hsp Hn1 Hws) in H1.
    apply (region_chain_with_space _ _ _ _ _ _ _ _ Hsp Hn2 Hws) in H2.
    by eapply (sp_disj _ Hsp as1 as2).
  - exists l. split; [done|]. by subst k.
Qed.

Lemma with_space_inv k0 new dm l ds k :
  kern_inv k0 → new ≠ 0 → aspaces k0 !! new = None → with_space k0 new dm l ds k →
  kern_inv k ∧ region_list k new ds ∧ entries k = entries k0.
Proof.
  intros [Hvm Hsp Hpid] Hn Hnone Hws.
  destruct (with_space_spaces _ _ _ _ _ _ Hsp Hn Hws) as [Hsp' Hrl].
  destruct Hws as (ph & rs & head & Hk & Hext & _).
  assert (entries k = entries k0) as Hent by (by subst k).
  split_and!; [split| |]; try done.
  - subst k. by apply vm_inv_as, vm_inv_phys.
  - intros a x. rewrite Hent. intros [asp Hasp]%Hpid. subst k. simpl.
    rewrite lookup_insert. case_decide; eauto.
Qed.

(** The region lists of the other address spaces do not change. *)
Lemma with_space_others k0 new dm l ds k as_ ds' :
  spaces_ok k0 → as_ ≠ new → with_space k0 new dm l ds k →
  region_list k0 as_ ds' → region_list k as_ ds'.
Proof.
  intros Hsp Hne Hws (l' & Hch & Hds'). exists l'.
  split; [by apply (region_chain_with_space _ _ _ _ _ _ _ _ Hsp Hne Hws)|].
  destruct Hws as (ph & rs & head & -> & _ & _ & Hl & Hout & _). simpl.
  destruct Hch as (asp & _ & Hch). eapply Forall2_impl_elem; [exact Hds'|].
  intros a d Ha Had. rewrite Hout; [done|]. intros Hal%Hl.
  destruct (chain_elem _ _ _ _ Hch Ha) as [_ [??]]. congruence.
Qed.

(** ** Copying *)

(** The state is as before for every process: only memory that belonged to no
    page of the table may have changed. *)
Record same_kern (k k' : kern) : Prop := {
  sk_inv : kern_inv k';
  sk_aspaces : aspaces k' = aspaces k;
  sk_regions : regions k' = regions k;
  sk_entries : entries k' = entries k;
  sk_tlb : tlb k' = tlb k;
  sk_curproc : curproc_as k' = curproc_as k;
  sk_ram a x : entries k !! a = Some x →
    p_ram (k_phys k') !! entry_frame x = p_ram (k_phys k) !! entry_frame x
}.

Lemma kern_inv_eq k k' :
  kern_inv k → vm_inv k' → aspaces k' = aspaces k → regions k' = regions k →
  entries k' = entries k → kern_inv k'.
Proof.
  intros [Hvm [Hsp1 Hsp2] Hpid] Hvm' Ha Hr He. split; [done| |].
  - split; unfold region_chain in *; rewrite Ha, Hr; done.
  - intros a x. rewrite He, Ha. apply Hpid.
Qed.

(** A half-built copy [new] of an address space of [k0] is taken down. *)
Lemma destroy_new k0 new asp k l :
  kern_inv k0 → aspaces k0 !! new = None → vm_inv k →
  aspaces k = <[new := asp]> (aspaces k0) → region_chain k new l →
  (∀ a, a ∈ l → regions k0 !! a = None) → (∀ a, a ∉ l → regions k !! a = regions k0 !! a) →
  entries k0 ⊆ entries k →
  (∀ a x, entries k !! a = Some x → entries k0 !! a = None → x.1.1 = new) →
  tlb k = tlb k0 → curproc_as k = curproc_as k0 →
  (∀ a x, entries k0 !! a = Some x →
     p_ram (k_phys k) !! entry_frame x = p_ram (k_phys k0) !! entry_frame x) →
  ∃ k', as_destroy new k = Ok k' ∧ same_kern k0 k'.
Proof.
  intros Hinv0 Hnone Hinv Ha Hch Hl Hout Hsub Hextra Htlb Hcur Hram.
  destruct (as_destroy_spec k new l Hinv Hch)
    as (k' & -> & Hinv' & Ha' & Hr' & He' & Ht' & Hc' & _ & _ & Hram').
  assert (aspaces k' = aspaces k0) as Hak.
  { rewrite Ha', Ha. by apply delete_insert_id. }
  assert (regions k' = regions k0) as Hrk.
  { rewrite Hr'. apply map_eq. intros a. destruct (decide (a ∈ l)) as [Hal|Hal].
    - rewrite (Hl _ Hal). apply map_lookup_filter_None. right. naive_solver.
    - rewrite <-Hout by done. destruct (regions k !! a) as [r|] eqn:E.
      + by apply map_lookup_filter_Some.
      + apply map_lookup_filter_None. by left. }
  assert (entries k' = entries k0) as Hek.
  { rewrite He'. apply map_eq. intros a. apply option_eq. intros x.
    rewrite map_lookup_filter_Some. simpl. split.
    - intros [Hx Hp]. destruct (entries k0 !! a) as [y|] eqn:E.
      + pose proof (lookup_weaken _ _ _ _ E Hsub). congruence.
      + by destruct Hp; eauto.
    - intros Hx. split; [by eapply lookup_weaken|]. intros Hp.
      destruct (ki_pids _ Hinv0 _ _ Hx) as [? ?]. congruence. }
  exists k'. split; [done|]. split; try congruence.
  - by eapply kern_inv_eq.
  - intros a x Hx. rewrite Hram' with a x by congruence. eauto.
Qed.

(** A completed copy. *)
Record copied (k : kern) (old new : Z) (k' : kern) : Prop := {
  co_inv : kern_inv k';
  co_tlb : tlb k' = tlb k ∧ curproc_as k' = curproc_as k;
  co_fresh : aspaces k !! new = None;
  co_new : ∃ o n, aspaces k !! old = Some o ∧ aspaces k' = <[new := n]> (aspaces k) ∧
    dirty_mask n = dirty_mask o;
  co_regions ds : region_list k old ds → region_list k' new (map copy_data ds);
  co_others as_ ds : as_ ≠ new → region_list k as_ ds → region_list k' as_ ds;
  co_view key fp : vm_view k !! key = Some fp → vm_view k' !! key = Some fp;
  co_pages key p : page_at k key = Some p → page_at k' key = Some p;
  co_sound va fp : vm_view k' !! (new, va) = Some fp →
    ∃ fp0, vm_view k !! (old, va) = Some fp0 ∧ fp mod 4096 = fp0 mod 4096 ∧
      page_at k' (new, va) = page_at k (old, va);
  co_heads i hd y : zget (page_table k) i = Some hd → entries k !! hd = Some y →
    y.1.1 = old → is_Some (vm_view k' !! (new, y.1.2))
}.

Lemma page_at_entry k a x :
  pt_ok k → entries k !! a = Some x → page_at k x.1 = p_ram (k_phys k) !! entry_frame x.
Proof.
  intros Hpt Hx. unfold page_at, vm_view. destruct x as [key fp]. cbn [fst].
  rewrite (proj2 (view_lookup _ key fp (pt_keys _ Hpt))) by eauto. done.
Qed.

Lemma as_copy_vm k old new o dm l ds k3 :
  kern_inv k → aspaces k !! old = Some o → dm = dirty_mask o → new ≠ 0 → aspaces k !! new = None →
  with_space k new dm l (map copy_data ds) k3 → region_list k old ds →
  ∀ e k1 seen, copying old new (with_lock true k3) seen k1 →
  e = 0 ∧ (∀ i, 0 ≤ i < page_nums k3 → i ∈ seen) →
  copied k old new (with_lock false k1).
Proof.
  intros Hinv Hold -> Hn Hnone Hws Hds e k1 seen Hcp [_ Hall].
  destruct (with_space_inv _ _ _ _ _ _ Hinv Hn Hnone Hws) as (Hinv3 & Hrl3 & Hent3).
  assert (old ≠ new) as Hne by congruence.
  destruct (Hws) as (ph & rs & head & Hk3 & Hext & Hc & Hl & Hout & _).
  destruct (cp_spaces _ _ _ _ _ Hcp) as (Hsa & Hsr & Hsc & Hsn). simpl in Hsa, Hsr, Hsc, Hsn.
  pose proof (cp_sub _ _ _ _ _ Hcp) as Hsub.
  change (entries (with_lock true k3)) with (entries k3) in Hsub. rewrite Hent3 in Hsub.
  pose proof (cp_pt _ _ _ _ _ Hcp) as Hpt1.
  assert (pt_ok (with_lock false k1)) as Hpt1' by (by destruct Hpt1; split).
  pose proof (inv_pt _ (ki_vm _ Hinv)) as Hpt.
  assert (∀ key fp, vm_view k !! key = Some fp → vm_view (with_lock false k1) !! key = Some fp) as Hview.
  { intros key fp [a Ha]%view_lookup; [|by apply Hpt]. apply view_lookup; [by apply Hpt1'|].
    exists a. by eapply lookup_weaken. }
  assert (phys_ext (k_phys k) (k_phys k1)) as Hext1.
  { etransitivity; [exact Hext|]. pose proof (cp_phys _ _ _ _ _ Hcp). by subst k3. }
  assert (∀ as_ ds, region_list k3 as_ ds → region_list (with_lock false k1) as_ ds) as Hrl.
  { intros as_ ds'. unfold region_list, region_chain. simpl. by rewrite Hsa, Hsr. }
  split.
  - split.
    + split; [done|apply Hcp|done].
    + destruct Hinv3 as [_ [Hs1 Hs2] _]. split; unfold region_chain in *; simpl; rewrite Hsa, Hsr; done.
    + intros a x Hx. simpl. rewrite Hsa. change (entries k1 !! a = Some x) in Hx.
      destruct (entries k3 !! a) as [y|] eqn:E.
      * pose proof (lookup_weaken _ _ _ _ E (cp_sub _ _ _ _ _ Hcp)).
        assert (x = y) as -> by congruence. by apply (ki_pids _ Hinv3 a).
      * destruct (cp_new _ _ _ _ _ Hcp _ _ Hx E) as [-> _].
        subst k3. simpl. rewrite lookup_insert_eq. eauto.
  - simpl. rewrite (cp_tlb _ _ _ _ _ Hcp), Hsc. by subst k3.
  - done.
  - exists o, (AddrSpace head (dirty_mask o)). split_and!; [done| |done].
    simpl. by rewrite Hsa, Hk3.
  - intros ds' Hds'. apply Hrl. assert (ds' = ds) as ->; [|done].
    destruct Hds as (l1 & H1 & F1), Hds' as (l2 & H2 & F2).
    rewrite (region_chain_det _ _ _ _ H2 H1) in F2. clear -F1 F2.
    revert ds' F2. induction F1; intros ds' F2; inversion F2; simplify_eq; f_equal; auto; congruence.
  - intros as_ ds' Has Hds'. apply Hrl. eapply with_space_others; eauto. by apply Hinv.
  - exact Hview.
  - intros key p. eapply page_at_ext; [done|by apply Hinv|done|apply Hview].
  - intros va fp Hfp. apply view_lookup in Hfp as [a Ha]; [|by apply Hpt1'].
    change (entries (with_lock false k1)) with (entries k1) in Ha.
    destruct (entries k3 !! a) as [y|] eqn:E.
    { pose proof (lookup_weaken _ _ _ _ E (cp_sub _ _ _ _ _ Hcp)). simplify_eq.
      rewrite Hent3 in E. destruct (ki_pids _ Hinv _ _ E) as [? ?]. simpl in *. congruence. }
    destruct (cp_new _ _ _ _ _ Hcp _ _ Ha E) as (_ & b & [yk yfp] & Hb & Hyk & _ & Hfl & Hram).
    change (entries (with_lock true k3)) with (entries k3) in Hb. rewrite Hent3 in Hb.
    simpl in Hyk, Hfl. subst yk. exists yfp. split_and!; [|done|].
    + apply view_lookup; [by apply Hpt|]. eauto.
    + rewrite (page_at_entry _ a (new, va, fp)) by done.
      rewrite (page_at_entry _ b (old, va, yfp)) by done. simpl.
      rewrite Hram. simpl. rewrite Hk3. simpl.
      apply Hext. by apply (fr_owned _ _ (inv_frames _ (ki_vm _ Hinv)) b).
  - intros i hd y Hhd Hy Hyo.
    eapply (cp_done _ _ _ _ _ Hcp i hd y); [|by subst k3|by rewrite <-Hent3 in Hy|done].
    apply Hall. rewrite Hk3. simpl. rewrite <-(pt_len _ Hpt). by eapply zget_Some_range.
Qed.

Lemma kern_inv_region_list k as_ asp :
  kern_inv k → aspaces k !! as_ = Some asp →
  ∃ l ds, chain (regions k) (as_regions asp) l ∧
    Forall2 (λ a d, region_data <$> regions k !! a = Some d) l ds.
Proof.
  intros [_ Hsp _] Hasp. destruct (sp_chain _ Hsp _ _ Hasp) as (_ & l & Hc). exists l.
  assert (∀ a, a ∈ l → is_Some (regions k !! a)) as Hl by (intros a Ha; by eapply chain_elem).
  destruct (mapM_is_Some_2 (λ a, region_data <$> regions k !! a) l) as [ds Hds].
  { apply Forall_forall. intros a [r Hr]%Hl. exists (region_data r). by rewrite Hr. }
  exists ds. split; [done|]. by apply mapM_Some.
Qed.

(** The two ways in which [as_copy] gives up after it has allocated [new]. *)
Lemma as_copy_undo_regions k new dm l ds k3 :
  kern_inv k → new ≠ 0 → aspaces k !! new = None → with_space k new dm l ds k3 →
  ∃ k', as_destroy new k3 = Ok k' ∧ same_kern k k'.
Proof.
  intros Hinv Hn Hnone Hws. destruct (with_space_inv _ _ _ _ _ _ Hinv Hn Hnone Hws) as (Hinv3 & _ & Hent3).
  pose proof (with_space_chain _ _ _ _ _ _ Hws) as Hch.
  destruct Hws as (ph & rs & head & Hk3 & Hext & _ & Hl & Hout & _).
  apply (destroy_new k new (AddrSpace head dm) k3 l); try done; try (by subst k3).
  - apply Hinv3.
  - intros a x Hx Hx'. congruence.
  - intros a x Hx. subst k3. simpl. apply Hext.
    by apply (fr_owned _ _ (inv_frames _ (ki_vm _ Hinv)) a).
Qed.

Lemma as_copy_undo_pages k old new dm l ds k3 seen k4 :
  kern_inv k → new ≠ 0 → aspaces k !! new = None → with_space k new dm l ds k3 →
  copying old new (with_lock true k3) seen k4 →
  ∃ k', as_destroy new (with_lock false k4) = Ok k' ∧ same_kern k k'.
Proof.
  intros Hinv Hn Hnone Hws Hcp.
  destruct (with_space_inv _ _ _ _ _ _ Hinv Hn Hnone Hws) as (Hinv3 & _ & Hent3).
  pose proof (with_space_chain _ _ _ _ _ _ Hws) as Hch.
  destruct Hws as (ph & rs & head & Hk3 & Hext & _ & Hl & Hout & _).
  destruct (cp_spaces _ _ _ _ _ Hcp) as (Hsa & Hsr & Hsc & _). simpl in Hsa, Hsr, Hsc.
  pose proof (cp_sub _ _ _ _ _ Hcp) as Hsub.
  change (entries (with_lock true k3)) with (entries k3) in Hsub.
  apply (destroy_new k new (AddrSpace head dm) (with_lock false k4) l); try done.
  - split; [by destruct (cp_pt _ _ _ _ _ Hcp); split|apply Hcp|done].
  - simpl. by rewrite Hsa, Hk3.
  - unfold region_chain. simpl. by rewrite Hsa, Hsr.
  - simpl. rewrite Hsr. by subst k3.
  - rewrite <-Hent3. exact Hsub.
  - intros a x Hx Hx'. eapply (cp_new _ _ _ _ _ Hcp a x); [done|]. by rewrite <-Hent3 in Hx'.
  - simpl. rewrite (cp_tlb _ _ _ _ _ Hcp). by subst k3.
  - simpl. rewrite Hsc. by subst k3.
  - intros a x Hx. simpl.
    assert (phys_ext (k_phys k) (k_phys k4)) as Hext4.
    { etransitivity; [exact Hext|]. pose proof (cp_phys _ _ _ _ _ Hcp). by subst k3. }
    apply Hext4. by apply (fr_owned _ _ (inv_frames _ (ki_vm _ Hinv)) a).
Qed.

Lemma no_pages k new va : kern_inv k → aspaces k !! new = None → vm_view k !! (new, va) = None.
Proof.
  intros Hinv Hnone. apply view_lookup_None; [apply Hinv|]. intros a x Hx Hk.
  destruct (ki_pids _ Hinv _ _ Hx) as [? Hs]. rewrite Hk in Hs. simpl in Hs. congruence.
Qed.

(** The copy fails without a trace, or the new address space is a copy, or the
    frames ran out while a page was being copied. *)
Lemma as_copy_spec k old o :
  kern_inv k → aspaces k !! old = Some o →
  (∃ ret k', as_copy old k = Ok (ENOMEM, ret, k') ∧ same_kern k k') ∨
  (∃ new k', as_copy old k = Ok (0, Some new, k') ∧ copied k old new k') ∨
  (as_copy old k = Fault ∧ ∃ k1, phys_ext (k_phys k) (k_phys k1) ∧ alloc_kpage k1 = Ok (0, k1)).
Proof.
  intros Hinv Hold. unfold as_copy, as_create, run_kmalloc.
  destruct (kmalloc k) as [new ph] eqn:Hkm.
  destruct (kmalloc_laws _ _ _ Hkm) as (Hext & Hnew).
  destruct (new =? 0) eqn:En.
  { left. exists None. eexists. split; [reflexivity|]. split; try done.
    - eapply kern_inv_eq; [exact Hinv| |done..]. apply vm_inv_phys; [apply Hinv|done].
    - intros a x Hx. apply Hext. by apply (fr_owned _ _ (inv_frames _ (ki_vm _ Hinv)) a). }
  rewrite En. apply Z.eqb_neq in En. destruct (Hnew En) as [_ Hlive].
  assert (aspaces k !! new = None) as Hnone.
  { apply eq_None_not_Some. intros ?. apply Hlive. unfold live_object. auto. }
  assert (old ≠ new) as Hne by congruence.
  cbn [aspaces with_as with_phys regions]. rewrite (lookup_insert_ne _ new old) by done.
  rewrite Hold, lookup_insert_eq. cbn [deref mbind outcome_bind as_regions].
  destruct (kern_inv_region_list _ _ _ Hinv Hold) as (l0 & ds & Hc & Hds).
  match goal with |- context [copy_regions _ _ _ ?K] => set (k2 := K) end.
  assert (with_space k new (dirty_mask o) [] [] k2) as Hws.
  { exists ph, (regions k), 0. split_and!; try done; [|by intros ? ?%elem_of_nil].
    unfold k2, with_as. simpl. by rewrite insert_insert_eq. }
  destruct (copy_regions_with_space k new (dirty_mask o) l0 ds (list_fuel (regions k)) [] [] k2
    (as_regions o) Hws Hc Hds) as [(k3 & l3 & ds3 & -> & Hws3)|(k3 & l3 & -> & Hws3)];
    cbn [mbind outcome_bind].
  { pose proof (chain_length _ _ _ Hc). unfold list_fuel. lia. }
  - left. exists None. change (negb (ENOMEM =? 0)) with true. cbn iota.
    destruct (as_copy_undo_regions _ _ _ _ _ _ Hinv En Hnone Hws3) as (k' & -> & Hsk). eauto.
  - change (negb (0 =? 0)) with false. cbn iota. rewrite app_nil_l in Hws3.
    destruct (with_space_inv _ _ _ _ _ _ Hinv En Hnone Hws3) as (Hinv3 & _ & Hent3).
    assert (phys_ext (k_phys k) (k_phys k3)) as Hext3
      by (by destruct Hws3 as (ph3 & rs & head & -> & Hext3 & _)).
    destruct (vm_copy_spec old new k3) as [(e & k4 & seen & -> & Hcp & He)|[-> Hoof]].
    + apply Hinv3.
    + done.
    + intros va. unfold vm_view. rewrite Hent3. by apply no_pages.
    + cbn [mbind outcome_bind]. destruct He as [->|[-> Hall]].
      * left. exists (Some new). change (negb (ENOMEM =? 0)) with true. cbn iota.
        destruct (as_copy_undo_pages _ _ _ _ _ _ _ _ _ Hinv En Hnone Hws3 Hcp) as (k' & -> & Hsk).
        eauto.
      * right; left. exists new. eexists. split; [reflexivity|].
        eapply (as_copy_vm k old new o (dirty_mask o) l3 ds k3) with 0 seen; try done.
        exists l0. split; [by exists o|done].
    + right; right. split; [done|]. destruct Hoof as (k5 & H5 & ?). exists k5.
      split; [by transitivity (k_phys k3)|done].
Qed.

(** ** Defining a region of an existing address space *)

(** [k] without the address space [as_] and its regions [l]. *)
Definition without_space (as_ : Z) (l : list Z) (k : kern) : kern :=
  with_as (delete as_ (aspaces k)) (filter (λ ar, ar.1 ∉ l) (regions k)) k.

Lemma without_space_chain k as_ l other l' :
  spaces_ok k → region_chain k as_ l → other ≠ as_ →
  region_chain k other l' ↔ region_chain (without_space as_ l k) other l'.
Proof.
  intros Hsp Hl Hne. unfold region_chain at 2. simpl. rewrite lookup_delete_ne by done.
  assert (∀ asp l', aspaces k !! other = Some asp → chain (regions k) (as_regions asp) l' →
    chain (filter (λ ar : Z * region, ar.1 ∉ l) (regions k)) (as_regions asp) l') as Hto.
  { intros asp l0 Hasp Hc. eapply chain_frame; [|exact Hc]. intros a Ha.
    assert (a ∉ l) by (eapply (sp_disj _ Hsp other as_ l0 l); [done|by exists asp|done..]).
    destruct (chain_elem _ _ _ _ Hc Ha) as [_ [r Hr]]. rewrite Hr. by apply map_lookup_filter_Some. }
  split; intros (asp & Hasp & Hc); exists asp; (split; [done|]).
  - by apply Hto.
  - destruct (sp_chain _ Hsp _ _ Hasp) as (_ & l0 & Hc0).
    by rewrite (chain_det _ _ _ _ Hc (Hto _ _ Hasp Hc0)).
Qed.

Lemma without_space_spaces k as_ l :
  spaces_ok k → region_chain k as_ l → spaces_ok (without_space as_ l k).
Proof.
  intros Hsp Hl. split.
  - intros other asp Hasp. pose proof Hasp as Hasp1. simpl in Hasp1.
    apply lookup_delete_Some in Hasp1 as [Hne Hasp'].
    destruct (sp_chain _ Hsp _ _ Hasp') as (? & l' & Hc). split; [done|]. exists l'.
    destruct (proj1 (without_space_chain _ _ _ other l' Hsp Hl (not_eq_sym Hne))) as (asp' & ? & ?);
      [by exists asp|congruence].
  - intros as1 as2 l1 l2 Hne H1 H2.
    assert (∀ o l', region_chain (without_space as_ l k) o l' → o ≠ as_) as Ho.
    { intros o l' (asp & Hasp & _) ->. simpl in Hasp. by rewrite lookup_delete_eq in Hasp. }
    eapply (sp_disj _ Hsp as1 as2); [done|..]; eapply without_space_chain; eauto.
Qed.

Lemma without_space_with k as_ asp l ds :
  aspaces k !! as_ = Some asp → chain (regions k) (as_regions asp) l →
  Forall2 (λ a d, region_data <$> regions k !! a = Some d) l ds →
  with_space (without_space as_ l k) as_ (dirty_mask asp) l ds k.
Proof.
  intros Hasp Hc Hds. exists (k_phys k), (regions k), (as_regions asp). split_and!; try done.
  - unfold without_space, with_as, with_phys. simpl.
    rewrite insert_delete_eq, insert_id by (by destruct asp). by destruct k.
  - intros a Ha. simpl. apply map_lookup_filter_None. right. naive_solver.
  - intros a Ha. simpl. destruct (regions k !! a) as [r|] eqn:E; symmetry.
    + by apply map_lookup_filter_Some.
    + apply map_lookup_filter_None. by left.
Qed.

Lemma region_list_inv k as_ ds :
  region_list k as_ ds → ∃ asp l, aspaces k !! as_ = Some asp ∧ chain (regions k) (as_regions asp) l ∧
    Forall2 (λ a d, region_data <$> regions k !! a = Some d) l ds.
Proof. intros (l & (asp & ? & ?) & ?). eauto 10. Qed.

(** Either there is no memory and only free memory may have changed, or the new
    region comes last in the list of the address space. *)
Lemma as_define_region_inv k as_ ds vaddr memsize r w x :
  kern_inv k → region_list k as_ ds →
  ∃ e k', as_define_region as_ vaddr memsize r w x k = Ok (e, k') ∧ kern_inv k' ∧
    entries k' = entries k ∧ phys_ext (k_phys k) (k_phys k') ∧ tlb k' = tlb k ∧
    curproc_as k' = curproc_as k ∧
    (∀ o, dirty_mask <$> aspaces k' !! o = dirty_mask <$> aspaces k !! o) ∧
    (∀ o ds', o ≠ as_ → region_list k o ds' → region_list k' o ds') ∧
    ((e = ENOMEM ∧ region_list k' as_ ds) ∨
     (e = 0 ∧ region_list k' as_ (ds ++ [region_data (new_region vaddr memsize r w x)]))).
Proof.
  intros [Hvm Hsp Hpid] Hrl. destruct (region_list_inv _ _ _ Hrl) as (asp & l & Hasp & Hc & Hds).
  assert (region_chain k as_ l) as Hch by (by exists asp).
  assert (as_ ≠ 0) as Hn by (by apply (sp_chain _ Hsp _ _ Hasp)).
  pose proof (without_space_spaces _ _ _ Hsp Hch) as Hsp0.
  pose proof (without_space_with _ _ _ _ _ Hasp Hc Hds) as Hws.
  assert (∀ o ds', o ≠ as_ → region_list k o ds' → region_list (without_space as_ l k) o ds') as Ho.
  { intros o ds' Ho (l' & Hch' & Hds'). exists l'.
    split; [by apply without_space_chain|]. eapply Forall2_impl_elem; [exact Hds'|].
    intros a d Ha Had. simpl. rewrite <-Had. f_equal.
    assert (a ∉ l) by (by eapply (sp_disj _ Hsp o as_ l' l)).
    destruct Hch' as (asp' & _ & Hc'). destruct (chain_elem _ _ _ _ Hc' Ha) as [_ [r' Hr']].
    rewrite Hr'. by apply map_lookup_filter_Some. }
  assert (∀ l' ds' k', with_space (without_space as_ l k) as_ (dirty_mask asp) l' ds' k' →
    kern_inv k' ∧ region_list k' as_ ds' ∧ entries k' = entries k ∧ phys_ext (k_phys k) (k_phys k') ∧
    tlb k' = tlb k ∧ curproc_as k' = curproc_as k ∧
    (∀ o, dirty_mask <$> aspaces k' !! o = dirty_mask <$> aspaces k !! o) ∧
    (∀ o ds', o ≠ as_ → region_list k o ds' → region_list k' o ds')) as Hall.
  { intros l' ds' k' Hws'. destruct (with_space_spaces _ _ _ _ _ _ Hsp0 Hn Hws') as [Hsp' Hrl'].
    assert (∀ o ds', o ≠ as_ → region_list k o ds' → region_list k' o ds') as Hoth
      by (intros o ds0 Hne Hr; exact (with_space_others _ _ _ _ _ _ _ _ Hsp0 Hne Hws' (Ho _ _ Hne Hr))).
    destruct Hws' as (ph & rs & head & -> & Hext & _). simpl in Hext.
    split_and!; try done.
    - split; [|done|].
      + exact (vm_inv_as _ _ _ (vm_inv_phys _ _ Hvm Hext)).
      + intros a y Hy. destruct (Hpid a y Hy) as [asp' Hasp']. simpl.
        rewrite insert_delete_eq, lookup_insert. case_decide; eauto.
    - intros o. simpl. rewrite insert_delete_eq, lookup_insert. case_decide; [|done].
      subst. by rewrite Hasp. }
  destruct (as_define_region_with_space _ _ _ _ _ _ vaddr memsize r w x Hws)
    as [(ph & Hdef & Hws')|(nr & k' & Hdef & Hws')].
  - destruct (Hall _ _ _ Hws') as (?&?&?&?&?&?&?&?). exists ENOMEM, (with_phys ph k).
    split_and!; try done. by left.
  - destruct (Hall _ _ _ Hws') as (?&?&?&?&?&?&?&?). exists 0, k'. split_and!; try done. by right.
Qed.

End as_lemmas.
