(* ===== verification/VmSpec.v ===== *)
(** * What the virtual memory system promises

    The kernel's memory operations (asst3/kern/vm/vm.c and addrspace.c) as the
    steps of one system, its invariant, and the properties of the single
    operations in terms of regions, mapped pages and TLB entries. *)

From S2P Require Import Prelude LinkedList FrameTable VmState Vm AddrSpace.
Import Ram FrameTable.

(** ** The memory system as a state machine *)

(** [proc_setas] on the current process, or another process being scheduled. *)
Definition with_curproc (c : option Z) (k : kern) : kern :=
  Kern (k_phys k) (page_table k) (page_nums k) (page_table_lock k) (ptes k)
    (aspaces k) (regions k) (tlb k) c.

Definition boot_kern (r : ram_state) (pages : gmap Z page) (t : list (Z * Z)) : kern :=
  Kern (Phys (ft_boot r) pages ∅) [] 0 false ∅ ∅ ∅ t None.

(** The states [vm_bootstrap] can leave. *)
Definition vm_booted `{KMalloc} (k : kern) : Prop :=
  ∃ r pages t mem, vm_bootstrap mem (boot_kern r pages t) = Ok k ∧
    0 ≤ lastpaddr r ≤ 512 * 1024 * 1024 ∧ 0 ≤ firstpaddr r ≤ lastpaddr r ∧ zlen t = NUM_TLB.

(** The calls the rest of the kernel makes.  An address space is destroyed only
    when it is not the current one, and every change of the current address
    space is followed by [as_activate], as in proc_destroy, runprogram and
    thread_switch. *)
Inductive vm_step `{KMalloc} : kern → kern → Prop :=
| step_fault slot ft fva e k k' :
    vm_fault slot ft fva k = Ok (e, k') → vm_step k k'
| step_create as_ k k' :
    as_create k = (as_, k') → vm_step k k'
| step_define as_ vaddr memsize r w x e k k' :
    is_Some (aspaces k !! as_) →
    as_define_region as_ vaddr memsize r w x k = Ok (e, k') → vm_step k k'
| step_prepare as_ e k k' :
    is_Some (aspaces k !! as_) → as_prepare_load as_ k = Ok (e, k') → vm_step k k'
| step_complete as_ e k k' :
    is_Some (aspaces k !! as_) → as_complete_load as_ k = Ok (e, k') → vm_step k k'
| step_copy old e ret k k' :
    is_Some (aspaces k !! old) → as_copy old k = Ok (e, ret, k') → vm_step k k'
| step_destroy as_ k k' :
    is_Some (aspaces k !! as_) → curproc_as k ≠ Some as_ → as_destroy as_ k = Ok k' → vm_step k k'
| step_switch c k :
    (∀ as_, c = Some as_ → as_ ≠ 0 → is_Some (aspaces k !! as_)) →
    vm_step k (as_activate (with_curproc c k)).

(** ** System invariant *)

(** The hardware's valid bit of a TLB low word. *)
Definition tlb_valid (lo : Z) : bool := Z.testbit lo 9.

(** While a process runs, every valid TLB entry is a page of its address space,
    writable beyond the page's own permission only while it is being loaded. *)
Definition tlb_ok (k : kern) : Prop :=
  ∀ as_ hi lo, curproc_as k = Some as_ → as_ ≠ 0 → (hi, lo) ∈ tlb k → tlb_valid lo = true →
    ∃ asp fp, aspaces k !! as_ = Some asp ∧ vm_view k !! (as_, hi) = Some fp ∧
      lo = Z.lor fp (dirty_mask asp).

Record sys_inv (k : kern) : Prop := {
  si_kern : kern_inv k;
  si_cur as_ : curproc_as k = Some as_ → as_ ≠ 0 → is_Some (aspaces k !! as_);
  si_mask as_ asp : aspaces k !! as_ = Some asp → dirty_mask asp = 0 ∨ dirty_mask asp = TLBLO_DIRTY;
  si_len : zlen (tlb k) = NUM_TLB;
  si_tlb : tlb_ok k
}.

Lemma elem_of_zset {A} (l : list A) i (x y : A) : y ∈ zset l i x → y = x ∨ y ∈ l.
Proof.
  unfold zset. case_decide; [|by right]. intros Hy. apply list_elem_of_lookup in Hy as [n Hn].
  destruct (decide (Z.to_nat i = n)) as [<-|Hne].
  - apply list_lookup_insert_Some in Hn as [(_ & <- & _)|(? & _)]; [by left|done].
  - rewrite list_lookup_insert_ne in Hn by done. right. by eapply list_elem_of_lookup_2.
Qed.

(** *** [as_activate] *)

(** Slots [0..n-1] of the TLB invalid, the others as before. *)
Lemma flush_prefix k n :
  zlen (tlb k) = NUM_TLB → (n ≤ 64)%nat →
  ∃ t, foldl (λ k i, tlb_write (TLBHI_INVALID i) TLBLO_INVALID i k) k (seqZ 0 (Z.of_nat n)) =
      with_tlb t k ∧ zlen t = NUM_TLB ∧
    ∀ i, zget t i = if decide (0 ≤ i < Z.of_nat n) then Some (TLBHI_INVALID i, TLBLO_INVALID)
                    else zget (tlb k) i.
Proof.
  intros Hlen. induction n as [|n IH]; intros Hn.
  - exists (tlb k). split_and!; [by destruct k|done|]. intros i. by rewrite decide_False by lia.
  - destruct IH as (t & IH1 & IH2 & IH3); [lia|].
    exists (zset t (Z.of_nat n) (TLBHI_INVALID (Z.of_nat n), TLBLO_INVALID)). split_and!.
    + rewrite seqZ_S, foldl_app, IH1. done.
    + by rewrite zlen_zset.
    + intros i. rewrite zget_zset, IH3. unfold NUM_TLB in *.
      repeat case_decide; try lia; try done. by replace i with (Z.of_nat n) by lia.
Qed.

Lemma as_activate_spec k :
  zlen (tlb k) = NUM_TLB →
  ∃ t, as_activate k = with_tlb t k ∧ zlen t = NUM_TLB ∧
    (t = tlb k ∧ proc_getas k = 0 ∨
     proc_getas k ≠ 0 ∧ ∀ hi lo, (hi, lo) ∈ t → lo = TLBLO_INVALID).
Proof.
  intros Hlen. unfold as_activate. destruct (Z.eqb_spec (proc_getas k) 0) as [E|E].
  { exists (tlb k). split_and!; [by destruct k|done|by left]. }
  destruct (flush_prefix k 64 Hlen) as (t & Ht & Hl & Hg); [lia|].
  exists t. split_and!; [exact Ht|done|right]. split; [done|]. intros hi lo Hin.
  apply list_elem_of_lookup in Hin as [n Hn].
  assert (zget t (Z.of_nat n) = Some (hi, lo)) as Hz.
  { unfold zget. rewrite decide_True by lia. by rewrite Nat2Z.id. }
  pose proof (zget_Some_range _ _ _ Hz). unfold NUM_TLB in *.
  rewrite Hg, decide_True in Hz by lia. by injection Hz.
Qed.

(** *** [vm_fault] *)

(** The region test of [check_regions] on a region's contents. *)
Definition data_covers (va : Z) (d : Z * Z * Z) : bool :=
  let '(b, n, _) := d in (b <=? va) && (va <? u32 (b + PAGE_SIZE * n)).

(** The first region that covers [va]. *)
Fixpoint covering (va : Z) (ds : list (Z * Z * Z)) : option (Z * Z * Z) :=
  match ds with
  | [] => None
  | d :: ds => if data_covers va d then Some d else covering va ds
  end.

Lemma first_match_covering (rs : gmap Z region) va l ds :
  Forall2 (λ a d, region_data <$> rs !! a = Some d) l ds → Forall (λ a, a ≠ 0) l →
  match covering va ds with
  | Some d => first_match rs (region_covers va) l ≠ 0 ∧
      ∃ r, rs !! first_match rs (region_covers va) l = Some r ∧ region_data r = d
  | None => first_match rs (region_covers va) l = 0
  end.
Proof.
  induction 1 as [|a d l ds Hd _ IH]; [done|]. intros [Ha Hl]%Forall_cons. simpl.
  destruct (rs !! a) as [r|] eqn:Er; [|done]. simpl in Hd. injection Hd as <-.
  change (region_covers va r) with (data_covers va (region_data r)).
  destruct (data_covers va (region_data r)); [eauto|by apply IH].
Qed.

Lemma pids_ok_view k :
  pt_ok k → pids_ok k ↔ ∀ key fp, vm_view k !! key = Some fp → is_Some (aspaces k !! key.1).
Proof.
  intros Hpt. split.
  - intros Hp key fp [a Ha]%view_lookup; [|apply Hpt]. by apply Hp in Ha.
  - intros Hp a [key fp] Ha. apply (Hp key fp). apply view_lookup; [apply Hpt|eauto].
Qed.

Section sys.
Context `{KMallocLaws}.

(** The TLB low word of a fresh page in frame [i] with region permissions [p]. *)
Definition page_word (i p : Z) : Z :=
  i * PAGE_SIZE + TLBLO_VALID + (if Z.land p PERMISSION_WRITE =? 0 then 0 else TLBLO_DIRTY).

(** The effect of a fault of the current process [as_] at page [va]. *)
Inductive fault_effect (slot as_ va : Z) (asp : addrspace) (ds : list (Z * Z * Z)) (k : kern) :
    Z → kern → Prop :=
| fault_mapped fp :
    vm_view k !! (as_, va) = Some fp →
    fault_effect slot as_ va asp ds k 0 (tlb_write va (Z.lor fp (dirty_mask asp)) slot k)
| fault_no_region :
    vm_view k !! (as_, va) = None → covering va ds = None →
    fault_effect slot as_ va asp ds k EFAULT k
| fault_no_memory d k' :
    vm_view k !! (as_, va) = None → covering va ds = Some d → no_memory k k' →
    fault_effect slot as_ va asp ds k ENOMEM k'
| fault_pagein b n p i k' :
    vm_view k !! (as_, va) = None → covering va ds = Some (b, n, p) →
    ¬ owned (k_phys k) i →
    vm_view k' = <[(as_, va) := page_word i p]> (vm_view k) →
    page_at k' (as_, va) = Some zero_page →
    tlb k' = zset (tlb k) slot (va, Z.lor (page_word i p) (dirty_mask asp)) →
    fault_effect slot as_ va asp ds k 0 k'.

Lemma vm_fault_effect slot ft fva k as_ asp ds :
  kern_inv k → lookup_fault ft → curproc_as k = Some as_ → aspaces k !! as_ = Some asp →
  region_list k as_ ds →
  ∃ e k', vm_fault slot ft fva k = Ok (e, k') ∧
    fault_effect slot as_ (Z.land fva PAGE_FRAME) asp ds k e k' ∧
    kern_inv k' ∧ same_spaces k k' ∧ phys_ext (k_phys k) (k_phys k').
Proof.
  intros Hinv Hft Hcur Hasp Hrl. set (va := Z.land fva PAGE_FRAME).
  destruct (region_list_inv _ _ _ Hrl) as (asp' & l & Hasp' & Hc & Hds).
  rewrite Hasp in Hasp'. injection Hasp' as <-.
  assert (as_ok k as_ asp l) as Hok by (split_and!; [by eapply ki_spaces|done..]).
  pose proof (first_match_covering (regions k) va l ds Hds) as Hcov.
  rewrite Forall_forall in Hcov. specialize (Hcov (λ a Ha, proj1 (chain_elem _ _ _ _ Hc Ha))).
  destruct (vm_view k !! (as_, va)) as [fp|] eqn:Hv.
  { exists 0, (update_tlb slot va fp (dirty_mask asp) k). split_and!.
    - rewrite (vm_fault_lookup _ _ _ _ _ _ _ (ki_vm _ Hinv) Hft Hcur Hok). fold va. by rewrite Hv.
    - by constructor.
    - by destruct Hinv as [[[????]??] [??] ?]; split; [split|split|].
    - done.
    - done. }
  destruct (covering va ds) as [[[b n] p]|] eqn:Hcv; simpl in Hcov.
  - destruct Hcov as (Hn & r & Hr & Hrd).
    destruct (vm_fault_pagein slot ft fva k as_ asp l _ r (ki_vm _ Hinv) Hft Hcur Hok Hv eq_refl Hn Hr)
      as (e & k' & Hf & Hinv' & Hss & Hext & Hcase).
    exists e, k'. split; [done|]. pose proof Hss as (Ha & Hrg & _).
    assert (∀ x, (∀ key fp, vm_view k' !! key = Some fp → vm_view k !! key = Some fp ∨ key.1 = as_) →
      x → kern_inv k' ∧ x) as Hk.
    { intros x Hview Hx. split; [|done]. split; [done| |].
      - destruct (ki_spaces _ Hinv). split; unfold region_chain in *; rewrite Ha, Hrg; done.
      - apply pids_ok_view; [apply Hinv'|]. intros key fp Hk. rewrite Ha.
        apply Hview in Hk as [Hk|Hk]; [|rewrite Hk; eauto]. revert Hk. apply pids_ok_view; apply Hinv. }
    destruct Hcase as [(-> & Hnm)|(-> & i & Hi & Hni & Hview & Hz & Ht)].
    + split; [by eapply fault_no_memory|]. destruct (no_memory_same _ _ Hnm) as [Hview _]. apply Hk; [|done]. rewrite Hview. by left.
    + injection Hrd as _ _ Hp. rewrite Hp in *.
      destruct (fresh_frame_paddr_spec i p) as (m & Hm & Hmr & Hmw); [lia|].
      assert (fresh_frame_paddr (frame_kvaddr i) p = page_word i p) as Hw
        by (rewrite Hm, Hmw; unfold page_word, PAGE_SIZE; lia).
      split.
      * eapply fault_pagein; try done; [by rewrite <-Hw| |by rewrite <-Hw].
        unfold page_at. rewrite Hview, lookup_insert_eq. simpl.
        rewrite Hm. unfold PAGE_SIZE. by rewrite div_page.
      * apply Hk; [|done]. intros key fp. rewrite Hview, lookup_insert.
        case_decide; [subst; by right|by left].
  - exists EFAULT, k. split_and!; try done; [|by constructor].
    rewrite (vm_fault_lookup _ _ _ _ _ _ _ (ki_vm _ Hinv) Hft Hcur Hok). fold va.
    by rewrite Hv, Hcov.
Qed.

(** *** Preservation *)

(** Steps that leave the TLB and the current process alone. *)
Lemma sys_inv_frame k k' :
  sys_inv k → kern_inv k' → tlb k' = tlb k → curproc_as k' = curproc_as k →
  (∀ as_ asp, curproc_as k = Some as_ → aspaces k !! as_ = Some asp →
     ∃ asp', aspaces k' !! as_ = Some asp' ∧ dirty_mask asp' = dirty_mask asp) →
  (∀ as_ asp, aspaces k' !! as_ = Some asp → dirty_mask asp = 0 ∨ dirty_mask asp = TLBLO_DIRTY) →
  (∀ as_ va fp, curproc_as k = Some as_ → vm_view k !! (as_, va) = Some fp →
     vm_view k' !! (as_, va) = Some fp) →
  sys_inv k'.
Proof.
  intros [Hk Hcur Hmask Hlen Htlb] Hk' Ht Hc Ha Hm Hv. split; [done| |done|by rewrite Ht|].
  - rewrite Hc. intros as_ Has Hn. destruct (Hcur _ Has Hn) as [asp Hasp].
    destruct (Ha _ _ Has Hasp) as (asp' & -> & _). eauto.
  - intros as_ hi lo. rewrite Hc, Ht. intros Has Hn Hin Hval.
    destruct (Htlb _ _ _ Has Hn Hin Hval) as (asp & fp & Hasp & Hfp & ->).
    destruct (Ha _ _ Has Hasp) as (asp' & Hasp' & <-). eauto 10.
Qed.

Lemma kern_inv_tlb t c k : kern_inv k → kern_inv (with_tlb t (with_curproc c k)).
Proof. intros [[[????]??] [??] ?]. by split; [split|split|]. Qed.

Lemma sys_inv_fault k k' as_ asp ds slot ft fva e :
  sys_inv k → lookup_fault ft → curproc_as k = Some as_ → aspaces k !! as_ = Some asp →
  region_list k as_ ds → vm_fault slot ft fva k = Ok (e, k') → sys_inv k'.
Proof.
  intros Hinv Hft Hcur Hasp Hrl Hf.
  destruct (vm_fault_effect slot ft fva k as_ asp ds (si_kern _ Hinv) Hft Hcur Hasp Hrl)
    as (e1 & k1 & Hf1 & Heff & Hk1 & (Ha & _ & Hc & _) & _).
  rewrite Hf in Hf1. injection Hf1 as <- <-.
  assert (∀ va fp, vm_view k' !! (as_, va) = Some fp →
    tlb k' = zset (tlb k) slot (va, Z.lor fp (dirty_mask asp)) →
    (∀ va fp, vm_view k !! (as_, va) = Some fp → vm_view k' !! (as_, va) = Some fp) →
    sys_inv k') as Hupd.
  { intros va fp Hfp Ht Hv. destruct Hinv as [Hk Hcu Hmask Hlen Htlb].
    split; [done|by rewrite Hc, Ha|by rewrite Ha|by rewrite Ht, zlen_zset|].
    intros as' hi lo. rewrite Hc, Ha, Ht. intros Has Hn Hin Hval. simplify_eq.
    apply elem_of_zset in Hin as [[= -> ->]|Hin]; [eauto|].
    destruct (Htlb _ _ _ Hcur Hn Hin Hval) as (asp' & fp' & ? & ? & ->).
    simplify_eq. exists asp, fp'. split_and!; auto. }
  destruct Heff as [fp Hfp| |d k1 _ _ Hnm|b n p i k1 Hn _ _ Hv _ Ht]; [by eapply Hupd|done| |].
  - destruct (no_memory_same _ _ Hnm) as [Hv Ht].
    eapply sys_inv_frame; try done; try (rewrite Ha); [eauto|by apply Hinv|by rewrite Hv].
  - eapply Hupd; [|exact Ht|]; rewrite Hv; [by rewrite lookup_insert_eq|].
    intros va' fp' Hfp'. rewrite lookup_insert_ne; [done|]. congruence.
Qed.

Lemma sys_inv_activate k c :
  kern_inv k → (∀ as_, c = Some as_ → as_ ≠ 0 → is_Some (aspaces k !! as_)) →
  (∀ as_ asp, aspaces k !! as_ = Some asp → dirty_mask asp = 0 ∨ dirty_mask asp = TLBLO_DIRTY) →
  zlen (tlb k) = NUM_TLB → sys_inv (as_activate (with_curproc c k)).
Proof.
  intros Hk Hc Hm Hlen. destruct (as_activate_spec (with_curproc c k) Hlen) as (t & -> & Hl & Ht).
  split; [by apply kern_inv_tlb|done|done|done|].
  intros as_ hi lo Has Hn Hin Hval. unfold proc_getas in Ht. simpl in *. rewrite Has in Ht.
  destruct Ht as [[_ ?]|[_ Ht]]; [done|]. by rewrite (Ht _ _ Hin) in Hval.
Qed.

Lemma kern_inv_mask k as_ asp dm :
  kern_inv k → aspaces k !! as_ = Some asp →
  kern_inv (with_as (<[as_ := AddrSpace (as_regions asp) dm]> (aspaces k)) (regions k) k).
Proof.
  intros [Hvm [Hs1 Hs2] Hp] Hasp.
  assert (∀ o l, region_chain (with_as (<[as_ := AddrSpace (as_regions asp) dm]> (aspaces k))
    (regions k) k) o l → region_chain k o l) as Hch.
  { intros o l (asp' & Ho & Hc). simpl in *. rewrite lookup_insert in Ho. case_decide; simplify_eq.
    - by exists asp.
    - by exists asp'. }
  split; [by apply vm_inv_as|split|].
  - intros o asp' Ho. simpl in *. rewrite lookup_insert in Ho. case_decide; [|by apply Hs1].
    simplify_eq. exact (Hs1 _ _ Hasp).
  - intros as1 as2 l1 l2 Hne H1%Hch H2%Hch. by eapply Hs2.
  - intros a x [asp' Hx]%Hp. simpl. rewrite lookup_insert. case_decide; eauto.
Qed.

(** [as_prepare_load] and [as_complete_load]. *)
Lemma sys_inv_load k as_ asp dm :
  sys_inv k → aspaces k !! as_ = Some asp → dm = 0 ∨ dm = TLBLO_DIRTY →
  sys_inv (as_activate
    (with_as (<[as_ := AddrSpace (as_regions asp) dm]> (aspaces k)) (regions k) k)).
Proof.
  intros [Hk Hcur Hmask Hlen _] Hasp Hdm.
  set (k1 := with_as _ _ k).
  replace k1 with (with_curproc (curproc_as k) k1) by (by destruct k).
  apply sys_inv_activate; [by apply kern_inv_mask| | |done].
  - intros o Ho Hn. simpl. rewrite lookup_insert. case_decide; eauto.
  - intros o asp'. simpl. rewrite lookup_insert. case_decide; [|by apply Hmask].
    intros [= <-]. done.
Qed.

Lemma spaces_ok_eq k k' :
  aspaces k' = aspaces k → regions k' = regions k → spaces_ok k → spaces_ok k'.
Proof. intros Ha Hr [H1 H2]. split; unfold region_chain in *; rewrite Ha, Hr; done. Qed.

(** Destroying an address space keeps the invariant and the other pages. *)
Lemma as_destroy_inv k as_ l :
  kern_inv k → region_chain k as_ l →
  ∃ k', as_destroy as_ k = Ok k' ∧ kern_inv k' ∧
    aspaces k' = delete as_ (aspaces k) ∧ tlb k' = tlb k ∧ curproc_as k' = curproc_as k ∧
    vm_view k' = filter (λ kf, kf.1.1 ≠ as_) (vm_view k) ∧
    (∀ a x, entries k !! a = Some x → x.1.1 = as_ →
       frame_used (p_ft (k_phys k')) (entry_frame x) = false) ∧
    (∀ key, key.1 ≠ as_ → page_at k' key = page_at k key) ∧
    (∀ o ds, o ≠ as_ → region_list k o ds → region_list k' o ds).
Proof.
  intros Hinv Hch. pose proof Hinv as [Hvm Hsp Hp].
  destruct (as_destroy_spec k as_ l Hvm Hch)
    as (k' & -> & Hvm' & Ha & Hr & He & Ht & Hc & _ & Hgone & Hram).
  assert (vm_view k' = filter (λ kf, kf.1.1 ≠ as_) (vm_view k)) as Hv.
  { unfold vm_view. rewrite He. apply view_filter. apply Hvm. }
  exists k'. split_and!; try done.
  - split; [done| |].
    + by apply (spaces_ok_eq (without_space as_ l k)); [..|by apply without_space_spaces].
    + intros a x. rewrite He, Ha. intros [Hx Hne]%map_lookup_filter_Some.
      destruct (Hp _ _ Hx) as [asp Hasp]. simpl in Hne. rewrite lookup_delete_ne by done. eauto.
  - intros key Hne. unfold page_at. rewrite Hv.
    destruct (vm_view k !! key) as [fp|] eqn:Hk.
    + rewrite (proj2 (map_lookup_filter_Some _ _ _ _) (conj Hk Hne)). simpl.
      apply view_lookup in Hk as [a Hx]; [|apply Hvm]. apply (Hram a (key, fp)).
      rewrite He. by apply map_lookup_filter_Some.
    + by rewrite (proj2 (map_lookup_filter_None _ _ _) (or_introl Hk)).
  - intros o ds Hne (l' & Hch' & Hds). exists l'. split.
    + unfold region_chain. rewrite Ha, Hr.
      exact (proj1 (without_space_chain _ _ _ _ _ Hsp Hch Hne) Hch').
    + eapply Forall2_impl_elem; [exact Hds|]. intros a d Hal Had. rewrite <-Had. f_equal. rewrite Hr.
      assert (a ∉ l) by (by eapply (sp_disj _ Hsp o as_ l' l)).
      destruct Hch' as (asp' & _ & Hc'). destruct (chain_elem _ _ _ _ Hc' Hal) as [_ [r' Hr']].
      rewrite Hr'. by apply map_lookup_filter_Some.
Qed.

Lemma as_create_inv k :
  kern_inv k →
  ∃ as_ k', as_create k = (as_, k') ∧ kern_inv k' ∧ entries k' = entries k ∧ tlb k' = tlb k ∧
    curproc_as k' = curproc_as k ∧ phys_ext (k_phys k) (k_phys k') ∧
    (as_ = 0 ∧ aspaces k' = aspaces k ∨
     aspaces k !! as_ = None ∧ aspaces k' = <[as_ := AddrSpace 0 0]> (aspaces k) ∧
     region_list k' as_ []).
Proof.
  intros Hinv. unfold as_create, run_kmalloc. destruct (kmalloc k) as [as_ ph] eqn:Hkm.
  destruct (kmalloc_laws _ _ _ Hkm) as (Hext & Hnew).
  destruct (Z.eqb_spec as_ 0) as [->|Hn]; eexists _, _; (split; [reflexivity|]).
  - split_and!; try done; [|by left].
    eapply kern_inv_eq; [exact Hinv| |done..]. apply vm_inv_phys; [apply Hinv|done].
  - destruct (Hnew Hn) as [_ Hlive].
    assert (aspaces k !! as_ = None) as Hnone.
    { apply eq_None_not_Some. intros ?. apply Hlive. unfold live_object. auto. }
    assert (with_space k as_ 0 [] [] (with_as (<[as_:=AddrSpace 0 0]> (aspaces k)) (regions k)
      (with_phys ph k))) as Hws.
    { exists ph, (regions k), 0. split_and!; try done. by intros ? ?%elem_of_nil. }
    destruct (with_space_inv _ _ _ _ _ _ Hinv Hn Hnone Hws) as (? & ? & ?).
    split_and!; try done. by right.
Qed.

Lemma kern_inv_lists k as_ : kern_inv k → is_Some (aspaces k !! as_) → ∃ ds, region_list k as_ ds.
Proof.
  intros Hinv [asp Hasp]. destruct (kern_inv_region_list _ _ _ Hinv Hasp) as (l & ds & Hc & Hds).
  exists ds, l. split; [by exists asp|done].
Qed.

(** Faults that are refused at once. *)
Lemma vm_fault_refused slot ft fva k :
  ¬ lookup_fault ft ∨ curproc_as k = None ∨ curproc_as k = Some 0 →
  vm_fault slot ft fva k =
    Ok (if decide (ft = VM_FAULT_READONLY ∨ lookup_fault ft) then EFAULT else EINVAL, k).
Proof.
  unfold vm_fault. intros Hr. case_decide as Hd; unfold lookup_fault in *;
    unfold VM_FAULT_READONLY, VM_FAULT_READ, VM_FAULT_WRITE in *.
  - destruct (Z.eqb_spec ft 2) as [|Hne]; [done|]. destruct Hd as [?|Hd]; [done|].
    replace (negb _) with false by (by destruct Hd as [->| ->]).
    by destruct Hr as [?|[->| ->]].
  - destruct (Z.eqb_spec ft 2), (Z.eqb_spec ft 0), (Z.eqb_spec ft 1); tauto || done.
Qed.

(** The result of a fault: refused because of its type, because no process runs or
    because the process has no address space, always without a change; or handled in
    the current address space. *)
Inductive fault_result (slot ft fva : Z) (k : kern) : Z → kern → Prop :=
| fault_readonly :
    ft = VM_FAULT_READONLY → fault_result slot ft fva k EFAULT k
| fault_bad_type :
    ft ≠ VM_FAULT_READONLY → ¬ lookup_fault ft → fault_result slot ft fva k EINVAL k
| fault_no_space :
    lookup_fault ft → curproc_as k = None ∨ curproc_as k = Some 0 →
    fault_result slot ft fva k EFAULT k
| fault_handled as_ asp ds e k' :
    lookup_fault ft → curproc_as k = Some as_ → as_ ≠ 0 → aspaces k !! as_ = Some asp →
    region_list k as_ ds → fault_effect slot as_ (Z.land fva PAGE_FRAME) asp ds k e k' →
    fault_result slot ft fva k e k'.

Lemma fault_refused_result slot ft fva k :
  ¬ lookup_fault ft ∨ curproc_as k = None ∨ curproc_as k = Some 0 →
  fault_result slot ft fva k
    (if decide (ft = VM_FAULT_READONLY ∨ lookup_fault ft) then EFAULT else EINVAL) k.
Proof.
  intros Hr. case_decide as Hd; [|apply fault_bad_type; tauto].
  destruct Hd as [?|Hd]; [by apply fault_readonly|]. apply fault_no_space; tauto.
Qed.

(** A handled fault keeps the contents of the mapped pages. *)
Lemma fault_effect_pages slot as_ va asp ds k e k' :
  kern_inv k → phys_ext (k_phys k) (k_phys k') → fault_effect slot as_ va asp ds k e k' →
  ∀ key p, page_at k key = Some p → page_at k' key = Some p.
Proof.
  intros Hk Hext Heff key p. apply page_at_ext; [apply Hk..|done|]. intros fp.
  destruct Heff as [| |d k' _ _ Hnm|b n pm i k' Hnone _ _ Hv _ _]; [done..| |].
  - by rewrite (proj1 (no_memory_same _ _ Hnm)).
  - rewrite Hv. intros Hfp. rewrite lookup_insert_ne by congruence. done.
Qed.

Lemma vm_fault_dec ft k :
  (lookup_fault ft ∧ ∃ as_, curproc_as k = Some as_ ∧ as_ ≠ 0) ∨
  (¬ lookup_fault ft ∨ curproc_as k = None ∨ curproc_as k = Some 0).
Proof.
  assert (Decision (lookup_fault ft)) by (unfold lookup_fault; apply _).
  destruct (decide (lookup_fault ft)); [|by right; left].
  destruct (curproc_as k) as [as_|] eqn:E; [|by auto].
  destruct (decide (as_ = 0)) as [->|]; [by auto|left; eauto].
Qed.

Lemma sys_inv_create k as_ k' : sys_inv k → as_create k = (as_, k') → sys_inv k'.
Proof.
  intros Hinv Hcr.
  destruct (as_create_inv k (si_kern _ Hinv)) as (a1 & k1 & Hcr1 & Hk1 & He & Ht & Hcu & _ & Hcase).
  rewrite Hcr in Hcr1. injection Hcr1 as <- <-. apply (sys_inv_frame k); try done.
  - intros o asp _ Ho. destruct Hcase as [[_ ->]|(Hnone & -> & _)]; [eauto|].
    rewrite lookup_insert_ne by congruence. eauto.
  - intros o asp. destruct Hcase as [[_ ->]|(Hnone & -> & _)]; [by apply Hinv|].
    rewrite lookup_insert. case_decide; [intros [= <-]; by left|by apply Hinv].
  - intros o va fp _. unfold vm_view. by rewrite He.
Qed.

Lemma sys_inv_define k as_ v m r w x e k' :
  sys_inv k → is_Some (aspaces k !! as_) → as_define_region as_ v m r w x k = Ok (e, k') → sys_inv k'.
Proof.
  intros Hinv Has Hd. destruct (kern_inv_lists _ _ (si_kern _ Hinv) Has) as [ds Hds].
  destruct (as_define_region_inv k as_ ds v m r w x (si_kern _ Hinv) Hds)
    as (e1 & k1 & Hd1 & Hk1 & He & _ & Ht & Hcu & Hm & _).
  rewrite Hd in Hd1. injection Hd1 as <- <-. apply (sys_inv_frame k); try done.
  - intros o asp _ Ho. specialize (Hm o). rewrite Ho in Hm.
    by apply fmap_Some in Hm as (asp' & ? & ?); eauto.
  - intros o asp Ho. specialize (Hm o). rewrite Ho in Hm. symmetry in Hm.
    apply fmap_Some in Hm as (asp' & ? & ->). by eapply si_mask.
  - intros o va fp _. unfold vm_view. by rewrite He.
Qed.

Lemma sys_inv_copy k old e ret k' :
  sys_inv k → is_Some (aspaces k !! old) → as_copy old k = Ok (e, ret, k') → sys_inv k'.
Proof.
  intros Hinv [o Hold] Hcp. destruct (as_copy_spec k old o (si_kern _ Hinv) Hold)
    as [(ret' & k1 & Hcp1 & Hsk)|[(new & k1 & Hcp1 & Hco)|[Hcp1 _]]]; [| |congruence];
    rewrite Hcp in Hcp1; injection Hcp1 as _ _ <-.
  - apply (sys_inv_frame k); try apply Hsk; [done|..]; rewrite ?(sk_aspaces _ _ Hsk).
    + eauto.
    + apply Hinv.
    + intros as_ va fp _. unfold vm_view. by rewrite (sk_entries _ _ Hsk).
  - destruct (co_new _ _ _ _ Hco) as (o' & n & Ho' & Ha & Hdm). destruct (co_tlb _ _ _ _ Hco).
    pose proof (co_fresh _ _ _ _ Hco) as Hfresh.
    apply (sys_inv_frame k); try done; [apply Hco|..]; rewrite ?Ha.
    + intros as_ asp _ Hasp. rewrite lookup_insert_ne by congruence. eauto.
    + intros as_ asp. rewrite lookup_insert. case_decide; [|by apply Hinv].
      intros [= <-]. rewrite Hdm. by eapply si_mask.
    + intros as_ va fp _. apply Hco.
Qed.

Lemma sys_inv_destroy k as_ k' :
  sys_inv k → is_Some (aspaces k !! as_) → curproc_as k ≠ Some as_ → as_destroy as_ k = Ok k' →
  sys_inv k'.
Proof.
  intros Hinv Has Hne Hde. destruct (kern_inv_lists _ _ (si_kern _ Hinv) Has) as (ds & l & Hch & _).
  destruct (as_destroy_inv k as_ l (si_kern _ Hinv) Hch)
    as (k1 & Hd1 & Hk1 & Ha & Ht & Hcu & Hv & _).
  rewrite Hde in Hd1. injection Hd1 as <-. apply (sys_inv_frame k); try done.
  - intros o asp Ho Hasp. rewrite Ha, lookup_delete_ne by congruence. eauto.
  - intros o asp. rewrite Ha. intros [_ Ho]%lookup_delete_Some. by eapply si_mask.
  - intros o va fp Ho Hfp. rewrite Hv. apply map_lookup_filter_Some. split; [done|].
    simpl. congruence.
Qed.

(** Every call keeps the invariant. *)
Lemma sys_inv_step k k' : sys_inv k → vm_step k k' → sys_inv k'.
Proof.
  intros Hinv Hstep. destruct Hstep as [slot ft fva e k k' Hf|as_ k k' Hcr|as_ v m r w x e k k' Has Hd
    |as_ e k k' [asp Has] Hl|as_ e k k' [asp Has] Hl|old e ret k k' Hold Hcp|as_ k k' Has Hne Hde|c k Hc].
  - destruct (vm_fault_dec ft k) as [(Hft & as_ & Hcur & Hn)|Hr].
    + pose proof (si_cur _ Hinv _ Hcur Hn) as Hs.
      destruct (kern_inv_lists _ _ (si_kern _ Hinv) Hs) as [ds Hds].
      destruct Hs as [asp Hasp]. by eapply sys_inv_fault.
    + rewrite vm_fault_refused in Hf by done. by injection Hf as _ <-.
  - by eapply sys_inv_create.
  - by eapply sys_inv_define.
  - unfold as_prepare_load in Hl. rewrite Has in Hl. simpl in Hl. injection Hl as _ <-.
    by apply sys_inv_load; [..|right].
  - unfold as_complete_load in Hl. rewrite Has in Hl. simpl in Hl. injection Hl as _ <-.
    by apply sys_inv_load; [..|left].
  - by eapply sys_inv_copy.
  - by eapply sys_inv_destroy.
  - by apply sys_inv_activate; try apply Hinv.
Qed.

(** [vm_bootstrap] establishes it. *)
Lemma sys_inv_boot k : vm_booted k → sys_inv k.
Proof.
  intros (r & pages & t & mem & Hb & Hlast & Hfirst & Ht). unfold vm_bootstrap in Hb. simpl in Hb.
  destruct (init_pagetable mem (ft_boot r)) as [[pt n] ft] eqn:Hi.
  destruct (Z.eqb_spec pt 0) as [|Hpt]; [done|]. injection Hb as <-.
  destruct (init_pagetable_inv mem (ft_boot r) pt n ft Hlast Hfirst Hi Hpt)
    as (fcur & cur & _ & _ & Hr & _ & _ & -> & Hok & _).
  split; simpl; try done. split; [split; [split| |done]|split; [done|]|done].
  - simpl. unfold zlen. rewrite length_replicate. lia.
  - simpl. lia.
  - intros i hd Hg. simpl in Hg. unfold zget in Hg. case_decide; [|done].
    apply lookup_replicate in Hg as [-> _]. exists []. split; [done|].
    intros a. split; [by intros ?%elem_of_nil|]. intros (x & Hx & _). done.
  - done.
  - split; [|done|done]. split; [by eexists|]. done.
  - intros as1 as2 l1 l2 _ (asp & Hasp & _). done.
Qed.

Lemma sys_inv_reachable k : reachable vm_booted vm_step k → sys_inv k.
Proof. apply reachable_invariant; [exact sys_inv_boot|exact sys_inv_step]. Qed.

End sys.

(** ** Regions *)

Lemma page_align x : is_u32 x → Z.land x PAGE_FRAME = x / PAGE_SIZE * PAGE_SIZE.
Proof. intros. unfold PAGE_FRAME, PAGE_SIZE. by apply land_page_frame. Qed.

(** The page-aligned addresses the new region covers are the pages that hold a
    byte of the segment. *)
Lemma new_region_covers vaddr memsize r w x a :
  0 ≤ vaddr → 0 ≤ memsize → vaddr + memsize + 2 * PAGE_SIZE ≤ two32 → is_u32 a →
  data_covers (a / PAGE_SIZE * PAGE_SIZE) (region_data (new_region vaddr memsize r w x)) = true ↔
  vaddr / PAGE_SIZE * PAGE_SIZE ≤ a < (vaddr + memsize + PAGE_SIZE - 1) / PAGE_SIZE * PAGE_SIZE.
Proof.
  intros Hv Hm Hb Ha. unfold data_covers, region_data, new_region. simpl.
  rewrite page_align by (unfold is_u32, PAGE_SIZE in *; lia).
  unfold PAGE_SIZE in *. pose proof (Z.div_mod vaddr 4096 ltac:(lia)) as Hdm.
  pose proof (Z.mod_pos_bound vaddr 4096 ltac:(lia)) as Hmod.
  rewrite (u32_id (memsize + _ + _ - 1)) by width.
  set (q := vaddr / 4096) in *. set (m := vaddr mod 4096) in *.
  assert ((vaddr + memsize + 4096 - 1) / 4096 = q + (memsize + m + 4096 - 1) / 4096) as ->.
  { rewrite Hdm. replace (4096 * q + m + memsize + 4096 - 1) with (memsize + m + 4096 - 1 + q * 4096) by lia.
    rewrite Z.div_add by lia. lia. }
  set (n := (memsize + m + 4096 - 1) / 4096).
  assert (0 ≤ n ∧ 4096 * n ≤ memsize + m + 4095) as [Hn Hn'].
  { split; [apply Z.div_pos; lia|]. unfold n. etransitivity; [apply Z.mul_div_le; lia|]. lia. }
  rewrite (u32_id (q * 4096 + 4096 * n)) by width.
  rewrite andb_true_iff, Z.leb_le, Z.ltb_lt.
  pose proof (Z.div_mod a 4096 ltac:(lia)). pose proof (Z.mod_pos_bound a 4096 ltac:(lia)). lia.
Qed.

(** Regions as [as_define_region] makes them from a loaded segment. *)
Definition region_wf (d : Z * Z * Z) : Prop :=
  let '(b, n, p) := d in is_u32 b ∧ b mod PAGE_SIZE = 0 ∧ 0 ≤ n < 1048576 ∧ 0 ≤ p < 8.

Lemma land_perm p : 0 ≤ p < 8 →
  Z.lor (Z.lor (Z.land p PERMISSION_READ) (Z.land p PERMISSION_WRITE)) (Z.land p PERMISSION_EXECUTE) = p.
Proof.
  intros Hp. assert (p = 0 ∨ p = 1 ∨ p = 2 ∨ p = 3 ∨ p = 4 ∨ p = 5 ∨ p = 6 ∨ p = 7) as Hc by lia.
  by repeat destruct Hc as [->|Hc]; [..|subst].
Qed.

Lemma copy_data_wf d : region_wf d → copy_data d = d.
Proof.
  destruct d as [[b n] p]. intros (Hb & Ha & Hn & Hp). unfold copy_data, region_data, new_region. simpl.
  rewrite page_align, land_perm by done. unfold PAGE_SIZE in *.
  rewrite (u32_id (4096 * n)), Ha by width. rewrite u32_id by width.
  repeat f_equal.
  - pose proof (Z.div_mod b 4096 ltac:(lia)). lia.
  - symmetry. apply (Z.div_unique _ _ _ 4095); lia.
Qed.

Lemma new_region_wf vaddr memsize r w x :
  is_u32 vaddr → (r = 0 ∨ r = PERMISSION_READ) → (w = 0 ∨ w = PERMISSION_WRITE) →
  (x = 0 ∨ x = PERMISSION_EXECUTE) → region_wf (region_data (new_region vaddr memsize r w x)).
Proof.
  intros Hv Hr Hw Hx. unfold region_wf, region_data, new_region. simpl.
  rewrite page_align by done. unfold PAGE_SIZE.
  pose proof (Z.div_mod vaddr 4096 ltac:(lia)). pose proof (Z.mod_pos_bound vaddr 4096 ltac:(lia)).
  pose proof (Z.div_pos vaddr 4096 ltac:(unfold is_u32 in *; lia) ltac:(lia)).
  pose proof (u32_range (memsize + vaddr mod 4096 + 4096 - 1)).
  split_and!; [width..|by apply Z.mod_mul|apply Z.div_pos; width| | |].
  - apply Z.div_lt_upper_bound; width.
  - by destruct Hr as [->| ->], Hw as [->| ->], Hx as [->| ->].
  - by destruct Hr as [->| ->], Hw as [->| ->], Hx as [->| ->].
Qed.

(** ** Properties *)

Lemma lor_dirty_frame fp dm : dm = 0 ∨ dm = TLBLO_DIRTY → Z.lor fp dm / PAGE_SIZE = fp / PAGE_SIZE.
Proof.
  intros Hdm. unfold PAGE_SIZE. change 4096 with (2 ^ 12).
  rewrite <-!Z.shiftr_div_pow2, Z.shiftr_lor by lia.
  destruct Hdm as [->| ->]; apply Z.lor_0_r.
Qed.

Lemma view_owned k key fp :
  kern_inv k → vm_view k !! key = Some fp → owned (k_phys k) (fp / PAGE_SIZE).
Proof.
  intros [[Hpt Hfr _] _ _] [a Ha]%view_lookup; [|apply Hpt]. by apply (fr_owned _ _ Hfr) in Ha as (? & _).
Qed.

Lemma view_inj k key key' fp fp' :
  kern_inv k → vm_view k !! key = Some fp → vm_view k !! key' = Some fp' →
  fp / PAGE_SIZE = fp' / PAGE_SIZE → key = key'.
Proof.
  intros [[Hpt Hfr _] _ _] [a Ha]%view_lookup [b Hb]%view_lookup Heq; [|apply Hpt..].
  pose proof (fr_inj _ _ Hfr _ _ _ _ Ha Hb Heq) as ->. congruence.
Qed.

Section properties.
Context `{KMalloc}.

(** C1: address spaces are isolated.  In every state the kernel can reach
    through its memory calls, whatever a valid TLB entry lets the running
    process access is the frame of one of the pages of its own address space:
    a frame that is neither free nor used by the heap and that no other page of
    any address space has. *)
Theorem tlb_isolation (Hkm : KMallocLaws) k (Hr : reachable vm_booted vm_step k) as_ hi lo
  (Hcur : curproc_as k = Some as_) (Hn : as_ ≠ 0) (Hin : (hi, lo) ∈ tlb k)
  (Hval : tlb_valid lo = true) :
  ∃ fp, vm_view k !! (as_, hi) = Some fp ∧ lo / PAGE_SIZE = fp / PAGE_SIZE ∧
    owned (k_phys k) (lo / PAGE_SIZE) ∧
    ∀ key fp', vm_view k !! key = Some fp' → fp' / PAGE_SIZE = lo / PAGE_SIZE → key = (as_, hi).
Proof.
  pose proof (sys_inv_reachable k Hr) as Hinv.
  destruct (si_tlb _ Hinv _ _ _ Hcur Hn Hin Hval) as (asp & fp & Hasp & Hfp & ->).
  rewrite lor_dirty_frame by (by eapply si_mask). exists fp. split_and!; [done..| |].
  - eapply view_owned; [apply Hinv|done].
  - intros key fp' Hk He. eapply view_inj; [apply Hinv|done..].
Qed.

(** C7: read-only pages stay read-only.  In every reachable state, once the
    running process is not being loaded (its dirty mask is 0), a TLB entry it
    can write through belongs to a page whose own entry is writable. *)
Theorem tlb_readonly (Hkm : KMallocLaws) k (Hr : reachable vm_booted vm_step k) as_ asp hi lo
  (Hcur : curproc_as k = Some as_) (Hn : as_ ≠ 0) (Hasp : aspaces k !! as_ = Some asp)
  (Hload : dirty_mask asp = 0) (Hin : (hi, lo) ∈ tlb k) (Hval : tlb_valid lo = true)
  (Hw : Z.testbit lo 10 = true) :
  ∃ fp, vm_view k !! (as_, hi) = Some fp ∧ Z.testbit fp 10 = true.
Proof.
  pose proof (sys_inv_reachable k Hr) as Hinv.
  destruct (si_tlb _ Hinv _ _ _ Hcur Hn Hin Hval) as (asp' & fp & Hasp' & Hfp & ->).
  rewrite Hasp in Hasp'. injection Hasp' as <-. rewrite Hload, Z.lor_0_r in Hw. eauto.
Qed.


(** C2: the page fault handler on every branch.  A write to a page that is loaded
    read-only is EFAULT, an unknown fault type EINVAL, a fault without a process or an
    address space EFAULT, all without a change.  Otherwise a mapped page is loaded
    into the TLB as it is; an address outside every region is EFAULT and changes
    nothing; for the first page of a region touched, a frame that belonged to nobody
    is zeroed, mapped with the region's write permission and loaded into the TLB, or
    the fault is ENOMEM.  It is ENOMEM only when no frame is free, or when the heap
    refused the page table entry and the frame has been given back; no mapping
    changes.  In all cases the invariant holds again and every page that was mapped
    keeps its contents. *)
Theorem vm_fault_spec (Hkm : KMallocLaws) slot ft fva k (Hinv : kern_inv k)
  (Hlive : ∀ as_, curproc_as k = Some as_ → as_ ≠ 0 → is_Some (aspaces k !! as_)) :
  ∃ e k', vm_fault slot ft fva k = Ok (e, k') ∧ fault_result slot ft fva k e k' ∧ kern_inv k' ∧
    ∀ key p, page_at k key = Some p → page_at k' key = Some p.
Proof.
  destruct (vm_fault_dec ft k) as [(Hft & as_ & Hcur & Hn)|Hno].
  - pose proof (Hlive _ Hcur Hn) as Hs. destruct (kern_inv_lists _ _ Hinv Hs) as [ds Hds].
    destruct Hs as [asp Hasp].
    destruct (vm_fault_effect slot ft fva k as_ asp ds Hinv Hft Hcur Hasp Hds)
      as (e & k' & Hf & Heff & Hinv' & _ & Hext).
    exists e, k'. split_and!; [done|by eapply fault_handled|done|].
    by eapply fault_effect_pages.
  - exists (if decide (ft = VM_FAULT_READONLY ∨ lookup_fault ft) then EFAULT else EINVAL), k.
    split_and!; [by apply vm_fault_refused|by apply fault_refused_result|done..].
Qed.

(** C3: destroying an address space removes exactly its pages and gives all
    their frames back, and leaves the pages and regions of every other address
    space as they were. *)
Theorem as_destroy_frees (Hkm : KMallocLaws) k as_ (Hinv : kern_inv k)
  (Has : is_Some (aspaces k !! as_)) :
  ∃ k', as_destroy as_ k = Ok k' ∧ kern_inv k' ∧ aspaces k' = delete as_ (aspaces k) ∧
    (∀ va, vm_view k' !! (as_, va) = None) ∧
    (∀ va fp, vm_view k !! (as_, va) = Some fp →
       frame_used (p_ft (k_phys k')) (fp / PAGE_SIZE) = false) ∧
    ∀ o, o ≠ as_ →
      (∀ va, vm_view k' !! (o, va) = vm_view k !! (o, va) ∧ page_at k' (o, va) = page_at k (o, va)) ∧
      (∀ ds, region_list k o ds → region_list k' o ds).
Proof.
  destruct (kern_inv_lists _ _ Hinv Has) as (ds & l & Hch & _).
  destruct (as_destroy_inv k as_ l Hinv Hch) as (k' & -> & Hk' & Ha & _ & _ & Hv & Hg & Hp & Hrl).
  exists k'. split_and!; try done.
  - intros va. rewrite Hv. apply map_lookup_filter_None. right. naive_solver.
  - intros va fp [a Hx]%view_lookup; [|apply Hinv]. by apply (Hg a (as_, va, fp)).
  - intros o Ho. split; [|intros ds'; by apply Hrl]. intros va. split; [|by apply Hp].
    rewrite Hv. destruct (vm_view k !! (o, va)) as [fp|] eqn:E.
    + by apply map_lookup_filter_Some.
    + apply map_lookup_filter_None. by left.
Qed.

(** C4: when [as_copy] returns 0, the new address space has the same regions as
    the old one, every page it maps is a copy of the old address space's page
    with the same permissions, the first page of every bucket is among them,
    and the pages and regions of all other address spaces are unchanged.  When
    it returns ENOMEM no address space, region or page has changed. *)
Theorem as_copy_copies (Hkm : KMallocLaws) k old ds e ret k' (Hinv : kern_inv k)
  (Hds : region_list k old ds) (Hwf : Forall region_wf ds) (Hcp : as_copy old k = Ok (e, ret, k')) :
  kern_inv k' ∧ (∀ key p, page_at k key = Some p → page_at k' key = Some p) ∧
  (∀ o ds', region_list k o ds' → region_list k' o ds') ∧
  ((e = ENOMEM ∧ aspaces k' = aspaces k ∧ vm_view k' = vm_view k) ∨
   (e = 0 ∧ ∃ new, ret = Some new ∧ aspaces k !! new = None ∧ region_list k' new ds ∧
     (∀ va fp, vm_view k' !! (new, va) = Some fp →
        ∃ fp0, vm_view k !! (old, va) = Some fp0 ∧ fp mod 4096 = fp0 mod 4096 ∧
          page_at k' (new, va) = page_at k (old, va)) ∧
     (∀ i hd y, zget (page_table k) i = Some hd → entries k !! hd = Some y → y.1.1 = old →
        is_Some (vm_view k' !! (new, y.1.2))))).
Proof.
  destruct (region_list_inv _ _ _ Hds) as (o & l & Ho & _).
  destruct (as_copy_spec k old o Hinv Ho)
    as [(ret' & k1 & Hcp1 & Hsk)|[(new & k1 & Hcp1 & Hco)|[Hcp1 _]]]; [| |congruence];
    rewrite Hcp in Hcp1; injection Hcp1 as -> -> <-.
  - split_and!; [apply Hsk| | |left].
    + intros key p. unfold page_at, vm_view. rewrite (sk_entries _ _ Hsk).
      destruct (view (entries k) !! key) as [fp|] eqn:E; [|done]. simpl.
      apply view_lookup in E as [a Ha]; [|apply Hinv].
      pose proof (sk_ram _ _ Hsk a _ Ha) as Hram. unfold entry_frame in Hram. simpl in Hram.
      by rewrite Hram.
    + intros o' ds'. unfold region_list, region_chain.
      by rewrite (sk_aspaces _ _ Hsk), (sk_regions _ _ Hsk).
    + split_and!; [done|apply Hsk|]. unfold vm_view. by rewrite (sk_entries _ _ Hsk).
  - destruct Hco as [Hk' _ Hfresh _ Hreg Hoth _ Hpg Hsound Hheads].
    split_and!; [done|done| |right].
    + intros o' ds' Hr'. apply Hoth; [|done]. intros ->.
      destruct (region_list_inv _ _ _ Hr') as (? & ? & ? & _). congruence.
    + split; [done|]. exists new. split_and!; try done.
      replace ds with (map copy_data ds); [by apply Hreg|].
      clear -Hwf. induction Hwf as [|d ds Hd _ IH]; [done|]. simpl. by rewrite IH, copy_data_wf.
Qed.

(** A region is as large as the segment it is defined for.  A successful
    [as_define_region] adds one region at the end of the list, and the addresses
    whose page it covers are those of the pages that hold a byte of
    [vaddr..vaddr+memsize). *)
Theorem as_define_region_covers (Hkm : KMallocLaws) k as_ ds vaddr memsize r w x k'
  (Hinv : kern_inv k) (Hds : region_list k as_ ds)
  (Hv : 0 ≤ vaddr) (Hm : 0 ≤ memsize) (Hb : vaddr + memsize + 2 * PAGE_SIZE ≤ two32)
  (Hdef : as_define_region as_ vaddr memsize r w x k = Ok (0, k')) :
  ∃ d, region_list k' as_ (ds ++ [d]) ∧ kern_inv k' ∧
    d.2 = Z.lor (Z.lor r w) x ∧
    ∀ a, is_u32 a → data_covers (Z.land a PAGE_FRAME) d = true ↔
      vaddr / PAGE_SIZE * PAGE_SIZE ≤ a < (vaddr + memsize + PAGE_SIZE - 1) / PAGE_SIZE * PAGE_SIZE.
Proof.
  destruct (as_define_region_inv k as_ ds vaddr memsize r w x Hinv Hds)
    as (e & k1 & Hdef' & Hk1 & _ & _ & _ & _ & _ & _ & Hcase).
  rewrite Hdef in Hdef'. injection Hdef' as <- <-.
  destruct Hcase as [[? _]|[_ Hl]]; [done|].
  eexists. split_and!; [exact Hl|done|done|]. intros a Ha.
  rewrite page_align by done. by apply new_region_covers.
Qed.

(** Faults that are refused change nothing: a write to a read-only page and
    any fault without an address space are EFAULT, an unknown fault type is
    EINVAL. *)
Theorem vm_fault_refuses slot ft fva k
  (Hno : ¬ lookup_fault ft ∨ curproc_as k = None ∨ curproc_as k = Some 0) :
  vm_fault slot ft fva k =
    Ok (if decide (ft = VM_FAULT_READONLY ∨ lookup_fault ft) then EFAULT else EINVAL, k).
Proof. by apply vm_fault_refused. Qed.

End properties.

(** ** A running system

    A machine of 16 frames, one process with a region of 40 pages, two of which
    it has touched; the two pages fall into the same bucket. *)

Definition from_ok {A} (d : A) (o : outcome A) : A := match o with Ok a => a | _ => d end.
Definition demo_off : kern := boot_kern (RamState 4096 65536) ∅ (replicate 64 (0, 0)).
Definition demo_as : Z := 2148532224.
Definition demo_va1 : Z := 4194304.
Definition demo_va2 : Z := 4194304 + 32 * 4096.
Definition demo_on : kern := from_ok demo_off (vm_bootstrap demo_mem demo_off).
Definition demo_created : kern := (as_create demo_on).2.
Definition demo_defined : kern :=
  (from_ok (0, demo_off) (as_define_region demo_as demo_va1 (40 * 4096) 4 2 0 demo_created)).2.
Definition demo_active : kern := as_activate (with_curproc (Some demo_as) demo_defined).
Definition demo_touch1 : kern :=
  (from_ok (0, demo_off) (vm_fault 0 VM_FAULT_WRITE demo_va1 demo_active)).2.
Definition demo_touch2 : kern :=
  (from_ok (0, demo_off) (vm_fault 1 VM_FAULT_READ demo_va2 demo_touch1)).2.

Ltac eval_eq := vm_compute; reflexivity.

Lemma demo_defined_eq :
  as_define_region demo_as demo_va1 (40 * 4096) 4 2 0 demo_created = Ok (0, demo_defined).
Proof. eval_eq. Qed.

Lemma demo_touch1_eq : vm_fault 0 VM_FAULT_WRITE demo_va1 demo_active = Ok (0, demo_touch1).
Proof. eval_eq. Qed.

Lemma demo_touch2_eq : vm_fault 1 VM_FAULT_READ demo_va2 demo_touch1 = Ok (0, demo_touch2).
Proof. eval_eq. Qed.

Lemma demo_has_as k : bool_decide (is_Some (aspaces k !! demo_as)) = true → is_Some (aspaces k !! demo_as).
Proof. apply bool_decide_eq_true. Qed.

Lemma demo_reachable : reachable vm_booted vm_step demo_touch2.
Proof.
  assert (reachable vm_booted vm_step demo_on) as H1.
  { apply reach_init. exists (RamState 4096 65536), ∅, (replicate 64 (0, 0)), demo_mem.
    split; [eval_eq|]. split_and!; [simpl; lia..|done]. }
  assert (reachable vm_booted vm_step demo_defined) as H2.
  { apply (reach_step _ _ demo_created).
    - apply (reach_step _ _ demo_on _ H1), (step_create demo_as). eval_eq.
    - apply (step_define demo_as demo_va1 (40 * 4096) 4 2 0 0); [|exact demo_defined_eq].
      apply demo_has_as. eval_eq. }
  assert (reachable vm_booted vm_step demo_active) as H3.
  { apply (reach_step _ _ demo_defined _ H2), step_switch. intros as_ [= <-] _.
    apply demo_has_as. eval_eq. }
  apply (reach_step _ _ demo_touch1).
  - exact (reach_step _ _ _ _ H3 (step_fault _ _ _ _ _ _ demo_touch1_eq)).
  - exact (step_fault _ _ _ _ _ _ demo_touch2_eq).
Qed.

Lemma demo_inv : kern_inv demo_touch2.
Proof. apply sys_inv_reachable, demo_reachable. Qed.

Definition demo_region : Z * Z * Z := (demo_va1, 40, 6).

Lemma demo_aspace : aspaces demo_touch2 !! demo_as = Some (AddrSpace 2148532288 0).
Proof. eval_eq. Qed.

Lemma demo_region_lookup : regions demo_touch2 !! 2148532288 = Some (Region demo_va1 40 6 0).
Proof. eval_eq. Qed.

Lemma demo_region_list : region_list demo_touch2 demo_as [demo_region].
Proof.
  exists [2148532288]. split.
  - exists (AddrSpace 2148532288 0). split; [exact demo_aspace|]. cbn [chain as_regions].
    split; [reflexivity|]. split; [discriminate|].
    exists (Region demo_va1 40 6 0). split; [exact demo_region_lookup|reflexivity].
  - constructor; [|constructor]. by rewrite demo_region_lookup.
Qed.

Lemma demo_curproc : curproc_as demo_touch2 = Some demo_as.
Proof. eval_eq. Qed.

Lemma demo_tlb : take 2 (tlb demo_touch2) = [(demo_va1, 13824); (demo_va2, 17920)].
Proof. eval_eq. Qed.

Lemma demo_tlb_in : (demo_va2, 17920) ∈ tlb demo_touch2.
Proof. rewrite <-(take_drop 2 (tlb demo_touch2)), demo_tlb. apply elem_of_app. left. by right; left. Qed.

Lemma tlb_isolation_witness :
  reachable vm_booted vm_step demo_touch2 ∧ owned (k_phys demo_touch2) (17920 / PAGE_SIZE).
Proof.
  split; [exact demo_reachable|].
  destruct (tlb_isolation arena_kmalloc_laws demo_touch2 demo_reachable demo_as demo_va2 17920
    demo_curproc ltac:(discriminate) demo_tlb_in eq_refl) as (fp & _ & _ & Ho & _).
  exact Ho.
Defined.

Lemma tlb_readonly_witness :
  ∃ fp, vm_view demo_touch2 !! (demo_as, demo_va2) = Some fp ∧ Z.testbit fp 10 = true.
Proof.
  exact (tlb_readonly arena_kmalloc_laws demo_touch2 demo_reachable demo_as _ demo_va2 17920
    demo_curproc ltac:(discriminate) demo_aspace eq_refl demo_tlb_in eq_refl eq_refl).
Defined.


Lemma demo_live as_ : curproc_as demo_touch2 = Some as_ → as_ ≠ 0 → is_Some (aspaces demo_touch2 !! as_).
Proof. rewrite demo_curproc. intros [= <-] _. rewrite demo_aspace. by eexists. Qed.

Lemma vm_fault_spec_witness :
  ∃ e k', vm_fault 2 VM_FAULT_WRITE (demo_va1 + 5000) demo_touch2 = Ok (e, k') ∧
    fault_result 2 VM_FAULT_WRITE (demo_va1 + 5000) demo_touch2 e k'.
Proof.
  destruct (vm_fault_spec arena_kmalloc_laws 2 VM_FAULT_WRITE (demo_va1 + 5000) demo_touch2
    demo_inv demo_live) as (e & k' & Hf & He & _).
  exists e, k'. split; [exact Hf|exact He].
Defined.

Lemma demo_has : is_Some (aspaces demo_touch2 !! demo_as).
Proof. rewrite demo_aspace. by eexists. Qed.

Lemma as_destroy_frees_witness :
  ∃ k', as_destroy demo_as demo_touch2 = Ok k' ∧ ∀ va, vm_view k' !! (demo_as, va) = None.
Proof.
  destruct (as_destroy_frees arena_kmalloc_laws demo_touch2 demo_as demo_inv demo_has)
    as (k' & Hd & _ & _ & Hv & _).
  exists k'. split; [exact Hd|exact Hv].
Defined.

Definition demo_forked : kern := (from_ok (0, None, demo_off) (as_copy demo_as demo_touch2)).2.
Definition demo_child : Z := 2148532480.

Lemma demo_forked_eq : as_copy demo_as demo_touch2 = Ok (0, Some demo_child, demo_forked).
Proof. eval_eq. Qed.

Lemma as_copy_copies_witness :
  as_copy demo_as demo_touch2 = Ok (0, Some demo_child, demo_forked) ∧ kern_inv demo_forked.
Proof.
  split; [exact demo_forked_eq|].
  refine (proj1 (as_copy_copies arena_kmalloc_laws demo_touch2 demo_as [demo_region] 0 (Some demo_child)
    demo_forked demo_inv demo_region_list _ demo_forked_eq)).
  constructor; [|constructor]. unfold region_wf, demo_region, demo_va1, is_u32, two32.
  split_and!; first [lia|reflexivity].
Defined.

Definition demo_more : kern :=
  (from_ok (0, demo_off) (as_define_region demo_as 8388700 5000 4 0 1 demo_touch2)).2.

Lemma demo_more_eq : as_define_region demo_as 8388700 5000 4 0 1 demo_touch2 = Ok (0, demo_more).
Proof. eval_eq. Qed.

Lemma as_define_region_covers_witness :
  ∃ d, region_list demo_more demo_as [demo_region; d] ∧
    (data_covers (Z.land 8393699 PAGE_FRAME) d = true ↔ 8388608 ≤ 8393699 < 8396800).
Proof.
  destruct (as_define_region_covers arena_kmalloc_laws demo_touch2 demo_as [demo_region] 8388700 5000
    4 0 1 demo_more demo_inv demo_region_list ltac:(lia) ltac:(lia) ltac:(unfold PAGE_SIZE, two32; lia)
    demo_more_eq) as (d & Hd & _ & _ & Hc).
  exists d. split; [exact Hd|]. apply Hc. split; [lia|reflexivity].
Defined.

Lemma vm_fault_refuses_witness :
  vm_fault 0 VM_FAULT_READONLY demo_va1 demo_touch2 = Ok (EFAULT, demo_touch2).
Proof.
  refine (vm_fault_refuses 0 VM_FAULT_READONLY demo_va1 demo_touch2 (or_introl _)).
  intros [?|?]; discriminate.
Defined.

(** ** Behaviour that falls short of the intent *)

(** [vm_copy] copies only the first entry of each bucket.  In a reachable
    state whose current process has two pages in one bucket, [as_copy] reports
    success while the child has only one of them; the page it lacks is zero
    filled when the child touches it, whatever the parent had written there. *)
Theorem as_copy_loses_pages :
  ∃ k old new va k', reachable vm_booted vm_step k ∧ as_copy old k = Ok (0, Some new, k') ∧
    is_Some (page_at k (old, va)) ∧ vm_view k' !! (new, va) = None.
Proof.
  exists demo_touch2, demo_as, demo_child, demo_va2, demo_forked.
  split; [exact demo_reachable|]. split; [exact demo_forked_eq|]. split.
  - apply (bool_decide_eq_true (is_Some (page_at demo_touch2 (demo_as, demo_va2)))). eval_eq.
  - eval_eq.
Qed.

(** The process writes to a list of pages. *)
Fixpoint touch (vas : list Z) (k : kern) : outcome kern :=
  match vas with
  | [] => Ok k
  | va :: vas =>
      '(_, k) ← vm_fault 0 VM_FAULT_WRITE va k;
      touch vas k
  end.

Lemma touch_reachable vas k k' :
  reachable vm_booted vm_step k → touch vas k = Ok k' → reachable vm_booted vm_step k'.
Proof.
  revert k. induction vas as [|va vas IH]; intros k Hr Ht; cbn [touch] in Ht; [by injection Ht as <-|].
  destruct (vm_fault 0 VM_FAULT_WRITE va k) as [[e k1]| | |] eqn:E; try done.
  apply (IH k1); [|exact Ht]. eapply reach_step; [exact Hr|]. by eapply step_fault.
Qed.

Definition demo_full : kern :=
  from_ok demo_off (touch (map (λ i, demo_va1 + 4096 * i) (seqZ 1 11)) demo_touch2).

Lemma demo_full_eq : touch (map (λ i, demo_va1 + 4096 * i) (seqZ 1 11)) demo_touch2 = Ok demo_full.
Proof. eval_eq. Qed.

(** [vm_copy] does not test the result of [alloc_kpages].  There is a
    reachable state, all of whose frames are in use, in which copying the
    current address space writes through the address 0. *)
Theorem as_copy_faults_when_full :
  ∃ k old, reachable vm_booted vm_step k ∧ curproc_as k = Some old ∧ as_copy old k = Fault.
Proof.
  exists demo_full, demo_as. split; [exact (touch_reachable _ _ _ demo_reachable demo_full_eq)|].
  split; eval_eq.
Qed.
