(* ===== verification/File.v ===== *)
(** * File system calls of a process

    Models asst2/kern/syscall/file.c and include/file.h: the table of open files
    of the current process, with shared [struct file] objects, reference counts
    and the locks of the table and of the files.

    A process has one thread and its files are not shared with other processes,
    so a lock is free or held by the current thread: taking it twice or
    releasing it when free is the assertion failure of synch.c ([Panic]).  The
    virtual file system below and the user memory are an interface, [Vfs]. *)

From S2P Require Import Prelude.

(** Values of kern/fcntl.h, kern/seek.h and kern/limits.h. *)
Definition O_RDONLY : Z := 0.
Definition O_WRONLY : Z := 1.
Definition O_RDWR : Z := 2.
Definition O_ACCMODE : Z := 3.
Definition O_APPEND : Z := 32.
Definition SEEK_SET : Z := 0.
Definition SEEK_CUR : Z := 1.
Definition SEEK_END : Z := 2.
Definition OPEN_MAX : Z := 128.
Definition PATH_MAX : Z := 1024.

Inductive uio_rw := UIO_READ | UIO_WRITE.

(** The fields of [struct uio] a single-buffer transfer uses. *)
Record uio := Uio {
  iov_ubase : Z;
  uio_offset : Z;
  uio_resid : Z;
  uio_dir : uio_rw
}.

(** The virtual file system and the memory of the process.  [opens w v] is the
    number of opens of the vnode [v] that have not been closed. *)
Class Vfs := {
  world : Type;
  vfs_open : string → Z → Z → world → Z * Z * world;
  vfs_close : Z → world → world;
  VOP_STAT : Z → world → Z * Z * world;
  VOP_ISSEEKABLE : Z → world → bool;
  VOP_READ : Z → uio → world → Z * uio * world;
  VOP_WRITE : Z → uio → world → Z * uio * world;
  copyinstr : Z → Z → world → Z * string;
  opens : world → Z → Z
}.

Class VfsLaws `{Vfs} := {
  vfs_open_laws path flags mode w e v w' :
    vfs_open path flags mode w = (e, v, w') →
    if decide (e = 0) then v ≠ 0 ∧ ∀ u, opens w' u = opens w u + (if decide (u = v) then 1 else 0)
    else ∀ u, opens w' u = opens w u;
  vfs_close_laws v w u :
    opens (vfs_close v w) u = opens w u - (if decide (u = v) then 1 else 0);
  vop_stat_laws v w e size w' :
    VOP_STAT v w = (e, size, w') → 0 ≤ size < two63 ∧ ∀ u, opens w' u = opens w u;
  (** A transfer moves the offset by the number of bytes it transferred. *)
  vop_read_laws v u w e u' w' :
    VOP_READ v u w = (e, u', w') →
    (e = 0 → 0 ≤ uio_resid u' ≤ uio_resid u ∧
       uio_offset u' = uio_offset u + (uio_resid u - uio_resid u') ∧ uio_offset u' < two63) ∧
    ∀ x, opens w' x = opens w x;
  vop_write_laws v u w e u' w' :
    VOP_WRITE v u w = (e, u', w') →
    (e = 0 → 0 ≤ uio_resid u' ≤ uio_resid u ∧
       uio_offset u' = uio_offset u + (uio_resid u - uio_resid u') ∧ uio_offset u' < two63) ∧
    ∀ x, opens w' x = opens w x
}.

Record file := File {
  f_flag : Z;
  f_ref_count : Z;
  f_offset : Z;
  f_vnode : Z;
  f_lock : Z
}.

Section file.
Context `{Vfs}.

(** The heap objects of the file layer, the table of the current process and the
    file system below.  A lock is mapped to whether the thread holds it; [bufs]
    are the path buffers. *)
Record fstate := FState {
  files : gmap Z file;
  locks : gmap Z bool;
  bufs : gset Z;
  opened_files : list Z;
  ft_lock : Z;
  vw : world
}.

End file.

(** The allocator: both calls return [NULL] or the address of no live object. *)
Class FAlloc `{Vfs} := {
  kmalloc : fstate → Z;
  lock_create : fstate → Z
}.

Definition live `{Vfs} (s : fstate) (a : Z) : Prop :=
  is_Some (files s !! a) ∨ is_Some (locks s !! a) ∨ a ∈ bufs s.

Class FAllocLaws `{FAlloc} := {
  kmalloc_fresh s : kmalloc s ≠ 0 → ¬ live s (kmalloc s);
  lock_create_fresh s : lock_create s ≠ 0 → ¬ live s (lock_create s)
}.

Section syscalls.
Context `{FAlloc}.

Definition with_files (fs : gmap Z file) (s : fstate) : fstate :=
  FState fs (locks s) (bufs s) (opened_files s) (ft_lock s) (vw s).
Definition with_locks (ls : gmap Z bool) (s : fstate) : fstate :=
  FState (files s) ls (bufs s) (opened_files s) (ft_lock s) (vw s).
Definition with_bufs (b : gset Z) (s : fstate) : fstate :=
  FState (files s) (locks s) b (opened_files s) (ft_lock s) (vw s).
Definition with_opened (o : list Z) (s : fstate) : fstate :=
  FState (files s) (locks s) (bufs s) o (ft_lock s) (vw s).
Definition with_vw (w : world) (s : fstate) : fstate :=
  FState (files s) (locks s) (bufs s) (opened_files s) (ft_lock s) w.

Definition lock_acquire (l : Z) (s : fstate) : outcome fstate :=
  held ← deref (locks s !! l);
  _ ← kassert (negb held);
  Ok (with_locks (<[l := true]> (locks s)) s).

Definition lock_release (l : Z) (s : fstate) : outcome fstate :=
  held ← deref (locks s !! l);
  _ ← kassert held;
  Ok (with_locks (<[l := false]> (locks s)) s).

Definition lock_destroy (l : Z) (s : fstate) : outcome fstate :=
  held ← deref (locks s !! l);
  _ ← kassert (negb held);
  Ok (with_locks (delete l (locks s)) s).

(** Assignments through a [struct file] pointer. *)
Definition set_offset (p off : Z) (s : fstate) : outcome fstate :=
  f ← deref (files s !! p);
  Ok (with_files (<[p := File (f_flag f) (f_ref_count f) off (f_vnode f) (f_lock f)]> (files s)) s).

Definition set_ref_count (p n : Z) (s : fstate) : outcome fstate :=
  f ← deref (files s !! p);
  Ok (with_files (<[p := File (f_flag f) n (f_offset f) (f_vnode f) (f_lock f)]> (files s)) s).

Definition set_lock (p l : Z) (s : fstate) : outcome fstate :=
  f ← deref (files s !! p);
  Ok (with_files (<[p := File (f_flag f) (f_ref_count f) (f_offset f) (f_vnode f) l]> (files s)) s).

Definition _update_offset_with_filesize (file : Z) (s : fstate) : outcome (Z * fstate) :=
  let f_stat := kmalloc s in
  f ← deref (files s !! file);
  if f_stat =? 0 then Fault
  else
    let '(err, st_size, w) := VOP_STAT (f_vnode f) (vw s) in
    let s := with_vw w s in
    if err =? 0 then
      s ← set_offset file st_size s;
      Ok (0, s)
    else Ok (err, s).

(** The loop of [_sys_open] over the table: the first [NULL] slot. *)
Fixpoint free_slot (t : list Z) (i : Z) : option Z :=
  match t with
  | [] => None
  | p :: t => if p =? 0 then Some i else free_slot t (i + 1)
  end.

(** The calls return the error code, [*ret] and the new state. *)
Definition _sys_open (sys_filename : string) (flags mode : Z) (s : fstate) :
    outcome (Z * Z * fstate) :=
  let '(err, vnode, w) := vfs_open sys_filename flags mode (vw s) in
  let s := with_vw w s in
  if negb (err =? 0) then Ok (err, -1, s)
  else
  let file := kmalloc s in
  if file =? 0 then Ok (ENOMEM, -1, with_vw (vfs_close vnode (vw s)) s)
  else
  let s := with_files (<[file := File flags 1 0 vnode 0]> (files s)) s in
  '(err, s) ←
    (if negb (Z.land flags O_APPEND =? 0)
     then _update_offset_with_filesize file s
     else Ok (0, s));
  if negb (err =? 0) then
    let s := with_vw (vfs_close vnode (vw s)) s in
    Ok (err, -1, with_files (delete file (files s)) s)
  else
  let lk := lock_create s in
  if lk =? 0 then
    let s := with_vw (vfs_close vnode (vw s)) s in
    Ok (ENOMEM, -1, with_files (delete file (files s)) s)
  else
  let s := with_locks (<[lk := false]> (locks s)) s in
  s ← set_lock file lk s;
  s ← lock_acquire (ft_lock s) s;
  let '(ret, s) :=
    match free_slot (opened_files s) 0 with
    | Some i => (i, with_opened (zset (opened_files s) i file) s)
    | None => (-1, s)
    end in
  s ← lock_release (ft_lock s) s;
  if ret =? -1 then
    let s := with_vw (vfs_close vnode (vw s)) s in
    s ← lock_release lk s;
    Ok (EMFILE, ret, with_files (delete file (files s)) s)
  else Ok (0, ret, s).

Definition sys_open (filename flags mode : Z) (s : fstate) : outcome (Z * Z * fstate) :=
  let buf := kmalloc s in
  if buf =? 0 then Ok (ENOMEM, -1, s)
  else
  let s := with_bufs ({[buf]} ∪ bufs s) s in
  let '(err, sys_filename) := copyinstr filename (PATH_MAX - 1) (vw s) in
  if negb (err =? 0) then Ok (err, -1, s)
  else _sys_open sys_filename flags mode s.

(** Looking a descriptor up under the lock of the table. *)
Definition get_file (fd : Z) (s : fstate) : outcome (Z * fstate) :=
  s ← lock_acquire (ft_lock s) s;
  file ← deref (zget (opened_files s) fd);
  s ← lock_release (ft_lock s) s;
  Ok (file, s).

Definition sys_read (fd buf buflen : Z) (s : fstate) : outcome (Z * Z * fstate) :=
  if (fd <? 0) || (OPEN_MAX <=? fd) then Ok (EBADF, -1, s)
  else
  '(file, s) ← get_file fd s;
  if file =? 0 then Ok (EBADF, -1, s)
  else
  f ← deref (files s !! file);
  if Z.land (f_flag f) O_ACCMODE =? O_WRONLY then Ok (EBADF, -1, s)
  else
  s ← lock_acquire (f_lock f) s;
  let u_io := Uio buf (f_offset f) buflen UIO_READ in
  let '(err, u_io, w) := VOP_READ (f_vnode f) u_io (vw s) in
  let s := with_vw w s in
  if negb (err =? 0) then
    s ← lock_release (f_lock f) s;
    Ok (err, -1, s)
  else
    let ret := s32 (uio_offset u_io - f_offset f) in
    s ← set_offset file (uio_offset u_io) s;
    s ← lock_release (f_lock f) s;
    Ok (0, ret, s).

Definition sys_write (fd buf nbytes : Z) (s : fstate) : outcome (Z * Z * fstate) :=
  if (fd <? 0) || (OPEN_MAX <=? fd) then Ok (EBADF, -1, s)
  else
  '(file, s) ← get_file fd s;
  if file =? 0 then Ok (EBADF, -1, s)
  else
  f ← deref (files s !! file);
  if Z.land (f_flag f) O_ACCMODE =? O_RDONLY then Ok (EBADF, -1, s)
  else
  s ← lock_acquire (f_lock f) s;
  let u_io := Uio buf (f_offset f) nbytes UIO_WRITE in
  let '(err, u_io, w) := VOP_WRITE (f_vnode f) u_io (vw s) in
  let s := with_vw w s in
  if negb (err =? 0) then
    s ← lock_release (f_lock f) s;
    Ok (err, -1, s)
  else
    let ret := s32 (uio_offset u_io - f_offset f) in
    s ← set_offset file (uio_offset u_io) s;
    s ← lock_release (f_lock f) s;
    Ok (0, ret, s).

(** [f_offset += pos] of [sys_lseek], refused when negative. *)
Definition seek_by (file pos : Z) (s : fstate) : outcome (Z * Z * fstate) :=
  f ← deref (files s !! file);
  let off := s64 (f_offset f + pos) in
  if off <? 0 then Ok (EINVAL, -1, s)
  else
    s ← set_offset file off s;
    Ok (0, off, s).

Definition sys_lseek (fd pos whence : Z) (s : fstate) : outcome (Z * Z * fstate) :=
  if (fd <? 0) || (OPEN_MAX <=? fd) then Ok (EBADF, -1, s)
  else if negb ((whence =? SEEK_SET) || (whence =? SEEK_CUR) || (whence =? SEEK_END))
  then Ok (EINVAL, -1, s)
  else
  '(file, s) ← get_file fd s;
  if file =? 0 then Ok (EBADF, -1, s)
  else
  f ← deref (files s !! file);
  s ← lock_acquire (f_lock f) s;
  '(err, ret, s) ←
    (if VOP_ISSEEKABLE (f_vnode f) (vw s) then
       if whence =? SEEK_SET then
         if pos <? 0 then Ok (EINVAL, -1, s)
         else
           s ← set_offset file pos s;
           Ok (0, pos, s)
       else if whence =? SEEK_CUR then seek_by file pos s
       else
         '(err, s) ← _update_offset_with_filesize file s;
         if err =? 0 then seek_by file pos s else Ok (err, -1, s)
     else Ok (ESPIPE, -1, s));
  s ← lock_release (f_lock f) s;
  Ok (err, ret, s).

Definition sys_close (fd : Z) (s : fstate) : outcome (Z * Z * fstate) :=
  if (fd <? 0) || (OPEN_MAX <=? fd) then Ok (EBADF, -1, s)
  else
  s ← lock_acquire (ft_lock s) s;
  file ← deref (zget (opened_files s) fd);
  '(err, ret, s) ←
    (if negb (file =? 0) then
       f ← deref (files s !! file);
       s ← lock_acquire (f_lock f) s;
       s ←
         (if f_ref_count f =? 1 then
            let s := with_vw (vfs_close (f_vnode f) (vw s)) s in
            s ← lock_release (f_lock f) s;
            s ← lock_destroy (f_lock f) s;
            Ok (with_files (delete file (files s)) s)
          else
            s ← set_ref_count file (f_ref_count f - 1) s;
            lock_release (f_lock f) s);
       o ← zput (opened_files s) fd 0;
       Ok (0, 0, with_opened o s)
     else Ok (EBADF, -1, s));
  s ← lock_release (ft_lock s) s;
  Ok (err, ret, s).

Definition sys_dup2 (oldfd newfd : Z) (s : fstate) : outcome (Z * Z * fstate) :=
  if (oldfd <? 0) || (OPEN_MAX <=? oldfd) || (newfd <? 0) || (OPEN_MAX <=? newfd)
  then Ok (EBADF, -1, s)
  else
  s ← lock_acquire (ft_lock s) s;
  file ← deref (zget (opened_files s) oldfd);
  '(err, ret, s) ←
    (if negb (file =? 0) then
       if oldfd =? newfd then Ok (0, newfd, s)
       else
         new_file ← deref (zget (opened_files s) newfd);
         '(err, ret, s) ← (if negb (new_file =? 0) then sys_close newfd s else Ok (0, -1, s));
         if err =? 0 then
           f ← deref (files s !! file);
           s ← lock_acquire (f_lock f) s;
           s ← set_ref_count file (f_ref_count f + 1) s;
           s ← lock_release (f_lock f) s;
           o ← zput (opened_files s) newfd file;
           Ok (0, newfd, with_opened o s)
         else Ok (err, ret, s)
     else Ok (EBADF, -1, s));
  s ← lock_release (ft_lock s) s;
  Ok (err, ret, s).

(** The loop of [init_process_file_table] that opens the console, [n] times. *)
Fixpoint open_console (n : nat) (s : fstate) : outcome (Z * fstate) :=
  match n with
  | O => Ok (0, s)
  | S n =>
      '(err, _, s) ← _sys_open "con:" O_RDWR 0 s;
      if negb (err =? 0) then Ok (err, s) else open_console n s
  end.

(** [s] is the state before the process has a table; the table itself is part of
    the new state. *)
Definition init_process_file_table (s : fstate) : outcome (Z * fstate) :=
  let f_table := kmalloc s in
  if f_table =? 0 then Ok (ENOMEM, s)
  else
    let s := with_bufs ({[f_table]} ∪ bufs s) (with_opened (replicate 128 0) s) in
    let lk := lock_create s in
    if lk =? 0 then Ok (ENOMEM, with_bufs (bufs s ∖ {[f_table]}) s)
    else
      let s := FState (files s) (<[lk := false]> (locks s)) (bufs s) (opened_files s) lk (vw s) in
      open_console 3 s.

End syscalls.

(** ** Invariant *)

(** The file [f] with another offset or reference count. *)
Definition file_offset (off : Z) (f : file) : file :=
  File (f_flag f) (f_ref_count f) off (f_vnode f) (f_lock f).
Definition file_refs (n : Z) (f : file) : file :=
  File (f_flag f) n (f_offset f) (f_vnode f) (f_lock f).

(** Number of file objects that have the vnode [v] open. *)
Definition file_opens (fs : gmap Z file) (v : Z) : Z :=
  Z.of_nat (size (filter (λ pf, f_vnode pf.2 = v) fs)).

(** Number of descriptors that refer to the file object [p]. *)
Definition refs (p : Z) (t : list Z) : Z := Z.of_nat (cnt (λ q, q =? p) t).

Section invariant.
Context `{Vfs}.

(** Between two calls no lock is held; each file object is referenced by exactly
    [f_ref_count] descriptors and has a lock of its own; and every open of a
    vnode beyond the [base] opens of the rest of the kernel belongs to a file
    object. *)
Record fd_inv (base : Z → Z) (s : fstate) : Prop := {
  fi_len : zlen (opened_files s) = OPEN_MAX;
  fi_ft : locks s !! ft_lock s = Some false;
  fi_fd fd p : zget (opened_files s) fd = Some p → p ≠ 0 → is_Some (files s !! p);
  fi_file p f : files s !! p = Some f →
    p ≠ 0 ∧ f_ref_count f = refs p (opened_files s) ∧ 1 ≤ f_ref_count f ∧
    locks s !! f_lock f = Some false ∧ f_lock f ≠ ft_lock s ∧ 0 ≤ f_offset f < two63;
  fi_locks p q f g : files s !! p = Some f → files s !! q = Some g → f_lock f = f_lock g → p = q;
  fi_opens v : opens (vw s) v = base v + file_opens (files s) v
}.

End invariant.

Lemma refs_zset p t i x y :
  zget t i = Some x → refs p (zset t i y) = refs p t - Z.b2z (x =? p) + Z.b2z (y =? p).
Proof.
  intros Hx. pose proof (cnt_zset (λ q, q =? p) t i x y Hx) as Hc. unfold refs. simpl in Hc.
  destruct (x =? p), (y =? p); simpl in *; lia.
Qed.

Lemma refs_two p t i j :
  zget t i = Some p → zget t j = Some p → i ≠ j → 2 ≤ refs p t.
Proof.
  unfold zget, refs. intros Hi Hj Hne. repeat case_decide; try done.
  pose proof (cnt_two (λ q, q =? p) t (Z.to_nat i) (Z.to_nat j) p p ltac:(lia)
    Hi Hj (Z.eqb_refl p) (Z.eqb_refl p)). lia.
Qed.

Lemma refs_zero p t : refs p t = 0 ↔ ∀ i, zget t i ≠ Some p.
Proof.
  unfold refs, zget. trans (cnt (λ q, q =? p) t = 0%nat); [lia|]. rewrite cnt_zero. split.
  - intros Hc i Hi. case_decide; [|done]. apply Hc in Hi. lia.
  - intros Hz i x Hi. apply Z.eqb_neq. intros ->. apply (Hz (Z.of_nat i)).
    by rewrite decide_True, Nat2Z.id by lia.
Qed.

Lemma file_opens_insert fs p f v :
  fs !! p = None →
  file_opens (<[p := f]> fs) v = file_opens fs v + (if decide (v = f_vnode f) then 1 else 0).
Proof.
  intros Hp. unfold file_opens. case_decide as Hv.
  - rewrite map_filter_insert_True by done. rewrite map_size_insert_None; [lia|].
    apply map_lookup_filter_None. by left.
  - rewrite map_filter_insert_False by (simpl; congruence).
    rewrite delete_id by done. lia.
Qed.

Lemma file_opens_delete fs p f v :
  fs !! p = Some f →
  file_opens (delete p fs) v = file_opens fs v - (if decide (v = f_vnode f) then 1 else 0).
Proof.
  intros Hp. rewrite <-(insert_delete_id fs p f Hp) at 2.
  rewrite file_opens_insert by apply lookup_delete_eq. lia.
Qed.

Lemma file_opens_update fs p f g v :
  fs !! p = Some f → f_vnode g = f_vnode f → file_opens (<[p := g]> fs) v = file_opens fs v.
Proof.
  intros Hp Hv. rewrite <-insert_delete_eq, file_opens_insert by apply lookup_delete_eq.
  rewrite (file_opens_delete _ _ f) by done. rewrite Hv. lia.
Qed.

(** The slot found is the first [NULL] one. *)
Lemma free_slot_spec t j i :
  free_slot t j = Some i ↔
  j ≤ i < j + zlen t ∧ zget t (i - j) = Some 0 ∧ ∀ k, 0 ≤ k < i - j → zget t k ≠ Some 0.
Proof.
  revert j. induction t as [|p t IH]; intros j; simpl.
  { split; [done|]. unfold zlen. simpl. lia. }
  assert (∀ k, 0 < k → zget (p :: t) k = zget t (k - 1)) as Hcons.
  { intros k Hk. unfold zget. rewrite !decide_True by lia.
    replace (Z.to_nat k) with (S (Z.to_nat (k - 1))) by lia. done. }
  assert (zlen (p :: t) = zlen t + 1) as Hlen by (unfold zlen; simpl; lia).
  assert (zget (p :: t) 0 = Some p) as H0 by done. pose proof (zlen_nonneg t).
  destruct (Z.eqb_spec p 0) as [->|Hp].
  - split.
    + intros [= <-]. rewrite Z.sub_diag. split_and!; [lia..|done|lia].
    + intros (Hr & Hz & Hmin). f_equal. destruct (decide (i = j)); [done|].
      by destruct (Hmin 0); [lia|].
  - rewrite IH. split.
    + intros (Hr & Hz & Hmin). split_and!; [lia..| |].
      * rewrite Hcons by lia. by replace (i - j - 1) with (i - (j + 1)) by lia.
      * intros k Hk. destruct (decide (k = 0)) as [->|]; [rewrite H0; congruence|].
        rewrite Hcons by lia. apply Hmin. lia.
    + intros (Hr & Hz & Hmin).
      assert (i ≠ j) by (intros ->; rewrite Z.sub_diag, H0 in Hz; congruence).
      rewrite Hcons in Hz by lia. split_and!; [lia..| |].
      * by replace (i - (j + 1)) with (i - j - 1) by lia.
      * intros k Hk Hz'. apply (Hmin (k + 1)); [lia|]. rewrite Hcons by lia.
        by replace (k + 1 - 1) with k by lia.
Qed.

Lemma free_slot_ge t j i : free_slot t j = Some i → j ≤ i.
Proof. intros Hf%free_slot_spec. lia. Qed.

Lemma free_slot_None t j : free_slot t j = None ↔ ∀ k, zget t k ≠ Some 0.
Proof.
  revert j. induction t as [|p t IH]; intros j; simpl.
  { split; [|done]. intros _ k. unfold zget. by case_decide. }
  assert (∀ k, 0 ≤ k → zget (p :: t) (k + 1) = zget t k) as Hcons.
  { intros k Hk. unfold zget. rewrite !decide_True by lia.
    replace (Z.to_nat (k + 1)) with (S (Z.to_nat k)) by lia. done. }
  destruct (Z.eqb_spec p 0) as [->|Hp].
  - split; [done|]. intros Hn. by destruct (Hn 0).
  - rewrite IH. split; intros Hn k Hk.
    + pose proof (zget_Some_range _ _ _ Hk). destruct (decide (k = 0)) as [->|].
      * unfold zget in Hk. simpl in Hk. congruence.
      * apply (Hn (k - 1)). rewrite <-Hcons by lia. by replace (k - 1 + 1) with k by lia.
    + pose proof (zget_Some_range _ _ _ Hk). apply (Hn (k + 1)). by rewrite Hcons by lia.
Qed.

Section fd.
Context `{FAllocLaws}.
Implicit Types (s : fstate) (base : Z → Z).

(** *** Locks *)

Lemma acquire_ok l s :
  locks s !! l = Some false → lock_acquire l s = Ok (with_locks (<[l := true]> (locks s)) s).
Proof. unfold lock_acquire. by intros ->. Qed.

Lemma release_ok l s :
  locks s !! l = Some true → lock_release l s = Ok (with_locks (<[l := false]> (locks s)) s).
Proof. unfold lock_release. by intros ->. Qed.

Lemma locks_restore l (ls : gmap Z bool) :
  ls !! l = Some false → <[l := false]> (<[l := true]> ls) = ls.
Proof. intros Hl. by rewrite insert_insert_eq, insert_id. Qed.

(** The end of a critical section. *)
Lemma release_after l (ls : gmap Z bool) s :
  ls !! l = Some false → locks s = <[l := true]> ls → lock_release l s = Ok (with_locks ls s).
Proof.
  intros Hl Hs. rewrite release_ok by (rewrite Hs; apply lookup_insert_eq).
  by rewrite Hs, locks_restore.
Qed.

Lemma fd_in_table base s fd :
  fd_inv base s → 0 ≤ fd < OPEN_MAX → is_Some (zget (opened_files s) fd).
Proof. intros Hinv Hfd. apply zget_range. by rewrite (fi_len _ _ Hinv). Qed.

Lemma get_file_spec base s fd p :
  fd_inv base s → zget (opened_files s) fd = Some p → get_file fd s = Ok (p, s).
Proof.
  intros Hinv Hp. unfold get_file. rewrite acquire_ok by apply Hinv. simpl. rewrite Hp. simpl.
  rewrite release_ok by apply lookup_insert_eq. simpl. unfold with_locks. simpl.
  rewrite locks_restore by apply Hinv. by destruct s.
Qed.

Lemma fd_range base s fd p : fd_inv base s → zget (opened_files s) fd = Some p → 0 ≤ fd < OPEN_MAX.
Proof. intros Hinv ?%zget_Some_range. by rewrite (fi_len _ _ Hinv) in *. Qed.

Lemma fd_in_range fd : 0 ≤ fd < OPEN_MAX → ((fd <? 0) || (OPEN_MAX <=? fd)) = false.
Proof. intros. apply orb_false_iff. rewrite Z.ltb_ge, Z.leb_gt. lia. Qed.

(** *** Invariant of the elementary changes *)

Lemma fd_inv_world base s w :
  fd_inv base s → (∀ v, opens w v = opens (vw s) v) → fd_inv base (with_vw w s).
Proof. intros [] Hw. split; try done. simpl. intros v. by rewrite Hw. Qed.

Lemma fd_inv_update base s p f g :
  fd_inv base s → files s !! p = Some f →
  f_ref_count g = f_ref_count f → f_vnode g = f_vnode f → f_lock g = f_lock f → 0 ≤ f_offset g < two63 →
  fd_inv base (with_files (<[p := g]> (files s)) s).
Proof.
  intros [Hlen Hft Hfd Hfile Hlk Hop] Hp Hr Hv Hl Hoff. split; simpl; try done.
  - intros fd q Hq Hn. rewrite lookup_insert. case_decide; [eauto|]. by eapply Hfd.
  - intros q f'. rewrite lookup_insert. case_decide; [|by apply Hfile].
    intros [= <-]. subst q. rewrite Hr, Hl. destruct (Hfile _ _ Hp) as (?&?&?&?&?&?). done.
  - intros q r f1 f2. rewrite !lookup_insert. repeat case_decide; subst; try done;
      intros; simplify_eq; rewrite ?Hl in *; eauto.
  - intros v. by rewrite (file_opens_update _ _ f).
Qed.

(** *** The calls as functions of the file behind the descriptor *)

Definition fd_file s (fd : Z) : option (Z * file) :=
  p ← zget (opened_files s) fd;
  if p =? 0 then None
  else f ← files s !! p; Some (p, f).

(** The result of a transfer whose vnode operation returned [r]. *)
Definition transfer (p : Z) (f : file) (r : Z * uio * world) s : Z * Z * fstate :=
  let '(e, u, w) := r in
  if e =? 0 then
    (0, s32 (uio_offset u - f_offset f),
     with_vw w (with_files (<[p := file_offset (uio_offset u) f]> (files s)) s))
  else (e, -1, with_vw w s).

Lemma fd_file_Some s fd p f :
  fd_file s fd = Some (p, f) ↔ zget (opened_files s) fd = Some p ∧ p ≠ 0 ∧ files s !! p = Some f.
Proof.
  unfold fd_file. destruct (zget (opened_files s) fd) as [q|]; simpl; [|naive_solver].
  destruct (Z.eqb_spec q 0); [naive_solver|]. destruct (files s !! q) eqn:E; simpl; naive_solver.
Qed.

(** The three ways a call can start. *)
Lemma fd_cases base s fd :
  fd_inv base s →
  (((fd <? 0) || (OPEN_MAX <=? fd)) = true ∧ fd_file s fd = None) ∨
  (((fd <? 0) || (OPEN_MAX <=? fd)) = false ∧ get_file fd s = Ok (0, s) ∧
   zget (opened_files s) fd = Some 0 ∧ fd_file s fd = None) ∨
  (∃ p f, ((fd <? 0) || (OPEN_MAX <=? fd)) = false ∧ get_file fd s = Ok (p, s) ∧
   zget (opened_files s) fd = Some p ∧ (p =? 0) = false ∧
   files s !! p = Some f ∧ fd_file s fd = Some (p, f)).
Proof.
  intros Hinv. destruct ((fd <? 0) || (OPEN_MAX <=? fd)) eqn:E.
  { left. split; [done|]. unfold fd_file. rewrite (proj2 (zget_None _ _)); [done|].
    rewrite (fi_len _ _ Hinv). apply orb_true_iff in E. rewrite Z.ltb_lt, Z.leb_le in E. done. }
  right. apply orb_false_iff in E as [E1 E2]. rewrite Z.ltb_ge in E1. rewrite Z.leb_gt in E2.
  destruct (fd_in_table _ _ fd Hinv) as [p Hp]; [lia|].
  pose proof (get_file_spec _ _ _ _ Hinv Hp) as Hg.
  destruct (Z.eqb_spec p 0) as [->|Hn].
  - left. split_and!; try done. unfold fd_file. by rewrite Hp.
  - right. destruct (fi_fd _ _ Hinv _ _ Hp Hn) as [f Hf]. exists p, f.
    split_and!; try done; [by apply Z.eqb_neq|]. by apply fd_file_Some.
Qed.

Lemma sys_read_spec base s fd buf n :
  fd_inv base s →
  sys_read fd buf n s = Ok
    match fd_file s fd with
    | None => (EBADF, -1, s)
    | Some (p, f) =>
        if Z.land (f_flag f) O_ACCMODE =? O_WRONLY then (EBADF, -1, s)
        else transfer p f (VOP_READ (f_vnode f) (Uio buf (f_offset f) n UIO_READ) (vw s)) s
    end.
Proof.
  intros Hinv. unfold sys_read.
  destruct (fd_cases _ _ fd Hinv)
    as [[-> ->]|[(-> & Hg & _ & ->)|(p & f & -> & Hg & Hp & Hn & Hf & ->)]]; [done| |];
    rewrite Hg; simpl; [done|]. rewrite Hn, Hf. simpl. case_match; [done|].
  destruct (fi_file _ _ Hinv _ _ Hf) as (_ & _ & _ & Hl & _).
  rewrite acquire_ok by done. simpl. unfold transfer.
  destruct (VOP_READ _ _ _) as [[e u] w]. destruct (e =? 0); simpl.
  - unfold set_offset. simpl. rewrite Hf. simpl.
    by rewrite (release_after _ (locks s)).
  - by rewrite (release_after _ (locks s)).
Qed.

Lemma sys_write_spec base s fd buf n :
  fd_inv base s →
  sys_write fd buf n s = Ok
    match fd_file s fd with
    | None => (EBADF, -1, s)
    | Some (p, f) =>
        if Z.land (f_flag f) O_ACCMODE =? O_RDONLY then (EBADF, -1, s)
        else transfer p f (VOP_WRITE (f_vnode f) (Uio buf (f_offset f) n UIO_WRITE) (vw s)) s
    end.
Proof.
  intros Hinv. unfold sys_write.
  destruct (fd_cases _ _ fd Hinv)
    as [[-> ->]|[(-> & Hg & _ & ->)|(p & f & -> & Hg & Hp & Hn & Hf & ->)]]; [done| |];
    rewrite Hg; simpl; [done|]. rewrite Hn, Hf. simpl. case_match; [done|].
  destruct (fi_file _ _ Hinv _ _ Hf) as (_ & _ & _ & Hl & _).
  rewrite acquire_ok by done. simpl. unfold transfer.
  destruct (VOP_WRITE _ _ _) as [[e u] w]. destruct (e =? 0); simpl.
  - unfold set_offset. simpl. rewrite Hf. simpl.
    by rewrite (release_after _ (locks s)).
  - by rewrite (release_after _ (locks s)).
Qed.

(** Where a seek that starts from [from] ends. *)
Definition seek_to (p : Z) (f : file) (from pos : Z) s : Z * Z * fstate :=
  let off := s64 (from + pos) in
  if off <? 0 then (EINVAL, -1, s)
  else (0, off, with_files (<[p := file_offset off f]> (files s)) s).

(** The end of the file becomes the offset before the new one is checked. *)
Definition seek_end (p : Z) (f : file) (pos : Z) s : Z * Z * fstate :=
  let '(e, size, w) := VOP_STAT (f_vnode f) (vw s) in
  if e =? 0 then
    seek_to p (file_offset size f) size pos
      (with_vw w (with_files (<[p := file_offset size f]> (files s)) s))
  else (e, -1, with_vw w s).

Definition seek (p : Z) (f : file) (pos whence : Z) s : Z * Z * fstate :=
  if negb (VOP_ISSEEKABLE (f_vnode f) (vw s)) then (ESPIPE, -1, s)
  else if whence =? SEEK_SET then
    if pos <? 0 then (EINVAL, -1, s)
    else (0, pos, with_files (<[p := file_offset pos f]> (files s)) s)
  else if whence =? SEEK_CUR then seek_to p f (f_offset f) pos s
  else seek_end p f pos s.

Lemma sys_lseek_spec base s fd pos whence :
  fd_inv base s → 0 ≤ whence ≤ 2 →
  sys_lseek fd pos whence s = Ok
    match fd_file s fd with
    | None => (EBADF, -1, s)
    | Some (p, f) => seek p f pos whence s
    end ∨
  whence = SEEK_END ∧ sys_lseek fd pos whence s = Fault ∧ is_Some (fd_file s fd) ∧ ∃ s', kmalloc s' = 0.
Proof.
  intros Hinv Hwh. unfold sys_lseek.
  destruct (fd_cases _ _ fd Hinv)
    as [[-> ->]|[(-> & Hg & _ & ->)|(p & f & -> & Hg & Hp & Hn & Hf & ->)]]; [by left| |];
    replace (negb ((whence =? SEEK_SET) || (whence =? SEEK_CUR) || (whence =? SEEK_END))) with false
      by (assert (whence = 0 ∨ whence = 1 ∨ whence = 2) as [->|[->| ->]] by lia; done);
    rewrite Hg; simpl; [by left|]. rewrite Hn, Hf. simpl.
  destruct (fi_file _ _ Hinv _ _ Hf) as (_ & _ & _ & Hl & _).
  rewrite acquire_ok by done. simpl. unfold seek.
  destruct (VOP_ISSEEKABLE (f_vnode f) (vw s)) eqn:Hseek; simpl;
    [|left; by rewrite (release_after _ (locks s)); [destruct s|..]].
  destruct (Z.eqb_spec whence SEEK_SET) as [|Hw0].
  { left. destruct (pos <? 0); simpl; [by rewrite (release_after _ (locks s)); [destruct s|..]|].
    unfold set_offset. simpl. rewrite Hf. simpl. by rewrite (release_after _ (locks s)). }
  unfold seek_by. destruct (Z.eqb_spec whence SEEK_CUR) as [|Hw1].
  { left. simpl. rewrite Hf. simpl. unfold seek_to.
    destruct (s64 (f_offset f + pos) <? 0); simpl;
      [by rewrite (release_after _ (locks s)); [destruct s|..]|].
    unfold set_offset. simpl. rewrite Hf. simpl. by rewrite (release_after _ (locks s)). }
  unfold _update_offset_with_filesize. simpl. rewrite Hf. simpl.
  destruct (Z.eqb_spec (kmalloc (with_locks (<[f_lock f:=true]> (locks s)) s)) 0) as [Hk|Hk].
  { right. split_and!; [unfold SEEK_SET, SEEK_CUR, SEEK_END in *; lia|done|eauto|eauto]. }
  left. unfold seek_end, seek_to. destruct (VOP_STAT (f_vnode f) (vw s)) as [[e size] w].
  destruct (e =? 0) eqn:He; simpl; [|rewrite He; simpl; by rewrite (release_after _ (locks s))].
  unfold set_offset. simpl. rewrite Hf. simpl. rewrite lookup_insert_eq. simpl.
  destruct (s64 (size + pos) <? 0); simpl; [by rewrite (release_after _ (locks s))|].
  by rewrite (release_after _ (locks s)).
Qed.

(** The state after descriptor [fd] of the file object [p] is closed. *)
Definition close_fd (fd p : Z) (f : file) s : fstate :=
  if f_ref_count f =? 1 then
    FState (delete p (files s)) (delete (f_lock f) (locks s)) (bufs s)
      (zset (opened_files s) fd 0) (ft_lock s) (vfs_close (f_vnode f) (vw s))
  else
    with_opened (zset (opened_files s) fd 0)
      (with_files (<[p := file_refs (f_ref_count f - 1) f]> (files s)) s).

Lemma sys_close_spec base s fd :
  fd_inv base s →
  sys_close fd s = Ok
    match fd_file s fd with
    | None => (EBADF, -1, s)
    | Some (p, f) => (0, 0, close_fd fd p f s)
    end.
Proof.
  intros Hinv. unfold sys_close. pose proof (fi_ft _ _ Hinv) as Hft.
  destruct (fd_cases _ _ fd Hinv)
    as [[-> ->]|[(-> & _ & Hp & ->)|(p & f & -> & _ & Hp & Hn & Hf & ->)]]; [done| |];
    rewrite acquire_ok by done; simpl; rewrite Hp; simpl.
  { rewrite (release_after _ (locks s)) by done. by destruct s. }
  rewrite Hn, Hf. simpl.
  destruct (fi_file _ _ Hinv _ _ Hf) as (_ & _ & _ & Hl & Hne & _).
  rewrite acquire_ok by (simpl; by rewrite lookup_insert_ne). simpl.
  assert (<[ft_lock s:=true]> (locks s) !! f_lock f = Some false) as Hl'
    by (by rewrite lookup_insert_ne).
  assert (∀ s', opened_files s' = opened_files s → zput (opened_files s') fd 0 = Ok (zset (opened_files s) fd 0)) as Hput.
  { intros s' ->. apply zput_Ok. split; [|done]. by apply zget_Some_range in Hp. }
  unfold close_fd. destruct (f_ref_count f =? 1); simpl.
  - rewrite (release_after _ (<[ft_lock s:=true]> (locks s))) by done. simpl.
    unfold lock_destroy. simpl. rewrite Hl'. simpl. rewrite (Hput _ eq_refl). simpl.
    rewrite (release_after _ (delete (f_lock f) (locks s))); [done| |].
    + by rewrite lookup_delete_ne.
    + simpl. by rewrite delete_insert_ne.
  - unfold set_ref_count. simpl. rewrite Hf. simpl.
    rewrite (release_after _ (<[ft_lock s:=true]> (locks s))) by done. simpl.
    rewrite (Hput _ eq_refl). simpl. by rewrite (release_after _ (locks s)).
Qed.

Lemma sys_dup2_spec base s oldfd newfd p f :
  fd_inv base s → fd_file s oldfd = Some (p, f) → 0 ≤ newfd < OPEN_MAX →
  sys_dup2 oldfd newfd s =
    if oldfd =? newfd then Ok (0, newfd, s)
    else match fd_file s newfd with
      | Some _ => Panic
      | None => Ok (0, newfd, with_opened (zset (opened_files s) newfd p)
                      (with_files (<[p := file_refs (f_ref_count f + 1) f]> (files s)) s))
      end.
Proof.
  intros Hinv Hold Hnew. pose proof (fi_ft _ _ Hinv) as Hft.
  apply fd_file_Some in Hold as (Hp & Hn & Hf). pose proof (fd_range _ _ _ _ Hinv Hp) as Hrange.
  unfold sys_dup2. rewrite (fd_in_range oldfd), orb_false_l, (fd_in_range newfd) by done.
  rewrite acquire_ok by done. simpl. rewrite Hp. simpl. rewrite (proj2 (Z.eqb_neq _ _) Hn). simpl.
  destruct (oldfd =? newfd); simpl.
  { rewrite (release_after _ (locks s)) by done. by destruct s. }
  destruct (fi_file _ _ Hinv _ _ Hf) as (_ & _ & _ & Hl & Hne & _).
  destruct (fd_cases _ _ newfd Hinv)
    as [[Hbad _]|[(_ & _ & Hq & ->)|(q & g & _ & _ & Hq & Hqn & Hg & ->)]].
  - by rewrite fd_in_range in Hbad.
  - rewrite Hq. simpl. rewrite Hf. simpl.
    rewrite acquire_ok by (simpl; by rewrite lookup_insert_ne). simpl.
    unfold set_ref_count. simpl. rewrite Hf. simpl.
    rewrite (release_after _ (<[ft_lock s:=true]> (locks s))) by (simpl; by rewrite ?lookup_insert_ne).
    simpl. rewrite (proj2 (zput_Ok _ _ _ (zset (opened_files s) newfd p))).
    + simpl. by rewrite (release_after _ (locks s)).
    + split; [|done]. by apply zget_Some_range in Hq.
  - rewrite Hq. simpl. rewrite Hqn. simpl. unfold sys_close. rewrite fd_in_range by done.
    unfold lock_acquire. simpl. by rewrite lookup_insert_eq.
Qed.

(** What an open may do. *)
Inductive open_effect (path : string) (flags mode : Z) s : outcome (Z * Z * fstate) → Prop :=
| open_refused e w' :
    e ≠ 0 → (∀ v, opens w' v = opens (vw s) v) →
    open_effect path flags mode s (Ok (e, -1, with_vw w' s))
| open_done v w p lk off w' i :
    vfs_open path flags mode (vw s) = (0, v, w) →
    (if Z.land flags O_APPEND =? 0 then off = 0 ∧ w' = w else VOP_STAT v w = (0, off, w')) →
    p ≠ 0 → files s !! p = None → locks s !! lk = None → free_slot (opened_files s) 0 = Some i →
    open_effect path flags mode s
      (Ok (0, i, FState (<[p := File flags 1 off v lk]> (files s)) (<[lk := false]> (locks s))
                   (bufs s) (zset (opened_files s) i p) (ft_lock s) w'))
| open_full :
    free_slot (opened_files s) 0 = None → open_effect path flags mode s Panic
| open_no_stat s' :
    Z.land flags O_APPEND ≠ 0 → kmalloc s' = 0 → open_effect path flags mode s Fault.

Lemma open_refused_file path flags mode s e p g w w' :
  e ≠ 0 → files s !! p = None → (∀ v, opens w' v = opens (vw s) v) →
  open_effect path flags mode s
    (Ok (e, -1, with_files (delete p (<[p := g]> (files s))) (with_vw w' (with_vw w s)))).
Proof.
  intros He Hp Hw. rewrite delete_insert_id by done.
  exact (open_refused path flags mode s e w' He Hw).
Qed.

Context `{!VfsLaws}.

Lemma reclose v w w1 w2 :
  (∀ u, opens w1 u = opens w u + (if decide (u = v) then 1 else 0)) →
  (∀ u, opens w2 u = opens w1 u) →
  ∀ u, opens (vfs_close v w2) u = opens w u.
Proof. intros H1' H2' u. rewrite vfs_close_laws, H2', H1'. lia. Qed.

(** The end of [_sys_open], once the file object [p] has its offset. *)
Lemma open_finish path flags mode base s v w p off w' :
  fd_inv base s → vfs_open path flags mode (vw s) = (0, v, w) →
  (if Z.land flags O_APPEND =? 0 then off = 0 ∧ w' = w else VOP_STAT v w = (0, off, w')) →
  p ≠ 0 → files s !! p = None →
  (∀ u, opens (vfs_close v w') u = opens (vw s) u) →
  let s1 := with_vw w' (with_files (<[p := File flags 1 off v 0]> (files s)) s) in
  let lk := lock_create s1 in
  open_effect path flags mode s
    (if lk =? 0 then
       let s := with_vw (vfs_close v (vw s1)) s1 in
       Ok (ENOMEM, -1, with_files (delete p (files s)) s)
     else
       let s := with_locks (<[lk := false]> (locks s1)) s1 in
       s ← set_lock p lk s;
       s ← lock_acquire (ft_lock s) s;
       let '(ret, s) :=
         match free_slot (opened_files s) 0 with
         | Some i => (i, with_opened (zset (opened_files s) i p) s)
         | None => (-1, s)
         end in
       s ← lock_release (ft_lock s) s;
       if ret =? -1 then
         let s := with_vw (vfs_close v (vw s)) s in
         s ← lock_release lk s;
         Ok (EMFILE, ret, with_files (delete p (files s)) s)
       else Ok (0, ret, s)).
Proof.
  intros Hinv Hopen Hoff Hp Hnone Hclose s1 lk. pose proof (fi_ft _ _ Hinv) as Hft.
  destruct (Z.eqb_spec lk 0) as [|Hlk].
  { exact (open_refused_file path flags mode s ENOMEM p _ w' (vfs_close v w') ltac:(done) Hnone Hclose). }
  assert (locks s !! lk = None) as Hlkn.
  { apply eq_None_not_Some. intros Hs. apply (lock_create_fresh s1 Hlk). right; left. exact Hs. }
  assert (lk ≠ ft_lock s) as Hne by congruence.
  unfold set_lock. cbn [with_locks files s1 with_vw with_files]. rewrite lookup_insert_eq. simpl.
  rewrite acquire_ok by (simpl; by rewrite lookup_insert_ne). simpl.
  rewrite insert_insert_eq.
  destruct (free_slot (opened_files s) 0) as [i|] eqn:Hfree; simpl.
  - rewrite (release_after _ (<[lk:=false]> (locks s))) by (simpl; by rewrite ?lookup_insert_ne).
    simpl. rewrite (proj2 (Z.eqb_neq i (-1))) by (apply free_slot_ge in Hfree; lia).
    by apply (open_done path flags mode s v w).
  - rewrite (release_after _ (<[lk:=false]> (locks s))) by (simpl; by rewrite ?lookup_insert_ne).
    simpl. unfold lock_release. simpl. rewrite lookup_insert_eq. simpl. by constructor.
Qed.

Lemma _sys_open_spec base path flags mode s :
  fd_inv base s → open_effect path flags mode s (_sys_open path flags mode s).
Proof.
  intros Hinv. unfold _sys_open.
  destruct (vfs_open path flags mode (vw s)) as [[e v] w] eqn:Hopen.
  pose proof (vfs_open_laws _ _ _ _ _ _ _ Hopen) as Hlaw.
  destruct (Z.eqb_spec e 0) as [->|He]; simpl.
  2: { rewrite decide_False in Hlaw by done. by apply open_refused. }
  rewrite decide_True in Hlaw by done. destruct Hlaw as [_ Hw].
  set (s0 := with_vw w s). destruct (Z.eqb_spec (kmalloc s0) 0) as [|Hp].
  { refine (open_refused path flags mode s ENOMEM (vfs_close v w) ltac:(done) _).
    by apply (reclose v (vw s) w w). }
  set (p := kmalloc s0) in *.
  assert (files s !! p = None) as Hnone.
  { apply eq_None_not_Some. intros Hs. apply (kmalloc_fresh s0 Hp). left. exact Hs. }
  destruct (Z.eqb_spec (Z.land flags O_APPEND) 0) as [Happ|Happ]; simpl.
  - refine (open_finish path flags mode base s v w p 0 w Hinv Hopen _ Hp Hnone _).
    + by rewrite Happ.
    + by apply (reclose v (vw s) w w).
  - unfold _update_offset_with_filesize. simpl. rewrite lookup_insert_eq. simpl.
    match goal with |- context [kmalloc ?S] => destruct (Z.eqb_spec (kmalloc S) 0) as [Hk|Hk] end.
    { by eapply open_no_stat. }
    destruct (VOP_STAT v w) as [[e size] w'] eqn:Hst.
    destruct (vop_stat_laws _ _ _ _ _ Hst) as [_ Hw'].
    pose proof (reclose v (vw s) w w' Hw Hw') as Hcl.
    destruct (e =? 0) eqn:He; simpl; [apply Z.eqb_eq in He as ->|rewrite He; simpl].
    + unfold set_offset. simpl. rewrite lookup_insert_eq. simpl. rewrite insert_insert_eq.
      refine (open_finish path flags mode base s v w p size w' Hinv Hopen _ Hp Hnone Hcl).
      by rewrite (proj2 (Z.eqb_neq _ _) Happ).
    + apply Z.eqb_neq in He.
      exact (open_refused_file path flags mode s e p _ w' (vfs_close v w') He Hnone Hcl).
Qed.

(** *** The calls keep the invariant *)

Lemma fd_inv_transfer base s p f e u w n buf dir :
  fd_inv base s → files s !! p = Some f →
  (e = 0 → 0 ≤ uio_resid u ≤ n ∧
     uio_offset u = uio_offset (Uio buf (f_offset f) n dir) + (n - uio_resid u) ∧ uio_offset u < two63) →
  (∀ v, opens w v = opens (vw s) v) →
  fd_inv base (transfer p f (e, u, w) s).2.
Proof.
  intros Hinv Hf Hu Hw. unfold transfer. destruct (Z.eqb_spec e 0) as [He|]; simpl.
  - destruct (Hu He) as (Hr & Ho & Hlt). simpl in Ho.
    destruct (fi_file _ _ Hinv _ _ Hf) as (_ & _ & _ & _ & _ & Hoff).
    apply fd_inv_world; [|done]. eapply fd_inv_update; try done. simpl. lia.
  - by apply fd_inv_world.
Qed.

Lemma fd_inv_seek_to base s p f from pos :
  fd_inv base s → (∃ off, files s !! p = Some (file_offset off f)) →
  fd_inv base (seek_to p f from pos s).2.
Proof.
  intros Hinv [off Hf]. unfold seek_to. destruct (Z.ltb_spec (s64 (from + pos)) 0); simpl; [done|].
  eapply fd_inv_update; try done. simpl. pose proof (s64_range (from + pos)). width.
Qed.

Lemma fd_inv_seek base s p f pos whence :
  fd_inv base s → files s !! p = Some f → is_s64 pos → fd_inv base (seek p f pos whence s).2.
Proof.
  intros Hinv Hf Hpos.
  assert (file_offset (f_offset f) f = f) as Hid by (by destruct f).
  unfold seek. destruct (VOP_ISSEEKABLE _ _); simpl; [|done].
  destruct (whence =? SEEK_SET).
  { destruct (Z.ltb_spec pos 0); simpl; [done|]. eapply fd_inv_update; try done. simpl. width. }
  destruct (whence =? SEEK_CUR).
  { apply fd_inv_seek_to; [done|]. exists (f_offset f). by rewrite Hid. }
  unfold seek_end. destruct (VOP_STAT (f_vnode f) (vw s)) as [[e size] w] eqn:Hst.
  destruct (vop_stat_laws _ _ _ _ _ Hst) as [Hsize Hw].
  destruct (e =? 0); simpl; [|by apply fd_inv_world].
  apply fd_inv_seek_to.
  - apply fd_inv_world; [|done]. by eapply fd_inv_update.
  - exists size. simpl. by rewrite lookup_insert_eq.
Qed.

Lemma fd_inv_close base s fd p f :
  fd_inv base s → fd_file s fd = Some (p, f) → fd_inv base (close_fd fd p f s).
Proof.
  intros Hinv (Hp & Hn & Hf)%fd_file_Some. pose proof Hinv as [Hlen Hft Hfd Hfile Hlk Hop].
  destruct (Hfile _ _ Hf) as (_ & Hrc & Hge & Hl & Hlne & Hoff).
  pose proof (zget_Some_range _ _ _ Hp) as Hrange.
  assert (∀ q, q ≠ 0 → refs q (zset (opened_files s) fd 0) =
    refs q (opened_files s) - Z.b2z (p =? q)) as Hcnt.
  { intros q Hq. rewrite (refs_zset q _ _ _ 0 Hp), (proj2 (Z.eqb_neq 0 q)) by done. simpl. lia. }
  unfold close_fd. destruct (Z.eqb_spec (f_ref_count f) 1) as [H1'|H1']; split; simpl; try done.
  - by rewrite zlen_zset.
  - by rewrite lookup_delete_ne.
  - intros fd' q Hq Hqn. rewrite zget_zset in Hq. case_decide; [congruence|].
    rewrite lookup_delete_ne; [by eapply Hfd|]. intros <-.
    assert (fd ≠ fd') as Hne by naive_solver.
    pose proof (refs_two _ _ _ _ Hp Hq Hne). lia.
  - intros q g [Hqn Hg]%lookup_delete_Some. destruct (Hfile _ _ Hg) as (Hq0 & Hgr & ? & ? & ? & ?).
    specialize (Hcnt q Hq0). rewrite (proj2 (Z.eqb_neq p q)) in Hcnt by done. simpl in Hcnt.
    split_and!; try done; try lia. rewrite lookup_delete_ne; [done|].
    intros Heq. apply Hqn. by eapply Hlk.
  - intros q r g1 g2 [_ Hg1]%lookup_delete_Some [_ Hg2]%lookup_delete_Some. by apply Hlk.
  - intros v. rewrite vfs_close_laws, Hop, (file_opens_delete _ _ f) by done. lia.
  - by rewrite zlen_zset.
  - intros fd' q Hq Hqn. rewrite zget_zset in Hq. case_decide; [congruence|].
    rewrite lookup_insert. case_decide; [eauto|]. by eapply Hfd.
  - intros q g. rewrite lookup_insert. case_decide as Hqp.
    + subst q. intros [= <-]. simpl. specialize (Hcnt p Hn). rewrite Z.eqb_refl in Hcnt.
      simpl in Hcnt. split_and!; try done; lia.
    + intros Hg. destruct (Hfile _ _ Hg) as (Hq0 & Hgr & ? & ? & ? & ?).
      specialize (Hcnt q Hq0). rewrite (proj2 (Z.eqb_neq p q)) in Hcnt by done. simpl in Hcnt.
      split_and!; try done; lia.
  - intros q r g1 g2. rewrite !lookup_insert. repeat case_decide; subst; try done;
      intros; simplify_eq; simpl in *; eauto.
  - intros v. by rewrite (file_opens_update _ _ f).
Qed.

Lemma fd_inv_dup base s newfd p f :
  fd_inv base s → files s !! p = Some f → zget (opened_files s) newfd = Some 0 →
  fd_inv base (with_opened (zset (opened_files s) newfd p)
    (with_files (<[p := file_refs (f_ref_count f + 1) f]> (files s)) s)).
Proof.
  intros [Hlen Hft Hfd Hfile Hlk Hop] Hf H0'.
  destruct (Hfile _ _ Hf) as (Hn & Hrc & Hge & Hl & Hlne & Hoff). split; simpl; try done.
  - by rewrite zlen_zset.
  - intros fd q Hq Hqn. rewrite zget_zset in Hq. rewrite lookup_insert.
    case_decide; case_decide; simplify_eq; eauto.
  - intros q g. rewrite (refs_zset q _ _ _ p H0'), lookup_insert. case_decide as Hqp.
    + subst q. intros [= <-]. rewrite Z.eqb_refl, (proj2 (Z.eqb_neq 0 p)) by done.
      simpl. split_and!; try done; lia.
    + intros Hg. destruct (Hfile _ _ Hg) as (Hq0 & Hgr & ? & ? & ? & ?).
      rewrite (proj2 (Z.eqb_neq p q)), (proj2 (Z.eqb_neq 0 q)) by done. simpl.
      split_and!; try done; lia.
  - intros q r g1 g2. rewrite !lookup_insert. repeat case_decide; subst; try done;
      intros; simplify_eq; simpl in *; eauto.
  - intros v. by rewrite (file_opens_update _ _ f).
Qed.

Lemma fd_inv_open base s p lk off v w' flags i :
  fd_inv base s → p ≠ 0 → files s !! p = None → locks s !! lk = None →
  zget (opened_files s) i = Some 0 → 0 ≤ off < two63 →
  (∀ u, opens w' u = opens (vw s) u + (if decide (u = v) then 1 else 0)) →
  fd_inv base (FState (<[p := File flags 1 off v lk]> (files s)) (<[lk := false]> (locks s))
                 (bufs s) (zset (opened_files s) i p) (ft_lock s) w').
Proof.
  intros [Hlen Hft Hfd Hfile Hlk Hop] Hn Hp Hlkn Hi Hoff Hw.
  assert (refs p (opened_files s) = 0) as Hr0.
  { apply refs_zero. intros fd Hq. destruct (Hfd _ _ Hq Hn). congruence. }
  split; simpl.
  - by rewrite zlen_zset.
  - rewrite lookup_insert. by case_decide.
  - intros fd q Hq Hqn. rewrite zget_zset in Hq. rewrite lookup_insert.
    case_decide; case_decide; simplify_eq; eauto.
  - intros q g. rewrite (refs_zset q _ _ _ p Hi), lookup_insert. case_decide as Hqp.
    + subst q. intros [= <-]. rewrite Z.eqb_refl, Hr0, (proj2 (Z.eqb_neq 0 p)) by done.
      cbn [f_lock]. rewrite lookup_insert_eq. simpl. split_and!; try done; try lia. congruence.
    + intros Hg. destruct (Hfile _ _ Hg) as (Hq0 & Hgr & ? & ? & ? & ?).
      rewrite (proj2 (Z.eqb_neq p q)), (proj2 (Z.eqb_neq 0 q)) by done. simpl.
      rewrite lookup_insert_ne by congruence. split_and!; try done; lia.
  - assert (∀ q g, files s !! q = Some g → f_lock g ≠ lk) as Hfresh.
    { intros q g Hg. destruct (Hfile _ _ Hg) as (_ & _ & _ & ? & _). congruence. }
    intros q r g1 g2. rewrite !lookup_insert. repeat case_decide; subst; try done;
      intros; simplify_eq; simpl in *; eauto; exfalso; eapply Hfresh; eauto.
  - intros u. rewrite Hw, Hop, file_opens_insert by done. simpl. lia.
Qed.

Lemma fd_inv_bufs base s b : fd_inv base s → fd_inv base (with_bufs b s).
Proof. by intros []. Qed.

Lemma open_effect_inv base path flags mode s r :
  fd_inv base s → open_effect path flags mode s r → ∀ e i s', r = Ok (e, i, s') → fd_inv base s'.
Proof.
  intros Hinv Heff e i s'. destruct Heff as [e' w' He Hw|v w p lk off w' j Hopen Hoff Hp Hf Hlk Hfree| |];
    intros Hr; simplify_eq.
  - by apply fd_inv_world.
  - pose proof (vfs_open_laws _ _ _ _ _ _ _ Hopen) as Hlaw.
    rewrite decide_True in Hlaw by done. destruct Hlaw as [_ Hw].
    apply free_slot_spec in Hfree as (_ & Hz & _). rewrite Z.sub_0_r in Hz.
    apply fd_inv_open; try done.
    + destruct (Z.land flags O_APPEND =? 0); [destruct Hoff as [-> _]; unfold two63; lia|].
      by destruct (vop_stat_laws _ _ _ _ _ Hoff).
    + intros u. destruct (Z.land flags O_APPEND =? 0).
      * destruct Hoff as [_ ->]. apply Hw.
      * destruct (vop_stat_laws _ _ _ _ _ Hoff) as [_ Hst]. by rewrite Hst.
Qed.

(** ** The descriptor table as a state machine *)

Inductive fd_step : fstate → fstate → Prop :=
| step_open filename flags mode e r s s' :
    sys_open filename flags mode s = Ok (e, r, s') → fd_step s s'
| step_read fd buf n e r s s' :
    0 ≤ n → sys_read fd buf n s = Ok (e, r, s') → fd_step s s'
| step_write fd buf n e r s s' :
    0 ≤ n → sys_write fd buf n s = Ok (e, r, s') → fd_step s s'
| step_lseek fd pos whence e r s s' :
    is_s64 pos → sys_lseek fd pos whence s = Ok (e, r, s') → fd_step s s'
| step_close fd e r s s' :
    sys_close fd s = Ok (e, r, s') → fd_step s s'
| step_dup2 oldfd newfd e r s s' :
    sys_dup2 oldfd newfd s = Ok (e, r, s') → fd_step s s'.

(** Bad arguments of [sys_lseek] and [sys_dup2]. *)
Lemma sys_lseek_whence base s fd pos whence :
  fd_inv base s → ¬ 0 ≤ whence ≤ 2 →
  sys_lseek fd pos whence s =
    Ok (if (fd <? 0) || (OPEN_MAX <=? fd) then EBADF else EINVAL, -1, s).
Proof.
  intros _ Hw. unfold sys_lseek. case_match; [done|].
  unfold SEEK_SET, SEEK_CUR, SEEK_END.
  destruct (Z.eqb_spec whence 0), (Z.eqb_spec whence 1), (Z.eqb_spec whence 2); done || lia.
Qed.

Lemma sys_dup2_bad base s oldfd newfd :
  fd_inv base s → fd_file s oldfd = None ∨ ¬ 0 ≤ newfd < OPEN_MAX →
  sys_dup2 oldfd newfd s = Ok (EBADF, -1, s).
Proof.
  intros Hinv Hbad. unfold sys_dup2.
  destruct ((oldfd <? 0) || (OPEN_MAX <=? oldfd)) eqn:Eo; [done|].
  destruct ((newfd <? 0) || (OPEN_MAX <=? newfd)) eqn:En.
  { rewrite orb_false_l, En. done. }
  rewrite orb_false_l, En. pose proof (fi_ft _ _ Hinv) as Hft. rewrite acquire_ok by done. simpl.
  apply orb_false_iff in En. rewrite Z.ltb_ge, Z.leb_gt in En.
  destruct Hbad as [Hbad|]; [|lia].
  destruct (fd_cases _ _ oldfd Hinv)
    as [[? _]|[(_ & _ & Hp & _)|(p & f & _ & _ & _ & _ & _ & ?)]]; [congruence| |congruence].
  rewrite Hp. simpl. rewrite (release_after _ (locks s)) by done. by destruct s.
Qed.

Lemma fd_step_inv base s s' : fd_inv base s → fd_step s s' → fd_inv base s'.
Proof.
  intros Hinv Hstep. destruct Hstep as [filename flags mode e r s s' Hc|fd buf n e r s s' Hn Hc
    |fd buf n e r s s' Hn Hc|fd pos whence e r s s' Hpos Hc|fd e r s s' Hc|oldfd newfd e r s s' Hc].
  - unfold sys_open in Hc. destruct (kmalloc s =? 0); [by simplify_eq|].
    set (s1 := with_bufs _ s) in Hc. assert (fd_inv base s1) as Hinv1 by (by apply fd_inv_bufs).
    destruct (copyinstr _ _ _) as [err path]. destruct (negb (err =? 0)); [by simplify_eq|].
    eapply open_effect_inv; [exact Hinv1|by eapply _sys_open_spec|exact Hc].
  - rewrite (sys_read_spec base) in Hc by done.
    destruct (fd_file s fd) as [[p f]|] eqn:Hfd; [|by simplify_eq].
    apply fd_file_Some in Hfd as (_ & _ & Hf). destruct (_ =? O_WRONLY); [by simplify_eq|].
    destruct (VOP_READ _ _ _) as [[e' u] w] eqn:Hop.
    destruct (vop_read_laws _ _ _ _ _ _ Hop) as [Hu Hw].
    pose proof (fd_inv_transfer base s p f e' u w n buf UIO_READ Hinv Hf Hu Hw) as Ht.
    assert (transfer p f (e', u, w) s = (e, r, s')) as Heq by congruence. by rewrite Heq in Ht.
  - rewrite (sys_write_spec base) in Hc by done.
    destruct (fd_file s fd) as [[p f]|] eqn:Hfd; [|by simplify_eq].
    apply fd_file_Some in Hfd as (_ & _ & Hf). destruct (_ =? O_RDONLY); [by simplify_eq|].
    destruct (VOP_WRITE _ _ _) as [[e' u] w] eqn:Hop.
    destruct (vop_write_laws _ _ _ _ _ _ Hop) as [Hu Hw].
    pose proof (fd_inv_transfer base s p f e' u w n buf UIO_WRITE Hinv Hf Hu Hw) as Ht.
    assert (transfer p f (e', u, w) s = (e, r, s')) as Heq by congruence. by rewrite Heq in Ht.
  - destruct (decide (0 ≤ whence ≤ 2)) as [Hw|Hw].
    + destruct (sys_lseek_spec base s fd pos whence Hinv Hw) as [Hs|(_ & Hs & _)]; [|congruence].
      rewrite Hc in Hs. destruct (fd_file s fd) as [[p f]|] eqn:Hfd; [|by simplify_eq].
      apply fd_file_Some in Hfd as (_ & _ & Hf).
      pose proof (fd_inv_seek base s p f pos whence Hinv Hf Hpos) as Ht.
      assert (seek p f pos whence s = (e, r, s')) as Heq by congruence. by rewrite Heq in Ht.
    + rewrite (sys_lseek_whence base) in Hc by done. by simplify_eq.
  - rewrite (sys_close_spec base) in Hc by done.
    destruct (fd_file s fd) as [[p f]|] eqn:Hfd; [|by simplify_eq].
    injection Hc as _ _ <-. by apply fd_inv_close.
  - assert (Decision (fd_file s oldfd = None ∨ ¬ 0 ≤ newfd < OPEN_MAX)) as Hdec by apply _.
    destruct Hdec as [Hbad|Hgood].
    { rewrite (sys_dup2_bad base) in Hc by done. by simplify_eq. }
    assert (0 ≤ newfd < OPEN_MAX) as Hnew by (apply dec_stable; tauto).
    destruct (fd_file s oldfd) as [[p f]|] eqn:Hfd; [|tauto].
    rewrite (sys_dup2_spec base s oldfd newfd p f) in Hc by done.
    apply fd_file_Some in Hfd as (_ & _ & Hf).
    destruct (oldfd =? newfd); [by simplify_eq|].
    destruct (fd_file s newfd) as [|] eqn:Hnf; [done|]. injection Hc as _ _ <-.
    apply fd_inv_dup; [done..|]. destruct (fd_cases _ _ newfd Hinv)
      as [[Hb _]|[(_ & _ & ? & _)|(? & ? & _ & _ & _ & _ & _ & ?)]]; [|done|congruence].
    by rewrite fd_in_range in Hb.
Qed.

(** *** Setting up the table *)

Lemma init_table_inv s lk :
  files s = ∅ → locks s !! lk = None → opened_files s = replicate 128 0 →
  fd_inv (opens (vw s)) (FState (files s) (<[lk := false]> (locks s)) (bufs s) (opened_files s) lk (vw s)).
Proof.
  intros Hf Hlk Ho.
  assert (∀ i p, zget (replicate 128 0) i = Some p → p = 0) as Hz.
  { intros i p. unfold zget. case_decide; [|done]. by intros [-> _]%lookup_replicate. }
  split; simpl; rewrite ?Hf, ?Ho; try done.
  - by rewrite lookup_insert_eq.
  - by intros fd p ->%Hz.
  - intros v. unfold file_opens. simpl. rewrite map_filter_empty, map_size_empty. lia.
Qed.

(** Descriptors [0..n-1] are open for reading and writing, the others closed. *)
Definition std_fds (n : Z) s : Prop :=
  (∀ i, 0 ≤ i < n → ∃ p f, fd_file s i = Some (p, f) ∧ f_flag f = O_RDWR ∧ f_offset f = 0) ∧
  (∀ i, n ≤ i < OPEN_MAX → zget (opened_files s) i = Some 0).

Lemma open_console_step base s n e r s' :
  fd_inv base s → std_fds n s → 0 ≤ n < OPEN_MAX → _sys_open "con:" O_RDWR 0 s = Ok (e, r, s') →
  fd_inv base s' ∧ (e = 0 → r = n ∧ std_fds (n + 1) s').
Proof.
  intros Hinv [Hopen Hclosed] Hn Hc. pose proof (_sys_open_spec base "con:" O_RDWR 0 s Hinv) as Heff.
  split; [by eapply open_effect_inv|]. rewrite Hc in Heff.
  inversion Heff as [e' w' He|v w p lk off w' i Hv Hoff Hp Hf Hlk Hfree Heq| |];
    simplify_eq; [done|]. intros _.
  apply free_slot_spec in Hfree as (Hr & Hz & Hmin). rewrite Z.sub_0_r in *.
  assert (r = n) as ->.
  { destruct (decide (r < n)).
    - destruct (Hopen r) as (q & f & (Hq & ? & _)%fd_file_Some & _); [lia|congruence].
    - destruct (decide (n < r)); [|lia]. destruct (Hmin n); [lia|]. apply Hclosed. lia. }
  split; [done|]. destruct Hoff as [-> _]. split.
  - intros i Hi. destruct (decide (i = n)) as [->|Hne].
    + exists p, (File O_RDWR 1 0 v lk). split; [|done]. apply fd_file_Some. simpl.
      rewrite lookup_insert_eq, zget_zset_eq; [done|lia].
    + destruct (Hopen i) as (q & f & (Hq & Hqn & Hqf)%fd_file_Some & ?); [lia|].
      exists q, f. split; [|done]. apply fd_file_Some. simpl.
      rewrite zget_zset_ne by done. rewrite lookup_insert_ne by congruence. done.
  - intros i Hi. simpl. rewrite zget_zset_ne by lia. apply Hclosed. lia.
Qed.

Lemma open_console_spec base k : ∀ s n s',
  fd_inv base s → std_fds n s → 0 ≤ n → n + Z.of_nat k ≤ OPEN_MAX →
  open_console k s = Ok (0, s') → fd_inv base s' ∧ std_fds (n + Z.of_nat k) s'.
Proof.
  induction k as [|k IH]; intros s n s' Hinv Hstd Hn Hk Hc; cbn [open_console] in Hc.
  { injection Hc as <-. by rewrite Z.add_0_r. }
  destruct (_sys_open "con:" O_RDWR 0 s) as [[[e r] s1]| | |] eqn:Ho; try done.
  cbn [mbind outcome_bind] in Hc.
  destruct (open_console_step base s n e r s1 Hinv Hstd) as [Hinv1 Hs1]; [lia|done|].
  destruct (Z.eqb_spec e 0) as [He|]; [|naive_solver].
  destruct (Hs1 He) as [_ Hstd1]. simpl in Hc.
  replace (n + Z.of_nat (S k)) with (n + 1 + Z.of_nat k) by lia.
  by apply (IH s1); [..|lia|lia|].
Qed.

Lemma std_fds_none s : opened_files s = replicate 128 0 → std_fds 0 s.
Proof.
  intros Ho. split; [lia|]. intros i Hi. unfold zget. rewrite Ho, decide_True by lia.
  apply lookup_replicate. unfold OPEN_MAX in *. split; [done|lia].
Qed.

Lemma init_process_spec s0 s :
  files s0 = ∅ → init_process_file_table s0 = Ok (0, s) → fd_inv (opens (vw s0)) s ∧ std_fds 3 s.
Proof.
  intros Hempty Hi. unfold init_process_file_table in Hi.
  destruct (kmalloc s0 =? 0); [done|]. set (s1 := with_bufs _ _) in Hi.
  destruct (Z.eqb_spec (lock_create s1) 0) as [|Hlk]; [done|].
  assert (locks s1 !! lock_create s1 = None) as Hn.
  { apply eq_None_not_Some. intros Hs. apply (lock_create_fresh s1 Hlk). right; by left. }
  pose proof (init_table_inv s1 (lock_create s1) Hempty Hn eq_refl) as Hinv.
  refine (open_console_spec _ 3 _ 0 s Hinv _ _ _ Hi); [|lia|unfold OPEN_MAX; lia].
  by apply std_fds_none.
Qed.

End fd.
