(* ===== verification/FileSpec.v ===== *)
(** * What the file system calls promise

    Properties of the calls modelled in File.v, for every file system that
    satisfies the interface [Vfs], and a small file system that satisfies it. *)

From S2P Require Import Prelude File.

(** The descriptors that refer to the same file object. *)
Definition same_file `{Vfs} (s : fstate) (fd fd' : Z) : Prop :=
  ∃ p f, fd_file s fd = Some (p, f) ∧ fd_file s fd' = Some (p, f).

(** The offset behind a descriptor. *)
Definition fd_offset `{Vfs} (s : fstate) (fd : Z) : option Z :=
  '(_, f) ← fd_file s fd; Some (f_offset f).

Lemma lseek_bad_whence `{FAlloc} fd pos whence s : ¬ 0 ≤ whence ≤ 2 →
  sys_lseek fd pos whence s = Ok (if decide (0 ≤ fd < OPEN_MAX ∧ ¬ 0 ≤ whence ≤ 2) then EINVAL else EBADF, -1, s).
Proof.
  intros Hw. unfold sys_lseek. case_decide as Hd.
  - rewrite (proj2 (Z.ltb_ge fd 0)), (proj2 (Z.leb_gt OPEN_MAX fd)) by lia. cbn [orb].
    by rewrite !(proj2 (Z.eqb_neq whence _)) by (unfold SEEK_SET, SEEK_CUR, SEEK_END; lia).
  - assert ((fd <? 0) || (OPEN_MAX <=? fd) = true) as ->; [|done]. apply orb_true_iff. rewrite Z.ltb_lt, Z.leb_le. lia.
Qed.

Lemma sys_dup2_range `{FAlloc} oldfd newfd s : ¬ 0 ≤ newfd < OPEN_MAX → sys_dup2 oldfd newfd s = Ok (EBADF, -1, s).
Proof.
  intros Hn. unfold sys_dup2. assert ((oldfd <? 0) || (OPEN_MAX <=? oldfd) || (newfd <? 0) || (OPEN_MAX <=? newfd) = true) as ->; [|done].
  rewrite !orb_true_iff, !Z.ltb_lt, !Z.leb_le. lia.
Qed.

Section properties.
Context `{FAlloc}.
Implicit Types (s : fstate) (base : Z → Z).

(** C32: the descriptor table stays consistent.  Starting from a table that
    [init_process_file_table] has set up, after any sequence of calls every
    descriptor in use refers to a live file object, every file object is
    referenced by exactly [f_ref_count] descriptors (and by at least one), no
    lock is held, no two files share a lock, offsets are not negative, and the
    vnodes opened through the table are exactly those of the file objects. *)
Theorem fd_table_consistent (HA : FAllocLaws) (HV : VfsLaws) s0 s
  (Hempty : files s0 = ∅)
  (Hr : reachable (λ s1, init_process_file_table s0 = Ok (0, s1)) fd_step s) :
  fd_inv (opens (vw s0)) s.
Proof.
  revert s Hr. apply reachable_invariant; [|intros s s'; apply fd_step_inv].
  intros s Hi. by apply init_process_spec.
Qed.

(** A new process has descriptors 0, 1 and 2 open for reading and writing at
    offset 0, and every other descriptor closed. *)
Theorem init_std_fds (HA : FAllocLaws) (HV : VfsLaws) s0 s
  (Hempty : files s0 = ∅) (Hi : init_process_file_table s0 = Ok (0, s)) : std_fds 3 s.
Proof. by eapply init_process_spec. Qed.

(** C33: [_sys_open] returns the lowest closed descriptor.  It refers to a new
    file object with one reference, at offset 0 or, with O_APPEND, at the end of
    the file, and no other descriptor changes. *)
Theorem open_lowest_fd (HA : FAllocLaws) (HV : VfsLaws) base path flags mode s fd s'
  (Hinv : fd_inv base s) (Ho : _sys_open path flags mode s = Ok (0, fd, s')) :
  fd_inv base s' ∧ fd_file s fd = None ∧ (∀ i, 0 ≤ i < fd → is_Some (fd_file s i)) ∧
  (∃ p v lk off, fd_file s' fd = Some (p, File flags 1 off v lk) ∧ files s !! p = None ∧
     if Z.land flags O_APPEND =? 0 then off = 0 else ∃ w w', VOP_STAT v w = (0, off, w')) ∧
  ∀ i, i ≠ fd → fd_file s' i = fd_file s i.
Proof.
  pose proof (_sys_open_spec base path flags mode s Hinv) as Heff.
  assert (fd_inv base s') as Hinv' by (by eapply open_effect_inv). rewrite Ho in Heff.
  inversion Heff as [e' w' He|v w p lk off w' i Hv Hoff Hp Hf Hlk Hfree Heq| |]; simplify_eq.
  apply free_slot_spec in Hfree as (Hr & Hz & Hmin). rewrite Z.sub_0_r in *.
  split_and!; [done| | | |].
  - unfold fd_file. by rewrite Hz.
  - intros i Hi. destruct (zget_range (opened_files s) i) as [q Hq]; [lia|].
    destruct (decide (q = 0)) as [->|Hqn]; [by destruct (Hmin i Hi)|].
    destruct (fi_fd _ _ Hinv _ _ Hq Hqn) as [f Hqf]. exists (q, f). by apply fd_file_Some.
  - exists p, v, lk, off. split; [|split; [done|]].
    + apply fd_file_Some. simpl. by rewrite zget_zset_eq, lookup_insert_eq by lia.
    + destruct (Z.land flags O_APPEND =? 0); [by destruct Hoff|eauto].
  - intros i Hi. unfold fd_file. simpl. rewrite zget_zset_ne by done.
    destruct (zget (opened_files s) i) as [q|] eqn:Hq; [|done]. simpl.
    destruct (Z.eqb_spec q 0) as [|Hqn]; [done|].
    destruct (fi_fd _ _ Hinv _ _ Hq Hqn) as [f Hqf].
    by rewrite lookup_insert_ne by congruence.
Qed.

Lemma fd_offset_update s fd p f off :
  fd_file s fd = Some (p, f) →
  fd_offset (with_files (<[p := file_offset off f]> (files s)) s) fd = Some off.
Proof.
  intros (Hp & Hn & Hf)%fd_file_Some. unfold fd_offset.
  assert (fd_file (with_files (<[p:=file_offset off f]> (files s)) s) fd =
    Some (p, file_offset off f)) as ->; [|done].
  apply fd_file_Some. simpl. by rewrite lookup_insert_eq.
Qed.

(** A read returns the number of bytes the vnode transferred, at most as many
    as were asked for, and advances the offset by that number; a failed read
    leaves the offset alone. *)
Theorem read_advances (HV : VfsLaws) base s fd buf n p f
  (Hinv : fd_inv base s) (Hfd : fd_file s fd = Some (p, f))
  (Hacc : Z.land (f_flag f) O_ACCMODE ≠ O_WRONLY) (Hn : 0 ≤ n < two31) :
  ∃ e r s', sys_read fd buf n s = Ok (e, r, s') ∧
    if decide (e = 0) then 0 ≤ r ≤ n ∧ fd_offset s' fd = Some (f_offset f + r)
    else r = -1 ∧ fd_offset s' fd = Some (f_offset f).
Proof.
  rewrite (sys_read_spec base) by done. rewrite Hfd. rewrite (proj2 (Z.eqb_neq _ _)) by done.
  destruct (VOP_READ _ _ _) as [[e u] w] eqn:Hop.
  destruct (vop_read_laws _ _ _ _ _ _ Hop) as [Hu _]. unfold transfer.
  destruct (Z.eqb_spec e 0) as [He|He].
  - destruct (Hu He) as (Hr & Ho & _). simpl in Hr, Ho.
    assert (s32 (uio_offset u - f_offset f) = n - uio_resid u) as Hs.
    { rewrite s32_id by (unfold is_s32, two31 in *; lia). lia. }
    eexists _, _, _. split; [reflexivity|]. rewrite decide_True by done. split; [lia|].
    etransitivity; [exact (fd_offset_update s fd p f (uio_offset u) Hfd)|]. f_equal. lia.
  - eexists _, _, _. split; [reflexivity|]. rewrite decide_False by done. split; [done|].
    change (fd_offset s fd = Some (f_offset f)). unfold fd_offset. by rewrite Hfd.
Qed.

(** A write returns the number of bytes the vnode transferred, at most as many
    as were given, and advances the offset by that number; a failed write leaves
    the offset alone. *)
Theorem write_advances (HV : VfsLaws) base s fd buf n p f
  (Hinv : fd_inv base s) (Hfd : fd_file s fd = Some (p, f))
  (Hacc : Z.land (f_flag f) O_ACCMODE ≠ O_RDONLY) (Hn : 0 ≤ n < two31) :
  ∃ e r s', sys_write fd buf n s = Ok (e, r, s') ∧
    if decide (e = 0) then 0 ≤ r ≤ n ∧ fd_offset s' fd = Some (f_offset f + r)
    else r = -1 ∧ fd_offset s' fd = Some (f_offset f).
Proof.
  rewrite (sys_write_spec base) by done. rewrite Hfd. rewrite (proj2 (Z.eqb_neq _ _)) by done.
  destruct (VOP_WRITE _ _ _) as [[e u] w] eqn:Hop.
  destruct (vop_write_laws _ _ _ _ _ _ Hop) as [Hu _]. unfold transfer.
  destruct (Z.eqb_spec e 0) as [He|He].
  - destruct (Hu He) as (Hr & Ho & _). simpl in Hr, Ho.
    assert (s32 (uio_offset u - f_offset f) = n - uio_resid u) as Hs.
    { rewrite s32_id by (unfold is_s32, two31 in *; lia). lia. }
    eexists _, _, _. split; [reflexivity|]. rewrite decide_True by done. split; [lia|].
    etransitivity; [exact (fd_offset_update s fd p f (uio_offset u) Hfd)|]. f_equal. lia.
  - eexists _, _, _. split; [reflexivity|]. rewrite decide_False by done. split; [done|].
    change (fd_offset s fd = Some (f_offset f)). unfold fd_offset. by rewrite Hfd.
Qed.

(** Seeking on an open, seekable file.  SEEK_SET goes to [pos], SEEK_CUR to
    the offset plus [pos] and SEEK_END to the size of the file plus [pos]; a
    negative target is EINVAL.  On success the new offset is returned and is the
    offset of the descriptor; SEEK_SET and SEEK_CUR leave the offset alone when
    they fail. *)
Theorem lseek_positions (HV : VfsLaws) base s fd pos whence p f
  (Hinv : fd_inv base s) (Hfd : fd_file s fd = Some (p, f))
  (Hseek : VOP_ISSEEKABLE (f_vnode f) (vw s) = true) (Hwh : 0 ≤ whence ≤ 2) (Hpos : is_s64 pos)
  (Hmem : ∀ s', kmalloc s' ≠ 0) :
  ∃ e r s', sys_lseek fd pos whence s = Ok (e, r, s') ∧
    if decide (whence = SEEK_END) then
      ∃ e1 size w, VOP_STAT (f_vnode f) (vw s) = (e1, size, w) ∧
        if decide (e1 = 0) then
          (if decide (s64 (size + pos) < 0) then e = EINVAL ∧ r = -1
           else e = 0 ∧ r = s64 (size + pos) ∧ fd_offset s' fd = Some r)
        else e = e1 ∧ r = -1 ∧ fd_offset s' fd = Some (f_offset f)
    else
      let target := if decide (whence = SEEK_SET) then pos else s64 (f_offset f + pos) in
      if decide (target < 0) then e = EINVAL ∧ r = -1 ∧ s' = s
      else e = 0 ∧ r = target ∧ fd_offset s' fd = Some target.
Proof.
  destruct (sys_lseek_spec base s fd pos whence Hinv Hwh) as [->|(_ & _ & _ & s' & ?)];
    [|by destruct (Hmem s')].
  rewrite Hfd. unfold seek. rewrite Hseek. simpl.
  assert (∀ off w, fd_offset (with_vw w (with_files (<[p := file_offset off f]> (files s)) s)) fd = Some off) as Hoff.
  { intros off w. exact (fd_offset_update s fd p f off Hfd). }
  destruct (decide (whence = SEEK_END)) as [->|Hne].
  - simpl. unfold seek_end. destruct (VOP_STAT (f_vnode f) (vw s)) as [[e1 size] w].
    destruct (Z.eqb_spec e1 0) as [He|He].
    + unfold seek_to. destruct (Z.ltb_spec (s64 (size + pos)) 0) as [Hlt|Hge];
        eexists _, _, _; (split; [reflexivity|]); exists e1, size, w; (split; [done|]);
        rewrite decide_True by done.
      * by rewrite decide_True.
      * rewrite decide_False by lia. split_and!; [done..|]. simpl. rewrite insert_insert_eq. apply Hoff.
    + eexists _, _, _. split; [reflexivity|]. exists e1, size, w. split; [done|].
      rewrite decide_False by done. split_and!; [done..|].
      change (fd_offset s fd = Some (f_offset f)). unfold fd_offset. by rewrite Hfd.
  - destruct (Z.eqb_spec whence SEEK_SET) as [->|Hns].
    + rewrite decide_True by done.
      destruct (Z.ltb_spec pos 0); eexists _, _, _; (split; [reflexivity|]).
      * by rewrite decide_True by lia.
      * rewrite decide_False by lia. split_and!; [done..|]. exact (Hoff pos (vw s)).
    + rewrite decide_False by done.
      assert (whence = SEEK_CUR) as -> by (unfold SEEK_SET, SEEK_CUR, SEEK_END in *; lia). simpl.
      unfold seek_to. destruct (Z.ltb_spec (s64 (f_offset f + pos)) 0);
        eexists _, _, _; (split; [reflexivity|]).
      * by rewrite decide_True by lia.
      * rewrite decide_False by lia. split_and!; [done..|].
        exact (Hoff (s64 (f_offset f + pos)) (vw s)).
Qed.

(** Closing a descriptor makes it invalid and leaves every other descriptor
    on its file object.  The file object, its lock and its open of the vnode go
    away with the last descriptor, and not before. *)
Theorem close_releases (HV : VfsLaws) base s fd p f
  (Hinv : fd_inv base s) (Hfd : fd_file s fd = Some (p, f)) :
  ∃ s', sys_close fd s = Ok (0, 0, s') ∧ fd_inv base s' ∧ fd_file s' fd = None ∧
    (∀ i, i ≠ fd → fst <$> fd_file s' i = fst <$> fd_file s i) ∧
    (files s' !! p = None ↔ ∀ i, i ≠ fd → zget (opened_files s) i ≠ Some p) ∧
    ∀ v, opens (vw s') v = opens (vw s) v -
           (if decide (files s' !! p = None ∧ v = f_vnode f) then 1 else 0).
Proof.
  rewrite (sys_close_spec base) by done. rewrite Hfd.
  eexists. split; [reflexivity|]. split; [by apply fd_inv_close|].
  apply fd_file_Some in Hfd as (Hp & Hn & Hf). pose proof (zget_Some_range _ _ _ Hp) as Hrange.
  destruct (fi_file _ _ Hinv _ _ Hf) as (_ & Hrc & Hge & _).
  pose proof (refs_zset p _ _ _ 0 Hp) as Hz. rewrite Z.eqb_refl, (proj2 (Z.eqb_neq 0 p)) in Hz by done.
  assert (f_ref_count f = 1 ↔ ∀ i, i ≠ fd → zget (opened_files s) i ≠ Some p) as Hlast.
  { trans (refs p (zset (opened_files s) fd 0) = 0); [simpl in Hz; lia|]. rewrite refs_zero.
    split; intros Hi i.
    - intros Hne. specialize (Hi i). by rewrite zget_zset_ne in Hi.
    - destruct (decide (i = fd)) as [->|]; [rewrite zget_zset_eq by done; congruence|].
      rewrite zget_zset_ne by done. by apply Hi. }
  assert (∀ i s', i ≠ fd → opened_files s' = zset (opened_files s) fd 0 →
    (∀ q, zget (opened_files s) i = Some q → q ≠ 0 → is_Some (files s' !! q)) →
    fst <$> fd_file s' i = fst <$> fd_file s i) as Hother.
  { intros i s' Hi Ho Hs'. unfold fd_file. rewrite Ho, zget_zset_ne by done.
    destruct (zget (opened_files s) i) as [q|] eqn:Hq; [|done]. simpl.
    destruct (Z.eqb_spec q 0); [done|]. destruct (Hs' q) as [f' Hf']; [done..|].
    destruct (fi_fd _ _ Hinv _ _ Hq) as [f1 Hf1]; [done|]. by rewrite Hf', Hf1. }
  unfold close_fd. destruct (Z.eqb_spec (f_ref_count f) 1) as [Hone|Hone].
  - split_and!.
    + unfold fd_file. simpl. by rewrite zget_zset_eq.
    + intros i Hi. apply Hother; [done..|]. intros q Hq Hqn. simpl.
      rewrite lookup_delete_ne; [by eapply fi_fd|]. intros <-. by apply (proj1 Hlast Hone i).
    + simpl. rewrite lookup_delete_eq. split; [intros _; by apply Hlast|done].
    + intros v. simpl. rewrite vfs_close_laws, lookup_delete_eq. repeat case_decide; naive_solver.
  - split_and!.
    + unfold fd_file. simpl. by rewrite zget_zset_eq.
    + intros i Hi. apply Hother; [done..|]. intros q Hq Hqn. simpl.
      rewrite lookup_insert. case_decide; [eauto|]. by eapply fi_fd.
    + simpl. rewrite lookup_insert_eq. split; [done|]. intros Hi. by apply Hlast in Hi.
    + intros v. simpl. rewrite lookup_insert_eq. case_decide; [naive_solver|]. lia.
Qed.

(** [sys_dup2] onto a closed descriptor makes both descriptors refer to one
    file object, so that an offset set through either is seen through both, and
    changes no other descriptor. *)
Theorem dup2_shares (HV : VfsLaws) base s oldfd newfd p f
  (Hinv : fd_inv base s) (Hold : fd_file s oldfd = Some (p, f))
  (Hnew : zget (opened_files s) newfd = Some 0) :
  ∃ s', sys_dup2 oldfd newfd s = Ok (0, newfd, s') ∧ fd_inv base s' ∧
    same_file s' oldfd newfd ∧ fd_offset s' newfd = Some (f_offset f) ∧
    ∀ i, i ≠ newfd → fst <$> fd_file s' i = fst <$> fd_file s i.
Proof.
  pose proof (fd_range _ _ _ _ Hinv Hnew) as Hr.
  pose proof Hold as (Hp & Hn & Hf)%fd_file_Some.
  assert (oldfd ≠ newfd) as Hne by congruence.
  rewrite (sys_dup2_spec base s oldfd newfd p f) by done.
  rewrite (proj2 (Z.eqb_neq _ _)) by done.
  assert (fd_file s newfd = None) as -> by (unfold fd_file; by rewrite Hnew).
  eexists. split; [reflexivity|]. split; [by apply fd_inv_dup|].
  set (s' := with_opened _ _).
  assert (fd_file s' newfd = Some (p, file_refs (f_ref_count f + 1) f)) as Hs'.
  { apply fd_file_Some. simpl. rewrite lookup_insert_eq, zget_zset_eq; [done|].
    by rewrite (fi_len _ _ Hinv). }
  split_and!.
  - exists p, (file_refs (f_ref_count f + 1) f). split; [|done].
    apply fd_file_Some. simpl. by rewrite lookup_insert_eq, zget_zset_ne.
  - unfold fd_offset. by rewrite Hs'.
  - intros i Hi. unfold fd_file. simpl. rewrite zget_zset_ne by done.
    destruct (zget (opened_files s) i) as [q|] eqn:Hq; [|done]. simpl.
    destruct (Z.eqb_spec q 0); [done|].
    destruct (fi_fd _ _ Hinv _ _ Hq) as [f1 Hf1]; [done|].
    rewrite lookup_insert. case_decide; [|done]. subst q. by rewrite Hf1.
Qed.

(** C34: a descriptor that is out of range or closed is refused by every call that
    takes one, without a change: with EBADF, except that [lseek] prefers EINVAL for
    an invalid [whence] when the descriptor is closed but in range.  [dup2] refuses
    such an old descriptor, and a new one that is out of range. *)
Theorem bad_fd_refused base s fd
  (Hinv : fd_inv base s) (Hfd : fd_file s fd = None) :
  (∀ buf n, sys_read fd buf n s = Ok (EBADF, -1, s) ∧ sys_write fd buf n s = Ok (EBADF, -1, s)) ∧
  (∀ pos whence, sys_lseek fd pos whence s =
     Ok (if decide (0 ≤ fd < OPEN_MAX ∧ ¬ 0 ≤ whence ≤ 2) then EINVAL else EBADF, -1, s)) ∧
  sys_close fd s = Ok (EBADF, -1, s) ∧
  (∀ newfd, sys_dup2 fd newfd s = Ok (EBADF, -1, s)) ∧
  ∀ oldfd newfd, ¬ 0 ≤ newfd < OPEN_MAX → sys_dup2 oldfd newfd s = Ok (EBADF, -1, s).
Proof.
  split_and!.
  - intros buf n. by rewrite (sys_read_spec base), (sys_write_spec base), Hfd.
  - intros pos whence. destruct (decide (0 ≤ whence ≤ 2)) as [Hw|Hw].
    + rewrite decide_False by tauto. destruct (sys_lseek_spec base s fd pos whence Hinv Hw) as [->|(_ & _ & [? ?] & _)];
        [by rewrite Hfd|congruence].
    + by apply lseek_bad_whence.
  - by rewrite (sys_close_spec base), Hfd.
  - intros newfd. apply (sys_dup2_bad base); [done|by left].
  - intros oldfd newfd Hn. by apply sys_dup2_range.
Qed.

(** [sys_dup2] onto a descriptor that is open stops the kernel: it calls
    [sys_close], which takes the lock of the table a second time. *)
Theorem dup2_onto_open_panics base s oldfd newfd pf qg
  (Hinv : fd_inv base s) (Hold : fd_file s oldfd = Some pf) (Hnew : fd_file s newfd = Some qg)
  (Hne : oldfd ≠ newfd) :
  sys_dup2 oldfd newfd s = Panic.
Proof.
  destruct pf as [p f], qg as [q g]. pose proof Hnew as (Hq & _)%fd_file_Some.
  rewrite (sys_dup2_spec base s oldfd newfd p f) by (done || by eapply fd_range).
  by rewrite (proj2 (Z.eqb_neq _ _)), Hnew.
Qed.

(** With all descriptors in use, [_sys_open] never returns EMFILE: when the
    file itself can be opened and memory is not short, it releases a lock it
    does not hold, which stops the kernel. *)
Theorem open_full_panics (HA : FAllocLaws) (HV : VfsLaws) base path flags mode s v w
  (Hinv : fd_inv base s) (Hfull : ∀ i, zget (opened_files s) i ≠ Some 0)
  (Hopen : vfs_open path flags mode (vw s) = (0, v, w)) (Hflags : Z.land flags O_APPEND = 0)
  (Hmem : ∀ s', kmalloc s' ≠ 0 ∧ lock_create s' ≠ 0) :
  _sys_open path flags mode s = Panic.
Proof.
  unfold _sys_open. rewrite Hopen. simpl. rewrite (proj2 (Z.eqb_neq _ _)) by apply Hmem.
  rewrite Hflags. simpl. rewrite (proj2 (Z.eqb_neq _ _)) by apply Hmem.
  unfold set_lock. simpl. rewrite lookup_insert_eq. simpl.
  match goal with |- context [lock_create ?S] => pose (s1 := S); set (lk := lock_create S) end.
  assert (locks s !! lk = None) as Hlk.
  { apply eq_None_not_Some. intros Hs. apply (lock_create_fresh s1); [apply Hmem|]. right; by left. }
  pose proof (fi_ft _ _ Hinv) as Hft. assert (lk ≠ ft_lock s) by congruence.
  rewrite acquire_ok by (simpl; by rewrite lookup_insert_ne). simpl.
  rewrite (proj2 (free_slot_None (opened_files s) 0) Hfull).
  rewrite (release_after _ (<[lk:=false]> (locks s))) by (simpl; by rewrite ?lookup_insert_ne).
  simpl. unfold lock_release. simpl. by rewrite lookup_insert_eq.
Qed.

(** A seek to before the start of the file, relative to its end, returns
    EINVAL but moves the offset to the end of the file. *)
Theorem lseek_end_error_moves base s fd pos p f size w
  (Hinv : fd_inv base s) (Hfd : fd_file s fd = Some (p, f))
  (Hseek : VOP_ISSEEKABLE (f_vnode f) (vw s) = true)
  (Hst : VOP_STAT (f_vnode f) (vw s) = (0, size, w)) (Hneg : s64 (size + pos) < 0)
  (Hmem : ∀ s', kmalloc s' ≠ 0) :
  ∃ s', sys_lseek fd pos SEEK_END s = Ok (EINVAL, -1, s') ∧ fd_offset s' fd = Some size.
Proof.
  destruct (sys_lseek_spec base s fd pos SEEK_END Hinv) as [->|(_ & _ & _ & s' & ?)];
    [done| |by destruct (Hmem s')].
  rewrite Hfd. unfold seek, seek_end, seek_to. rewrite Hseek, Hst. simpl.
  rewrite (proj2 (Z.ltb_lt _ _)) by done. eexists. split; [reflexivity|].
  exact (fd_offset_update s fd p f size Hfd).
Qed.

End properties.

(** ** A small file system

    The console, and one other file of fixed size to which all other paths lead. *)

Record demo_world := DemoWorld { dw_opens : gmap Z Z; dw_size : Z }.

Definition demo_opens (w : demo_world) (v : Z) : Z := default 0 (dw_opens w !! v).
Definition demo_add (v n : Z) (w : demo_world) : demo_world :=
  DemoWorld (<[v := demo_opens w v + n]> (dw_opens w)) (dw_size w).

Definition demo_transfer (u : uio) (w : demo_world) : Z * uio * demo_world :=
  let n := Z.max 0 (Z.min (uio_resid u) (dw_size w - uio_offset u)) in
  if (0 <=? uio_resid u) && (uio_offset u + n <? two63)
  then (0, Uio (iov_ubase u) (uio_offset u + n) (uio_resid u - n) (uio_dir u), w)
  else (EINVAL, u, w).

#[export] Instance demo_vfs : Vfs := {
  world := demo_world;
  vfs_open path flags mode w :=
    let v := if String.eqb path "con:" then 7 else 9 in (0, v, demo_add v 1 w);
  vfs_close v w := demo_add v (-1) w;
  VOP_STAT v w := (0, Z.max 0 (Z.min (dw_size w) (two63 - 1)), w);
  VOP_ISSEEKABLE v w := v =? 9;
  VOP_READ v u w := demo_transfer u w;
  VOP_WRITE v u w := demo_transfer u w;
  copyinstr ptr len w := (0, "f"%string);
  opens := demo_opens
}.

Lemma demo_add_opens v n w u :
  demo_opens (demo_add v n w) u = demo_opens w u + (if decide (u = v) then n else 0).
Proof.
  unfold demo_opens at 1, demo_add. simpl. rewrite lookup_insert.
  repeat case_decide; subst; simpl; try done; unfold demo_opens; lia.
Qed.

Lemma demo_transfer_laws u w e u' w' :
  demo_transfer u w = (e, u', w') →
  (e = 0 → 0 ≤ uio_resid u' ≤ uio_resid u ∧
     uio_offset u' = uio_offset u + (uio_resid u - uio_resid u') ∧ uio_offset u' < two63) ∧
  ∀ x, demo_opens w' x = demo_opens w x.
Proof.
  unfold demo_transfer. destruct (_ && _) eqn:E; intros [= <- <- <-]; [|done].
  apply andb_true_iff in E. rewrite Z.leb_le, Z.ltb_lt in E. simpl. split; [lia|done].
Qed.

#[export] Instance demo_vfs_laws : VfsLaws.
Proof.
  split; simpl.
  - intros path flags mode w e v w' [= <- <- <-]. rewrite decide_True by done.
    split; [by destruct (String.eqb path "con:")|]. intros u. apply demo_add_opens.
  - intros v w u. rewrite demo_add_opens. case_decide; lia.
  - intros v w e size w' [= <- <- <-]. split; [unfold two63; lia|done].
  - intros v u w e u' w'. apply demo_transfer_laws.
  - intros v u w e u' w'. apply demo_transfer_laws.
Qed.

(** An allocator that always finds a free address. *)
Definition fresh_address (s : fstate) : Z :=
  1 + Z.max (foldr Z.max 0 (map_to_list (files s)).*1)
        (Z.max (foldr Z.max 0 (map_to_list (locks s)).*1) (foldr Z.max 0 (elements (bufs s)))).

#[export] Instance demo_falloc : FAlloc := { kmalloc := fresh_address; lock_create := fresh_address }.

Lemma foldr_max_le l x : x ∈ l → x ≤ foldr Z.max 0 l.
Proof. induction 1; simpl; lia. Qed.

Lemma foldr_max_nonneg l : 0 ≤ foldr Z.max 0 l.
Proof. induction l; simpl; lia. Qed.

Lemma fresh_address_pos s : 0 < fresh_address s.
Proof.
  unfold fresh_address. pose proof (foldr_max_nonneg (map_to_list (files s)).*1). lia.
Qed.

Lemma fresh_address_fresh s : ¬ live s (fresh_address s).
Proof.
  unfold live. intros [[f Hf]|[[b Hb]|Hb]].
  - assert (fresh_address s ∈ (map_to_list (files s)).*1) as Hin
      by (apply list_elem_of_fmap; exists (fresh_address s, f); split; [done|]; by apply elem_of_map_to_list).
    apply foldr_max_le in Hin. unfold fresh_address in Hin. lia.
  - assert (fresh_address s ∈ (map_to_list (locks s)).*1) as Hin
      by (apply list_elem_of_fmap; exists (fresh_address s, b); split; [done|]; by apply elem_of_map_to_list).
    apply foldr_max_le in Hin. unfold fresh_address in Hin. lia.
  - apply elem_of_elements, foldr_max_le in Hb. unfold fresh_address in Hb. lia.
Qed.

#[export] Instance demo_falloc_laws : FAllocLaws.
Proof. split; intros s _; apply fresh_address_fresh. Qed.

Definition demo_proc : fstate := FState ∅ ∅ ∅ [] 0 (DemoWorld ∅ 100).
Definition from_ok {A} (d : A) (o : outcome A) : A := match o with Ok a => a | _ => d end.
Definition demo_std : fstate := (from_ok (0, demo_proc) (init_process_file_table demo_proc)).2.
Definition demo_open : fstate := (from_ok (0, 0, demo_std) (sys_open 0 O_RDWR 0 demo_std)).2.

Ltac eval_eq := match goal with |- _ = ?b => vm_cast_no_check (eq_refl b) end.

Lemma demo_std_eq : init_process_file_table demo_proc = Ok (0, demo_std).
Proof. eval_eq. Qed.

Lemma demo_open_eq : sys_open 0 O_RDWR 0 demo_std = Ok (0, 3, demo_open).
Proof. eval_eq. Qed.

Lemma demo_std_reachable :
  reachable (λ s, init_process_file_table demo_proc = Ok (0, s)) fd_step demo_std.
Proof. apply reach_init. exact demo_std_eq. Qed.

Lemma demo_std_inv : fd_inv (opens (vw demo_proc)) demo_std.
Proof. by eapply init_process_spec; [|exact demo_std_eq]. Qed.

Lemma demo_open_inv : fd_inv (opens (vw demo_proc)) demo_open.
Proof. eapply fd_step_inv; [exact demo_std_inv|]. eapply step_open. exact demo_open_eq. Qed.

Lemma fd_table_consistent_witness :
  sys_open 0 O_RDWR 0 demo_std = Ok (0, 3, demo_open) ∧ fd_inv (opens (vw demo_proc)) demo_open.
Proof.
  split; [exact demo_open_eq|].
  refine (fd_table_consistent demo_falloc_laws demo_vfs_laws demo_proc demo_open eq_refl _).
  eapply reach_step; [exact demo_std_reachable|]. exact (step_open _ _ _ _ _ _ _ demo_open_eq).
Defined.

Lemma init_std_fds_witness : std_fds 3 demo_std.
Proof. exact (init_std_fds demo_falloc_laws demo_vfs_laws demo_proc demo_std eq_refl demo_std_eq). Defined.

Definition demo_open2 : fstate := (from_ok (0, 0, demo_open) (_sys_open "g" O_APPEND 0 demo_open)).2.

Lemma demo_open2_eq : _sys_open "g" O_APPEND 0 demo_open = Ok (0, 4, demo_open2).
Proof. eval_eq. Qed.

Lemma open_lowest_fd_witness : fd_file demo_open 4 = None ∧ ∀ i, i ≠ 4 → fd_file demo_open2 i = fd_file demo_open i.
Proof.
  destruct (open_lowest_fd demo_falloc_laws demo_vfs_laws _ "g" O_APPEND 0 demo_open 4 demo_open2
    demo_open_inv demo_open2_eq) as (_ & H1 & _ & _ & H2).
  split; [exact H1|exact H2].
Defined.

Definition demo_f : file := File O_RDWR 1 0 9 11.

Lemma demo_fd : fd_file demo_open 3 = Some (10, demo_f).
Proof. eval_eq. Qed.

Lemma demo_fd_closed : zget (opened_files demo_open) 5 = Some 0.
Proof. eval_eq. Qed.

Lemma read_advances_witness :
  ∃ e r s', sys_read 3 4096 30 demo_open = Ok (e, r, s') ∧
    if decide (e = 0) then 0 ≤ r ≤ 30 ∧ fd_offset s' 3 = Some (0 + r)
    else r = -1 ∧ fd_offset s' 3 = Some 0.
Proof.
  exact (read_advances demo_vfs_laws _ demo_open 3 4096 30 10 demo_f demo_open_inv demo_fd
    ltac:(discriminate) ltac:(unfold two31; lia)).
Defined.

Lemma write_advances_witness :
  ∃ e r s', sys_write 3 4096 200 demo_open = Ok (e, r, s') ∧
    if decide (e = 0) then 0 ≤ r ≤ 200 ∧ fd_offset s' 3 = Some (0 + r)
    else r = -1 ∧ fd_offset s' 3 = Some 0.
Proof.
  exact (write_advances demo_vfs_laws _ demo_open 3 4096 200 10 demo_f demo_open_inv demo_fd
    ltac:(discriminate) ltac:(unfold two31; lia)).
Defined.

Lemma demo_kmalloc (s : fstate) : kmalloc s ≠ 0.
Proof. pose proof (fresh_address_pos s). simpl. lia. Qed.

Lemma lseek_positions_witness :
  ∃ e r s', sys_lseek 3 (-10) SEEK_END demo_open = Ok (e, r, s').
Proof.
  destruct (lseek_positions demo_vfs_laws _ demo_open 3 (-10) SEEK_END 10 demo_f demo_open_inv demo_fd
    eq_refl ltac:(unfold SEEK_END; lia) ltac:(unfold is_s64, two63; lia) demo_kmalloc) as (e & r & s' & H & _).
  exists e, r, s'. exact H.
Defined.

Lemma close_releases_witness : ∃ s', sys_close 3 demo_open = Ok (0, 0, s') ∧ fd_file s' 3 = None.
Proof.
  destruct (close_releases demo_vfs_laws _ demo_open 3 10 demo_f demo_open_inv demo_fd)
    as (s' & H & _ & H' & _).
  exists s'. split; [exact H|exact H'].
Defined.

Lemma dup2_shares_witness : ∃ s', sys_dup2 3 5 demo_open = Ok (0, 5, s') ∧ same_file s' 3 5.
Proof.
  destruct (dup2_shares demo_vfs_laws _ demo_open 3 5 10 demo_f demo_open_inv demo_fd demo_fd_closed)
    as (s' & H & _ & H' & _).
  exists s'. split; [exact H|exact H'].
Defined.

Lemma demo_fd_none : fd_file demo_open 5 = None.
Proof. eval_eq. Qed.

Lemma bad_fd_refused_witness : sys_close 5 demo_open = Ok (EBADF, -1, demo_open).
Proof. exact (proj1 (proj2 (proj2 (bad_fd_refused _ demo_open 5 demo_open_inv demo_fd_none)))). Defined.

Lemma demo_fd1 : fd_file demo_open 1 = Some (5, File O_RDWR 1 0 7 6).
Proof. eval_eq. Qed.

Lemma dup2_onto_open_panics_witness : sys_dup2 3 1 demo_open = Panic.
Proof.
  exact (dup2_onto_open_panics _ demo_open 3 1 _ _ demo_open_inv demo_fd demo_fd1 ltac:(discriminate)).
Defined.

(** A process that has made all descriptors refer to one file. *)
Definition demo_full : fstate :=
  FState {[3 := File O_RDWR 128 0 7 2]} {[1 := false; 2 := false]} ∅ (replicate 128 3) 1 (vw demo_open).

Lemma demo_full_refs : refs 3 (opened_files demo_full) = 128.
Proof. vm_compute. reflexivity. Qed.

Lemma demo_full_inv : fd_inv (λ v, opens (vw demo_full) v - file_opens (files demo_full) v) demo_full.
Proof.
  constructor.
  - reflexivity.
  - reflexivity.
  - intros fd p Hp _. unfold zget in Hp. case_decide; [|discriminate].
    apply lookup_replicate in Hp as [-> _]. eexists. reflexivity.
  - intros p f Hf. cbn [files demo_full] in Hf. apply lookup_singleton_Some in Hf as [<- <-].
    rewrite demo_full_refs.
    split_and!; try done.
  - intros p q f g Hf Hg _. cbn [files demo_full] in Hf, Hg. apply lookup_singleton_Some in Hf as [<- _].
    by apply lookup_singleton_Some in Hg as [<- _].
  - intros v. lia.
Qed.

Lemma open_full_panics_witness : _sys_open "g" O_RDWR 0 demo_full = Panic.
Proof.
  refine (open_full_panics demo_falloc_laws demo_vfs_laws _ "g" O_RDWR 0 demo_full 9 _
    demo_full_inv _ eq_refl eq_refl _).
  - intros i Hi. unfold zget in Hi. case_decide; [|discriminate].
    apply lookup_replicate in Hi as [Hi _]. discriminate.
  - intros s'. split; apply demo_kmalloc.
Defined.

Lemma lseek_end_error_moves_witness :
  ∃ s', sys_lseek 3 (-200) SEEK_END demo_open = Ok (EINVAL, -1, s') ∧ fd_offset s' 3 = Some 100.
Proof.
  exact (lseek_end_error_moves _ demo_open 3 (-200) 10 demo_f 100 _ demo_open_inv demo_fd eq_refl eq_refl
    ltac:(reflexivity) demo_kmalloc).
Defined.
