(* ===== verification/Bswap.v ===== *)
(** * Byte order

    Models original_asst3/kern/lib/bswap.c for the machine the kernel runs on,
    which is big-endian. *)

From S2P Require Import Prelude.

Definition bswap16 (val : Z) : Z :=
  Z.lor (Z.shiftl (Z.land val 0xff) 8) (Z.shiftr (Z.land val 0xff00) 8).

Definition bswap32 (val : Z) : Z :=
  Z.lor (Z.lor (Z.lor
    (u32 (Z.shiftl (Z.land val 0xff) 24))
    (u32 (Z.shiftl (Z.land val 0xff00) 8)))
    (Z.shiftr (Z.land val 0xff0000) 8))
    (Z.shiftr (Z.land val 0xff000000) 24).

Definition bswap64 (val : Z) : Z :=
  Z.lor (Z.lor (Z.lor (Z.lor (Z.lor (Z.lor (Z.lor
    (u64 (Z.shiftl (Z.land val 0xff) 56))
    (u64 (Z.shiftl (Z.land val 0xff00) 40)))
    (u64 (Z.shiftl (Z.land val 0xff0000) 24)))
    (u64 (Z.shiftl (Z.land val 0xff000000) 8)))
    (u64 (Z.shiftl (Z.land val 0xff00000000) 8)))
    (u64 (Z.shiftl (Z.land val 0xff0000000000) 24)))
    (Z.shiftr (Z.land val 0xff000000000000) 40))
    (Z.shiftr (Z.land val 0xff00000000000000) 56).

Definition ntohs (val : Z) : Z := val.
Definition htons (val : Z) : Z := val.
Definition ntohl (val : Z) : Z := val.
Definition htonl (val : Z) : Z := val.
Definition ntohll (val : Z) : Z := val.
Definition htonll (val : Z) : Z := val.

Definition join32to64 (x1 x2 : Z) : Z := Z.lor (u64 (Z.shiftl x1 32)) x2.

Definition split64to32 (x : Z) : Z * Z := (u32 (Z.shiftr x 32), u32 (Z.land x 0xffffffff)).

(** ** Lemmas *)

Lemma split64to32_spec x : is_u64 x → split64to32 x = (x / two32, x mod two32).
Proof.
  intros Hx. unfold split64to32. rewrite Z.shiftr_div_pow2 by lia. change (2 ^ 32) with two32.
  change 0xffffffff with (Z.ones 32). rewrite Z.land_ones by lia. change (2 ^ 32) with two32.
  pose proof (Z.mod_pos_bound x two32 ltac:(done)).
  rewrite !u32_id; [done|done|]. split; [apply Z.div_pos; width|].
  apply Z.div_lt_upper_bound; width.
Qed.

Lemma join32to64_spec x1 x2 : is_u32 x1 → is_u32 x2 → join32to64 x1 x2 = x1 * two32 + x2.
Proof.
  intros H1 H2. unfold join32to64. rewrite Z.shiftl_mul_pow2 by lia. change (2 ^ 32) with two32.
  unfold u64. rewrite Z.mod_small by width.
  pose proof (Z.add_lor_land (x1 * two32) x2) as Ha.
  assert (Z.land (x1 * two32) x2 = 0) as Hl; [|lia].
  change two32 with (2 ^ 32). apply Z.bits_inj'. intros n Hn. rewrite Z.land_spec, Z.bits_0.
  destruct (decide (n < 32)).
  - by rewrite Z.mul_pow2_bits_low by lia.
  - rewrite <-(Z.mod_small x2 (2 ^ 32)) by exact H2.
    rewrite Z.mod_pow2_bits_high by lia. by rewrite andb_false_r.
Qed.

(** Bit [n] of a byte shuffle, for each of the 16 or 32 positions. *)
Ltac bit_of_shuffle :=
  unfold u32, two32; change 4294967296 with (2 ^ 32);
  rewrite ?Z.lor_spec, ?Z.mod_pow2_bits_low, ?Z.shiftl_spec, ?Z.shiftr_spec, ?Z.land_spec by lia;
  cbn -[Z.testbit]; rewrite ?Z.land_spec, ?Z.testbit_neg_r by lia; simpl;
  rewrite ?andb_true_r, ?andb_false_r, ?orb_false_r; simpl.

Ltac each_case H := repeat (destruct H as [->|H]; [bit_of_shuffle; reflexivity|]); subst; bit_of_shuffle; reflexivity.

Lemma bswap16_bits x i j :
  0 ≤ i < 2 → 0 ≤ j < 8 → Z.testbit (bswap16 x) (8 * i + j) = Z.testbit x (8 * (1 - i) + j).
Proof.
  intros Hi Hj. unfold bswap16.
  assert (i = 0 ∨ i = 1) as Hi' by lia.
  assert (j = 0 ∨ j = 1 ∨ j = 2 ∨ j = 3 ∨ j = 4 ∨ j = 5 ∨ j = 6 ∨ j = 7) as Hj' by lia.
  destruct Hi' as [->| ->]; each_case Hj'.
Qed.

Lemma bswap32_bits x i j :
  0 ≤ i < 4 → 0 ≤ j < 8 → Z.testbit (bswap32 x) (8 * i + j) = Z.testbit x (8 * (3 - i) + j).
Proof.
  intros Hi Hj. unfold bswap32.
  assert (i = 0 ∨ i = 1 ∨ i = 2 ∨ i = 3) as Hi' by lia.
  assert (j = 0 ∨ j = 1 ∨ j = 2 ∨ j = 3 ∨ j = 4 ∨ j = 5 ∨ j = 6 ∨ j = 7) as Hj' by lia.
  destruct Hi' as [->|[->|[->| ->]]]; each_case Hj'.
Qed.

Lemma bswap32_high x n : 32 ≤ n → Z.testbit (bswap32 x) n = false.
Proof.
  intros Hn. unfold bswap32, u32, two32. change 4294967296 with (2 ^ 32).
  rewrite !Z.lor_spec, !Z.mod_pow2_bits_high, !Z.shiftr_spec, !Z.land_spec by lia.
  rewrite (Z.bits_above_log2 0xff0000), (Z.bits_above_log2 0xff000000)
    by (done || cbn; lia). by rewrite !andb_false_r.
Qed.

Lemma u32_high x n : is_u32 x → 32 ≤ n → Z.testbit x n = false.
Proof.
  intros Hx Hn. rewrite <-(Z.mod_small x (2 ^ 32)) by exact Hx.
  by rewrite Z.mod_pow2_bits_high by lia.
Qed.

(** ** Properties *)

(** [bswap32] reverses the order of the four bytes of its argument: bit [j]
    of byte [i] of the result is bit [j] of byte [3 - i] of the argument.  Doing
    it twice gives the argument back. *)
Theorem bswap32_reverses x :
  (∀ i j, 0 ≤ i < 4 → 0 ≤ j < 8 → Z.testbit (bswap32 x) (8 * i + j) = Z.testbit x (8 * (3 - i) + j)) ∧
  bswap32 (bswap32 (u32 x)) = u32 x.
Proof.
  split; [intros; by apply bswap32_bits|]. set (y := u32 x).
  assert (is_u32 y) as Hy by apply u32_range. apply Z.bits_inj'. intros n Hn.
  destruct (decide (32 ≤ n)) as [Hge|Hlt].
  { by rewrite bswap32_high, u32_high by done. }
  pose proof (Z.div_mod n 8 ltac:(lia)). pose proof (Z.mod_pos_bound n 8 ltac:(lia)).
  assert (0 ≤ n / 8 < 4) by (split; [apply Z.div_pos|apply Z.div_lt_upper_bound]; lia).
  replace n with (8 * (n / 8) + n mod 8) by lia.
  rewrite bswap32_bits by lia. rewrite bswap32_bits by lia.
  f_equal. lia.
Qed.

(** The two halves of a 64-bit system call argument or result are put
    together and taken apart without loss, in both directions. *)
Theorem join_split_roundtrip x x1 x2 (Hx : is_u64 x) (H1 : is_u32 x1) (H2 : is_u32 x2) :
  split64to32 (join32to64 x1 x2) = (x1, x2) ∧
  join32to64 (split64to32 x).1 (split64to32 x).2 = x.
Proof.
  split.
  - rewrite join32to64_spec by done. rewrite split64to32_spec by width. f_equal.
    + symmetry. apply (Z.div_unique _ _ _ x2); width.
    + symmetry. apply (Z.mod_unique _ _ x1); width.
  - rewrite split64to32_spec by done. simpl.
    pose proof (Z.mod_pos_bound x two32 ltac:(done)). pose proof (Z.div_mod x two32 ltac:(done)).
    rewrite join32to64_spec; [lia| |done]. split; [apply Z.div_pos; width|].
    apply Z.div_lt_upper_bound; width.
Qed.

(** [bswap64] does not reverse bytes: bytes 4 and 5 are shifted the wrong
    way, so that two values are mapped to the same one and bytes are lost. *)
Theorem bswap64_loses_bytes :
  bswap64 0x000000ff00000000 = 0x0000ff0000000000 ∧
  bswap64 0x00000000ff000000 = 0x000000ff00000000 ∧
  bswap64 0x000000ff00000000 = bswap64 (0x0000000000ff0000) ∧
  bswap64 (bswap64 0x000000ff00000000) ≠ 0x000000ff00000000.
Proof. split_and!; vm_compute; congruence. Qed.

Lemma join_split_roundtrip_witness :
  split64to32 (join32to64 0xffffffff 0xfffffff6) = (0xffffffff, 0xfffffff6).
Proof.
  refine (proj1 (join_split_roundtrip 5 0xffffffff 0xfffffff6 _ _ _)); width.
Defined.
