(* ===== verification/Cstring.v ===== *)
(** * Strings and blocks of memory (common/libc/string, common/libc/stdlib/atoi.c, userland/lib/libc/string)

    The functions that kernel and user programs share.  Memory is a finite map from
    addresses to bytes; reading or writing where nothing is mapped is a [Fault].  A
    [char] is the byte it is stored as.  The loops that stop at a null byte take as
    fuel the size of the memory, which no string can exceed.

    The theorems relate the functions to lists of bytes: [cstr m a s] says that the
    string [s] is at address [a].  The copies by words are equal to copies by bytes, and
    [memmove] is right for overlapping blocks. *)

From stdpp Require Import base gmap list list_numbers.
From Stdlib Require Import ZArith Lia.
From S2P Require Import Prelude.
Open Scope Z_scope.

Abbreviation mem := (gmap Z Z).

Implicit Types (m : mem) (a d s : Z) (l : list Z).

Definition load m a : outcome Z := deref (m !! a).

Definition store m a (x : Z) : outcome mem :=
  _ ← deref (m !! a);
  Ok (<[a := x]> m).

(** A word is accessed as its bytes. *)
Fixpoint load_n m a (n : nat) : outcome (list Z) :=
  match n with
  | O => Ok []
  | S n => x ← load m a; l ← load_n m (a + 1) n; Ok (x :: l)
  end.

Fixpoint store_n m a l : outcome mem :=
  match l with
  | [] => Ok m
  | x :: l => m ← store m a x; store_n m (a + 1) l
  end.

Definition sizeof_long : Z := 4.

(** [p[i] = x] for each [i], where [x] is one byte or one word. *)
Fixpoint fill_loop (is_ : list Z) (x : list Z) m a : outcome mem :=
  match is_ with
  | [] => Ok m
  | i :: is_ => m ← store_n m (a + i * zlen x) x; fill_loop is_ x m a
  end.

Definition bzero m (block len : Z) : outcome mem :=
  if (block mod sizeof_long =? 0) && (len mod sizeof_long =? 0)
  then fill_loop (seqZ 0 (len / sizeof_long)) [0; 0; 0; 0] m block
  else fill_loop (seqZ 0 len) [0] m block.

Definition memset m (ptr ch len : Z) : outcome (Z * mem) :=
  m ← fill_loop (seqZ 0 len) [ch mod 256] m ptr;
  Ok (ptr, m).

(** [d[i] = s[i]] for each [i], in units of [u] bytes. *)
Fixpoint copy_units (is_ : list Z) (u : nat) m d s : outcome mem :=
  match is_ with
  | [] => Ok m
  | i :: is_ =>
      x ← load_n m (s + i * Z.of_nat u) u;
      m ← store_n m (d + i * Z.of_nat u) x;
      copy_units is_ u m d s
  end.

Definition aligned (dst src len : Z) : bool :=
  (dst mod sizeof_long =? 0) && (src mod sizeof_long =? 0) && (len mod sizeof_long =? 0).

Definition memcpy m (dst src len : Z) : outcome (Z * mem) :=
  m ← (if aligned dst src len
       then copy_units (seqZ 0 (len / sizeof_long)) 4 m dst src
       else copy_units (seqZ 0 len) 1 m dst src);
  Ok (dst, m).

Definition memmove m (dst src len : Z) : outcome (Z * mem) :=
  if dst <? src then memcpy m dst src len
  else
    m ← (if aligned dst src len
         then copy_units (reverse (seqZ 0 (len / sizeof_long))) 4 m dst src
         else copy_units (reverse (seqZ 0 len)) 1 m dst src);
    Ok (dst, m).

Fixpoint memcmp_loop (is_ : list Z) m a b : outcome Z :=
  match is_ with
  | [] => Ok 0
  | i :: is_ =>
      x ← load m (a + i); y ← load m (b + i);
      if negb (x =? y) then Ok (x - y) else memcmp_loop is_ m a b
  end.

Definition memcmp m a b (len : Z) : outcome Z := memcmp_loop (seqZ 0 len) m a b.

(** ** Strings *)

Fixpoint strlen_loop (fuel : nat) m (str ret : Z) : outcome Z :=
  match fuel with
  | O => Hang
  | S fuel =>
      c ← load m (str + ret);
      if c =? 0 then Ok ret else strlen_loop fuel m str (ret + 1)
  end.

Definition fuel_of m : nat := S (size m).

Definition strlen m (str : Z) : outcome Z := strlen_loop (fuel_of m) m str 0.

Fixpoint strcpy_loop (fuel : nat) m (dest src i : Z) : outcome mem :=
  match fuel with
  | O => Hang
  | S fuel =>
      c ← load m (src + i);
      if c =? 0 then store m (dest + i) 0
      else m ← store m (dest + i) c; strcpy_loop fuel m dest src (i + 1)
  end.

Definition strcpy m (dest src : Z) : outcome (Z * mem) :=
  m ← strcpy_loop (fuel_of m) m dest src 0;
  Ok (dest, m).

Definition strcat m (dest src : Z) : outcome (Z * mem) :=
  offset ← strlen m dest;
  '(_, m) ← strcpy m (dest + offset) src;
  Ok (dest, m).

(** The result is an address, or [NULL]. *)
Fixpoint strchr_loop (fuel : nat) m s (ch : Z) : outcome Z :=
  match fuel with
  | O => Hang
  | S fuel =>
      c ← load m s;
      if c =? 0 then Ok (if c =? ch then s else 0)
      else if c =? ch then Ok s
      else strchr_loop fuel m (s + 1) ch
  end.

Definition strchr m s (ch_arg : Z) : outcome Z := strchr_loop (fuel_of m) m s (ch_arg mod 256).

Fixpoint strcmp_loop (fuel : nat) m a b (i : Z) : outcome Z :=
  match fuel with
  | O => Hang
  | S fuel =>
      x ← load m (a + i);
      y ← load m (b + i);
      if negb (x =? 0) && (x =? y) then strcmp_loop fuel m a b (i + 1)
      else Ok (if y <? x then 1 else if x =? y then 0 else -1)
  end.

Definition strcmp m a b : outcome Z := strcmp_loop (fuel_of m) m a b 0.

(** [i] is the index plus one. *)
Fixpoint strrchr_loop (i : nat) m s (ch : Z) : outcome Z :=
  match i with
  | O => Ok 0
  | S i =>
      c ← load m (s + Z.of_nat i);
      if c =? ch then Ok (s + Z.of_nat i) else strrchr_loop i m s ch
  end.

Definition strrchr m s (ch_arg : Z) : outcome Z :=
  n ← strlen m s;
  strrchr_loop (Z.to_nat (n + 1)) m s (ch_arg mod 256).

(** Skip characters while they are ([sep]) or are not separators. *)
Fixpoint span_loop (fuel : nat) (sep : bool) m (seps head : Z) : outcome Z :=
  match fuel with
  | O => Hang
  | S fuel =>
      c ← load m head;
      if c =? 0 then Ok head
      else
        w ← strchr m seps c;
        if Bool.eqb (negb (w =? 0)) sep then span_loop fuel sep m seps (head + 1) else Ok head
  end.

(** The word, the context and the memory; addresses are 0 for [NULL]. *)
Definition strtok_r m (string seps context : Z) : outcome (Z * Z * mem) :=
  let head := if negb (string =? 0) then string else context in
  if head =? 0 then Ok (0, head, m)
  else
    head ← span_loop (fuel_of m) true m seps head;
    c ← load m head;
    if c =? 0 then Ok (0, 0, m)
    else
      tail ← span_loop (fuel_of m) false m seps head;
      c ← load m tail;
      if c =? 0 then Ok (head, 0, m)
      else
        m ← store m tail 0;
        Ok (head, tail + 1, m).

(** [strtok] keeps the context in a static variable. *)
Definition strtok m (str seps __strtok_context : Z) : outcome (Z * Z * mem) := strtok_r m str seps __strtok_context.

(** ** atoi.c

    [digits] is the address of the string 0123456789. *)

Fixpoint skip_white (fuel : nat) m s : outcome Z :=
  match fuel with
  | O => Hang
  | S fuel =>
      c ← load m s;
      if (c =? 32) || (c =? 9) then skip_white fuel m (s + 1) else Ok s
  end.

Fixpoint digits_loop (fuel : nat) m (digits s val : Z) : outcome Z :=
  match fuel with
  | O => Hang
  | S fuel =>
      c ← load m s;
      if c =? 0 then Ok val
      else
        where_ ← strchr m digits c;
        if where_ =? 0 then Ok val
        else digits_loop fuel m digits (s + 1) (u32 (u32 (val * 10) + (where_ - digits)))
  end.

Definition atoi m (digits s : Z) : outcome Z :=
  s ← skip_white (fuel_of m) m s;
  c ← load m s;
  let '(neg, s) := if c =? 45 then (true, s + 1) else if c =? 43 then (false, s + 1) else (false, s) in
  val ← digits_loop (fuel_of m) m digits s 0;
  Ok (s32 (if neg : bool then u32 (- val) else val)).


(** ** Blocks as lists *)

Definition bytes_at m a l : Prop := ∀ i, (i < length l)%nat → m !! (a + Z.of_nat i) = l !! i.
Definition mapped m a (n : Z) : Prop := ∀ i, 0 ≤ i < n → is_Some (m !! (a + i)).
Definition write m a l : mem := map_seqZ a l ∪ m.

Lemma lookup_write m a l k :
  write m a l !! k = if decide (a ≤ k < a + zlen l) then l !! Z.to_nat (k - a) else m !! k.
Proof.
  unfold write, zlen. rewrite lookup_union, lookup_map_seqZ. case_decide as Hk.
  - rewrite option_guard_True by lia. destruct (lookup_lt_is_Some_2 l (Z.to_nat (k - a))) as [x ->]; [lia|]. apply union_Some_l.
  - assert (∀ o : option Z, None ∪ o = o) as Hn by (by intros []). case_guard; [|apply Hn]. cbn. rewrite lookup_ge_None_2 by lia. apply Hn.
Qed.

Ltac write_eq := apply map_eq; intros k; rewrite ?lookup_write.

Lemma write_nil m a : write m a [] = m.
Proof. write_eq. rewrite decide_False; [done|]. unfold zlen. cbn. lia. Qed.

Lemma write_app m a l1 l2 : write m a (l1 ++ l2) = write (write m a l1) (a + zlen l1) l2.
Proof.
  write_eq. rewrite zlen_app. unfold zlen. repeat case_decide; try lia; [|by rewrite lookup_app_l by lia|done].
  rewrite lookup_app_r by lia. f_equal. lia.
Qed.

(** The blocks written in the other order. *)
Lemma write_app' m a l1 l2 : write m a (l1 ++ l2) = write (write m (a + zlen l1) l2) a l1.
Proof.
  write_eq. rewrite zlen_app. unfold zlen. repeat case_decide; try lia; [by rewrite lookup_app_l by lia| |done].
  rewrite lookup_app_r by lia. f_equal. lia.
Qed.

Lemma write_insert m a x : write m a [x] = <[a := x]> m.
Proof.
  write_eq. destruct (decide (k = a)) as [->|Hk].
  - rewrite lookup_insert_eq, decide_True, Z.sub_diag by (unfold zlen; cbn; lia). done.
  - rewrite lookup_insert_ne, decide_False by (unfold zlen; cbn; lia). done.
Qed.

Lemma write_cons m a x l : write m a (x :: l) = write (<[a := x]> m) (a + 1) l.
Proof. change (x :: l) with ([x] ++ l). by rewrite write_app, write_insert. Qed.

Lemma mapped_write m a l b n : mapped m b n → mapped (write m a l) b n.
Proof.
  intros Hm i Hi. rewrite lookup_write. case_decide; [|by apply Hm]. apply lookup_lt_is_Some. unfold zlen in *. lia.
Qed.

Lemma mapped_sub m a n b k : mapped m a n → a ≤ b → b + k ≤ a + n → mapped m b k.
Proof. intros Hm Hb Hk i Hi. replace (b + i) with (a + (b - a + i)) by lia. apply Hm. lia. Qed.

Lemma bytes_mapped m a l : bytes_at m a l → mapped m a (zlen l).
Proof.
  intros Hb i Hi. unfold zlen in Hi. replace i with (Z.of_nat (Z.to_nat i)) by lia. rewrite Hb by lia. apply lookup_lt_is_Some. lia.
Qed.

Lemma bytes_app m a l1 l2 : bytes_at m a (l1 ++ l2) ↔ bytes_at m a l1 ∧ bytes_at m (a + zlen l1) l2.
Proof.
  unfold bytes_at, zlen. rewrite length_app. split.
  - intros Hb. split; intros i Hi.
    + rewrite Hb, lookup_app_l by lia. done.
    + replace (a + Z.of_nat (length l1) + Z.of_nat i) with (a + Z.of_nat (length l1 + i)) by lia.
      rewrite Hb, lookup_app_r by lia. f_equal. lia.
  - intros [H1 H2] i Hi. destruct (decide (i < length l1)%nat) as [Hl|Hl]; [rewrite lookup_app_l by lia; by apply H1|].
    rewrite lookup_app_r, <-H2 by lia. f_equal. lia.
Qed.

Lemma bytes_cons m a x l : bytes_at m a (x :: l) ↔ m !! a = Some x ∧ bytes_at m (a + 1) l.
Proof.
  change (x :: l) with ([x] ++ l). rewrite bytes_app. change (zlen [x]) with 1. unfold bytes_at at 1. cbn [length]. split.
  - intros [H1 H2]. split; [|done]. rewrite <-(Z.add_0_r a). apply (H1 0%nat). lia.
  - intros [H1 H2]. split; [|done]. intros i Hi. assert (i = 0%nat) as -> by lia. by rewrite Z.add_0_r.
Qed.

Lemma bytes_nil m a : bytes_at m a [].
Proof. intros i Hi. cbn in Hi. lia. Qed.

(** A block elsewhere is not affected. *)
Lemma bytes_write_ne m a l b l' : bytes_at m b l' → a + zlen l ≤ b ∨ b + zlen l' ≤ a → bytes_at (write m a l) b l'.
Proof. intros Hb Hd i Hi. rewrite lookup_write, decide_False by (unfold zlen in *; lia). by apply Hb. Qed.

Lemma bytes_write m a l : bytes_at (write m a l) a l.
Proof. intros i Hi. rewrite lookup_write, decide_True by (unfold zlen; lia). f_equal. lia. Qed.

(** A block fits into the memory. *)
Lemma bytes_size m a l : bytes_at m a l → (length l ≤ size m)%nat.
Proof.
  intros Hb. assert (list_to_set (seqZ a (zlen l)) ⊆ dom m) as Hsub.
  { intros k Hk%elem_of_list_to_set%elem_of_seqZ. apply elem_of_dom. replace k with (a + (k - a)) by lia. apply (bytes_mapped _ _ _ Hb). lia. }
  apply subseteq_size in Hsub. rewrite size_dom, size_list_to_set, length_seqZ in Hsub by apply NoDup_seqZ. unfold zlen in Hsub. lia.
Qed.

Lemma load_n_ok m a l : bytes_at m a l → load_n m a (length l) = Ok l.
Proof.
  revert a. induction l as [|x l IH]; intros a Hb; [done|]. apply bytes_cons in Hb as [Hx Hb].
  cbn [length load_n]. unfold load. rewrite Hx. cbn [deref]. by rewrite bind_of_Ok, IH, bind_of_Ok.
Qed.

Lemma store_ok m a x : is_Some (m !! a) → store m a x = Ok (<[a := x]> m).
Proof. intros [y Hy]. unfold store. by rewrite Hy. Qed.

Lemma store_n_ok m a l : mapped m a (zlen l) → store_n m a l = Ok (write m a l).
Proof.
  revert m a. induction l as [|x l IH]; intros m a Hm; cbn [store_n]; [by rewrite write_nil|]. rewrite zlen_cons in Hm.
  rewrite store_ok by (rewrite <-(Z.add_0_r a); apply Hm; unfold zlen; lia). rewrite bind_of_Ok, <-write_insert, IH; [by rewrite write_insert, write_cons|].
  apply mapped_write. eapply mapped_sub; [exact Hm|lia|lia].
Qed.

(** ** Filling *)

Lemma fill_ok x n : ∀ k m a, mapped m (a + k * zlen x) (Z.of_nat n * zlen x) →
  fill_loop (seqZ k (Z.of_nat n)) x m a = Ok (write m (a + k * zlen x) (mjoin (replicate n x))).
Proof.
  induction n as [|n IH]; intros k m a Hm.
  { change (mjoin (replicate 0 x)) with (@nil Z). by rewrite write_nil. }
  rewrite Nat2Z.inj_succ in *. rewrite seqZ_cons by lia. cbn [fill_loop].
  rewrite store_n_ok by (eapply mapped_sub; [exact Hm|lia|unfold zlen; nia]). rewrite bind_of_Ok, Z.pred_succ, IH.
  - f_equal. change (mjoin (replicate (S n) x)) with (x ++ mjoin (replicate n x)). rewrite write_app. f_equal. lia.
  - apply mapped_write. eapply mapped_sub; [exact Hm|unfold zlen; nia|nia].
Qed.

Lemma join_words x n k : (∀ y, y ∈ x → y = 0) → length x = k → mjoin (replicate n x) = replicate (n * k) 0.
Proof.
  intros Hx <-. assert (x = replicate (length x) 0) as E.
  { symmetry. apply replicate_as_elem_of. by split. }
  induction n as [|n IH]; [done|]. cbn [replicate Nat.mul]. rewrite replicate_add, <-E. cbn. f_equal. exact IH.
Qed.

Lemma bzero_ok m block len : 0 ≤ len → mapped m block len → bzero m block len = Ok (write m block (replicate (Z.to_nat len) 0)).
Proof.
  intros Hl Hm. unfold bzero, sizeof_long. destruct (_ && _) eqn:E.
  - apply andb_true_iff in E as [_ E%Z.eqb_eq]. assert (len = 4 * (len / 4)) as El by (Z.to_euclidean_division_equations; lia).
    pose proof (Z.div_pos len 4 Hl ltac:(lia)). replace (len / 4) with (Z.of_nat (Z.to_nat (len / 4))) by lia.
    rewrite fill_ok; change (zlen [0; 0; 0; 0]) with 4; rewrite Z.mul_0_l, Z.add_0_r.
    + f_equal. rewrite (join_words [0;0;0;0] _ 4) by (done || (intros y; rewrite !elem_of_cons, elem_of_nil; naive_solver)). do 2 f_equal. lia.
    + by replace (Z.of_nat (Z.to_nat (len / 4)) * 4) with len by lia.
  - replace (seqZ 0 len) with (seqZ 0 (Z.of_nat (Z.to_nat len))) by (f_equal; lia).
    rewrite fill_ok; change (zlen [0]) with 1; rewrite Z.mul_0_l, Z.add_0_r.
    + f_equal. rewrite (join_words [0] _ 1) by (done || (intros y; rewrite !elem_of_cons, elem_of_nil; naive_solver)). do 2 f_equal. lia.
    + by replace (Z.of_nat (Z.to_nat len) * 1) with len by lia.
Qed.


Lemma memset_ok m ptr ch len : 0 ≤ len → mapped m ptr len →
  memset m ptr ch len = Ok (ptr, write m ptr (replicate (Z.to_nat len) (ch mod 256))).
Proof.
  intros Hl Hm. unfold memset. replace (seqZ 0 len) with (seqZ 0 (Z.of_nat (Z.to_nat len))) by (f_equal; lia).
  rewrite fill_ok; change (zlen [ch mod 256]) with 1; rewrite Z.mul_0_l, Z.add_0_r.
  - rewrite bind_of_Ok. do 3 f_equal. induction (Z.to_nat len) as [|n IH]; [done|]. cbn [replicate]. rewrite <-IH. done.
  - by replace (Z.of_nat (Z.to_nat len) * 1) with len by lia.
Qed.

(** ** Copying *)

Lemma split_unit l (n u : nat) : length l = (S n * u)%nat → ∃ l1 l2, l = l1 ++ l2 ∧ length l1 = u ∧ length l2 = (n * u)%nat.
Proof.
  intros Hl. exists (take u l), (drop u l). split; [by rewrite take_drop|]. rewrite length_take, length_drop. lia.
Qed.

(** Forwards, when the blocks do not overlap or the destination is below. *)
Lemma copy_forwards u n : ∀ k m d s l, length l = (n * u)%nat → bytes_at m (s + k * Z.of_nat u) l →
  mapped m (d + k * Z.of_nat u) (zlen l) → d ≤ s ∨ s + k * Z.of_nat u + zlen l ≤ d + k * Z.of_nat u →
  copy_units (seqZ k (Z.of_nat n)) u m d s = Ok (write m (d + k * Z.of_nat u) l).
Proof.
  induction n as [|n IH]; intros k m d s l Hl Hs Hd Hov.
  - destruct l; [|done]. by rewrite write_nil.
  - destruct (split_unit l n u Hl) as (l1 & l2 & -> & Hl1 & Hl2). apply bytes_app in Hs as [Hs1 Hs2].
    rewrite zlen_app in Hd, Hov. assert (zlen l1 = Z.of_nat u) as E1 by (unfold zlen; lia). rewrite E1 in *.
    pose proof (zlen_nonneg l2). rewrite Nat2Z.inj_succ, seqZ_cons by lia. cbn [copy_units]. rewrite <-Hl1 at 2. rewrite load_n_ok by done.
    rewrite bind_of_Ok, store_n_ok by (rewrite E1; eapply mapped_sub; [exact Hd|lia|lia]). rewrite bind_of_Ok, Z.pred_succ.
    replace (d + k * Z.of_nat u) with (d + Z.succ k * Z.of_nat u - Z.of_nat u) in * by lia.
    rewrite (IH (Z.succ k) _ d s l2 Hl2).
    + rewrite write_app, E1. do 2 f_equal. lia.
    + apply bytes_write_ne; [|lia]. by replace (s + Z.succ k * Z.of_nat u) with (s + k * Z.of_nat u + Z.of_nat u) by lia.
    + apply mapped_write. eapply mapped_sub; [exact Hd|lia|lia].
    + destruct Hov; [by left|right]. lia.
Qed.

Lemma reverse_seqZ n : reverse (seqZ 0 (Z.of_nat (S n))) = Z.of_nat n :: reverse (seqZ 0 (Z.of_nat n)).
Proof.
  replace (Z.of_nat (S n)) with (Z.of_nat n + 1) by lia. rewrite seqZ_app by lia. rewrite reverse_app, Z.add_0_l. done.
Qed.

(** Backwards, when the destination is above. *)
Lemma copy_backwards u n : ∀ m d s l, length l = (n * u)%nat → bytes_at m s l → mapped m d (zlen l) → s ≤ d →
  copy_units (reverse (seqZ 0 (Z.of_nat n))) u m d s = Ok (write m d l).
Proof.
  induction n as [|n IH]; intros m d s l Hl Hs Hd Hsd.
  - destruct l; [|done]. by rewrite write_nil.
  - assert (∃ l1 l2, l = l1 ++ l2 ∧ length l1 = (n * u)%nat ∧ length l2 = u) as (l1 & l2 & -> & Hl1 & Hl2).
    { exists (take (n * u) l), (drop (n * u) l). split; [by rewrite take_drop|]. rewrite length_take, length_drop. lia. }
    apply bytes_app in Hs as [Hs1 Hs2]. rewrite zlen_app in Hd.
    assert (zlen l1 = Z.of_nat n * Z.of_nat u ∧ zlen l2 = Z.of_nat u) as [E1 E2] by (unfold zlen; lia). rewrite E1, E2 in *.
    rewrite reverse_seqZ. cbn [copy_units]. rewrite <-Hl2 at 2. rewrite load_n_ok by done.
    rewrite bind_of_Ok, store_n_ok by (rewrite E2; eapply mapped_sub; [exact Hd|nia|nia]). rewrite bind_of_Ok, (IH _ d s l1 Hl1).
    + by rewrite write_app', E1.
    + apply bytes_write_ne; [done|]. right. rewrite E1. lia.
    + apply mapped_write. eapply mapped_sub; [exact Hd|lia|rewrite E1; nia].
    + done.
Qed.

Lemma aligned_words l dst src : aligned dst src (zlen l) = true → ∃ n, length l = (n * 4)%nat ∧ zlen l / 4 = Z.of_nat n.
Proof.
  unfold aligned, sizeof_long. intros [_ E%Z.eqb_eq]%andb_true_iff. exists (Z.to_nat (zlen l / 4)). pose proof (zlen_nonneg l).
  unfold zlen in *. split; Z.to_euclidean_division_equations; lia.
Qed.

Lemma memcpy_ok m dst src l : bytes_at m src l → mapped m dst (zlen l) → dst ≤ src ∨ src + zlen l ≤ dst →
  memcpy m dst src (zlen l) = Ok (dst, write m dst l).
Proof.
  intros Hs Hd Hov. unfold memcpy. destruct (aligned dst src (zlen l)) eqn:E.
  - destruct (aligned_words l dst src E) as (n & Hn & En). unfold sizeof_long. rewrite En.
    rewrite (copy_forwards 4 n 0 m dst src l); rewrite ?Z.mul_0_l, ?Z.add_0_r; try done.
  - unfold zlen at 1. rewrite (copy_forwards 1 (length l) 0 m dst src l); rewrite ?Z.mul_0_l, ?Z.add_0_r; try done; lia.
Qed.

Lemma memmove_ok m dst src l : bytes_at m src l → mapped m dst (zlen l) → memmove m dst src (zlen l) = Ok (dst, write m dst l).
Proof.
  intros Hs Hd. unfold memmove. destruct (Z.ltb_spec dst src) as [Hlt|Hge]; [apply memcpy_ok; [done|done|lia]|].
  destruct (aligned dst src (zlen l)) eqn:E.
  - destruct (aligned_words l dst src E) as (n & Hn & En). unfold sizeof_long. rewrite En. by rewrite (copy_backwards 4 n m dst src l).
  - unfold zlen at 1. rewrite (copy_backwards 1 (length l) m dst src l); [done|lia|done|done|done].
Qed.

(** [memcmp] compares byte by byte. *)
Fixpoint first_diff (l1 l2 : list Z) : Z :=
  match l1, l2 with
  | x :: l1, y :: l2 => if x =? y then first_diff l1 l2 else x - y
  | _, _ => 0
  end.

Lemma memcmp_ok m a b l1 l2 : bytes_at m a l1 → bytes_at m b l2 → length l1 = length l2 →
  memcmp m a b (zlen l1) = Ok (first_diff l1 l2).
Proof.
  unfold memcmp, zlen. intros H1 H2 Hl.
  assert (∀ k, bytes_at m (a + k) l1 → bytes_at m (b + k) l2 → memcmp_loop (seqZ k (Z.of_nat (length l1))) m a b = Ok (first_diff l1 l2)) as Hgen.
  { clear H1 H2. revert l2 Hl. induction l1 as [|x l1 IH]; intros [|y l2] Hl k H1 H2; try done.
    apply bytes_cons in H1 as [Hx H1], H2 as [Hy H2]. cbn [length]. rewrite Nat2Z.inj_succ, seqZ_cons by lia. cbn [memcmp_loop first_diff].
    unfold load. rewrite Hx, Hy. cbn [deref]. rewrite !bind_of_Ok. destruct (x =? y); cbn [negb]; [|done]. rewrite Z.pred_succ.
    apply IH; [cbn in Hl; lia|by rewrite <-Z.add_1_r, Z.add_assoc..]. }
  apply Hgen; by rewrite Z.add_0_r.
Qed.


(** ** Strings as lists *)

Definition text l : Prop := Forall (λ c, 0 < c < 256) l.
Definition cstr m a l : Prop := text l ∧ bytes_at m a (l ++ [0]).

Lemma cstr_cons m a c l : cstr m a (c :: l) ↔ (0 < c < 256 ∧ m !! a = Some c) ∧ cstr m (a + 1) l.
Proof. unfold cstr, text. rewrite Forall_cons. cbn [app]. rewrite bytes_cons. tauto. Qed.

Lemma cstr_nil m a : cstr m a [] ↔ m !! a = Some 0.
Proof.
  unfold cstr, text. cbn [app]. rewrite bytes_cons. split; [naive_solver|]. intros Ha. split; [constructor|]. split; [done|apply bytes_nil].
Qed.

Lemma cstr_fuel m a l : cstr m a l → (length l < fuel_of m)%nat.
Proof. intros [_ Hb%bytes_size]. rewrite length_app in Hb. cbn in Hb. unfold fuel_of. lia. Qed.

(** A suffix of a string is a string. *)
Lemma cstr_app m a l1 l2 : cstr m a (l1 ++ l2) → cstr m (a + zlen l1) l2.
Proof.
  revert a. induction l1 as [|c l1 IH]; intros a Hs; [unfold zlen; cbn; by rewrite Z.add_0_r|].
  cbn [app] in Hs. apply cstr_cons in Hs as [_ Hs]. rewrite zlen_cons. replace (a + (zlen l1 + 1)) with (a + 1 + zlen l1) by lia. by apply IH.
Qed.

Lemma cstr_write m a l b l' : cstr m a l → b + zlen l' ≤ a ∨ a + zlen l + 1 ≤ b → cstr (write m b l') a l.
Proof. intros [Ht Hb] Hd. split; [done|]. apply bytes_write_ne; [done|]. rewrite zlen_app. change (zlen [0]) with 1. lia. Qed.

Lemma strlen_ok m a l : cstr m a l → strlen m a = Ok (zlen l).
Proof.
  intros Hs. pose proof (cstr_fuel _ _ _ Hs) as Hf. unfold strlen.
  assert (∀ fuel k, cstr m (a + k) l → (length l < fuel)%nat → strlen_loop fuel m a k = Ok (k + zlen l)) as Hgen.
  { clear Hs Hf. induction l as [|c l IH]; intros [|fuel] k Hs Hf; cbn [length] in Hf; try lia; cbn [strlen_loop]; unfold load.
    - apply cstr_nil in Hs as ->. unfold zlen. cbn. f_equal. lia.
    - apply cstr_cons in Hs as [[Hc ->] Hs]. cbn [deref]. rewrite bind_of_Ok, (proj2 (Z.eqb_neq c 0)) by lia.
      rewrite IH; [rewrite zlen_cons; f_equal; lia|by rewrite Z.add_assoc|lia]. }
  rewrite (Hgen _ 0); [done|by rewrite Z.add_0_r|done].
Qed.

Lemma strcpy_ok m dest src l : cstr m src l → mapped m dest (zlen l + 1) → dest ≤ src ∨ src + zlen l + 1 ≤ dest →
  strcpy m dest src = Ok (dest, write m dest (l ++ [0])).
Proof.
  intros Hs Hd Hov. pose proof (cstr_fuel _ _ _ Hs) as Hf. unfold strcpy. generalize dependent (fuel_of m).
  assert (∀ fuel k m, cstr m (src + k) l → mapped m (dest + k) (zlen l + 1) → 0 ≤ k → dest ≤ src ∨ src + k + zlen l + 1 ≤ dest + k →
    (length l < fuel)%nat → strcpy_loop fuel m dest src k = Ok (write m (dest + k) (l ++ [0]))) as Hgen.
  { clear. induction l as [|c l IH]; intros [|fuel] k m Hs Hd Hk Hov Hf; cbn [length] in Hf; try lia; cbn [strcpy_loop]; unfold load.
    - apply cstr_nil in Hs as ->. cbn [deref app]. rewrite bind_of_Ok, Z.eqb_refl, store_ok, write_insert; [done|]. rewrite <-(Z.add_0_r (dest + k)). apply Hd. unfold zlen. cbn. lia.
    - apply cstr_cons in Hs as [[Hc ->] Hs]. cbn [deref]. rewrite bind_of_Ok, (proj2 (Z.eqb_neq c 0)) by lia.
      rewrite zlen_cons in *. pose proof (zlen_nonneg l).
      rewrite store_ok by (rewrite <-(Z.add_0_r (dest + k)); apply Hd; lia). rewrite bind_of_Ok, <-write_insert.
      rewrite IH.
      + cbn [app]. by rewrite write_insert, write_cons, Z.add_assoc.
      + rewrite Z.add_assoc. apply cstr_write; [done|]. change (zlen [c]) with 1. lia.
      + apply mapped_write. eapply mapped_sub; [exact Hd|lia|lia].
      + lia.
      + lia.
      + lia. }
  intros fuel Hf. rewrite (Hgen fuel 0 m); rewrite ?Z.add_0_r; try done.
Qed.

Lemma strcat_ok m dest src l1 l2 : cstr m dest l1 → cstr m src l2 → mapped m dest (zlen l1 + zlen l2 + 1) →
  dest + zlen l1 + zlen l2 + 1 ≤ src ∨ src + zlen l2 + 1 ≤ dest + zlen l1 →
  strcat m dest src = Ok (dest, write m (dest + zlen l1) (l2 ++ [0])).
Proof.
  intros H1 H2 Hm Hov. unfold strcat. pose proof (zlen_nonneg l1). pose proof (zlen_nonneg l2).
  rewrite (strlen_ok _ _ _ H1), bind_of_Ok, (strcpy_ok _ _ _ _ H2); [done|eapply mapped_sub; [exact Hm|lia|lia]|lia].
Qed.

(** The first place of a character in a list. *)
Fixpoint index_of (c : Z) l : option nat :=
  match l with
  | [] => None
  | x :: l => if x =? c then Some O else S <$> index_of c l
  end.

Definition address (a : Z) (o : option nat) : Z := match o with Some i => a + Z.of_nat i | None => 0 end.

Lemma strchr_ok m a l ch : cstr m a l → 0 ≤ ch < 256 → strchr m a ch = Ok (address a (index_of ch (l ++ [0]))).
Proof.
  intros Hs Hch. pose proof (cstr_fuel _ _ _ Hs) as Hf. unfold strchr. rewrite Z.mod_small by done. generalize dependent (fuel_of m).
  revert a Hs. induction l as [|c l IH]; intros a Hs [|fuel] Hf; cbn [length] in Hf; try lia; cbn [strchr_loop]; unfold load.
  - apply cstr_nil in Hs as ->. cbn [deref app index_of]. rewrite bind_of_Ok, Z.eqb_refl. destruct (0 =? ch); cbn; f_equal; lia.
  - apply cstr_cons in Hs as [[Hc ->] Hs]. cbn [deref]. rewrite bind_of_Ok, (proj2 (Z.eqb_neq c 0)) by lia. cbn [app index_of].
    destruct (Z.eqb_spec c ch); [cbn; f_equal; lia|]. rewrite IH by (done || lia). f_equal.
    destruct (index_of ch (l ++ [0])); cbn; lia.
Qed.

(** Comparison in the order of [unsigned char]. *)
Fixpoint lex l1 l2 : Z :=
  match l1, l2 with
  | [], [] => 0
  | [], _ :: _ => -1
  | _ :: _, [] => 1
  | x :: l1, y :: l2 => if x =? y then lex l1 l2 else if y <? x then 1 else -1
  end.

Lemma strcmp_ok m a b l1 l2 : cstr m a l1 → cstr m b l2 → strcmp m a b = Ok (lex l1 l2).
Proof.
  intros H1 H2. pose proof (cstr_fuel _ _ _ H1) as Hf. unfold strcmp.
  assert (∀ fuel k, cstr m (a + k) l1 → cstr m (b + k) l2 → (length l1 < fuel)%nat → strcmp_loop fuel m a b k = Ok (lex l1 l2)) as Hgen.
  { clear. revert l2. induction l1 as [|x l1 IH]; intros l2 [|fuel] k H1 H2 Hf; cbn [length] in Hf; try lia; cbn [strcmp_loop]; unfold load.
    - apply cstr_nil in H1 as ->. destruct l2 as [|y l2]; [apply cstr_nil in H2 as ->; done|]. apply cstr_cons in H2 as [[Hy ->] _].
      cbn [deref]. rewrite !bind_of_Ok. cbn [Z.eqb negb andb lex]. rewrite (proj2 (Z.ltb_ge y 0)) by lia. destruct y; try done; lia.
    - apply cstr_cons in H1 as [[Hx ->] H1]. cbn [deref]. rewrite bind_of_Ok, (proj2 (Z.eqb_neq x 0)) by lia. cbn [negb andb].
      destruct l2 as [|y l2].
      + apply cstr_nil in H2 as ->. cbn [deref]. rewrite bind_of_Ok, (proj2 (Z.eqb_neq x 0)) by lia. rewrite (proj2 (Z.ltb_lt 0 x)) by lia. done.
      + apply cstr_cons in H2 as [[Hy ->] H2]. cbn [deref lex]. rewrite bind_of_Ok. destruct (Z.eqb_spec x y); [|done].
        apply IH; [by rewrite Z.add_assoc..|lia]. }
  apply Hgen; [by rewrite Z.add_0_r..|done].
Qed.

(** The last place. *)
Definition last_index (c : Z) l : option nat := (λ i, length l - 1 - i)%nat <$> index_of c (reverse l).

Lemma strrchr_ok m a l ch : cstr m a l → 0 ≤ ch < 256 → strrchr m a ch = Ok (address a (last_index ch (l ++ [0]))).
Proof.
  intros Hs Hch. unfold strrchr. rewrite (strlen_ok _ _ _ Hs), bind_of_Ok, Z.mod_small by done.
  replace (Z.to_nat (zlen l + 1)) with (length (l ++ [0])) by (rewrite length_app; unfold zlen; cbn; lia).
  destruct Hs as [_ Hb]. induction (l ++ [0]) as [|x l' IH] using rev_ind; [done|].
  rewrite length_app, Nat.add_1_r. apply bytes_app in Hb as [Hb Hx%bytes_cons]. unfold zlen in Hx. cbn [strrchr_loop]. unfold load.
  rewrite (proj1 Hx). cbn [deref]. rewrite bind_of_Ok. unfold last_index. rewrite reverse_app, length_app. cbn [reverse app index_of length].
  change (reverse [x] ++ reverse l') with (x :: reverse l'). cbn [index_of].
  destruct (x =? ch); [cbn; do 2 f_equal; lia|]. rewrite IH by done. unfold last_index. f_equal.
  destruct (index_of ch (reverse l')) as [i|]; [|done]. cbn. do 2 f_equal. lia.
Qed.

(** ** Words

    [words p [] l] are the maximal runs of [l] without a character of [p]. *)

Definition is_sep (p : list Z) (c : Z) : bool := bool_decide (c ∈ p).

Definition flush (cur : list Z) : list (list Z) := match cur with [] => [] | _ => [cur] end.

Fixpoint words (p cur l : list Z) : list (list Z) :=
  match l with
  | [] => flush cur
  | c :: l => if is_sep p c then flush cur ++ words p [] l else words p (cur ++ [c]) l
  end.

Lemma words_skip p l1 l : Forall (λ c, is_sep p c = true) l1 → words p [] (l1 ++ l) = words p [] l.
Proof. induction 1 as [|c l1 Hc _ IH]; [done|]. cbn. by rewrite Hc, IH. Qed.

Lemma words_run p w cur l : Forall (λ c, is_sep p c = false) w → words p cur (w ++ l) = words p (cur ++ w) l.
Proof.
  intros Hw. revert cur. induction Hw as [|c w Hc _ IH]; intros cur; [by rewrite app_nil_r|]. cbn. rewrite Hc, IH. by rewrite <-app_assoc.
Qed.

(** A list is a run of characters of one kind and the rest. *)
Lemma run_split p (b : bool) l :
  ∃ l1 l2, l = l1 ++ l2 ∧ Forall (λ c, is_sep p c = b) l1 ∧ (l2 = [] ∨ ∃ c l3, l2 = c :: l3 ∧ is_sep p c = negb b).
Proof.
  induction l as [|c l (l1 & l2 & -> & H1 & H2)]; [by exists [], []; auto|].
  destruct (decide (is_sep p c = b)) as [E|E].
  - exists (c :: l1), l2. auto.
  - exists [], (c :: l1 ++ l2). split; [done|]. split; [constructor|]. right. exists c, (l1 ++ l2). split; [done|]. by destruct (is_sep p c), b.
Qed.

Lemma index_of_elem c l : is_Some (index_of c l) ↔ c ∈ l.
Proof.
  induction l as [|x l IH]; cbn; [split; [by intros []|by intros ?%elem_of_nil]|].
  rewrite elem_of_cons, <-IH. destruct (Z.eqb_spec x c) as [->|Hx]; [naive_solver|].
  rewrite fmap_is_Some. naive_solver.
Qed.

Lemma strchr_sep m seps p c : cstr m seps p → 0 < seps → 0 < c < 256 →
  ∃ w, strchr m seps c = Ok w ∧ negb (w =? 0) = is_sep p c.
Proof.
  intros Hs Hp Hc. rewrite (strchr_ok _ _ _ _ Hs) by lia. eexists. split; [done|].
  pose proof (index_of_elem c (p ++ [0])) as Hi. rewrite elem_of_app, list_elem_of_singleton in Hi. unfold is_sep.
  destruct (index_of c (p ++ [0])) as [i|]; cbn [address].
  - rewrite bool_decide_eq_true_2; [|destruct (proj1 Hi ltac:(done)); [done|lia]]. apply negb_true_iff, Z.eqb_neq. lia.
  - rewrite bool_decide_eq_false_2; [done|]. intros Hin. destruct (proj2 Hi (or_introl Hin)). done.
Qed.

Lemma span_ok m seps p (b : bool) l1 : cstr m seps p → 0 < seps → ∀ fuel head l2, cstr m head (l1 ++ l2) →
  Forall (λ c, is_sep p c = b) l1 → (l2 = [] ∨ ∃ c l3, l2 = c :: l3 ∧ is_sep p c = negb b) → (length l1 < fuel)%nat →
  span_loop fuel b m seps head = Ok (head + zlen l1).
Proof.
  intros Hp Hpos. induction l1 as [|x l1 IH]; intros [|fuel] head l2 Hs Hl1 Hl2 Hf; cbn [length] in Hf; try lia; cbn [span_loop]; unfold load.
  - unfold zlen. cbn [length app] in *. rewrite Z.add_0_r. destruct Hl2 as [->|(c & l3 & -> & Hc)].
    + apply cstr_nil in Hs as ->. done.
    + apply cstr_cons in Hs as [[Hr ->] _]. cbn [deref]. rewrite bind_of_Ok, (proj2 (Z.eqb_neq c 0)) by lia.
      destruct (strchr_sep m seps p c Hp Hpos Hr) as (w & -> & Ew). rewrite bind_of_Ok, Ew, Hc. by destruct b.
  - cbn [app] in Hs. apply cstr_cons in Hs as [[Hr ->] Hs]. cbn [deref]. rewrite bind_of_Ok, (proj2 (Z.eqb_neq x 0)) by lia.
    apply Forall_cons in Hl1 as [Hx Hl1]. destruct (strchr_sep m seps p x Hp Hpos Hr) as (w & -> & Ew).
    rewrite bind_of_Ok, Ew, Hx, Bool.eqb_reflx, (IH _ _ l2); [rewrite zlen_cons; f_equal; lia|done|done|done|lia].
Qed.

Lemma cstr_head m a l : cstr m a l → load m a = Ok (default 0 (head l)).
Proof. unfold load. destruct l; [by intros ->%cstr_nil|by intros [[_ ->] _]%cstr_cons]. Qed.

(** A word inside a string becomes a string when its end is overwritten. *)
Lemma cstr_cut m m' a l1 w r : cstr m a (l1 ++ w ++ r) →
  (∀ k, a + zlen l1 ≤ k ≤ a + zlen l1 + zlen w → m' !! k = if decide (k = a + zlen l1 + zlen w) then Some 0 else m !! k) →
  cstr m' (a + zlen l1) w.
Proof.
  intros [Ht Hb]%cstr_app Hm. apply Forall_app in Ht as [Ht _]. rewrite <-app_assoc in Hb. apply bytes_app in Hb as [Hb _].
  split; [done|]. apply bytes_app. split.
  - intros i Hi. rewrite Hm, decide_False by (unfold zlen; lia). by apply Hb.
  - apply bytes_cons. split; [|apply bytes_nil]. rewrite Hm, decide_True by (unfold zlen; lia). done.
Qed.

(** One call finds the first word, ends it with a null byte and leaves the rest for the
    next call. *)
Lemma strtok_r_ok m seps p str ctx head l : cstr m seps p → 0 < seps → cstr m head l → 0 < head →
  (if negb (str =? 0) then str else ctx) = head →
  (strtok_r m str seps ctx = Ok (0, 0, m) ∧ words p [] l = []) ∨
  ∃ l1 w, w ≠ [] ∧
    ((l = l1 ++ w ∧ strtok_r m str seps ctx = Ok (head + zlen l1, 0, m) ∧ words p [] l = [w]) ∨
     ∃ c r, l = l1 ++ w ++ c :: r ∧ words p [] l = w :: words p [] r ∧
       strtok_r m str seps ctx = Ok (head + zlen l1, head + zlen l1 + zlen w + 1, write m (head + zlen l1 + zlen w) [0])).
Proof.
  intros Hp Hpos Hs Hh Hhead. destruct (run_split p true l) as (l1 & l2 & -> & Hl1 & Hl2).
  unfold strtok_r. rewrite Hhead, (proj2 (Z.eqb_neq head 0)) by lia. pose proof (cstr_fuel _ _ _ Hs) as Hf. rewrite length_app in Hf.
  rewrite (span_ok m seps p true l1 Hp Hpos _ head l2) by (done || lia). rewrite bind_of_Ok, words_skip by done.
  apply cstr_app in Hs. rewrite (cstr_head _ _ _ Hs), bind_of_Ok. destruct (run_split p false l2) as (w & r & -> & Hw & Hr).
  destruct w as [|c w].
  { left. destruct Hl2 as [E|(c & l3 & E & Hc)]; cbn [app] in E; subst r; [done|].
    destruct Hr as [?|(? & ? & [= <- <-] & ?)]; [done|]. by rewrite Hc in *. }
  right. exists l1, (c :: w). split; [done|]. pose proof Hs as Hs'. cbn [app] in Hs'. apply cstr_cons in Hs' as [[Hc _] _].
  change (default 0 (list.head ((c :: w) ++ r))) with c. rewrite (proj2 (Z.eqb_neq c 0)) by lia. rewrite length_app in Hf.
  rewrite (span_ok m seps p false (c :: w) Hp Hpos _ _ r) by (done || lia). apply cstr_app in Hs.
  rewrite bind_of_Ok, (cstr_head _ _ _ Hs), bind_of_Ok, words_run by done. destruct Hr as [->|(x & r' & -> & Hx)].
  - left. by rewrite app_nil_r.
  - right. exists x, r'. apply cstr_cons in Hs as [[Hr0 Hr1] _]. change (default 0 (list.head (x :: r'))) with x.
    rewrite (proj2 (Z.eqb_neq x 0)) by lia. rewrite store_ok by done. rewrite bind_of_Ok, write_insert. cbn [words]. by rewrite Hx.
Qed.

(** The loop of a caller: a call for each word until [NULL]. *)
Fixpoint strtok_all (fuel : nat) m (str seps ctx : Z) : outcome (list Z * mem) :=
  match fuel with
  | O => Hang
  | S fuel =>
      '(w, ctx, m) ← strtok_r m str seps ctx;
      if w =? 0 then Ok ([], m)
      else '(ws, m) ← strtok_all fuel m 0 seps ctx; Ok (w :: ws, m)
  end.

(** The addresses returned are those of the words, and nothing outside the string is
    written. *)
Lemma strtok_all_ok seps p : 0 < seps → ∀ fuel m str ctx head l, cstr m seps p → cstr m head l → 0 < head →
  (if negb (str =? 0) then str else ctx) = head → head + zlen l ≤ seps ∨ seps + zlen p + 1 ≤ head → (S (length l) < fuel)%nat →
  ∃ ws m', strtok_all fuel m str seps ctx = Ok (ws, m') ∧ Forall2 (cstr m') ws (words p [] l) ∧
    (∀ k, ¬ head ≤ k < head + zlen l → m' !! k = m !! k).
Proof.
  intros Hpos. induction fuel as [|fuel IH]; intros m str ctx head l Hp Hs Hh Hhead Hd Hf; [lia|]. cbn [strtok_all].
  destruct (strtok_r_ok m seps p str ctx head l Hp Hpos Hs Hh Hhead)
    as [[-> ->]|(l1 & w & Hw & [(-> & -> & ->)|(c & r & -> & -> & ->)])]; rewrite bind_of_Ok.
  - exists [], m. split_and!; [done|constructor|done].
  - pose proof (zlen_nonneg l1). rewrite (proj2 (Z.eqb_neq (head + zlen l1) 0)) by lia. destruct fuel as [|fuel]; [lia|]. cbn [strtok_all].
    exists [head + zlen l1], m. apply cstr_app in Hs. split_and!; [done|by apply Forall2_cons; split; [done|]|done].
  - pose proof (zlen_nonneg l1). pose proof (zlen_nonneg w). pose proof (zlen_nonneg r). rewrite (proj2 (Z.eqb_neq (head + zlen l1) 0)) by lia.
    rewrite !zlen_app, zlen_cons in *. rewrite !length_app in Hf. cbn [length] in Hf.
    destruct (IH (write m (head + zlen l1 + zlen w) [0]) 0 (head + zlen l1 + zlen w + 1) (head + zlen l1 + zlen w + 1) r) as (ws & m' & -> & Hws & Hm').
    + apply cstr_write; [done|]. change (zlen [0]) with 1. lia.
    + do 2 apply cstr_app in Hs. apply cstr_cons in Hs as [_ Hs]. apply cstr_write; [done|]. change (zlen [0]) with 1. lia.
    + lia.
    + done.
    + lia.
    + lia.
    + rewrite bind_of_Ok. eexists _, _. split; [done|]. split.
      * constructor; [|done]. eapply cstr_cut; [exact Hs|]. intros k Hk. rewrite Hm', lookup_write by lia. change (zlen [0]) with 1.
        case_decide as E; [|by rewrite decide_False by lia]. rewrite decide_True by lia. by replace (k - _) with 0 by lia.
      * intros k Hk. rewrite Hm' by lia. rewrite lookup_write, decide_False; [done|]. change (zlen [0]) with 1. lia.
Qed.

(** ** Numbers *)

Definition digit_chars : list Z := seqZ 48 10.

Fixpoint dec_value (acc : Z) (ds : list Z) : Z :=
  match ds with [] => acc | d :: ds => dec_value (acc * 10 + d) ds end.

Definition is_digit (d : Z) : Prop := 0 ≤ d < 10.
Definition no_digit l : Prop := match l with c :: _ => ¬ 48 ≤ c < 58 | [] => True end.

Lemma index_of_seqZ n k c : k ≤ c < k + Z.of_nat n → ∀ l, index_of c (seqZ k (Z.of_nat n) ++ l) = Some (Z.to_nat (c - k)).
Proof.
  revert k. induction n as [|n IH]; intros k Hc l; [lia|]. rewrite Nat2Z.inj_succ, seqZ_cons by lia. cbn [app index_of].
  destruct (Z.eqb_spec k c) as [->|Hk]; [by rewrite Z.sub_diag|]. rewrite Z.pred_succ, IH by lia. cbn. f_equal. lia.
Qed.

Lemma strchr_digit m digits c : cstr m digits digit_chars → 0 < digits → 0 < c < 256 →
  strchr m digits c = Ok (if decide (48 ≤ c < 58) then digits + (c - 48) else 0).
Proof.
  intros Hd Hp Hc. rewrite (strchr_ok _ _ _ _ Hd) by lia. f_equal. unfold digit_chars. case_decide as E.
  - rewrite (index_of_seqZ 10) by lia. cbn. lia.
  - pose proof (index_of_elem c (seqZ 48 10 ++ [0])) as Hi. rewrite elem_of_app, elem_of_seqZ, list_elem_of_singleton in Hi.
    destruct (index_of _ _); [|done]. destruct (proj1 Hi ltac:(done)); lia.
Qed.

Lemma digits_ok m digits ds : cstr m digits digit_chars → 0 < digits → ∀ fuel s val l,
  Forall is_digit ds → no_digit l → cstr m s (map (Z.add 48) ds ++ l) → (length ds < fuel)%nat →
  digits_loop fuel m digits s (u32 val) = Ok (u32 (dec_value val ds)).
Proof.
  intros Hd Hp. induction ds as [|d ds IH]; intros [|fuel] s val l Hds Hl Hs Hf; cbn [length] in Hf; try lia; cbn [digits_loop dec_value map app] in *.
  - rewrite (cstr_head _ _ _ Hs), bind_of_Ok. destruct l as [|c l]; [done|]. cbn [list.head default from_option id].
    apply cstr_cons in Hs as [[Hc _] _]. cbn [no_digit] in Hl. change (default 0 (list.head (c :: l))) with c.
    rewrite (proj2 (Z.eqb_neq c 0)) by lia. rewrite (strchr_digit _ _ _ Hd Hp Hc), bind_of_Ok, decide_False by done. done.
  - apply Forall_cons in Hds as [Hdd Hds]. unfold is_digit in Hdd. unfold load. apply cstr_cons in Hs as [[Hc ->] Hs]. cbn [deref]. rewrite bind_of_Ok.
    rewrite (proj2 (Z.eqb_neq (48 + d) 0)) by lia. rewrite (strchr_digit _ _ _ Hd Hp Hc), bind_of_Ok, decide_True by lia.
    rewrite (proj2 (Z.eqb_neq (digits + (48 + d - 48)) 0)) by lia.
    replace (u32 (u32 (u32 val * 10) + (digits + (48 + d - 48) - digits))) with (u32 (val * 10 + d)); [apply (IH _ _ _ l); [done..|lia]|].
    unfold u32. replace (digits + (48 + d - 48) - digits) with d by lia. rewrite Zmult_mod_idemp_l, Zplus_mod_idemp_l. done.
Qed.

Definition white l : Prop := Forall (λ c, c = 32 ∨ c = 9) l.

Lemma skip_white_ok m ws l : white ws → match l with c :: _ => c ≠ 32 ∧ c ≠ 9 | [] => True end →
  ∀ fuel s, cstr m s (ws ++ l) → (length ws < fuel)%nat → skip_white fuel m s = Ok (s + zlen ws).
Proof.
  intros Hw Hl. induction Hw as [|c ws Hc _ IH]; intros [|fuel] s Hs Hf; cbn [length] in Hf; try lia; cbn [skip_white].
  - rewrite (cstr_head _ _ _ Hs), bind_of_Ok. cbn [app]. unfold zlen. cbn [length]. rewrite Z.add_0_r. destruct l as [|x l]; [done|].
    change (default 0 (list.head (x :: l))) with x. by rewrite !(proj2 (Z.eqb_neq _ _)) by lia.
  - unfold load. cbn [app] in Hs. apply cstr_cons in Hs as [[_ ->] Hs]. cbn [deref]. rewrite bind_of_Ok.
    replace ((c =? 32) || (c =? 9)) with true by (destruct Hc as [-> | ->]; done). rewrite IH, zlen_cons by (done || lia). f_equal. lia.
Qed.

Inductive sign := NoSign | Plus | Minus.
Definition sign_chars (sg : sign) : list Z := match sg with NoSign => [] | Plus => [43] | Minus => [45] end.
Definition signed (sg : sign) (n : Z) : Z := match sg with Minus => - n | _ => n end.

(** White space, a sign, digits and anything after them. *)
Lemma atoi_ok m digits s ws sg ds l : cstr m digits digit_chars → 0 < digits → white ws → Forall is_digit ds → ds ≠ [] → no_digit l →
  cstr m s (ws ++ sign_chars sg ++ map (Z.add 48) ds ++ l) →
  atoi m digits s = Ok (s32 (u32 (signed sg (dec_value 0 ds)))).
Proof.
  intros Hd Hp Hw Hds Hne Hl Hs. unfold atoi. pose proof (cstr_fuel _ _ _ Hs) as Hf. rewrite !length_app, length_map in Hf.
  rewrite (skip_white_ok m ws (sign_chars sg ++ map (Z.add 48) ds ++ l) Hw); [| |done|lia].
  2: { destruct sg, ds as [|d ds]; try done; cbn; try lia. apply Forall_cons in Hds as [Hdd _]. unfold is_digit in Hdd. lia. }
  apply cstr_app in Hs. rewrite bind_of_Ok, (cstr_head _ _ _ Hs), bind_of_Ok.
  assert (∀ k, cstr m k (map (Z.add 48) ds ++ l) → digits_loop (fuel_of m) m digits k 0 = Ok (u32 (dec_value 0 ds))) as Hloop.
  { intros k Hk. change 0 with (u32 0) at 1. apply (digits_ok m digits ds Hd Hp _ _ _ l); [done..|lia]. }
  destruct sg; cbn [sign_chars signed app] in *.
  - destruct ds as [|d ds]; [done|]. apply Forall_cons in Hds as [Hdd Hds]. unfold is_digit in Hdd. cbn [map app].
    change (default 0 (list.head (48 + d :: map (Z.add 48) ds ++ l))) with (48 + d). rewrite !(proj2 (Z.eqb_neq _ _)) by lia.
    by rewrite Hloop.
  - apply cstr_cons in Hs as [_ Hs]. change (default 0 (list.head (43 :: map (Z.add 48) ds ++ l))) with 43. cbn [Z.eqb Pos.eqb]. by rewrite Hloop.
  - apply cstr_cons in Hs as [_ Hs]. change (default 0 (list.head (45 :: map (Z.add 48) ds ++ l))) with 45. cbn [Z.eqb Pos.eqb]. rewrite Hloop by done. rewrite bind_of_Ok. do 2 f_equal. unfold u32. by rewrite <-!Z.sub_0_l, Zminus_mod_idemp_r.
Qed.

(** ** The claims *)

(** C30: [memmove] is right for blocks that overlap in any way and for any alignment: the
    destination holds what the source held, the function returns the destination, every
    other byte is as before, and where [memcpy] may be used it does the same. *)
Theorem memmove_moves m dst src l : bytes_at m src l → mapped m dst (zlen l) →
  ∃ m', memmove m dst src (zlen l) = Ok (dst, m') ∧ bytes_at m' dst l ∧
    (∀ k, ¬ dst ≤ k < dst + zlen l → m' !! k = m !! k) ∧
    (dst + zlen l ≤ src ∨ src + zlen l ≤ dst → memcpy m dst src (zlen l) = Ok (dst, m')).
Proof.
  intros Hs Hd. exists (write m dst l). split_and!; [by apply memmove_ok|apply bytes_write| |].
  - intros k Hk. by rewrite lookup_write, decide_False.
  - intros Hov. apply memcpy_ok; [done|done|]. pose proof (zlen_nonneg l). lia.
Qed.

(** Eight bytes moved up by three, over themselves. *)
Lemma memmove_moves_witness :
  ∃ m', memmove (write ∅ 100 [1; 2; 3; 4; 5; 6; 7; 8; 0; 0; 0]) 103 100 8 = Ok (103, m') ∧ bytes_at m' 103 [1; 2; 3; 4; 5; 6; 7; 8].
Proof.
  destruct (memmove_moves (write ∅ 100 [1; 2; 3; 4; 5; 6; 7; 8; 0; 0; 0]) 103 100 [1; 2; 3; 4; 5; 6; 7; 8]) as (m' & H1 & H2 & _).
  - apply (bytes_app _ 100 _ [0; 0; 0]). apply bytes_write.
  - eapply mapped_sub; [apply bytes_mapped, bytes_write|lia|unfold zlen; cbn [length]; lia].
  - by exists m'.
Defined.

(** C31: calling [strtok_r] until it returns [NULL], first with the string and then with
    the context alone, terminates and returns the addresses of the words of the string in
    order, each ended by a null byte; only the string is written. *)
Theorem strtok_words m str seps p l : cstr m seps p → cstr m str l → 0 < seps → 0 < str →
  str + zlen l ≤ seps ∨ seps + zlen p + 1 ≤ str →
  ∃ ws m', strtok_all (S (S (length l))) m str seps 0 = Ok (ws, m') ∧ Forall2 (cstr m') ws (words p [] l) ∧
    (∀ k, ¬ str ≤ k < str + zlen l → m' !! k = m !! k).
Proof.
  intros Hp Hs Hpos Hstr Hd. rewrite <-Nat.add_1_r. apply (strtok_all_ok seps p Hpos) with (head := str); try done; [|lia].
  by rewrite (proj2 (Z.eqb_neq str 0)) by lia.
Qed.

(** The command [" p  ab "] with blanks and tabs as separators. *)
Lemma strtok_words_witness :
  ∃ ws m', strtok_all 9 (write (write ∅ 10 [32; 9; 0]) 100 [32; 112; 32; 9; 97; 98; 32; 0]) 100 10 0 = Ok (ws, m') ∧
    Forall2 (cstr m') ws [[112]; [97; 98]].
Proof.
  destruct (strtok_words (write (write ∅ 10 [32; 9; 0]) 100 [32; 112; 32; 9; 97; 98; 32; 0]) 100 10 [32; 9] [32; 112; 32; 9; 97; 98; 32])
    as (ws & m' & H1 & H2 & _).
  - split; [repeat constructor; lia|]. apply bytes_write_ne; [apply bytes_write|unfold zlen; cbn [length app]; lia].
  - split; [repeat constructor; lia|]. apply bytes_write.
  - lia.
  - lia.
  - unfold zlen. cbn [length]. lia.
  - by exists ws, m'.
Defined.
