(* ===== verification/Printf.v ===== *)
(** * Formatted printing (common/libc/printf/__printf.c, common/libc/printf/snprintf.c,
      kern/lib/kprintf.c, userland/lib/libc/stdio/printf.c)

    [__vprintf] is a machine that reads a format character by character and sends text to
    a client function.  The client's state is a type [D] and the function an argument
    [sendfunc] that may also write the memory, as [snprintf] does.  Text is either in the
    memory or in a local array.

    The variable arguments are 32-bit and 64-bit values; taking one that is not there is a
    [Fault].  An [int] is kept in range with [s32], and negating the least [long long]
    wraps.

    A format is described by a list of items ([format_of]), each of which says what it
    prints ([render]); the class [Sink] states what a client function promises, and the
    theorem about [__vprintf] is proved from it once for all the clients. *)

From stdpp Require Import base gmap list list_numbers.
From Stdlib Require Import ZArith Lia.
From S2P Require Import Prelude Cstring.
Open Scope Z_scope.

Implicit Types (m : mem) (l : list Z).

(** ** The state *)

Inductive text_ref := At (a : Z) | Local (l : list Z).

Definition char_at m (t : text_ref) (i : Z) : outcome Z :=
  match t with At a => load m (a + i) | Local l => deref (zget l i) end.

Fixpoint local_strlen (l : list Z) : outcome Z :=
  match l with
  | [] => Fault
  | c :: l => if c =? 0 then Ok 0 else n ← local_strlen l; Ok (n + 1)
  end.

Definition text_strlen m (t : text_ref) : outcome Z :=
  match t with At a => strlen m a | Local l => local_strlen l end.

Inductive arg := AWord (z : Z) | ADword (z : Z).

Inductive intsize := INTSZ | LONGSZ | LLONGSZ | SIZETSZ.

#[global] Instance intsize_eq_dec : EqDecision intsize.
Proof. solve_decision. Defined.

Record PF := mkPF {
  ap : list arg;
  charcount : Z;
  in_pct : bool;
  size_ : intsize;
  num : Z;
  sign_ : Z;
  spacing : Z;
  rightspc : bool;
  fillchar : Z;
  base_ : Z;
  baseprefix : bool;
  altformat : bool }.

Definition set_ap x (pf : PF) : PF :=
  mkPF x (charcount pf) (in_pct pf) (size_ pf) (num pf) (sign_ pf) (spacing pf) (rightspc pf) (fillchar pf) (base_ pf) (baseprefix pf) (altformat pf).
Definition set_charcount x (pf : PF) : PF :=
  mkPF (ap pf) x (in_pct pf) (size_ pf) (num pf) (sign_ pf) (spacing pf) (rightspc pf) (fillchar pf) (base_ pf) (baseprefix pf) (altformat pf).
Definition set_in_pct x (pf : PF) : PF :=
  mkPF (ap pf) (charcount pf) x (size_ pf) (num pf) (sign_ pf) (spacing pf) (rightspc pf) (fillchar pf) (base_ pf) (baseprefix pf) (altformat pf).
Definition set_size x (pf : PF) : PF :=
  mkPF (ap pf) (charcount pf) (in_pct pf) x (num pf) (sign_ pf) (spacing pf) (rightspc pf) (fillchar pf) (base_ pf) (baseprefix pf) (altformat pf).
Definition set_num x sg (pf : PF) : PF :=
  mkPF (ap pf) (charcount pf) (in_pct pf) (size_ pf) x sg (spacing pf) (rightspc pf) (fillchar pf) (base_ pf) (baseprefix pf) (altformat pf).
Definition set_spacing x (pf : PF) : PF :=
  mkPF (ap pf) (charcount pf) (in_pct pf) (size_ pf) (num pf) (sign_ pf) x (rightspc pf) (fillchar pf) (base_ pf) (baseprefix pf) (altformat pf).
Definition set_rightspc x (pf : PF) : PF :=
  mkPF (ap pf) (charcount pf) (in_pct pf) (size_ pf) (num pf) (sign_ pf) (spacing pf) x (fillchar pf) (base_ pf) (baseprefix pf) (altformat pf).
Definition set_fillchar x (pf : PF) : PF :=
  mkPF (ap pf) (charcount pf) (in_pct pf) (size_ pf) (num pf) (sign_ pf) (spacing pf) (rightspc pf) x (base_ pf) (baseprefix pf) (altformat pf).
Definition set_base x bp (pf : PF) : PF :=
  mkPF (ap pf) (charcount pf) (in_pct pf) (size_ pf) (num pf) (sign_ pf) (spacing pf) (rightspc pf) (fillchar pf) x bp (altformat pf).
Definition set_altformat x (pf : PF) : PF :=
  mkPF (ap pf) (charcount pf) (in_pct pf) (size_ pf) (num pf) (sign_ pf) (spacing pf) (rightspc pf) (fillchar pf) (base_ pf) (baseprefix pf) x.

(** ** Parsing a field *)

Definition __pf_endfield (pf : PF) : PF := mkPF (ap pf) (charcount pf) false INTSZ 0 0 0 false 32 0 false false.

Definition __pf_modifier (pf : PF) (ch : Z) : outcome PF :=
  if ch =? 35 then Ok (set_altformat true pf)
  else if ch =? 45 then Ok (set_rightspc true pf)
  else if ch =? 108 then Ok (if decide (size_ pf = LONGSZ) then set_size LLONGSZ pf else set_size LONGSZ pf)
  else if ch =? 122 then Ok (set_size SIZETSZ pf)
  else if ch =? 48 then
    Ok (if 0 <? spacing pf then set_spacing (s32 (spacing pf * 10)) pf else set_fillchar 48 pf)
  else
    _ ← kassert ((48 <? ch) && (ch <=? 57));
    Ok (set_spacing (s32 (spacing pf * 10 + (ch - 48))) pf).

Definition va_word (pf : PF) : outcome (Z * PF) :=
  match ap pf with AWord z :: ap => Ok (z, set_ap ap pf) | _ => Fault end.

Definition va_dword (pf : PF) : outcome (Z * PF) :=
  match ap pf with ADword z :: ap => Ok (z, set_ap ap pf) | _ => Fault end.

(** [int], [long], [ssize_t] and pointers have 32 bits. *)
Definition __pf_getnum (pf : PF) (ch : Z) : outcome PF :=
  if ch =? 112 then '(z, pf) ← va_word pf; Ok (set_num (u32 z) (sign_ pf) pf)
  else if ch =? 100 then
    '(signednum, pf) ← (if decide (size_ pf = LLONGSZ)
                        then '(z, pf) ← va_dword pf; Ok (s64 z, pf)
                        else '(z, pf) ← va_word pf; Ok (s32 z, pf));
    Ok (if signednum <? 0 then set_num (u64 (- signednum)) (-1) pf else set_num (u64 signednum) (sign_ pf) pf)
  else if decide (size_ pf = LLONGSZ)
  then '(z, pf) ← va_dword pf; Ok (set_num (u64 z) (sign_ pf) pf)
  else '(z, pf) ← va_word pf; Ok (set_num (u32 z) (sign_ pf) pf).

Definition __pf_setbase (pf : PF) (ch : Z) : PF :=
  let b := if (ch =? 100) || (ch =? 117) then 10 else if (ch =? 120) || (ch =? 112) then 16 else if ch =? 111 then 8 else base_ pf in
  set_base b (altformat pf || (ch =? 112) || baseprefix pf) pf.

Definition NUMBER_BUF_SIZE : nat := 64 / 3 + 2.

(** "0123456789abcdef" *)
Definition digits : list Z := seqZ 48 10 ++ seqZ 97 6.

(** The loop of [__pf_printnum], from slot [x] leftwards; the result is where the number
    starts. *)
Fixpoint printnum_loop (x : nat) (buf : list Z) (xnum base : Z) : outcome (nat * list Z) :=
  if base =? 0 then Fault
  else
    c ← deref (zget digits (xnum mod base));
    let buf := <[x := c]> buf in
    let xnum := xnum / base in
    if 0 <? xnum then match x with O => Fault | S x => printnum_loop x buf xnum base end
    else Ok (x, buf).

(** ** Printing *)

Section vprintf.
Context {D : Type} (sendfunc : mem → D → text_ref → Z → outcome (mem * D)).

Record st := mkSt { st_mem : mem; clientdata : D; st_pf : PF }.

Definition __pf_print (s : st) (txt : text_ref) (len : Z) : outcome st :=
  '(m, d) ← sendfunc (st_mem s) (clientdata s) txt len;
  Ok (mkSt m d (set_charcount (s32 (charcount (st_pf s) + len)) (st_pf s))).

Fixpoint fill_iter (n : nat) (s : st) (f : Z) : outcome st :=
  match n with
  | O => Ok s
  | S n => s ← __pf_print s (Local [f]) 1; fill_iter n s f
  end.

Definition __pf_fill (s : st) (spc : Z) : outcome st := fill_iter (Z.to_nat spc) s (fillchar (st_pf s)).

Definition __pf_printstuff (s : st) (prefix prefix2 stuff : text_ref) : outcome st :=
  n1 ← text_strlen (st_mem s) prefix;
  n2 ← text_strlen (st_mem s) prefix2;
  n3 ← text_strlen (st_mem s) stuff;
  let len := s32 (n1 + n2 + n3) in
  let spc := if len <? spacing (st_pf s) then spacing (st_pf s) - len else 0 in
  s ← (if (0 <? spc) && negb (rightspc (st_pf s)) && negb (fillchar (st_pf s) =? 48) then __pf_fill s spc else Ok s);
  n1 ← text_strlen (st_mem s) prefix;
  s ← __pf_print s prefix n1;
  n2 ← text_strlen (st_mem s) prefix2;
  s ← __pf_print s prefix2 n2;
  s ← (if (0 <? spc) && negb (rightspc (st_pf s)) && (fillchar (st_pf s) =? 48) then __pf_fill s spc else Ok s);
  n3 ← text_strlen (st_mem s) stuff;
  s ← __pf_print s stuff n3;
  if (0 <? spc) && rightspc (st_pf s) then __pf_fill s spc else Ok s.

Definition __pf_printnum (s : st) : outcome st :=
  let pf := st_pf s in
  let buf := replicate NUMBER_BUF_SIZE 0 in
  '(x, buf) ← printnum_loop (NUMBER_BUF_SIZE - 2) buf (num pf) (base_ pf);
  let bprefix := if baseprefix pf && (base_ pf =? 16) then [48; 120; 0] else if baseprefix pf && (base_ pf =? 8) then [48; 0] else [0] in
  let sprefix := if sign_ pf =? 0 then [0] else [45; 0] in
  __pf_printstuff s (Local sprefix) (Local bprefix) (Local (drop x buf)).

(** [strchr] on a literal, for a character that is not null. *)
Definition among (chars : list Z) (ch : Z) : bool := bool_decide (ch ∈ chars).

Definition modifiers : list Z := [35; 45; 108; 122] ++ seqZ 48 10.
Definition integer_types : list Z := [100; 111; 117; 112; 120].

(** "(null)" *)
Definition null_text : list Z := [40; 110; 117; 108; 108; 41; 0].

Definition upd (s : st) (pf : PF) : st := mkSt (st_mem s) (clientdata s) pf.

Definition __pf_send (s : st) (ch : Z) : outcome st :=
  _ ← kassert (negb (ch =? 0));
  let pf := st_pf s in
  if negb (in_pct pf) && negb (ch =? 37) then __pf_print s (Local [ch]) 1
  else if negb (in_pct pf) then Ok (upd s (set_in_pct true pf))
  else if among modifiers ch then pf ← __pf_modifier pf ch; Ok (upd s pf)
  else if among integer_types ch then
    pf ← __pf_getnum pf ch;
    s ← __pf_printnum (upd s (__pf_setbase pf ch));
    Ok (upd s (__pf_endfield (st_pf s)))
  else if ch =? 115 then
    '(str, pf) ← va_word pf;
    let str := u32 str in
    s ← __pf_printstuff (upd s pf) (Local [0]) (Local [0]) (if str =? 0 then Local null_text else At str);
    Ok (upd s (__pf_endfield (st_pf s)))
  else
    '(x0, pf) ← (if ch =? 99 then '(z, pf) ← va_word pf; Ok (z mod 256, pf) else Ok (ch, pf));
    s ← __pf_printstuff (upd s pf) (Local [0]) (Local [0]) (Local [x0; 0]);
    Ok (upd s (__pf_endfield (st_pf s))).

Fixpoint vprintf_loop (fuel : nat) (s : st) (format i : Z) : outcome st :=
  match fuel with
  | O => Hang
  | S fuel =>
      c ← load (st_mem s) (format + i);
      if c =? 0 then Ok s else s ← __pf_send s c; vprintf_loop fuel s format (i + 1)
  end.

Definition __vprintf m (d : D) (format : Z) (args : list arg) : outcome (Z * mem * D) :=
  let pf := __pf_endfield (mkPF args 0 false INTSZ 0 0 0 false 32 0 false false) in
  s ← vprintf_loop (fuel_of m) (mkSt m d pf) format 0;
  Ok (charcount (st_pf s), st_mem s, clientdata s).
End vprintf.

(** ** snprintf.c *)

Record SNP := mkSNP { buf : Z; buflen : Z; bufpos : Z }.

Fixpoint snprintf_send_loop (is_ : list Z) m (snp : SNP) (data : text_ref) : outcome (mem * SNP) :=
  match is_ with
  | [] => Ok (m, snp)
  | i :: is_ =>
      if bufpos snp <? buflen snp then
        c ← char_at m data i;
        m ← store m (buf snp + bufpos snp) c;
        snprintf_send_loop is_ m (mkSNP (buf snp) (buflen snp) (bufpos snp + 1)) data
      else snprintf_send_loop is_ m snp data
  end.

Definition __snprintf_send m (snp : SNP) (data : text_ref) (len : Z) : outcome (mem * SNP) :=
  snprintf_send_loop (seqZ 0 len) m snp data.

Definition vsnprintf m (buf_ len fmt : Z) (args : list arg) : outcome (Z * mem) :=
  let snp := mkSNP buf_ (if len =? 0 then 0 else len - 1) 0 in
  '(chars, m, snp) ← __vprintf __snprintf_send m snp fmt args;
  m ← (if 0 <? len then store m (buf_ + bufpos snp) 0 else Ok m);
  Ok (chars, m).

Definition snprintf (m : mem) (buf_ len fmt : Z) (args : list arg) : outcome (Z * mem) := vsnprintf m buf_ len fmt args.

(** ** kprintf.c

    What the kernel does to the console and the two locks, oldest first. *)

Inductive kevent := LockAcquire | LockRelease | SpinAcquire | SpinRelease | Putch (c : Z).

Fixpoint console_send_loop (is_ : list Z) m (out : list kevent) (data : text_ref) : outcome (mem * list kevent) :=
  match is_ with
  | [] => Ok (m, out)
  | i :: is_ => c ← char_at m data i; console_send_loop is_ m (out ++ [Putch c]) data
  end.

Definition console_send m (out : list kevent) (data : text_ref) (len : Z) : outcome (mem * list kevent) :=
  console_send_loop (seqZ 0 len) m out data.

(** Whether the lock exists, and the state of the thread and the processor. *)
Record kcontext := mkKcontext { kprintf_lock : bool; t_in_interrupt : bool; t_curspl : Z; c_spinlocks : Z }.

Definition kprintf (k : kcontext) m (out : list kevent) (fmt : Z) (args : list arg) : outcome (Z * mem * list kevent) :=
  let dolock := kprintf_lock k && negb (t_in_interrupt k) && (t_curspl k =? 0) && (c_spinlocks k =? 0) in
  let out := out ++ [if dolock then LockAcquire else SpinAcquire] in
  '(chars, m, out) ← __vprintf console_send m out fmt args;
  Ok (chars, m, out ++ [if dolock then LockRelease else SpinRelease]).

(** ** printf.c of the C library

    The results of the calls of [write] are an argument: the number of bytes written or an
    error number. *)

Inductive write_result := Written (n : Z) | WriteError (e : Z).

Record stdout := mkStdout { written : list Z; results : list write_result; err : Z }.

Definition load_text m (t : text_ref) (len : Z) : outcome (list Z) :=
  match t with
  | At a => load_n m a (Z.to_nat len)
  | Local l => if len <=? zlen l then Ok (take (Z.to_nat len) l) else Fault
  end.

(** With no result left, all of the data is written. *)
Definition __printf_send m (o : stdout) (data : text_ref) (len : Z) : outcome (mem * stdout) :=
  l ← load_text m data len;
  Ok (m, match results o with
         | [] => mkStdout (written o ++ l) [] 0
         | Written n :: rs => mkStdout (written o ++ take (Z.to_nat n) l) rs 0
         | WriteError e :: rs => mkStdout (written o) rs e
         end).

(** [err] is not initialised: its value is that of [err o].  The result is the value
    returned and the new [errno], if it is set. *)
Definition vprintf m (o : stdout) (fmt : Z) (args : list arg) : outcome (Z * option Z * mem * stdout) :=
  '(chars, m, o) ← __vprintf __printf_send m o fmt args;
  Ok (if negb (err o =? 0) then (-1, Some (err o), m, o) else (chars, None, m, o)).

Definition printf m (o : stdout) (fmt : Z) (args : list arg) : outcome (Z * option Z * mem * stdout) := vprintf m o fmt args.

(** ** Numbers as digits *)

(** The digits of [n], most significant first. *)
Fixpoint digits_of (fuel : nat) (base n : Z) : list Z :=
  match fuel with
  | O => []
  | S fuel => (if 0 <? n / base then digits_of fuel base (n / base) else []) ++ [n mod base]
  end.

Definition digit_char (d : Z) : Z := if d <? 10 then 48 + d else 87 + d.

Lemma zget_digits d : 0 ≤ d < 16 → zget digits d = Some (digit_char d).
Proof.
  intros Hd. assert (d ∈ seqZ 0 16) as H by (apply elem_of_seqZ; lia). clear Hd. revert d H. apply Forall_forall. by repeat constructor.
Qed.

Lemma printnum_loop_ok base x : 2 ≤ base ≤ 16 → ∀ buf n, 0 ≤ n < base ^ (Z.of_nat x + 1) → (x < length buf)%nat →
  ∃ x' buf', printnum_loop x buf n base = Ok (x', buf') ∧ drop x' buf' = map digit_char (digits_of (S x) base n) ++ drop (S x) buf.
Proof.
  intros Hb. induction x as [|x IH]; intros buf n Hn Hx; cbn [printnum_loop];
    rewrite (proj2 (Z.eqb_neq base 0)) by lia; pose proof (Z.mod_pos_bound n base ltac:(lia));
    rewrite zget_digits by lia; cbn [deref]; rewrite bind_of_Ok; change (digits_of (S ?k) base n) with
      ((if 0 <? n / base then digits_of k base (n / base) else []) ++ [n mod base]).
  - rewrite (proj2 (Z.ltb_ge 0 (n / base))) by (rewrite Z.pow_1_r in Hn; rewrite Z.div_small; lia).
    eexists _, _. split; [done|]. destruct buf; [cbn in Hx; lia|]. done.
  - destruct (Z.ltb_spec 0 (n / base)) as [Hq|Hq].
    + destruct (IH (<[S x := digit_char (n mod base)]> buf) (n / base)) as (x' & buf' & -> & E).
      * split; [lia|]. apply Z.div_lt_upper_bound; [lia|]. rewrite <-Z.pow_succ_r by lia. replace (Z.succ _) with (Z.of_nat (S x) + 1) by lia. lia.
      * rewrite length_insert. lia.
      * eexists _, _. split; [done|]. rewrite E, map_app, <-app_assoc. f_equal.
        rewrite (drop_S _ (digit_char (n mod base)) (S x)) by (apply list_lookup_insert_eq; lia). cbn [map app]. f_equal.
        apply drop_insert_lt. lia.
    + eexists _, _. split; [done|]. cbn [app map]. rewrite (drop_S _ (digit_char (n mod base)) (S x)) by (apply list_lookup_insert_eq; lia).
      f_equal. apply drop_insert_lt. lia.
Qed.

(** A number of 64 bits has at most 22 digits, and an array of 23 has room for them. *)
Definition number_chars (base n : Z) : list Z := map digit_char (digits_of 22 base n).

Lemma printnum_fits base n : base ∈ [8; 10; 16] → is_u64 n →
  ∃ x buf, printnum_loop (NUMBER_BUF_SIZE - 2) (replicate NUMBER_BUF_SIZE 0) n base = Ok (x, buf) ∧ drop x buf = number_chars base n ++ [0].
Proof.
  intros Hb Hn. assert (8 ≤ base ≤ 16) as Hb' by (rewrite !elem_of_cons, elem_of_nil in Hb; lia).
  change (NUMBER_BUF_SIZE - 2)%nat with 21%nat. unfold is_u64, two64 in Hn. apply (printnum_loop_ok base 21 ltac:(lia) (replicate 23 0)); [|cbn; lia].
  split; [lia|]. eapply Z.lt_le_trans; [apply Hn|]. transitivity (8 ^ (Z.of_nat 21 + 1)); [done|]. apply Z.pow_le_mono_l. lia.
Qed.

Lemma digits_range fuel base n : 0 < base → Forall (λ d, 0 ≤ d < base) (digits_of fuel base n).
Proof.
  intros Hb. revert n. induction fuel as [|fuel IH]; intros n; [constructor|]. cbn. apply Forall_app. split; [by case_match|].
  repeat constructor; apply Z.mod_pos_bound; lia.
Qed.

Lemma dec_value_app acc l1 l2 : dec_value acc (l1 ++ l2) = dec_value (dec_value acc l1) l2.
Proof. revert acc. induction l1 as [|d l1 IH]; intros acc; [done|]. apply IH. Qed.

(** The decimal digits denote the number. *)
Lemma dec_value_ge ds : ∀ acc, 0 ≤ acc → Forall (λ d, 0 ≤ d) ds → acc ≤ dec_value acc ds.
Proof.
  induction ds as [|d ds IH]; intros acc Ha Hds; cbn [dec_value]; [done|]. inversion_clear Hds.
  specialize (IH (acc * 10 + d) ltac:(lia) ltac:(done)). lia.
Qed.

Lemma digits_value fuel : ∀ n, 0 ≤ n < 10 ^ Z.of_nat fuel → dec_value 0 (digits_of fuel 10 n) = n.
Proof.
  induction fuel as [|fuel IH]; intros n Hn; [cbn in *; lia|]. cbn [digits_of]. rewrite dec_value_app.
  rewrite Nat2Z.inj_succ, Z.pow_succ_r in Hn by lia. pose proof (Z.div_mod n 10 ltac:(lia)).
  destruct (Z.ltb_spec 0 (n / 10)) as [Hq|Hq].
  - rewrite IH; [cbn; lia|]. split; [lia|]. apply Z.div_lt_upper_bound; lia.
  - pose proof (Z.div_pos n 10 ltac:(lia) ltac:(lia)). cbn. lia.
Qed.

Lemma digits_ne fuel base n : digits_of (S fuel) base n ≠ [].
Proof. cbn. intros [_ ?]%app_eq_nil. done. Qed.

Lemma number_chars_text base n : 2 ≤ base ≤ 16 → text (number_chars base n).
Proof.
  intros Hb. unfold number_chars, text. apply Forall_map. eapply Forall_impl; [apply digits_range; lia|].
  intros d Hd. cbn beta in *. unfold digit_char. destruct (d <? 10); lia.
Qed.

(** ** Fields *)

Definition padded (w : Z) (right : bool) (f : Z) (p1 p2 body : list Z) : list Z :=
  let pad := replicate (Z.to_nat (w - (zlen p1 + zlen p2 + zlen body))) f in
  if right then p1 ++ p2 ++ body ++ pad
  else if f =? 48 then p1 ++ p2 ++ pad ++ body
  else pad ++ p1 ++ p2 ++ body.

(** What the modifiers of a directive ask for: flags, width and size. *)
Record spec := mkSpec { sp_alt : bool; sp_left : bool; sp_zero : bool; sp_width : Z; sp_size : intsize }.

Inductive conv := Cd | Cu | Cx | Co | Cp.

(** The items of a format with their arguments: text, numbers, strings, characters, and
    other characters after a [%].  [md] are the modifiers of a directive as they are
    written, in any order. *)
Inductive item :=
  | Lit (c : Z)
  | Num (md : list Z) (cv : conv) (v : Z)
  | Str (md : list Z) (a : Z) (l : list Z)
  | Chr (md : list Z) (v : Z)
  | Other (md : list Z) (c : Z).

Definition conv_char (cv : conv) : Z := match cv with Cd => 100 | Cu => 117 | Cx => 120 | Co => 111 | Cp => 112 end.
Definition conv_base (cv : conv) : Z := match cv with Cd | Cu => 10 | Cx | Cp => 16 | Co => 8 end.

(** The digits of the width and the characters that choose the size of the argument. *)
Definition width_digits (md : list Z) : list Z := filter (λ c, 48 ≤ c ≤ 57) md.
Definition size_mods (md : list Z) : list Z := filter (λ c, c = 108 ∨ c = 122) md.

(** The documented meaning of modifiers: the flags are given if they occur somewhere, the
    digits make up the width, and a leading zero among them is the flag for zeros. *)
Definition spec_of (md : list Z) : spec :=
  mkSpec (bool_decide (35 ∈ md)) (bool_decide (45 ∈ md)) (bool_decide (head (width_digits md) = Some 48))
    (dec_value 0 (map (λ c, c - 48) (width_digits md)))
    match size_mods md with [] => INTSZ | [108] => LONGSZ | [108; 108] => LLONGSZ | _ => SIZETSZ end.

Definition item_chars (it : item) : list Z :=
  match it with
  | Lit c => [c]
  | Num md cv _ => 37 :: md ++ [conv_char cv]
  | Str md _ _ => 37 :: md ++ [115]
  | Chr md _ => 37 :: md ++ [99]
  | Other md c => 37 :: md ++ [c]
  end.

Definition long_long (sp : spec) (cv : conv) : bool := match sp_size sp, cv with _, Cp => false | LLONGSZ, _ => true | _, _ => false end.

Definition item_args (it : item) : list arg :=
  match it with
  | Num md cv v => [if long_long (spec_of md) cv then ADword v else AWord v]
  | Str _ a _ => [AWord a]
  | Chr _ v => [AWord v]
  | _ => []
  end.

(** The number that an argument denotes. *)
Definition num_value (sp : spec) (cv : conv) (v : Z) : Z :=
  match cv with
  | Cd => if long_long sp cv then s64 v else s32 v
  | _ => if long_long sp cv then u64 v else u32 v
  end.

Definition base_prefix (sp : spec) (cv : conv) : list Z :=
  match cv with Cp => [48; 120] | Cx => if sp_alt sp then [48; 120] else [] | Co => if sp_alt sp then [48] else [] | _ => [] end.

Definition in_field (sp : spec) : list Z → list Z → list Z → list Z := padded (sp_width sp) (sp_left sp) (if sp_zero sp then 48 else 32).

(** A character argument of 0 ends the text before it starts. *)
Definition render (it : item) : list Z :=
  match it with
  | Lit c => [c]
  | Num md cv v =>
      let sp := spec_of md in
      let z := num_value sp cv v in
      in_field sp (if z <? 0 then [45] else []) (base_prefix sp cv) (number_chars (conv_base cv) (Z.abs z))
  | Str md a l => in_field (spec_of md) [] [] (if a =? 0 then [40; 110; 117; 108; 108; 41] else l)
  | Chr md v => in_field (spec_of md) [] [] (if v mod 256 =? 0 then [] else [v mod 256])
  | Other md c => in_field (spec_of md) [] [] [c]
  end.

Definition format_of (its : list item) : list Z := its ≫= item_chars.
Definition args_of (its : list item) : list arg := its ≫= item_args.
Definition rendered (its : list item) : list Z := its ≫= render.

Definition readable (R : Z → Prop) (a n : Z) : Prop := ∀ i, 0 ≤ i < n → R (a + i).

(** The text at [t] starts with [l]. *)
Definition holds (R : Z → Prop) m (t : text_ref) l : Prop :=
  match t with
  | At a => bytes_at m a l ∧ readable R a (zlen l)
  | Local l' => take (length l) l' = l
  end.

(** The text at [t] is the string [l]. *)
Definition holds_str (R : Z → Prop) m (t : text_ref) l : Prop :=
  match t with
  | At a => cstr m a l ∧ readable R a (zlen l + 1)
  | Local l' => text l ∧ ∃ r, l' = l ++ 0 :: r
  end.

(** Modifiers with a width that is an [int] and one size. *)
Definition mods_ok (md : list Z) : Prop :=
  Forall (.∈ modifiers) md ∧ sp_width (spec_of md) < two31 ∧ size_mods md ∈ [[]; [108]; [108; 108]; [122]].

Lemma mods_okb md : bool_decide (Forall (.∈ modifiers) md ∧ sp_width (spec_of md) < two31 ∧ size_mods md ∈ [[]; [108]; [108; 108]; [122]]) = true → mods_ok md.
Proof. apply bool_decide_eq_true_1. Qed.

(** [%X] is left out: it is documented as a conversion and not implemented as one. *)
Definition item_ok (R : Z → Prop) m (it : item) : Prop :=
  match it with
  | Lit c => 0 < c < 256 ∧ c ≠ 37
  | Num md _ _ | Chr md _ => mods_ok md
  | Str md a l => mods_ok md ∧ is_u32 a ∧ (a ≠ 0 → holds_str R m (At a) l ∧ zlen l < two31)
  | Other md c => mods_ok md ∧ 0 < c < 256 ∧ ¬ c ∈ modifiers ∧ ¬ c ∈ integer_types ∧ c ≠ 115 ∧ c ≠ 99 ∧ c ≠ 88
  end.

(** ** What a client function promises

    [J m d out] says that [out] has been sent.  The memory that the format and the
    arguments are in ([R]) is not written. *)
Class Sink {D} (send : mem → D → text_ref → Z → outcome (mem * D)) (R : Z → Prop) (m0 : mem) (J : mem → D → list Z → Prop) := {
  sink_frame : ∀ m d out k, J m d out → R k → m !! k = m0 !! k;
  sink_send : ∀ m d out t l, J m d out → holds R m t l → zlen l < two32 → ∃ m' d', send m d t (zlen l) = Ok (m', d') ∧ J m' d' (out ++ l) }.

Lemma local_strlen_ok l r : text l → local_strlen (l ++ 0 :: r) = Ok (zlen l).
Proof.
  induction 1 as [|c l Hc _ IH]; [done|]. cbn. rewrite (proj2 (Z.eqb_neq c 0)) by lia. rewrite IH. cbn. by rewrite zlen_cons.
Qed.

Lemma text_strlen_ok R m t l : holds_str R m t l → text_strlen m t = Ok (zlen l).
Proof. destruct t; cbn; [intros [Hs _]; by apply strlen_ok|intros [Ht [r ->]]; by apply local_strlen_ok]. Qed.

Lemma holds_str_holds R m t l : holds_str R m t l → holds R m t l.
Proof.
  destruct t; cbn.
  - intros [[_ Hb] Hr]. apply bytes_app in Hb as [Hb _]. split; [done|]. intros i Hi. apply Hr. lia.
  - intros [_ [r ->]]. apply take_app_length.
Qed.

(** Reading is not affected by what happens to the rest of the memory. *)
Lemma holds_str_frame (R : Z → Prop) m m' t l : (∀ k, R k → m' !! k = m !! k) → holds_str R m t l → holds_str R m' t l.
Proof.
  intros Hm. destruct t; cbn; [|done]. intros [[Ht Hb] Hr]. split; [|done]. split; [done|]. intros i Hi. rewrite Hm; [by apply Hb|].
  apply Hr. unfold zlen. rewrite length_app in Hi. cbn in Hi. lia.
Qed.

Lemma s32_add a b : s32 (s32 a + b) = s32 (a + b).
Proof.
  unfold s32. f_equal. replace (_ - two31 + b + two31) with ((a + two31) mod two32 + b) by lia.
  rewrite Zplus_mod_idemp_l. f_equal. lia.
Qed.

Section printing.
Context {D : Type} {sendfunc : mem → D → text_ref → Z → outcome (mem * D)} {R : Z → Prop} {m0 : mem} {J : mem → D → list Z → Prop}.
Context {HS : Sink sendfunc R m0 J}.

(** [out] has been sent and counted, and the rest of the state is [pf]. *)
Definition sent (s : st) (out : list Z) (pf : PF) : Prop :=
  J (st_mem s) (clientdata s) out ∧ st_pf s = set_charcount (s32 (zlen out)) pf.

Lemma sent_frame s out pf k : sent s out pf → R k → st_mem s !! k = m0 !! k.
Proof. intros [HJ _]. by apply (sink_frame _ _ _ _ HJ). Qed.

Lemma sent_str s out pf t l : sent s out pf → holds_str R m0 t l → holds_str R (st_mem s) t l.
Proof. intros Hs. apply holds_str_frame. intros k. apply (sent_frame s out pf k Hs). Qed.

Lemma print_ok s out pf t l : sent s out pf → holds R (st_mem s) t l → zlen l < two32 →
  ∃ s', __pf_print sendfunc s t (zlen l) = Ok s' ∧ sent s' (out ++ l) pf.
Proof.
  intros [HJ Hpf] Ht Hl. destruct (sink_send _ _ _ _ _ HJ Ht Hl) as (m' & d' & E & HJ'). unfold __pf_print. rewrite E, bind_of_Ok.
  eexists. split; [done|]. split; [done|]. cbn [st_pf]. rewrite Hpf. unfold set_charcount. cbn [charcount ap in_pct size_ num sign_ spacing rightspc fillchar base_ baseprefix altformat].
  f_equal. by rewrite zlen_app, s32_add.
Qed.

Lemma fill_iter_ok n : ∀ s out pf f, sent s out pf → ∃ s', fill_iter sendfunc n s f = Ok s' ∧ sent s' (out ++ replicate n f) pf.
Proof.
  induction n as [|n IH]; intros s out pf f Hs; cbn [fill_iter replicate]; [exists s; by rewrite app_nil_r|].
  destruct (print_ok s out pf (Local [f]) [f] Hs) as (s1 & E & Hs1); [done|done|]. change (zlen [f]) with 1 in E. rewrite E, bind_of_Ok.
  destruct (IH s1 _ pf f Hs1) as (s2 & -> & Hs2). exists s2. split; [done|]. by rewrite <-app_assoc in Hs2.
Qed.

(** Padding, if the condition holds. *)
Lemma fill_if_ok (b : bool) spc s out pf : sent s out pf →
  ∃ s', (if b then __pf_fill sendfunc s spc else Ok s) = Ok s' ∧
    sent s' (out ++ if b then replicate (Z.to_nat spc) (fillchar pf) else []) pf.
Proof.
  intros Hs. destruct b; [|exists s; by rewrite app_nil_r]. unfold __pf_fill. replace (fillchar (st_pf s)) with (fillchar pf) by (by destruct Hs as [_ ->]).
  by apply fill_iter_ok.
Qed.

(** A string printed after its length has been taken. *)
Lemma print_str_ok s out pf t l : sent s out pf → holds_str R m0 t l → zlen l < two32 →
  text_strlen (st_mem s) t = Ok (zlen l) ∧ ∃ s', __pf_print sendfunc s t (zlen l) = Ok s' ∧ sent s' (out ++ l) pf.
Proof.
  intros Hs Ht Hl. apply (sent_str _ _ _ _ _ Hs) in Ht. split; [by apply (text_strlen_ok R)|].
  apply print_ok; [done|by apply holds_str_holds|done].
Qed.

Lemma printstuff_ok s out pf t1 t2 t3 l1 l2 l3 : sent s out pf →
  holds_str R m0 t1 l1 → holds_str R m0 t2 l2 → holds_str R m0 t3 l3 → zlen l1 + zlen l2 + zlen l3 < two31 →
  ∃ s', __pf_printstuff sendfunc s t1 t2 t3 = Ok s' ∧
    sent s' (out ++ padded (spacing pf) (rightspc pf) (fillchar pf) l1 l2 l3) pf.
Proof.
  intros Hs H1 H2 H3 Hl. pose proof (zlen_nonneg l1). pose proof (zlen_nonneg l2). pose proof (zlen_nonneg l3).
  assert (∀ s out, sent s out pf → spacing (st_pf s) = spacing pf ∧ rightspc (st_pf s) = rightspc pf ∧ fillchar (st_pf s) = fillchar pf) as Hpf
    by (intros ? ? [_ ->]; done).
  assert (zlen l1 < two32 ∧ zlen l2 < two32 ∧ zlen l3 < two32) as (Hb1 & Hb2 & Hb3) by width.
  unfold __pf_printstuff. rewrite (text_strlen_ok _ _ _ _ (sent_str _ _ _ _ _ Hs H1)), bind_of_Ok.
  rewrite (text_strlen_ok _ _ _ _ (sent_str _ _ _ _ _ Hs H2)), bind_of_Ok, (text_strlen_ok _ _ _ _ (sent_str _ _ _ _ _ Hs H3)), bind_of_Ok.
  rewrite s32_id by width.
  destruct (Hpf _ _ Hs) as (-> & -> & ->). set (spc := if _ <? spacing pf then _ else 0).
  destruct (fill_if_ok ((0 <? spc) && negb (rightspc pf) && negb (fillchar pf =? 48)) spc s out pf Hs) as (s1 & -> & Hs1). rewrite bind_of_Ok.
  destruct (print_str_ok s1 _ pf t1 l1 Hs1 H1 Hb1) as (-> & s2 & E2 & Hs2). rewrite bind_of_Ok, E2, bind_of_Ok.
  destruct (print_str_ok s2 _ pf t2 l2 Hs2 H2 Hb2) as (-> & s3 & E3 & Hs3). rewrite bind_of_Ok, E3, bind_of_Ok.
  destruct (Hpf _ _ Hs3) as (_ & -> & ->).
  destruct (fill_if_ok ((0 <? spc) && negb (rightspc pf) && (fillchar pf =? 48)) spc s3 _ pf Hs3) as (s4 & -> & Hs4). rewrite bind_of_Ok.
  destruct (print_str_ok s4 _ pf t3 l3 Hs4 H3 Hb3) as (-> & s5 & E5 & Hs5). rewrite bind_of_Ok, E5, bind_of_Ok.
  destruct (Hpf _ _ Hs5) as (_ & -> & _).
  destruct (fill_if_ok ((0 <? spc) && rightspc pf) spc s5 _ pf Hs5) as (s6 & -> & Hs6). exists s6. split; [done|].
  revert Hs6. clear -H H0 H1 H2 H3 Hl. unfold padded. subst spc.
  replace (Z.to_nat (spacing pf - (zlen l1 + zlen l2 + zlen l3))) with (Z.to_nat (if zlen l1 + zlen l2 + zlen l3 <? spacing pf then spacing pf - (zlen l1 + zlen l2 + zlen l3) else 0))
    by (destruct (Z.ltb_spec (zlen l1 + zlen l2 + zlen l3) (spacing pf)); lia).
  generalize (if zlen l1 + zlen l2 + zlen l3 <? spacing pf then spacing pf - (zlen l1 + zlen l2 + zlen l3) else 0). intros spc.
  destruct (Z.ltb_spec 0 spc); [|replace (Z.to_nat spc) with 0%nat by lia]; destruct (rightspc pf), (fillchar pf =? 48); cbn [andb negb replicate];
    rewrite ?app_nil_r, <-?app_assoc; cbn [app]; rewrite ?app_nil_r; done.
Qed.

Definition clean args : PF := mkPF args 0 false INTSZ 0 0 0 false 32 0 false false.
Definition field args sz w right f alt : PF := mkPF args 0 true sz 0 0 w right f 0 false alt.

(** Reading characters of the format one after the other, with the memory the format is
    in unchanged each time. *)
Inductive runs : st → list Z → st → Prop :=
  | runs_nil s : runs s [] s
  | runs_cons s c cs s1 s2 : (∀ k, R k → st_mem s !! k = m0 !! k) → __pf_send sendfunc s c = Ok s1 → runs s1 cs s2 → runs s (c :: cs) s2.

Lemma runs_app s1 s2 s3 cs1 cs2 : runs s1 cs1 s2 → runs s2 cs2 s3 → runs s1 (cs1 ++ cs2) s3.
Proof. induction 1; [done|]. intros. econstructor; eauto. Qed.

(** From one state to another. *)
Definition sends (cs out : list Z) (pf pf' : PF) : Prop :=
  ∀ s pre, sent s pre pf → ∃ s', runs s cs s' ∧ sent s' (pre ++ out) pf'.

Lemma sends_nil pf : sends [] [] pf pf.
Proof. intros s pre Hs. exists s. rewrite app_nil_r. split; [constructor|done]. Qed.

Lemma sends_app cs1 cs2 out1 out2 pf1 pf2 pf3 : sends cs1 out1 pf1 pf2 → sends cs2 out2 pf2 pf3 → sends (cs1 ++ cs2) (out1 ++ out2) pf1 pf3.
Proof.
  intros H1 H2 s pre Hs. destruct (H1 s pre Hs) as (s1 & E1 & Hs1). destruct (H2 s1 _ Hs1) as (s2 & E2 & Hs2).
  exists s2. rewrite app_assoc. split; [by eapply runs_app|done].
Qed.

Lemma sends_one c out pf pf' :
  (∀ s pre, sent s pre pf → ∃ s', __pf_send sendfunc s c = Ok s' ∧ sent s' (pre ++ out) pf') → sends [c] out pf pf'.
Proof.
  intros H s pre Hs. destruct (H s pre Hs) as (s' & E & Hs'). exists s'. split; [|done].
  eapply runs_cons; [|done|constructor]. intros k. by apply (sent_frame s pre pf).
Qed.

Lemma sent_upd s pre pf pf' : sent s pre pf → sent (upd s (set_charcount (charcount (st_pf s)) pf')) pre pf'.
Proof. intros [HJ Hpf]. split; [done|]. cbn. by rewrite Hpf. Qed.

Lemma send_literal c args : 0 < c < 256 → c ≠ 37 → sends [c] [c] (clean args) (clean args).
Proof.
  intros Hc H37. apply sends_one. intros s pre Hs. unfold __pf_send. rewrite (proj2 (Z.eqb_neq c 0)), (proj2 (Z.eqb_neq c 37)) by lia.
  cbn [negb kassert]. rewrite bind_of_Ok. replace (in_pct (st_pf s)) with false by (by destruct Hs as [_ ->]).
  apply (print_ok s pre _ (Local [c]) [c] Hs); done.
Qed.

Lemma send_percent args : sends [37] [] (clean args) (field args INTSZ 0 false 32 false).
Proof.
  apply sends_one. intros s pre Hs. exists (upd s (set_charcount (charcount (st_pf s)) (field args INTSZ 0 false 32 false))).
  rewrite app_nil_r. split; [|by apply (sent_upd _ _ _ _ Hs)]. destruct Hs as [_ Hpf]. unfold __pf_send. by rewrite Hpf.
Qed.

(** Modifiers: the flags and the width are recorded. *)
Lemma modifier_charcount n pf ch pf' : __pf_modifier pf ch = Ok pf' → __pf_modifier (set_charcount n pf) ch = Ok (set_charcount n pf').
Proof.
  unfold __pf_modifier. cbn [size_ spacing set_charcount]. repeat (case_match; [intros [= <-]; repeat case_match; done|]).
  destruct (kassert _); [|done..]. by intros [= <-].
Qed.

Lemma modifier_pos c : c ∈ modifiers → c ≠ 0.
Proof. revert c. apply Forall_forall. by repeat constructor. Qed.

Lemma send_modifier c pf pf' : in_pct pf = true → c ∈ modifiers → __pf_modifier pf c = Ok pf' → sends [c] [] pf pf'.
Proof.
  intros Hp Hc E. apply sends_one. intros s pre Hs. rewrite app_nil_r.
  exists (upd s (set_charcount (charcount (st_pf s)) pf')). split; [|by apply (sent_upd _ _ _ _ Hs)].
  destruct Hs as [_ Hpf]. unfold __pf_send. rewrite (proj2 (Z.eqb_neq c 0)) by (by apply modifier_pos).
  cbn [negb kassert]. rewrite bind_of_Ok. rewrite Hpf. change (in_pct (set_charcount ?n pf)) with (in_pct pf). rewrite Hp. cbn [negb andb].
  unfold among. rewrite bool_decide_eq_true_2 by done. by rewrite (modifier_charcount _ _ _ _ E).
Qed.

Definition spec_field args (sp : spec) : PF :=
  field args (sp_size sp) (sp_width sp) (sp_left sp) (if sp_zero sp then 48 else 32) (sp_alt sp).

Lemma sends_step cs1 cs2 out pf1 pf2 pf3 : sends cs1 [] pf1 pf2 → sends cs2 out pf2 pf3 → sends (cs1 ++ cs2) out pf1 pf3.
Proof. apply sends_app. Qed.

Lemma width_digits_pos md : Forall (λ d, 0 ≤ d) (map (λ c, c - 48) (width_digits md)).
Proof. apply Forall_map, Forall_forall. intros c [Hc _]%list_elem_of_filter. cbn. lia. Qed.

Lemma width_nonneg md : 0 ≤ sp_width (spec_of md).
Proof. apply (dec_value_ge _ 0); [lia|apply width_digits_pos]. Qed.

(** The meaning of modifiers with one more at the end. *)
Lemma width_digits_snoc md c : width_digits (md ++ [c]) = width_digits md ++ (if decide (48 ≤ c ≤ 57) then [c] else []).
Proof. unfold width_digits. rewrite filter_app, filter_cons, filter_nil. by case_decide. Qed.

Lemma size_mods_snoc md c : size_mods (md ++ [c]) = size_mods md ++ (if decide (c = 108 ∨ c = 122) then [c] else []).
Proof. unfold size_mods. rewrite filter_app, filter_cons, filter_nil. by case_decide. Qed.

Lemma flag_snoc (md : list Z) f c : bool_decide (f ∈ md ++ [c]) = bool_decide (f ∈ md) || (f =? c).
Proof.
  destruct (Z.eqb_spec f c) as [->|Hne].
  - rewrite orb_true_r. apply bool_decide_eq_true_2. apply elem_of_app. right. by left.
  - rewrite orb_false_r. apply bool_decide_ext. rewrite elem_of_app, list_elem_of_singleton. naive_solver.
Qed.

Lemma width_snoc md c : sp_width (spec_of (md ++ [c])) =
  if decide (48 ≤ c ≤ 57) then sp_width (spec_of md) * 10 + (c - 48) else sp_width (spec_of md).
Proof.
  cbn [spec_of sp_width]. rewrite width_digits_snoc. case_decide; [|by rewrite app_nil_r].
  rewrite map_app, dec_value_app. cbn. lia.
Qed.

Lemma mods_ok_snoc md c : mods_ok (md ++ [c]) → mods_ok md ∧ c ∈ modifiers.
Proof.
  intros ([Hm Hc]%Forall_app & Hw & Hs). split; [|by inversion Hc]. split; [done|]. pose proof (width_nonneg md).
  rewrite width_snoc in Hw. split; [case_decide; lia|]. rewrite size_mods_snoc in Hs.
  case_decide; [|by rewrite app_nil_r in Hs]. rewrite !elem_of_cons, elem_of_nil in *.
  destruct (size_mods md) as [|a [|b [|]]]; naive_solver.
Qed.

(** A leading zero is the zero at which the width is still 0. *)
Lemma zero_snoc md c : sp_zero (spec_of (md ++ [c])) = sp_zero (spec_of md) || (c =? 48) && (sp_width (spec_of md) =? 0).
Proof.
  pose proof (width_digits_pos md) as Hpos. cbn [spec_of sp_zero sp_width]. rewrite width_digits_snoc. case_decide as Hc.
  - destruct (width_digits md) as [|d ds] eqn:E; cbn [app head].
    + cbn. rewrite andb_true_r. destruct (Z.eqb_spec c 48) as [->|]; [done|]. apply bool_decide_eq_false_2. congruence.
    + destruct (decide (d = 48)) as [->|Hd]; [done|]. rewrite !bool_decide_eq_false_2 by congruence.
      assert (d ∈ width_digits md) as [Hdr _]%list_elem_of_filter by (rewrite E; by left).
      cbn [map dec_value] in *. inversion_clear Hpos as [|? ? _ Hds]. pose proof (dec_value_ge _ (0 * 10 + (d - 48)) ltac:(lia) Hds).
      rewrite (proj2 (Z.eqb_neq (dec_value _ _) 0)), andb_false_r by lia. done.
  - rewrite app_nil_r, (proj2 (Z.eqb_neq c 48)) by lia. by rewrite orb_false_r.
Qed.

Lemma modifier_step args md c : mods_ok (md ++ [c]) →
  __pf_modifier (spec_field args (spec_of md)) c = Ok (spec_field args (spec_of (md ++ [c]))).
Proof.
  intros Hok. pose proof Hok as (_ & Hw & Hs). destruct (mods_ok_snoc _ _ Hok) as [_ Hc]. pose proof (width_nonneg md) as Hw0.
  unfold spec_field. rewrite zero_snoc. cbn [spec_of sp_alt sp_left sp_size]. rewrite !flag_snoc, width_snoc, size_mods_snoc in *.
  unfold modifiers in Hc. rewrite elem_of_app, !elem_of_cons, elem_of_nil, elem_of_seqZ in Hc.
  revert Hs Hw Hw0. generalize (bool_decide (35 ∈ md)) as a, (bool_decide (45 ∈ md)) as l, (sp_zero (spec_of md)) as z,
    (sp_width (spec_of md)) as w, (size_mods md) as sz. intros a l z w sz Hs Hw Hw0.
  destruct Hc as [[->|[->|[->|[->|[]]]]]|Hc].
  - cbn. by rewrite app_nil_r, !orb_false_r, orb_true_r.
  - cbn. by rewrite app_nil_r, !orb_false_r, orb_true_r.
  - cbn in Hs. rewrite !elem_of_cons, elem_of_nil in Hs. cbn. rewrite !orb_false_r. by destruct sz as [|b [|c [|]]]; naive_solver.
  - cbn in Hs. rewrite !elem_of_cons, elem_of_nil in Hs. cbn. rewrite !orb_false_r. by destruct sz as [|b [|c [|]]]; naive_solver.
  - destruct (decide (48 ≤ c ≤ 57)) as [_|]; [|lia]. destruct (decide (c = 108 ∨ c = 122)) as [|_]; [lia|]. rewrite app_nil_r. unfold __pf_modifier. cbn [spacing field].
    rewrite (proj2 (Z.eqb_neq c 35)), (proj2 (Z.eqb_neq c 45)), (proj2 (Z.eqb_neq c 108)), (proj2 (Z.eqb_neq c 122)) by lia.
    rewrite (proj2 (Z.eqb_neq 35 c)), (proj2 (Z.eqb_neq 45 c)), !orb_false_r by lia. destruct (Z.eqb_spec c 48) as [->|Hc0]; cbn [andb].
    + destruct (Z.ltb_spec 0 w); [rewrite (proj2 (Z.eqb_neq w 0)), orb_false_r by lia|replace w with 0 by lia; by rewrite orb_true_r].
      rewrite s32_id by width. by replace (w * 10 + (48 - 48)) with (w * 10) by lia.
    + rewrite (proj2 (Z.ltb_lt 48 c)), (proj2 (Z.leb_le c 57)) by lia. cbn [andb kassert]. by rewrite bind_of_Ok, orb_false_r, s32_id by width.
Qed.

Lemma send_mods args md : mods_ok md → sends md [] (field args INTSZ 0 false 32 false) (spec_field args (spec_of md)).
Proof.
  induction md as [|c md IH] using rev_ind; intros Hok; [apply sends_nil|]. destruct (mods_ok_snoc _ _ Hok) as [Hmd Hc].
  eapply sends_step; [by apply IH|]. apply send_modifier; [done|done|by apply modifier_step].
Qed.

Lemma send_spec args md : mods_ok md → sends (37 :: md) [] (clean args) (spec_field args (spec_of md)).
Proof. intros Hok. change (37 :: md) with ([37] ++ md). eapply sends_step; [apply send_percent|by apply send_mods]. Qed.

(** The end of a directive, after which the state is clean. *)
Lemma sent_end s out pf : sent s out pf → sent (upd s (__pf_endfield (st_pf s))) out (clean (ap pf)).
Proof. intros [HJ Hpf]. split; [done|]. cbn. by rewrite Hpf. Qed.

Lemma local_str l r : text l → holds_str R m0 (Local (l ++ 0 :: r)) l.
Proof. intros Ht. split; [done|]. by exists r. Qed.

(** [__pf_send] inside a field, for a character that is not a modifier. *)
Lemma send_field_enter s pre args sp c : sent s pre (spec_field args sp) → 0 < c < 256 → c ∉ modifiers →
  st_pf s = set_charcount (s32 (zlen pre)) (spec_field args sp) ∧
  __pf_send sendfunc s c =
    (let pf := st_pf s in
     if among integer_types c then
       pf ← __pf_getnum pf c;
       s ← __pf_printnum sendfunc (upd s (__pf_setbase pf c));
       Ok (upd s (__pf_endfield (st_pf s)))
     else if c =? 115 then
       '(str, pf) ← va_word pf;
       s ← __pf_printstuff sendfunc (upd s pf) (Local [0]) (Local [0]) (if u32 str =? 0 then Local null_text else At (u32 str));
       Ok (upd s (__pf_endfield (st_pf s)))
     else
       '(x0, pf) ← (if c =? 99 then '(z, pf) ← va_word pf; Ok (z mod 256, pf) else Ok (c, pf));
       s ← __pf_printstuff sendfunc (upd s pf) (Local [0]) (Local [0]) (Local [x0; 0]);
       Ok (upd s (__pf_endfield (st_pf s)))).
Proof.
  intros [_ Hpf] Hc Hm. split; [exact Hpf|]. unfold __pf_send. rewrite (proj2 (Z.eqb_neq c 0)) by lia. cbn [negb kassert].
  rewrite bind_of_Ok, Hpf. change (in_pct (set_charcount ?n (spec_field args sp))) with true. cbn [negb andb].
  unfold among at 1. by rewrite bool_decide_eq_false_2 by done.
Qed.

Lemma printstuff_field s pre args sp t l : sent s pre (spec_field args sp) → holds_str R m0 t l → zlen l < two31 →
  ∃ s', (s ← __pf_printstuff sendfunc s (Local [0]) (Local [0]) t; Ok (upd s (__pf_endfield (st_pf s)))) = Ok s' ∧
    sent s' (pre ++ in_field sp [] [] l) (clean args).
Proof.
  intros Hs Ht Hl. assert (holds_str R m0 (Local [0]) []) as Hnil by (apply (local_str [] []); constructor).
  destruct (printstuff_ok s pre _ (Local [0]) (Local [0]) t [] [] l Hs) as (s1 & E & Hs1); [done..|unfold zlen in *; cbn [length] in *; lia|].
  rewrite E, bind_of_Ok. eexists. split; [done|]. apply (sent_end _ _ _ Hs1).
Qed.

Lemma send_other args sp c : 0 < c < 256 → c ∉ modifiers → c ∉ integer_types → c ≠ 115 → c ≠ 99 →
  sends [c] (in_field sp [] [] [c]) (spec_field args sp) (clean args).
Proof.
  intros Hc Hm Hi H1 H2. apply sends_one. intros s pre Hs. destruct (send_field_enter s pre args sp c Hs Hc Hm) as (Hpf & ->).
  cbn zeta. unfold among. rewrite bool_decide_eq_false_2 by done. rewrite (proj2 (Z.eqb_neq c 115)), (proj2 (Z.eqb_neq c 99)) by lia. rewrite bind_of_Ok.
  apply printstuff_field; [|apply (local_str [c] []); repeat constructor; lia|done]. destruct Hs as [HJ Hs]. by split.
Qed.

Lemma send_chr args md v : sends [99] (render (Chr md v)) (spec_field (AWord v :: args) (spec_of md)) (clean args).
Proof.
  apply sends_one. intros s pre Hs. destruct (send_field_enter s pre _ _ 99 Hs) as (Hpf & ->); [lia|by apply (bool_decide_eq_false_1 (99 ∈ modifiers))|].
  change (among integer_types 99) with false. cbn [Z.eqb Pos.eqb]. rewrite Hpf. cbn [va_word ap set_charcount spec_field field]. rewrite !bind_of_Ok.
  apply printstuff_field with (l := if v mod 256 =? 0 then [] else [v mod 256]).
  - destruct Hs as [HJ Hs]. split; [done|]. done.
  - pose proof (Z.mod_pos_bound v 256 ltac:(lia)). destruct (Z.eqb_spec (v mod 256) 0) as [->|Hv].
    + apply (local_str [] [0]). constructor.
    + apply (local_str [v mod 256] []). repeat constructor; lia.
  - by case_match.
Qed.

Lemma send_str args md a l : is_u32 a → (a ≠ 0 → holds_str R m0 (At a) l ∧ zlen l < two31) →
  sends [115] (render (Str md a l)) (spec_field (AWord a :: args) (spec_of md)) (clean args).
Proof.
  intros Ha Hl. apply sends_one. intros s pre Hs. destruct (send_field_enter s pre _ _ 115 Hs) as (Hpf & ->); [lia|by apply (bool_decide_eq_false_1 (115 ∈ modifiers))|].
  change (among integer_types 115) with false. cbn [Z.eqb Pos.eqb]. rewrite Hpf. cbn [va_word ap set_charcount spec_field field]. rewrite !bind_of_Ok, u32_id by done.
  apply printstuff_field with (l := if a =? 0 then [40; 110; 117; 108; 108; 41] else l).
  - destruct Hs as [HJ Hs]. split; [done|]. done.
  - destruct (Z.eqb_spec a 0) as [->|E]; [apply (local_str [40; 110; 117; 108; 108; 41] []); repeat constructor; lia|by apply Hl].
  - destruct (Z.eqb_spec a 0) as [->|E]; [done|by apply Hl].
Qed.

Lemma number_chars_length base n : (length (number_chars base n) ≤ 22)%nat.
Proof.
  unfold number_chars. rewrite length_map. generalize 22%nat as fuel. intros fuel. revert n.
  induction fuel as [|fuel IH]; intros n; cbn [digits_of]; [done|]. rewrite length_app. specialize (IH (n / base)). case_match; cbn [length]; lia.
Qed.

Lemma printnum_ok s pre pf : sent s pre pf → base_ pf ∈ [8; 10; 16] → is_u64 (num pf) →
  ∃ s', __pf_printnum sendfunc s = Ok s' ∧
    sent s' (pre ++ padded (spacing pf) (rightspc pf) (fillchar pf) (if sign_ pf =? 0 then [] else [45])
      (if baseprefix pf && (base_ pf =? 16) then [48; 120] else if baseprefix pf && (base_ pf =? 8) then [48] else [])
      (number_chars (base_ pf) (num pf))) pf.
Proof.
  intros Hs Hb Hn. destruct (printnum_fits _ _ Hb Hn) as (x & b & E & Hd). unfold __pf_printnum.
  destruct Hs as [HJ Hpf]. rewrite Hpf. cbn [num base_ baseprefix sign_ set_charcount]. rewrite E, bind_of_Ok, Hd.
  assert (2 ≤ base_ pf ≤ 16) as Hr by (rewrite !elem_of_cons, elem_of_nil in Hb; lia).
  pose proof (number_chars_length (base_ pf) (num pf)).
  apply printstuff_ok; [by split|..].
  - case_match; [apply (local_str [] [])|apply (local_str [45] [])]; repeat constructor; lia.
  - repeat case_match; [apply (local_str [48; 120] [])|apply (local_str [48] [])|apply (local_str [] [])]; repeat constructor; lia.
  - apply local_str, number_chars_text. lia.
  - unfold zlen, two31. repeat case_match; cbn [length]; lia.
Qed.

Lemma getnum_ok n args sp cv v :
  __pf_getnum (set_charcount n (spec_field ((if long_long sp cv then ADword v else AWord v) :: args) sp)) (conv_char cv) =
    Ok (set_num (Z.abs (num_value sp cv v)) (if num_value sp cv v <? 0 then -1 else 0) (set_charcount n (spec_field args sp))).
Proof.
  assert (∀ z, is_s64 z → (if z <? 0 then set_num (u64 (- z)) (-1) (set_charcount n (spec_field args sp)) else set_num (u64 z) 0 (set_charcount n (spec_field args sp))) =
    set_num (Z.abs z) (if z <? 0 then -1 else 0) (set_charcount n (spec_field args sp))) as Hd.
  { intros z Hz. destruct (Z.ltb_spec z 0); f_equal; unfold u64; rewrite Z.mod_small by width; lia. }
  assert (∀ z, 0 ≤ z → set_num z 0 (set_charcount n (spec_field args sp)) =
    set_num (Z.abs z) (if z <? 0 then -1 else 0) (set_charcount n (spec_field args sp))) as Hu.
  { intros z Hz. rewrite (proj2 (Z.ltb_ge z 0)), Z.abs_eq by lia. done. }
  pose proof (s64_range v) as H1. pose proof (s32_range v) as H2.
  assert (0 ≤ u32 v ∧ 0 ≤ u64 v) as [H3 H4] by (split; apply Z.mod_pos_bound; done).
  assert (is_s64 (s32 v)) as H5 by width.
  destruct sp as [alt left zero w []], cv; first [exact (f_equal Ok (Hd _ H5)) | exact (f_equal Ok (Hd _ H1)) | exact (f_equal Ok (Hu _ H3)) | exact (f_equal Ok (Hu _ H4))].
Qed.

Lemma send_num args md cv v :
  sends [conv_char cv] (render (Num md cv v)) (spec_field (item_args (Num md cv v) ++ args) (spec_of md)) (clean args).
Proof.
  cbn [render item_args app]. generalize (spec_of md) as sp. intros sp. apply sends_one. intros s pre Hs.
  destruct (send_field_enter s pre _ sp (conv_char cv) Hs) as (Hpf & ->);
    [destruct cv; cbn; lia|destruct cv; by apply (bool_decide_eq_false_1 (_ ∈ modifiers))|].
  cbn zeta. replace (among integer_types (conv_char cv)) with true by (by destruct cv). rewrite Hpf, getnum_ok, bind_of_Ok.
  set (z := num_value sp cv v). set (pf := __pf_setbase (set_num (Z.abs z) (if z <? 0 then -1 else 0) (spec_field args sp)) (conv_char cv)).
  destruct (printnum_ok (upd s (set_charcount (s32 (zlen pre)) pf)) pre pf) as (s' & E & Hs').
  - destruct Hs as [HJ _]. by split.
  - destruct cv; apply (bool_decide_eq_true_1 (_ ∈ [8; 10; 16])); done.
  - change (num pf) with (Z.abs z). subst z. pose proof (s64_range v). pose proof (s32_range v). pose proof (u32_range v).
    assert (is_u64 (u64 v)) by (apply Z.mod_pos_bound; done). unfold num_value. destruct cv, (long_long sp _); width.
  - change (__pf_setbase (set_num ?a ?b (set_charcount ?c ?d)) ?e) with (set_charcount c (__pf_setbase (set_num a b d) e)). fold pf.
    rewrite E, bind_of_Ok. eexists. split; [done|]. apply sent_end in Hs'.
    assert (base_ pf = conv_base cv) as Eb by (by destruct cv).
    assert (baseprefix pf = (sp_alt sp || (conv_char cv =? 112) || false)) as Ebp by done. rewrite Eb, Ebp in Hs'.
    change (num pf) with (Z.abs z) in Hs'. change (sign_ pf) with (if z <? 0 then -1 else 0) in Hs'.
    fold z. unfold in_field. replace (if z <? 0 then [45] else []) with (if (if z <? 0 then -1 else 0) =? 0 then [] else [45]) by (by destruct (z <? 0)).
    replace (base_prefix sp cv) with (if (sp_alt sp || (conv_char cv =? 112) || false) && (conv_base cv =? 16) then [48; 120]
      else if (sp_alt sp || (conv_char cv =? 112) || false) && (conv_base cv =? 8) then [48] else []) by (unfold base_prefix; by destruct cv, (sp_alt sp)).
    exact Hs'.
Qed.

Lemma send_item it args : item_ok R m0 it → sends (item_chars it) (render it) (clean (item_args it ++ args)) (clean args).
Proof.
  destruct it as [c|md cv v|md a l|md v|md c]; cbn [item_ok item_chars]; intros Hit; rewrite ?app_comm_cons.
  - apply send_literal; apply Hit.
  - eapply sends_step; [by apply send_spec|apply send_num].
  - eapply sends_step; [apply send_spec, Hit|apply send_str; apply Hit].
  - eapply sends_step; [by apply send_spec|apply send_chr].
  - eapply sends_step; [apply send_spec, Hit|apply send_other; apply Hit].
Qed.

Lemma send_items its args : Forall (item_ok R m0) its → sends (format_of its) (rendered its) (clean (args_of its ++ args)) (clean args).
Proof.
  induction 1 as [|it its Hit _ IH]; [apply sends_nil|]. unfold format_of, rendered, args_of in *. cbn. rewrite <-app_assoc.
  eapply sends_app; [by apply send_item|done].
Qed.

(** The loop reads the format from the memory, which the client does not write. *)
Lemma vprintf_loop_ok format cs s s' : runs s cs s' → (∀ k, R k → st_mem s' !! k = m0 !! k) → ∀ fuel i,
  cstr m0 (format + i) cs → readable R (format + i) (zlen cs + 1) → (length cs < fuel)%nat → vprintf_loop sendfunc fuel s format i = Ok s'.
Proof.
  intros Hr Hm'. induction Hr as [s|s c cs s1 s2 Hm Hc _ IH]; intros [|fuel] i Hs HR Hf; cbn [length] in Hf; try lia; cbn [vprintf_loop]; unfold load.
  - rewrite Hm' by (rewrite <-(Z.add_0_r (format + i)); apply HR; unfold zlen; cbn; lia). by apply cstr_nil in Hs as ->.
  - rewrite zlen_cons in HR. pose proof (zlen_nonneg cs). rewrite Hm by (rewrite <-(Z.add_0_r (format + i)); apply HR; lia).
    apply cstr_cons in Hs as [[Hr ->] Hs]. cbn [deref]. rewrite bind_of_Ok, (proj2 (Z.eqb_neq c 0)), Hc by lia. rewrite bind_of_Ok.
    apply IH; [done|by rewrite Z.add_assoc| |lia]. intros j Hj. replace (format + (i + 1) + j) with (format + i + (j + 1)) by lia. apply HR. lia.
Qed.

Lemma vprintf_ok d format its args : J m0 d [] → Forall (item_ok R m0) its → cstr m0 format (format_of its) →
  readable R format (zlen (format_of its) + 1) →
  ∃ m d', __vprintf sendfunc m0 d format (args_of its ++ args) = Ok (s32 (zlen (rendered its)), m, d') ∧ J m d' (rendered its).
Proof.
  intros HJ Hits Hf HR. destruct (send_items its args Hits (mkSt m0 d (clean (args_of its ++ args))) []) as (s & Hr & Hs); [by split|].
  cbn [app] in Hs. exists (st_mem s), (clientdata s). split; [|by apply Hs]. unfold __vprintf.
  change (__pf_endfield _) with (clean (args_of its ++ args)).
  rewrite (vprintf_loop_ok format _ _ _ Hr (λ k, sent_frame s _ _ k Hs)); rewrite ?Z.add_0_r; [|done|done|by apply (cstr_fuel _ _ _ Hf)].
  rewrite bind_of_Ok. by destruct Hs as [_ ->].
Qed.
End printing.

(** ** The clients *)

Lemma holds_frame (R : Z → Prop) m m' t l : (∀ k, R k → m' !! k = m !! k) → holds R m t l → holds R m' t l.
Proof.
  intros Hm. destruct t; cbn; [|done]. intros [Hb Hr]. split; [|done]. intros i Hi. rewrite Hm; [by apply Hb|]. apply Hr. unfold zlen. lia.
Qed.

Lemma char_at_ok R m t l1 c l2 : holds R m t (l1 ++ c :: l2) → char_at m t (zlen l1) = Ok c.
Proof.
  destruct t as [a|l]; cbn.
  - intros [Hb _]. apply bytes_app in Hb as [_ Hb]. apply bytes_cons in Hb as [Hc _]. unfold load. by rewrite Hc.
  - intros E. unfold zget. rewrite decide_True by apply zlen_nonneg. unfold zlen. rewrite Nat2Z.id.
    assert (l !! length l1 = Some c) as ->; [|done].
    rewrite <-(take_drop (length (l1 ++ c :: l2)) l), E, lookup_app_l, lookup_app_r, Nat.sub_diag by (rewrite ?length_app; cbn; lia). done.
Qed.

Section snprintf_sink.
Context (m0 : mem) (b n : Z) (Hn : 0 ≤ n) (Hb : mapped m0 b n).

Definition outside (k : Z) : Prop := ¬ b ≤ k < b + n.

Definition snp_sent m (snp : SNP) (out : list Z) : Prop :=
  snp = mkSNP b n (Z.min (zlen out) n) ∧ m = write m0 b (take (Z.to_nat n) out).

Lemma snp_frame m snp out k : snp_sent m snp out → outside k → m !! k = m0 !! k.
Proof.
  intros [_ ->] Hk. rewrite lookup_write, decide_False; [done|]. unfold outside, zlen in *. rewrite length_take. lia.
Qed.

Lemma snp_loop out t l2 : ∀ m snp l1, snp_sent m snp (out ++ l1) → holds outside m t (l1 ++ l2) →
  ∃ m' snp', snprintf_send_loop (seqZ (zlen l1) (zlen l2)) m snp t = Ok (m', snp') ∧ snp_sent m' snp' (out ++ l1 ++ l2).
Proof.
  induction l2 as [|c l2 IH]; intros m snp l1 Hs Ht.
  { exists m, snp. rewrite app_nil_r. done. }
  rewrite zlen_cons, Z.add_1_r, seqZ_cons by (pose proof (zlen_nonneg l2); lia). rewrite Z.pred_succ. cbn [snprintf_send_loop].
  replace (Z.succ (zlen l1)) with (zlen (l1 ++ [c])) by (by rewrite zlen_app).
  replace (l1 ++ c :: l2) with ((l1 ++ [c]) ++ l2) in * by (by rewrite <-app_assoc).
  assert (∃ m1 snp1, (if bufpos snp <? buflen snp
      then c' ← char_at m t (zlen l1); m' ← store m (buf snp + bufpos snp) c'; Ok (m', mkSNP (buf snp) (buflen snp) (bufpos snp + 1))
      else Ok (m, snp)) = Ok (m1, snp1) ∧ snp_sent m1 snp1 (out ++ l1 ++ [c])) as (m1 & snp1 & E1 & Hs1).
  { rewrite <-app_assoc in Ht. rewrite (char_at_ok outside m t l1 c l2 Ht), app_assoc.
    destruct Hs as [-> ->]. cbn [buf buflen bufpos]. pose proof (zlen_nonneg (out ++ l1)). destruct (Z.ltb_spec (Z.min (zlen (out ++ l1)) n) n) as [Hlt|Hge].
    - rewrite bind_of_Ok, store_ok by (apply (mapped_write _ _ _ _ _ Hb); lia). rewrite bind_of_Ok. eexists _, _. split; [done|].
      split; [f_equal; rewrite (zlen_app _ [c]), zlen_singleton; lia|]. unfold zlen in Hlt. rewrite !take_ge by (rewrite ?length_app in *; cbn; lia).
      rewrite (write_app m0 b (out ++ l1) [c]), write_insert. f_equal. unfold zlen. lia.
    - eexists _, _. split; [done|]. split; [f_equal; rewrite (zlen_app _ [c]), zlen_singleton; lia|]. unfold zlen in Hge.
      by rewrite (take_app_le (out ++ l1) [c]) by lia. }
  destruct (IH m1 snp1 (l1 ++ [c]) Hs1) as (m' & snp' & E & Hs').
  { eapply holds_frame; [|exact Ht]. intros k Hk. by rewrite (snp_frame _ _ _ _ Hs1 Hk), (snp_frame _ _ _ _ Hs Hk). }
  exists m', snp'. split; [|done]. revert E1. destruct (bufpos snp <? buflen snp); [|by intros [= -> ->]].
  destruct (char_at m t (zlen l1)) as [x| | |]; try done. rewrite !bind_of_Ok. destruct (store _ _ _); try done. rewrite !bind_of_Ok. by intros [= -> ->].
Qed.

#[local] Instance snprintf_sink : Sink __snprintf_send outside m0 snp_sent.
Proof.
  split; [exact snp_frame|]. intros m snp out t l HJ Ht _. destruct (snp_loop out t l m snp []) as (m' & snp' & E & HJ'); [by rewrite app_nil_r|done|].
  by exists m', snp'.
Qed.

(** What [__vprintf] has done with this client. *)
Lemma snprintf_sends fmt its args : Forall (item_ok outside m0) its → cstr m0 fmt (format_of its) → readable outside fmt (zlen (format_of its) + 1) →
  __vprintf __snprintf_send m0 (mkSNP b n 0) fmt (args_of its ++ args) =
    Ok (s32 (zlen (rendered its)), write m0 b (take (Z.to_nat n) (rendered its)), mkSNP b n (Z.min (zlen (rendered its)) n)).
Proof.
  intros Hi Hf HR. destruct (vprintf_ok (J := snp_sent) (mkSNP b n 0) fmt its args) as (m & d & -> & -> & ->); [|done..].
  split; [f_equal; unfold zlen; cbn; lia|]. by rewrite take_nil, write_nil.
Qed.
End snprintf_sink.

Section console_sink.
Context (m0 : mem) (ev : list kevent).

Definition console_sent m (out : list kevent) (l : list Z) : Prop := m = m0 ∧ out = ev ++ map Putch l.

Lemma console_loop t l2 : ∀ l1 out, holds (λ _, True) m0 t (l1 ++ l2) →
  console_send_loop (seqZ (zlen l1) (zlen l2)) m0 out t = Ok (m0, out ++ map Putch l2).
Proof.
  induction l2 as [|c l2 IH]; intros l1 out Ht; [by rewrite app_nil_r|].
  rewrite zlen_cons, Z.add_1_r, seqZ_cons by (pose proof (zlen_nonneg l2); lia). rewrite Z.pred_succ. cbn [console_send_loop].
  rewrite (char_at_ok _ _ _ _ _ _ Ht), bind_of_Ok. replace (Z.succ (zlen l1)) with (zlen (l1 ++ [c])) by (by rewrite zlen_app).
  rewrite IH by (by rewrite <-app_assoc). cbn [map]. by rewrite <-app_assoc.
Qed.

#[local] Instance console_sink : Sink console_send (λ _, True) m0 console_sent.
Proof.
  split; [by intros m d out k [-> _] _|]. intros m d out t l [-> ->] Ht _. unfold console_send.
  change 0 with (zlen (@nil Z)) at 1. rewrite (console_loop t l [] _ Ht). eexists _, _. split; [done|].
  split; [done|]. by rewrite map_app, app_assoc.
Qed.

Lemma console_sends fmt its args : Forall (item_ok (λ _, True) m0) its → cstr m0 fmt (format_of its) →
  __vprintf console_send m0 ev fmt (args_of its ++ args) = Ok (s32 (zlen (rendered its)), m0, ev ++ map Putch (rendered its)).
Proof.
  intros Hi Hf. destruct (vprintf_ok (J := console_sent) ev fmt its args) as (m & d & -> & -> & ->); [|done|done|done|done].
  split; [done|]. by rewrite app_nil_r.
Qed.
End console_sink.

Section stdout_sink.
Context (m0 : mem) (w0 : list Z).

(** Every call of [write] writes everything. *)
Definition stdout_sent m (o : stdout) (l : list Z) : Prop := m = m0 ∧ written o = w0 ++ l ∧ results o = [] ∧ (l ≠ [] → err o = 0).

#[local] Instance stdout_sink : Sink __printf_send (λ _, True) m0 stdout_sent.
Proof.
  split; [by intros m d out k [-> _] _|]. intros m o out t l (-> & Hw & Hr & He) Ht _. unfold __printf_send.
  assert (load_text m0 t (zlen l) = Ok l) as ->.
  { unfold load_text, zlen. destruct t as [a|l']; cbn [holds] in Ht; rewrite Nat2Z.id; [by apply load_n_ok, Ht|].
    rewrite Ht, (proj2 (Z.leb_le _ _)); [done|]. apply (f_equal length) in Ht. rewrite length_take in Ht. lia. }
  rewrite bind_of_Ok, Hr. eexists _, _. split; [done|]. split_and!; [done|cbn; by rewrite Hw, app_assoc|done|done].
Qed.

Lemma stdout_sends e fmt its args : Forall (item_ok (λ _, True) m0) its → cstr m0 fmt (format_of its) → rendered its ≠ [] →
  ∃ o, __vprintf __printf_send m0 (mkStdout w0 [] e) fmt (args_of its ++ args) = Ok (s32 (zlen (rendered its)), m0, o) ∧
    written o = w0 ++ rendered its ∧ err o = 0.
Proof.
  intros Hi Hf Hne. destruct (vprintf_ok (J := stdout_sent) (mkStdout w0 [] e) fmt its args) as (m & d & -> & -> & Hw & _ & He); [|done|done|done|].
  - split_and!; [done|cbn; by rewrite app_nil_r|done|done].
  - exists d. auto.
Qed.
End stdout_sink.

(** ** The text printed *)

Lemma padded_text w right f p1 p2 body : 0 < f < 256 → text p1 → text p2 → text body → text (padded w right f p1 p2 body).
Proof.
  intros Hf H1 H2 H3. assert (∀ k, text (replicate k f)) by (intros k; by apply Forall_replicate). unfold padded, text in *.
  destruct right; [|case_match]; by rewrite !Forall_app.
Qed.

Lemma render_text R m it : item_ok R m it → text (render it).
Proof.
  assert (text []) as Hnil by constructor. assert (∀ c, 0 < c < 256 → text [c]) as Hone by (intros c Hc; by constructor).
  destruct it as [c|md cv v|md a l|md v|md c]; cbn [item_ok render]; intros Hit; unfold in_field.
  - apply Hone, Hit.
  - apply padded_text; [by case_match|by case_match; auto; apply Hone| |apply number_chars_text; by destruct cv].
    destruct cv; cbn; try case_match; repeat constructor; lia.
  - apply padded_text; [by case_match|done|done|]. destruct (Z.eqb_spec a 0) as [->|Ha]; [repeat constructor; lia|]. apply (proj2 (proj2 Hit) Ha).
  - apply padded_text; [by case_match|done|done|]. pose proof (Z.mod_pos_bound v 256 ltac:(lia)). destruct (Z.eqb_spec (v mod 256) 0); [done|apply Hone; lia].
  - apply padded_text; [by case_match|done|done|]. apply Hone, Hit.
Qed.

Lemma rendered_text R m its : Forall (item_ok R m) its → text (rendered its).
Proof.
  induction 1 as [|it its Hit _ IH]; [constructor|]. unfold rendered, text in *. cbn. apply Forall_app. split; [by eapply render_text|done].
Qed.

Definition snprintf_room (len : Z) : Z := if len =? 0 then 0 else len - 1.

Lemma snprintf_ok m b len fmt its args : 0 ≤ len → mapped m b len → Forall (item_ok (outside b (snprintf_room len)) m) its →
  cstr m fmt (format_of its) → readable (outside b (snprintf_room len)) fmt (zlen (format_of its) + 1) →
  snprintf m b len fmt (args_of its ++ args) =
    Ok (s32 (zlen (rendered its)), if 0 <? len then write m b (take (Z.to_nat (len - 1)) (rendered its) ++ [0]) else m).
Proof.
  intros Hl Hm Hi Hf HR. unfold snprintf, vsnprintf. fold (snprintf_room len).
  assert (0 ≤ snprintf_room len ≤ len) as Hr by (unfold snprintf_room; destruct (Z.eqb_spec len 0); lia).
  rewrite (snprintf_sends m b (snprintf_room len)); [|lia|by eapply mapped_sub; [exact Hm|lia|lia]|done..].
  rewrite bind_of_Ok. cbn [bufpos]. pose proof (zlen_nonneg (rendered its)). unfold snprintf_room in *. destruct (Z.ltb_spec 0 len).
  - rewrite (proj2 (Z.eqb_neq len 0)) in * by lia. rewrite store_ok by (apply (mapped_write _ _ _ _ _ Hm); lia). rewrite bind_of_Ok.
    rewrite write_app, write_insert. do 4 f_equal. unfold zlen. rewrite length_take. lia.
  - assert (len = 0) as -> by lia. by rewrite bind_of_Ok, take_0, write_nil.
Qed.

(** The number of digits. *)
Lemma dec_value_zeros k ds : dec_value 0 (replicate k 0 ++ ds) = dec_value 0 ds.
Proof. induction k; done. Qed.

Lemma map_replicate {A B} (f : A → B) k x : map f (replicate k x) = replicate k (f x).
Proof. apply fmap_replicate. Qed.

Lemma number_chars_dec n : number_chars 10 n = map (Z.add 48) (digits_of 22 10 n).
Proof.
  unfold number_chars. apply map_ext_in. intros d Hd%list_elem_of_In. pose proof (proj1 (Forall_forall _ _) (digits_range 22 10 n ltac:(lia)) d Hd) as Hr.
  cbn in Hr. unfold digit_char. by rewrite (proj2 (Z.ltb_lt d 10)) by lia.
Qed.

(** A decimal field as white space, sign, digits and the rest. *)
Lemma dec_field md v (sp := spec_of md) : (sp_left sp = true → sp_zero sp = false) → sp_size sp ≠ LLONGSZ →
  ∃ ws sg ds l, render (Num md Cd v) = ws ++ sign_chars sg ++ map (Z.add 48) ds ++ l ∧ white ws ∧ Forall is_digit ds ∧ ds ≠ [] ∧ no_digit l ∧
    signed sg (dec_value 0 ds) = s32 v.
Proof.
  intros Hlz Hsz. cbn [render num_value base_prefix conv_base]. fold sp. clearbody sp. replace (long_long sp Cd) with false by (unfold long_long; by destruct (sp_size sp)).
  rewrite number_chars_dec. pose proof (s32_range v) as Hr. set (z := s32 v) in *. set (sg := if z <? 0 then Minus else NoSign).
  replace (if z <? 0 then [45] else []) with (sign_chars sg) by (subst sg; by destruct (z <? 0)). set (ds := digits_of 22 10 (Z.abs z)).
  assert (Forall is_digit ds) as Hds by (apply digits_range; lia). assert (ds ≠ []) as Hne by apply digits_ne.
  assert (signed sg (dec_value 0 ds) = z) as Hv.
  { subst ds sg. rewrite digits_value by (split; [lia|]; apply (Z.lt_le_trans _ two32); [width|by apply Z.leb_le]). destruct (Z.ltb_spec z 0); cbn [signed]; lia. }
  unfold in_field, padded. set (k := Z.to_nat _). destruct (sp_left sp) eqn:El; [rewrite Hlz by done|destruct (sp_zero sp)]; cbn [Z.eqb Pos.eqb].
  - exists [], sg, ds, (replicate k 32). split_and!; try done; [constructor|destruct k; [done|cbn; lia]].
  - exists [], sg, (replicate k 0 ++ ds), []. cbn [app]. rewrite app_nil_r, map_app, map_replicate, dec_value_zeros. split_and!; try done; [constructor| |].
    + apply Forall_app. split; [|done]. by apply Forall_replicate.
    + intros [_ ?]%app_eq_nil. done.
  - exists (replicate k 32), sg, ds, []. rewrite app_nil_r. split_and!; try done. apply Forall_replicate. by left.
Qed.

(** ** The claims *)

(** C28: [snprintf], for a format made of text and complete directives: the conversions
    d u x o p s c, %%, and characters that are no conversion, each with any modifiers in
    any order (a width below 2^31 and one of the sizes l, ll and z).  It terminates
    without an access outside the memory it was given, stores as much of the printed text
    as fits and a null byte, writes nothing else, and returns the length of the whole
    text as an [int]; with a length of 0 nothing is written. *)
Theorem snprintf_formats m b len fmt its args : 0 ≤ len → mapped m b len → Forall (item_ok (outside b (snprintf_room len)) m) its →
  cstr m fmt (format_of its) → readable (outside b (snprintf_room len)) fmt (zlen (format_of its) + 1) →
  ∃ m', snprintf m b len fmt (args_of its ++ args) = Ok (s32 (zlen (rendered its)), m') ∧
    (0 < len → cstr m' b (take (Z.to_nat (len - 1)) (rendered its))) ∧
    (∀ k, ¬ b ≤ k < b + Z.min len (zlen (rendered its) + 1) → m' !! k = m !! k).
Proof.
  intros Hl Hm Hi Hf HR. rewrite (snprintf_ok m b len fmt its args Hl Hm Hi Hf HR). eexists. split; [done|]. destruct (Z.ltb_spec 0 len); split; [|..|lia|done].
  - intros _. split; [|apply bytes_write]. apply Forall_take. by eapply rendered_text.
  - intros k Hk. rewrite lookup_write, decide_False; [done|]. rewrite zlen_app. unfold zlen in *. rewrite length_take. cbn. lia.
Qed.

(** "%-4s|%#x" with the string "ab" and 255, into a buffer of six bytes. *)
Lemma snprintf_formats_witness :
  ∃ m', snprintf (write (write (write ∅ 100 (replicate 6 0)) 200 [37; 45; 52; 115; 124; 37; 35; 120; 0]) 300 [97; 98; 0]) 100 6 200 [AWord 300; AWord 255]
    = Ok (9, m') ∧ cstr m' 100 [97; 98; 32; 32; 124].
Proof.
  pose (m := write (write (write ∅ 100 (replicate 6 0)) 200 [37; 45; 52; 115; 124; 37; 35; 120; 0]) 300 [97; 98; 0]).
  pose (its := [Str [45; 52] 300 [97; 98]; Lit 124; Num [35] Cx 255]).
  destruct (snprintf_formats m 100 6 200 its []) as (m' & H1 & H2 & _).
  - lia.
  - do 2 apply mapped_write. apply (bytes_mapped _ _ (replicate 6 0)), bytes_write.
  - apply Forall_cons; split; [|apply Forall_cons; split; [|apply Forall_cons; split; [|constructor]]]; [|split; lia|by apply mods_okb].
    split; [by apply mods_okb|split; [width|]]. intros _. split; [|done]. split; [split; [repeat constructor; lia|apply bytes_write]|].
    intros i Hi. change (zlen [97; 98]) with 2 in Hi. unfold outside. change (snprintf_room 6) with 5. lia.
  - change (format_of its) with [37; 45; 52; 115; 124; 37; 35; 120]. split; [repeat constructor; lia|].
    apply bytes_write_ne; [apply bytes_write|unfold zlen; cbn [length app]; lia].
  - intros i Hi. unfold outside. change (snprintf_room 6) with 5. lia.
  - exists m'. split; [exact H1|]. exact (H2 ltac:(lia)).
Defined.

(** C29: [atoi] reads back what [snprintf] prints with a decimal conversion, for every
    [int] and every width and flags, except left-aligned fields padded with zeros. *)
Theorem atoi_snprintf m b len fmt digits md v : 0 < digits → cstr m digits digit_chars →
  digits + 11 ≤ b ∨ b + len ≤ digits → mods_ok md →
  (sp_left (spec_of md) = true → sp_zero (spec_of md) = false) → sp_size (spec_of md) ≠ LLONGSZ →
  cstr m fmt (format_of [Num md Cd v]) → fmt + zlen (format_of [Num md Cd v]) + 1 ≤ b ∨ b + len ≤ fmt →
  mapped m b len → zlen (render (Num md Cd v)) < len →
  ∃ n m', snprintf m b len fmt [AWord v] = Ok (n, m') ∧ atoi m' digits b = Ok (s32 v).
Proof.
  intros Hd0 Hd Hdb Hsp Hlz Hsz Hf Hfb Hm Hlen. pose proof (zlen_nonneg (render (Num md Cd v))) as Hz.
  assert (rendered [Num md Cd v] = render (Num md Cd v)) as Er by apply app_nil_r.
  assert (args_of [Num md Cd v] ++ [] = [AWord v]) as Ea.
  { unfold args_of. cbn. replace (long_long (spec_of md) Cd) with false by (unfold long_long; by destruct (sp_size (spec_of md))). done. }
  pose proof (snprintf_ok m b len fmt [Num md Cd v] []) as E. rewrite Ea, Er, (proj2 (Z.ltb_lt 0 len)) in E by lia.
  rewrite E; [|lia|done|by constructor|done|intros i Hi; unfold outside, snprintf_room; case_match; lia].
  rewrite take_ge by (unfold zlen in *; lia). eexists _, _. split; [done|].
  destruct (dec_field md v Hlz Hsz) as (ws & sg & ds & l & Et & Hw & Hds & Hne & Hl & Hv).
  rewrite (atoi_ok _ digits b ws sg ds l); try done.
  - rewrite Hv. f_equal. pose proof (s32_range v) as Hr. revert Hr. generalize (s32 v). intros z Hr. unfold u32, s32. Z.to_euclidean_division_equations. width.
  - apply cstr_write; [done|]. rewrite zlen_app. change (zlen [0]) with 1. change (zlen digit_chars) with 10. lia.
  - rewrite <-Et. split; [|apply bytes_write]. by apply (render_text (λ _, True) ∅).
Qed.

(** -2147483648 with "%12d". *)
Lemma atoi_snprintf_witness :
  ∃ n m', snprintf (write (write (write ∅ 100 (replicate 16 0)) 200 [37; 49; 50; 100; 0]) 300 (digit_chars ++ [0])) 100 16 200 [AWord (-2147483648)] = Ok (n, m') ∧
    atoi m' 300 100 = Ok (-2147483648).
Proof.
  apply (atoi_snprintf _ 100 16 200 300 [49; 50] (-2147483648)); try done.
  - split; [repeat constructor; lia|apply bytes_write].
  - lia.
  - by apply mods_okb.
  - change (format_of _) with [37; 49; 50; 100]. split; [repeat constructor; lia|].
    apply bytes_write_ne; [apply bytes_write|unfold zlen; rewrite length_app; cbn [length app digit_chars]; lia].
  - change (format_of _) with [37; 49; 50; 100]. unfold zlen. cbn [length]. lia.
  - do 2 apply mapped_write. apply (bytes_mapped _ _ (replicate 16 0)), bytes_write.
Defined.

(** The digits of a number of 64 bits fit into the array of [__pf_printnum] in each
    of the three bases, and the array then holds the number and its null byte.  There is
    no room to spare: the greatest number in octal takes the first element. *)
Theorem number_buffer_tight :
  (∀ base n, base ∈ [8; 10; 16] → is_u64 n →
     ∃ x buf, printnum_loop (NUMBER_BUF_SIZE - 2) (replicate NUMBER_BUF_SIZE 0) n base = Ok (x, buf) ∧
       drop x buf = number_chars base n ++ [0]) ∧
  (∃ buf, printnum_loop (NUMBER_BUF_SIZE - 2) (replicate NUMBER_BUF_SIZE 0) (two64 - 1) 8 = Ok (O, buf)).
Proof. split; [apply printnum_fits|]. eexists. vm_compute. reflexivity. Qed.

(** [kprintf] puts the text of the format on the console, character by character and
    nothing else, between taking a lock and releasing the same lock: the sleep lock if it
    exists and the thread may sleep, the spinlock otherwise. *)
Theorem kprintf_console k m ev fmt its args : Forall (item_ok (λ _, True) m) its → cstr m fmt (format_of its) →
  ∃ acq rel, kprintf k m ev fmt (args_of its ++ args) = Ok (s32 (zlen (rendered its)), m, ev ++ [acq] ++ map Putch (rendered its) ++ [rel]) ∧
    ((acq, rel) = (LockAcquire, LockRelease) ↔ kprintf_lock k = true ∧ t_in_interrupt k = false ∧ t_curspl k = 0 ∧ c_spinlocks k = 0) ∧
    ((acq, rel) = (LockAcquire, LockRelease) ∨ (acq, rel) = (SpinAcquire, SpinRelease)).
Proof.
  intros Hi Hf. unfold kprintf. set (dolock := kprintf_lock k && _ && _ && _).
  rewrite (console_sends m (ev ++ [if dolock then LockAcquire else SpinAcquire]) fmt its args Hi Hf), bind_of_Ok.
  exists (if dolock then LockAcquire else SpinAcquire), (if dolock then LockRelease else SpinRelease). split; [by rewrite <-!app_assoc|].
  assert (dolock = true ↔ kprintf_lock k = true ∧ t_in_interrupt k = false ∧ t_curspl k = 0 ∧ c_spinlocks k = 0) as <-.
  { subst dolock. rewrite !andb_true_iff, negb_true_iff, !Z.eqb_eq. tauto. }
  destruct dolock; split; try (by auto); by split.
Qed.

(** "%%%c" with the character x, in an interrupt. *)
Lemma kprintf_console_witness :
  kprintf (mkKcontext true true 0 0) (write ∅ 200 [37; 37; 37; 99; 0]) [] 200 [AWord 120] =
    Ok (2, write ∅ 200 [37; 37; 37; 99; 0], [SpinAcquire; Putch 37; Putch 120; SpinRelease]).
Proof.
  destruct (kprintf_console (mkKcontext true true 0 0) (write ∅ 200 [37; 37; 37; 99; 0]) [] 200 [Other [] 37; Chr [] 120] []) as (acq & rel & E & Hl & Hs).
  - apply Forall_cons; split; [|apply Forall_cons; split; [by apply mods_okb|constructor]]. split; [by apply mods_okb|].
    split_and!; try done; [apply (bool_decide_eq_false_1 (37 ∈ modifiers))|apply (bool_decide_eq_false_1 (37 ∈ integer_types))]; done.
  - split; [repeat constructor; lia|apply bytes_write].
  - destruct Hs as [Hs|Hs]; [apply Hl in Hs as (_ & ? & _); done|]. injection Hs as -> ->. exact E.
Defined.

(** ** printf of the C library *)

Lemma vprintf_writes m w0 e fmt its args : Forall (item_ok (λ _, True) m) its → cstr m fmt (format_of its) → rendered its ≠ [] →
  ∃ o, vprintf m (mkStdout w0 [] e) fmt (args_of its ++ args) = Ok (s32 (zlen (rendered its)), None, m, o) ∧ written o = w0 ++ rendered its.
Proof.
  intros Hi Hf Hne. destruct (stdout_sends m w0 e fmt its args Hi Hf Hne) as (o & E & Hw & He). exists o. unfold vprintf. by rewrite E, bind_of_Ok, He.
Qed.

(** The error of a call is forgotten when a later call succeeds. *)
Example vprintf_forgets_error :
  vprintf (write ∅ 200 [97; 98; 0]) (mkStdout [] [WriteError EIO] 0) 200 [] =
    Ok (2, None, write ∅ 200 [97; 98; 0], mkStdout [98] [] 0).
Proof. vm_compute. reflexivity. Qed.

(** An empty format makes no call: the result depends on a variable never assigned. *)
Example vprintf_empty_format e : e ≠ 0 →
  vprintf (write ∅ 200 [0]) (mkStdout [] [] e) 200 [] = Ok (-1, Some e, write ∅ 200 [0], mkStdout [] [] e).
Proof.
  intros He. unfold vprintf. replace (__vprintf _ _ _ _ _) with (Ok (0, write ∅ 200 [0], mkStdout [] [] e)) by (vm_compute; reflexivity).
  rewrite bind_of_Ok. cbn [err]. by rewrite (proj2 (Z.eqb_neq e 0)).
Qed.

(** With both flags the zeros are on the right: 12 becomes 12000. *)
Example left_zero_field : render (Num [45; 48; 53] Cd 12) = [49; 50; 48; 48; 48].
Proof. vm_compute. reflexivity. Qed.

(** [%X] consumes no argument and prints an X. *)
Example percent_X :
  vprintf (write ∅ 200 [37; 88; 0]) (mkStdout [] [] 0) 200 [AWord 255] = Ok (1, None, write ∅ 200 [37; 88; 0], mkStdout [88] [] 0).
Proof. vm_compute. reflexivity. Qed.
