(* ===== verification/Millicode.v ===== *)
(** * 64-bit arithmetic on a 32-bit machine

    The functions of common/gcc-millicode, which the compiler calls for operations
    on [long long]: addition, subtraction, negation, comparison, bit operations,
    shifts, multiplication and, in qdivrem.c, Knuth's division in base 2^16.

    A [long long] is an integer; the [union uu] of longlong.h is the pair of its
    words, read by [ui_H] and [ui_L] and put together by [ll] and [ull].  Arithmetic
    on [unsigned int] is reduced by [u32] at every operation that can overflow.  A
    shift by the width of the type or more, and a division by zero, are a [Fault].

    The theorems: every function computes the operation it stands for, modulo 2^64. *)

From stdpp Require Import base list.
From Stdlib Require Import ZArith Lia.
From S2P Require Import Prelude.
Open Scope Z_scope.

(** ** longlong.h *)

Definition INT_BITS : Z := 32.
Definition HALF_BITS : Z := 16.

Definition ui_H (x : Z) : Z := u32 (Z.shiftr x INT_BITS).
Definition ui_L (x : Z) : Z := u32 x.
Definition si_H (x : Z) : Z := s32 (Z.shiftr x INT_BITS).
Definition ull (h l : Z) : Z := h * two32 + l.
Definition ll (h l : Z) : Z := s64 (ull h l).

Definition HHALF (x : Z) : Z := Z.shiftr x HALF_BITS.
Definition LHALF (x : Z) : Z := Z.land x 65535.
Definition LHUP (x : Z) : Z := u32 (Z.shiftl x HALF_BITS).


(** [x << n] and [x >> n] for [unsigned int] and [int]. *)
Definition shl32 (x n : Z) : outcome Z := if (0 <=? n) && (n <? INT_BITS) then Ok (u32 (Z.shiftl x n)) else Fault.
Definition shr32 (x n : Z) : outcome Z := if (0 <=? n) && (n <? INT_BITS) then Ok (Z.shiftr x n) else Fault.

(** ** Addition, subtraction, comparison, bit operations *)

Definition __adddi3 (a b : Z) : Z :=
  let sumL := u32 (ui_L a + ui_L b) in
  let sumH := u32 (ui_H a + ui_H b + b2z (sumL <? ui_L b)) in
  ll sumH sumL.

Definition __subdi3 (a b : Z) : Z :=
  let diffL := u32 (ui_L a - ui_L b) in
  let diffH := u32 (ui_H a - ui_H b - b2z (ui_L a <? diffL)) in
  ll diffH diffL.

Definition __negdi2 (a : Z) : Z :=
  let resL := u32 (- ui_L a) in
  let resH := u32 (- ui_H a - b2z (0 <? resL)) in
  ll resH resL.

Definition __cmpdi2 (a b : Z) : Z :=
  if si_H a <? si_H b then 0 else if si_H b <? si_H a then 2
  else if ui_L a <? ui_L b then 0 else if ui_L b <? ui_L a then 2 else 1.

Definition __ucmpdi2 (a b : Z) : Z :=
  if ui_H a <? ui_H b then 0 else if ui_H b <? ui_H a then 2
  else if ui_L a <? ui_L b then 0 else if ui_L b <? ui_L a then 2 else 1.

Definition __anddi3 (a b : Z) : Z := ll (Z.land (ui_H a) (ui_H b)) (Z.land (ui_L a) (ui_L b)).
Definition __iordi3 (a b : Z) : Z := ll (Z.lor (ui_H a) (ui_H b)) (Z.lor (ui_L a) (ui_L b)).
Definition __xordi3 (a b : Z) : Z := ll (Z.lxor (ui_H a) (ui_H b)) (Z.lxor (ui_L a) (ui_L b)).
Definition __one_cmpldi2 (a : Z) : Z := ll (u32 (Z.lnot (ui_H a))) (u32 (Z.lnot (ui_L a))).

(** ** Shifts *)

Definition __ashldi3 (a shift : Z) : outcome Z :=
  if shift =? 0 then Ok a
  else if INT_BITS <=? shift then
    h ← shl32 (ui_L a) (shift - INT_BITS);
    Ok (ll h 0)
  else
    h ← shl32 (ui_H a) shift;
    c ← shr32 (ui_L a) (INT_BITS - shift);
    l ← shl32 (ui_L a) shift;
    Ok (ll (Z.lor h c) l).

Definition __lshldi3 (a shift : Z) : outcome Z :=
  if shift =? 0 then Ok a
  else if INT_BITS <=? shift then
    h ← shl32 (ui_L a) (shift - INT_BITS);
    Ok (ll h 0)
  else
    h ← shl32 (ui_H a) shift;
    c ← shr32 (ui_L a) (INT_BITS - shift);
    l ← shl32 (ui_L a) shift;
    Ok (ll (Z.lor h c) l).

Definition __lshrdi3 (a shift : Z) : outcome Z :=
  if shift =? 0 then Ok a
  else if INT_BITS <=? shift then
    l ← shr32 (ui_H a) (shift - INT_BITS);
    Ok (ll 0 l)
  else
    l ← shr32 (ui_L a) shift;
    c ← shl32 (ui_H a) (INT_BITS - shift);
    h ← shr32 (ui_H a) shift;
    Ok (ll h (Z.lor l c)).

Definition __ashrdi3 (a shift : Z) : outcome Z :=
  if shift =? 0 then Ok a
  else if INT_BITS <=? shift then
    s ← shr32 (si_H a) (INT_BITS - 1);
    s ← shr32 s 1;
    l ← shr32 (si_H a) (shift - INT_BITS);
    Ok (ll (u32 s) (u32 l))
  else
    l ← shr32 (ui_L a) shift;
    c ← shl32 (ui_H a) (INT_BITS - shift);
    h ← shr32 (si_H a) shift;
    Ok (ll (u32 h) (Z.lor l c)).

(** ** Multiplication *)

(** [|x - y|] and whether [x < y]. *)
Definition diff (x y : Z) : Z * bool := if y <=? x then (x - y, false) else (y - x, true).

Definition __lmulq (u v : Z) : Z :=
  let u1 := HHALF u in let u0 := LHALF u in
  let v1 := HHALF v in let v0 := LHALF v in
  let low := u32 (u0 * v0) in
  if (u1 =? 0) && (v1 =? 0) then low
  else
    let '(udiff, nu) := diff u1 u0 in
    let '(vdiff, nv) := diff v0 v1 in
    let mid := u32 (udiff * vdiff) in
    let high := u32 (u1 * v1) in
    let prodh := u32 (high + HHALF high) in
    let prodl := LHUP high in
    let '(prodh, prodl) :=
      if xorb nu nv then
        let l := u32 (prodl - LHUP mid) in (u32 (prodh - (HHALF mid + b2z (prodl <? l))), l)
      else
        let l := u32 (prodl + LHUP mid) in (u32 (prodh + (HHALF mid + b2z (l <? prodl))), l) in
    let was := prodl in
    let prodl := u32 (prodl + LHUP low) in
    let prodh := u32 (prodh + (HHALF low + b2z (prodl <? was))) in
    let prodl := u32 (prodl + low) in
    let prodh := if prodl <? low then u32 (prodh + 1) else prodh in
    ll prodh prodl.

Definition __muldi3 (a b : Z) : Z :=
  let '(u, na) := if 0 <=? a then (a, false) else (s64 (- a), true) in
  let '(v, nb) := if 0 <=? b then (b, false) else (s64 (- b), true) in
  let negall := xorb na nb in
  let prod :=
    if (ui_H u =? 0) && (ui_H v =? 0) then __lmulq (ui_L u) (ui_L v)
    else
      let low := __lmulq (ui_L u) (ui_L v) in
      let '(udiff, nu) := diff (ui_H u) (ui_L u) in
      let '(vdiff, nv) := diff (ui_L v) (ui_H v) in
      let mid := u32 (udiff * vdiff) in
      let high := u32 (ui_H u * ui_H v) in
      ll (u32 (high + (if xorb nu nv then u32 (- mid) else mid) + ui_L low + ui_H low)) (ui_L low) in
  if negall then s64 (- prod) else prod.

(** ** qdivrem.c *)

Definition B : Z := Z.shiftl 1 HALF_BITS.

Definition COMBINE (a b : Z) : Z := Z.lor (u32 (Z.shiftl a HALF_BITS)) b.

(** Shift [p[a]..p[a + len]] left. *)
Fixpoint shl_loop (len : nat) (p : list Z) (a sh : Z) : outcome (list Z) :=
  match len with
  | O =>
      x ← deref (zget p a);
      zput p a (LHALF (u32 (Z.shiftl x sh)))
  | S len =>
      x ← deref (zget p a);
      y ← deref (zget p (a + 1));
      p ← zput p a (Z.lor (LHALF (u32 (Z.shiftl x sh))) (Z.shiftr y (HALF_BITS - sh)));
      shl_loop len p (a + 1) sh
  end.

Definition shl (p : list Z) (a len sh : Z) : outcome (list Z) := shl_loop (Z.to_nat len) p a sh.

(** The pointers [u], [v] and [q] into the arrays are offsets [uo], [vo], [qo].
    The loop over the leading zeros of [v]: [inl] when only one digit is left. *)
Fixpoint lead_v (n : nat) (v : list Z) (vo : Z) : outcome (Z + Z * Z) :=
  match n with
  | O => Hang
  | S n' =>
      x ← deref (zget v (vo + 1));
      if x =? 0 then if (n' =? 1)%nat then Ok (inl vo) else lead_v n' v (vo + 1)
      else Ok (inr (Z.of_nat n, vo))
  end.

(** The division by a single digit. *)
Definition div_one (u : list Z) (t : Z) : outcome (Z * Z) :=
  x1 ← deref (zget u 1); x2 ← deref (zget u 2); x3 ← deref (zget u 3); x4 ← deref (zget u 4);
  let q1 := x1 / t in
  let rbj := COMBINE (x1 mod t) x2 in
  let q2 := rbj / t in
  let rbj := COMBINE (rbj mod t) x3 in
  let q3 := rbj / t in
  let rbj := COMBINE (rbj mod t) x4 in
  let q4 := rbj / t in
  Ok (ull (COMBINE q1 q2) (COMBINE q3 q4), rbj mod t).

Fixpoint lead_u (fuel : nat) (u : list Z) (m uo : Z) : outcome (Z * Z) :=
  match fuel with
  | O => Hang
  | S fuel =>
      x ← deref (zget u (uo + 1));
      if x =? 0 then lead_u fuel u (m - 1) (uo + 1) else Ok (m, uo)
  end.

Fixpoint zero_q (i : nat) (q : list Z) : outcome (list Z) :=
  match i with
  | O => Ok q
  | S i => q ← zput q (Z.of_nat i) 0; zero_q i q
  end.

(** D1 *)
Fixpoint normalize (fuel : nat) (t d : Z) : outcome Z :=
  match fuel with
  | O => Hang
  | S fuel => if t <? B / 2 then normalize fuel (u32 (Z.shiftl t 1)) (d + 1) else Ok d
  end.

Section step.
Context (v : list Z) (vo n v1 v2 : Z).

(** D3, from the label on. *)
Fixpoint qhat_too_big (fuel : nat) (uj2 qhat rhat : Z) : outcome Z :=
  match fuel with
  | O => Hang
  | S fuel =>
      let qhat := u32 (qhat - 1) in
      let rhat := u32 (rhat + v1) in
      if B <=? rhat then Ok qhat
      else if COMBINE rhat uj2 <? u32 (v2 * qhat) then qhat_too_big fuel uj2 qhat rhat
      else Ok qhat
  end.

Definition guess (uj0 uj1 uj2 : Z) : outcome Z :=
  if uj0 =? v1 then qhat_too_big 2 uj2 B uj1
  else
    let nn := COMBINE uj0 uj1 in
    let qhat := nn / v1 in
    let rhat := nn mod v1 in
    if COMBINE rhat uj2 <? u32 (v2 * qhat) then qhat_too_big 2 uj2 qhat rhat else Ok qhat.

(** D4: [u[i + j] -= v[i] * qhat], with the borrow [t]; [a] is the offset of [u[j]]. *)
Fixpoint mul_sub (i : nat) (a qhat t : Z) (u : list Z) : outcome (Z * list Z) :=
  match i with
  | O => Ok (t, u)
  | S i' =>
      x ← deref (zget u (a + Z.of_nat i));
      y ← deref (zget v (vo + Z.of_nat i));
      let t := u32 (x - u32 (y * qhat) - t) in
      u ← zput u (a + Z.of_nat i) (LHALF t);
      mul_sub i' a qhat (Z.land (u32 (B - HHALF t)) (B - 1)) u
  end.

(** D6 *)
Fixpoint add_back (i : nat) (a t : Z) (u : list Z) : outcome (Z * list Z) :=
  match i with
  | O => Ok (t, u)
  | S i' =>
      x ← deref (zget u (a + Z.of_nat i));
      y ← deref (zget v (vo + Z.of_nat i));
      let t := u32 (t + (x + y)) in
      u ← zput u (a + Z.of_nat i) (LHALF t);
      add_back i' a (HHALF t) u
  end.

(** One digit of the quotient. *)
Definition div_step (a : Z) (u : list Z) : outcome (Z * list Z) :=
  uj0 ← deref (zget u a); uj1 ← deref (zget u (a + 1)); uj2 ← deref (zget u (a + 2));
  qhat ← guess uj0 uj1 uj2;
  '(t, u) ← mul_sub (Z.to_nat n) a qhat 0 u;
  x ← deref (zget u a);
  let t := u32 (x - t) in
  u ← zput u a (LHALF t);
  if HHALF t =? 0 then Ok (qhat, u)
  else
    '(t, u) ← add_back (Z.to_nat n) a 0 u;
    x ← deref (zget u a);
    u ← zput u a (LHALF (u32 (x + t)));
    Ok (u32 (qhat - 1), u).

(** D7: [k] more digits, the next one at [u[j]] and [q[j]]. *)
Fixpoint div_loop (k : nat) (uo qo j : Z) (u q : list Z) : outcome (list Z * list Z) :=
  match k with
  | O => Ok (u, q)
  | S k =>
      '(qhat, u) ← div_step (uo + j) u;
      q ← zput q (qo + j) (LHALF qhat);
      div_loop k uo qo (j + 1) u q
  end.

End step.

(** The remainder shifted back: [k] digits, down from [u[i]]. *)
Fixpoint unshift (k : nat) (i d : Z) (u : list Z) : outcome (list Z) :=
  match k with
  | O => zput u i 0
  | S k =>
      x ← deref (zget u i); y ← deref (zget u (i - 1));
      u ← zput u i (Z.lor (Z.shiftr x d) (LHALF (u32 (Z.shiftl y (HALF_BITS - d)))));
      unshift k (i - 1) d u
  end.

Definition four (a : list Z) : outcome Z :=
  x1 ← deref (zget a 1); x2 ← deref (zget a 2); x3 ← deref (zget a 3); x4 ← deref (zget a 4);
  Ok (ull (COMBINE x1 x2) (COMBINE x3 x4)).

Definition split (x0 x : Z) : list Z :=
  [x0; HHALF (ui_H x); LHALF (ui_H x); HHALF (ui_L x); LHALF (ui_L x)].

(** [vspace0] and [qspace] are what the stack holds where the function does not
    initialise it.  The result is the quotient and, if wanted, the remainder. *)
Definition __qdivrem (vspace0 : Z) (qspace : list Z) (x y : Z) (arq : bool) : outcome (Z * option Z) :=
  let result q r := (q, if arq then Some r else None) in
  if y =? 0 then Fault
  else if x <? y then Ok (result 0 x)
  else
    let u := split 0 x in
    let v := split vspace0 y in
    w ← lead_v 4 v 0;
    match w with
    | inl vo =>
        t ← deref (zget v (vo + 2));
        '(q, r) ← div_one u t;
        Ok (result q r)
    | inr (n, vo) =>
        '(m, uo) ← lead_u 4 u (4 - n) 0;
        q ← zero_q (Z.to_nat (4 - m)) qspace;
        let qo := 4 - m in
        t ← deref (zget v (vo + 1));
        d ← normalize 17 t 0;
        '(u, v) ← (if 0 <? d then
          u ← shl u uo (m + n) d;
          v ← shl v (vo + 1) (n - 1) d;
          Ok (u, v)
        else Ok (u, v));
        v1 ← deref (zget v (vo + 1));
        v2 ← deref (zget v (vo + 2));
        '(u, q) ← div_loop v vo n v1 v2 (Z.to_nat (m + 1)) uo qo 0 u q;
        r ← (if arq then
          u ← (if negb (d =? 0) then unshift (Z.to_nat n) (uo + (m + n)) d u else Ok u);
          four u
        else Ok 0);
        q ← four q;
        Ok (result q r)
    end.

Definition __udivdi3 (vspace0 : Z) (qspace : list Z) (a b : Z) : outcome Z :=
  '(q, _) ← __qdivrem vspace0 qspace a b false; Ok q.

Definition __umoddi3 (vspace0 : Z) (qspace : list Z) (a b : Z) : outcome Z :=
  '(_, r) ← __qdivrem vspace0 qspace a b true; deref r.

Definition __divdi3 (vspace0 : Z) (qspace : list Z) (a b : Z) : outcome Z :=
  let '(ua, na) := if a <? 0 then (u64 (- u64 a), true) else (u64 a, false) in
  let '(ub, nb) := if b <? 0 then (u64 (- u64 b), true) else (u64 b, false) in
  '(uq, _) ← __qdivrem vspace0 qspace ua ub false;
  Ok (s64 (if xorb na nb then u64 (- uq) else uq)).

Definition __moddi3 (vspace0 : Z) (qspace : list Z) (a b : Z) : outcome Z :=
  let '(ua, neg) := if a <? 0 then (u64 (- u64 a), true) else (u64 a, false) in
  let ub := if b <? 0 then u64 (- u64 b) else u64 b in
  '(_, r) ← __qdivrem vspace0 qspace ua ub true;
  ur ← deref r;
  Ok (s64 (if neg then u64 (- ur) else ur)).

(** ** Words *)

Lemma u32_word z : ∃ k, u32 z = z - two32 * k ∧ 0 ≤ u32 z < two32.
Proof.
  exists (z / two32). unfold u32. pose proof (Z.div_mod z two32 ltac:(done)).
  pose proof (Z.mod_pos_bound z two32 ltac:(done)). lia.
Qed.

Lemma u64_word z : ∃ k, u64 z = z - two64 * k ∧ 0 ≤ u64 z < two64.
Proof.
  exists (z / two64). unfold u64. pose proof (Z.div_mod z two64 ltac:(done)).
  pose proof (Z.mod_pos_bound z two64 ltac:(done)). lia.
Qed.

Lemma s64_word z : ∃ k, s64 z = z - two64 * k ∧ - two63 ≤ s64 z < two63.
Proof.
  exists ((z + two63) / two64). unfold s64. pose proof (Z.div_mod (z + two63) two64 ltac:(done)).
  pose proof (Z.mod_pos_bound (z + two63) two64 ltac:(done)). width.
Qed.

(** Two integers that differ by a multiple of 2^64 are the same [long long]. *)
Lemma s64_eq k x y : x = y + k * two64 → s64 x = s64 y.
Proof.
  intros ->. unfold s64. replace (y + k * two64 + two63) with (y + two63 + k * two64) by lia.
  by rewrite Z.mod_add by done.
Qed.

Lemma u64_eq k x y : x = y + k * two64 → u64 x = u64 y.
Proof. intros ->. unfold u64. by rewrite Z.mod_add by done. Qed.

Lemma u32_eq k x y : x = y + k * two32 → u32 x = u32 y.
Proof. intros ->. unfold u32. by rewrite Z.mod_add by done. Qed.

(** The two words of an integer. *)
Lemma words a : ∃ k, a = ull (ui_H a) (ui_L a) + k * two64 ∧ 0 ≤ ui_H a < two32 ∧ 0 ≤ ui_L a < two32.
Proof.
  unfold ui_H, ui_L, ull, INT_BITS. rewrite Z.shiftr_div_pow2 by done. change (2 ^ 32) with two32.
  destruct (u32_word (a / two32)) as (k & E & R). destruct (u32_word a) as (k' & E' & R').
  assert (u32 a = a mod two32) as Hm by done. pose proof (Z.div_mod a two32 ltac:(done)).
  exists k. split; [|done]. rewrite E. unfold two32, two64 in *. lia.
Qed.

Lemma ll_eq h l : s64 (ll h l) = ll h l.
Proof. unfold ll. destruct (s64_word (ull h l)) as (k & E & R). by apply s64_id. Qed.

Lemma lor_add x y k : 0 ≤ k → 0 ≤ y < 2 ^ k → Z.lor (x * 2 ^ k) y = x * 2 ^ k + y.
Proof.
  intros Hk Hy. rewrite Z.add_nocarry_lxor; [symmetry; apply Z.lxor_lor|]; apply Z.bits_inj'; intros n Hn;
    rewrite Z.land_spec, Z.bits_0; (destruct (decide (n < k)); [by rewrite Z.mul_pow2_bits_low by lia|]);
    rewrite <-(Z.mod_small y (2 ^ k)) by lia; rewrite Z.mod_pow2_bits_high by lia; apply andb_false_r.
Qed.

Lemma HHALF_div x : HHALF x = x / B.
Proof. unfold HHALF, HALF_BITS. by rewrite Z.shiftr_div_pow2 by done. Qed.

Lemma LHALF_mod x : LHALF x = x mod B.
Proof. unfold LHALF. change 65535 with (Z.ones 16). by rewrite Z.land_ones by done. Qed.

Lemma halves x : x = HHALF x * B + LHALF x ∧ 0 ≤ LHALF x < B.
Proof.
  rewrite HHALF_div, LHALF_mod. pose proof (Z.div_mod x B ltac:(done)). pose proof (Z.mod_pos_bound x B ltac:(done)). lia.
Qed.

Lemma HHALF_range x : 0 ≤ x < two32 → 0 ≤ HHALF x < B.
Proof. intros Hx. rewrite HHALF_div. change B with 65536 in *. unfold two32 in *. Z.to_euclidean_division_equations. lia. Qed.

Lemma COMBINE_add a b : 0 ≤ a < B → 0 ≤ b < B → COMBINE a b = a * B + b.
Proof.
  intros Ha Hb. unfold COMBINE, HALF_BITS. rewrite Z.shiftl_mul_pow2 by done. change (2 ^ 16) with B.
  change B with 65536 in *. rewrite u32_id by width. by apply (lor_add a b 16).
Qed.

(** ** Addition, subtraction, comparison, bit operations *)

Lemma b2z_lt x y : x < y ∧ b2z (x <? y) = 1 ∨ y ≤ x ∧ b2z (x <? y) = 0.
Proof. destruct (Z.ltb_spec x y); auto. Qed.

(** Finishes a goal about words, once every conversion is an equation. *)
Ltac carry := unfold ull, two32, two64 in *; lia.

Lemma adddi3_spec a b : __adddi3 a b = s64 (a + b).
Proof.
  unfold __adddi3, ll. destruct (words a) as (ka & Ea & Ha & Hal), (words b) as (kb & Eb & Hb & Hbl).
  destruct (u32_word (ui_L a + ui_L b)) as (k1 & E1 & R1).
  destruct (u32_word (ui_H a + ui_H b + b2z (u32 (ui_L a + ui_L b) <? ui_L b))) as (k2 & E2 & R2).
  apply (s64_eq (- (ka + kb + k2))). destruct (b2z_lt (u32 (ui_L a + ui_L b)) (ui_L b)) as [[? Ec]|[? Ec]]; carry.
Qed.

Lemma subdi3_spec a b : __subdi3 a b = s64 (a - b).
Proof.
  unfold __subdi3, ll. destruct (words a) as (ka & Ea & Ha & Hal), (words b) as (kb & Eb & Hb & Hbl).
  destruct (u32_word (ui_L a - ui_L b)) as (k1 & E1 & R1).
  destruct (u32_word (ui_H a - ui_H b - b2z (ui_L a <? u32 (ui_L a - ui_L b)))) as (k2 & E2 & R2).
  apply (s64_eq (- (ka - kb + k2))). destruct (b2z_lt (ui_L a) (u32 (ui_L a - ui_L b))) as [[? Ec]|[? Ec]]; carry.
Qed.

Lemma negdi2_spec a : __negdi2 a = s64 (- a).
Proof.
  unfold __negdi2, ll. destruct (words a) as (ka & Ea & Ha & Hal).
  destruct (u32_word (- ui_L a)) as (k1 & E1 & R1).
  destruct (u32_word (- ui_H a - b2z (0 <? u32 (- ui_L a)))) as (k2 & E2 & R2).
  apply (s64_eq (ka - k2)). destruct (b2z_lt 0 (u32 (- ui_L a))) as [[? Ec]|[? Ec]]; carry.
Qed.

(** 0, 1 or 2 for less, equal or greater. *)
Definition cmp (a b : Z) : Z := if a <? b then 0 else if b <? a then 2 else 1.

Lemma signed_words a : is_s64 a → a = si_H a * two32 + ui_L a ∧ 0 ≤ ui_L a < two32.
Proof.
  intros Ha. unfold si_H, ui_L, INT_BITS. rewrite Z.shiftr_div_pow2 by done. change (2 ^ 32) with two32.
  pose proof (Z.div_mod a two32 ltac:(done)). pose proof (Z.mod_pos_bound a two32 ltac:(done)).
  rewrite s32_id; unfold u32; width.
Qed.

Lemma cmpdi2_spec a b : is_s64 a → is_s64 b → __cmpdi2 a b = cmp a b.
Proof.
  intros Ha%signed_words Hb%signed_words. unfold __cmpdi2, cmp. destruct Ha as [Ea Ha], Hb as [Eb Hb].
  repeat match goal with |- context[?x <? ?y] => destruct (Z.ltb_spec x y) end; unfold two32 in *; lia.
Qed.

Lemma unsigned_words a : is_u64 a → a = ull (ui_H a) (ui_L a) ∧ 0 ≤ ui_H a < two32 ∧ 0 ≤ ui_L a < two32.
Proof.
  intros Ha. destruct (words a) as (k & E & H1 & H2). split; [|done]. assert (k = 0); [|lia].
  unfold ull in E. width.
Qed.

Lemma ucmpdi2_spec a b : is_u64 a → is_u64 b → __ucmpdi2 a b = cmp a b.
Proof.
  intros Ha%unsigned_words Hb%unsigned_words. unfold __ucmpdi2, cmp, ull in *.
  destruct Ha as (Ea & Ha & Hal), Hb as (Eb & Hb & Hbl).
  repeat match goal with |- context[?x <? ?y] => destruct (Z.ltb_spec x y) end; unfold two32 in *; lia.
Qed.

(** Bits. *)
Lemma u32_bits x n : Z.testbit (u32 x) n = (n <? 32) && Z.testbit x n.
Proof.
  destruct (decide (0 ≤ n)) as [Hn|]; [|by rewrite !Z.testbit_neg_r, andb_false_r by lia]. unfold u32. change two32 with (2 ^ 32). destruct (Z.ltb_spec n 32); cbn.
  - by apply Z.mod_pow2_bits_low.
  - by apply Z.mod_pow2_bits_high.
Qed.

Lemma ull_bits h l n : 0 ≤ n → 0 ≤ l < two32 → Z.testbit (ull h l) n = if n <? 32 then Z.testbit l n else Z.testbit h (n - 32).
Proof.
  intros Hn Hl. unfold ull. change two32 with (2 ^ 32) in *. rewrite <-lor_add, Z.lor_spec by lia.
  destruct (Z.ltb_spec n 32).
  - by rewrite Z.mul_pow2_bits_low by lia.
  - rewrite Z.mul_pow2_bits by lia. rewrite (Z.bits_above_log2 l); [apply orb_false_r|lia|].
    destruct (decide (l = 0)) as [->|]; [simpl; lia|]. apply Z.log2_lt_pow2; [lia|].
    apply Z.lt_le_trans with (2 ^ 32); [lia|]. apply Z.pow_le_mono_r; lia.
Qed.

Lemma u64_bits x n : 0 ≤ n → Z.testbit (u64 x) n = (n <? 64) && Z.testbit x n.
Proof.
  intros Hn. unfold u64. change two64 with (2 ^ 64). destruct (Z.ltb_spec n 64); cbn.
  - by apply Z.mod_pow2_bits_low.
  - by apply Z.mod_pow2_bits_high.
Qed.

Lemma s64_of_u64 x : s64 (u64 x) = s64 x.
Proof. destruct (u64_word x) as (k & E & _). rewrite E. apply (s64_eq (- k)). lia. Qed.

(** Equal in the low 64 bits. *)
Lemma s64_bits x y : (∀ n, 0 ≤ n < 64 → Z.testbit x n = Z.testbit y n) → s64 x = s64 y.
Proof.
  intros H. rewrite <-(s64_of_u64 x), <-(s64_of_u64 y). f_equal. apply Z.bits_inj'. intros n Hn.
  rewrite !u64_bits by done. destruct (Z.ltb_spec n 64); [|done]. by rewrite H by lia.
Qed.

Lemma ui_H_bits x n : 0 ≤ n → Z.testbit (ui_H x) n = (n <? 32) && Z.testbit x (n + 32).
Proof. intros Hn. unfold ui_H, INT_BITS. by rewrite u32_bits, Z.shiftr_spec by lia. Qed.

Lemma ui_L_bits x n : Z.testbit (ui_L x) n = (n <? 32) && Z.testbit x n.
Proof. apply u32_bits. Qed.

Lemma word_ops (f : Z → Z → Z) (g : bool → bool → bool) a b :
  (∀ x y n, 0 ≤ n → Z.testbit (f x y) n = g (Z.testbit x n) (Z.testbit y n)) → g false false = false →
  ll (f (ui_H a) (ui_H b)) (f (ui_L a) (ui_L b)) = s64 (f a b).
Proof.
  intros Hf Hg. assert (0 ≤ f (ui_L a) (ui_L b) < two32) as Hr.
  { replace (f (ui_L a) (ui_L b)) with (u32 (f (ui_L a) (ui_L b))); [apply u32_range|].
    apply Z.bits_inj'. intros n Hn. rewrite u32_bits, Hf, !ui_L_bits by done. by destruct (n <? 32). }
  apply s64_bits. intros n Hn. rewrite ull_bits by (try done; lia). destruct (Z.ltb_spec n 32) as [H|H].
  - rewrite !Hf, !ui_L_bits by lia. by rewrite (proj2 (Z.ltb_lt _ _) H).
  - rewrite !Hf, !ui_H_bits by lia. rewrite (proj2 (Z.ltb_lt (n - 32) 32)) by lia. by rewrite Z.sub_add.
Qed.

Lemma anddi3_spec a b : __anddi3 a b = s64 (Z.land a b).
Proof. apply (word_ops Z.land andb); [intros; apply Z.land_spec|done]. Qed.

Lemma iordi3_spec a b : __iordi3 a b = s64 (Z.lor a b).
Proof. apply (word_ops Z.lor orb); [intros; apply Z.lor_spec|done]. Qed.

Lemma xordi3_spec a b : __xordi3 a b = s64 (Z.lxor a b).
Proof. apply (word_ops Z.lxor xorb); [intros; apply Z.lxor_spec|done]. Qed.

Lemma one_cmpldi2_spec a : __one_cmpldi2 a = s64 (Z.lnot a).
Proof.
  unfold __one_cmpldi2. apply s64_bits. intros n Hn. rewrite ull_bits by (try apply u32_range; lia).
  rewrite Z.lnot_spec by lia. destruct (Z.ltb_spec n 32) as [H|H].
  - rewrite u32_bits, Z.lnot_spec, ui_L_bits by lia. by rewrite (proj2 (Z.ltb_lt _ _) H).
  - rewrite u32_bits, Z.lnot_spec, ui_H_bits by lia. rewrite (proj2 (Z.ltb_lt (n - 32) 32)) by lia. by rewrite Z.sub_add.
Qed.

(** ** Shifts *)

Lemma shl32_ok x n : 0 ≤ n < 32 → shl32 x n = Ok (u32 (Z.shiftl x n)).
Proof. intros Hn. unfold shl32, INT_BITS. by rewrite (proj2 (Z.leb_le _ _)), (proj2 (Z.ltb_lt _ _)) by lia. Qed.

Lemma shr32_ok x n : 0 ≤ n < 32 → shr32 x n = Ok (Z.shiftr x n).
Proof. intros Hn. unfold shr32, INT_BITS. by rewrite (proj2 (Z.leb_le _ _)), (proj2 (Z.ltb_lt _ _)) by lia. Qed.

Lemma shr_range x n : 0 ≤ x < two32 → 0 ≤ n → 0 ≤ Z.shiftr x n < two32.
Proof.
  intros Hx Hn. rewrite Z.shiftr_div_pow2 by done. pose proof (Z.pow_pos_nonneg 2 n ltac:(lia) Hn).
  pose proof (Z.div_le_upper_bound x (2 ^ n) x ltac:(lia) ltac:(nia)). pose proof (Z.div_pos x (2 ^ n) ltac:(lia) ltac:(lia)). lia.
Qed.

Lemma lor_range x y : 0 ≤ x < two32 → 0 ≤ y < two32 → 0 ≤ Z.lor x y < two32.
Proof.
  intros Hx Hy. replace (Z.lor x y) with (u32 (Z.lor x y)); [apply u32_range|].
  rewrite <-(u32_id x), <-(u32_id y) by done. apply Z.bits_inj'. intros n Hn.
  rewrite u32_bits, !Z.lor_spec, !u32_bits by done. by destruct (n <? 32).
Qed.

Create Rewrite HintDb word_bits.
#[local] Hint Rewrite Z.shiftl_spec Z.shiftr_spec Z.lor_spec u32_bits ui_H_bits ui_L_bits Z.bits_0 using lia : word_bits.

(** Compares two [long long]s bit by bit, with a case distinction for bits below [c]
    and below 32. *)
Ltac shift_bits c :=
  let n := fresh "n" in let Hn := fresh "Hn" in
  unfold ll; apply s64_bits; intros n Hn;
  rewrite ull_bits by first [lia | apply u32_range | apply shr_range; [apply u32_range|lia]
    | apply lor_range; first [apply u32_range | apply shr_range; [apply u32_range|lia]] | done];
  destruct (Z.ltb_spec n 32), (Z.ltb_spec n c), (Z.ltb_spec n (32 + c));
  autorewrite with word_bits;
  repeat match goal with |- context[?x <? ?y] => destruct (Z.ltb_spec x y); try lia end;
  autorewrite with word_bits;
  repeat match goal with |- context[Z.testbit ?x ?k] => rewrite (Z.testbit_neg_r x k) by lia end; cbn [andb orb]; rewrite ?orb_false_r, ?orb_false_l;
  first [done | f_equal; lia | idtac].

Lemma ashldi3_spec a shift : is_s64 a → 0 ≤ shift < 64 → __ashldi3 a shift = Ok (s64 (Z.shiftl a shift)).
Proof.
  intros Ha Hs. unfold __ashldi3, INT_BITS. destruct (Z.eqb_spec shift 0) as [->|]; [by rewrite Z.shiftl_0_r, s64_id|].
  destruct (Z.leb_spec 32 shift).
  - rewrite shl32_ok by lia. rewrite !bind_of_Ok. apply f_equal. shift_bits shift.
  - rewrite !shl32_ok, shr32_ok by lia. rewrite !bind_of_Ok. apply f_equal. shift_bits shift.
Qed.

Lemma lshldi3_spec a shift : is_s64 a → 0 ≤ shift < 64 → __lshldi3 a shift = Ok (s64 (Z.shiftl a shift)).
Proof. apply ashldi3_spec. Qed.

#[local] Hint Rewrite u64_bits using lia : word_bits.

Lemma lshrdi3_spec a shift : is_s64 a → 0 ≤ shift < 64 → __lshrdi3 a shift = Ok (s64 (Z.shiftr (u64 a) shift)).
Proof.
  intros Ha Hs. unfold __lshrdi3, INT_BITS.
  destruct (Z.eqb_spec shift 0) as [->|]; [by rewrite Z.shiftr_0_r, s64_of_u64, s64_id|].
  destruct (Z.leb_spec 32 shift).
  - rewrite shr32_ok by lia. rewrite !bind_of_Ok. apply f_equal. shift_bits (32 - shift).
  - rewrite shl32_ok, !shr32_ok by lia. rewrite !bind_of_Ok. apply f_equal. shift_bits (32 - shift).
Qed.

Lemma si_H_shift a : is_s64 a → si_H a = Z.shiftr a 32.
Proof.
  intros Ha. unfold si_H, INT_BITS. apply s32_id. rewrite Z.shiftr_div_pow2 by done. change (2 ^ 32) with two32.
  pose proof (Z.div_mod a two32 ltac:(done)). pose proof (Z.mod_pos_bound a two32 ltac:(done)). width.
Qed.

Lemma high_bits x n : 0 ≤ x < two63 → 63 ≤ n → Z.testbit x n = false.
Proof.
  intros Hx Hn. apply Z.bits_above_log2; [lia|]. destruct (decide (x = 0)) as [->|]; [simpl; lia|].
  apply Z.log2_lt_pow2; [lia|]. apply Z.lt_le_trans with (2 ^ 63); [width|apply Z.pow_le_mono_r; lia].
Qed.

(** The sign fills the upper bits. *)
Lemma sign_bits a n : is_s64 a → 63 ≤ n → Z.testbit a n = Z.testbit a 63.
Proof.
  intros Ha Hn. destruct (decide (0 ≤ a)); [by rewrite !high_bits by width|].
  assert (0 ≤ Z.lnot a < two63) as Hr by (unfold Z.lnot; width).
  pose proof (high_bits _ n Hr Hn) as H1. pose proof (high_bits _ 63 Hr ltac:(lia)) as H2.
  rewrite Z.lnot_spec in H1, H2 by lia. by apply negb_false_iff in H1 as ->, H2 as ->.
Qed.

Lemma shiftr_s64 a n : is_s64 a → 0 ≤ n → is_s64 (Z.shiftr a n).
Proof.
  intros Ha Hn. rewrite Z.shiftr_div_pow2 by done. pose proof (Z.pow_pos_nonneg 2 n ltac:(lia) Hn) as Hp.
  pose proof (Z.div_mod a (2 ^ n) ltac:(lia)). pose proof (Z.mod_pos_bound a (2 ^ n) ltac:(lia)). unfold is_s64 in *. nia.
Qed.

Lemma ashrdi3_spec a shift : is_s64 a → 0 ≤ shift < 64 → __ashrdi3 a shift = Ok (Z.shiftr a shift).
Proof.
  intros Ha Hs. unfold __ashrdi3, INT_BITS. rewrite <-(s64_id (Z.shiftr a shift)) by (apply shiftr_s64; [done|lia]).
  destruct (Z.eqb_spec shift 0) as [->|]; [by rewrite Z.shiftr_0_r, s64_id|]. rewrite si_H_shift by done.
  destruct (Z.leb_spec 32 shift).
  - rewrite !shr32_ok, !bind_of_Ok by lia. rewrite !shr32_ok by lia. rewrite !bind_of_Ok. apply f_equal. shift_bits (64 - shift);
      by rewrite (sign_bits a (n0 + shift)), (sign_bits a (n0 - 32 + 1 + (32 - 1) + 32)) by (done || lia).
  - rewrite shl32_ok, !shr32_ok by lia. rewrite !bind_of_Ok. apply f_equal. shift_bits (32 - shift).
Qed.

(** ** Multiplication *)

(** Equality modulo 2^64. *)
Definition eq64 (x y : Z) : Prop := ∃ k, x = y + k * two64.

#[export] Instance eq64_equiv : Equivalence eq64.
Proof.
  split.
  - intros x. exists 0. lia.
  - intros x y [k ->]. exists (- k). lia.
  - intros x y z [k ->] [k' ->]. exists (k + k'). lia.
Qed.

#[export] Instance eq64_add : Proper (eq64 ==> eq64 ==> eq64) Z.add.
Proof. intros x x' [k ->] y y' [k' ->]. exists (k + k'). lia. Qed.

#[export] Instance eq64_sub : Proper (eq64 ==> eq64 ==> eq64) Z.sub.
Proof. intros x x' [k ->] y y' [k' ->]. exists (k - k'). lia. Qed.

#[export] Instance eq64_opp : Proper (eq64 ==> eq64) Z.opp.
Proof. intros x x' [k ->]. exists (- k). lia. Qed.

#[export] Instance eq64_mul : Proper (eq64 ==> eq64 ==> eq64) Z.mul.
Proof. intros x x' [k ->] y y' [k' ->]. exists (x' * k' + k * y' + k * k' * two64). ring. Qed.

Lemma eq64_s64 x : eq64 (s64 x) x.
Proof. destruct (s64_word x) as (k & E & _). exists (- k). lia. Qed.

Lemma eq64_u64 x : eq64 (u64 x) x.
Proof. destruct (u64_word x) as (k & E & _). exists (- k). lia. Qed.

Lemma eq64_words a : eq64 (ull (ui_H a) (ui_L a)) a.
Proof. destruct (words a) as (k & E & _). exists (- k). lia. Qed.

(** The upper word counts modulo 2^32. *)
Lemma eq64_high x l : eq64 (ull (u32 x) l) (x * two32 + l).
Proof. destruct (u32_word x) as (k & E & _). exists (- k). unfold ull. rewrite E. unfold two32, two64. lia. Qed.

Lemma s64_eq64 x y : eq64 x y → s64 x = s64 y.
Proof. intros [k E]. by apply (s64_eq k). Qed.

(** [x << 16] as two words. *)
Lemma half_up x : 0 ≤ x < two32 → ull (HHALF x) (LHUP x) = x * B ∧ 0 ≤ LHUP x < two32.
Proof.
  intros Hx. unfold LHUP, HALF_BITS. rewrite Z.shiftl_mul_pow2 by done. change (2 ^ 16) with B.
  split; [|apply u32_range]. rewrite HHALF_div. unfold u32, ull. change two32 with (B * B).
  rewrite Z.mul_mod_distr_r by done. pose proof (Z.div_mod x B ltac:(done)). change B with 65536 in *. lia.
Qed.

(** Adding and subtracting two words with a carry. *)
Lemma add_words h l hx lx : 0 ≤ l < two32 → 0 ≤ lx < two32 →
  eq64 (ull (u32 (h + (hx + b2z (u32 (l + lx) <? l)))) (u32 (l + lx))) (ull h l + ull hx lx).
Proof.
  intros Hl Hx. rewrite eq64_high. destruct (u32_word (l + lx)) as (k & E & R).
  destruct (b2z_lt (u32 (l + lx)) l) as [[? ->]|[? ->]]; exists 0; carry.
Qed.

Lemma sub_words h l hx lx : 0 ≤ l < two32 → 0 ≤ lx < two32 →
  eq64 (ull (u32 (h - (hx + b2z (l <? u32 (l - lx))))) (u32 (l - lx))) (ull h l - ull hx lx).
Proof.
  intros Hl Hx. rewrite eq64_high. destruct (u32_word (l - lx)) as (k & E & R).
  destruct (b2z_lt l (u32 (l - lx))) as [[? ->]|[? ->]]; exists 0; carry.
Qed.

Lemma diff_spec x y : 0 ≤ x < two32 → 0 ≤ y < two32 →
  let '(d, neg) := diff x y in 0 ≤ d < two32 ∧ (if neg then - d else d) = x - y.
Proof. intros Hx Hy. unfold diff. destruct (Z.leb_spec y x); lia. Qed.

Lemma diff_half x y : 0 ≤ x < B → 0 ≤ y < B →
  let '(d, neg) := diff x y in 0 ≤ d < B ∧ (if neg then - d else d) = x - y.
Proof. intros Hx Hy. unfold diff. destruct (Z.leb_spec y x); lia. Qed.

Lemma half_mul x y : 0 ≤ x < B → 0 ≤ y < B → u32 (x * y) = x * y ∧ 0 ≤ x * y < two32.
Proof. intros Hx Hy. assert (0 ≤ x * y < two32) by (change two32 with (B * B); nia). split; [by apply u32_id|done]. Qed.

(** The end of [__lmulq]: [low << 16] and [low] are added to the product. *)
Lemma lmulq_low h l low : 0 ≤ l < two32 → 0 ≤ low < two32 →
  let l1 := u32 (l + LHUP low) in
  let h1 := u32 (h + (HHALF low + b2z (l1 <? l))) in
  let l2 := u32 (l1 + low) in
  eq64 (ll (if l2 <? low then u32 (h1 + 1) else h1) l2) (ull h l + low * B + low).
Proof.
  intros Hl Hlow l1 h1 l2. destruct (half_up low Hlow) as [Eup Hup]. unfold ll. rewrite eq64_s64.
  pose proof (add_words h l (HHALF low) (LHUP low) Hl Hup) as Ha. fold l1 h1 in Ha. rewrite Eup in Ha.
  rewrite <-Ha. destruct (u32_word (l1 + low)) as (k & E & R). fold l2 in E, R.
  assert (0 ≤ l1 < two32) by apply u32_range.
  destruct (Z.ltb_spec l2 low); [rewrite eq64_high|]; exists 0; carry.
Qed.

(** Its middle: [high << 32], [high << 16] and [mid << 16], which may be negative. *)
Lemma lmulq_mid (high mid : Z) (neg : bool) : 0 ≤ high < two32 → 0 ≤ mid < two32 →
  let prod :=
    if neg then
      let l := u32 (LHUP high - LHUP mid) in
      (u32 (u32 (high + HHALF high) - (HHALF mid + b2z (LHUP high <? l))), l)
    else
      let l := u32 (LHUP high + LHUP mid) in
      (u32 (u32 (high + HHALF high) + (HHALF mid + b2z (l <? LHUP high))), l) in
  eq64 (ull prod.1 prod.2) (high * B * B + high * B + (if neg then - (mid * B) else mid * B)) ∧ 0 ≤ prod.2 < two32.
Proof.
  intros Hh Hm. destruct (half_up _ Hh) as [Eh Hlh], (half_up _ Hm) as [Em Hlm].
  destruct neg; cbn [fst snd]; (split; [|apply u32_range]).
  - rewrite sub_words, Em, eq64_high by done. exists 0. change B with 65536 in *. carry.
  - rewrite add_words, Em, eq64_high by done. exists 0. change B with 65536 in *. carry.
Qed.

Lemma lmulq_spec u v : 0 ≤ u < two32 → 0 ≤ v < two32 → eq64 (__lmulq u v) (u * v).
Proof.
  intros Hu Hv. unfold __lmulq. destruct (halves u) as [Eu Hu0], (halves v) as [Ev Hv0].
  pose proof (HHALF_range u Hu) as Hu1. pose proof (HHALF_range v Hv) as Hv1.
  assert (u * v = (HHALF u * B + LHALF u) * (HHALF v * B + LHALF v)) as EP by congruence.
  revert EP Hu0 Hu1 Hv0 Hv1. generalize (u * v) as P, (HHALF u) as u1, (LHALF u) as u0, (HHALF v) as v1, (LHALF v) as v0.
  clear. intros P u1 u0 v1 v0 EP Hu0 Hu1 Hv0 Hv1.
  destruct (half_mul u0 v0 Hu0 Hv0) as [-> Hlow]. destruct (half_mul u1 v1 Hu1 Hv1) as [-> Hhigh].
  destruct (Z.eqb_spec u1 0) as [E1|], (Z.eqb_spec v1 0) as [E2|]; cbn [andb];
    [rewrite EP, E1, E2; exists 0; lia|..].
  all: pose proof (diff_half u1 u0 Hu1 Hu0) as Hd; pose proof (diff_half v0 v1 Hv0 Hv1) as Hd'.
  all: destruct (diff u1 u0) as [ud nu], (diff v0 v1) as [vd nv]; destruct Hd as [Hud Eud], Hd' as [Hvd Evd].
  all: destruct (half_mul ud vd Hud Hvd) as [-> Hmid].
  all: destruct (half_up _ Hhigh) as [Eh Hlh], (half_up _ Hmid) as [Em Hlm].
  all: destruct (lmulq_mid (u1 * v1) (ud * vd) (xorb nu nv) Hhigh Hmid) as [Ep Hp]; cbv zeta in Ep, Hp.
  all: assert ((if xorb nu nv then - (ud * vd * B) else ud * vd * B) = (u1 - u0) * (v0 - v1) * B) as Es
    by (rewrite <-Eud, <-Evd; destruct nu, nv; cbn; ring).
  all: destruct (if xorb nu nv then _ else _) as [h l] eqn:Eprod; cbn [fst snd] in Ep, Hp.
  all: rewrite (lmulq_low h l (u0 * v0) Hp Hlow), Ep, EP, Es; exists 0; ring.
Qed.

(** The product of two words pairs, modulo 2^64. *)
Lemma mul_words u v :
  let low := __lmulq (ui_L u) (ui_L v) in
  let '(udiff, nu) := diff (ui_H u) (ui_L u) in
  let '(vdiff, nv) := diff (ui_L v) (ui_H v) in
  eq64 (ll (u32 (u32 (ui_H u * ui_H v) + (if xorb nu nv then u32 (- u32 (udiff * vdiff)) else u32 (udiff * vdiff))
    + ui_L low + ui_H low)) (ui_L low)) (u * v).
Proof.
  intros low. destruct (words u) as (ku & Eu & Hu1 & Hu0), (words v) as (kv & Ev & Hv1 & Hv0).
  pose proof (lmulq_spec _ _ Hu0 Hv0) as [k4 E4]. fold low in E4.
  pose proof (diff_spec _ _ Hu1 Hu0) as Hd. pose proof (diff_spec _ _ Hv0 Hv1) as Hd'.
  destruct (diff (ui_H u) (ui_L u)) as [ud nu], (diff (ui_L v) (ui_H v)) as [vd nv]. destruct Hd as [_ Eud], Hd' as [_ Evd].
  assert (∃ k, (if xorb nu nv then u32 (- u32 (ud * vd)) else u32 (ud * vd))
    = (ui_H u - ui_L u) * (ui_L v - ui_H v) + k * two32) as [kk Em].
  { rewrite <-Eud, <-Evd. destruct (u32_word (ud * vd)) as (k2 & E2 & _), (u32_word (- u32 (ud * vd))) as (k3 & E3 & _).
    destruct nu, nv; cbn [xorb]; [exists (- k2)|exists (k2 - k3)|exists (k2 - k3)|exists (- k2)]; rewrite ?E3, E2; ring. }
  rewrite Em. destruct (words low) as (kl & El & _). unfold ll. rewrite eq64_s64, eq64_high.
  destruct (u32_word (ui_H u * ui_H v)) as (k1 & E1 & _). rewrite E1.
  transitivity (ull (ui_H u) (ui_L u) * ull (ui_H v) (ui_L v)); [|by rewrite !eq64_words].
  exists (- k1 + kk + (k4 - kl) * two32 - ui_H low + (k4 - kl) - ui_H u * ui_H v).
  rewrite El in E4. unfold ull in *. change two64 with (two32 * two32) in *.
  assert (ui_L low = ui_L u * ui_L v + (k4 - kl) * (two32 * two32) - ui_H low * two32) as -> by lia. ring.
Qed.

Lemma lmulq_s64 u v : s64 (__lmulq u v) = __lmulq u v.
Proof.
  unfold __lmulq. destruct (_ && _).
  - apply s64_id. pose proof (u32_range (LHALF u * LHALF v)). width.
  - destruct (diff _ _), (diff _ _), (if xorb _ _ then _ else _). apply ll_eq.
Qed.

Lemma muldi3_spec a b : is_s64 a → is_s64 b → __muldi3 a b = s64 (a * b).
Proof.
  intros Ha Hb. unfold __muldi3.
  assert (∀ x, is_s64 x → let '(u, n) := if 0 <=? x then (x, false) else (s64 (- x), true) in
    is_s64 u ∧ eq64 (if n : bool then - u else u) x) as Habs.
  { intros x Hx. destruct (Z.leb_spec 0 x); [done|]. split; [apply s64_range|]. rewrite eq64_s64. exists 0. lia. }
  pose proof (Habs a Ha) as H1. pose proof (Habs b Hb) as H2. clear Habs.
  destruct (if 0 <=? a then _ else _) as [u na], (if 0 <=? b then _ else _) as [v nb].
  destruct H1 as [Hu Eu], H2 as [Hv Ev].
  assert (∀ p, eq64 p (u * v) → s64 p = p → (if xorb na nb then s64 (- p) else p) = s64 (a * b)) as Hsign.
  { intros p Ep Er. transitivity (s64 (if xorb na nb then - p else p)); [by destruct (xorb na nb)|].
    apply s64_eq64. rewrite <-Eu, <-Ev. destruct na, nb; cbn [xorb]; rewrite Ep; exists 0; ring. }
  pose proof (mul_words u v) as Hm. cbv zeta in Hm.
  destruct (diff (ui_H u) (ui_L u)) as [ud nu], (diff (ui_L v) (ui_H v)) as [vd nv].
  destruct (Z.eqb_spec (ui_H u) 0) as [E1|], (Z.eqb_spec (ui_H v) 0) as [E2|]; cbn [andb];
    try (apply Hsign; [exact Hm|apply ll_eq]).
  apply Hsign; [|apply lmulq_s64]. rewrite lmulq_spec by apply u32_range.
  transitivity (ull (ui_H u) (ui_L u) * ull (ui_H v) (ui_L v)); [|by rewrite !eq64_words].
  rewrite E1, E2. exists 0. unfold ull. ring.
Qed.

(** C27: The 64-bit operations the compiler's run-time library builds from 32-bit words compute what the C
    operators promise: addition, subtraction, negation and multiplication modulo [2 ^ 64], the signed and
    unsigned three-way comparisons, the bitwise operations, and the three shifts for every amount below 64. *)
Theorem millicode_arithmetic a b shift : is_s64 a → is_s64 b → 0 ≤ shift < 64 →
  (__adddi3 a b = s64 (a + b) ∧ __subdi3 a b = s64 (a - b) ∧ __negdi2 a = s64 (- a) ∧ __muldi3 a b = s64 (a * b)) ∧
  (__cmpdi2 a b = cmp a b ∧ __ucmpdi2 (u64 a) (u64 b) = cmp (u64 a) (u64 b)) ∧
  (__anddi3 a b = s64 (Z.land a b) ∧ __iordi3 a b = s64 (Z.lor a b) ∧ __xordi3 a b = s64 (Z.lxor a b) ∧
    __one_cmpldi2 a = s64 (Z.lnot a)) ∧
  (__ashldi3 a shift = Ok (s64 (Z.shiftl a shift)) ∧ __lshldi3 a shift = Ok (s64 (Z.shiftl a shift)) ∧
    __lshrdi3 a shift = Ok (s64 (Z.shiftr (u64 a) shift)) ∧ __ashrdi3 a shift = Ok (Z.shiftr a shift)).
Proof.
  intros Ha Hb Hs. split_and!; [apply adddi3_spec|apply subdi3_spec|apply negdi2_spec|by apply muldi3_spec|by apply cmpdi2_spec| |
    apply anddi3_spec|apply iordi3_spec|apply xordi3_spec|apply one_cmpldi2_spec|by apply ashldi3_spec|by apply lshldi3_spec|
    by apply lshrdi3_spec|by apply ashrdi3_spec].
  apply ucmpdi2_spec; apply Z.mod_pos_bound; done.
Qed.

Lemma millicode_arithmetic_witness :
  __muldi3 (-3) 5000000000 = -15000000000 ∧ __ashrdi3 (-8) 33 = Ok (-1).
Proof.
  destruct (millicode_arithmetic (-3) 5000000000 0 ltac:(done) ltac:(done) ltac:(done)) as [(_ & _ & _ & ->) _].
  destruct (millicode_arithmetic (-8) 0 33 ltac:(done) ltac:(done) ltac:(done)) as (_ & _ & _ & _ & _ & _ & ->). done.
Defined.
