(* ===== verification/Qdivrem.v ===== *)
(** * Knuth's division

    That [__qdivrem] of qdivrem.c computes quotient and remainder.  Arrays of digits
    in base 2^16 are read as numbers by [num]; each loop of the program has a lemma
    that says what it does to the number, and the guess of a digit of the quotient
    is shown to be right or too big by one. *)

From stdpp Require Import base list.
From Stdlib Require Import ZArith Lia.
From S2P Require Import Prelude Millicode.
Open Scope Z_scope.

(** ** Numbers in base 2^16 *)

Definition get (a : list Z) (k : Z) : Z := match zget a k with Some x => x | None => 0 end.

Definition digit (d : Z) : Prop := 0 ≤ d < B.
Definition digits (a : list Z) : Prop := ∀ k, digit (get a k).

(** The number with the digits [a[o]..a[o + n - 1]]. *)
Fixpoint num (a : list Z) (o : Z) (n : nat) : Z :=
  match n with
  | O => 0
  | S n => num a o n * B + get a (o + Z.of_nat n)
  end.

Lemma B_pos : 0 < B.
Proof. done. Qed.

Definition Bn (n : nat) : Z := B ^ Z.of_nat n.

Lemma Bn_S n : Bn (S n) = Bn n * B.
Proof. unfold Bn. rewrite Nat2Z.inj_succ, Z.pow_succ_r by lia. lia. Qed.

Lemma Bn_0 : Bn 0 = 1.
Proof. done. Qed.

Lemma Bn_pos n : 0 < Bn n.
Proof. unfold Bn. apply Z.pow_pos_nonneg; [done|lia]. Qed.

Lemma Bn_add n k : Bn (n + k) = Bn n * Bn k.
Proof. unfold Bn. rewrite Nat2Z.inj_add, Z.pow_add_r by lia. done. Qed.

Lemma zget_get a k : 0 ≤ k < zlen a → zget a k = Some (get a k).
Proof. intros Hk. unfold get. destruct (zget_range a k Hk) as [x ->]. done. Qed.

Lemma get_zset a k x k' : 0 ≤ k < zlen a → get (zset a k x) k' = if decide (k' = k) then x else get a k'.
Proof.
  intros Hk. unfold get. case_decide as Hd.
  - subst. by rewrite zget_zset_eq.
  - by rewrite zget_zset_ne by congruence.
Qed.

Lemma zput_ok {A} (a : list A) k x : 0 ≤ k < zlen a → zput a k x = Ok (zset a k x).
Proof. intros Hk. unfold zput. by rewrite decide_True. Qed.

Lemma digits_zset a k x : digits a → 0 ≤ k < zlen a → digit x → digits (zset a k x).
Proof. intros Ha Hk Hx k'. rewrite get_zset by done. by case_decide. Qed.

Lemma num_ext a a' o n : (∀ k, o ≤ k < o + Z.of_nat n → get a' k = get a k) → num a' o n = num a o n.
Proof.
  induction n as [|n IH]; intros H; [done|]. cbn [num]. rewrite IH, H by (intros; try apply H; lia). done.
Qed.

Lemma num_range a o n : digits a → 0 ≤ num a o n < Bn n.
Proof.
  intros Ha. induction n as [|n IH]; [by rewrite Bn_0|]. cbn [num]. rewrite Bn_S.
  specialize (Ha (o + Z.of_nat n)). unfold digit in Ha. pose proof B_pos. nia.
Qed.

Lemma num_app a o n k : num a o (n + k) = num a o n * Bn k + num a (o + Z.of_nat n) k.
Proof.
  induction k as [|k IH]; [rewrite Nat.add_0_r, Bn_0; cbn; lia|].
  rewrite Nat.add_succ_r. cbn [num]. rewrite IH, Bn_S. replace (o + Z.of_nat (n + k)) with (o + Z.of_nat n + Z.of_nat k) by lia. ring.
Qed.

Lemma num_cons a o n : num a o (S n) = get a o * Bn n + num a (o + 1) n.
Proof. change (S n) with (1 + n)%nat. rewrite num_app. cbn [num]. rewrite Z.add_0_r. f_equal; lia. Qed.

(** ** The loops *)

Lemma LHALF_digit x : digit (LHALF x).
Proof. rewrite LHALF_mod. apply Z.mod_pos_bound. done. Qed.

(** What a borrow does: [x] is a difference that may be negative. *)
Lemma borrow x : - ((B - 1) * B) ≤ x < B →
  let t := u32 x in x = LHALF t - Z.land (u32 (B - HHALF t)) (B - 1) * B ∧ (HHALF t = 0 ↔ 0 ≤ x).
Proof.
  intros Hx t. assert (0 ≤ t < two32) as Ht by apply u32_range. pose proof (HHALF_range t Ht) as Hh.
  destruct (halves t) as [Et Hl]. destruct (u32_word x) as (k & Ek & _). fold t in Ek.
  change (B - 1) with (Z.ones 16). rewrite Z.land_ones by done. change (2 ^ 16) with B.
  rewrite u32_id by (change B with 65536 in *; width).
  change B with 65536 in *. unfold two32 in *.
  destruct (decide (HHALF t = 0)) as [E|E].
  - rewrite E. change ((65536 - 0) mod 65536) with 0. assert (k = 0) by lia. lia.
  - rewrite Z.mod_small by lia. assert (k = -1) by lia. split; [lia|]. split; [done|lia].
Qed.

Section loops.
Context (v : list Z) (vo : Z).
Hypothesis v_digits : digits v.

(** D4 *)
Lemma mul_sub_spec i a q t u :
  digits u → 0 ≤ a → a + Z.of_nat i < zlen u → 0 ≤ vo → vo + Z.of_nat i < zlen v → digit t → digit q →
  ∃ t' u', mul_sub v vo i a q t u = Ok (t', u') ∧ zlen u' = zlen u ∧ digits u' ∧ digit t' ∧
    (∀ k, ¬ (a + 1 ≤ k ≤ a + Z.of_nat i) → get u' k = get u k) ∧
    num u' (a + 1) i = num u (a + 1) i - q * num v (vo + 1) i - t + t' * Bn i.
Proof.
  revert t u. induction i as [|i IH]; intros t u Hu Ha Hau Hv Hvv Ht Hq.
  { exists t, u. rewrite Bn_0. cbn. split_and!; try done; try lia; by destruct Ht. }
  cbn [mul_sub]. rewrite !zget_get by lia. cbn [deref]. rewrite !bind_of_Ok.
  set (x := get u (a + Z.of_nat (S i))). set (y := get v (vo + Z.of_nat (S i))).
  assert (digit x) as Hx by apply Hu. assert (digit y) as Hy by apply v_digits. unfold digit in Hx, Hy, Ht, Hq.
  rewrite (u32_id (y * q)) by (unfold is_u32; change two32 with (B * B); nia).
  destruct (borrow (x - y * q - t)) as [Eb _]; [nia|].
  set (t1 := u32 (x - y * q - t)) in *. set (c := Z.land _ _) in *.
  assert (digit c) as Hc.
  { unfold c. change (B - 1) with (Z.ones 16). rewrite Z.land_ones by done. apply Z.mod_pos_bound. done. }
  rewrite zput_ok, bind_of_Ok by lia. set (u1 := zset _ _ _).
  assert (digits u1) as Hu1 by (apply digits_zset; [done|lia|apply LHALF_digit]).
  assert (zlen u1 = zlen u) as Hl1 by apply zlen_zset.
  destruct (IH c u1 Hu1 Ha ltac:(lia) Hv ltac:(lia) Hc Hq) as (t' & u' & Er & Hl & Hd & Ht' & Hout & Hn).
  exists t', u'. split; [done|]. split; [lia|]. split; [done|]. split; [done|]. split.
  - intros k Hk. rewrite Hout by lia. unfold u1. rewrite get_zset by lia. by rewrite decide_False by lia.
  - cbn [num]. rewrite Hn, Bn_S.
    assert (num u1 (a + 1) i = num u (a + 1) i) as ->.
    { apply num_ext. intros k Hk. unfold u1. rewrite get_zset by lia. by rewrite decide_False by lia. }
    replace (a + 1 + Z.of_nat i) with (a + Z.of_nat (S i)) by lia. replace (vo + 1 + Z.of_nat i) with (vo + Z.of_nat (S i)) by lia.
    rewrite (Hout (a + Z.of_nat (S i))) by lia. unfold u1. rewrite get_zset, decide_True by (done || lia).
    fold x y. nia.
Qed.

(** D6 *)
Lemma add_back_spec i a t u :
  digits u → 0 ≤ a → a + Z.of_nat i < zlen u → 0 ≤ vo → vo + Z.of_nat i < zlen v → 0 ≤ t ≤ 1 →
  ∃ t' u', add_back v vo i a t u = Ok (t', u') ∧ zlen u' = zlen u ∧ digits u' ∧ 0 ≤ t' ≤ 1 ∧
    (∀ k, ¬ (a + 1 ≤ k ≤ a + Z.of_nat i) → get u' k = get u k) ∧
    num u' (a + 1) i = num u (a + 1) i + num v (vo + 1) i + t - t' * Bn i.
Proof.
  revert t u. induction i as [|i IH]; intros t u Hu Ha Hau Hv Hvv Ht.
  { exists t, u. rewrite Bn_0. cbn. split_and!; try done; lia. }
  cbn [add_back]. rewrite !zget_get by lia. cbn [deref]. rewrite !bind_of_Ok.
  set (x := get u (a + Z.of_nat (S i))). set (y := get v (vo + Z.of_nat (S i))).
  assert (digit x) as Hx by apply Hu. assert (digit y) as Hy by apply v_digits. unfold digit in Hx, Hy.
  rewrite (u32_id (t + (x + y))) by (change B with 65536 in *; width).
  destruct (halves (t + (x + y))) as [Eh Hlo].
  assert (0 ≤ HHALF (t + (x + y)) ≤ 1) as Hc by (change B with 65536 in *; lia).
  rewrite zput_ok, bind_of_Ok by lia. set (u1 := zset _ _ _).
  assert (digits u1) as Hu1 by (apply digits_zset; [done|lia|apply LHALF_digit]).
  assert (zlen u1 = zlen u) as Hl1 by apply zlen_zset.
  destruct (IH _ u1 Hu1 Ha ltac:(lia) Hv ltac:(lia) Hc) as (t' & u' & Er & Hl & Hd & Ht' & Hout & Hn).
  exists t', u'. split; [done|]. split; [lia|]. split; [done|]. split; [done|]. split.
  - intros k Hk. rewrite Hout by lia. unfold u1. rewrite get_zset by lia. by rewrite decide_False by lia.
  - cbn [num]. rewrite Hn, Bn_S.
    assert (num u1 (a + 1) i = num u (a + 1) i) as ->.
    { apply num_ext. intros k Hk. unfold u1. rewrite get_zset by lia. by rewrite decide_False by lia. }
    replace (a + 1 + Z.of_nat i) with (a + Z.of_nat (S i)) by lia. replace (vo + 1 + Z.of_nat i) with (vo + Z.of_nat (S i)) by lia.
    rewrite (Hout (a + Z.of_nat (S i))) by lia. unfold u1. rewrite get_zset, decide_True by (done || lia).
    fold x y. nia.
Qed.

End loops.

(** D3.  The guess is the quotient of the first three digits by the first two, or
    the greatest digit. *)
Section guess.
Context (v1 v2 u0 u1 u2 : Z).
Hypothesis v1_digit : B / 2 ≤ v1 < B.
Hypothesis v2_digit : digit v2.
Hypothesis u_digits : digit u0 ∧ digit u1 ∧ digit u2.

Definition guess_ok (q : Z) : Prop :=
  digit q ∧ q * (v1 * B + v2) ≤ u0 * B * B + u1 * B + u2 ∧
  ∀ q', digit q' → q' * (v1 * B + v2) ≤ u0 * B * B + u1 * B + u2 → q' ≤ q.

Lemma too_big_spec fuel q r :
  q * v1 + r = u0 * B + u1 → 1 ≤ q ≤ B → 0 ≤ r < B → B ≤ r + Z.of_nat fuel * v1 →
  (∀ q', digit q' → q' * (v1 * B + v2) ≤ u0 * B * B + u1 * B + u2 → q' < q) →
  ∃ qh, qhat_too_big v1 v2 fuel u2 q r = Ok qh ∧ guess_ok qh.
Proof.
  unfold digit in v2_digit, u_digits. destruct u_digits as (H0 & H1 & H2). unfold guess_ok, digit.
  change (B / 2) with 32768 in v1_digit. change B with 65536 in *.
  revert q r. induction fuel as [|fuel IH]; intros q r E Hq Hr Hf Hmax; [lia|]. cbn [qhat_too_big].
  rewrite (u32_id (q - 1)), (u32_id (r + v1)) by width. change B with 65536.
  destruct (Z.leb_spec 65536 (r + v1)) as [Hle|Hlt].
  - exists (q - 1). split; [done|]. split; [lia|]. split; [nia|]. intros q' Hd Hle'. specialize (Hmax q' Hd Hle'). lia.
  - rewrite COMBINE_add by (change B with 65536; lia). change B with 65536. rewrite (u32_id (v2 * (q - 1))) by (unfold is_u32, two32; nia).
    destruct (Z.ltb_spec ((r + v1) * 65536 + u2) (v2 * (q - 1))) as [Ht|Ht].
    + apply IH; [lia|nia|lia|lia|]. intros q' Hd Hle'. specialize (Hmax q' Hd Hle').
      destruct (decide (q' = q - 1)) as [->|]; [nia|lia].
    + exists (q - 1). split; [done|]. split; [lia|]. split; [nia|]. intros q' Hd Hle'. specialize (Hmax q' Hd Hle'). lia.
Qed.

Lemma guess_spec : u0 ≤ v1 → ∃ qh, guess v1 v2 u0 u1 u2 = Ok qh ∧ guess_ok qh.
Proof.
  intros Hle. unfold guess. unfold digit in v2_digit, u_digits. destruct u_digits as (H0 & H1 & H2).
  change (B / 2) with 32768 in v1_digit.
  destruct (Z.eqb_spec u0 v1) as [E|Hne].
  - apply too_big_spec; try (change B with 65536 in *; lia). intros q' [_ Hd] _. done.
  - rewrite (COMBINE_add u0 u1) by done.
    pose proof (Z.div_mod (u0 * B + u1) v1 ltac:(lia)) as Ed. pose proof (Z.mod_pos_bound (u0 * B + u1) v1 ltac:(lia)) as Hm.
    set (q := (u0 * B + u1) / v1) in *. set (r := (u0 * B + u1) mod v1) in *.
    assert (0 ≤ q < B) as Hq by (change B with 65536 in *; nia).
    rewrite COMBINE_add by (change B with 65536 in *; lia).
    rewrite (u32_id (v2 * q)) by (unfold is_u32; change two32 with (B * B); nia).
    assert (∀ q', digit q' → q' * (v1 * B + v2) ≤ u0 * B * B + u1 * B + u2 → q' ≤ q) as Hmax.
    { intros q' Hd Hle'. unfold digit in Hd. change B with 65536 in *. apply Z.div_le_lower_bound; nia. }
    destruct (Z.ltb_spec (r * B + u2) (v2 * q)) as [Ht|Ht].
    + apply too_big_spec; change B with 65536 in *; [lia|nia|lia|lia|]. intros q' Hd Hle'. specialize (Hmax q' Hd Hle').
      destruct (decide (q' = q)) as [->|]; [exfalso; nia|lia].
    + exists q. split; [done|]. split; [done|]. split; [change B with 65536 in *; nia|done].
Qed.

End guess.

(** ** One digit of the quotient *)

(** The guess is right or one too big. *)
Lemma guess_close (D N3 v' u' W q qh : Z) :
  0 ≤ v' < W → 0 ≤ u' < W → B ≤ D → digit q → digit qh →
  q * (D * W + v') ≤ N3 * W + u' < (q + 1) * (D * W + v') →
  qh * D ≤ N3 → (∀ q', digit q' → q' * D ≤ N3 → q' ≤ qh) → q ≤ qh ≤ q + 1.
Proof.
  intros Hv Hu HD Hq Hqh [Hlo Hhi] Hle Hmax. unfold digit in *. split.
  - apply Hmax; [done|]. assert (q * D * W < (N3 + 1) * W) by nia. nia.
  - assert (qh * (D * W + v') < (q + 2) * (D * W + v')); [|nia].
    assert (qh * v' ≤ (B - 1) * W) by nia. assert (qh * D * W ≤ N3 * W) by nia. nia.
Qed.

Lemma wrap_low x : - B < x < B → let t := u32 x in ∃ c, 0 ≤ c ≤ 1 ∧ x = LHALF t - c * B ∧ (HHALF t = 0 ↔ c = 0).
Proof.
  intros Hx t. destruct (borrow x) as [Eb Hb]; [change B with 65536 in *; lia|]. fold t in Eb, Hb.
  exists (Z.land (u32 (B - HHALF t)) (B - 1)). pose proof (LHALF_digit t) as Hl. unfold digit in Hl.
  set (c := Z.land _ _) in *. change B with 65536 in *. split; [lia|]. split; [lia|]. rewrite Hb. lia.
Qed.

Section step.
Context (v : list Z) (vo : Z) (n' : nat).
Hypothesis v_digits : digits v.
Hypothesis vo_range : 0 ≤ vo ∧ vo + Z.of_nat (S (S n')) < zlen v.
Hypothesis v_normal : B / 2 ≤ get v (vo + 1).

#[local] Abbreviation n := (S (S n')).
#[local] Abbreviation V := (num v (vo + 1) n).
#[local] Abbreviation v1 := (get v (vo + 1)).
#[local] Abbreviation v2 := (get v (vo + 2)).

Lemma V_split : V = (v1 * B + v2) * Bn n' + num v (vo + 3) n'.
Proof.
  rewrite !num_cons, Bn_S. replace (vo + 1 + 1 + 1) with (vo + 3) by lia. replace (vo + 1 + 1) with (vo + 2) by lia. ring.
Qed.

Lemma V_pos : Bn (S n') ≤ V < Bn n ∧ B * Bn n' ≤ V.
Proof.
  pose proof (num_range v (vo + 1) n v_digits). rewrite V_split in *. rewrite !Bn_S in *.
  pose proof (num_range v (vo + 3) n' v_digits). pose proof (Bn_pos n'). pose proof (v_digits (vo + 2)) as H2. unfold digit in H2.
  change (B / 2) with 32768 in v_normal. change B with 65536 in *. nia.
Qed.

(** The guess for the first digit of [u[a..a + n]]. *)
Lemma step_guess a u :
  digits u → num u a n < V →
  ∃ qh, guess v1 v2 (get u a) (get u (a + 1)) (get u (a + 2)) = Ok qh ∧ digit qh ∧
    num u a (S n) / V ≤ qh ≤ num u a (S n) / V + 1.
Proof.
  intros Hu Hlt. pose proof V_pos as [HV HV2]. pose proof (Bn_pos n') as HB. pose proof (Bn_pos (S n')).
  pose proof (num_range v (vo + 3) n' v_digits) as Hv'. pose proof (num_range u (a + 3) n' Hu) as Hu'.
  assert (num u a (S n) = (get u a * B * B + get u (a + 1) * B + get u (a + 2)) * Bn n' + num u (a + 3) n') as EU.
  { rewrite !num_cons, !Bn_S. replace (a + 1 + 1 + 1) with (a + 3) by lia. replace (a + 1 + 1) with (a + 2) by lia. ring. }
  pose proof (v_digits (vo + 1)) as Hv1. pose proof (v_digits (vo + 2)) as Hv2. pose proof (Hu a) as H0. pose proof (Hu (a + 1)) as H1.
  pose proof (Hu (a + 2)) as H2.
  assert (get u a ≤ v1) as Hle.
  { rewrite num_cons in Hlt. pose proof (num_range u (a + 1) (S n') Hu). rewrite V_split, Bn_S in Hlt. unfold digit in *.
    rewrite !Bn_S in *. nia. }
  destruct (guess_spec v1 v2 _ _ _ ltac:(unfold digit in *; lia) Hv2 (conj H0 (conj H1 H2)) Hle) as (qh & Eg & Hd & Hq & Hmax).
  exists qh. split; [done|]. split; [done|].
  assert (0 ≤ num u a (S n) < V * B) as HU.
  { pose proof (num_range u a (S n) Hu). split; [lia|]. change (num u a (S n)) with (num u a n * B + get u (a + Z.of_nat n)).
    pose proof (Hu (a + Z.of_nat n)) as Hd'. unfold digit in Hd'. nia. }
  pose proof (Z.div_mod (num u a (S n)) V ltac:(lia)) as Ed. pose proof (Z.mod_pos_bound (num u a (S n)) V ltac:(lia)) as Hm.
  set (q := num u a (S n) / V) in *.
  apply (guess_close (v1 * B + v2) (get u a * B * B + get u (a + 1) * B + get u (a + 2)) (num v (vo + 3) n')
    (num u (a + 3) n') (Bn n')); try done.
  - unfold digit in Hv2. change (B / 2) with 32768 in v_normal. change B with 65536 in *. lia.
  - unfold digit. split; [apply Z.div_pos; lia|]. apply Z.div_lt_upper_bound; lia.
  - rewrite <-V_split, <-EU. nia.
Qed.

(** [u[a..a + n]] becomes its remainder. *)
Lemma div_step_spec a u :
  digits u → 0 ≤ a → a + Z.of_nat n < zlen u → num u a n < V →
  ∃ u', div_step v vo (Z.of_nat n) v1 v2 a u = Ok (num u a (S n) / V, u') ∧ digit (num u a (S n) / V) ∧
    zlen u' = zlen u ∧ digits u' ∧
    (∀ k, ¬ (a ≤ k ≤ a + Z.of_nat n) → get u' k = get u k) ∧ num u' a (S n) = num u a (S n) mod V.
Proof.
  intros Hu Ha Hlen Hlt. destruct (step_guess a u Hu Hlt) as (qh & Eg & Hqh & Hclose).
  pose proof V_pos as [HV _]. pose proof (Bn_pos (S n')) as HB. set (U := num u a (S n)) in *.
  pose proof (Z.div_mod U V ltac:(lia)) as Ed. pose proof (Z.mod_pos_bound U V ltac:(lia)) as Hm.
  assert (0 ≤ U / V) as Hq0 by (apply Z.div_pos; [apply (num_range u a (S n) Hu)|lia]).
  set (q := U / V) in *. set (r := U mod V) in *.
  unfold div_step. rewrite !zget_get by lia. cbn [deref]. rewrite !bind_of_Ok, Eg, bind_of_Ok, Nat2Z.id.
  destruct (mul_sub_spec v vo v_digits n a qh 0 u Hu Ha Hlen ltac:(lia) ltac:(lia) ltac:(done) Hqh)
    as (t & u1 & -> & Hl1 & Hu1 & Ht & Hout1 & Hn1). rewrite bind_of_Ok.
  rewrite zget_get by lia. cbn [deref]. rewrite bind_of_Ok, Hout1 by lia.
  pose proof (Hu a) as H0. unfold digit in H0, Ht, Hqh.
  destruct (wrap_low (get u a - t)) as (c & Hc & Ex & Hz); [lia|]. set (t1 := u32 (get u a - t)) in *.
  rewrite zput_ok, bind_of_Ok by lia. set (u2 := zset u1 a (LHALF t1)).
  assert (digits u2) as Hu2 by (apply digits_zset; [done|lia|apply LHALF_digit]).
  assert (zlen u2 = zlen u) as Hl2 by (unfold u2; by rewrite zlen_zset).
  assert (∀ k, k ≠ a → get u2 k = get u1 k) as Hout2.
  { intros k Hk. unfold u2. rewrite get_zset by lia. by rewrite decide_False. }
  assert (get u2 a = LHALF t1) as Ea by (unfold u2; rewrite get_zset by lia; by rewrite decide_True).
  assert (num u2 (a + 1) n = num u1 (a + 1) n) as E2 by (apply num_ext; intros; apply Hout2; lia).
  assert (num u2 a (S n) = U - qh * V + c * Bn (S n)) as EU.
  { rewrite (num_cons u2 a n), Ea, E2, Hn1. unfold U. rewrite (num_cons u a n), (Bn_S n).
    replace (LHALF t1) with (get u a - t + c * B) by lia. ring. }
  pose proof (num_range u2 a (S n) Hu2) as Hr2. rewrite (Bn_S n) in Hr2, EU.
  destruct (Z.eqb_spec (HHALF t1) 0) as [Hz0|Hz1].
  - assert (c = 0) as -> by tauto. assert (qh = q) as -> by nia. exists u2. split; [done|]. split; [done|]. split; [done|].
    split; [done|]. split; [|nia]. intros k Hk. rewrite Hout2, Hout1 by lia. done.
  - assert (c = 1) as -> by (assert (c ≠ 0) by tauto; lia). assert (qh = q + 1) as -> by nia.
    destruct (add_back_spec v vo v_digits n a 0 u2 Hu2 Ha ltac:(lia) ltac:(lia) ltac:(lia) ltac:(lia))
      as (t2 & u3 & -> & Hl3 & Hu3 & Ht2 & Hout3 & Hn3). rewrite bind_of_Ok.
    rewrite zget_get by lia. cbn [deref]. rewrite bind_of_Ok, Hout3, Ea by lia.
    pose proof (LHALF_digit t1) as Hd1. unfold digit in Hd1.
    rewrite (u32_id (LHALF t1 + t2)) by (change B with 65536 in *; width).
    rewrite zput_ok, bind_of_Ok by lia. rewrite (u32_id (q + 1 - 1)) by (change B with 65536 in *; width).
    replace (q + 1 - 1) with q by lia. eexists. split; [done|]. split; [unfold digit; lia|].
    split; [rewrite zlen_zset; lia|]. split; [apply digits_zset; [done|lia|apply LHALF_digit]|].
    split.
    { intros k Hk. rewrite get_zset by lia. rewrite decide_False by lia. rewrite Hout3, Hout2, Hout1 by lia. done. }
    set (u4 := zset u3 a _).
    assert (digits u4) as Hu4 by (apply digits_zset; [done|lia|apply LHALF_digit]).
    pose proof (num_range u4 a (S n) Hu4) as Hr4. rewrite (Bn_S n) in Hr4.
    destruct (halves (LHALF t1 + t2)) as [Eh _]. set (e := HHALF (LHALF t1 + t2)) in *.
    assert (num u4 a (S n) = num u2 a (S n) + V - e * (Bn n * B)) as E4.
    { rewrite (num_cons u4 a n), (num_cons u2 a n), Ea. unfold u4 at 1. rewrite get_zset, decide_True by (done || lia).
      rewrite (num_ext u3 u4), Hn3; [|intros k Hk; unfold u4; rewrite get_zset by lia; by rewrite decide_False by lia].
      replace (LHALF (LHALF t1 + t2)) with (LHALF t1 + t2 - e * B) by lia. ring. }
    assert (e = 1) as He by nia. rewrite He in E4. lia.
Qed.

(** ** The quotient *)

(** [k] digits of the quotient are left, of the number [u[o..o + j + n + k - 1]]; the
    digits before [u[j]] are zero. *)
Lemma div_loop_spec k uo qo j u q :
  digits u → 0 ≤ uo → 0 ≤ j → uo + j + Z.of_nat (n + k) ≤ zlen u → digits q → 0 ≤ qo → qo + j + Z.of_nat k ≤ zlen q →
  num u (uo + j) n < V →
  ∃ u' q', div_loop v vo (Z.of_nat n) v1 v2 k uo qo j u q = Ok (u', q') ∧
    zlen u' = zlen u ∧ digits u' ∧ zlen q' = zlen q ∧ digits q' ∧
    (∀ p, ¬ (uo + j ≤ p < uo + j + Z.of_nat (n + k)) → get u' p = get u p) ∧
    (∀ p, ¬ (qo + j ≤ p < qo + j + Z.of_nat k) → get q' p = get q p) ∧
    num q' (qo + j) k = num u (uo + j) (n + k) / V ∧ num u' (uo + j) (n + k) = num u (uo + j) (n + k) mod V.
Proof.
  revert j u q. induction k as [|k IH]; intros j u q Hu Huo Hj Hlu Hq Hqo Hlq Hlt.
  { exists u, q. rewrite Nat.add_0_r. pose proof (num_range u (uo + j) n Hu).
    split; [done|]. do 4 (split; [done|]). split; [done|]. split; [done|].
    rewrite Z.div_small, Z.mod_small by lia. done. }
  pose proof V_pos as [HV _]. pose proof (Bn_pos (S n')) as HB. cbn [div_loop].
  destruct (div_step_spec (uo + j) u Hu ltac:(lia) ltac:(lia) Hlt) as (u1 & Es & Hd & Hl1 & Hu1 & Hout1 & Hn1).
  rewrite Es, bind_of_Ok, zput_ok, bind_of_Ok by lia. set (d := num u (uo + j) (S n) / V) in *.
  assert (LHALF d = d) as EL by (rewrite LHALF_mod; by apply Z.mod_small). rewrite EL. set (q1 := zset q (qo + j) d).
  assert (num u1 (uo + j) (S n) < V) as Hlt1 by (rewrite Hn1; apply Z.mod_pos_bound; lia).
  pose proof (num_range u1 (uo + j) (S n) Hu1) as Hr1. pose proof (num_range u1 (uo + j + 1) n Hu1) as Hr1'.
  assert (get u1 (uo + j) = 0) as Hz.
  { rewrite (num_cons u1 (uo + j) n) in Hlt1. pose proof (Hu1 (uo + j)) as H0. unfold digit in H0. nia. }
  assert (num u1 (uo + (j + 1)) n < V) as Hlt'.
  { rewrite (num_cons u1 (uo + j) n), Hz in Hlt1. replace (uo + (j + 1)) with (uo + j + 1) by lia. lia. }
  destruct (IH (j + 1) u1 q1 Hu1 Huo ltac:(lia) ltac:(lia) ltac:(apply digits_zset; [done|lia|done]) Hqo
    ltac:(unfold q1; rewrite zlen_zset; lia) Hlt') as (u' & q' & -> & Hl' & Hu' & Hlq' & Hq' & Hout' & Houtq' & Hnq & Hnu).
  exists u', q'. split; [done|]. split; [lia|]. split; [done|]. split; [rewrite Hlq'; apply zlen_zset|]. split; [done|].
  split; [intros p Hp; by rewrite Hout', Hout1 by lia|]. split.
  { intros p Hp. rewrite Houtq' by lia. unfold q1. rewrite get_zset by lia. by rewrite decide_False by lia. }
  replace (uo + (j + 1)) with (uo + j + 1) in * by lia. replace (qo + (j + 1)) with (qo + j + 1) in * by lia.
  assert (num u (uo + j) (n + S k) = d * Bn k * V + num u1 (uo + j + 1) (n + k)) as EW.
  { transitivity (d * Bn k * V + num u1 (uo + j) (S n + k)).
    - replace (n + S k)%nat with (S n + k)%nat by lia. rewrite (num_app u), (num_app u1), Hn1.
      rewrite (num_ext u u1 (uo + j + Z.of_nat (S n)) k) by (intros; apply Hout1; lia).
      pose proof (Z.div_mod (num u (uo + j) (S n)) V ltac:(lia)) as Ed. fold d in Ed. rewrite Ed at 1. ring.
    - change (S n + k)%nat with (S (n + k)). rewrite (num_cons u1), Hz. ring. }
  rewrite EW. rewrite Z.div_add_l, <-Hnq by lia.
  rewrite (Z.add_comm (d * Bn k * V)), Z.mod_add, <-Hnu by lia. split.
  - rewrite (num_cons q'). rewrite Houtq' by lia. unfold q1. rewrite get_zset, decide_True by (done || lia). done.
  - replace (n + S k)%nat with (S (n + k)) by lia. rewrite (num_cons u'), Hout', Hz by lia. lia.
Qed.

End step.

(** ** Shifting the digits *)

Section shift.
Context (d : Z).
Hypothesis d_range : 0 < d < 16.

#[local] Abbreviation S2 := (2 ^ d).
#[local] Abbreviation T2 := (2 ^ (16 - d)).

Lemma shift_base : B = S2 * T2 ∧ 0 < S2 ∧ 0 < T2.
Proof.
  rewrite <-Z.pow_add_r by lia. replace (d + (16 - d)) with 16 by lia.
  split; [done|]. split; apply Z.pow_pos_nonneg; lia.
Qed.

(** The two parts of a shifted digit. *)
Lemma shift_digit x y : digit x → digit y →
  Z.lor (LHALF (u32 (Z.shiftl x d))) (Z.shiftr y (HALF_BITS - d)) = x * S2 - x / T2 * B + y / T2 ∧
  LHALF (u32 (Z.shiftl x d)) = x * S2 - x / T2 * B ∧
  digit (x * S2 - x / T2 * B + y / T2) ∧ digit (x * S2 - x / T2 * B).
Proof.
  intros Hx Hy. unfold digit, HALF_BITS in *. destruct shift_base as (EB & HS & HT).
  rewrite Z.shiftl_mul_pow2, Z.shiftr_div_pow2 by lia.
  rewrite u32_id by (unfold is_u32; change two32 with (B * B); nia).
  pose proof (Z.div_mod x T2 ltac:(lia)) as Ex. pose proof (Z.mod_pos_bound x T2 HT) as Hxm.
  pose proof (Z.div_mod y T2 ltac:(lia)) as Ey. pose proof (Z.mod_pos_bound y T2 HT) as Hym.
  assert (0 ≤ y / T2 < S2) as Hyd by (split; [apply Z.div_pos; lia|apply Z.div_lt_upper_bound; nia]).
  assert (x * S2 - x / T2 * B = x mod T2 * S2) as E by nia.
  assert (LHALF (x * S2) = x mod T2 * S2) as EL.
  { rewrite LHALF_mod, EB, (Z.mul_comm S2 T2). by rewrite Z.mul_mod_distr_r by lia. }
  rewrite EL, E. split; [by apply lor_add; lia|]. split; [done|]. split; nia.
Qed.

Lemma shl_loop_spec len p a :
  digits p → 0 ≤ a → a + Z.of_nat len < zlen p →
  ∃ p', shl_loop len p a d = Ok p' ∧ zlen p' = zlen p ∧ digits p' ∧
    (∀ k, ¬ (a ≤ k ≤ a + Z.of_nat len) → get p' k = get p k) ∧
    num p' a (S len) = num p a (S len) * S2 - get p a / T2 * Bn (S len).
Proof.
  revert p a. induction len as [|len IH]; intros p a Hp Ha Hl; cbn [shl_loop].
  - rewrite zget_get by lia. cbn [deref]. rewrite bind_of_Ok. destruct (shift_digit (get p a) 0 (Hp a) ltac:(done)) as (_ & -> & _ & Hd).
    rewrite zput_ok by lia. eexists. split; [done|]. split; [apply zlen_zset|]. split; [apply digits_zset; [done|lia|done]|].
    split; [intros k Hk; rewrite get_zset by lia; by rewrite decide_False by lia|].
    cbn [num]. rewrite Z.add_0_r, get_zset, decide_True by (done || lia). rewrite Bn_S, Bn_0. lia.
  - rewrite !zget_get by lia. cbn [deref]. rewrite !bind_of_Ok.
    destruct (shift_digit (get p a) (get p (a + 1)) (Hp a) (Hp (a + 1))) as (-> & _ & Hd & _).
    rewrite zput_ok, bind_of_Ok by lia. set (p1 := zset p a _).
    assert (digits p1) as Hp1 by (apply digits_zset; [done|lia|done]). assert (zlen p1 = zlen p) as Hl1 by apply zlen_zset.
    destruct (IH p1 (a + 1) Hp1 ltac:(lia) ltac:(lia)) as (p' & -> & Hl' & Hp' & Hout & Hn).
    assert (∀ k, k ≠ a → get p1 k = get p k) as Hp1k by (intros k Hk; unfold p1; rewrite get_zset by lia; by rewrite decide_False).
    exists p'. split; [done|]. split; [lia|]. split; [done|]. split; [intros k Hk; rewrite Hout, Hp1k by lia; done|].
    rewrite (num_cons p' a), (num_cons p a), Hn, Hout by lia. unfold p1 at 1. rewrite get_zset, decide_True by (done || lia).
    rewrite (Hp1k (a + 1)) by lia. rewrite (num_ext p p1 (a + 1)) by (intros; apply Hp1k; lia). rewrite (Bn_S (S len)). ring.
Qed.

Lemma unshift_digit x y : digit x → digit y →
  Z.lor (Z.shiftr x d) (LHALF (u32 (Z.shiftl y (HALF_BITS - d)))) = x / S2 + y mod S2 * T2 ∧
  digit (x / S2 + y mod S2 * T2).
Proof.
  intros Hx Hy. unfold digit, HALF_BITS in *. destruct shift_base as (EB & HS & HT).
  rewrite Z.shiftl_mul_pow2, Z.shiftr_div_pow2 by lia.
  rewrite u32_id by (unfold is_u32; change two32 with (B * B); nia).
  pose proof (Z.mod_pos_bound y S2 HS) as Hym.
  assert (0 ≤ x / S2 < T2) as Hxd by (split; [apply Z.div_pos; lia|apply Z.div_lt_upper_bound; nia]).
  assert (LHALF (y * T2) = y mod S2 * T2) as ->.
  { rewrite LHALF_mod, EB. by rewrite Z.mul_mod_distr_r by lia. }
  rewrite Z.lor_comm, lor_add by lia. split; [lia|nia].
Qed.

(** The number [u[a..a + k]] is shifted right; what is shifted out of [u[a]] is
    dropped. *)
Lemma unshift_spec k a u :
  digits u → 0 ≤ a → a + Z.of_nat k < zlen u →
  ∃ u', unshift k (a + Z.of_nat k) d u = Ok u' ∧ zlen u' = zlen u ∧ digits u' ∧ get u' a = 0 ∧
    (∀ p, ¬ (a ≤ p ≤ a + Z.of_nat k) → get u' p = get u p) ∧
    num u' (a + 1) k + get u a / S2 * Bn k = num u a (S k) / S2.
Proof.
  intros Hu Ha. revert u Hu. induction k as [|k IH]; intros u Hu Hl; cbn [unshift].
  - rewrite Z.add_0_r, zput_ok by lia. eexists. split; [done|]. split; [apply zlen_zset|].
    split; [apply digits_zset; [done|lia|done]|]. split; [rewrite get_zset by lia; by rewrite decide_True|].
    split; [intros p Hp; rewrite get_zset by lia; by rewrite decide_False by lia|].
    cbn [num]. rewrite Bn_0, Z.mul_0_l, !Z.add_0_l, Z.add_0_r. lia.
  - rewrite !zget_get by lia. cbn [deref]. rewrite !bind_of_Ok.
    set (x := get u (a + Z.of_nat (S k))). replace (a + Z.of_nat (S k) - 1) with (a + Z.of_nat k) by lia. set (y := get u (a + Z.of_nat k)).
    destruct (unshift_digit x y (Hu _) (Hu _)) as (-> & Hd). rewrite zput_ok, bind_of_Ok by lia. set (u1 := zset u _ _).
    assert (digits u1) as Hu1 by (apply digits_zset; [done|lia|done]). assert (zlen u1 = zlen u) as Hl1 by apply zlen_zset.
    assert (∀ p, p ≠ a + Z.of_nat (S k) → get u1 p = get u p) as Hu1p
      by (intros p Hp; unfold u1; rewrite get_zset by lia; by rewrite decide_False).
    destruct (IH u1 Hu1 ltac:(lia)) as (u' & -> & Hl' & Hu' & Ha' & Hout & Hn).
    exists u'. split; [done|]. split; [lia|]. split; [done|]. split; [done|].
    split; [intros p Hp; rewrite Hout, Hu1p by lia; done|].
    rewrite (Hu1p a), (num_ext u u1 a (S k)) in Hn by (intros; try apply Hu1p; lia).
    destruct shift_base as (EB & HS & HT). set (M := num u a (S k)) in *.
    change (num u' (a + 1) (S k)) with (num u' (a + 1) k * B + get u' (a + 1 + Z.of_nat k)).
    change (num u a (S (S k))) with (M * B + get u (a + Z.of_nat (S k))). fold x.
    rewrite Hout by lia. unfold u1. rewrite get_zset, decide_True by lia.
    assert ((M * B + x) / S2 = M * T2 + x / S2) as -> by (rewrite EB; replace (M * (S2 * T2)) with (M * T2 * S2) by ring; apply Z.div_add_l; lia).
    assert (M mod S2 = y mod S2) as EM.
    { unfold M. cbn [num]. fold y. rewrite EB. replace (num u a k * (S2 * T2)) with (num u a k * T2 * S2) by ring.
      rewrite Z.add_comm. apply Z.mod_add. lia. }
    pose proof (Z.div_mod M S2 ltac:(lia)) as Ed. rewrite EM in Ed. rewrite Bn_S, EB.
    rewrite Ed, <-Hn. ring.
Qed.

End shift.

(** D1 *)
Lemma normalize_spec fuel t d :
  0 < t < B → B / 2 ≤ t * 2 ^ (Z.of_nat fuel - 1) → (0 < fuel)%nat →
  ∃ e, normalize fuel t d = Ok (d + e) ∧ 0 ≤ e ∧ B / 2 ≤ t * 2 ^ e < B.
Proof.
  revert t d. induction fuel as [|fuel IH]; intros t d Ht Hf Hp; [lia|]. cbn [normalize].
  change (B / 2) with 32768 in *. change B with 65536 in *.
  destruct (Z.ltb_spec t 32768) as [Hlt|Hge].
  - rewrite Z.shiftl_mul_pow2 by lia. change (2 ^ 1) with 2. rewrite u32_id by width.
    destruct fuel as [|fuel]; [rewrite Z.sub_diag in Hf; change (2 ^ 0) with 1 in Hf; lia|].
    assert (t * 2 ^ (Z.of_nat (S (S fuel)) - 1) = t * 2 * 2 ^ (Z.of_nat (S fuel) - 1)) as E.
    { replace (Z.of_nat (S (S fuel)) - 1) with (Z.succ (Z.of_nat (S fuel) - 1)) by lia. rewrite Z.pow_succ_r by lia. ring. }
    destruct (IH (t * 2) (d + 1) ltac:(lia) ltac:(lia) ltac:(lia)) as (e & -> & He & Hr).
    exists (e + 1). split; [f_equal; lia|]. split; [lia|]. rewrite Z.add_1_r, Z.pow_succ_r by lia. lia.
  - exists 0. rewrite Z.add_0_r, Z.pow_0_r. split; [done|]. lia.
Qed.

Lemma zero_q_spec i q : digits q → Z.of_nat i ≤ zlen q →
  ∃ q', zero_q i q = Ok q' ∧ zlen q' = zlen q ∧ digits q' ∧
    ∀ k, get q' k = if decide (0 ≤ k < Z.of_nat i) then 0 else get q k.
Proof.
  revert q. induction i as [|i IH]; intros q Hq Hl; cbn [zero_q].
  - exists q. split; [done|]. split; [done|]. split; [done|]. intros k. by rewrite decide_False by lia.
  - rewrite zput_ok, bind_of_Ok by lia. set (q1 := zset q _ _).
    destruct (IH q1) as (q' & -> & Hl' & Hq' & Hk).
    + by apply digits_zset; [|lia|].
    + unfold q1. rewrite zlen_zset. lia.
    + exists q'. split; [done|]. split; [rewrite Hl'; apply zlen_zset|]. split; [done|]. intros k. rewrite Hk. unfold q1.
      rewrite get_zset by lia. repeat case_decide; lia.
Qed.

(** ** Putting it together *)

Lemma num_zeros a o n : digits a → num a o n = 0 → ∀ k, o ≤ k < o + Z.of_nat n → get a k = 0.
Proof.
  intros Ha. induction n as [|n IH]; intros Hn k Hk; [lia|]. cbn [num] in Hn.
  pose proof (num_range a o n Ha). pose proof (Ha (o + Z.of_nat n)) as Hd. unfold digit in Hd. pose proof B_pos.
  destruct (decide (k = o + Z.of_nat n)) as [->|]; [nia|]. apply IH; [nia|lia].
Qed.

Lemma num_leading a o p n : (∀ k, o ≤ k < o + Z.of_nat p → get a k = 0) → num a o (p + n) = num a (o + Z.of_nat p) n.
Proof.
  intros H. rewrite num_app. assert (num a o p = 0) as ->; [|lia]. clear n.
  induction p as [|p IH]; [done|]. cbn [num]. rewrite IH, H by (intros; try apply H; lia). lia.
Qed.

Lemma digits_list l : Forall digit l → digits l.
Proof.
  intros Hl k. unfold get. destruct (zget l k) as [x|] eqn:E; [|done].
  unfold zget in E. case_decide; [|done]. rewrite Forall_lookup in Hl. by eapply Hl.
Qed.

Lemma four_spec a : digits a → zlen a = 5 → four a = Ok (num a 1 4).
Proof.
  intros Ha Hl. unfold four. rewrite !zget_get by lia. cbn [deref]. rewrite !bind_of_Ok.
  rewrite !COMBINE_add by apply Ha. do 2 f_equal. unfold ull. change two32 with (B * B).
  change (num a 1 4) with ((((0 * B + get a (1 + 0)) * B + get a (1 + 1)) * B + get a (1 + 2)) * B + get a (1 + 3)).
  change (1 + 0) with 1. change (1 + 1) with 2. change (1 + 2) with 3. change (1 + 3) with 4. ring.
Qed.

Lemma split_spec x0 x : digit x0 → is_u64 x → digits (split x0 x) ∧ num (split x0 x) 1 4 = x.
Proof.
  intros H0 Hx. destruct (unsigned_words x Hx) as (E & Hh & Hl).
  destruct (halves (ui_H x)) as [E1 H1], (halves (ui_L x)) as [E2 H2].
  pose proof (HHALF_range _ Hh) as H3. pose proof (HHALF_range _ Hl) as H4. split.
  - apply digits_list. repeat constructor; try done; try lia; by destruct H0.
  - change (num (split x0 x) 1 4) with
      ((((0 * B + HHALF (ui_H x)) * B + LHALF (ui_H x)) * B + HHALF (ui_L x)) * B + LHALF (ui_L x)).
    unfold ull in E. change B with 65536 in *. unfold two32 in E. lia.
Qed.

(** Division by one digit. *)
Lemma div_one_spec u t : digits u → zlen u = 5 → digit t → t ≠ 0 →
  div_one u t = Ok (num u 1 4 / t, num u 1 4 mod t).
Proof.
  intros Hu Hl Ht Hne. unfold digit in Ht. unfold div_one. rewrite !zget_get by lia. cbn [deref]. rewrite !bind_of_Ok.
  pose proof (Hu 1) as H1. pose proof (Hu 2) as H2. pose proof (Hu 3) as H3. pose proof (Hu 4) as H4. unfold digit in *.
  assert (∀ r d, 0 ≤ r < t → 0 ≤ d < B → COMBINE r d = r * B + d ∧ 0 ≤ (r * B + d) / t < B ∧ 0 ≤ (r * B + d) mod t < t) as Hstep.
  { intros r d Hr Hd. split; [apply COMBINE_add; [lia|done]|]. split; [|apply Z.mod_pos_bound; lia].
    split; [apply Z.div_pos; nia|apply Z.div_lt_upper_bound; nia]. }
  assert (0 ≤ get u 1 / t < B) as Hq1 by (split; [apply Z.div_pos; lia|apply Z.div_lt_upper_bound; nia]).
  pose proof (Z.mod_pos_bound (get u 1) t ltac:(lia)) as Hr1.
  destruct (Hstep _ _ Hr1 H2) as (-> & Hq2 & Hr2). destruct (Hstep _ _ Hr2 H3) as (-> & Hq3 & Hr3).
  destruct (Hstep _ _ Hr3 H4) as (-> & Hq4 & Hr4). rewrite !COMBINE_add by done.
  pose proof (Z.div_mod (get u 1) t Hne) as E1.
  set (r1 := get u 1 mod t) in *. set (q1 := get u 1 / t) in *. pose proof (Z.div_mod (r1 * B + get u 2) t Hne) as E2.
  set (r2 := (r1 * B + get u 2) mod t) in *. set (q2 := (r1 * B + get u 2) / t) in *.
  pose proof (Z.div_mod (r2 * B + get u 3) t Hne) as E3.
  set (r3 := (r2 * B + get u 3) mod t) in *. set (q3 := (r2 * B + get u 3) / t) in *.
  pose proof (Z.div_mod (r3 * B + get u 4) t Hne) as E4.
  set (r4 := (r3 * B + get u 4) mod t) in *. set (q4 := (r3 * B + get u 4) / t) in *.
  assert (num u 1 4 = ull (q1 * B + q2) (q3 * B + q4) * t + r4) as E.
  { change (num u 1 4) with ((((0 * B + get u 1) * B + get u 2) * B + get u 3) * B + get u 4).
    unfold ull. change two32 with (B * B). change B with 65536 in *. lia. }
  rewrite E. rewrite Z.div_add_l, Z.div_small, Z.add_0_r by lia. rewrite (Z.add_comm _ r4), Z.mod_add, Z.mod_small by lia. done.
Qed.

(** The division proper: [v[1..n]] with [v[1] ≠ 0] and [u[1..m + n]], at the end of
    the arrays. *)
Section long.
Context (x y : Z) (n' m : nat) (u v q : list Z).

#[local] Abbreviation n := (S (S n')).
#[local] Abbreviation uo := (4 - Z.of_nat m - Z.of_nat n).
#[local] Abbreviation vo := (4 - Z.of_nat n).
#[local] Abbreviation qo := (4 - Z.of_nat m).

Hypothesis u_digits : digits u ∧ zlen u = 5.
Hypothesis v_digits : digits v ∧ zlen v = 5.
Hypothesis q_digits : digits q ∧ zlen q = 5.
Hypothesis fits : (m + n ≤ 4)%nat.
Hypothesis u_zeros : ∀ k, k ≤ uo → get u k = 0.
Hypothesis v_first : get v (vo + 1) ≠ 0.
Hypothesis u_num : num u (uo + 1) (m + n) = x.
Hypothesis v_num : num v (vo + 1) n = y.
Hypothesis q_zeros : ∀ k, 0 ≤ k < qo → get q k = 0.

(** After D1: both numbers are multiplied by [2 ^ d]. *)
Definition normalized (d : Z) (u1 v1 : list Z) : Prop :=
  (digits u1 ∧ zlen u1 = 5) ∧ (digits v1 ∧ zlen v1 = 5) ∧
  (∀ k, k < uo → get u1 k = 0) ∧ B / 2 ≤ get v1 (vo + 1) ∧
  num u1 uo (S (m + n)) = x * 2 ^ d ∧ num v1 (vo + 1) n = y * 2 ^ d.

Lemma y_low : Bn (S n') ≤ y ∧ get v (vo + 1) * Bn (S n') ≤ y.
Proof.
  rewrite <-v_num, num_cons. pose proof (num_range v (vo + 1 + 1) (S n') (proj1 v_digits)).
  pose proof (proj1 v_digits (vo + 1)) as Hd. unfold digit in Hd. pose proof (Bn_pos (S n')). nia.
Qed.

Lemma u_full : num u uo (S (m + n)) = x.
Proof. rewrite num_cons, u_zeros, u_num by lia. lia. Qed.

Lemma normalize_ok :
  ∃ d u1 v1, normalize 17 (get v (vo + 1)) 0 = Ok d ∧ 0 ≤ d < 16 ∧ normalized d u1 v1 ∧
    (if 0 <? d then
      u ← shl u uo (Z.of_nat m + Z.of_nat n) d;
      v ← shl v (vo + 1) (Z.of_nat n - 1) d;
      Ok (u, v)
    else Ok (u, v)) = Ok (u1, v1).
Proof.
  destruct u_digits as [Hu Hlu], v_digits as [Hv Hlv]. pose proof (Hv (vo + 1)) as Hd. unfold digit in Hd.
  destruct (normalize_spec 17 (get v (vo + 1)) 0 ltac:(lia)) as (d & En & Hd0 & Hd1 & Hd2); [|lia|].
  { change (B / 2) with 32768. change (2 ^ (Z.of_nat 17 - 1)) with 65536. lia. }
  assert (d < 16) as Hd16.
  { destruct (decide (d < 16)); [done|]. pose proof (Z.pow_le_mono_r 2 16 d ltac:(lia) ltac:(lia)) as Hp.
    change (2 ^ 16) with B in Hp. nia. }
  exists d. rewrite Z.add_0_l in En. destruct (Z.ltb_spec 0 d) as [Hpos|Hz].
  - destruct (shl_loop_spec d ltac:(lia) (m + n) u uo Hu ltac:(lia) ltac:(lia)) as (u1 & Eu & Hl1 & Hu1 & Hout & Hn).
    destruct (shl_loop_spec d ltac:(lia) (S n') v (vo + 1) Hv ltac:(lia) ltac:(lia)) as (v1 & Ev & Hlv1 & Hv1 & _ & Hnv).
    exists u1, v1. split; [done|]. split; [lia|].
    unfold shl. replace (Z.to_nat (Z.of_nat m + Z.of_nat n)) with (m + n)%nat by lia.
    replace (Z.to_nat (Z.of_nat n - 1)) with (S n') by lia. rewrite Eu, bind_of_Ok, Ev, bind_of_Ok. split; [|done].
    rewrite u_zeros, u_full, Z.div_0_l, Z.mul_0_l, Z.sub_0_r in Hn by (try apply Z.pow_nonzero; lia).
    destruct (shift_base d ltac:(lia)) as (EB & HS & HT).
    assert (get v (vo + 1) / 2 ^ (16 - d) = 0) as Ez by (apply Z.div_small; nia).
    rewrite Ez, Z.mul_0_l, Z.sub_0_r, v_num in Hnv.
    split; [split; [done|lia]|]. split; [split; [done|lia]|]. split; [intros k Hk; rewrite Hout by lia; apply u_zeros; lia|].
    split; [|done]. rewrite num_cons in Hnv. pose proof (num_range v1 (vo + 1 + 1) (S n') Hv1). pose proof y_low as [_ Hy].
    pose proof (Bn_pos (S n')). nia.
  - assert (d = 0) as -> by lia. exists u, v. split; [done|]. split; [lia|]. split; [|done].
    rewrite Z.pow_0_r, Z.mul_1_r in *. unfold normalized. rewrite Z.pow_0_r, !Z.mul_1_r. split; [done|]. split; [done|].
    split; [intros k Hk; apply u_zeros; lia|]. split; [done|]. split; [apply u_full|done].
Qed.

Lemma divide_ok d u1 v1 : 0 ≤ d → normalized d u1 v1 →
  ∃ u2 q2, div_loop v1 vo (Z.of_nat n) (get v1 (vo + 1)) (get v1 (vo + 2)) (S m) uo qo 0 u1 q = Ok (u2, q2) ∧
    (digits u2 ∧ zlen u2 = 5) ∧ (digits q2 ∧ zlen q2 = 5) ∧ num q2 1 4 = x / y ∧
    (∀ k, k ≤ vo → get u2 k = 0) ∧ num u2 (vo + 1) n = x mod y * 2 ^ d.
Proof.
  intros Hd ([Hu1 Hl1] & [Hv1 Hlv1] & Hz & Hnorm & Hx & Hy). destruct q_digits as [Hq Hlq].
  pose proof (Z.pow_pos_nonneg 2 d ltac:(lia) Hd) as HS. pose proof y_low as [Hylow _]. pose proof (Bn_pos (S n')) as HB.
  assert (num u1 uo n < num v1 (vo + 1) n) as Hlt.
  { rewrite Hy. assert (x < Bn (S n') * Bn (S m)) as Hxb.
    { rewrite <-u_num, <-Bn_add. replace (S n' + S m)%nat with (m + n)%nat by lia. apply num_range, u_digits. }
    replace (S (m + n)) with (n + S m)%nat in Hx by lia. rewrite num_app in Hx.
    pose proof (num_range u1 (uo + Z.of_nat n) (S m) Hu1). pose proof (Bn_pos (S m)).
    assert (num u1 uo n < Bn (S n') * 2 ^ d); [|nia]. nia. }
  destruct (div_loop_spec v1 vo n' Hv1 ltac:(lia) Hnorm (S m) uo qo 0 u1 q Hu1 ltac:(lia) ltac:(lia) ltac:(lia) Hq ltac:(lia)
    ltac:(lia) ltac:(by rewrite Z.add_0_r)) as (u2 & q2 & -> & Hl2 & Hu2 & Hlq2 & Hq2 & Hout & Houtq & Eq & Er).
  rewrite !Z.add_0_r in *. replace (n + S m)%nat with (S (m + n)) in * by lia. rewrite Hx, Hy in Eq, Er.
  rewrite Z.div_mul_cancel_r in Eq by lia. rewrite Z.mul_mod_distr_r in Er by lia.
  exists u2, q2. split; [done|]. split; [split; [done|lia]|]. split; [split; [done|lia]|]. split.
  { rewrite <-Eq. replace 4%nat with ((3 - m) + S m)%nat by lia. rewrite num_leading.
    - f_equal. lia.
    - intros k Hk. rewrite Houtq by lia. apply q_zeros. lia. }
  pose proof (Z.mod_pos_bound x y ltac:(lia)) as Hm.
  replace (S (m + n)) with (S m + n)%nat in Er by lia. rewrite num_app in Er.
  replace (uo + Z.of_nat (S m)) with (vo + 1) in Er by lia. pose proof (num_range u2 (vo + 1) n Hu2) as Hr2.
  pose proof (num_range u2 uo (S m) Hu2) as Hr3. pose proof (num_range v1 (vo + 1) n Hv1) as HV. rewrite Hy in HV.
  assert (num u2 uo (S m) = 0) as E0 by nia. rewrite E0 in Er. split; [|lia].
  intros k Hk. destruct (decide (k < uo)); [rewrite Hout by lia; by apply Hz|]. apply (num_zeros u2 uo (S m)); [done..|lia].
Qed.

Lemma remainder_ok d u2 : 0 ≤ d < 16 → digits u2 ∧ zlen u2 = 5 →
  (∀ k, k ≤ vo → get u2 k = 0) → num u2 (vo + 1) n = x mod y * 2 ^ d →
  (u ← (if negb (d =? 0) then unshift (Z.to_nat (Z.of_nat n)) (uo + (Z.of_nat m + Z.of_nat n)) d u2 else Ok u2); four u)
    = Ok (x mod y).
Proof.
  intros Hd [Hu2 Hl2] Hz Hn. assert (4 = (2 - n') + n)%nat as E4 by lia.
  destruct (Z.eqb_spec d 0) as [->|Hne]; cbn [negb].
  - rewrite bind_of_Ok, four_spec by done. rewrite E4, num_leading by (intros; apply Hz; lia).
    f_equal. replace (1 + Z.of_nat (2 - n')) with (vo + 1) by lia. rewrite Hn. lia.
  - destruct (unshift_spec d ltac:(lia) n vo u2 Hu2 ltac:(lia) ltac:(lia)) as (u3 & Es & Hl3 & Hu3 & H0 & Hout & En).
    rewrite Nat2Z.id. replace (uo + (Z.of_nat m + Z.of_nat n)) with (vo + Z.of_nat n) by lia.
    rewrite Es, bind_of_Ok, four_spec by (done || lia).
    rewrite (num_cons u2 vo n), (Hz vo), Hn in En by lia.
    rewrite Z.div_0_l, !Z.mul_0_l, Z.add_0_l, Z.div_mul, Z.add_0_r in En by (apply Z.pow_nonzero; lia).
    rewrite E4, num_leading.
    + f_equal. replace (1 + Z.of_nat (2 - n')) with (vo + 1) by lia. done.
    + intros k Hk. destruct (decide (k = vo)) as [->|]; [done|]. rewrite Hout by lia. apply Hz. lia.
Qed.

End long.

(** ** The leading zeros *)

Lemma lead_v_spec v0 y : is_u64 y → y ≠ 0 → digit v0 →
  let v := split v0 y in
  (lead_v 4 v 0 = Ok (inl 2) ∧ get v 4 = y) ∨
  ∃ n', (n' ≤ 2)%nat ∧ let vo := 4 - Z.of_nat (S (S n')) in
    lead_v 4 v 0 = Ok (inr (Z.of_nat (S (S n')), vo)) ∧ get v (vo + 1) ≠ 0 ∧ num v (vo + 1) (S (S n')) = y.
Proof.
  intros Hy Hne H0 v. destruct (split_spec v0 y H0 Hy) as [Hd E]. fold v in Hd, E.
  assert (∀ p n, (p + n = 4)%nat → (∀ k, 1 ≤ k < 1 + Z.of_nat p → get v k = 0) → num v (1 + Z.of_nat p) n = y) as Hlead.
  { intros p n Hp Hk. rewrite <-E, <-Hp. symmetry. by apply num_leading. }
  assert (lead_v 4 v 0 = if get v 1 =? 0 then if get v 2 =? 0 then if get v 3 =? 0 then Ok (inl 2)
    else Ok (inr (2, 2)) else Ok (inr (3, 1)) else Ok (inr (4, 0))) as -> by reflexivity.
  destruct (Z.eqb_spec (get v 1) 0) as [E1|E1]; [|right; exists 2%nat; split; [lia|]; split; [done|]; split; [done|];
    apply (Hlead 0%nat 4%nat); [done|lia]].
  destruct (Z.eqb_spec (get v 2) 0) as [E2|E2]; [|right; exists 1%nat; split; [lia|]; split; [done|]; split; [done|];
    apply (Hlead 1%nat 3%nat); [done|]; intros k Hk; by replace k with 1 by lia].
  destruct (Z.eqb_spec (get v 3) 0) as [E3|E3]; [|right; exists 0%nat; split; [lia|]; split; [done|]; split; [done|];
    apply (Hlead 2%nat 2%nat); [done|]; intros k Hk; assert (k = 1 ∨ k = 2) as [ -> | -> ] by lia; done].
  left. split; [done|]. change (get v 4) with (0 * B + get v 4). apply (Hlead 3%nat 1%nat); [done|].
  intros k Hk. assert (k = 1 ∨ k = 2 ∨ k = 3) as [ -> |[ -> | -> ]] by lia; done.
Qed.

Lemma lead_u_spec x n : is_u64 x → (n ≤ 4)%nat → Bn (n - 1) ≤ x → (0 < n)%nat →
  let u := split 0 x in
  ∃ m, (m + n ≤ 4)%nat ∧ let uo := 4 - Z.of_nat m - Z.of_nat n in
    lead_u 4 u (4 - Z.of_nat n) 0 = Ok (Z.of_nat m, uo) ∧ (∀ k, k ≤ uo → get u k = 0) ∧ num u (uo + 1) (m + n) = x.
Proof.
  intros Hx Hn4 Hlow Hn u. destruct (split_spec 0 x ltac:(done) Hx) as [Hd E]. fold u in Hd, E.
  assert (∀ k, k ≤ 0 → get u k = 0) as Hneg.
  { intros k Hk. destruct (decide (k = 0)) as [->|]; [done|]. unfold get, zget. by rewrite decide_False by lia. }
  assert (∀ p, (p ≤ 4)%nat → (∀ k, 1 ≤ k ≤ Z.of_nat p → get u k = 0) →
    (p + n ≤ 4)%nat ∧ (∀ k, k ≤ Z.of_nat p → get u k = 0) ∧ num u (Z.of_nat p + 1) (4 - p) = x) as Hlead.
  { intros p Hp Hk. assert (num u (Z.of_nat p + 1) (4 - p) = x) as Ex.
    { rewrite <-E. replace 4%nat with (p + (4 - p))%nat at 2 by lia. rewrite num_leading by (intros; apply Hk; lia). f_equal. lia. }
    split.
    - destruct (decide (p + n ≤ 4)%nat); [done|exfalso]. pose proof (num_range u (Z.of_nat p + 1) (4 - p) Hd) as Hr. rewrite Ex in Hr.
      assert (Bn (4 - p) ≤ Bn (n - 1)) by (apply Z.pow_le_mono_r; [done|lia]). lia.
    - split; [|done]. intros k Hk'. destruct (decide (1 ≤ k)); [apply Hk; lia|apply Hneg; lia]. }
  assert (lead_u 4 u (4 - Z.of_nat n) 0 = if get u 1 =? 0 then if get u 2 =? 0 then if get u 3 =? 0 then
      if get u 4 =? 0 then Hang else Ok (4 - Z.of_nat n - 1 - 1 - 1, 3) else Ok (4 - Z.of_nat n - 1 - 1, 2)
    else Ok (4 - Z.of_nat n - 1, 1) else Ok (4 - Z.of_nat n, 0)) as -> by reflexivity.
  assert (∀ p c i, (p ≤ 3)%nat → c = 4 - Z.of_nat n - Z.of_nat p → i = Z.of_nat p → (∀ k, 1 ≤ k ≤ i → get u k = 0) →
    ∃ m, (m + n ≤ 4)%nat ∧ let uo := 4 - Z.of_nat m - Z.of_nat n in
    Ok (c, i) = Ok (Z.of_nat m, uo) ∧ (∀ k, k ≤ uo → get u k = 0) ∧
      num u (uo + 1) (m + n) = x) as Hfin.
  { intros p c i Hp -> -> Hk. destruct (Hlead p ltac:(lia) Hk) as (Hle & Hz & Hnum). exists (4 - n - p)%nat. split; [lia|]. cbn zeta.
    replace (4 - Z.of_nat (4 - n - p) - Z.of_nat n) with (Z.of_nat p) by lia. split; [do 2 f_equal; lia|]. split; [done|].
    by replace (4 - n - p + n)%nat with (4 - p)%nat by lia. }
  destruct (Z.eqb_spec (get u 1) 0) as [E1|E1]; [|apply (Hfin 0%nat); lia].
  destruct (Z.eqb_spec (get u 2) 0) as [E2|E2];
    [|apply (Hfin 1%nat); [lia..|]; intros k Hk; by replace k with 1 by lia].
  destruct (Z.eqb_spec (get u 3) 0) as [E3|E3];
    [|apply (Hfin 2%nat); [lia..|]; intros k Hk; assert (k = 1 ∨ k = 2) as [ -> | -> ] by lia; done].
  assert (∀ k, 1 ≤ k ≤ Z.of_nat 3 → get u k = 0) as H3
    by (intros k Hk; assert (k = 1 ∨ k = 2 ∨ k = 3) as [ -> |[ -> | -> ]] by lia; done).
  destruct (Z.eqb_spec (get u 4) 0) as [E4|E4]; [|by apply (Hfin 3%nat); [lia..|]].
  destruct (Hlead 4%nat) as [? _]; [lia| |lia]. intros k Hk. destruct (decide (k = 4)) as [->|]; [done|apply H3; lia].
Qed.

(** ** The division *)

Section qdivrem.
Context (v0 : Z) (qs : list Z).
Hypothesis v0_digit : digit v0.
Hypothesis q_space : digits qs ∧ zlen qs = 5.

Lemma qdivrem_long x y n' arq : is_u64 x → is_u64 y → y ≤ x → (n' ≤ 2)%nat →
  let v := split v0 y in let vo := 4 - Z.of_nat (S (S n')) in
  lead_v 4 v 0 = Ok (inr (Z.of_nat (S (S n')), vo)) → get v (vo + 1) ≠ 0 → num v (vo + 1) (S (S n')) = y → y ≠ 0 →
  __qdivrem v0 qs x y arq = Ok (x / y, if arq then Some (x mod y) else None).
Proof.
  intros Hx Hy Hle Hn v vo Elv Hfirst Hnum Hne. destruct (split_spec v0 y v0_digit Hy) as [Hdv _]. fold v in Hdv.
  assert (Bn (S n') ≤ x) as Hlow.
  { rewrite num_cons in Hnum. pose proof (num_range v (vo + 1 + 1) (S n') Hdv). pose proof (Bn_pos (S n')).
    pose proof (Hdv (vo + 1)) as Hd. unfold digit in Hd. nia. }
  destruct (lead_u_spec x (S (S n')) Hx ltac:(lia) ltac:(by replace (S (S n') - 1)%nat with (S n') by lia) ltac:(lia))
    as (m & Hfit & Elu & Hz & Hnu).
  destruct (split_spec 0 x ltac:(done) Hx) as [Hdu _].
  destruct (zero_q_spec (Z.to_nat (4 - Z.of_nat m)) qs (proj1 q_space) ltac:(destruct q_space; lia)) as (q & Eq & Hlq & Hdq & Hgq).
  assert (digits q ∧ zlen q = 5) as Hq by (split; [done|destruct q_space; lia]).
  assert (∀ k, 0 ≤ k < 4 - Z.of_nat m → get q k = 0) as Hqz.
  { intros k Hk. rewrite Hgq. by rewrite decide_True by lia. }
  destruct (normalize_ok x y n' m (split 0 x) v) as (d & u1 & v1 & En & Hd & Hnorm & Eshl); try done.
  destruct (divide_ok x y n' m (split 0 x) v q) with d u1 v1 as (u2 & q2 & Ediv & Hu2 & Hq2 & Equot & Hz2 & Hrem); try done; [lia|].
  pose proof (remainder_ok x y n' m) as Erem.
  specialize (Erem Hfit d u2 Hd Hu2 Hz2 Hrem).
  unfold __qdivrem. fold v. destruct (Z.eqb_spec y 0) as [|_]; [done|]. destruct (Z.ltb_spec x y) as [|_]; [lia|].
  cbv zeta. rewrite Elv, bind_of_Ok, Elu, bind_of_Ok, Eq, bind_of_Ok.
  assert (zlen v = 5) as Hlv by done. subst vo. rewrite (zget_get v) by lia. cbn [deref]. rewrite bind_of_Ok, En, bind_of_Ok, Eshl, bind_of_Ok.
  destruct Hnorm as (_ & [_ Hl1] & _). rewrite !(zget_get v1) by lia. cbn [deref]. rewrite !bind_of_Ok.
  replace (Z.to_nat (Z.of_nat m + 1)) with (S m) by lia. rewrite Ediv, bind_of_Ok, four_spec, Equot by apply Hq2.
  destruct arq; [rewrite Erem|]; by rewrite !bind_of_Ok.
Qed.

Lemma qdivrem_spec x y arq : is_u64 x → is_u64 y →
  __qdivrem v0 qs x y arq = if y =? 0 then Fault else Ok (x / y, if arq then Some (x mod y) else None).
Proof.
  intros Hx Hy. destruct (Z.eqb_spec y 0) as [->|Hne]; [done|]. destruct (decide (x < y)) as [Hlt|Hle].
  - unfold __qdivrem. destruct (Z.eqb_spec y 0) as [|_]; [done|]. destruct (Z.ltb_spec x y) as [_|]; [|lia].
    red in Hx. by rewrite Z.div_small, Z.mod_small by lia.
  - destruct (lead_v_spec v0 y Hy Hne v0_digit) as [[Elv Ey]|(n' & Hn & Elv & Hfirst & Hnum)].
    + destruct (split_spec v0 y v0_digit Hy) as [Hdv _]. destruct (split_spec 0 x ltac:(done) Hx) as [Hdu Eu].
      unfold __qdivrem. destruct (Z.eqb_spec y 0) as [|_]; [done|]. destruct (Z.ltb_spec x y) as [|_]; [lia|].
      cbv zeta. rewrite Elv, bind_of_Ok, zget_get by done. cbn [deref]. change (2 + 2) with 4. rewrite bind_of_Ok, Ey, div_one_spec, bind_of_Ok, Eu;
        [by destruct arq|done..|by rewrite <-Ey|done].
    + apply (qdivrem_long x y n'); [done..|lia|done|done|done|done|done].
Qed.

Lemma udivdi3_spec a b : is_u64 a → is_u64 b → __udivdi3 v0 qs a b = if b =? 0 then Fault else Ok (a / b).
Proof. intros Ha Hb. unfold __udivdi3. rewrite qdivrem_spec by done. by destruct (b =? 0). Qed.

Lemma umoddi3_spec a b : is_u64 a → is_u64 b → __umoddi3 v0 qs a b = if b =? 0 then Fault else Ok (a mod b).
Proof. intros Ha Hb. unfold __umoddi3. rewrite qdivrem_spec by done. by destruct (b =? 0). Qed.

(** What [ua = a; if (a < 0) ua = -ua] computes. *)
Lemma magnitude a : is_s64 a → (if a <? 0 then u64 (- u64 a) else u64 a) = Z.abs a ∧ is_u64 (Z.abs a).
Proof.
  intros Ha. unfold is_s64, is_u64, u64 in *. split; [|width; lia].
  destruct (Z.ltb_spec a 0).
  - rewrite <-(Z.mod_unique a two64 (-1) (a + two64)) by (width; lia). symmetry. apply (Z.mod_unique _ _ (-1)); width; lia.
  - rewrite Z.mod_small by (width; lia). lia.
Qed.

Lemma divdi3_spec a b : is_s64 a → is_s64 b → __divdi3 v0 qs a b = if b =? 0 then Fault else Ok (s64 (Z.quot a b)).
Proof.
  intros Ha Hb. destruct (magnitude a Ha) as [Ea Hua], (magnitude b Hb) as [Eb Hub]. unfold __divdi3.
  replace (if a <? 0 then _ else _) with (Z.abs a, a <? 0) by (rewrite <-Ea; by destruct (a <? 0)).
  replace (if b <? 0 then _ else _) with (Z.abs b, b <? 0) by (rewrite <-Eb; by destruct (b <? 0)).
  rewrite qdivrem_spec by done. destruct (Z.eqb_spec b 0) as [->|Hne]; [done|].
  destruct (Z.eqb_spec (Z.abs b) 0) as [|_]; [lia|]. rewrite bind_of_Ok. f_equal.
  rewrite Z.quot_div by done. destruct (Z.ltb_spec a 0), (Z.ltb_spec b 0); cbn [xorb]; rewrite ?s64_of_u64; f_equal.
  all: destruct (decide (a = 0)) as [->|]; [rewrite ?Z.div_0_l by lia; lia|].
  all: generalize (Z.abs a / Z.abs b); intros z; lia.
Qed.

Lemma moddi3_spec a b : is_s64 a → is_s64 b → __moddi3 v0 qs a b = if b =? 0 then Fault else Ok (Z.rem a b).
Proof.
  intros Ha Hb. destruct (magnitude a Ha) as [Ea Hua], (magnitude b Hb) as [Eb Hub]. unfold __moddi3. rewrite Eb.
  replace (if a <? 0 then _ else _) with (Z.abs a, a <? 0) by (rewrite <-Ea; by destruct (a <? 0)).
  rewrite qdivrem_spec by done. destruct (Z.eqb_spec b 0) as [->|Hne]; [done|].
  destruct (Z.eqb_spec (Z.abs b) 0) as [|_]; [lia|]. rewrite bind_of_Ok. cbn [deref]. rewrite bind_of_Ok. f_equal.
  transitivity (s64 (Z.rem a b)).
  - rewrite Z.rem_mod by done. destruct (Z.ltb_spec a 0); rewrite ?s64_of_u64; f_equal; [lia|].
    destruct (decide (a = 0)) as [->|]; [rewrite Z.mod_0_l by lia; lia|lia].
  - apply s64_id. pose proof (Z.rem_bound_abs a b Hne). unfold is_s64 in *. lia.
Qed.

End qdivrem.

(** C26: The 64-bit divisions of the compiler's run-time library are exact. Whatever the uninitialised digit
    [vspace[0]] and the uninitialised quotient digits hold, the unsigned division and modulus are those of
    the integers, the signed ones round towards zero with the sign of the dividend on the remainder, wrapping
    only for [LLONG_MIN / -1], and a zero divisor traps. No digit outside the arrays is read or written. *)
Theorem millicode_divides v0 qs a b : digit v0 → digits qs → zlen qs = 5 →
  (is_u64 a → is_u64 b →
    __udivdi3 v0 qs a b = (if b =? 0 then Fault else Ok (a / b)) ∧
    __umoddi3 v0 qs a b = (if b =? 0 then Fault else Ok (a mod b))) ∧
  (is_s64 a → is_s64 b →
    __divdi3 v0 qs a b = (if b =? 0 then Fault else Ok (s64 (Z.quot a b))) ∧
    __moddi3 v0 qs a b = (if b =? 0 then Fault else Ok (Z.rem a b))).
Proof.
  intros H0 Hq Hl. split; intros Ha Hb.
  - by rewrite udivdi3_spec, umoddi3_spec.
  - by rewrite divdi3_spec, moddi3_spec.
Qed.

Lemma millicode_divides_witness :
  __udivdi3 7 [1; 2; 3; 4; 5] 18446744073709551615 4294967297 = Ok 4294967295 ∧
  __moddi3 7 [1; 2; 3; 4; 5] (-7) 2 = Ok (-1).
Proof.
  assert (digits [1; 2; 3; 4; 5]) as Hd by (apply digits_list; repeat constructor; unfold B; lia).
  destruct (millicode_divides 7 [1; 2; 3; 4; 5] 18446744073709551615 4294967297 ltac:(done) Hd eq_refl) as [Hu _].
  destruct (millicode_divides 7 [1; 2; 3; 4; 5] (-7) 2 ltac:(done) Hd eq_refl) as [_ Hs].
  destruct Hu as [-> _]; [done..|]. destruct Hs as [_ ->]; done.
Defined.
