(* ===== verification/Syscall.v ===== *)
(** * System call dispatch

    Models asst2/kern/arch/mips/syscall/syscall.c: the calling convention
    between user programs and the calls of File.v, and the two calls that were
    there before ([sys_reboot] in main.c and [sys___time] in time_syscalls.c). *)

From S2P Require Import Prelude Bswap File FileSpec.

(** The registers the dispatcher uses; [tf_rest] are the others. *)
Record trapframe := Trapframe {
  tf_v0 : Z; tf_v1 : Z;
  tf_a0 : Z; tf_a1 : Z; tf_a2 : Z; tf_a3 : Z;
  tf_sp : Z; tf_epc : Z;
  tf_rest : list Z
}.

(** The fields of the current thread the dispatcher checks. *)
Record thread := Thread { t_curspl : Z; t_iplhigh_count : Z }.

(** User memory and the clock. *)
Class UserEnv `{Vfs} := {
  copyin32 : Z → world → Z * Z;
  copyout64 : Z → Z → world → Z * world;
  copyout32 : Z → Z → world → Z * world;
  gettime : world → Z * Z * world
}.

Definition RB_REBOOT : Z := 0.
Definition RB_HALT : Z := 1.
Definition RB_POWEROFF : Z := 2.

Definition SYS_open : Z := 45.
Definition SYS_dup2 : Z := 48.
Definition SYS_close : Z := 49.
Definition SYS_read : Z := 50.
Definition SYS_write : Z := 55.
Definition SYS_lseek : Z := 59.
Definition SYS___time : Z := 113.
Definition SYS_reboot : Z := 119.

Section syscall.
Context `{FAlloc} `{!UserEnv}.
Implicit Types (s : fstate) (tf : trapframe).

(** A valid code stops the machine. *)
Definition sys_reboot (code : Z) : outcome Z :=
  if (code =? RB_REBOOT) || (code =? RB_HALT) || (code =? RB_POWEROFF) then Panic else Ok EINVAL.

Definition sys___time (user_seconds_ptr user_nanoseconds_ptr : Z) s : Z * fstate :=
  let '(tv_sec, tv_nsec, w) := gettime (vw s) in
  let '(result, w) := copyout64 tv_sec user_seconds_ptr w in
  if negb (result =? 0) then (result, with_vw w s)
  else
    let '(result, w) := copyout32 tv_nsec user_nanoseconds_ptr w in
    if negb (result =? 0) then (result, with_vw w s) else (0, with_vw w s).

(** The [switch]: error code, whether the result is 64 bits wide, the result and
    the state. *)
Definition dispatch tf s : outcome (Z * bool * Z * fstate) :=
  let callno := s32 (tf_v0 tf) in
  let ret32 (m : outcome (Z * Z * fstate)) : outcome (Z * bool * Z * fstate) :=
    '(err, retval, s) ← m; Ok (err, false, retval, s) in
  if callno =? SYS_reboot then
    err ← sys_reboot (s32 (tf_a0 tf));
    Ok (err, false, 0, s)
  else if callno =? SYS___time then
    let '(err, s) := sys___time (tf_a0 tf) (tf_a1 tf) s in
    Ok (err, false, 0, s)
  else if callno =? SYS_open then ret32 (sys_open (tf_a0 tf) (s32 (tf_a1 tf)) (tf_a2 tf) s)
  else if callno =? SYS_read then ret32 (sys_read (s32 (tf_a0 tf)) (tf_a1 tf) (tf_a2 tf) s)
  else if callno =? SYS_write then ret32 (sys_write (s32 (tf_a0 tf)) (tf_a1 tf) (tf_a2 tf) s)
  else if callno =? SYS_lseek then
    let '(err, whence) := copyin32 (u32 (tf_sp tf + 16)) (vw s) in
    if err =? 0 then
      let pos := s64 (join32to64 (tf_a2 tf) (tf_a3 tf)) in
      '(err, retvall, s) ← sys_lseek (s32 (tf_a0 tf)) pos (s32 whence) s;
      Ok (err, true, retvall, s)
    else Ok (err, false, 0, s)
  else if callno =? SYS_close then ret32 (sys_close (s32 (tf_a0 tf)) s)
  else if callno =? SYS_dup2 then ret32 (sys_dup2 (s32 (tf_a0 tf)) (s32 (tf_a1 tf)) s)
  else Ok (ENOSYS, false, 0, s).

Definition syscall (curthread : thread) tf s : outcome (trapframe * fstate) :=
  _ ← kassert (t_curspl curthread =? 0);
  _ ← kassert (t_iplhigh_count curthread =? 0);
  '(err, is_ret_64, retval, s) ← dispatch tf s;
  let tf :=
    if negb (err =? 0) then
      Trapframe (u32 err) (tf_v1 tf) (tf_a0 tf) (tf_a1 tf) (tf_a2 tf) 1 (tf_sp tf) (tf_epc tf) (tf_rest tf)
    else if (is_ret_64 : bool) then
      let '(hi, lo) := split64to32 (u64 retval) in
      Trapframe hi lo (tf_a0 tf) (tf_a1 tf) (tf_a2 tf) 0 (tf_sp tf) (tf_epc tf) (tf_rest tf)
    else
      Trapframe (u32 retval) (tf_v1 tf) (tf_a0 tf) (tf_a1 tf) (tf_a2 tf) 0 (tf_sp tf) (tf_epc tf) (tf_rest tf) in
  let tf :=
    Trapframe (tf_v0 tf) (tf_v1 tf) (tf_a0 tf) (tf_a1 tf) (tf_a2 tf) (tf_a3 tf) (tf_sp tf)
      (u32 (tf_epc tf + 4)) (tf_rest tf) in
  _ ← kassert (t_curspl curthread =? 0);
  _ ← kassert (t_iplhigh_count curthread =? 0);
  Ok (tf, s).

End syscall.

(** ** The convention as seen by a user program *)

(** What the stub of the C library makes of the registers after a call. *)
Inductive user_result := UError (errno : Z) | UValue (v : Z).

Definition result32 (tf : trapframe) : user_result :=
  if tf_a3 tf =? 0 then UValue (s32 (tf_v0 tf)) else UError (tf_v0 tf).

Definition result64 (tf : trapframe) : user_result :=
  if tf_a3 tf =? 0 then UValue (s64 (join32to64 (tf_v0 tf) (tf_v1 tf))) else UError (tf_v0 tf).

(** Registers a call with 32-bit arguments is made with. *)
Definition call32 (callno a0 a1 a2 : Z) (tf : trapframe) : trapframe :=
  Trapframe (u32 callno) (tf_v1 tf) (u32 a0) (u32 a1) (u32 a2) (tf_a3 tf) (tf_sp tf) (tf_epc tf) (tf_rest tf).

(** Registers [lseek(fd, pos, whence)] is called with: the 64-bit argument is in
    an aligned pair and [whence] is on the stack. *)
Definition call_lseek (fd pos : Z) (tf : trapframe) : trapframe :=
  let '(hi, lo) := split64to32 (u64 pos) in
  Trapframe (u32 SYS_lseek) (tf_v1 tf) (u32 fd) (tf_a1 tf) hi lo (tf_sp tf) (tf_epc tf) (tf_rest tf).

Definition idle : thread := Thread 0 0.

(** The result of a call, as the user program should see it. *)
Definition as_result (err ret : Z) : user_result :=
  if err =? 0 then UValue ret else UError (u32 err).

(** ** Lemmas *)

Lemma s32_u32 x : is_s32 x → s32 (u32 x) = x.
Proof.
  intros Hx. unfold s32, u32. rewrite Z.add_mod_idemp_l by done.
  rewrite Z.mod_small; unfold is_s32, two31, two32 in *; lia.
Qed.

Lemma s64_u64 x : is_s64 x → s64 (u64 x) = x.
Proof.
  intros Hx. unfold s64, u64. rewrite Z.add_mod_idemp_l by done.
  rewrite Z.mod_small; unfold is_s64, two63, two64 in *; lia.
Qed.

Lemma u64_range x : is_u64 (u64 x).
Proof. apply Z.mod_pos_bound. done. Qed.

Lemma split_range x : is_u64 x → is_u32 (split64to32 x).1 ∧ is_u32 (split64to32 x).2.
Proof.
  intros Hx. rewrite split64to32_spec by done. simpl. split; [|apply Z.mod_pos_bound; done].
  split; [apply Z.div_pos; width|]. apply Z.div_lt_upper_bound; width.
Qed.

Lemma join_split x : is_u64 x → join32to64 (split64to32 x).1 (split64to32 x).2 = x.
Proof.
  intros Hx. destruct (split_range x Hx) as [H1 H2]. rewrite join32to64_spec by done.
  rewrite split64to32_spec by done. simpl. pose proof (Z.div_mod x two32 ltac:(done)). lia.
Qed.

(** The registers the call itself does not define. *)
Definition same_frame (tf tf' : trapframe) : Prop :=
  tf_a0 tf' = tf_a0 tf ∧ tf_a1 tf' = tf_a1 tf ∧ tf_a2 tf' = tf_a2 tf ∧ tf_sp tf' = tf_sp tf ∧
  tf_rest tf' = tf_rest tf ∧ tf_epc tf' = u32 (tf_epc tf + 4).

Section syscall_lemmas.
Context `{FAlloc} `{!UserEnv}.

Lemma syscall_result tf s err (wide : bool) ret s' :
  dispatch tf s = Ok (err, wide, ret, s') → (if wide then is_s64 ret else is_s32 ret) →
  ∃ tf', syscall idle tf s = Ok (tf', s') ∧ same_frame tf tf' ∧
    (if wide then result64 tf' else result32 tf') = as_result err ret.
Proof.
  intros Hd Hret. unfold syscall. simpl. rewrite Hd. simpl.
  eexists. split; [reflexivity|]. unfold as_result. destruct (err =? 0); simpl.
  - destruct wide; simpl.
    + split; [done|]. unfold result64. cbn [tf_a3 tf_v0 tf_v1]. change (0 =? 0) with true. cbn iota. f_equal.
      transitivity (s64 (u64 ret)); [f_equal; exact (join_split _ (u64_range ret))|by apply s64_u64].
    + split; [done|]. unfold result32. cbn [tf_a3 tf_v0]. change (0 =? 0) with true. cbn iota.
      f_equal. by apply s32_u32.
  - split; [done|]. by destruct wide.
Qed.

Lemma dispatch_ret32 tf s m :
  dispatch tf s = ('(err, retval, s) ← m; Ok (err, false, retval, s)) →
  ∀ err ret s', m = Ok (err, ret, s') → is_s32 ret →
  ∃ tf', syscall idle tf s = Ok (tf', s') ∧ same_frame tf tf' ∧ result32 tf' = as_result err ret.
Proof.
  intros Hd err ret s' -> Hr. exact (syscall_result tf s err false ret s' Hd Hr).
Qed.

(** [lseek] through the dispatcher. *)
Lemma lseek_abi tf s fd pos whence err ret s' :
  is_s32 fd → is_s64 pos → is_s32 whence → is_s64 ret →
  copyin32 (u32 (tf_sp tf + 16)) (vw s) = (0, u32 whence) → sys_lseek fd pos whence s = Ok (err, ret, s') →
  ∃ tf', syscall idle (call_lseek fd pos tf) s = Ok (tf', s') ∧
    same_frame (call_lseek fd pos tf) tf' ∧ result64 tf' = as_result err ret.
Proof.
  intros Hfd Hpos Hwh Hret Hstack Hcall. refine (syscall_result _ s err true ret s' _ Hret).
  unfold call_lseek. pose proof (join_split (u64 pos) (u64_range pos)) as Hj.
  destruct (split64to32 (u64 pos)) as [hi lo]. simpl in Hj.
  unfold dispatch. cbn [tf_v0 tf_a0 tf_a2 tf_a3 tf_sp]. rewrite Hstack, Hj.
  rewrite (s32_u32 fd), (s32_u32 whence), (s64_u64 pos) by done.
  change (s32 (u32 SYS_lseek)) with SYS_lseek. simpl. by rewrite Hcall.
Qed.

Lemma lseek_no_stack tf s fd pos e x :
  copyin32 (u32 (tf_sp tf + 16)) (vw s) = (e, x) → e ≠ 0 →
  ∃ tf', syscall idle (call_lseek fd pos tf) s = Ok (tf', s) ∧
    same_frame (call_lseek fd pos tf) tf' ∧ result64 tf' = UError (u32 e).
Proof.
  intros Hstack He. assert (dispatch (call_lseek fd pos tf) s = Ok (e, false, 0, s)) as Hd.
  { unfold call_lseek. destruct (split64to32 (u64 pos)) as [hi lo]. unfold dispatch. cbn [tf_v0 tf_sp]. rewrite Hstack.
    change (s32 (u32 SYS_lseek)) with SYS_lseek. simpl. by rewrite (proj2 (Z.eqb_neq e 0)). }
  destruct (syscall_result _ s e false 0 s Hd ltac:(width)) as (tf' & E & Hf & Hr). exists tf'. split; [done|]. split; [done|].
  unfold as_result in Hr. rewrite (proj2 (Z.eqb_neq e 0)) in Hr by done. unfold result32, result64 in *. by destruct (tf_a3 tf' =? 0).
Qed.

End syscall_lemmas.

Section properties.
Context `{FAlloc} `{!UserEnv}.
Implicit Types (s : fstate) (tf : trapframe).

(** What a user program sees of a call that returned [err] and [ret] in the kernel: the
    result registers hold them, every other register is kept, and the program
    continues after the call instruction. *)
Definition abi_return tf s (m : outcome (Z * Z * fstate)) : Prop :=
  ∀ err ret s', m = Ok (err, ret, s') → is_s32 ret →
    ∃ tf', syscall idle tf s = Ok (tf', s') ∧ same_frame tf tf' ∧ result32 tf' = as_result err ret.

(** C35: the registers of a file call carry its arguments to the kernel and its
    result back, for all six calls.  A program gets exactly the result of the
    modelled call on its arguments, or its error number; the registers other than
    v0, v1 and a3 are kept and it continues after the call instruction.  The
    64-bit position of [lseek] travels in the register pair a2/a3, its [whence] on
    the stack and its 64-bit result in v0/v1, all with their sign; if the stack
    cannot be read, [lseek] fails with the error of the copy and changes nothing. *)
Theorem file_calls_abi tf s a0 a1 a2 pos (Ha0 : is_s32 a0) (Ha1 : is_s32 a1) (Hpos : is_s64 pos) :
  abi_return (call32 SYS_open a0 a1 a2 tf) s (sys_open (u32 a0) a1 (u32 a2) s) ∧
  abi_return (call32 SYS_read a0 a1 a2 tf) s (sys_read a0 (u32 a1) (u32 a2) s) ∧
  abi_return (call32 SYS_write a0 a1 a2 tf) s (sys_write a0 (u32 a1) (u32 a2) s) ∧
  abi_return (call32 SYS_close a0 a1 a2 tf) s (sys_close a0 s) ∧
  abi_return (call32 SYS_dup2 a0 a1 a2 tf) s (sys_dup2 a0 a1 s) ∧
  (∀ whence err ret s', copyin32 (u32 (tf_sp tf + 16)) (vw s) = (0, u32 whence) → is_s32 whence →
     sys_lseek a0 pos whence s = Ok (err, ret, s') → is_s64 ret →
     ∃ tf', syscall idle (call_lseek a0 pos tf) s = Ok (tf', s') ∧
       same_frame (call_lseek a0 pos tf) tf' ∧ result64 tf' = as_result err ret) ∧
  (∀ e x, copyin32 (u32 (tf_sp tf + 16)) (vw s) = (e, x) → e ≠ 0 →
     ∃ tf', syscall idle (call_lseek a0 pos tf) s = Ok (tf', s) ∧
       same_frame (call_lseek a0 pos tf) tf' ∧ result64 tf' = UError (u32 e)).
Proof.
  split_and!; try (intros err ret s' Hm Hr; refine (dispatch_ret32 _ _ _ _ _ _ _ Hm Hr);
    unfold dispatch; cbn [call32 tf_v0 tf_a0 tf_a1 tf_a2]; rewrite ?(s32_u32 a0), ?(s32_u32 a1) by done; reflexivity).
  - intros whence err ret s' Hst Hwh Hm Hr. by apply (lseek_abi tf s a0 pos whence).
  - intros e x Hst He. by apply (lseek_no_stack tf s a0 pos e x).
Qed.

(** A call number the kernel does not know fails with ENOSYS and changes
    nothing but the result registers and the program counter. *)
Theorem unknown_call_enosys tf s
  (Hno : s32 (tf_v0 tf) ∉ [SYS_reboot; SYS___time; SYS_open; SYS_read; SYS_write; SYS_lseek; SYS_close; SYS_dup2]) :
  ∃ tf', syscall idle tf s = Ok (tf', s) ∧ same_frame tf tf' ∧ result32 tf' = UError ENOSYS.
Proof.
  refine (syscall_result tf s ENOSYS false 0 s _ _); [|width].
  unfold dispatch. rewrite !not_elem_of_cons in Hno. destruct Hno as (?&?&?&?&?&?&?&?&_).
  by rewrite !(proj2 (Z.eqb_neq _ _)) by done.
Qed.

End properties.

(** ** A user program at work

    The stack of the program holds the word 2 (SEEK_END) everywhere. *)

#[export] Instance demo_env : UserEnv := {
  copyin32 ptr w := (0, 2);
  copyout64 v ptr w := (0, w);
  copyout32 v ptr w := (0, w);
  gettime w := (0, 0, w)
}.

Definition demo_tf : trapframe := Trapframe 0 0 0 0 0 0 2147483000 4194400 [].

Definition demo_seek : fstate := (from_ok (0, 0, demo_open) (sys_lseek 3 (-10) SEEK_END demo_open)).2.

Lemma demo_seek_eq : sys_lseek 3 (-10) SEEK_END demo_open = Ok (0, 90, demo_seek).
Proof. eval_eq. Qed.

Lemma file_calls_abi_witness :
  (∃ tf', syscall idle (call32 SYS_open 0 O_RDWR 0 demo_tf) demo_std = Ok (tf', demo_open) ∧
     same_frame (call32 SYS_open 0 O_RDWR 0 demo_tf) tf' ∧ result32 tf' = UValue 3) ∧
  ∃ tf', syscall idle (call_lseek 3 (-10) demo_tf) demo_open = Ok (tf', demo_seek) ∧
    same_frame (call_lseek 3 (-10) demo_tf) tf' ∧ result64 tf' = UValue 90.
Proof.
  assert (is_s32 0 ∧ is_s32 3 ∧ is_s32 O_RDWR ∧ is_s64 (-10) ∧ is_s32 SEEK_END ∧ is_s64 90) as (H0 & H3 & Hrw & Hp & Hse & H90)
    by (unfold is_s32, is_s64, two31, two63, SEEK_END, O_RDWR; lia).
  destruct (file_calls_abi demo_tf demo_std 0 O_RDWR 0 (-10) H0 Hrw Hp) as (Hopen & _).
  destruct (file_calls_abi demo_tf demo_open 3 O_RDWR 0 (-10) H3 Hrw Hp) as (_ & _ & _ & _ & _ & Hseek & _).
  split; [exact (Hopen 0 3 demo_open demo_open_eq H3)|exact (Hseek SEEK_END 0 90 demo_seek eq_refl Hse demo_seek_eq H90)].
Defined.

Lemma unknown_call_enosys_witness :
  ∃ tf', syscall idle demo_tf demo_std = Ok (tf', demo_std) ∧ result32 tf' = UError ENOSYS.
Proof.
  destruct (unknown_call_enosys demo_tf demo_std) as (tf' & H1 & _ & H2).
  - rewrite !not_elem_of_cons. split_and!; try discriminate. apply not_elem_of_nil.
  - exists tf'. split; [exact H1|exact H2].
Defined.
