(* ===== verification/Queue.v ===== *)
(** * The queue of the bar

    Models asst1/queue.c: a queue of pointers in a ring buffer that doubles when
    it is full.  The abstract queue is the list [q_list], and every operation is
    shown to implement the corresponding operation on lists. *)

From S2P Require Import Prelude.

Record queue := Queue {
  size : Z;
  nextwrite : Z;
  nextread : Z;
  data : list Z
}.

(** [kmalloc] for an array of pointers: [None] is [NULL], otherwise the block of
    the given number of bytes with whatever it contains. *)
Class QAlloc := q_kmalloc : Z → option (list Z).

Class QAllocLaws `{QAlloc} := {
  q_kmalloc_len n l : q_kmalloc n = Some l → zlen l = n / 4
}.

Section queue.
Context `{QAlloc}.
Implicit Types (q : queue).

(** The loop that doubles the size: [None] when it does not end within the fuel. *)
Fixpoint grow_size (fuel : nat) (nsize targetsize : Z) : outcome Z :=
  if nsize <? targetsize then
    match fuel with
    | O => Hang
    | S fuel =>
        let nsize := s32 (nsize * 2) in
        _ ← kassert (0 <? nsize);
        grow_size fuel nsize targetsize
    end
  else Ok nsize.

Section grow.
Variable addtail : queue → Z → outcome (Z * queue).

(** The loop that moves the elements over. *)
Fixpoint copy_loop (fuel : nat) (i onw osize : Z) (olddata : list Z) q : outcome queue :=
  if i =? onw then Ok q
  else
    match fuel with
    | O => Hang
    | S fuel =>
        x ← deref (zget olddata i);
        '(result, q) ← addtail q x;
        _ ← kassert (result =? 0);
        copy_loop fuel (Z.rem (i + 1) osize) onw osize olddata q
    end.

Definition q_grow q (targetsize : Z) : outcome (Z * queue) :=
  let olddata := data q in
  let onr := nextread q in
  let onw := nextwrite q in
  let osize := size q in
  nsize ← grow_size 32 (size q) targetsize;
  match q_kmalloc (u32 (nsize * 4)) with
  | None => Ok (ENOMEM, q)
  | Some ndata =>
      q ← copy_loop (Z.to_nat osize) onr onw osize olddata (Queue nsize 0 0 ndata);
      Ok (0, q)
  end.

End grow.

(** [q_addtail] and [q_grow] call each other; [fuel] bounds the depth. *)
Fixpoint q_addtail_fuel (fuel : nat) q (ptr : Z) : outcome (Z * queue) :=
  _ ← kassert (0 <? size q);
  let nextnext := Z.rem (nextwrite q + 1) (size q) in
  '(result, q, nextnext) ←
    (if nextnext =? nextread q then
       match fuel with
       | O => Hang
       | S fuel =>
           '(result, q) ← q_grow (q_addtail_fuel fuel) q (s32 (size q + 1));
           Ok (result, q, if result =? 0 then Z.rem (nextwrite q + 1) (size q) else nextnext)
       end
     else Ok (0, q, nextnext));
  if negb (result =? 0) then Ok (result, q)
  else
    d ← zput (data q) (nextwrite q) ptr;
    Ok (0, Queue (size q) nextnext (nextread q) d).

Definition q_addtail q (ptr : Z) : outcome (Z * queue) := q_addtail_fuel 1 q ptr.

(** The first block [kmalloc] returns is the [struct queue] itself. *)
Definition q_create (sz : Z) : option queue :=
  match q_kmalloc 16 with
  | None => None
  | Some _ =>
      match q_kmalloc (u32 (sz * 4)) with
      | None => None
      | Some d => Some (Queue sz 0 0 d)
      end
  end.

Definition q_preallocate q (sz : Z) : outcome (Z * queue) :=
  _ ← kassert (0 <? size q);
  if size q <? sz then q_grow q_addtail q sz else Ok (0, q).

Definition q_empty q : bool := nextwrite q =? nextread q.

Definition q_remhead q : outcome (Z * queue) :=
  _ ← kassert (0 <? size q);
  _ ← kassert (negb (q_empty q));
  ret ← deref (zget (data q) (nextread q));
  Ok (ret, Queue (size q) (nextwrite q) (Z.rem (nextread q + 1) (size q)) (data q)).

(** The queue must be empty; its memory is returned. *)
Definition q_destroy q : outcome unit := kassert (q_empty q).

Definition q_getstart q : Z := nextread q.
Definition q_getend q : Z := nextwrite q.
Definition q_getsize q : Z := size q.

Definition q_getguy q (index : Z) : outcome Z :=
  _ ← kassert ((0 <=? index) && (index <? size q));
  deref (zget (data q) index).

Definition q_peek q : outcome Z :=
  _ ← kassert (0 <? size q);
  if q_empty q then Ok 0 else deref (zget (data q) (nextread q)).

(** The loop of [q_len]. *)
Fixpoint len_loop (fuel : nat) (tmp count : Z) q : outcome Z :=
  if tmp =? nextwrite q then Ok count
  else
    match fuel with
    | O => Hang
    | S fuel => len_loop fuel (Z.rem (tmp + 1) (size q)) (count + 1) q
    end.

Definition q_len q : outcome Z := len_loop (Z.to_nat (size q)) (nextread q) 0 q.

End queue.

(** ** The abstract queue *)

Definition q_count (q : queue) : Z := (nextwrite q - nextread q) mod size q.

Definition q_slot (q : queue) (k : Z) : Z :=
  default 0 (zget (data q) ((nextread q + k) mod size q)).

Definition q_list (q : queue) : list Z := map (q_slot q) (seqZ 0 (q_count q)).

(** Sizes stay below a quarter of the address space. *)
Definition q_wf (q : queue) : Prop :=
  0 < size q < 536870912 ∧ 0 ≤ nextread q < size q ∧ 0 ≤ nextwrite q < size q ∧
  zlen (data q) = size q.

(** ** Modular arithmetic of the ring *)

Lemma rem_succ i n : 0 ≤ i < n → Z.rem (i + 1) n = if decide (i + 1 = n) then 0 else i + 1.
Proof.
  intros Hi. rewrite Z.rem_mod_nonneg by lia. case_decide as Hd.
  - rewrite Hd. by rewrite Z.mod_same by lia.
  - by rewrite Z.mod_small by lia.
Qed.

Lemma mod_diff a b n :
  0 ≤ a < n → 0 ≤ b < n → (a - b) mod n = if decide (b ≤ a) then a - b else a - b + n.
Proof.
  intros Ha Hb. case_decide.
  - by rewrite Z.mod_small by lia.
  - symmetry. apply (Z.mod_unique _ _ (-1)); lia.
Qed.

Lemma mod_shift a k n :
  0 ≤ a < n → 0 ≤ k < n → (a + k) mod n = if decide (a + k < n) then a + k else a + k - n.
Proof.
  intros Ha Hk. case_decide.
  - by rewrite Z.mod_small by lia.
  - symmetry. apply (Z.mod_unique _ _ 1); lia.
Qed.

(** From [a], the slots before [w] and the slot [w] itself. *)
Lemma ring_before a w n k :
  0 ≤ a < n → 0 ≤ w < n → 0 ≤ k < (w - a) mod n → (a + k) mod n ≠ w.
Proof.
  intros Ha Hw. rewrite mod_diff by lia. intros Hk.
  rewrite mod_shift by (case_decide; lia). repeat case_decide; lia.
Qed.

Lemma ring_at a w n : 0 ≤ a < n → 0 ≤ w < n → (a + (w - a) mod n) mod n = w.
Proof.
  intros Ha Hw. rewrite Z.add_mod_idemp_r by lia. replace (a + (w - a)) with w by lia.
  by apply Z.mod_small.
Qed.

(** One step of the write position. *)
Lemma ring_room a w n :
  0 ≤ a < n → 0 ≤ w < n → (w - a) mod n + 1 < n →
  0 ≤ Z.rem (w + 1) n < n ∧ Z.rem (w + 1) n ≠ a ∧ (Z.rem (w + 1) n - a) mod n = (w - a) mod n + 1.
Proof.
  intros Ha Hw. rewrite rem_succ by lia. rewrite (mod_diff w a) by lia. intros Hr.
  split_and!; repeat case_decide; try lia; rewrite mod_diff by lia; case_decide; lia.
Qed.

(** One step of the read position. *)
Lemma ring_step a w n :
  0 ≤ a < n → 0 ≤ w < n → a ≠ w →
  0 ≤ Z.rem (a + 1) n < n ∧ (w - Z.rem (a + 1) n) mod n = (w - a) mod n - 1.
Proof.
  intros Ha Hw Hne. rewrite rem_succ by lia. rewrite (mod_diff w a) by lia.
  split_and!; repeat case_decide; try lia; rewrite mod_diff by lia; case_decide; lia.
Qed.

Lemma ring_shift a k n : 0 ≤ a < n → 0 ≤ k → (Z.rem (a + 1) n + k) mod n = (a + (k + 1)) mod n.
Proof.
  intros Ha Hk. rewrite Z.rem_mod_nonneg by lia. rewrite Z.add_mod_idemp_l by lia. f_equal. lia.
Qed.

Lemma q_count_range q : q_wf q → 0 ≤ q_count q < size q.
Proof. intros (? & _). apply Z.mod_pos_bound. lia. Qed.

Lemma q_empty_count q : q_wf q → q_empty q = true ↔ q_count q = 0.
Proof.
  intros (? & ? & ? & _). unfold q_empty, q_count. rewrite Z.eqb_eq, mod_diff by lia.
  case_decide; lia.
Qed.

Lemma length_q_list q : q_wf q → Z.of_nat (length (q_list q)) = q_count q.
Proof.
  intros Hwf. unfold q_list. rewrite length_map, length_seqZ.
  pose proof (q_count_range q Hwf). lia.
Qed.

Lemma q_list_lookup q k : q_wf q → 0 ≤ k < q_count q → zget (q_list q) k = Some (q_slot q k).
Proof. intros Hwf Hk. unfold q_list. by apply zget_map_seqZ. Qed.

(** The slot of a well-formed queue is an element of the array. *)
Lemma q_slot_data q k :
  q_wf q → 0 ≤ k < size q → zget (data q) ((nextread q + k) mod size q) = Some (q_slot q k).
Proof.
  intros (Hs & Hr & Hw & Hl) Hk. unfold q_slot.
  destruct (zget_range (data q) ((nextread q + k) mod size q)) as [x ->]; [|done].
  rewrite Hl. apply Z.mod_pos_bound. lia.
Qed.

Section queue_lemmas.
Context `{QAllocLaws}.

(** Adding to a queue with a free slot. *)
Lemma push_spec fuel q x :
  q_wf q → q_count q + 1 < size q →
  ∃ q', q_addtail_fuel fuel q x = Ok (0, q') ∧ q_wf q' ∧ size q' = size q ∧
    q_list q' = q_list q ++ [x].
Proof.
  intros Hwf Hroom. pose proof Hwf as (Hs & Hr & Hw & Hl).
  destruct (ring_room (nextread q) (nextwrite q) (size q) Hr Hw Hroom) as (Hn' & Hne & Hc).
  set (q' := Queue (size q) (Z.rem (nextwrite q + 1) (size q)) (nextread q)
    (zset (data q) (nextwrite q) x)).
  assert (q_addtail_fuel fuel q x = Ok (0, q')) as ->.
  { destruct fuel; cbn [q_addtail_fuel]; rewrite (proj2 (Z.ltb_lt _ _)) by lia;
      cbn [kassert mbind outcome_bind];
      rewrite (proj2 (Z.eqb_neq _ _)) by done; cbn [kassert mbind outcome_bind negb Z.eqb];
      rewrite (proj2 (zput_Ok _ _ _ _)) by (split; [lia|done]); done. }
  exists q'. split; [done|].
  change (q_count q' = q_count q + 1) in Hc.
  split; [unfold q_wf; simpl; rewrite zlen_zset; lia|]. split; [done|].
  pose proof (q_count_range q Hwf) as Hcr.
  unfold q_list. rewrite Hc, seqZ_app, map_app by lia.
  f_equal.
  - apply map_ext_in. intros k Hk%list_elem_of_In%elem_of_seqZ. unfold q_slot. simpl. f_equal.
    rewrite zget_zset_ne; [done|]. apply not_eq_sym, ring_before; [done..|]. exact Hk.
  - change (seqZ (0 + q_count q) 1) with [0 + q_count q]. simpl. f_equal. unfold q_slot. simpl.
    rewrite Z.add_0_l.
    replace ((nextread q + q_count q) mod size q) with (nextwrite q).
    + by rewrite zget_zset_eq by lia.
    + symmetry. by apply ring_at.
Qed.

(** Removing the first element. *)
Lemma pop_spec q x l :
  q_wf q → q_list q = x :: l →
  ∃ q', q_remhead q = Ok (x, q') ∧ q_wf q' ∧ size q' = size q ∧ q_list q' = l.
Proof.
  intros Hwf Hlist. pose proof Hwf as (Hs & Hr & Hw & Hl).
  pose proof (length_q_list q Hwf) as Hlen. rewrite Hlist in Hlen. simpl in Hlen.
  pose proof (q_list_lookup q 0 Hwf ltac:(lia)) as Hx. rewrite Hlist in Hx. injection Hx as Hx.
  assert (nextread q ≠ nextwrite q) as Hne.
  { intros Heq. unfold q_count in Hlen. rewrite Heq, Z.sub_diag, Z.mod_0_l in Hlen by lia. lia. }
  destruct (ring_step (nextread q) (nextwrite q) (size q) Hr Hw Hne) as [Hr' Hc].
  set (q' := Queue (size q) (nextwrite q) (Z.rem (nextread q + 1) (size q)) (data q)).
  change (q_count q' = q_count q - 1) in Hc. exists q'. split_and!; [| |done|].
  - unfold q_remhead, q_empty. rewrite (proj2 (Z.ltb_lt _ _)) by lia.
    rewrite (proj2 (Z.eqb_neq _ _)) by congruence. cbn [kassert mbind outcome_bind negb].
    pose proof (q_slot_data q 0 Hwf ltac:(lia)) as Hd.
    rewrite Z.add_0_r, Z.mod_small in Hd by lia. rewrite Hd. simpl. by rewrite Hx.
  - unfold q_wf. simpl. lia.
  - unfold q_list in *. rewrite Hc. rewrite (seqZ_cons 0 (q_count q)) in Hlist by lia.
    simpl in Hlist. injection Hlist as _ <-.
    replace (seqZ (Z.succ 0) (Z.pred (q_count q))) with (Z.add 1 <$> seqZ 0 (q_count q - 1)).
    + change (map (q_slot q) (Z.add 1 <$> seqZ 0 (q_count q - 1)))
        with (q_slot q <$> (Z.add 1 <$> seqZ 0 (q_count q - 1))).
      rewrite <-list_fmap_compose. apply map_ext_in. intros k Hk%list_elem_of_In%elem_of_seqZ.
      unfold q_slot. simpl. do 2 f_equal. rewrite ring_shift by lia. f_equal. lia.
    + rewrite fmap_add_seqZ. f_equal; lia.
Qed.

(** Moving all elements to a larger array. *)
Lemma copy_loop_spec depth o todo : ∀ fuel i moved q,
  q_wf o → i = (nextread o + Z.of_nat (length moved)) mod size o → q_list o = moved ++ todo →
  q_wf q → q_list q = moved → size o < size q → (length todo ≤ fuel)%nat →
  ∃ q', copy_loop (q_addtail_fuel depth) fuel i (nextwrite o) (size o) (data o) q = Ok q' ∧
    q_wf q' ∧ size q' = size q ∧ q_list q' = q_list o.
Proof.
  induction todo as [|x todo IH]; intros fuel i moved q Ho Hi Hlist Hq Hmoved Hsize Hfuel;
    pose proof Ho as (Hs & Hr & Hw & Hl); pose proof (length_q_list o Ho) as Hlen;
    rewrite Hlist, length_app in Hlen; simpl in Hlen.
  - exists q. rewrite app_nil_r in Hlist.
    assert (i = nextwrite o) as ->.
    { subst i. replace (Z.of_nat (length moved)) with (q_count o) by lia. by apply ring_at. }
    split_and!; try done; [|congruence]. destruct fuel; simpl; by rewrite Z.eqb_refl.
  - destruct fuel as [|fuel]; [simpl in Hfuel; lia|].
    pose proof (q_count_range o Ho) as Hcr.
    assert (i ≠ nextwrite o) as Hne.
    { subst i. apply ring_before; [done..|]. fold (q_count o). lia. }
    assert (zget (data o) i = Some x) as Hx.
    { pose proof (q_list_lookup o (Z.of_nat (length moved)) Ho ltac:(lia)) as Hg.
      rewrite Hlist in Hg. unfold zget in Hg. rewrite decide_True, Nat2Z.id, list_lookup_middle in Hg by lia.
      injection Hg as ->. subst i. apply q_slot_data; [done|lia]. }
    assert (q_count q + 1 < size q) as Hroom.
    { pose proof (length_q_list q Hq) as Hlq. rewrite Hmoved in Hlq. lia. }
    destruct (push_spec depth q x Hq Hroom) as (q1 & Hpush & Hq1 & Hs1 & Hl1).
    cbn [copy_loop]. rewrite (proj2 (Z.eqb_neq _ _)) by done. rewrite Hx. cbn [deref mbind outcome_bind].
    rewrite Hpush. cbn [mbind outcome_bind kassert Z.eqb].
    destruct (IH fuel (Z.rem (i + 1) (size o)) (moved ++ [x]) q1) as (q' & Hc & Hq' & Hsz & Hl').
    + done.
    + rewrite length_app. simpl. rewrite Hi. rewrite Z.rem_mod_nonneg; [| |lia].
      * rewrite Z.add_mod_idemp_l by lia. f_equal. lia.
      * pose proof (Z.mod_pos_bound (nextread o + Z.of_nat (length moved)) (size o)). lia.
    + by rewrite <-app_assoc.
    + done.
    + congruence.
    + lia.
    + simpl in Hfuel. lia.
    + exists q'. split_and!; [exact Hc|done|lia|done].
Qed.

Lemma grow_size_spec t fuel : ∀ n,
  0 < n < 536870912 → t ≤ 268435456 → t ≤ n * 2 ^ Z.of_nat fuel →
  ∃ m, grow_size fuel n t = Ok m ∧ t ≤ m ∧ n ≤ m < 536870912.
Proof.
  induction fuel as [|fuel IH]; intros n Hn Ht Hf; cbn [grow_size];
    destruct (Z.ltb_spec n t) as [Hlt|Hge].
  - simpl in Hf. lia.
  - exists n. split_and!; done || lia.
  - rewrite s32_id by width. rewrite (proj2 (Z.ltb_lt _ _)) by lia. cbn [kassert mbind outcome_bind].
    destruct (IH (n * 2)) as (m & -> & Hm); [lia|lia| |].
    + rewrite Nat2Z.inj_succ, Z.pow_succ_r in Hf by lia. lia.
    + exists m. split; [done|lia].
  - exists n. split_and!; done || lia.
Qed.

Lemma q_list_empty n d : 0 < n → q_list (Queue n 0 0 d) = [].
Proof. intros. unfold q_list, q_count. cbn [nextwrite nextread size].
  by rewrite Z.sub_diag, Z.mod_0_l by lia. Qed.

Lemma q_grow_spec depth q t :
  q_wf q → size q < t ≤ 268435456 →
  q_grow (q_addtail_fuel depth) q t = Ok (ENOMEM, q) ∨
  ∃ q', q_grow (q_addtail_fuel depth) q t = Ok (0, q') ∧ q_wf q' ∧ t ≤ size q' ∧ q_list q' = q_list q.
Proof.
  intros Hwf Ht. pose proof Hwf as (Hs & Hr & Hw & Hl). unfold q_grow.
  destruct (grow_size_spec t 32 (size q)) as (n & -> & Hn & Hn'); [lia|lia| |].
  { change (2 ^ Z.of_nat 32) with 4294967296. lia. }
  cbn [mbind outcome_bind]. rewrite u32_id by width.
  destruct (q_kmalloc (n * 4)) as [d|] eqn:Hk; [|by left]. right.
  pose proof (q_kmalloc_len _ _ Hk) as Hd. rewrite Z.div_mul in Hd by lia.
  destruct (copy_loop_spec depth q (q_list q) (Z.to_nat (size q)) (nextread q) [] (Queue n 0 0 d))
    as (q' & -> & Hq' & Hs' & Hl'); try done.
  - simpl. rewrite Z.add_0_r. symmetry. apply Z.mod_small. lia.
  - unfold q_wf. simpl. lia.
  - simpl. lia.
  - pose proof (length_q_list q Hwf). pose proof (q_count_range q Hwf). lia.
  - cbn [mbind outcome_bind]. exists q'. simpl in Hs'. split_and!; [done|done|lia|done].
Qed.

Lemma q_addtail_spec q x :
  q_wf q → size q < 268435456 →
  q_addtail q x = Ok (ENOMEM, q) ∨
  ∃ q', q_addtail q x = Ok (0, q') ∧ q_wf q' ∧ size q ≤ size q' ∧ q_list q' = q_list q ++ [x].
Proof.
  intros Hwf Hmax. pose proof Hwf as (Hs & Hr & Hw & Hl).
  pose proof (q_count_range q Hwf) as Hcr.
  destruct (decide (q_count q + 1 < size q)) as [Hroom|Hfull].
  { right. destruct (push_spec 1 q x Hwf Hroom) as (q' & Hp & ? & ? & ?).
    exists q'. split_and!; [exact Hp|done|lia|done]. }
  assert (Z.rem (nextwrite q + 1) (size q) = nextread q) as Hnn.
  { assert (q_count q = size q - 1) as Hc by lia. unfold q_count in Hc.
    rewrite mod_diff in Hc by lia. rewrite rem_succ by lia. repeat case_decide; lia. }
  unfold q_addtail. cbn [q_addtail_fuel].
  rewrite (proj2 (Z.ltb_lt _ _)) by lia. cbn [kassert mbind outcome_bind].
  rewrite Hnn, Z.eqb_refl. rewrite s32_id by width.
  destruct (q_grow_spec 0 q (size q + 1) Hwf) as [Hg|(q1 & Hg & Hq1 & Hs1 & Hl1)]; [lia| |];
    cbn [q_addtail_fuel] in Hg; rewrite Hg; cbn [mbind outcome_bind Z.eqb negb]; [by left|right].
  assert (q_count q1 + 1 < size q1) as Hroom1.
  { pose proof (length_q_list q1 Hq1) as H1'. rewrite Hl1, (length_q_list q Hwf) in H1'. lia. }
  destruct (push_spec 0 q1 x Hq1 Hroom1) as (q' & Hp & Hq' & Hs' & Hl').
  cbn [q_addtail_fuel] in Hp. pose proof Hq1 as (Hs1' & Hr1 & Hw1 & _).
  rewrite (proj2 (Z.ltb_lt _ _)) in Hp by lia. cbn [kassert mbind outcome_bind] in Hp.
  rewrite (proj2 (Z.eqb_neq _ _)) in Hp by (by apply ring_room).
  cbn [mbind outcome_bind Z.eqb negb] in Hp.
  exists q'. split_and!; [exact Hp|done|lia|congruence].
Qed.

Lemma len_loop_spec q : ∀ fuel i,
  q_wf q → 0 ≤ i < size q → (nextwrite q - i) mod size q ≤ Z.of_nat fuel →
  ∀ c, len_loop fuel i c q = Ok (c + (nextwrite q - i) mod size q).
Proof.
  induction fuel as [|fuel IH]; intros i Hwf Hi Hf c; pose proof Hwf as (Hs & Hr & Hw & Hl);
    pose proof (Z.mod_pos_bound (nextwrite q - i) (size q) ltac:(lia)); cbn [len_loop];
    destruct (Z.eqb_spec i (nextwrite q)) as [->|Hne].
  - rewrite Z.sub_diag, Z.mod_0_l by lia. f_equal. lia.
  - rewrite mod_diff in Hf by lia. case_decide; lia.
  - rewrite Z.sub_diag, Z.mod_0_l by lia. f_equal. lia.
  - destruct (ring_step i (nextwrite q) (size q) Hi Hw Hne) as [Hi' Hc].
    rewrite IH by (done || lia). f_equal. lia.
Qed.

End queue_lemmas.

(** ** Properties *)

Section properties.
Context `{QAlloc}.

(** [q_addtail] is [++ [x]] on the abstract queue, on both of its paths: with
    a free slot, and when the buffer is full and has to be doubled.  It fails
    only with ENOMEM, and then the queue is as before.  It never fails an
    assertion and never accesses memory outside the buffer. *)
Theorem q_addtail_appends (HA : QAllocLaws) q x (Hwf : q_wf q) (Hmax : size q < 268435456) :
  q_addtail q x = Ok (ENOMEM, q) ∨
  ∃ q', q_addtail q x = Ok (0, q') ∧ q_wf q' ∧ size q ≤ size q' ∧ q_list q' = q_list q ++ [x].
Proof. by apply q_addtail_spec. Qed.

(** [q_remhead] removes and returns the first element of the abstract queue,
    and panics exactly when the queue is empty; [q_peek] returns the first
    element, or 0 for an empty queue; [q_len] is the length of the queue. *)
Theorem q_queries (HA : QAllocLaws) q (Hwf : q_wf q) :
  q_len q = Ok (Z.of_nat (length (q_list q))) ∧
  q_empty q = bool_decide (q_list q = []) ∧
  match q_list q with
  | [] => q_remhead q = Panic ∧ q_peek q = Ok 0
  | x :: l => q_peek q = Ok x ∧
      ∃ q', q_remhead q = Ok (x, q') ∧ q_wf q' ∧ size q' = size q ∧ q_list q' = l
  end.
Proof.
  pose proof Hwf as (Hs & Hr & Hw & Hl). pose proof (length_q_list q Hwf) as Hlen.
  pose proof (q_empty_count q Hwf) as He. pose proof (q_count_range q Hwf). split_and!.
  - unfold q_len. rewrite (len_loop_spec q) by (done || fold (q_count q); lia).
    fold (q_count q). f_equal. lia.
  - destruct (q_empty q) eqn:E; symmetry.
    + apply bool_decide_eq_true, nil_length_inv. rewrite (proj1 He) in Hlen by done. lia.
    + apply bool_decide_eq_false. intros Hnil. rewrite Hnil in Hlen. simpl in Hlen.
      by assert (false = true) by (apply He; lia).
  - destruct (q_list q) as [|x l] eqn:Elist; simpl in Hlen.
    + assert (q_empty q = true) as Hem by (apply He; lia).
      unfold q_remhead, q_peek. rewrite (proj2 (Z.ltb_lt _ _)), Hem by lia. done.
    + assert (q_empty q = false) as Hem by (apply not_true_is_false; rewrite He; lia).
      split; [|by apply pop_spec]. unfold q_peek. rewrite (proj2 (Z.ltb_lt _ _)), Hem by lia.
      cbn [kassert mbind outcome_bind].
      pose proof (q_list_lookup q 0 Hwf ltac:(lia)) as Hx. rewrite Elist in Hx. injection Hx as ->.
      pose proof (q_slot_data q 0 Hwf ltac:(lia)) as Hd.
      rewrite Z.add_0_r, Z.mod_small in Hd by lia. by rewrite Hd.
Qed.

(** [q_preallocate] leaves the abstract queue alone and makes the buffer at
    least as large as asked for, unless memory is short; a new queue is empty. *)
Theorem q_preallocate_keeps (HA : QAllocLaws) q sz (Hwf : q_wf q) (Hsz : sz ≤ 268435456) :
  (q_preallocate q sz = Ok (ENOMEM, q) ∨
   ∃ q', q_preallocate q sz = Ok (0, q') ∧ q_wf q' ∧ sz ≤ size q' ∧ q_list q' = q_list q) ∧
  ∀ n q0, 0 < n < 536870912 → q_create n = Some q0 → q_wf q0 ∧ size q0 = n ∧ q_list q0 = [].
Proof.
  split.
  - pose proof Hwf as (Hs & _). unfold q_preallocate. rewrite (proj2 (Z.ltb_lt 0 (size q))) by lia.
    cbn [kassert mbind outcome_bind]. destruct (Z.ltb_spec (size q) sz) as [Hlt|Hge].
    + by apply (q_grow_spec 1).
    + right. exists q. done.
  - intros n q0 Hn Hc. unfold q_create in Hc. destruct (q_kmalloc 16); [|done].
    rewrite u32_id in Hc by width. destruct (q_kmalloc (n * 4)) as [d|] eqn:Hk; [|done].
    injection Hc as <-. pose proof (q_kmalloc_len _ _ Hk) as Hd. rewrite Z.div_mul in Hd by lia.
    split_and!; [unfold q_wf; simpl; lia|done|]. apply q_list_empty. lia.
Qed.

End properties.

(** Memory that is always available and full of ones. *)
#[export] Instance demo_qalloc : QAlloc :=
  λ n, if 0 <=? n then Some (replicate (Z.to_nat (n / 4)) 1) else None.

#[export] Instance demo_qalloc_laws : QAllocLaws.
Proof.
  split. intros n l. unfold q_kmalloc, demo_qalloc. destruct (Z.leb_spec 0 n); [|done].
  intros [= <-]. unfold zlen. rewrite length_replicate.
  pose proof (Z.div_pos n 4 ltac:(done) ltac:(lia)). lia.
Qed.

(** A full buffer of two slots that wraps around. *)
Definition demo_queue : queue := Queue 2 0 1 [5; 6].

Lemma demo_queue_wf : q_wf demo_queue.
Proof. unfold q_wf. simpl. unfold zlen. simpl. lia. Qed.

Lemma q_addtail_appends_witness :
  ∃ q', q_addtail demo_queue 7 = Ok (0, q') ∧ q_list q' = [6; 7].
Proof.
  destruct (q_addtail_appends demo_qalloc_laws demo_queue 7 demo_queue_wf ltac:(simpl; lia))
    as [H|(q' & H & _ & _ & Hl)].
  - vm_compute in H. discriminate H.
  - exists q'. split; [exact H|exact Hl].
Defined.

Lemma q_queries_witness : q_len demo_queue = Ok 1 ∧ q_peek demo_queue = Ok 6.
Proof.
  destruct (q_queries demo_qalloc_laws demo_queue demo_queue_wf) as (H1 & _ & H2 & _).
  split; [exact H1|exact H2].
Defined.

Lemma q_preallocate_keeps_witness :
  ∃ q', q_preallocate demo_queue 5 = Ok (0, q') ∧ q_list q' = [6].
Proof.
  destruct (q_preallocate_keeps demo_qalloc_laws demo_queue 5 demo_queue_wf ltac:(lia))
    as [[H|(q' & H & _ & _ & Hl)] _].
  - vm_compute in H. discriminate H.
  - exists q'. split; [exact H|exact Hl].
Defined.
