(* ===== verification/Synch.v ===== *)
(** * Synchronisation primitives and the threads that use them

    Models original_asst3/kern/thread/synch.c (semaphores, locks and condition
    variables) on the wait channels of thread.c, and a machine that runs any
    number of threads against them.

    Each primitive runs under its own spinlock, so a step of the machine is one
    primitive up to the point where it returns or puts the thread to sleep.  A
    thread that is woken goes round the [while] loop of [P] or [lock_acquire]
    again, that is, it executes the same instruction once more. *)

From S2P Require Import Prelude.

(** ** Primitives *)

(** A wait channel is the list of the threads sleeping on it, first come first. *)
Record semaphore := Sem { sem_count : Z; sem_wchan : list nat }.
Record lock := Lock { lk_holder : option nat; lk_wchan : list nat }.
Record cv := Cv { cv_wchan : list nat }.

Definition wchan_sleep (wc : list nat) (curthread : nat) : list nat := wc ++ [curthread].

(** The thread to be made runnable, if any. *)
Definition wchan_wakeone (wc : list nat) : list nat * option nat :=
  match wc with
  | [] => ([], None)
  | target :: wc => (wc, Some target)
  end.

Definition sem_create (initial_count : Z) : semaphore := Sem initial_count [].

(** Nobody may be waiting. *)
Definition sem_destroy (sem : semaphore) : outcome unit :=
  kassert (match sem_wchan sem with [] => true | _ => false end).

(** One round of the loop of [P]: whether the thread got through. *)
Definition sem_P (curthread : nat) (sem : semaphore) : semaphore * bool :=
  if sem_count sem =? 0
  then (Sem (sem_count sem) (wchan_sleep (sem_wchan sem) curthread), false)
  else (Sem (sem_count sem - 1) (sem_wchan sem), true).

Definition sem_V (sem : semaphore) : outcome (semaphore * option nat) :=
  let count := u32 (sem_count sem + 1) in
  _ ← kassert (0 <? count);
  let '(wc, target) := wchan_wakeone (sem_wchan sem) in
  Ok (Sem count wc, target).

Definition lock_create : lock := Lock None [].

Definition lock_destroy (lk : lock) : outcome unit :=
  _ ← kassert (match lk_holder lk with None => true | _ => false end);
  kassert (match lk_wchan lk with [] => true | _ => false end).

Definition lock_do_i_hold (curthread : nat) (lk : lock) : bool :=
  bool_decide (lk_holder lk = Some curthread).

(** One round of the loop of [lock_acquire]. *)
Definition lock_acquire (curthread : nat) (lk : lock) : outcome (lock * bool) :=
  _ ← kassert (negb (lock_do_i_hold curthread lk));
  match lk_holder lk with
  | Some _ => Ok (Lock (lk_holder lk) (wchan_sleep (lk_wchan lk) curthread), false)
  | None => Ok (Lock (Some curthread) (lk_wchan lk), true)
  end.

Definition lock_release (curthread : nat) (lk : lock) : outcome (lock * option nat) :=
  _ ← kassert (lock_do_i_hold curthread lk);
  let '(wc, target) := wchan_wakeone (lk_wchan lk) in
  Ok (Lock None wc, target).

Definition cv_create : cv := Cv [].
Definition cv_destroy (c : cv) : outcome unit :=
  kassert (match cv_wchan c with [] => true | _ => false end).

(** [cv_wait] up to the sleep; the thread takes the lock again when it wakes. *)
Definition cv_wait (curthread : nat) (c : cv) (lk : lock) : outcome (cv * lock * option nat) :=
  '(lk, target) ← lock_release curthread lk;
  Ok (Cv (wchan_sleep (cv_wchan c) curthread), lk, target).

Definition cv_signal (c : cv) : cv * option nat :=
  let '(wc, target) := wchan_wakeone (cv_wchan c) in (Cv wc, target).

Definition cv_broadcast (c : cv) : cv * list nat := (Cv [], cv_wchan c).

(** ** Threads *)

Section machine.
Context {G L : Type}.

(** What a thread does next.  [IDo] is a step on the shared data and the local
    variables, [IIf] a jump.  A [cv_wait] is [IWait c l] followed by [IAcq l].  The
    semaphore of a [P] or [V] may be held in a local variable. *)
Inductive instr :=
| IP (s : L → nat)
| IV (s : L → nat)
| IAcq (l : nat)
| IRel (l : nat)
| IWait (c l : nat)
| ISignal (c : nat)
| IBroadcast (c : nat)
| IDo (f : G → L → outcome (G * L))
| IIf (b : L → bool) (target : nat).

Record thr := Thr { prog : list instr; pc : nat; asleep : bool; loc : L }.

Record machine := Machine {
  glob : G;
  sems : list semaphore;
  locks : list lock;
  cvs : list cv;
  threads : list thr
}.

Definition cur_instr (th : thr) : option instr := prog th !! pc th.
Definition ready (th : thr) : bool := negb (asleep th) && bool_decide (is_Some (cur_instr th)).
Definition finished (th : thr) : bool := bool_decide (cur_instr th = None).

Definition goto (n : nat) (th : thr) : thr := Thr (prog th) n false (loc th).
Definition next (th : thr) : thr := goto (S (pc th)) th.
Definition sleep (th : thr) : thr := Thr (prog th) (pc th) true (loc th).
Definition resume (th : thr) : thr := goto (pc th) th.
Definition set_loc (x : L) (th : thr) : thr := Thr (prog th) (pc th) (asleep th) x.

(** Changes thread [t] if it exists. *)
Definition update (f : thr → thr) (t : nat) (ths : list thr) : list thr :=
  match ths !! t with
  | Some th => <[t := f th]> ths
  | None => ths
  end.

Definition wake (f : thr → thr) (target : option nat) (ths : list thr) : list thr :=
  match target with
  | None => ths
  | Some t => update f t ths
  end.

(** Thread [t] executes one instruction. *)
Definition exec (t : nat) (m : machine) : outcome machine :=
  th ← deref (threads m !! t);
  i ← deref (cur_instr th);
  let 'Machine g ss ls cs ths := m in
  match i with
  | IP s =>
      sem ← deref (ss !! s (loc th));
      let '(sem, got) := sem_P t sem in
      Ok (Machine g (<[s (loc th) := sem]> ss) ls cs (update (if got then next else sleep) t ths))
  | IV s =>
      sem ← deref (ss !! s (loc th));
      '(sem, target) ← sem_V sem;
      Ok (Machine g (<[s (loc th) := sem]> ss) ls cs (wake resume target (update next t ths)))
  | IAcq l =>
      lk ← deref (ls !! l);
      '(lk, got) ← lock_acquire t lk;
      Ok (Machine g ss (<[l := lk]> ls) cs (update (if got : bool then next else sleep) t ths))
  | IRel l =>
      lk ← deref (ls !! l);
      '(lk, target) ← lock_release t lk;
      Ok (Machine g ss (<[l := lk]> ls) cs (wake resume target (update next t ths)))
  | IWait c l =>
      cv ← deref (cs !! c);
      lk ← deref (ls !! l);
      '(cv, lk, target) ← cv_wait t cv lk;
      Ok (Machine g ss (<[l := lk]> ls) (<[c := cv]> cs) (wake resume target (update sleep t ths)))
  | ISignal c =>
      cv ← deref (cs !! c);
      let '(cv, target) := cv_signal cv in
      Ok (Machine g ss ls (<[c := cv]> cs) (wake next target (update next t ths)))
  | IBroadcast c =>
      cv ← deref (cs !! c);
      let '(cv, targets) := cv_broadcast cv in
      Ok (Machine g ss ls (<[c := cv]> cs) (foldl (λ ths t, update next t ths) (update next t ths) targets))
  | IDo f =>
      '(g, x) ← f g (loc th);
      Ok (Machine g ss ls cs (update (λ th, set_loc x (next th)) t ths))
  | IIf b target =>
      Ok (Machine g ss ls cs (update (if b (loc th) then goto target else next) t ths))
  end.

(** Any thread that is ready may run. *)
Inductive mstep : machine → machine → Prop :=
| mstep_exec t th m m' :
    threads m !! t = Some th → ready th = true → exec t m = Ok m' → mstep m m'.

(** All threads are at their first instruction. *)
Definition start (g : G) (ss : list semaphore) (ls : list lock) (cs : list cv)
    (ps : list (list instr * L)) : machine :=
  Machine g ss ls cs (map (λ p, Thr p.1 0 false p.2) ps).

End machine.

Arguments instr G L : clear implicits.
Arguments thr G L : clear implicits.
Arguments machine G L : clear implicits.

(** ** Invariant of the wait channels *)

Section invariant.
Context {G L : Type}.
Implicit Types (th : thr G L) (ths : list (thr G L)) (m : machine G L) (wc : list nat).

(** The wait channels. *)
Inductive chan := CSem (s : nat) | CLock (l : nat) | CCv (c : nat).

(** The channel on which an instruction may sleep. *)
Definition chan_of (x : L) (i : instr G L) : option chan :=
  match i with
  | IP s => Some (CSem (s x))
  | IAcq l => Some (CLock l)
  | IWait c _ => Some (CCv c)
  | _ => None
  end.

Definition instr_chan th : option chan := i ← cur_instr th; chan_of (loc th) i.

#[global] Instance chan_eq_dec : EqDecision chan.
Proof. solve_decision. Defined.

Definition wants (c : chan) th : bool := bool_decide (instr_chan th = Some c).

Definition awake (c : chan) th : bool := negb (asleep th) && wants c th.

(** The channel [wc] holds exactly the threads asleep at an instruction that
    [wants] it, each once; and unless it is empty, at least [n] threads are awake
    at such an instruction: [n] is what is available without anyone having to be
    woken. *)
Record waits_ok (c : chan) wc (n : Z) ths : Prop := {
  wo_nodup : NoDup wc;
  wo_asleep t : t ∈ wc ↔ ∃ th, ths !! t = Some th ∧ asleep th = true ∧ wants c th = true;
  wo_awake : wc = [] ∨ n ≤ Z.of_nat (cnt (awake c) ths)
}.

(** A channel's sleepers, and how many threads could go on without being woken:
    the count of a semaphore, 1 for a free lock. *)
Definition chan_state m (c : chan) : option (list nat * Z) :=
  match c with
  | CSem s => sem ← sems m !! s; Some (sem_wchan sem, sem_count sem)
  | CLock l => lk ← locks m !! l;
      Some (lk_wchan lk, match lk_holder lk with None => 1 | Some _ => 0 end)
  | CCv c => v ← cvs m !! c; Some (cv_wchan v, 0)
  end.

(** All channels of the state [st] are consistent with the threads, and whoever
    sleeps does so on a channel that exists. *)
Record chans_ok (st : chan → option (list nat * Z)) ths : Prop := {
  co_chan c wc n : st c = Some (wc, n) → 0 ≤ n ∧ waits_ok c wc n ths;
  co_blocked t th : ths !! t = Some th → asleep th = true →
    ∃ c, instr_chan th = Some c ∧ is_Some (st c)
}.

Record sync_ok m : Prop := {
  so_chans : chans_ok (chan_state m) (threads m);
  so_count s sem : sems m !! s = Some sem → sem_count sem < two32
}.

Definition upd (c0 : chan) (v : list nat * Z) (st : chan → option (list nat * Z)) (c : chan) :
    option (list nat * Z) :=
  if decide (c = c0) then Some v else st c.

Lemma update_lookup f t ths t' :
  update f t ths !! t' = if decide (t = t') then f <$> ths !! t' else ths !! t'.
Proof.
  unfold update. destruct (ths !! t) as [th|] eqn:Ht.
  - case_decide; [subst|by rewrite list_lookup_insert_ne].
    rewrite Ht. rewrite list_lookup_insert_eq; [done|]. by eapply lookup_lt_Some.
  - case_decide; [subst; by rewrite Ht|done].
Qed.

Lemma cnt_update P f t ths th :
  ths !! t = Some th →
  (cnt P (update f t ths) + Nat.b2n (P th) = cnt P ths + Nat.b2n (P (f th)))%nat.
Proof.
  intros Ht. unfold update. rewrite Ht. by apply cnt_insert.
Qed.

(** A thread that does not use the channel moves. *)
Lemma waits_frame c wc n f t th ths :
  waits_ok c wc n ths → ths !! t = Some th → wants c th = false →
  asleep (f th) = false ∨ wants c (f th) = false → waits_ok c wc n (update f t ths).
Proof.
  intros [Hnd Has Haw] Ht Hw Hf. split; [done| |].
  - intros t'. rewrite Has. rewrite update_lookup. case_decide; [subst t'|done].
    rewrite Ht. simpl. naive_solver congruence.
  - destruct Haw as [->|Haw]; [by left|right].
    pose proof (cnt_update (awake c) f t ths th Ht) as Hc. unfold awake in Hc at 2.
    rewrite Hw, andb_false_r in Hc. simpl in Hc. lia.
Qed.

(** A thread at the instruction gets what it wants. *)
Lemma waits_take c wc n f t th ths :
  waits_ok c wc n ths → ths !! t = Some th → asleep th = false → asleep (f th) = false →
  waits_ok c wc (n - 1) (update f t ths).
Proof.
  intros [Hnd Has Haw] Ht Hs Hf. split; [done| |].
  - intros t'. rewrite Has, update_lookup. case_decide; [subst t'|done].
    rewrite Ht. simpl. naive_solver congruence.
  - destruct Haw as [->|Haw]; [by left|right].
    pose proof (cnt_update (awake c) f t ths th Ht) as Hc.
    destruct (awake c th), (awake c (f th)); simpl in Hc; lia.
Qed.

(** A thread at the instruction goes to sleep because there is nothing. *)
Lemma waits_sleep c wc f t th ths :
  waits_ok c wc 0 ths → ths !! t = Some th → asleep th = false →
  asleep (f th) = true → wants c (f th) = true → waits_ok c (wchan_sleep wc t) 0 (update f t ths).
Proof.
  intros [Hnd Has _] Ht Hs Hf Hw. unfold wchan_sleep. split; [| |right; lia].
  - apply NoDup_app. split_and!; [done| |apply NoDup_singleton].
    intros t' Hin ->%list_elem_of_singleton. apply Has in Hin as (? & ? & ? & _). congruence.
  - intros t'. rewrite elem_of_app, list_elem_of_singleton, Has, update_lookup. case_decide.
    + subst t'. rewrite Ht. simpl. naive_solver.
    + naive_solver.
Qed.

(** The first sleeper is woken and one more is available. *)
Lemma waits_wake c wc n f w ths :
  waits_ok c (w :: wc) n ths →
  (∀ th, asleep (f th) = false) → (∀ th, wants c th = true → wants c (f th) = true) →
  waits_ok c wc (n + 1) (update f w ths).
Proof.
  intros [Hnd Has Haw] Hf Hfw. apply NoDup_cons in Hnd as [Hw Hnd].
  destruct (proj1 (Has w)) as (th & Ht & Hs & Hwt); [by left|]. split; [done| |right].
  - intros t. rewrite update_lookup. case_decide as Hd.
    + subst t. rewrite Ht. simpl. split; [done|]. intros (th' & [= <-] & Hs' & _).
      by rewrite Hf in Hs'.
    + rewrite <-Has, elem_of_cons. naive_solver.
  - destruct Haw as [?|Haw]; [done|].
    pose proof (cnt_update (awake c) f w ths th Ht) as Hc. unfold awake in Hc at 2 4.
    rewrite Hs, Hf, (Hfw _ Hwt) in Hc. simpl in Hc. lia.
Qed.

(** A sleeper leaves the channel for another instruction. *)
Lemma waits_leave c wc f w ths :
  waits_ok c (w :: wc) 0 ths → (∀ th, asleep (f th) = false) →
  waits_ok c wc 0 (update f w ths).
Proof.
  intros [Hnd Has _] Hf. apply NoDup_cons in Hnd as [Hw Hnd]. split; [done| |right; lia].
  intros t. rewrite update_lookup. case_decide as Hd.
  - subst t. split; [done|]. intros (th' & Hth & Hs' & _).
    destruct (ths !! w); simplify_eq/=. by rewrite Hf in Hs'.
  - rewrite <-Has, elem_of_cons. naive_solver.
Qed.

Lemma waits_nil c n n' ths : waits_ok c [] n ths → waits_ok c [] n' ths.
Proof. intros [???]. split; [done..|by left]. Qed.

Lemma waits_weaken c wc n n' ths : waits_ok c wc n ths → n' ≤ n → waits_ok c wc n' ths.
Proof. intros [?? [?|?]]. split; [done..|by left]. intros. split; [done..|right; lia]. Qed.

Lemma wants_true c th : wants c th = true ↔ instr_chan th = Some c.
Proof. apply bool_decide_eq_true. Qed.

Lemma wants_false c th : wants c th = false ↔ instr_chan th ≠ Some c.
Proof. apply bool_decide_eq_false. Qed.

Lemma chans_ok_ext st st' ths : (∀ c, st' c = st c) → chans_ok st ths → chans_ok st' ths.
Proof.
  intros Heq [Hc Hb]. split.
  - intros c wc n. rewrite Heq. apply Hc.
  - intros t th Ht Hs. destruct (Hb _ _ Ht Hs) as (c & ? & ?). exists c. by rewrite Heq.
Qed.

(** A thread at an instruction that uses no channel. *)
Lemma chans_move st f t th ths :
  chans_ok st ths → ths !! t = Some th → instr_chan th = None → asleep (f th) = false →
  chans_ok st (update f t ths).
Proof.
  intros [Hc Hb] Ht Hi Hf. split.
  - intros c wc n [? ?]%Hc. split; [done|]. eapply waits_frame; [done..| |by left].
    apply wants_false. congruence.
  - intros t' th'. rewrite update_lookup. case_decide; [|by apply Hb].
    subst t'. rewrite Ht. simpl. intros [= <-]. congruence.
Qed.

Lemma chans_take st f t th ths c0 wc n :
  chans_ok st ths → ths !! t = Some th → asleep th = false → instr_chan th = Some c0 →
  st c0 = Some (wc, n) → 1 ≤ n → asleep (f th) = false →
  chans_ok (upd c0 (wc, n - 1) st) (update f t ths).
Proof.
  intros [Hc Hb] Ht Hs Hi Hst Hn Hf. split.
  - intros c wc' n'. unfold upd. case_decide as Hd.
    + intros [= <- <-]. subst c. split; [lia|]. eapply waits_take; [by apply Hc|done..].
    + intros [? ?]%Hc. split; [done|]. eapply waits_frame; [done..| |by left].
      apply wants_false. congruence.
  - intros t' th'. rewrite update_lookup. case_decide.
    + subst t'. rewrite Ht. simpl. intros [= <-]. congruence.
    + intros Ht' Hs'. destruct (Hb _ _ Ht' Hs') as (c & ? & ?). exists c.
      unfold upd. case_decide; eauto.
Qed.

Lemma chans_sleep st t th ths c0 wc :
  chans_ok st ths → ths !! t = Some th → asleep th = false → instr_chan th = Some c0 →
  st c0 = Some (wc, 0) → chans_ok (upd c0 (wchan_sleep wc t, 0) st) (update sleep t ths).
Proof.
  intros [Hc Hb] Ht Hs Hi Hst. split.
  - intros c wc' n'. unfold upd. case_decide as Hd.
    + intros [= <- <-]. subst c. split; [lia|]. eapply waits_sleep; [by apply Hc|done..|].
      by apply wants_true.
    + intros [? ?]%Hc. split; [done|].
      eapply waits_frame; [done|done| |right]; apply wants_false; [congruence|].
      change (instr_chan th ≠ Some c). congruence.
  - intros t' th'. rewrite update_lookup. case_decide.
    + subst t'. rewrite Ht. simpl. intros [= <-] _. exists c0. split; [done|].
      unfold upd. rewrite decide_True by done. eauto.
    + intros Ht' Hs'. destruct (Hb _ _ Ht' Hs') as (c & ? & ?). exists c.
      unfold upd. case_decide; eauto.
Qed.

(** The thread [w], asleep on [c0], is woken. *)
Lemma chans_wake st f w ths c0 wc n n' :
  chans_ok st ths → st c0 = Some (w :: wc, n) → 0 ≤ n' → (∀ th, asleep (f th) = false) →
  (waits_ok c0 (w :: wc) n ths → waits_ok c0 wc n' (update f w ths)) →
  chans_ok (upd c0 (wc, n') st) (update f w ths).
Proof.
  intros [Hc Hb] Hst Hn Hf Hw. destruct (Hc _ _ _ Hst) as [_ Hok].
  destruct (proj1 (wo_asleep _ _ _ _ Hok w)) as (th & Ht & Hs & Hwt); [by left|].
  apply wants_true in Hwt. split.
  - intros c wc' k. unfold upd. case_decide as Hd.
    + intros [= <- <-]. subst c. split; [done|]. by apply Hw.
    + intros [? ?]%Hc. split; [done|]. eapply waits_frame; [done..| |by left].
      apply wants_false. congruence.
  - intros t' th'. rewrite update_lookup. case_decide.
    + subst t'. rewrite Ht. simpl. intros [= <-]. by rewrite Hf.
    + intros Ht' Hs'. destruct (Hb _ _ Ht' Hs') as (c & ? & ?). exists c.
      unfold upd. case_decide; eauto.
Qed.

Lemma chans_set_nil st ths c0 n n' :
  chans_ok st ths → st c0 = Some ([], n) → 0 ≤ n' → chans_ok (upd c0 ([], n') st) ths.
Proof.
  intros [Hc Hb] Hst Hn. split.
  - intros c wc k. unfold upd. case_decide as Hd; [|by apply Hc].
    intros [= <- <-]. subst c. split; [done|]. eapply waits_nil. by apply Hc.
  - intros t th Ht Hs. destruct (Hb _ _ Ht Hs) as (c & ? & ?). exists c.
    unfold upd. case_decide; eauto.
Qed.

(** One more becomes available on [c0] and its first sleeper, if any, is woken to
    try again. *)
Lemma chans_give st ths c0 wc n :
  chans_ok st ths → st c0 = Some (wc, n) →
  chans_ok (upd c0 ((wchan_wakeone wc).1, n + 1) st) (wake resume (wchan_wakeone wc).2 ths).
Proof.
  intros Hok Hst. destruct (co_chan _ _ Hok _ _ _ Hst) as [Hn _].
  destruct wc as [|w wc]; simpl; [by apply (chans_set_nil _ _ _ n); [..|lia]|].
  eapply chans_wake; [done..|lia|done|]. intros. by apply waits_wake.
Qed.

(** The first sleeper, if any, leaves [c0]. *)
Lemma chans_leave st ths c0 wc :
  chans_ok st ths → st c0 = Some (wc, 0) →
  chans_ok (upd c0 ((wchan_wakeone wc).1, 0) st) (wake next (wchan_wakeone wc).2 ths).
Proof.
  intros Hok Hst. destruct wc as [|w wc]; simpl; [by apply (chans_set_nil _ _ _ 0)|].
  eapply chans_wake; [done..|lia|done|]. intros. by apply waits_leave.
Qed.

Lemma chans_leave_all c0 wc : ∀ st ths,
  chans_ok st ths → st c0 = Some (wc, 0) →
  chans_ok (upd c0 ([], 0) st) (foldl (λ ths t, update next t ths) ths wc).
Proof.
  induction wc as [|w wc IH]; intros st ths Hok Hst; simpl.
  { by apply (chans_set_nil _ _ _ 0). }
  pose proof (chans_leave _ _ _ _ Hok Hst) as Hl. simpl in Hl.
  eapply chans_ok_ext; [|apply (IH _ _ Hl)].
  - intros c. unfold upd. by repeat case_decide.
  - unfold upd. by rewrite decide_True.
Qed.

(** *** Steps of the machine *)

Lemma chan_state_sem m s sem ths :
  is_Some (sems m !! s) → ∀ c,
  chan_state (Machine (glob m) (<[s := sem]> (sems m)) (locks m) (cvs m) ths) c =
    upd (CSem s) (sem_wchan sem, sem_count sem) (chan_state m) c.
Proof.
  intros [old Hs] c. unfold upd. case_decide as Hd; [subst c; simpl|].
  - rewrite list_lookup_insert_eq by (by eapply lookup_lt_Some). done.
  - destruct c as [s'| |]; simpl; [|done..]. rewrite list_lookup_insert_ne by congruence. done.
Qed.

Lemma chan_state_lock m l lk ths :
  is_Some (locks m !! l) → ∀ c,
  chan_state (Machine (glob m) (sems m) (<[l := lk]> (locks m)) (cvs m) ths) c =
    upd (CLock l) (lk_wchan lk, match lk_holder lk with None => 1 | Some _ => 0 end) (chan_state m) c.
Proof.
  intros [old Hs] c. unfold upd. case_decide as Hd; [subst c; simpl|].
  - rewrite list_lookup_insert_eq by (by eapply lookup_lt_Some). done.
  - destruct c as [|l'|]; simpl; [done| |done]. rewrite list_lookup_insert_ne by congruence. done.
Qed.

Lemma chan_state_cv m c0 v ths :
  is_Some (cvs m !! c0) → ∀ c,
  chan_state (Machine (glob m) (sems m) (locks m) (<[c0 := v]> (cvs m)) ths) c =
    upd (CCv c0) (cv_wchan v, 0) (chan_state m) c.
Proof.
  intros [old Hs] c. unfold upd. case_decide as Hd; [subst c; simpl|].
  - rewrite list_lookup_insert_eq by (by eapply lookup_lt_Some). done.
  - destruct c as [| |c']; simpl; [done..|]. rewrite list_lookup_insert_ne by congruence. done.
Qed.

Lemma counts_insert (ss : list semaphore) s0 sem0 :
  (∀ s sem, ss !! s = Some sem → sem_count sem < two32) → sem_count sem0 < two32 →
  ∀ s sem, <[s0 := sem0]> ss !! s = Some sem → sem_count sem < two32.
Proof.
  intros Hall H0 s sem Hs. apply list_lookup_insert_Some in Hs as [(_ & <- & _)|[_ Hs]]; eauto.
Qed.

Lemma wchan_wakeone_eta wc : wchan_wakeone wc = ((wchan_wakeone wc).1, (wchan_wakeone wc).2).
Proof. by destruct wc. Qed.

Lemma sync_ok_exec t th m m' :
  sync_ok m → threads m !! t = Some th → asleep th = false → exec t m = Ok m' → sync_ok m'.
Proof.
  intros [Hok Hcnt] Ht Hs He. unfold exec in He. rewrite Ht in He. cbn [deref mbind outcome_bind] in He.
  destruct (cur_instr th) as [i|] eqn:Hi; [|done]. cbn [deref mbind outcome_bind] in He.
  assert (instr_chan th = chan_of (loc th) i) as Hic by (unfold instr_chan; by rewrite Hi).
  destruct m as [g ss ls cs ths]. cbn [threads sems] in *.
  set (m := Machine g ss ls cs ths) in *.
  destruct i as [s|s|l|l|c l|c|c|f|b tgt].
  - destruct (ss !! s (loc th)) as [sem|] eqn:Hsem; [|done]. cbn [deref mbind outcome_bind] in He.
    assert (chan_state m (CSem (s (loc th))) = Some (sem_wchan sem, sem_count sem)) as Hst
      by (simpl; by rewrite Hsem).
    unfold sem_P in He. destruct (Z.eqb_spec (sem_count sem) 0) as [H0|H0]; injection He as <-.
    + split; [|apply counts_insert; [done|simpl; rewrite H0; done]].
      rewrite H0 in Hst |- *. eapply chans_ok_ext; [apply (chan_state_sem m); eauto|].
      eapply chans_sleep; done.
    + destruct (co_chan _ _ Hok _ _ _ Hst) as [Hn _].
      split; [|apply counts_insert; [done|simpl; specialize (Hcnt _ _ Hsem); lia]].
      eapply chans_ok_ext; [apply (chan_state_sem m); eauto|].
      eapply chans_take; try done. lia.
  - destruct (ss !! s (loc th)) as [sem|] eqn:Hsem; [|done]. cbn [deref mbind outcome_bind] in He.
    assert (chan_state m (CSem (s (loc th))) = Some (sem_wchan sem, sem_count sem)) as Hst
      by (simpl; by rewrite Hsem).
    destruct (co_chan _ _ Hok _ _ _ Hst) as [Hn _]. pose proof (Hcnt _ _ Hsem) as Hmax.
    unfold sem_V in He. destruct (Z.ltb_spec 0 (u32 (sem_count sem + 1))) as [Hp|]; [|done].
    cbn [kassert mbind outcome_bind] in He. rewrite wchan_wakeone_eta in He.
    cbn [mbind outcome_bind] in He. injection He as <-.
    assert (u32 (sem_count sem + 1) = sem_count sem + 1) as Hu.
    { unfold u32 in *. destruct (decide (sem_count sem + 1 = two32)) as [E|]; [by rewrite E in Hp|].
      apply Z.mod_small. lia. }
    rewrite Hu in *. split; [|apply counts_insert; [done|simpl; rewrite <-Hu; apply Z.mod_pos_bound; done]].
    eapply chans_ok_ext; [apply (chan_state_sem m); eauto|].
    apply chans_give; [|done]. by eapply chans_move.
  - destruct (ls !! l) as [lk|] eqn:Hlk; [|done]. cbn [deref mbind outcome_bind] in He.
    assert (chan_state m (CLock l) =
      Some (lk_wchan lk, match lk_holder lk with None => 1 | Some _ => 0 end)) as Hst
      by (simpl; by rewrite Hlk).
    unfold lock_acquire in He. destruct (negb _); [|done]. cbn [kassert mbind outcome_bind] in He.
    destruct (lk_holder lk) as [h|] eqn:Hh; cbn [mbind outcome_bind] in He; injection He as <-;
      (split; [|exact Hcnt]); (eapply chans_ok_ext; [apply (chan_state_lock m); eauto|]).
    + eapply chans_sleep; done.
    + eapply (chans_take _ _ _ _ _ _ _ 1); done.
  - destruct (ls !! l) as [lk|] eqn:Hlk; [|done]. cbn [deref mbind outcome_bind] in He.
    unfold lock_release, lock_do_i_hold in He. case_bool_decide as Hh; [|done].
    cbn [kassert mbind outcome_bind] in He. rewrite wchan_wakeone_eta in He.
    cbn [mbind outcome_bind] in He. injection He as <-.
    assert (chan_state m (CLock l) = Some (lk_wchan lk, 0)) as Hst by (simpl; rewrite Hlk; simpl; by rewrite Hh).
    split; [|exact Hcnt]. eapply chans_ok_ext; [apply (chan_state_lock m); eauto|].
    apply (chans_give _ _ _ _ 0); [|done]. by eapply chans_move.
  - destruct (cs !! c) as [v|] eqn:Hv; [|done]. cbn [deref mbind outcome_bind] in He.
    destruct (ls !! l) as [lk|] eqn:Hlk; [|done]. cbn [deref mbind outcome_bind] in He.
    unfold cv_wait, lock_release, lock_do_i_hold in He. case_bool_decide as Hh; [|done].
    cbn [kassert mbind outcome_bind] in He. rewrite wchan_wakeone_eta in He.
    cbn [mbind outcome_bind] in He. injection He as <-.
    assert (chan_state m (CCv c) = Some (cv_wchan v, 0)) as Hst by (simpl; by rewrite Hv).
    pose proof (chans_sleep _ _ _ _ _ _ Hok Ht Hs Hic Hst) as Hok1.
    set (m1 := Machine g ss ls (<[c := Cv (wchan_sleep (cv_wchan v) t)]> cs) (update sleep t ths)).
    assert (chans_ok (chan_state m1) (update sleep t ths)) as Hok2.
    { eapply chans_ok_ext; [apply (chan_state_cv m); eauto|exact Hok1]. }
    split; [|exact Hcnt]. eapply chans_ok_ext; [apply (chan_state_lock m1); eauto|].
    apply (chans_give _ _ _ _ 0); [done|]. simpl. rewrite Hlk. simpl. by rewrite Hh.
  - destruct (cs !! c) as [v|] eqn:Hv; [|done]. cbn [deref mbind outcome_bind] in He.
    unfold cv_signal in He. rewrite wchan_wakeone_eta in He. injection He as <-.
    split; [|exact Hcnt]. eapply chans_ok_ext; [apply (chan_state_cv m); eauto|].
    apply chans_leave; [by eapply chans_move|]. simpl. by rewrite Hv.
  - destruct (cs !! c) as [v|] eqn:Hv; [|done]. cbn [deref mbind outcome_bind] in He.
    unfold cv_broadcast in He. injection He as <-.
    split; [|exact Hcnt]. eapply chans_ok_ext; [apply (chan_state_cv m); eauto|].
    apply chans_leave_all; [by eapply chans_move|]. simpl. by rewrite Hv.
  - destruct (f g (loc th)) as [[g' x]| | |]; try done. cbn [mbind outcome_bind] in He. injection He as <-.
    split; [|exact Hcnt]. change (chans_ok (chan_state m) (update (λ th, set_loc x (next th)) t ths)).
    by eapply chans_move.
  - injection He as <-. split; [|exact Hcnt].
    change (chans_ok (chan_state m) (update (if b (loc th) then goto tgt else next) t ths)).
    eapply chans_move; [done..|]. by destruct (b (loc th)).
Qed.

Lemma sync_ok_step m m' : sync_ok m → mstep m m' → sync_ok m'.
Proof.
  intros Hok Hstep. destruct Hstep as [t th m m' Ht Hr He]. apply andb_true_iff in Hr as [Hs%negb_true_iff _].
  by eapply sync_ok_exec.
Qed.

(** Nobody waits at the start. *)
Lemma sync_ok_start g ss ls cs ps :
  Forall (λ sem, 0 ≤ sem_count sem < two32 ∧ sem_wchan sem = []) ss →
  Forall (λ lk, lk_holder lk = None ∧ lk_wchan lk = []) ls → Forall (λ v, cv_wchan v = []) cs →
  sync_ok (@start G L g ss ls cs ps).
Proof.
  intros Hss Hls Hcs. rewrite Forall_lookup in Hss. rewrite Forall_lookup in Hls. rewrite Forall_lookup in Hcs.
  assert (∀ t th, threads (@start G L g ss ls cs ps) !! t = Some th → asleep th = false) as Hawake.
  { intros t th. simpl. intros (p & -> & _)%list_lookup_fmap_Some. done. }
  split; [split|].
  - intros c wc n Hst. assert (0 ≤ n ∧ wc = []) as [Hn ->].
    { destruct c as [s|l|c]; simpl in Hst.
      - destruct (ss !! s) as [sem|] eqn:E; [|done]. destruct (Hss _ _ E). naive_solver lia.
      - destruct (ls !! l) as [lk|] eqn:E; [|done]. destruct (Hls _ _ E) as [Hh Hw].
        simpl in Hst. rewrite Hh in Hst. naive_solver lia.
      - destruct (cs !! c) as [v|] eqn:E; [|done]. pose proof (Hcs _ _ E). naive_solver lia. }
    split; [done|]. split; [constructor| |by left]. intros t. split; [by intros ?%elem_of_nil|].
    intros (th & Ht%Hawake & ? & _). congruence.
  - intros t th Ht%Hawake ?. congruence.
  - intros s sem Hs. by destruct (Hss _ _ Hs) as [[??] _].
Qed.

End invariant.

Lemma sem_count_range {G L} (m : machine G L) s sem :
  sync_ok m → sems m !! s = Some sem → 0 ≤ sem_count sem < two32.
Proof.
  intros [[Hc _] Hs] E. split; [|by eauto].
  destruct (Hc (CSem s) (sem_wchan sem) (sem_count sem)); [by simpl; rewrite E|done].
Qed.

(** A scheduler that always runs the first thread that is ready, for concrete
    runs of a program. *)
Fixpoint first_ready {G L} (t : nat) (ths : list (thr G L)) : option nat :=
  match ths with
  | [] => None
  | th :: ths => if ready th then Some t else first_ready (S t) ths
  end.

Fixpoint run_sched {G L} (fuel : nat) (m : machine G L) : machine G L :=
  match fuel with
  | O => m
  | S fuel =>
      match first_ready 0 (threads m) with
      | None => m
      | Some t => match exec t m with Ok m' => run_sched fuel m' | _ => m end
      end
  end.

Lemma first_ready_Some {G L} n (ths : list (thr G L)) t :
  first_ready n ths = Some t → ∃ th, ths !! (t - n)%nat = Some th ∧ ready th = true ∧ (n ≤ t)%nat.
Proof.
  revert n. induction ths as [|th ths IH]; intros n; simpl; [done|].
  destruct (ready th) eqn:E.
  - intros [= <-]. exists th. by rewrite Nat.sub_diag.
  - intros (th' & Ht & ? & ?)%IH. exists th'. split_and!; [|done|lia].
    by replace (t - n)%nat with (S (t - S n)) by lia.
Qed.

Lemma run_sched_reachable {G L} init fuel (m : machine G L) :
  reachable init mstep m → reachable init mstep (run_sched fuel m).
Proof.
  revert m. induction fuel as [|fuel IH]; intros m Hr; simpl; [done|].
  destruct (first_ready 0 (threads m)) as [t|] eqn:Ef; [|done].
  destruct (exec t m) as [m'| | |] eqn:Ee; try done. apply IH.
  apply first_ready_Some in Ef as (th & Ht & Hrd & _). rewrite Nat.sub_0_r in Ht.
  apply (reach_step _ _ m); [done|]. by apply (mstep_exec t th).
Qed.

(** The threads take their turns in a given order; one that is not ready misses
    its turn. *)
Fixpoint run_order {G L} (ts : list nat) (m : machine G L) : machine G L :=
  match ts with
  | [] => m
  | t :: ts =>
      match threads m !! t with
      | Some th => if ready th then match exec t m with Ok m' => run_order ts m' | _ => m end else run_order ts m
      | None => run_order ts m
      end
  end.

Lemma run_order_reachable {G L} init ts (m : machine G L) :
  reachable init mstep m → reachable init mstep (run_order ts m).
Proof.
  revert m. induction ts as [|t ts IH]; intros m Hr; simpl; [done|].
  destruct (threads m !! t) as [th|] eqn:Ht; [|by apply IH]. destruct (ready th) eqn:Hrd; [|by apply IH].
  destruct (exec t m) as [m'| | |] eqn:Ee; try done. apply IH.
  apply (reach_step _ _ m); [done|]. by apply (mstep_exec t th).
Qed.

Lemma no_ready_stuck {G L} (ths : list (thr G L)) :
  forallb (λ th, negb (ready th)) ths = true → ∀ t th, ths !! t = Some th → ready th = false.
Proof.
  intros H t th Ht. rewrite forallb_forall in H. apply negb_true_iff, H.
  apply list_elem_of_In, list_elem_of_lookup. eauto.
Qed.

(** ** What one instruction does

    For programs that reason about single threads: the effect of each instruction
    on the counters and on predicates of threads that do not depend on whether
    the thread is asleep. *)

Section effects.
Context {G L : Type}.
Implicit Types (th : thr G L) (ths : list (thr G L)) (m : machine G L).

Lemma exec_P t th m m' s :
  threads m !! t = Some th → cur_instr th = Some (IP s) → exec t m = Ok m' →
  ∃ sem, sems m !! s (loc th) = Some sem ∧
    ((sem_count sem = 0 ∧
      m' = Machine (glob m) (<[s (loc th) := Sem 0 (wchan_sleep (sem_wchan sem) t)]> (sems m)) (locks m) (cvs m)
             (update sleep t (threads m))) ∨
     (sem_count sem ≠ 0 ∧
      m' = Machine (glob m) (<[s (loc th) := Sem (sem_count sem - 1) (sem_wchan sem)]> (sems m)) (locks m) (cvs m)
             (update next t (threads m)))).
Proof.
  intros Ht Hi He. unfold exec in He. rewrite Ht in He. cbn [deref mbind outcome_bind] in He.
  rewrite Hi in He. cbn [deref mbind outcome_bind] in He. destruct m as [g ss ls cs ths]. simpl in *.
  destruct (ss !! s (loc th)) as [sem|]; [|done]. cbn [deref mbind outcome_bind] in He. exists sem. split; [done|].
  unfold sem_P in He. destruct (Z.eqb_spec (sem_count sem) 0) as [E|E]; injection He as <-.
  - left. by rewrite E.
  - by right.
Qed.

Lemma exec_V t th m m' s :
  threads m !! t = Some th → cur_instr th = Some (IV s) → exec t m = Ok m' →
 ∃ sem, sems m !! s (loc th) = Some sem ∧ 0 < u32 (sem_count sem + 1) ∧
    m' = Machine (glob m)
      (<[s (loc th) := Sem (u32 (sem_count sem + 1)) (wchan_wakeone (sem_wchan sem)).1]> (sems m)) (locks m) (cvs m)
      (wake resume (wchan_wakeone (sem_wchan sem)).2 (update next t (threads m))).
Proof.
  intros Ht Hi He. unfold exec in He. rewrite Ht in He. cbn [deref mbind outcome_bind] in He.
  rewrite Hi in He. cbn [deref mbind outcome_bind] in He. destruct m as [g ss ls cs ths]. simpl in *.
  destruct (ss !! s (loc th)) as [sem|]; [|done]. cbn [deref mbind outcome_bind] in He. exists sem. split; [done|].
  unfold sem_V in He. destruct (Z.ltb_spec 0 (u32 (sem_count sem + 1))); [|done].
  cbn [kassert mbind outcome_bind] in He. rewrite wchan_wakeone_eta in He.
  cbn [mbind outcome_bind] in He. by injection He as <-.
Qed.

Lemma exec_Do t th m m' f :
  threads m !! t = Some th → cur_instr th = Some (IDo f) → exec t m = Ok m' →
  ∃ g x, f (glob m) (loc th) = Ok (g, x) ∧
    m' = Machine g (sems m) (locks m) (cvs m) (update (λ th, set_loc x (next th)) t (threads m)).
Proof.
  intros Ht Hi He. unfold exec in He. rewrite Ht in He. cbn [deref mbind outcome_bind] in He.
  rewrite Hi in He. cbn [deref mbind outcome_bind] in He. destruct m as [g ss ls cs ths]. simpl in *.
  destruct (f g (loc th)) as [[g' x]| | |]; try done. cbn [mbind outcome_bind] in He.
  injection He as <-. eauto.
Qed.

Lemma exec_If t th m m' b tgt :
  threads m !! t = Some th → cur_instr th = Some (IIf b tgt) → exec t m = Ok m' →
  m' = Machine (glob m) (sems m) (locks m) (cvs m)
         (update (if b (loc th) then goto tgt else next) t (threads m)).
Proof.
  intros Ht Hi He. unfold exec in He. rewrite Ht in He. cbn [deref mbind outcome_bind] in He.
  rewrite Hi in He. cbn [deref mbind outcome_bind] in He. destruct m as [g ss ls cs ths]. simpl in *.
  by injection He as <-.
Qed.

Lemma exec_Acq t th m m' l :
  threads m !! t = Some th → cur_instr th = Some (IAcq l) → exec t m = Ok m' →
  ∃ lk, locks m !! l = Some lk ∧ lk_holder lk ≠ Some t ∧
    ((is_Some (lk_holder lk) ∧
      m' = Machine (glob m) (sems m) (<[l := Lock (lk_holder lk) (wchan_sleep (lk_wchan lk) t)]> (locks m))
             (cvs m) (update sleep t (threads m))) ∨
     (lk_holder lk = None ∧
      m' = Machine (glob m) (sems m) (<[l := Lock (Some t) (lk_wchan lk)]> (locks m)) (cvs m)
             (update next t (threads m)))).
Proof.
  intros Ht Hi He. unfold exec in He. rewrite Ht in He. cbn [deref mbind outcome_bind] in He.
  rewrite Hi in He. cbn [deref mbind outcome_bind] in He. destruct m as [g ss ls cs ths]. simpl in *.
  destruct (ls !! l) as [lk|]; [|done]. cbn [deref mbind outcome_bind] in He. exists lk. split; [done|].
  unfold lock_acquire, lock_do_i_hold in He. case_bool_decide as Hd; [done|]. split; [done|].
  cbn [negb kassert mbind outcome_bind] in He.
  destruct (lk_holder lk) as [h|]; cbn [mbind outcome_bind] in He; injection He as <-; [left|right]; eauto.
Qed.

Lemma exec_Rel t th m m' l :
  threads m !! t = Some th → cur_instr th = Some (IRel l) → exec t m = Ok m' →
  ∃ lk, locks m !! l = Some lk ∧ lk_holder lk = Some t ∧
    m' = Machine (glob m) (sems m) (<[l := Lock None (wchan_wakeone (lk_wchan lk)).1]> (locks m)) (cvs m)
      (wake resume (wchan_wakeone (lk_wchan lk)).2 (update next t (threads m))).
Proof.
  intros Ht Hi He. unfold exec in He. rewrite Ht in He. cbn [deref mbind outcome_bind] in He.
  rewrite Hi in He. cbn [deref mbind outcome_bind] in He. destruct m as [g ss ls cs ths]. simpl in *.
  destruct (ls !! l) as [lk|]; [|done]. cbn [deref mbind outcome_bind] in He. exists lk. split; [done|].
  unfold lock_release, lock_do_i_hold in He. case_bool_decide as Hd; [|done]. split; [done|].
  cbn [kassert mbind outcome_bind] in He. rewrite wchan_wakeone_eta in He.
  cbn [mbind outcome_bind] in He. by injection He as <-.
Qed.

(** When an instruction can be executed. *)
Lemma exec_P_ok t th m s :
  threads m !! t = Some th → cur_instr th = Some (IP s) → is_Some (sems m !! s (loc th)) → ∃ m', exec t m = Ok m'.
Proof.
  intros Ht Hi [sem Hs]. unfold exec. rewrite Ht. cbn [deref mbind outcome_bind]. rewrite Hi.
  cbn [deref mbind outcome_bind]. destruct m as [g ss ls cs ths]. simpl in *. rewrite Hs.
  cbn [deref mbind outcome_bind]. destruct (sem_P t sem). eauto.
Qed.

Lemma exec_V_ok t th m s sem :
  threads m !! t = Some th → cur_instr th = Some (IV s) → sems m !! s (loc th) = Some sem →
  0 ≤ sem_count sem < two32 - 1 → ∃ m', exec t m = Ok m'.
Proof.
  intros Ht Hi Hs Hr. unfold exec. rewrite Ht. cbn [deref mbind outcome_bind]. rewrite Hi.
  cbn [deref mbind outcome_bind]. destruct m as [g ss ls cs ths]. simpl in *. rewrite Hs.
  cbn [deref mbind outcome_bind]. unfold sem_V. rewrite u32_id by width.
  destruct (Z.ltb_spec 0 (sem_count sem + 1)); [|lia].
  cbn [kassert mbind outcome_bind]. rewrite wchan_wakeone_eta. cbn [mbind outcome_bind]. eauto.
Qed.

Lemma exec_Acq_ok t th m l lk :
  threads m !! t = Some th → cur_instr th = Some (IAcq l) → locks m !! l = Some lk →
  lk_holder lk ≠ Some t → ∃ m', exec t m = Ok m'.
Proof.
  intros Ht Hi Hl Hh. unfold exec. rewrite Ht. cbn [deref mbind outcome_bind]. rewrite Hi.
  cbn [deref mbind outcome_bind]. destruct m as [g ss ls cs ths]. simpl in *. rewrite Hl.
  cbn [deref mbind outcome_bind]. unfold lock_acquire, lock_do_i_hold.
  rewrite bool_decide_eq_false_2 by done. cbn [negb kassert mbind outcome_bind].
  destruct (lk_holder lk); cbn [mbind outcome_bind]; eauto.
Qed.

Lemma exec_Rel_ok t th m l lk :
  threads m !! t = Some th → cur_instr th = Some (IRel l) → locks m !! l = Some lk →
  lk_holder lk = Some t → ∃ m', exec t m = Ok m'.
Proof.
  intros Ht Hi Hl Hh. unfold exec. rewrite Ht. cbn [deref mbind outcome_bind]. rewrite Hi.
  cbn [deref mbind outcome_bind]. destruct m as [g ss ls cs ths]. simpl in *. rewrite Hl.
  cbn [deref mbind outcome_bind]. unfold lock_release, lock_do_i_hold.
  rewrite bool_decide_eq_true_2 by done. cbn [kassert mbind outcome_bind].
  rewrite wchan_wakeone_eta. cbn [mbind outcome_bind]. eauto.
Qed.

Lemma exec_Do_ok t th m f g x :
  threads m !! t = Some th → cur_instr th = Some (IDo f) → f (glob m) (loc th) = Ok (g, x) →
  ∃ m', exec t m = Ok m'.
Proof.
  intros Ht Hi Hf. unfold exec. rewrite Ht. cbn [deref mbind outcome_bind]. rewrite Hi.
  cbn [deref mbind outcome_bind]. destruct m as [g0 ss ls cs ths]. simpl in *. rewrite Hf.
  cbn [mbind outcome_bind]. eauto.
Qed.

Lemma exec_If_ok t th m b tgt :
  threads m !! t = Some th → cur_instr th = Some (IIf b tgt) → ∃ m', exec t m = Ok m'.
Proof.
  intros Ht Hi. unfold exec. rewrite Ht. cbn [deref mbind outcome_bind]. rewrite Hi.
  cbn [deref mbind outcome_bind]. destruct m as [g ss ls cs ths]. eauto.
Qed.

Lemma exec_finished t th m m' :
  threads m !! t = Some th → cur_instr th = None → exec t m ≠ Ok m'.
Proof. intros Ht Hi He. unfold exec in He. rewrite Ht in He. simpl in He. by rewrite Hi in He. Qed.

(** Predicates that do not look at [asleep]. *)
Definition stable {A} (P : thr G L → A) : Prop := ∀ th b, P (Thr (prog th) (pc th) b (loc th)) = P th.

Lemma cnt_resume P target ths : stable P → cnt P (wake resume target ths) = cnt P ths.
Proof.
  intros HP. destruct target as [w|]; [|done]. simpl. unfold update.
  destruct (ths !! w) as [th|] eqn:Hw; [|done].
  pose proof (cnt_insert P ths w th (resume th) Hw) as Hc.
  rewrite (HP th false : P (resume th) = P th) in Hc. lia.
Qed.

Lemma cnt_awake_resume target ths :
  (cnt (λ th, negb (asleep th)) (wake resume target ths) ≤ cnt (λ th, negb (asleep th)) ths + 1)%nat.
Proof.
  destruct target as [w|]; simpl; [|lia]. unfold update.
  destruct (ths !! w) as [th|] eqn:Hw; [|lia].
  pose proof (cnt_insert (λ th, negb (asleep th)) ths w th (resume th) Hw) as Hc. cbn beta in Hc.
  change (asleep (resume th)) with false in Hc. simpl in Hc. lia.
Qed.

Lemma sum_resume f target ths :
  stable f → sum_list_with f (wake resume target ths) = sum_list_with f ths.
Proof.
  intros Hf. destruct target as [w|]; [|done]. simpl. unfold update.
  destruct (ths !! w) as [th|] eqn:Hw; [|done].
  pose proof (sum_insert f ths w th (resume th) Hw) as Hs.
  rewrite (Hf th false : f (resume th) = f th) in Hs. lia.
Qed.

Lemma flat_resume {B} (f : thr G L → list B) target ths :
  stable f → flat_map f (wake resume target ths) ≡ₚ flat_map f ths.
Proof.
  intros Hf. destruct target as [w|]; [|done]. simpl. unfold update.
  destruct (ths !! w) as [th|] eqn:Hw; [|done].
  pose proof (flat_insert f ths w th (resume th) Hw) as Hs.
  rewrite (Hf th false : f (resume th) = f th) in Hs. by apply Permutation_app_inv_r in Hs.
Qed.

(** One thread moves and another may be woken: the change of a count, of a sum
    and of a collection. *)
Lemma cnt_step P f target t th ths :
  stable P → ths !! t = Some th →
  (cnt P (wake resume target (update f t ths)) + Nat.b2n (P th) = cnt P ths + Nat.b2n (P (f th)))%nat.
Proof. intros HP Ht. rewrite cnt_resume by done. by apply cnt_update. Qed.

Lemma sum_step φ f target t th ths :
  stable φ → ths !! t = Some th →
  (sum_list_with φ (wake resume target (update f t ths)) + φ th = sum_list_with φ ths + φ (f th))%nat.
Proof. intros HP Ht. rewrite sum_resume by done. unfold update. rewrite Ht. by apply sum_insert. Qed.

Lemma flat_step {B} (φ : thr G L → list B) f target t th ths :
  stable φ → ths !! t = Some th →
  flat_map φ (wake resume target (update f t ths)) ++ φ th ≡ₚ flat_map φ ths ++ φ (f th).
Proof. intros HP Ht. rewrite flat_resume by done. unfold update. rewrite Ht. by apply flat_insert. Qed.

Lemma map_step {B} (φ : thr G L → B) f target t th ths :
  stable φ → ths !! t = Some th → φ (f th) = φ th →
  map φ (wake resume target (update f t ths)) = map φ ths.
Proof.
  intros HP Ht Hf.
  assert (∀ f' t' ths', (∀ x, ths' !! t' = Some x → φ (f' x) = φ x) → map φ (update f' t' ths') = map φ ths') as Hu.
  { intros f' t' ths' Hx. unfold update. destruct (ths' !! t') as [x|] eqn:E; [|done].
    change (φ <$> <[t' := f' x]> ths' = φ <$> ths'). rewrite list_fmap_insert, (Hx x eq_refl).
    apply list_insert_id. rewrite list_lookup_fmap, E. done. }
  destruct target as [w|]; simpl; rewrite ?Hu; try done; intros x Hx; [congruence| |congruence].
  apply (HP x false).
Qed.

Lemma lookup_resume target ths t th :
  wake resume target ths !! t = Some th →
  ∃ th0, ths !! t = Some th0 ∧ prog th0 = prog th ∧ pc th0 = pc th ∧ loc th0 = loc th.
Proof.
  destruct target as [w|]; simpl; [|eauto 10]. rewrite update_lookup. case_decide; [|eauto 10].
  subst. destruct (ths !! t) as [th0|]; [|done]. simpl. intros [= <-]. eauto 10.
Qed.

(** The other threads are as before, up to being woken. *)
Lemma lookup_step f target t ths t' th' th :
  ths !! t = Some th → wake resume target (update f t ths) !! t' = Some th' →
  ∃ th0, prog th0 = prog th' ∧ pc th0 = pc th' ∧ loc th0 = loc th' ∧
    if decide (t' = t) then th0 = f th else ths !! t' = Some th0.
Proof.
  intros Ht Ht'. apply lookup_resume in Ht' as (th0 & H0 & ? & ? & ?). exists th0. split_and!; try done.
  rewrite update_lookup in H0. case_decide; case_decide; try congruence. subst. rewrite Ht in H0.
  by injection H0.
Qed.

End effects.

(** ** Termination

    A program terminates under every schedule when the instructions its threads
    still execute, not counting the retries of a [P] or [lock_acquire] after a
    wakeup, can be bounded: [work] bounds those of one thread, and [credit] is a
    share of the bound that the shared data accounts for. *)
Section measure.
Context {G L : Type}.
Variable work : thr G L → nat.
Variable credit : G → nat.
Implicit Types (th : thr G L) (m : machine G L).

Definition is_awake th : bool := negb (asleep th).

(** Going to sleep keeps [work]; a [V] or [lock_release] uses one instruction to
    wake one thread. *)
Definition measure m : nat :=
  2 * (sum_list_with work (threads m) + credit (glob m)) + cnt is_awake (threads m).

Hypothesis work_stable : stable work.

Lemma measure_sleep m m' t th :
  threads m !! t = Some th → asleep th = false → glob m' = glob m →
  threads m' = update sleep t (threads m) → (measure m' < measure m)%nat.
Proof.
  intros Ht Ha Eg E. unfold measure. rewrite E, Eg.
  pose proof (sum_step work sleep None t th (threads m) work_stable Ht) as Hs.
  pose proof (cnt_update is_awake sleep t (threads m) th Ht) as Hc.
  unfold is_awake in Hc at 2 4. rewrite Ha in Hc. simpl in *.
  rewrite (work_stable th true : work (sleep th) = work th) in Hs. lia.
Qed.

Lemma measure_work m m' f target t th :
  threads m !! t = Some th → asleep th = false →
  threads m' = wake resume target (update f t (threads m)) → asleep (f th) = false →
  (work (f th) + credit (glob m') < work th + credit (glob m))%nat → (measure m' < measure m)%nat.
Proof.
  intros Ht Ha E Hf Hw. unfold measure. rewrite E.
  pose proof (sum_step work f target t th (threads m) work_stable Ht) as Hs.
  pose proof (cnt_awake_resume target (update f t (threads m))) as Hr. fold is_awake in Hr.
  pose proof (cnt_update is_awake f t (threads m) th Ht) as Hc.
  unfold is_awake in Hc at 2 4. rewrite Ha, Hf in Hc. simpl in Hc.
  change (λ th, negb (asleep th)) with is_awake in Hr. lia.
Qed.

(** With an invariant under which every instruction uses up some of the measure,
    every schedule ends. *)
Lemma measure_acc (inv : machine G L → Prop) m :
  (∀ m m', inv m → mstep m m' → inv m') →
  (∀ m m' t th, inv m → threads m !! t = Some th → asleep th = false → exec t m = Ok m' →
     (measure m' < measure m)%nat) →
  inv m → Acc (λ m2 m1, mstep m1 m2) m.
Proof.
  intros Hpres Hdec. remember (measure m) as n eqn:En. revert m En.
  induction n as [n IH] using lt_wf_ind. intros m -> Hinv. constructor. intros m' Hs.
  eapply IH; [|reflexivity|by eapply Hpres].
  destruct Hs as [t th m m' Ht Hrd He]. apply andb_true_iff in Hrd as [Ha%negb_true_iff _].
  by eapply Hdec.
Qed.

End measure.

#[global] Arguments measure {G L} work credit m : simpl never.

(** What a state in which no thread is ready looks like. *)
Lemma stuck_shape {G L} (m : machine G L) t th :
  sync_ok m → (∀ t th, threads m !! t = Some th → ready th = false) →
  threads m !! t = Some th → finished th = false →
  (∃ s sem, cur_instr th = Some (IP s) ∧ sems m !! s (loc th) = Some sem ∧ sem_count sem = 0) ∨
  (∃ l lk h, cur_instr th = Some (IAcq l) ∧ locks m !! l = Some lk ∧ lk_holder lk = Some h) ∨
  (∃ c l, cur_instr th = Some (IWait c l)).
Proof.
  intros [[Hok Hb] _] Hstuck Ht Hf.
  assert (∀ c, cnt (awake c) (threads m) = 0%nat) as Hnone.
  { intros c. apply cnt_zero. intros t' th' Ht'. pose proof (Hstuck _ _ Ht') as Hn.
    unfold ready in Hn. unfold awake, wants, instr_chan.
    destruct (asleep th'); [done|]. simpl in *. apply bool_decide_eq_false in Hn.
    destruct (cur_instr th') eqn:E; [by destruct Hn|done]. }
  assert (asleep th = true) as Has.
  { pose proof (Hstuck _ _ Ht) as Hn. unfold ready in Hn. destruct (asleep th); [done|].
    simpl in Hn. apply bool_decide_eq_false in Hn. apply bool_decide_eq_false in Hf.
    by destruct (cur_instr th); [destruct Hn|]. }
  destruct (Hb _ _ Ht Has) as (c & Hc & [wc n] & Hst).
  destruct (Hok _ _ _ Hst) as [Hn [_ Hin Haw]].
  assert (t ∈ wc) as Hmem.
  { apply Hin. exists th. split_and!; [done..|]. by apply wants_true. }
  destruct Haw as [->|Haw]; [by apply elem_of_nil in Hmem|]. rewrite Hnone in Haw.
  unfold instr_chan in Hc. destruct (cur_instr th) as [[s|s|l|l|c' l|c'|c'|f|b tg]|] eqn:Ei; simplify_eq/=.
  - left. destruct (sems m !! s (loc th)) as [sem|] eqn:E; simplify_eq/=. exists s, sem. split_and!; [done..|lia].
  - right; left. destruct (locks m !! l) as [lk|] eqn:E; simplify_eq/=.
    destruct (lk_holder lk) as [h|] eqn:Eh; [by eauto 10|lia].
  - right; right. eauto.
Qed.

(** ** Locks that protect a section of code *)

Section critical.
Context {G L : Type}.
Implicit Types (th : thr G L) (m : machine G L).

Definition holder (l : nat) m : option nat := lk ← locks m !! l; lk_holder lk.

(** The threads in the part [crit] of their code are the holder of lock [l]. *)
Record guarded (l : nat) (crit : thr G L → bool) m : Prop := {
  gu_lock : is_Some (locks m !! l);
  gu_crit t th : threads m !! t = Some th → crit th = bool_decide (holder l m = Some t);
  gu_thread t : holder l m = Some t → is_Some (threads m !! t)
}.

Lemma holder_lookup l lk m : locks m !! l = Some lk → holder l m = lk_holder lk.
Proof. intros Hl. unfold holder. by rewrite Hl. Qed.

Lemma holder_insert l lk m g ss cs ths :
  is_Some (locks m !! l) → holder l (Machine g ss (<[l := lk]> (locks m)) cs ths) = lk_holder lk.
Proof. intros Hl%lookup_lt_is_Some. unfold holder. simpl. by rewrite list_lookup_insert_eq. Qed.

Lemma holder_insert_ne l l' lk m g ss cs ths :
  l' ≠ l → holder l (Machine g ss (<[l' := lk]> (locks m)) cs ths) = holder l m.
Proof. intros Hl. unfold holder. simpl. by rewrite list_lookup_insert_ne. Qed.

(** A thread moves into, out of or within the section. *)
Lemma guarded_move l crit m m' f target t th :
  stable crit → guarded l crit m → threads m !! t = Some th →
  threads m' = wake resume target (update f t (threads m)) → length (locks m') = length (locks m) →
  (crit (f th) = true → crit th = true ∨ holder l m = None) →
  holder l m' = (if crit (f th) then Some t else if crit th then None else holder l m) →
  guarded l crit m'.
Proof.
  intros Hst [Hl Hc Hth] Ht E Hlen Hin Hh. split.
  - apply lookup_lt_is_Some. rewrite Hlen. by apply lookup_lt_is_Some.
  - intros t' th' Ht'. rewrite E in Ht'.
    destruct (lookup_step _ _ _ _ _ _ _ Ht Ht') as (th0 & Hp & Hpc & Hloc & H0).
    assert (crit th' = crit th0) as ->.
    { destruct th', th0. simpl in *. subst. symmetry. exact (Hst (Thr _ _ asleep0 _) asleep1). }
    pose proof (Hc t th Ht) as Hct. rewrite Hh. case_decide as Hd.
    + subst t' th0. destruct (crit (f th)) eqn:Ef; [by rewrite bool_decide_eq_true_2|].
      rewrite bool_decide_eq_false_2; [done|]. destruct (crit th); [done|].
      symmetry in Hct. by apply bool_decide_eq_false in Hct.
    + rewrite (Hc t' th0 H0). apply bool_decide_ext.
      destruct (crit (f th)); [|destruct (crit th)]; [|symmetry in Hct..].
      * split; [|intros; congruence]. intros Ht0. destruct Hin as [Hi|Hi]; [done| |congruence].
        rewrite Hi in Hct. symmetry in Hct. apply bool_decide_eq_true in Hct. congruence.
      * apply bool_decide_eq_true in Hct. split; congruence.
      * done.
  - intros t'. rewrite Hh, E. intros Ht'.
    assert (is_Some (threads m !! t')) as Hs.
    { destruct (crit (f th)), (crit th); simplify_eq; eauto. }
    destruct target as [w|]; simpl; rewrite !update_lookup; repeat case_decide; subst;
      rewrite ?fmap_is_Some; done.
Qed.

Lemma guarded_unique l crit m t th t' th' :
  guarded l crit m → threads m !! t = Some th → threads m !! t' = Some th' →
  crit th = true → crit th' = true → t = t'.
Proof.
  intros [_ Hc _] Ht Ht' E E'. rewrite (Hc _ _ Ht) in E. rewrite (Hc _ _ Ht') in E'.
  apply bool_decide_eq_true in E, E'. congruence.
Qed.

Lemma guarded_holder l crit m t :
  guarded l crit m → holder l m = Some t → ∃ th, threads m !! t = Some th ∧ crit th = true.
Proof.
  intros [_ Hc Hth] Hh. destruct (Hth t Hh) as [th Ht]. exists th. split; [done|].
  rewrite (Hc t th Ht). by apply bool_decide_eq_true_2.
Qed.

End critical.

(** When all threads have finished nobody waits, and semaphores can be destroyed. *)
Lemma finished_no_waiters {G L} (m : machine G L) c wc n :
  sync_ok m → (∀ t th, threads m !! t = Some th → finished th = true) →
  chan_state m c = Some (wc, n) → wc = [].
Proof.
  intros [[Hc _] _] Hfin Hst. destruct (Hc c wc n Hst) as [_ [_ Hin _]].
  destruct wc as [|t wc]; [done|exfalso]. destruct (proj1 (Hin t)) as (th & Ht & _ & Hw); [left|].
  specialize (Hfin t th Ht). apply bool_decide_eq_true in Hfin.
  apply wants_true in Hw. unfold instr_chan in Hw. by rewrite Hfin in Hw.
Qed.

Lemma finished_sem_destroy {G L} (m : machine G L) s sem :
  sync_ok m → (∀ t th, threads m !! t = Some th → finished th = true) →
  sems m !! s = Some sem → sem_destroy sem = Ok tt.
Proof.
  intros Hs Hfin Hsem. unfold sem_destroy.
  by rewrite (finished_no_waiters m (CSem s) (sem_wchan sem) (sem_count sem) Hs Hfin)
    by (simpl; by rewrite Hsem).
Qed.

Lemma finished_lock_destroy {G L} (m : machine G L) l lk :
  sync_ok m → (∀ t th, threads m !! t = Some th → finished th = true) →
  locks m !! l = Some lk → lk_holder lk = None → lock_destroy lk = Ok tt.
Proof.
  intros Hs Hfin Hl Hh. unfold lock_destroy. rewrite Hh. simpl.
  by rewrite (finished_no_waiters m (CLock l) (lk_wchan lk) 1 Hs Hfin)
    by (simpl; rewrite Hl; simpl; by rewrite Hh).
Qed.

(** ** Properties *)

(** The states of a program started with fresh semaphores, locks and condition
    variables. *)
Definition started {G L} (m : machine G L) : Prop :=
  ∃ g ss ls cs ps, m = start g ss ls cs ps ∧
    Forall (λ sem, 0 ≤ sem_count sem < two32 ∧ sem_wchan sem = []) ss ∧
    Forall (λ lk, lk_holder lk = None ∧ lk_wchan lk = []) ls ∧ Forall (λ v, cv_wchan v = []) cs.

Lemma sync_ok_reachable {G L} (m : machine G L) : reachable started mstep m → sync_ok m.
Proof.
  apply reachable_invariant; [|exact sync_ok_step].
  intros s (g & ss & ls & cs & ps & -> & ? & ? & ?). by apply sync_ok_start.
Qed.

(** C36: no wakeup is lost.  Whatever the threads do, in every reachable state a
    semaphore that somebody sleeps on has at most as many units as there are
    threads awake and about to take one, and a lock that somebody sleeps on is
    held or about to be taken by a thread that is awake. *)
Theorem no_lost_wakeup {G L} (m : machine G L) (Hr : reachable started mstep m) :
  (∀ s sem t th, threads m !! t = Some th → asleep th = true → cur_instr th = Some (IP s) →
     sems m !! s (loc th) = Some sem →
     0 ≤ sem_count sem ≤ Z.of_nat (cnt (awake (CSem (s (loc th)))) (threads m))) ∧
  (∀ l lk t th, locks m !! l = Some lk → threads m !! t = Some th → asleep th = true →
     cur_instr th = Some (IAcq l) →
     is_Some (lk_holder lk) ∨ (1 ≤ cnt (awake (CLock l)) (threads m))%nat).
Proof.
  destruct (sync_ok_reachable m Hr) as [[Hok _] _]. split.
  - intros s sem t th Ht Has Hi Hs.
    destruct (Hok (CSem (s (loc th))) (sem_wchan sem) (sem_count sem)) as [Hn [_ Hin Haw]];
      [simpl; by rewrite Hs|].
    assert (t ∈ sem_wchan sem) as Hmem.
    { apply Hin. exists th. split_and!; [done..|]. apply wants_true. unfold instr_chan. by rewrite Hi. }
    destruct Haw as [E|Haw]; [rewrite E in Hmem; by apply elem_of_nil in Hmem|lia].
  - intros l lk t th Hl Ht Has Hi.
    destruct (Hok (CLock l) (lk_wchan lk) (match lk_holder lk with None => 1 | Some _ => 0 end))
      as [_ [_ Hin Haw]]; [simpl; by rewrite Hl|].
    assert (t ∈ lk_wchan lk) as Hmem.
    { apply Hin. exists th. split_and!; [done..|]. apply wants_true. unfold instr_chan. by rewrite Hi. }
    destruct Haw as [E|Haw]; [rewrite E in Hmem; by apply elem_of_nil in Hmem|].
    destruct (lk_holder lk); [by left; eauto|right; lia].
Qed.

(** C37: what a deadlock looks like.  In a reachable state in which no thread is
    ready, every thread that has not finished waits for a semaphore whose count
    is 0, for a lock that is held, or for a condition variable. *)
Theorem deadlock_shape {G L} (m : machine G L) (Hr : reachable started mstep m)
  (Hstuck : ∀ t th, threads m !! t = Some th → ready th = false) t th
  (Ht : threads m !! t = Some th) (Hf : finished th = false) :
  (∃ s sem, cur_instr th = Some (IP s) ∧ sems m !! s (loc th) = Some sem ∧ sem_count sem = 0) ∨
  (∃ l lk h, cur_instr th = Some (IAcq l) ∧ locks m !! l = Some lk ∧ lk_holder lk = Some h) ∨
  (∃ c l, cur_instr th = Some (IWait c l)).
Proof. apply (stuck_shape m t); [by apply sync_ok_reachable|done..]. Qed.

(** A lock excludes.  While a thread holds a lock, no step of another thread
    takes it away: only the holder can release it. *)
Theorem lock_excludes {G L} (m m' : machine G L) l lk t t' lk'
  (Hl : locks m !! l = Some lk) (Hh : lk_holder lk = Some t) (Hne : t' ≠ t)
  (He : exec t' m = Ok m') (Hl' : locks m' !! l = Some lk') :
  lk_holder lk' = Some t.
Proof.
  unfold exec in He. destruct (threads m !! t') as [th|]; [|done]. cbn [deref mbind outcome_bind] in He.
  destruct (cur_instr th) as [i|]; [|done]. cbn [deref mbind outcome_bind] in He.
  destruct m as [g ss ls cs ths]. simpl in Hl.
  assert (∀ l0 lk0 lk1, ls !! l0 = Some lk0 →
    (lk_holder lk0 = Some t → lk_holder lk1 = Some t) → <[l0 := lk1]> ls !! l = Some lk' →
    lk_holder lk' = Some t) as Hgen.
  { intros l0 lk0 lk1 H0 Hk Hl1. apply list_lookup_insert_Some in Hl1 as [(-> & <- & _)|[_ ?]];
      [|congruence]. apply Hk. congruence. }
  destruct i as [s|s|l0|l0|c l0|c|c|f|b tgt].
  - destruct (ss !! s (loc th)); [|done]. cbn [deref mbind outcome_bind] in He.
    destruct (sem_P t' _). injection He as <-. simpl in Hl'. congruence.
  - destruct (ss !! s (loc th)) as [sem|]; [|done]. cbn [deref mbind outcome_bind] in He.
    destruct (sem_V sem) as [[? ?]| | |]; try done. injection He as <-. simpl in Hl'. congruence.
  - destruct (ls !! l0) as [lk0|] eqn:E; [|done]. cbn [deref mbind outcome_bind] in He.
    unfold lock_acquire in He. destruct (negb _); [|done]. cbn [kassert mbind outcome_bind] in He.
    destruct (lk_holder lk0) eqn:Eh; cbn [mbind outcome_bind] in He; injection He as <-;
      (cbn [locks] in Hl'; refine (Hgen l0 lk0 _ E _ Hl'); simpl; congruence).
  - destruct (ls !! l0) as [lk0|] eqn:E; [|done]. cbn [deref mbind outcome_bind] in He.
    unfold lock_release, lock_do_i_hold in He. case_bool_decide as Hd; [|done].
    cbn [kassert mbind outcome_bind] in He. rewrite wchan_wakeone_eta in He.
    cbn [mbind outcome_bind] in He. injection He as <-.
    cbn [locks] in Hl'. refine (Hgen l0 lk0 _ E _ Hl'). congruence.
  - destruct (cs !! c) as [v|]; [|done]. cbn [deref mbind outcome_bind] in He.
    destruct (ls !! l0) as [lk0|] eqn:E; [|done]. cbn [deref mbind outcome_bind] in He.
    unfold cv_wait, lock_release, lock_do_i_hold in He. case_bool_decide as Hd; [|done].
    cbn [kassert mbind outcome_bind] in He. rewrite wchan_wakeone_eta in He.
    cbn [mbind outcome_bind] in He. injection He as <-.
    cbn [locks] in Hl'. refine (Hgen l0 lk0 _ E _ Hl'). congruence.
  - destruct (cs !! c); [|done]. cbn [deref mbind outcome_bind] in He. destruct (cv_signal _).
    injection He as <-. simpl in Hl'. congruence.
  - destruct (cs !! c); [|done]. cbn [deref mbind outcome_bind] in He. destruct (cv_broadcast _).
    injection He as <-. simpl in Hl'. congruence.
  - destruct (f g (loc th)) as [[? ?]| | |]; try done. injection He as <-. simpl in Hl'. congruence.
  - injection He as <-. simpl in Hl'. congruence.
Qed.

(** *** Concrete runs *)

(** Two threads that take a lock and then wait for a semaphore of count 0. *)
Definition demo_code : list (instr unit unit) := [IAcq 0; IP (λ _, 0%nat); IV (λ _, 0%nat); IRel 0].

Definition demo_machine (n : nat) : machine unit unit :=
  run_sched n (start tt [sem_create 0] [lock_create] [] [(demo_code, tt); (demo_code, tt)]).

Lemma demo_machine_reachable n : reachable started mstep (demo_machine n).
Proof.
  apply run_sched_reachable, reach_init.
  exists tt, [sem_create 0], [lock_create], [], [(demo_code, tt); (demo_code, tt)].
  by repeat constructor.
Qed.

(** The first thread holds the lock and sleeps on the semaphore, the second
    sleeps on the lock. *)
Definition demo_sleeper (p : nat) : thr unit unit := Thr demo_code p true tt.

Lemma no_lost_wakeup_witness :
  asleep (demo_sleeper 1) = true ∧
  0 ≤ 0 ≤ Z.of_nat (cnt (awake (CSem 0)) (threads (demo_machine 3))).
Proof.
  split; [reflexivity|].
  apply (proj1 (no_lost_wakeup (demo_machine 3) (demo_machine_reachable 3)) (λ _, 0%nat) (Sem 0 [0%nat]) 0%nat (demo_sleeper 1));
    vm_compute; reflexivity.
Defined.

Lemma deadlock_shape_witness :
  (∃ s sem, cur_instr (demo_sleeper 0) = Some (IP s) ∧ sems (demo_machine 3) !! s tt = Some sem ∧ sem_count sem = 0) ∨
  (∃ l lk h, cur_instr (demo_sleeper 0) = Some (IAcq l) ∧ locks (demo_machine 3) !! l = Some lk ∧ lk_holder lk = Some h) ∨
  (∃ c l, cur_instr (demo_sleeper 0) = Some (IWait c l)).
Proof.
  apply (deadlock_shape (demo_machine 3) (demo_machine_reachable 3)) with (t := 1%nat).
  - apply no_ready_stuck. vm_compute. reflexivity.
  - vm_compute. reflexivity.
  - vm_compute. reflexivity.
Defined.

Lemma lock_excludes_witness :
  lk_holder (Lock (Some 0%nat) []) = Some 0%nat ∧ lk_holder (Lock (Some 0%nat) [1%nat]) = Some 0%nat.
Proof.
  split; [reflexivity|].
  apply (lock_excludes (demo_machine 2) (demo_machine 3) 0 (Lock (Some 0%nat) []) 0 1 (Lock (Some 0%nat) [1%nat]));
    solve [vm_compute; reflexivity | discriminate].
Defined.
