(* ===== verification/ProducerConsumer.v ===== *)
(** * The producer/consumer simulation of assignment 1

    producerconsumer.c ([producer_send], [consumer_receive], the start-up code)
    and its driver producerconsumer_driver.c ([producer_thread],
    [consumer_thread], [run_producerconsumer]) as programs of the machine of
    Synch.v.  Every access to a shared variable is a step of its own; the
    update of an index is a load and a store.  The histories [sent] and
    [received] record the order in which items enter and leave the buffer; no
    instruction reads them.

    The theorems: the buffer is a bounded FIFO queue whatever the interleaving,
    and the simulation always runs to its end, with every item delivered. *)

From stdpp Require Import base list list_numbers sorting.
From Stdlib Require Import ZArith Lia.
From S2P Require Import Prelude Synch.
Open Scope Z_scope.

#[local] Arguments cnt {A} P l : simpl never.

Definition BUFFER_SIZE : Z := 10.
Definition SOMETHING_WRONG_COUNT : Z := 10000.

Definition pc_data : Type := Z * Z.

Record pc_glob := PcGlob {
  buffer : list pc_data;
  queue_front : Z;
  queue_rear : Z;
  sent : list pc_data;
  received : list pc_data
}.

Inductive role := Main | Producer | Consumer.

(** Local variables: [tmp] holds a loaded index, [i] is the loop counter of the
    driver's main thread. *)
Record pc_loc := PcLoc {
  kind : role;
  thread_num : Z;
  thedata : pc_data;
  tmp : Z;
  items_to_go : Z;
  check_count : Z;
  i : Z
}.

Definition with_data (d : pc_data) (l : pc_loc) : pc_loc :=
  PcLoc (kind l) (thread_num l) d (tmp l) (items_to_go l) (check_count l) (i l).
Definition with_tmp (x : Z) (l : pc_loc) : pc_loc :=
  PcLoc (kind l) (thread_num l) (thedata l) x (items_to_go l) (check_count l) (i l).
Definition with_items (x : Z) (l : pc_loc) : pc_loc :=
  PcLoc (kind l) (thread_num l) (thedata l) (tmp l) x (check_count l) (i l).
Definition with_check (x : Z) (l : pc_loc) : pc_loc :=
  PcLoc (kind l) (thread_num l) (thedata l) (tmp l) (items_to_go l) x (i l).
Definition with_i (x : Z) (l : pc_loc) : pc_loc :=
  PcLoc (kind l) (thread_num l) (thedata l) (tmp l) (items_to_go l) (check_count l) x.

Definition code : Type := list (instr pc_glob pc_loc).

(** A step on the local variables only. *)
Definition local (f : pc_loc → pc_loc) : instr pc_glob pc_loc := IDo (λ g l, Ok (g, f l)).
Definition jump (n : nat) : instr pc_glob pc_loc := IIf (λ _, true) n.

(** The semaphores. *)
Definition mutex : nat := 0.
Definition empty : nat := 1.
Definition full : nat := 2.
Definition producer_finished : nat := 3.
Definition consumer_finished : nat := 4.

(** *** producerconsumer.c *)

Definition put_item (g : pc_glob) (l : pc_loc) : outcome (pc_glob * pc_loc) :=
  buf ← zput (buffer g) (queue_rear g) (thedata l);
  Ok (PcGlob buf (queue_front g) (queue_rear g) (sent g) (received g), l).

Definition load_rear (g : pc_glob) (l : pc_loc) : outcome (pc_glob * pc_loc) :=
  Ok (g, with_tmp (queue_rear g + 1) l).

Definition store_rear (g : pc_glob) (l : pc_loc) : outcome (pc_glob * pc_loc) :=
  Ok (PcGlob (buffer g) (queue_front g) (Z.rem (tmp l) BUFFER_SIZE) (sent g ++ [thedata l]) (received g), l).

Definition producer_send : code :=
  [ IP (λ _, empty); IP (λ _, mutex); IDo put_item; IDo load_rear; IDo store_rear; IV (λ _, mutex); IV (λ _, full) ].

Definition get_item (g : pc_glob) (l : pc_loc) : outcome (pc_glob * pc_loc) :=
  d ← deref (zget (buffer g) (queue_front g));
  Ok (g, with_data d l).

Definition load_front (g : pc_glob) (l : pc_loc) : outcome (pc_glob * pc_loc) :=
  Ok (g, with_tmp (queue_front g + 1) l).

Definition store_front (g : pc_glob) (l : pc_loc) : outcome (pc_glob * pc_loc) :=
  Ok (PcGlob (buffer g) (Z.rem (tmp l) BUFFER_SIZE) (queue_rear g) (sent g) (received g ++ [thedata l]), l).

Definition consumer_receive : code :=
  [ IP (λ _, full); IP (λ _, mutex); IDo get_item; IDo load_front; IDo store_front; IV (λ _, mutex); IV (λ _, empty) ].

Definition producerconsumer_startup (buf : list pc_data) : pc_glob * list semaphore :=
  (PcGlob buf 0 0 [] [], [ sem_create 1; sem_create BUFFER_SIZE; sem_create 0 ]).

Definition producerconsumer_shutdown (ss : list semaphore) : outcome unit :=
  m ← deref (ss !! mutex); sem_destroy m;;
  e ← deref (ss !! empty); sem_destroy e;;
  f ← deref (ss !! full); sem_destroy f.

(** *** producerconsumer_driver.c *)

Section driver.

(** The #defines NUM_PRODUCERS, NUM_CONSUMERS and ITEMS_TO_PRODUCE, which the
    driver says will be changed during testing. *)
Context (NUM_PRODUCERS NUM_CONSUMERS ITEMS_TO_PRODUCE : Z).

(** [items_to_go + (1000 * thread_num)] is computed as an unsigned long and
    stored in an int. *)
Definition item (num n : Z) : pc_data :=
  let item1 := s32 (u32 (n + 1000 * num)) in (item1, s32 (item1 + 1)).

Definition producer_thread : code :=
  [ IIf (λ l, items_to_go l <=? 0) 11;
    local (λ l, with_data (item (thread_num l) (items_to_go l)) l) ] ++
  producer_send ++
  [ local (λ l, with_items (items_to_go l - 1) l);
    jump 0;
    IV (λ _, producer_finished) ].

(** [thedata.item1 != 0 || thedata.item2 != 0], negated. *)
Definition is_stop (d : pc_data) : bool := (d.1 =? 0) && (d.2 =? 0).

Definition consumer_thread : code :=
  consumer_receive ++
  [ IIf (λ l, is_stop (thedata l)) 11;
    local (λ l, with_check (check_count l + 1) l);
    IIf (λ l, SOMETHING_WRONG_COUNT <=? check_count l) 11;
    jump 0;
    IV (λ _, consumer_finished) ].

Definition wait_for_producer_threads : code :=
  [ local (with_i 0);
    IIf (λ l, NUM_PRODUCERS <=? i l) 5;
    IP (λ _, producer_finished);
    local (λ l, with_i (i l + 1) l);
    jump 1 ].

Definition stop_consumer_threads : code :=
  [ local (λ l, with_i 0 (with_data (0, 0) l));
    IIf (λ l, NUM_CONSUMERS <=? i l) 16 ] ++
  producer_send ++
  [ local (λ l, with_i (i l + 1) l);
    jump 6;
    local (with_i 0);
    IIf (λ l, NUM_CONSUMERS <=? i l) 21;
    IP (λ _, consumer_finished);
    local (λ l, with_i (i l + 1) l);
    jump 17 ].

Definition main_thread : code := wait_for_producer_threads ++ stop_consumer_threads.

Definition prog_of (r : role) : code :=
  match r with
  | Main => main_thread
  | Producer => producer_thread
  | Consumer => consumer_thread
  end.

(** Fresh locals: [items_to_go] is initialised to ITEMS_TO_PRODUCE and
    [check_count] to 0. *)
Definition fresh (r : role) (num : Z) : code * pc_loc :=
  (prog_of r, PcLoc r num (0, 0) 0 ITEMS_TO_PRODUCE 0 0).

(** The state after [start_consumer_threads] and [start_producer_threads]; a
    thread that is forked later is one that is not scheduled before. *)
Definition run_producerconsumer (buf : list pc_data) : machine pc_glob pc_loc :=
  let '(g, ss) := producerconsumer_startup buf in
  start g (ss ++ [ sem_create 0; sem_create 0 ]) [] []
    (fresh Main 0 :: map (fresh Consumer) (seqZ 0 NUM_CONSUMERS)
       ++ map (fresh Producer) (seqZ 0 NUM_PRODUCERS)).

(** The end of [run_producerconsumer]. *)
Definition run_shutdown (m : machine pc_glob pc_loc) : outcome unit :=
  producerconsumer_shutdown (sems m);;
  p ← deref (sems m !! producer_finished); sem_destroy p;;
  c ← deref (sems m !! consumer_finished); sem_destroy c.

(** ** Invariant *)

#[local] Abbreviation thread := (thr pc_glob pc_loc).
Implicit Types (th : thread) (ths : list thread) (g : pc_glob).

Definition between (a b x : nat) : bool := ((a <=? x) && (x <=? b))%nat.

(** Position inside [producer_send] (1 to 7; smaller before it, greater after). *)
Definition send_pc th : nat :=
  match kind (loc th) with
  | Producer => pc th - 1
  | Main => pc th - 6
  | Consumer => 0
  end.

(** Position inside [consumer_receive]. *)
Definition recv_pc th : nat :=
  match kind (loc th) with Consumer => S (pc th) | _ => 0 end.

(** Threads that own an empty slot, filled a slot that [full] does not count yet,
    own a full slot, freed a slot that [empty] does not count yet. *)
Definition owns_empty th : bool := between 2 5 (send_pc th).
Definition filled th : bool := between 6 7 (send_pc th).
Definition owns_full th : bool := between 2 5 (recv_pc th).
Definition freed th : bool := between 6 7 (recv_pc th).

(** Threads between [P(mutex)] and [V(mutex)]. *)
Definition critical th : bool := between 3 6 (send_pc th) || between 3 6 (recv_pc th).

Definition is_kind (r : role) th : bool :=
  match kind (loc th), r with
  | Main, Main | Producer, Producer | Consumer, Consumer => true
  | _, _ => false
  end.

Definition done_by (r : role) th : bool := is_kind r th && (12 <=? pc th)%nat.

(** What the main thread has taken from [producer_finished] and
    [consumer_finished], and the stop items it has sent. *)
Definition waited_p th : nat :=
  if is_kind Main th then
    if (pc th =? 0)%nat then 0
    else if between 1 4 (pc th) then Z.to_nat (i (loc th)) + Nat.b2n (pc th =? 3)%nat
    else Z.to_nat NUM_PRODUCERS
  else 0.

Definition waited_c th : nat :=
  if is_kind Main th then
    if (pc th <=? 16)%nat then 0
    else if between 17 20 (pc th) then Z.to_nat (i (loc th)) + Nat.b2n (pc th =? 19)%nat
    else Z.to_nat NUM_CONSUMERS
  else 0.

Definition stops_sent th : nat :=
  if is_kind Main th then
    if (pc th <=? 5)%nat then 0
    else if between 6 15 (pc th) then Z.to_nat (i (loc th)) + Nat.b2n (between 12 14 (pc th))
    else Z.to_nat NUM_CONSUMERS
  else 0.

(** The items a producer has sent: those numbered above [n]. *)
Definition items_above (num n : Z) : list pc_data :=
  map (item num) (seqZ (n + 1) (ITEMS_TO_PRODUCE - n)).

Definition items_sent th : list pc_data :=
  if is_kind Producer th then
    items_above (thread_num (loc th))
      (items_to_go (loc th) - Z.of_nat (Nat.b2n (between 7 9 (pc th))))
  else [].

(** What a consumer has received: stop items, and others. *)
Definition got_stop th : bool :=
  is_kind Consumer th && (5 <=? pc th)%nat && is_stop (thedata (loc th)).

Definition got_items th : nat :=
  if is_kind Consumer th then
    Z.to_nat (check_count (loc th)) +
      Nat.b2n (between 5 8 (pc th) && negb (is_stop (thedata (loc th))))
  else 0.

(** The buffer holds the items sent and not yet received, in order. *)
Record buffer_ok g : Prop := {
  bo_size : zlen (buffer g) = BUFFER_SIZE;
  bo_front : 0 ≤ queue_front g < BUFFER_SIZE;
  bo_window : ∃ win, sent g = received g ++ win ∧
    queue_rear g = (queue_front g + zlen win) mod BUFFER_SIZE ∧
    ∀ j d, win !! j = Some d →
      zget (buffer g) ((queue_front g + Z.of_nat j) mod BUFFER_SIZE) = Some d
}.

(** What holds of a thread where it stands. *)
Record thread_ok g th : Prop := {
  to_prog : prog th = prog_of (kind (loc th));
  to_pc : (pc th ≤ length (prog_of (kind (loc th))))%nat;
  to_num : 0 ≤ thread_num (loc th) < NUM_PRODUCERS ∨ kind (loc th) ≠ Producer;
  to_put : between 4 5 (send_pc th) = true → zget (buffer g) (queue_rear g) = Some (thedata (loc th));
  to_rear : send_pc th = 5%nat → tmp (loc th) = queue_rear g + 1;
  to_get : between 4 5 (recv_pc th) = true → zget (buffer g) (queue_front g) = Some (thedata (loc th));
  to_front : recv_pc th = 5%nat → tmp (loc th) = queue_front g + 1;
  to_local :
    match kind (loc th) with
    | Producer =>
        0 ≤ items_to_go (loc th) ≤ ITEMS_TO_PRODUCE ∧
        (between 1 9 (pc th) = true → 0 < items_to_go (loc th)) ∧
        (between 2 9 (pc th) = true →
           thedata (loc th) = item (thread_num (loc th)) (items_to_go (loc th))) ∧
        ((11 ≤ pc th)%nat → items_to_go (loc th) = 0)
    | Consumer =>
        0 ≤ check_count (loc th) ∧
        ((pc th ≤ 8)%nat → check_count (loc th) < SOMETHING_WRONG_COUNT) ∧
        (pc th = 10%nat → check_count (loc th) < SOMETHING_WRONG_COUNT) ∧
        (between 8 10 (pc th) = true → is_stop (thedata (loc th)) = false) ∧
        ((11 ≤ pc th)%nat → is_stop (thedata (loc th)) = true ∨ SOMETHING_WRONG_COUNT ≤ check_count (loc th))
    | Main =>
        (between 1 4 (pc th) = true → 0 ≤ i (loc th) ≤ NUM_PRODUCERS) ∧
        (between 2 3 (pc th) = true → i (loc th) < NUM_PRODUCERS) ∧
        (between 6 20 (pc th) = true → pc th ≠ 16%nat → 0 ≤ i (loc th) ≤ NUM_CONSUMERS) ∧
        (between 7 14 (pc th) = true → i (loc th) < NUM_CONSUMERS) ∧
        (between 18 19 (pc th) = true → i (loc th) < NUM_CONSUMERS) ∧
        ((6 ≤ pc th)%nat → thedata (loc th) = (0, 0))
    end
}.

Definition thread_id th : role * Z := (kind (loc th), thread_num (loc th)).

(** The threads the driver starts, by function and number. *)
Definition run_ids : list (role * Z) :=
  (Main, 0) :: map (Consumer,.) (seqZ 0 NUM_CONSUMERS) ++ map (Producer,.) (seqZ 0 NUM_PRODUCERS).

Definition count_of (s : nat) (m : machine pc_glob pc_loc) : Z :=
  match sems m !! s with Some sem => sem_count sem | None => 0 end.

Definition queued (g : pc_glob) : Z := zlen (sent g) - zlen (received g).

Record pc_inv (m : machine pc_glob pc_loc) : Prop := {
  pi_sync : sync_ok m;
  pi_sems : length (sems m) = 5%nat;
  pi_mutex : count_of mutex m + Z.of_nat (cnt critical (threads m)) = 1;
  pi_empty : count_of empty m + Z.of_nat (cnt owns_empty (threads m)) + queued (glob m)
               + Z.of_nat (cnt freed (threads m)) = BUFFER_SIZE;
  pi_full : count_of full m + Z.of_nat (cnt filled (threads m)) + Z.of_nat (cnt owns_full (threads m))
              = queued (glob m);
  pi_pfin : count_of producer_finished m + Z.of_nat (sum_list_with waited_p (threads m))
              = Z.of_nat (cnt (done_by Producer) (threads m));
  pi_cfin : count_of consumer_finished m + Z.of_nat (sum_list_with waited_c (threads m))
              = Z.of_nat (cnt (done_by Consumer) (threads m));
  pi_buffer : buffer_ok (glob m);
  pi_threads : ∀ t th, threads m !! t = Some th → thread_ok (glob m) th;
  pi_kinds : ∀ r, Z.of_nat (cnt (is_kind r) (threads m))
               = match r with Main => 1 | Producer => NUM_PRODUCERS | Consumer => NUM_CONSUMERS end;
  pi_ids : map thread_id (threads m) = run_ids;
  pi_sent : ∃ ds : list pc_data, sent (glob m) = ds ++ replicate (sum_list_with stops_sent (threads m)) (0, 0) ∧
               Forall (λ d, is_stop d = false) ds ∧ ds ≡ₚ flat_map items_sent (threads m);
  pi_got_items : cnt (λ d, negb (is_stop d)) (received (glob m)) = sum_list_with got_items (threads m);
  pi_got_stop : cnt is_stop (received (glob m)) = cnt got_stop (threads m)
}.

(** ** The buffer *)

Lemma queued_window g win : sent g = received g ++ win → queued g = zlen win.
Proof. intros E. unfold queued, zlen. rewrite E, length_app. lia. Qed.

Lemma queued_nonneg g : buffer_ok g → 0 ≤ queued g.
Proof. intros [_ _ (win & E & _)]. rewrite (queued_window g win E). apply zlen_nonneg. Qed.

(** Storing an item at [queue_rear] does not touch the queued items. *)
Lemma put_ok g d :
  buffer_ok g → queued g < BUFFER_SIZE →
  ∃ buf, zput (buffer g) (queue_rear g) d = Ok buf ∧ zget buf (queue_rear g) = Some d ∧
    buffer_ok (PcGlob buf (queue_front g) (queue_rear g) (sent g) (received g)).
Proof.
  intros [Hsz Hfr (win & Hw & Hre & Hg)] Hq. rewrite (queued_window g win Hw) in Hq.
  assert (0 ≤ queue_rear g < zlen (buffer g)) as Hr.
  { rewrite Hre, Hsz. apply Z.mod_pos_bound. done. }
  exists (zset (buffer g) (queue_rear g) d). split; [|split].
  - unfold zput. by rewrite decide_True.
  - by apply zget_zset_eq.
  - constructor; simpl; [by rewrite zlen_zset|done|]. exists win. split_and!; try done.
    intros j x Hj. rewrite zget_zset_ne; [by apply Hg|].
    rewrite Hre. apply not_eq_sym, mod_distinct; [|done].
    apply lookup_lt_Some in Hj. unfold zlen. lia.
Qed.

(** Advancing [queue_rear] over a stored item appends it to the queue. *)
Lemma push_ok g d :
  buffer_ok g → queued g < BUFFER_SIZE → zget (buffer g) (queue_rear g) = Some d →
  buffer_ok (PcGlob (buffer g) (queue_front g) (Z.rem (queue_rear g + 1) BUFFER_SIZE)
    (sent g ++ [d]) (received g)).
Proof.
  intros [Hsz Hfr (win & Hw & Hre & Hg)] Hq Hd. constructor; simpl; try done.
  exists (win ++ [d]). split_and!.
  - by rewrite Hw, (assoc_L (++)).
  - rewrite Hre. unfold zlen. rewrite length_app. simpl. unfold BUFFER_SIZE in *.
    rewrite Z.rem_mod_nonneg by (Z.to_euclidean_division_equations; lia).
    Z.to_euclidean_division_equations. lia.
  - intros j x Hj. apply lookup_app_Some in Hj as [Hj|[Hl Hj]]; [by apply Hg|].
    apply list_lookup_singleton_Some in Hj as [Hj <-].
    assert (Z.of_nat j = zlen win) as -> by (unfold zlen; lia). by rewrite <-Hre.
Qed.

(** Advancing [queue_front] removes the oldest item. *)
Lemma pop_ok g d :
  buffer_ok g → 0 < queued g → zget (buffer g) (queue_front g) = Some d →
  buffer_ok (PcGlob (buffer g) (Z.rem (queue_front g + 1) BUFFER_SIZE) (queue_rear g)
    (sent g) (received g ++ [d])) ∧ sent g !! length (received g) = Some d.
Proof.
  intros [Hsz Hfr (win & Hw & Hre & Hg)] Hq Hd. rewrite (queued_window g win Hw) in Hq.
  destruct win as [|x win]; [done|].
  assert (x = d) as ->.
  { specialize (Hg 0%nat x eq_refl). rewrite Z.add_0_r, Z.mod_small in Hg by done. congruence. }
  split; [|by rewrite Hw, lookup_app_r, Nat.sub_diag by lia].
  rewrite Z.rem_mod_nonneg by (unfold BUFFER_SIZE in *; lia).
  constructor; simpl; [done|by apply Z.mod_pos_bound|]. exists win. split_and!.
  - by rewrite Hw, <-(assoc_L (++)).
  - rewrite Hre, Zplus_mod_idemp_l. unfold zlen. simpl. f_equal. lia.
  - intros j y Hj. rewrite Zplus_mod_idemp_l. rewrite <-(Hg (S j) y Hj). do 2 f_equal. lia.
Qed.

Lemma get_ok g : buffer_ok g → ∃ d, zget (buffer g) (queue_front g) = Some d.
Proof. intros [Hsz Hfr _]. apply zget_range. lia. Qed.

(** ** Preservation *)


Lemma count_nonneg m s : sync_ok m → 0 ≤ count_of s m < two32.
Proof.
  intros Hs. unfold count_of. destruct (sems m !! s) as [sem|] eqn:E; [|done].
  by apply (sem_count_range m s).
Qed.

(** A thread outside the critical section is fine whatever happens to the buffer. *)
Lemma thread_ok_glob g g' th :
  thread_ok g th → critical th = false → thread_ok g' th.
Proof.
  intros [] Hc. unfold critical, between in *.
  constructor; try done; unfold between in *; intros; exfalso;
    destruct (send_pc th) as [|[|[|[|[|[]]]]]] eqn:Es; destruct (recv_pc th) as [|[|[|[|[|[]]]]]] eqn:Er;
    simpl in *; done || lia.
Qed.

Lemma thread_ok_same g th th' :
  thread_ok g th → prog th' = prog th → pc th' = pc th → loc th' = loc th → thread_ok g th'.
Proof.
  destruct th, th'; simpl. intros H -> -> ->. by destruct H.
Qed.

(** The effect of a step of thread [t], from [th] to [f th], on what the invariant
    counts. *)
Record balanced (m m' : machine pc_glob pc_loc) th th' : Prop := {
  ba_mutex : count_of mutex m' + b2z (critical th') = count_of mutex m + b2z (critical th);
  ba_empty : count_of empty m' + b2z (owns_empty th') + b2z (freed th') + queued (glob m')
    = count_of empty m + b2z (owns_empty th) + b2z (freed th) + queued (glob m);
  ba_full : count_of full m' + b2z (filled th') + b2z (owns_full th') - queued (glob m')
    = count_of full m + b2z (filled th) + b2z (owns_full th) - queued (glob m);
  ba_pfin : count_of producer_finished m' + Z.of_nat (waited_p th') - b2z (done_by Producer th')
    = count_of producer_finished m + Z.of_nat (waited_p th) - b2z (done_by Producer th);
  ba_cfin : count_of consumer_finished m' + Z.of_nat (waited_c th') - b2z (done_by Consumer th')
    = count_of consumer_finished m + Z.of_nat (waited_c th) - b2z (done_by Consumer th);
  ba_got_items : (cnt (λ d, negb (is_stop d)) (received (glob m')) + got_items th
    = cnt (λ d, negb (is_stop d)) (received (glob m)) + got_items th')%nat;
  ba_got_stop : (cnt is_stop (received (glob m')) + Nat.b2n (got_stop th)
    = cnt is_stop (received (glob m)) + Nat.b2n (got_stop th'))%nat
}.

(** The effect on the items sent: none, one item of a producer, a stop item. *)
Inductive sends g g' th th' (stops : nat) : Prop :=
| sends_none : sent g' = sent g → stops_sent th' = stops_sent th →
    items_sent th' = items_sent th → sends g g' th th' stops
| sends_item d : sent g' = sent g ++ [d] → is_stop d = false → stops = 0%nat →
    stops_sent th' = stops_sent th → items_sent th' ≡ₚ d :: items_sent th → sends g g' th th' stops
| sends_stop : sent g' = sent g ++ [(0, 0)] → stops_sent th' = S (stops_sent th) →
    items_sent th' = items_sent th → sends g g' th th' stops.

Lemma pc_inv_move m m' f target t th :
  pc_inv m → sync_ok m' → threads m !! t = Some th →
  threads m' = wake resume target (update f t (threads m)) → length (sems m') = 5%nat →
  balanced m m' th (f th) →
  sends (glob m) (glob m') th (f th) (sum_list_with stops_sent (threads m)) →
  kind (loc (f th)) = kind (loc th) → thread_num (loc (f th)) = thread_num (loc th) →
  buffer_ok (glob m') → thread_ok (glob m') (f th) →
  glob m' = glob m ∨ critical th = true →
  pc_inv m'.
Proof.
  intros [] Hsync Ht Hths Hlen [] Hsend Hk Hn Hb Hok Hg.
  constructor; try done; rewrite ?Hths.
  - pose proof (cnt_step critical f target t th (threads m) ltac:(done) Ht). rewrite ?b2z_nat in *. lia.
  - pose proof (cnt_step owns_empty f target t th (threads m) ltac:(done) Ht).
    pose proof (cnt_step freed f target t th (threads m) ltac:(done) Ht). rewrite ?b2z_nat in *. lia.
  - pose proof (cnt_step owns_full f target t th (threads m) ltac:(done) Ht).
    pose proof (cnt_step filled f target t th (threads m) ltac:(done) Ht). rewrite ?b2z_nat in *. lia.
  - pose proof (cnt_step (done_by Producer) f target t th (threads m) ltac:(done) Ht).
    pose proof (sum_step waited_p f target t th (threads m) ltac:(done) Ht). rewrite ?b2z_nat in *. lia.
  - pose proof (cnt_step (done_by Consumer) f target t th (threads m) ltac:(done) Ht).
    pose proof (sum_step waited_c f target t th (threads m) ltac:(done) Ht). rewrite ?b2z_nat in *. lia.
  - intros t' th' Ht'.
    destruct (lookup_step _ _ _ _ _ _ _ Ht Ht') as (th0 & ? & ? & ? & Hth0).
    apply thread_ok_same with th0; try done. case_decide; [by subst|].
    destruct Hg as [->|Hc]; [by eauto|]. apply thread_ok_glob with (glob m); [by eauto|].
    destruct (critical th0) eqn:E; [|done].
    pose proof (cnt_two critical (threads m) t t' th th0 ltac:(done) Ht Hth0 Hc E).
    pose proof (count_nonneg m mutex pi_sync0). lia.
  - intros r. rewrite <-(pi_kinds0 r).
    pose proof (cnt_step (is_kind r) f target t th (threads m) ltac:(done) Ht) as Hc.
    unfold is_kind in *. rewrite Hk in Hc. lia.
  - rewrite <-pi_ids0. apply (map_step thread_id f target t th); [done..|].
    unfold thread_id. by rewrite Hk, Hn.
  - destruct pi_sent0 as (ds & Hs & Hds & Hp).
    pose proof (sum_step stops_sent f target t th (threads m) ltac:(done) Ht) as Hst.
    pose proof (flat_step items_sent f target t th (threads m) ltac:(done) Ht) as Hf.
    destruct Hsend as [Hs' E1 E2|d Hs' Hd E0 E1 E2|Hs' E1 E2]; rewrite Hs', Hs.
    + exists ds. rewrite E1 in Hst. rewrite E2 in Hf. split_and!; [do 2 f_equal; lia|done|].
      apply Permutation_app_inv_r in Hf. by rewrite Hf.
    + exists (ds ++ [d]). rewrite E1 in Hst. split_and!.
      * assert (sum_list_with stops_sent (wake resume target (update f t (threads m))) = 0%nat) as -> by lia.
        rewrite E0. simpl. by rewrite !app_nil_r.
      * apply Forall_app. split; [done|]. by apply Forall_singleton.
      * rewrite E2 in Hf. rewrite (Permutation_app_comm ds), Hp. symmetry.
        apply (Permutation_app_inv_r (items_sent th)). rewrite Hf. solve_Permutation.
    + exists ds. rewrite E1 in Hst. rewrite E2 in Hf. split_and!; [|done|].
      * rewrite <-(assoc_L (++)). f_equal. rewrite <-replicate_S_end. f_equal. lia.
      * apply Permutation_app_inv_r in Hf. by rewrite Hf.
  - pose proof (sum_step got_items f target t th (threads m) ltac:(done) Ht). lia.
  - pose proof (cnt_step got_stop f target t th (threads m) ltac:(done) Ht). lia.
Qed.

Hypothesis producers_nonneg : 0 ≤ NUM_PRODUCERS.
Hypothesis consumers_nonneg : 0 ≤ NUM_CONSUMERS.
Hypothesis items_nonneg : 0 ≤ ITEMS_TO_PRODUCE.

(** The item numbers fit an int. *)
Hypothesis items_small : ITEMS_TO_PRODUCE + 1000 * NUM_PRODUCERS < two31.

Lemma item_not_stop num n :
  0 ≤ num < NUM_PRODUCERS → 0 < n ≤ ITEMS_TO_PRODUCE → is_stop (item num n) = false.
Proof.
  intros Hnum Hn. unfold is_stop, item. cbn [fst snd].
  assert (s32 (u32 (n + 1000 * num)) = n + 1000 * num) as ->.
  { rewrite u32_id by width. apply s32_id. width. }
  apply andb_false_iff. left. apply Z.eqb_neq. lia.
Qed.

(** While a producer is not done the main thread has sent no stop item. *)
Lemma stops_none m t th :
  pc_inv m → threads m !! t = Some th → is_kind Producer th = true → done_by Producer th = false →
  sum_list_with stops_sent (threads m) = 0%nat.
Proof.
  intros Hinv Ht Hk Hd.
  assert (cnt (done_by Producer) (threads m) < cnt (is_kind Producer) (threads m))%nat as Hlt.
  { apply (cnt_lt _ _ _ t th); [|done..]. by intros y [? _]%andb_true_iff. }
  pose proof (pi_kinds m Hinv Producer). pose proof (pi_pfin m Hinv).
  pose proof (count_nonneg m producer_finished (pi_sync m Hinv)).
  enough (sum_list_with stops_sent (threads m) ≤ 0 * cnt (is_kind Main) (threads m))%nat by lia.
  apply sum_cnt_le. intros j x Hx. pose proof (sum_lookup_le waited_p _ _ _ Hx) as Hw.
  unfold stops_sent, waited_p in *. destruct (is_kind Main x); [|lia].
  destruct (Nat.leb_spec (pc x) 5) as [|Hpc]; [lia|].
  destruct (Nat.eqb_spec (pc x) 0); [lia|].
  assert (between 1 4 (pc x) = false) as Hb.
  { unfold between. apply andb_false_iff. right. by apply Nat.leb_gt; lia. }
  rewrite Hb in Hw. lia.
Qed.

Lemma items_above_cons num n :
  0 < n ≤ ITEMS_TO_PRODUCE → items_above num (n - 1) = item num n :: items_above num n.
Proof.
  intros Hn. unfold items_above. rewrite (seqZ_cons (n - 1 + 1)) by lia. simpl.
  rewrite Z.sub_add. do 2 f_equal. f_equal; lia.
Qed.

Lemma count_put s s0 sem x (ss : list semaphore) :
  ss !! s0 = Some sem →
  match <[s0 := x]> ss !! s with Some y => sem_count y | None => 0 end =
  if (s =? s0)%nat then sem_count x else match ss !! s with Some y => sem_count y | None => 0 end.
Proof.
  intros H0. destruct (Nat.eqb_spec s s0) as [->|Hne]; [|by rewrite list_lookup_insert_ne].
  rewrite list_lookup_insert_eq; [done|]. by eapply lookup_lt_Some.
Qed.

Lemma sem_V_count m s sem :
  pc_inv m → sems m !! s = Some sem → 0 < u32 (sem_count sem + 1) →
  u32 (sem_count sem + 1) = sem_count sem + 1.
Proof.
  intros Hinv Hs Hu. pose proof (sem_count_range m s sem (pi_sync m Hinv) Hs).
  destruct (decide (sem_count sem + 1 = two32)) as [E|]; [by rewrite E in Hu|].
  apply u32_id. width.
Qed.

(** A thread that owns an empty slot finds room, one that owns a full slot an item. *)
Lemma owner_room m t th :
  pc_inv m → threads m !! t = Some th → owns_empty th = true → queued (glob m) < BUFFER_SIZE.
Proof.
  intros Hinv Ht Ho. pose proof (cnt_pos _ _ _ _ Ht Ho). pose proof (pi_empty m Hinv).
  pose proof (count_nonneg m empty (pi_sync m Hinv)). lia.
Qed.

Lemma owner_items m t th :
  pc_inv m → threads m !! t = Some th → owns_full th = true → 0 < queued (glob m).
Proof.
  intros Hinv Ht Ho. pose proof (cnt_pos _ _ _ _ Ht Ho). pose proof (pi_full m Hinv).
  pose proof (count_nonneg m full (pi_sync m Hinv)). lia.
Qed.

(** Uses what is known of the thread at its instruction. *)
Ltac facts :=
  cbn in *; repeat match goal with
  | H : _ ∧ _ |- _ => destruct H
  | H : true = true → _ |- _ => specialize (H eq_refl)
  | H : false = true → _ |- _ => clear H
  | H : ?a = ?a → _ |- _ => specialize (H eq_refl)
  | H : (_ <= _)%nat → _ |- _ => specialize (H ltac:(lia))
  | H : _ ≠ _ → _ |- _ => specialize (H ltac:(done))
  end.

(** Closes the side conditions of [pc_inv_move] at a concrete instruction. *)
Ltac settle :=
  unfold queued, b2z, count_of; cbn;
  repeat match goal with
  | H : sems ?m !! ?s = Some _ |- context [<[?s := _]> (sems ?m) !! _] => rewrite !(count_put _ _ _ _ _ H); cbn
  | H : sems ?m !! ?s = Some _ |- context [sems ?m !! ?s] => rewrite H
  end;
  rewrite ?cnt_app, ?cnt_cons, ?cnt_nil, ?zlen_app, ?zlen_singleton, ?length_insert; cbn;
  try done; try lia.

Ltac settle_thread :=
  constructor; cbn; try done; try lia; facts; split_and?; intros; try done; try lia.

Ltac pc_move f target :=
  match goal with
  | Hinv : pc_inv ?m, Hsync : sync_ok ?m', Ht : threads ?m !! ?t = Some ?th |- pc_inv ?m' =>
      apply (pc_inv_move m m' f target t th Hinv Hsync Ht);
      [ done
      | cbn; rewrite ?length_insert; apply (pi_sems m Hinv)
      | constructor; settle
      | try (apply sends_none; settle; fail)
      | done
      | done
      | try first [apply (pi_buffer m Hinv) | assumption]
      | settle_thread
      | try (by left); try (by right) ]
  end.

Ltac pc_move_goal :=
  match goal with |- pc_inv (Machine _ _ _ _ (update ?f _ _)) => pc_move f (@None nat) end.

(** The next instruction, by its kind. *)
Ltac pc_instr He :=
  first
  [ eapply exec_P in He; [|done|done]; destruct He as (sem & Hs & [[Hc ->]|[Hc ->]]);
    [pc_move (@sleep pc_glob pc_loc) (@None nat)|pc_move (@next pc_glob pc_loc) (@None nat)]
  | eapply exec_V in He; [|done|done]; destruct He as (sem & Hs & Hu & ->);
    match goal with
    | Hi : pc_inv ?m, H : sems ?m !! ?s = Some ?sem, H0 : 0 < u32 (sem_count ?sem + 1) |- _ =>
        rewrite (sem_V_count m s sem Hi H H0) in *;
        pc_move (@next pc_glob pc_loc) (wchan_wakeone (sem_wchan sem)).2
    end
  | eapply exec_Do in He; [|done|done]; let Hf := fresh "Hf" in destruct He as (g' & x' & Hf & ->); cbn in Hf;
    try (injection Hf as <- <-; pc_move_goal)
  | eapply exec_If in He; [|done|done]; rewrite He in *; clear He; cbn in *;
    try match goal with H : sync_ok (Machine _ _ _ _ (update (if ?b then _ else _) _ _)) |- _ =>
      destruct b eqn:Hb end;
    pc_move_goal
  | exfalso; eapply exec_finished in He; done ].

(** The step that stores an item, at a thread that owns an empty slot. *)
Ltac pc_put Hf :=
  match goal with Hinv : pc_inv ?m, Ht : threads ?m !! ?t = Some ?th |- _ =>
    destruct (put_ok (glob m) (thedata (loc th)) (pi_buffer m Hinv) (owner_room m t th Hinv Ht eq_refl))
      as (buf & Hbuf & Hre & Hok)
  end;
  unfold put_item in Hf; cbn in *;
  match goal with H : zput _ _ _ = Ok _ |- _ => rewrite H in Hf end;
  injection Hf as <- <-; pc_move_goal.

Lemma pc_inv_main t p b num d tp itg cc ii m m' :
  let th := Thr (prog_of Main) p b (PcLoc Main num d tp itg cc ii) in
  pc_inv m → threads m !! t = Some th → sync_ok m' → exec t m = Ok m' → pc_inv m'.
Proof.
  intros th Hinv Ht Hsync He. subst th.
  destruct (pi_threads m Hinv t _ Ht) as [_ _ Hnum Hput Hrear Hget Hfront Hloc]. cbn in *.
  do 21 (try destruct p as [|p]); facts; pc_instr He.
  - pc_put Hf.
  - subst. by apply sends_stop; settle.
  - subst. apply push_ok; [apply (pi_buffer m Hinv)| |done].
    by apply (owner_room m t _ Hinv Ht).
Qed.

Lemma pc_inv_producer t p b num d tp itg cc ii m m' :
  let th := Thr (prog_of Producer) p b (PcLoc Producer num d tp itg cc ii) in
  pc_inv m → threads m !! t = Some th → sync_ok m' → exec t m = Ok m' → pc_inv m'.
Proof.
  intros th Hinv Ht Hsync He. subst th.
  destruct (pi_threads m Hinv t _ Ht) as [_ _ Hnum Hput Hrear Hget Hfront Hloc]. cbn in *.
  do 12 (try destruct p as [|p]); facts; pc_instr He.
  - pc_put Hf.
  - assert (0 ≤ num < NUM_PRODUCERS) as Hn by (destruct Hnum; [done|congruence]).
    subst d. apply (sends_item _ _ _ _ _ (item num itg)); settle.
    + by apply item_not_stop.
    + by apply (stops_none m t _ Hinv Ht).
    + unfold items_sent. cbn. rewrite items_above_cons, Z.sub_0_r by lia. done.
  - subst. apply push_ok; [apply (pi_buffer m Hinv)| |done].
    by apply (owner_room m t _ Hinv Ht).
  - apply sends_none; settle. unfold items_sent. cbn. f_equal. lia.
Qed.

Lemma pc_inv_consumer t p b num d tp itg cc ii m m' :
  let th := Thr (prog_of Consumer) p b (PcLoc Consumer num d tp itg cc ii) in
  pc_inv m → threads m !! t = Some th → sync_ok m' → exec t m = Ok m' → pc_inv m'.
Proof.
  intros th Hinv Ht Hsync He. subst th.
  destruct (pi_threads m Hinv t _ Ht) as [_ _ Hnum Hput Hrear Hget Hfront Hloc]. cbn in *.
  do 12 (try destruct p as [|p]); facts; pc_instr He.
  - destruct (get_ok (glob m) (pi_buffer m Hinv)) as [x Hx].
    unfold get_item in Hf. rewrite Hx in Hf. injection Hf as <- <-. pc_move_goal.
  - subst tp. apply pop_ok; [apply (pi_buffer m Hinv)| |done].
    by apply (owner_items m t _ Hinv Ht).
  - rewrite Hb. simpl. lia.
  - by left.
  - assert (is_stop d = false) as -> by done. simpl. lia.
  - assert (is_stop d = false) as -> by done. done.
Qed.

Lemma pc_inv_exec t th m m' :
  pc_inv m → threads m !! t = Some th → asleep th = false → exec t m = Ok m' → pc_inv m'.
Proof.
  intros Hinv Ht Has He.
  pose proof (sync_ok_exec t th m m' (pi_sync m Hinv) Ht Has He) as Hsync.
  pose proof (to_prog _ _ (pi_threads m Hinv t th Ht)) as Hpr.
  destruct th as [pr p b [[] num d tp itg cc ii]]; simpl in Hpr; subst pr.
  - exact (pc_inv_main t p b num d tp itg cc ii m m' Hinv Ht Hsync He).
  - exact (pc_inv_producer t p b num d tp itg cc ii m m' Hinv Ht Hsync He).
  - exact (pc_inv_consumer t p b num d tp itg cc ii m m' Hinv Ht Hsync He).
Qed.

Lemma pc_inv_mstep m m' : pc_inv m → mstep m m' → pc_inv m'.
Proof.
  intros Hinv Hs. destruct Hs as [t th m m' Ht Hr He].
  apply andb_true_iff in Hr as [Ha _].
  exact (pc_inv_exec t th m m' Hinv Ht (proj1 (negb_true_iff _) Ha) He).
Qed.

(** ** The initial state *)

Lemma run_threads buf t th :
  threads (run_producerconsumer buf) !! t = Some th →
  ∃ r num, th = Thr (prog_of r) 0 false (PcLoc r num (0, 0) 0 ITEMS_TO_PRODUCE 0 0) ∧
    (0 ≤ num < NUM_PRODUCERS ∨ r ≠ Producer).
Proof.
  cbn [run_producerconsumer producerconsumer_startup start threads].
  intros ([pr l] & -> & Hp)%list_lookup_fmap_Some_1. apply list_elem_of_lookup_2 in Hp. cbn [fst snd].
  apply elem_of_cons in Hp as [Hp|[Hp|Hp]%elem_of_app].
  - injection Hp as -> ->. exists Main, 0. by split; [|right].
  - apply list_elem_of_fmap in Hp as (num & Hp & _). injection Hp as -> ->. exists Consumer, num. by split; [|right].
  - apply list_elem_of_fmap in Hp as (num & Hp & Hn). injection Hp as -> ->.
    apply elem_of_seqZ in Hn. exists Producer, num. split; [done|left; lia].
Qed.

Lemma run_kinds buf r :
  Z.of_nat (cnt (is_kind r) (threads (run_producerconsumer buf)))
  = match r with Main => 1 | Producer => NUM_PRODUCERS | Consumer => NUM_CONSUMERS end.
Proof.
  assert (∀ r' n, 0 ≤ n → Z.of_nat (cnt (is_kind r)
    (map (λ p : code * pc_loc, Thr p.1 0 false p.2) (map (fresh r') (seqZ 0 n))))
    = if is_kind r (Thr [] 0 false (fresh r' 0).2) then n else 0) as Hc.
  { intros r' n Hn. destruct (is_kind r _) eqn:E.
    - rewrite (proj2 (cnt_all _ _)); [rewrite !length_map, length_seqZ; lia|].
      intros j x Hj. apply list_lookup_fmap_Some_1 in Hj as (y & -> & Hy).
      by apply list_lookup_fmap_Some_1 in Hy as (z & -> & _).
    - rewrite (proj2 (cnt_zero _ _)); [done|].
      intros j x Hj. apply list_lookup_fmap_Some_1 in Hj as (y & -> & Hy).
      by apply list_lookup_fmap_Some_1 in Hy as (z & -> & _). }
  cbn [run_producerconsumer producerconsumer_startup start threads map].
  rewrite map_app, cnt_cons, cnt_app, !Nat2Z.inj_add, !Hc by done. destruct r; cbn; lia.
Qed.

Lemma run_inv buf : zlen buf = BUFFER_SIZE → pc_inv (run_producerconsumer buf).
Proof.
  intros Hbuf. set (ths := threads (run_producerconsumer buf)).
  assert (∀ P, (∀ r num, P (Thr (prog_of r) 0 false (PcLoc r num (0, 0) 0 ITEMS_TO_PRODUCE 0 0)) = false) →
    cnt P ths = 0%nat) as Hcnt.
  { intros P HP. apply cnt_zero. intros t th (r & num & -> & _)%run_threads. apply HP. }
  assert (∀ f, (∀ r num, f (Thr (prog_of r) 0 false (PcLoc r num (0, 0) 0 ITEMS_TO_PRODUCE 0 0)) = 0%nat) →
    sum_list_with f ths = 0%nat) as Hsum.
  { intros f Hf. enough (sum_list_with f ths ≤ 0 * cnt (λ _, true) ths)%nat by lia.
    apply sum_cnt_le. intros t th (r & num & -> & _)%run_threads. by rewrite Hf. }
  constructor; fold ths.
  - apply sync_ok_start; [|constructor..]. repeat (constructor; [done|]). constructor.
  - done.
  - rewrite Hcnt by (by intros []). done.
  - rewrite !Hcnt by (by intros []). done.
  - rewrite !Hcnt by (by intros []). done.
  - rewrite Hcnt, Hsum by (by intros []). done.
  - rewrite Hcnt, Hsum by (by intros []). done.
  - constructor; [done|done|]. exists []. split_and!; [done|done|]. intros j d Hj. by rewrite lookup_nil in Hj.
  - intros t th (r & num & -> & Hn)%run_threads.
    destruct r; constructor; cbn; try done; try lia; split_and!; done || lia.
  - apply run_kinds.
  - unfold ths, run_ids. cbn [run_producerconsumer producerconsumer_startup start threads map].
    f_equal. by rewrite !map_app, !map_map.
  - exists []. rewrite Hsum by (by intros []). split_and!; [done|done|].
    assert (flat_map items_sent ths = []) as ->; [|done].
    assert (∀ t th, ths !! t = Some th → items_sent th = []) as Hi.
    { intros t th (r & num & -> & _)%run_threads. destruct r; [done| |done].
      cbn. unfold items_above. by rewrite seqZ_nil by lia. }
    revert Hi. generalize ths. intros l. induction l as [|x l IH]; [done|]. intros Hi. simpl.
    rewrite (Hi 0%nat x eq_refl), IH; [done|]. intros t th. apply (Hi (S t) th).
  - rewrite Hsum by (by intros []). done.
  - rewrite Hcnt by (by intros []). done.
Qed.

(** ** Progress and termination *)

(** The counts of the semaphores stay small. *)
Lemma count_bound m s :
  pc_inv m → count_of s m ≤ Z.max BUFFER_SIZE (Z.max NUM_PRODUCERS NUM_CONSUMERS).
Proof.
  intros Hinv. pose proof (pi_sems m Hinv) as Hlen.
  pose proof (pi_mutex m Hinv). pose proof (pi_empty m Hinv). pose proof (pi_full m Hinv).
  pose proof (pi_pfin m Hinv). pose proof (pi_cfin m Hinv).
  pose proof (queued_nonneg _ (pi_buffer m Hinv)).
  pose proof (count_nonneg m empty (pi_sync m Hinv)).
  assert (∀ r, cnt (done_by r) (threads m) ≤ cnt (is_kind r) (threads m))%nat as Hle.
  { intros r. apply cnt_mono. by intros y [? _]%andb_true_iff. }
  pose proof (Hle Producer). pose proof (Hle Consumer).
  pose proof (pi_kinds m Hinv Producer). pose proof (pi_kinds m Hinv Consumer). cbn in *.
  unfold mutex, empty, full, producer_finished, consumer_finished, BUFFER_SIZE in *.
  do 5 (destruct s as [|s]; [lia|]). unfold count_of.
  rewrite (lookup_ge_None_2 (sems m)) by lia. lia.
Qed.

(** The semaphores can count all threads. *)
Hypothesis producers_small : NUM_PRODUCERS < two31.
Hypothesis consumers_small : NUM_CONSUMERS < two31.

(** A thread that is not finished can execute its instruction: no assertion fails
    and no access leaves the buffer. *)
Lemma exec_total m t th :
  pc_inv m → threads m !! t = Some th → finished th = false → ∃ m', exec t m = Ok m'.
Proof.
  intros Hinv Ht Hf.
  assert (∀ s, (s < 5)%nat → is_Some (sems m !! s)) as HP.
  { intros s Hs. apply lookup_lt_is_Some_2. rewrite (pi_sems m Hinv). lia. }
  assert (∀ s, cur_instr th = Some (IV s) → (s (loc th) < 5)%nat → ∃ m', exec t m = Ok m') as HV.
  { intros s Hi Hs. destruct (HP _ Hs) as [sem Hsem].
    pose proof (count_bound m (s (loc th)) Hinv) as Hb. unfold count_of in Hb. rewrite Hsem in Hb.
    pose proof (sem_count_range m _ sem (pi_sync m Hinv) Hsem).
    apply (exec_V_ok t th m s sem); [done..|]. unfold two32, two31, BUFFER_SIZE in *. lia. }
  pose proof (pi_threads m Hinv t th Ht) as [Hpr _ _ _ _ _ _ _].
  destruct th as [pr p b [k num d tp itg cc ii]]. simpl in Hpr. subst pr.
  destruct k; do 21 (try destruct p as [|p]); try done;
    first
    [ by eapply exec_P_ok; [exact Ht|done|apply HP; cbv; lia]
    | by apply (HV _ eq_refl); cbv; lia
    | by eapply exec_If_ok; [exact Ht|done]
    | by eapply exec_Do_ok; [exact Ht|done|done]
    | destruct (put_ok (glob m) d (pi_buffer m Hinv) (owner_room m t _ Hinv Ht eq_refl)) as (buf & Hbuf & _);
      eapply exec_Do_ok; [exact Ht|done|cbn; unfold put_item; cbn; by rewrite Hbuf]
    | destruct (get_ok (glob m) (pi_buffer m Hinv)) as [x Hx];
      eapply exec_Do_ok; [exact Ht|done|cbn; unfold get_item; cbn; by rewrite Hx] ].
Qed.

(** An upper bound on the instructions a thread still executes, not counting the
    retries of a [P] after a wakeup. *)
Definition work th : nat :=
  let l := loc th in
  match kind l with
  | Producer =>
      Z.to_nat (items_to_go l) * 20 +
      (if (pc th <=? 9)%nat then 13 - pc th else if (pc th =? 10)%nat then 14 else 12 - pc th)
  | Consumer =>
      Z.to_nat (SOMETHING_WRONG_COUNT - check_count l) * 20 +
      (if (pc th <=? 8)%nat then 13 - pc th else if (pc th <=? 10)%nat then 25 - pc th else 12 - pc th)
  | Main =>
      let np := Z.to_nat NUM_PRODUCERS in let nc := Z.to_nat NUM_CONSUMERS in
      if (pc th =? 0)%nat then np * 20 + nc * 40 + 200
      else if (pc th <=? 4)%nat then
        (np - Z.to_nat (i l)) * 20 + nc * 40 + 100 + (if (pc th =? 4)%nat then 5 else 5 - pc th)
      else if (pc th =? 5)%nat then nc * 40 + 99
      else if (pc th <=? 15)%nat then
        (nc - Z.to_nat (i l)) * 20 + nc * 20 + 60 + (if (pc th =? 15)%nat then 11 else 16 - pc th)
      else if (pc th =? 16)%nat then nc * 20 + 50
      else if (pc th <=? 20)%nat then
        (nc - Z.to_nat (i l)) * 20 + 10 + (if (pc th =? 20)%nat then 5 else 21 - pc th)
      else 0
  end.

(** Only the threads carry work. *)
Abbreviation pc_measure := (measure work (λ _ : pc_glob, 0%nat)).

Lemma put_item_loc g l g' l' : put_item g l = Ok (g', l') → l' = l.
Proof. unfold put_item. destruct (zput _ _ _); [|done..]. intros E. by injection E. Qed.

Lemma get_item_loc g l g' l' : get_item g l = Ok (g', l') → ∃ d, l' = with_data d l.
Proof. unfold get_item. destruct (zget _ _) as [d|]; [|done]. intros E. injection E. eauto. Qed.

Ltac work_step :=
  match goal with
  | Ht : threads ?m !! ?t = Some ?th |- (pc_measure ?m' < pc_measure ?m)%nat =>
      lazymatch m' with
      | Machine _ _ _ _ (update ?f _ _) => apply (measure_work work _ (λ _ _, eq_refl) m m' f None t th Ht eq_refl eq_refl eq_refl)
      | Machine _ _ _ _ (wake resume ?w (update ?f _ _)) =>
          apply (measure_work work _ (λ _ _, eq_refl) m m' f w t th Ht eq_refl eq_refl eq_refl)
      end
  end; cbn -[Nat.mul Nat.add Nat.sub Z.to_nat Z.sub Z.add]; try lia.

Ltac work_instr He :=
  first
  [ eapply exec_P in He; [|done|done]; destruct He as (sem & Hs & [[Hc ->]|[Hc ->]]);
    [ by eapply (measure_sleep work) | work_step ]
  | eapply exec_V in He; [|done|done]; destruct He as (sem & Hs & Hu & ->); work_step
  | eapply exec_Do in He; [|done|done]; destruct He as (g' & x' & Hf & ->);
    first [injection Hf as <- <- | apply put_item_loc in Hf as -> | apply get_item_loc in Hf as (d' & ->)];
    work_step
  | eapply exec_If in He; [|done|done]; rewrite He; clear He; cbn;
    try match goal with |- context [if ?b then _ else _] => destruct b eqn:Hb end; work_step
  | exfalso; eapply exec_finished in He; done ].

Lemma measure_exec m m' t th :
  pc_inv m → threads m !! t = Some th → asleep th = false → exec t m = Ok m' →
  (pc_measure m' < pc_measure m)%nat.
Proof.
  intros Hinv Ht Ha He.
  destruct (pi_threads m Hinv t _ Ht) as [Hpr _ _ _ _ _ _ Hloc].
  destruct th as [pr p b [k num d tp itg cc ii]]. simpl in Hpr, Ha. subst pr b.
  destruct k; do 21 (try destruct p as [|p]); cbn in Hloc; facts; work_instr He.
Qed.

(** ** Deadlock *)

(** A thread in the critical section, or on its way out of one of the two
    functions, is not at a [P]. *)
Lemma busy_ready m t th :
  pc_inv m → threads m !! t = Some th → critical th || filled th || freed th = true →
  ∀ s, cur_instr th ≠ Some (IP s).
Proof.
  intros Hinv Ht Hb s. pose proof (pi_threads m Hinv t th Ht) as [Hpr _ _ _ _ _ _ _].
  destruct th as [pr p b [k num d tp itg cc ii]]. simpl in Hpr. subst pr.
  by destruct k; do 21 (try destruct p as [|p]).
Qed.

(** Sums over the threads that only the main thread contributes to. *)
Lemma main_sum m t th f :
  pc_inv m → threads m !! t = Some th → is_kind Main th = true →
  (∀ x, is_kind Main x = false → f x = 0%nat) → sum_list_with f (threads m) = f th.
Proof.
  intros Hinv Ht Hk Hf. pose proof (pi_kinds m Hinv Main) as H1. cbn in H1.
  pose proof (sum_lookup_le f _ _ _ Ht).
  enough (sum_list_with f (threads m) ≤ f th * cnt (is_kind Main) (threads m))%nat as H2.
  { assert (cnt (is_kind Main) (threads m) = 1%nat) as E by lia. rewrite E in H2. lia. }
  apply sum_cnt_le. intros j x Hx. destruct (is_kind Main x) eqn:E; [|rewrite Hf by done; lia].
  destruct (decide (t = j)) as [<-|Hne]; [rewrite Ht in Hx; injection Hx as ->; simpl; lia|].
  pose proof (cnt_two _ _ _ _ _ _ Hne Ht Hx Hk E). lia.
Qed.

Lemma main_exists m : pc_inv m → ∃ t th, threads m !! t = Some th ∧ is_kind Main th = true.
Proof. intros Hinv. apply cnt_pos_inv. pose proof (pi_kinds m Hinv Main). cbn in *. lia. Qed.

Lemma stops_bound m : pc_inv m → Z.of_nat (sum_list_with stops_sent (threads m)) ≤ NUM_CONSUMERS.
Proof.
  intros Hinv. destruct (main_exists m Hinv) as (t & th & Ht & Hk).
  rewrite (main_sum m t th stops_sent) by
    (done || (intros x Hx; unfold stops_sent; by rewrite Hx)).
  pose proof (pi_threads m Hinv t th Ht) as [_ Hpc _ _ _ _ _ Hloc].
  unfold stops_sent. rewrite Hk. unfold is_kind in Hk. destruct (kind (loc th)); [|done..].
  destruct th as [pr p b l]. cbn in *.
  do 22 (try destruct p as [|p]); cbn in *; facts; try lia.
Qed.

(** No consumer gives up: there are fewer items than SOMETHING_WRONG_COUNT. *)
Hypothesis items_few : NUM_PRODUCERS * ITEMS_TO_PRODUCE < SOMETHING_WRONG_COUNT.

Lemma length_flat {A B} (f : A → list B) l : length (flat_map f l) = sum_list_with (λ x, length (f x)) l.
Proof. induction l as [|x l IH]; [done|]. simpl. by rewrite length_app, IH. Qed.

Lemma items_sent_length m :
  pc_inv m → Z.of_nat (length (flat_map items_sent (threads m))) ≤ NUM_PRODUCERS * ITEMS_TO_PRODUCE.
Proof.
  intros Hinv. rewrite length_flat.
  pose proof (sum_cnt_le (λ th, length (items_sent th)) (is_kind Producer)
    (Z.to_nat ITEMS_TO_PRODUCE) (threads m)) as Hs.
  pose proof (pi_kinds m Hinv Producer) as Hk. cbn in Hk. rewrite <-Hk.
  assert (∀ t th, threads m !! t = Some th →
    length (items_sent th) ≤ Z.to_nat ITEMS_TO_PRODUCE * Nat.b2n (is_kind Producer th))%nat as Hl; [|specialize (Hs Hl); nia].
  intros t th Ht. unfold items_sent. destruct (is_kind Producer th) eqn:E; [|simpl; lia].
  pose proof (pi_threads m Hinv t th Ht) as [_ _ _ _ _ _ _ Hloc].
  unfold is_kind in E. destruct (kind (loc th)); try done. destruct Hloc as (? & Hp & _).
  unfold items_above. rewrite length_map, length_seqZ.
  destruct (between 7 9 (pc th)) eqn:Eb; simpl; [|lia].
  assert (between 1 9 (pc th) = true) as Hb.
  { apply andb_true_iff in Eb as [E1%Nat.leb_le E2%Nat.leb_le].
    apply andb_true_iff. split; apply Nat.leb_le; lia. }
  specialize (Hp Hb). lia.
Qed.

Lemma check_small m t th :
  pc_inv m → threads m !! t = Some th → is_kind Consumer th = true →
  check_count (loc th) < SOMETHING_WRONG_COUNT.
Proof.
  intros Hinv Ht Hk. pose proof (items_sent_length m Hinv) as Hl.
  destruct (pi_sent m Hinv) as (ds & Hs & Hds & Hp). rewrite <-Hp in Hl.
  destruct (pi_buffer m Hinv) as [_ _ (win & Hw & _)].
  pose proof (pi_got_items m Hinv) as Hg.
  pose proof (sum_lookup_le got_items _ _ _ Ht) as Hle.
  assert (cnt (λ d, negb (is_stop d)) (sent (glob m)) ≤ length ds)%nat as Hn.
  { rewrite Hs, cnt_app. pose proof (cnt_le (λ d, negb (is_stop d)) ds).
    rewrite (proj2 (cnt_zero _ (replicate _ _))); [lia|].
    intros j x Hx. by apply lookup_replicate in Hx as [-> _]. }
  rewrite Hw, cnt_app in Hn. unfold got_items in Hle at 1. rewrite Hk in Hle. lia.
Qed.

(** The threads of this program block in [P] only. *)
Lemma stuck_at_P m t th :
  pc_inv m → (∀ t th, threads m !! t = Some th → ready th = false) →
  threads m !! t = Some th → finished th = false →
  ∃ s, cur_instr th = Some (IP s) ∧ count_of (s (loc th)) m = 0.
Proof.
  intros Hinv Hstuck Ht Hf.
  destruct (stuck_shape m t th (pi_sync m Hinv) Hstuck Ht Hf)
    as [(s & sem & Hi & Hs & Hc)|[(l & lk & h & Hi & _)|(c & l & Hi)]].
  - exists s. split; [done|]. unfold count_of. by rewrite Hs.
  - exfalso. pose proof (pi_threads m Hinv t th Ht) as [Hpr _ _ _ _ _ _ _].
    destruct th as [pr p b [k num d tp itg cc ii]]. simpl in Hpr. subst pr.
    by destruct k; do 21 (try destruct p as [|p]).
  - exfalso. pose proof (pi_threads m Hinv t th Ht) as [Hpr _ _ _ _ _ _ _].
    destruct th as [pr p b [k num d tp itg cc ii]]. simpl in Hpr. subst pr.
    by destruct k; do 21 (try destruct p as [|p]).
Qed.

(** Where a blocked thread stands. *)
Definition blocked_at th : Prop :=
  (send_pc th = 1%nat ∧ (is_kind Main th || is_kind Producer th = true)) ∨
  (is_kind Consumer th = true ∧ pc th = 0%nat) ∨
  (is_kind Main th = true ∧ (pc th = 2%nat ∨ pc th = 18%nat)).

Section stuck.
Context (m : machine pc_glob pc_loc) (Hinv : pc_inv m).
Context (Hstuck : ∀ t th, threads m !! t = Some th → ready th = false).

Lemma busy_unfinished t th :
  threads m !! t = Some th → critical th || filled th || freed th || owns_empty th || owns_full th = true →
  finished th = false.
Proof.
  intros Ht Hb. pose proof (pi_threads m Hinv t th Ht) as [Hpr _ _ _ _ _ _ _].
  destruct th as [pr p b [k num d tp itg cc ii]]. simpl in Hpr. subst pr.
  by destruct k; do 21 (try destruct p as [|p]).
Qed.

Lemma stuck_not_busy t th :
  threads m !! t = Some th → critical th || filled th || freed th = false.
Proof.
  intros Ht. destruct (critical th || filled th || freed th) eqn:E; [|done].
  destruct (stuck_at_P m t th Hinv Hstuck Ht) as (s & Hi & _).
  - apply (busy_unfinished t); [done|]. by rewrite E.
  - by destruct (busy_ready m t th Hinv Ht E s).
Qed.

Lemma stuck_mutex : count_of mutex m = 1.
Proof.
  pose proof (pi_mutex m Hinv) as Hm. rewrite (proj2 (cnt_zero critical _)) in Hm; [lia|].
  intros t th Ht. pose proof (stuck_not_busy t th Ht) as Hb.
  by apply orb_false_iff in Hb as [[? _]%orb_false_iff _].
Qed.

Lemma stuck_no_owner t th : threads m !! t = Some th → owns_empty th || owns_full th = false.
Proof.
  intros Ht. destruct (owns_empty th || owns_full th) eqn:E; [|done]. exfalso.
  pose proof (stuck_not_busy t th Ht) as Hb.
  destruct (stuck_at_P m t th Hinv Hstuck Ht) as (s & Hi & Hc).
  { apply (busy_unfinished t th Ht). by rewrite <-orb_assoc, E, orb_true_r. }
  assert (s (loc th) = mutex) as E'; [|by rewrite E', stuck_mutex in Hc].
  pose proof (pi_threads m Hinv t th Ht) as [Hpr _ _ _ _ _ _ _].
  destruct th as [pr p b [k num d tp itg cc ii]]. simpl in Hpr. subst pr.
  destruct k; do 21 (try destruct p as [|p]); cbn in E, Hi; try done; by simplify_eq.
Qed.

Lemma stuck_counts : count_of empty m = BUFFER_SIZE - queued (glob m) ∧ count_of full m = queued (glob m).
Proof.
  pose proof (pi_empty m Hinv) as He. pose proof (pi_full m Hinv) as Hf.
  assert (∀ P, (∀ t th, threads m !! t = Some th → P th = false) → cnt P (threads m) = 0%nat) as Hz
    by (intros P; apply cnt_zero).
  rewrite (Hz owns_empty), (Hz freed) in He; [rewrite (Hz filled), (Hz owns_full) in Hf; [lia|..]|..];
    intros t th Ht; pose proof (stuck_not_busy t th Ht); pose proof (stuck_no_owner t th Ht);
    by destruct (owns_empty th), (owns_full th), (filled th), (freed th), (critical th).
Qed.

Lemma stuck_blocked t th :
  threads m !! t = Some th → finished th = false →
  blocked_at th ∧
  (send_pc th = 1%nat → queued (glob m) = BUFFER_SIZE) ∧
  (is_kind Consumer th = true → queued (glob m) = 0) ∧
  (pc th = 2%nat → is_kind Main th = true → count_of producer_finished m = 0) ∧
  (pc th = 18%nat → count_of consumer_finished m = 0).
Proof.
  intros Ht Hf. destruct stuck_counts as [He Hfu].
  pose proof stuck_mutex as Hmu.
  destruct (stuck_at_P m t th Hinv Hstuck Ht Hf) as (s & Hi & Hc).
  pose proof (pi_threads m Hinv t th Ht) as [Hpr _ _ _ _ _ _ _]. unfold blocked_at.
  destruct th as [pr p b [k num d tp itg cc ii]]. simpl in Hpr. subst pr.
  destruct k; do 21 (try destruct p as [|p]); try done; cbn in *; simplify_eq/=;
    split_and!; intros; try done; try lia; eauto 6.
Qed.

(** When every consumer has finished, the last stop item has been received, so
    the buffer is empty. *)
Lemma consumers_done_empty :
  (∀ t th, threads m !! t = Some th → is_kind Consumer th = true → finished th = true) →
  0 < NUM_CONSUMERS → received (glob m) = sent (glob m) ∧
    Z.of_nat (sum_list_with stops_sent (threads m)) = NUM_CONSUMERS.
Proof.
  intros Hfin Hpos. pose proof (stops_bound m Hinv) as Hsb.
  assert (Z.of_nat (cnt got_stop (threads m)) = NUM_CONSUMERS) as Hgot.
  { rewrite <-(pi_kinds m Hinv Consumer). f_equal. apply Nat.le_antisymm; apply cnt_mono_in.
    - intros t th _ Hg. by apply andb_true_iff in Hg as [[? _]%andb_true_iff _].
    - intros t th Ht Hk. pose proof (check_small m t th Hinv Ht Hk).
      specialize (Hfin t th Ht Hk). unfold got_stop. rewrite Hk.
      pose proof (pi_threads m Hinv t th Ht) as [Hpr Hpc _ _ _ _ _ Hloc].
      destruct th as [pr p b [k num d tp itg cc ii]]. simpl in *. subst pr.
      destruct k; try done. do 12 (try destruct p as [|p]); try done. cbn in *.
      facts. match goal with H : _ ∨ _ |- _ => destruct H; [done|lia] end. }
  destruct (pi_sent m Hinv) as (ds & Hs & Hds & _).
  destruct (pi_buffer m Hinv) as [_ _ (win & Hw & _)].
  pose proof (pi_got_stop m Hinv) as Hgs.
  set (n := sum_list_with stops_sent (threads m)) in *.
  assert (cnt is_stop (sent (glob m)) = n) as Hcs.
  { rewrite Hs, cnt_app. rewrite (proj2 (cnt_zero is_stop ds)).
    - rewrite (proj2 (cnt_all is_stop (replicate n (0, 0)))); [by rewrite length_replicate|].
      intros j x Hx. by apply lookup_replicate in Hx as [-> _].
    - intros j x Hx. rewrite Forall_lookup in Hds. by apply (Hds j). }
  rewrite Hw, cnt_app in Hcs. split; [|lia].
  destruct (decide (win = [])) as [->|Hne]; [by rewrite Hw, app_nil_r|exfalso].
  assert (last (sent (glob m)) = Some (0, 0)) as Hl.
  { rewrite Hs. destruct n as [|n]; [lia|]. by rewrite replicate_S_end, assoc_L, last_snoc by apply _. }
  rewrite Hw, last_app in Hl. destruct (last win) as [x|] eqn:El; [|by apply last_None in El].
  injection Hl as ->. rewrite last_lookup in El. pose proof (cnt_pos is_stop win _ _ El eq_refl). lia.
Qed.

Hypothesis consumers_pos : 0 < NUM_CONSUMERS.

Lemma stuck_no_sender t th :
  threads m !! t = Some th → finished th = false → send_pc th ≠ 1%nat.
Proof.
  intros Ht Hf Hs. destruct (stuck_blocked t th Ht Hf) as (_ & Hq & _). specialize (Hq Hs).
  destruct consumers_done_empty as [E _]; [|done|].
  - intros t2 th2 Ht2 Hk2. destruct (finished th2) eqn:Hf2; [done|].
    destruct (stuck_blocked t2 th2 Ht2 Hf2) as (_ & _ & Hq2 & _). rewrite Hq2 in Hq; done.
  - unfold queued in Hq. rewrite E in Hq. unfold BUFFER_SIZE in Hq. lia.
Qed.

Lemma stuck_producers : cnt (done_by Producer) (threads m) = cnt (is_kind Producer) (threads m).
Proof.
  apply Nat.le_antisymm; apply cnt_mono_in.
  - intros t th _ Hg. by apply andb_true_iff in Hg as [? _].
  - intros t th Ht Hk. unfold done_by. rewrite Hk. destruct (finished th) eqn:Hf.
    + pose proof (pi_threads m Hinv t th Ht) as [Hpr Hpc _ _ _ _ _ _].
      destruct th as [pr p b [k num d tp itg cc ii]]. simpl in *. subst pr.
      destruct k; try done. by do 12 (try destruct p as [|p]).
    + pose proof (stuck_no_sender t th Ht Hf).
      destruct (stuck_blocked t th Ht Hf) as ([[Hs _]|[[Hc _]|[Hm _]]] & _); [done|..];
        unfold is_kind in *; by destruct (kind (loc th)).
Qed.

(** The main thread is waiting for consumers to finish, or done. *)
Lemma stuck_main t th :
  threads m !! t = Some th → is_kind Main th = true → pc th = 18%nat ∨ finished th = true.
Proof.
  intros Ht Hk. destruct (finished th) eqn:Hf; [by right|left].
  pose proof (stuck_no_sender t th Ht Hf).
  destruct (stuck_blocked t th Ht Hf) as ([[Hs _]|[[Hc _]|[_ [Hm|Hm]]]] & _ & _ & Hp & _);
    [done|unfold is_kind in *; by destruct (kind (loc th))|exfalso|done].
  pose proof (pi_pfin m Hinv) as Hw. rewrite Hp, stuck_producers, (pi_kinds m Hinv Producer) in Hw by done.
  rewrite (main_sum m t th waited_p) in Hw by
    (done || (intros x Hx; unfold waited_p; by rewrite Hx)).
  pose proof (pi_threads m Hinv t th Ht) as [_ _ _ _ _ _ _ Hloc].
  unfold waited_p in Hw. rewrite Hk, Hm in Hw. unfold is_kind in Hk. destruct (kind (loc th)); try done.
  rewrite Hm in Hloc. cbn in *. facts. lia.
Qed.

(** Once the main thread has sent the stop items, every consumer receives one. *)
Lemma stuck_consumers t th :
  threads m !! t = Some th → is_kind Consumer th = true → finished th = true.
Proof.
  intros Ht Hk. destruct (finished th) eqn:Hf; [done|exfalso].
  destruct (stuck_blocked t th Ht Hf) as (Hb & _ & Hq & _). specialize (Hq Hk).
  destruct (main_exists m Hinv) as (t0 & mn & Ht0 & Hmn).
  assert (sum_list_with stops_sent (threads m) = Z.to_nat NUM_CONSUMERS) as Hst.
  { rewrite (main_sum m t0 mn stops_sent) by (done || (intros x Hx; unfold stops_sent; by rewrite Hx)).
    pose proof (pi_threads m Hinv t0 mn Ht0) as [Hpr Hpc _ _ _ _ _ _].
    unfold stops_sent. rewrite Hmn. destruct (stuck_main t0 mn Ht0 Hmn) as [->|Hfm]; [done|].
    destruct mn as [pr p b [k num d tp itg cc ii]]. simpl in *. subst pr.
    destruct k; try done. by do 21 (try destruct p as [|p]). }
  destruct (pi_sent m Hinv) as (ds & Hs & Hds & _). rewrite Hst in Hs.
  destruct (pi_buffer m Hinv) as [_ _ (win & Hw & _)].
  rewrite (queued_window _ win Hw) in Hq. destruct win; [|done]. rewrite app_nil_r in Hw.
  pose proof (pi_got_stop m Hinv) as Hgs. rewrite <-Hw, Hs, cnt_app in Hgs.
  rewrite (proj2 (cnt_all is_stop (replicate _ _))) in Hgs
    by (intros j x Hx; by apply lookup_replicate in Hx as [-> _]).
  rewrite length_replicate in Hgs. pose proof (pi_kinds m Hinv Consumer) as Hkc. cbn in Hkc.
  assert (cnt got_stop (threads m) < cnt (is_kind Consumer) (threads m))%nat; [|lia].
  apply (cnt_lt _ _ _ t th); [|done| |done].
  - intros y Hg. by apply andb_true_iff in Hg as [[? _]%andb_true_iff _].
  - unfold got_stop. destruct Hb as [[_ Hb]|[[_ ->]|[Hb _]]].
    + unfold is_kind in *. by destruct (kind (loc th)).
    + by rewrite andb_false_r.
    + unfold is_kind in *. by destruct (kind (loc th)).
Qed.

(** A state in which no thread is ready is the end of the run. *)
Lemma stuck_finished t th : threads m !! t = Some th → finished th = true.
Proof.
  intros Ht. destruct (finished th) eqn:Hf; [done|exfalso].
  pose proof (stuck_no_sender t th Ht Hf).
  destruct (stuck_blocked t th Ht Hf) as ([[Hs _]|[[Hc _]|[Hk _]]] & _ & _ & _ & Hq);
    [done|by rewrite (stuck_consumers t th Ht Hc) in Hf|].
  destruct (stuck_main t th Ht Hk) as [Hp|Hp]; [|congruence].
  pose proof (pi_cfin m Hinv) as Hw. rewrite Hq in Hw by done.
  rewrite (main_sum m t th waited_c) in Hw by
    (done || (intros x Hx; unfold waited_c; by rewrite Hx)).
  assert (cnt (is_kind Consumer) (threads m) ≤ cnt (done_by Consumer) (threads m))%nat as Hle.
  { apply cnt_mono_in. intros t1 th1 Ht1 Hk1. unfold done_by. rewrite Hk1.
    pose proof (stuck_consumers t1 th1 Ht1 Hk1) as Hf1.
    pose proof (pi_threads m Hinv t1 th1 Ht1) as [Hpr Hpc _ _ _ _ _ _].
    destruct th1 as [pr p b [k num d tp itg cc ii]]. simpl in *. subst pr.
    destruct k; try done. by do 12 (try destruct p as [|p]). }
  pose proof (pi_kinds m Hinv Consumer) as Hkc. cbn in Hkc.
  pose proof (pi_threads m Hinv t th Ht) as [_ _ _ _ _ _ _ Hloc].
  unfold waited_c in Hw. rewrite Hk, Hp in Hw. unfold is_kind in Hk. destruct (kind (loc th)); try done.
  rewrite Hp in Hloc. cbn in *. facts. lia.
Qed.

End stuck.

(** When all threads have finished, nobody sleeps on a semaphore. *)
Lemma finished_shutdown m :
  pc_inv m → (∀ t th, threads m !! t = Some th → finished th = true) → run_shutdown m = Ok tt.
Proof.
  intros Hinv Hfin.
  assert (∀ s, (s < 5)%nat → ∃ sem, sems m !! s = Some sem ∧ sem_destroy sem = Ok tt) as Hd.
  { intros s Hs. destruct (lookup_lt_is_Some_2 (sems m) s) as [sem Hsem]; [by rewrite (pi_sems m Hinv)|].
    exists sem. split; [done|]. exact (finished_sem_destroy m s sem (pi_sync m Hinv) Hfin Hsem). }
  unfold run_shutdown, producerconsumer_shutdown, mutex, empty, full, producer_finished, consumer_finished.
  destruct (Hd 0%nat ltac:(lia)) as (s0 & -> & E0). destruct (Hd 1%nat ltac:(lia)) as (s1 & -> & E1).
  destruct (Hd 2%nat ltac:(lia)) as (s2 & -> & E2). destruct (Hd 3%nat ltac:(lia)) as (s3 & -> & E3).
  destruct (Hd 4%nat ltac:(lia)) as (s4 & -> & E4). cbn. rewrite E0. cbn. rewrite E1. cbn. rewrite E2.
  cbn. rewrite E3. cbn. by rewrite E4.
Qed.

(** A producer that has finished has sent all its items. *)
Lemma finished_items m :
  pc_inv m → (∀ t th, threads m !! t = Some th → finished th = true) →
  flat_map items_sent (threads m) = flat_map (λ num, items_above num 0) (seqZ 0 NUM_PRODUCERS).
Proof.
  intros Hinv Hfin.
  set (φ := λ id : role * Z, match id.1 with Producer => items_above id.2 0 | _ => [] end).
  assert (flat_map items_sent (threads m) = flat_map φ (map thread_id (threads m))) as ->.
  { assert (∀ t th, threads m !! t = Some th → items_sent th = φ (thread_id th)) as Hi.
    { intros t th Ht. specialize (Hfin t th Ht).
      pose proof (pi_threads m Hinv t th Ht) as [Hpr Hpc _ _ _ _ _ Hloc].
      destruct th as [pr p b [k num d tp itg cc ii]]. simpl in *. subst pr.
      destruct k; [done| |done]. do 12 (try destruct p as [|p]); try done.
      destruct p; [|cbn in Hpc; lia]. cbn in Hloc. facts. subst itg. done. }
    revert Hi. generalize (threads m). intros l. induction l as [|x l IH]; [done|]. intros Hi. simpl.
    by rewrite (Hi 0%nat x eq_refl), IH by (intros t; apply (Hi (S t))). }
  rewrite (pi_ids m Hinv). unfold run_ids. cbn [flat_map]. rewrite flat_map_app.
  assert (flat_map φ (map (Consumer,.) (seqZ 0 NUM_CONSUMERS)) = []) as ->.
  { generalize (seqZ 0 NUM_CONSUMERS). intros l. by induction l. }
  generalize (seqZ 0 NUM_PRODUCERS). intros l. induction l as [|x l IH]; [done|]. cbn in *. by rewrite IH.
Qed.

End driver.

(** ** Properties *)

(** The parameters the driver is used with: at least one consumer, item numbers
    that fit an int, and fewer items than the consumers' limit. *)
Record sim_params (np nc k : Z) : Prop := {
  sp_producers : 0 ≤ np;
  sp_consumers : 0 < nc < two31;
  sp_items : 0 ≤ k;
  sp_small : k + 1000 * np < two31;
  sp_few : np * k < SOMETHING_WRONG_COUNT
}.

(** The initial states: the driver's threads have been started, the buffer holds
    anything. *)
Definition sim_init (np nc k : Z) (m : machine pc_glob pc_loc) : Prop :=
  ∃ buf, zlen buf = BUFFER_SIZE ∧ m = run_producerconsumer np nc k buf.

Lemma pc_inv_reachable np nc k m :
  sim_params np nc k → reachable (sim_init np nc k) mstep m → pc_inv np nc k m.
Proof.
  intros []. apply reachable_invariant.
  - intros s (buf & Hb & ->). apply run_inv; done || lia.
  - intros s s'. apply pc_inv_mstep; done || lia.
Qed.

(** C25: the buffer is a bounded first-in first-out queue.  Whatever the
    interleaving of producers and consumers, the items received so far are a
    prefix of the items sent so far, the items in between are at most BUFFER_SIZE,
    stand in the buffer from [queue_front] on in the order they were sent, and at
    most one thread is between [P(mutex)] and [V(mutex)]. *)
Theorem buffer_fifo np nc k m (Hp : sim_params np nc k)
  (Hr : reachable (sim_init np nc k) mstep m) :
  ∃ win, sent (glob m) = received (glob m) ++ win ∧ zlen win ≤ BUFFER_SIZE ∧
    (∀ j d, win !! j = Some d →
       zget (buffer (glob m)) ((queue_front (glob m) + Z.of_nat j) mod BUFFER_SIZE) = Some d) ∧
    (cnt critical (threads m) ≤ 1)%nat.
Proof.
  pose proof (pc_inv_reachable _ _ _ _ Hp Hr) as Hinv.
  pose proof (count_nonneg m empty (pi_sync _ _ _ m Hinv)).
  pose proof (count_nonneg m mutex (pi_sync _ _ _ m Hinv)).
  pose proof (pi_empty _ _ _ m Hinv). pose proof (pi_mutex _ _ _ m Hinv).
  destruct (pi_buffer _ _ _ m Hinv) as [_ _ (win & Hw & _ & Hg)].
  rewrite (queued_window _ win Hw) in *. exists win. split_and!; [done|lia|done|lia].
Qed.

(** C23: the simulation never gets stuck and never goes on forever.  In every
    reachable state each thread that is ready can execute its next instruction
    without a failed assertion or an access outside the buffer, and every
    schedule from that state ends after finitely many steps. *)
Theorem simulation_terminates np nc k m (Hp : sim_params np nc k)
  (Hr : reachable (sim_init np nc k) mstep m) :
  (∀ t th, threads m !! t = Some th → ready th = true → ∃ m', exec t m = Ok m') ∧
  Acc (λ m2 m1, mstep m1 m2) m.
Proof.
  pose proof (pc_inv_reachable _ _ _ _ Hp Hr) as Hinv. destruct Hp. split.
  - intros t th Ht [_ Hrd]%andb_true_iff. apply (exec_total np nc k) with th; try done || lia.
    apply bool_decide_eq_true in Hrd as [x Hx]. unfold finished. by rewrite Hx.
  - apply (measure_acc (work np nc) (λ _, 0%nat) (pc_inv np nc k)); [| |done].
    + intros s s'. apply pc_inv_mstep; done || lia.
    + intros s s' t th. apply (measure_exec np nc k); done || lia.
Qed.

(** C24: the simulation delivers everything.  When no thread can run any more, all
    threads have finished, the consumers have received every item of every
    producer once, followed by the stop items, and the semaphores can be
    destroyed. *)
Theorem simulation_delivers np nc k m (Hp : sim_params np nc k)
  (Hr : reachable (sim_init np nc k) mstep m)
  (Hstuck : ∀ t th, threads m !! t = Some th → ready th = false) :
  (∀ t th, threads m !! t = Some th → finished th = true) ∧
  (∃ ds, received (glob m) = ds ++ replicate (Z.to_nat nc) (0, 0) ∧
     ds ≡ₚ flat_map (λ num, items_above k num 0) (seqZ 0 np)) ∧
  run_shutdown m = Ok tt.
Proof.
  pose proof (pc_inv_reachable _ _ _ _ Hp Hr) as Hinv. destruct Hp.
  assert (∀ t th, threads m !! t = Some th → finished th = true) as Hfin.
  { intros t th. apply (stuck_finished np nc k); done || lia. }
  split_and!; [done| |by apply (finished_shutdown np nc k)].
  destruct (consumers_done_empty np nc k) with m as [E Hst]; try done || lia.
  { intros t th Ht _. by apply (Hfin t). }
  destruct (pi_sent _ _ _ m Hinv) as (ds & Hs & _ & Hpm). exists ds. split.
  - rewrite E, Hs. do 2 f_equal. lia.
  - by rewrite Hpm, (finished_items np nc k m Hinv Hfin).
Qed.

(** *** Concrete runs *)

Lemma demo_params : sim_params 1 1 2.
Proof. by constructor. Qed.

(** One producer of two items, one consumer, in the middle of its run and at the end. *)
Definition demo_run (n : nat) : machine pc_glob pc_loc :=
  run_sched n (run_producerconsumer 1 1 2 (replicate 10 (7, 8))).

Lemma demo_run_reachable n : reachable (sim_init 1 1 2) mstep (demo_run n).
Proof. apply run_sched_reachable, reach_init. by exists (replicate 10 (7, 8)). Qed.

Lemma buffer_fifo_witness :
  ∃ win, sent (glob (demo_run 24)) = received (glob (demo_run 24)) ++ win ∧ zlen win ≤ BUFFER_SIZE ∧
    (∀ j d, win !! j = Some d →
       zget (buffer (glob (demo_run 24)))
         ((queue_front (glob (demo_run 24)) + Z.of_nat j) mod BUFFER_SIZE) = Some d) ∧
    (cnt critical (threads (demo_run 24)) ≤ 1)%nat.
Proof. exact (buffer_fifo 1 1 2 (demo_run 24) demo_params (demo_run_reachable 24)). Defined.

Lemma simulation_terminates_witness :
  (∀ t th, threads (demo_run 24) !! t = Some th → ready th = true → ∃ m', exec t (demo_run 24) = Ok m') ∧
  Acc (λ m2 m1, mstep m1 m2) (demo_run 24).
Proof. exact (simulation_terminates 1 1 2 (demo_run 24) demo_params (demo_run_reachable 24)). Defined.

Lemma demo_stuck t th : threads (demo_run 200) !! t = Some th → ready th = false.
Proof. apply no_ready_stuck. vm_compute. reflexivity. Qed.

Lemma simulation_delivers_witness :
  (∀ t th, threads (demo_run 200) !! t = Some th → finished th = true) ∧
  (∃ ds, received (glob (demo_run 200)) = ds ++ replicate (Z.to_nat 1) (0, 0) ∧
     ds ≡ₚ flat_map (λ num, items_above 2 num 0) (seqZ 0 1)) ∧
  run_shutdown (demo_run 200) = Ok tt.
Proof. exact (simulation_delivers 1 1 2 (demo_run 200) demo_params (demo_run_reachable 200) demo_stuck). Defined.
