(* ===== verification/Maths.v ===== *)
(** * The counting exercise of assignment 1

    math.c as programs of the machine of Synch.v: the threads [adder], which
    increment a shared counter under a lock until it reaches NADDS, and the
    thread of [maths], which waits for them and prints statistics.  Every access
    to a shared variable is a step of its own: [counter = counter + 1] and
    [adder_counters[addernumber]++] are a load and a store.

    The theorems: under every schedule the program ends without a failed
    assertion, every addition counts, and the statistics add up. *)

From stdpp Require Import base list list_numbers.
From Stdlib Require Import ZArith Lia.
From S2P Require Import Prelude Synch.
Open Scope Z_scope.

#[local] Arguments cnt {A} P l : simpl never.

(** [complaints] is what the sanity check of [adder] prints: thread, a and b. *)
Record math_glob := MathGlob {
  counter : Z;
  adder_counters : list Z;
  complaints : list (Z * Z * Z)
}.

Inductive math_role := Maths | Adder (addernumber : Z).

(** Local variables: [tmp] holds a loaded value; [shown] and [stats] are what
    [maths] prints: the counter and the adders' counters. *)
Record math_loc := MathLoc {
  role : math_role;
  a : Z;
  b : Z;
  flag : Z;
  tmp : Z;
  index : Z;
  sum : Z;
  shown : Z;
  stats : list Z
}.

Definition with_a (x : Z) (l : math_loc) : math_loc :=
  MathLoc (role l) x (b l) (flag l) (tmp l) (index l) (sum l) (shown l) (stats l).
Definition with_b (x : Z) (l : math_loc) : math_loc :=
  MathLoc (role l) (a l) x (flag l) (tmp l) (index l) (sum l) (shown l) (stats l).
Definition with_flag (x : Z) (l : math_loc) : math_loc :=
  MathLoc (role l) (a l) (b l) x (tmp l) (index l) (sum l) (shown l) (stats l).
Definition with_tmp (x : Z) (l : math_loc) : math_loc :=
  MathLoc (role l) (a l) (b l) (flag l) x (index l) (sum l) (shown l) (stats l).
Definition with_index (x : Z) (l : math_loc) : math_loc :=
  MathLoc (role l) (a l) (b l) (flag l) (tmp l) x (sum l) (shown l) (stats l).
Definition with_sum (x : Z) (l : math_loc) : math_loc :=
  MathLoc (role l) (a l) (b l) (flag l) (tmp l) (index l) x (shown l) (stats l).
Definition with_shown (x : Z) (l : math_loc) : math_loc :=
  MathLoc (role l) (a l) (b l) (flag l) (tmp l) (index l) (sum l) x (stats l).
Definition with_stats (x : list Z) (l : math_loc) : math_loc :=
  MathLoc (role l) (a l) (b l) (flag l) (tmp l) (index l) (sum l) (shown l) x.

Definition math_code : Type := list (instr math_glob math_loc).

Definition addernumber (l : math_loc) : Z := match role l with Adder n => n | Maths => 0 end.

(** The semaphore [finished] and the lock. *)
Definition finished_sem : nat := 0.
Definition lock_ : nat := 0.

Section maths.

(** The enumeration constants NADDERS and NADDS. *)
Context (NADDERS NADDS : Z).

(** *** The thread function [adder] *)

Definition load_counter (g : math_glob) (l : math_loc) : outcome (math_glob * math_loc) :=
  Ok (g, with_tmp (counter g) l).

Definition store_counter (g : math_glob) (l : math_loc) : outcome (math_glob * math_loc) :=
  Ok (MathGlob (u32 (tmp l + 1)) (adder_counters g) (complaints g), l).

Definition load_stat (g : math_glob) (l : math_loc) : outcome (math_glob * math_loc) :=
  x ← deref (zget (adder_counters g) (addernumber l));
  Ok (g, with_tmp x l).

Definition store_stat (g : math_glob) (l : math_loc) : outcome (math_glob * math_loc) :=
  xs ← zput (adder_counters g) (addernumber l) (u32 (tmp l + 1));
  Ok (MathGlob (counter g) xs (complaints g), l).

(** [if (a + 1 != b) kprintf(...)]. *)
Definition check_sane (g : math_glob) (l : math_loc) : outcome (math_glob * math_loc) :=
  if u32 (a l + 1) =? b l then Ok (g, l)
  else Ok (MathGlob (counter g) (adder_counters g) (complaints g ++ [(addernumber l, a l, b l)]), l).

Definition adder : math_code :=
  [ IAcq lock_;
    IDo (λ g l, Ok (g, with_a (counter g) l));
    IIf (λ l, negb (a l <? NADDS)) 10;
    IDo load_counter;
    IDo store_counter;
    IDo (λ g l, Ok (g, with_b (counter g) l));
    IDo load_stat;
    IDo store_stat;
    IDo check_sane;
    IIf (λ _, true) 11;
    IDo (λ g l, Ok (g, with_flag 0 l));
    IRel lock_;
    IIf (λ l, negb (flag l =? 0)) 0;
    IV (λ _, finished_sem) ].

(** *** [maths], from the loop that waits for the adders on *)

Definition add_stat (g : math_glob) (l : math_loc) : outcome (math_glob * math_loc) :=
  x ← deref (zget (adder_counters g) (index l));
  Ok (g, with_sum (u32 (sum l + x)) l).

Definition print_stat (g : math_glob) (l : math_loc) : outcome (math_glob * math_loc) :=
  x ← deref (zget (adder_counters g) (index l));
  Ok (g, with_index (index l + 1) (with_stats (stats l ++ [x]) l)).

Definition maths_wait : math_code :=
  [ IDo (λ g l, Ok (g, with_index 0 l));
    IIf (λ l, negb (index l <? NADDERS)) 5;
    IP (λ _, finished_sem);
    IDo (λ g l, Ok (g, with_index (index l + 1) l));
    IIf (λ _, true) 1;
    IDo (λ g l, Ok (g, with_index 0 (with_sum 0 (with_shown (counter g) l))));
    IIf (λ l, negb (index l <? NADDERS)) 10;
    IDo add_stat;
    IDo print_stat;
    IIf (λ _, true) 6 ].

Definition prog_of (r : math_role) : math_code :=
  match r with Maths => maths_wait | Adder _ => adder end.

Definition fresh (r : math_role) : math_code * math_loc := (prog_of r, MathLoc r 0 0 1 0 0 0 0 []).

(** [maths] up to its waiting loop, in a kernel whose variables [counter] and
    [adder_counters] hold [c] and [xs]; a thread that is forked later is one that
    is not scheduled before. *)
Definition maths (c : Z) (xs : list Z) : machine math_glob math_loc :=
  start (MathGlob c xs []) [sem_create 0] [lock_create] []
    (fresh Maths :: map (λ n, fresh (Adder n)) (seqZ 0 NADDERS)).

(** The end of [maths]. *)
Definition maths_cleanup (m : machine math_glob math_loc) : outcome unit :=
  s ← deref (sems m !! finished_sem); sem_destroy s;;
  l ← deref (locks m !! lock_); lock_destroy l.

(** ** Invariant *)

#[local] Abbreviation thread := (thr math_glob math_loc).
Implicit Types (th : thread) (g : math_glob) (l : math_loc) (m : machine math_glob math_loc).

Definition is_adder th : bool := match role (loc th) with Adder _ => true | Maths => false end.

(** Between [lock_acquire] and [lock_release]. *)
Definition critical th : bool := is_adder th && ((1 <=? pc th) && (pc th <=? 11))%nat.

(** The counter has been incremented, the adder's own counter has not. *)
Definition pending th : bool := is_adder th && ((5 <=? pc th) && (pc th <=? 7))%nat.

(** After [V(finished)]. *)
Definition signalled th : bool := is_adder th && (14 <=? pc th)%nat.

(** The units of [finished] that [maths] has taken. *)
Definition waited th : nat :=
  match role (loc th) with
  | Adder _ => 0
  | Maths => match pc th with
             | 0 => 0
             | 1 | 2 | 4 => Z.to_nat (index (loc th))
             | 3 => S (Z.to_nat (index (loc th)))
             | _ => Z.to_nat NADDERS
             end%nat
  end.

Definition adder_ok g n l (p : nat) : Prop :=
  match p with
  | 0 | 1 | 9 => (flag l = 1)%Z
  | 2 => (flag l = 1 ∧ a l = counter g)%Z
  | 3 => (flag l = 1 ∧ a l = counter g ∧ a l < NADDS)%Z
  | 4 => (flag l = 1 ∧ a l = counter g ∧ a l < NADDS ∧ tmp l = counter g)%Z
  | 5 => (flag l = 1 ∧ counter g = a l + 1)%Z
  | 6 => (flag l = 1 ∧ counter g = a l + 1 ∧ b l = counter g)%Z
  | 7 => (flag l = 1 ∧ counter g = a l + 1 ∧ b l = counter g ∧ zget (adder_counters g) n = Some (tmp l))%Z
  | 8 => (flag l = 1 ∧ counter g = a l + 1 ∧ b l = counter g)%Z
  | 10 => (counter g = NADDS)%Z
  | 11 | 12 => (flag l = 1 ∨ flag l = 0 ∧ counter g = NADDS)%Z
  | _ => (counter g = NADDS)%Z
  end%nat.

(** The sum of the first [n] counters. *)
Definition total (n : Z) (xs : list Z) : Z := foldr Z.add 0 (take (Z.to_nat n) xs).

Definition printed g l : Prop := shown l = NADDS ∧ stats l = take (Z.to_nat (index l)) (adder_counters g).

Definition maths_ok g l (p : nat) : Prop :=
  match p with
  | 0 | 5 => (stats l = [])%Z
  | 1 | 4 => (0 ≤ index l ≤ NADDERS ∧ stats l = [])%Z
  | 2 | 3 => (0 ≤ index l < NADDERS ∧ stats l = [])%Z
  | 6 | 9 => (0 ≤ index l ≤ NADDERS ∧ printed g l ∧ sum l = total (index l) (adder_counters g))%Z
  | 7 => (0 ≤ index l < NADDERS ∧ printed g l ∧ sum l = total (index l) (adder_counters g))%Z
  | 8 => (0 ≤ index l < NADDERS ∧ printed g l ∧ sum l = total (index l + 1) (adder_counters g))%Z
  | _ => (index l = NADDERS ∧ printed g l ∧ sum l = total NADDERS (adder_counters g))%Z
  end%nat.

Record thread_ok g th : Prop := {
  to_prog : prog th = prog_of (role (loc th));
  to_loc : match role (loc th) with
           | Adder n => 0 ≤ n < NADDERS ∧ adder_ok g n (loc th) (pc th)
           | Maths => maths_ok g (loc th) (pc th)
           end
}.

Record glob_ok g : Prop := {
  go_counter : 0 ≤ counter g ≤ NADDS;
  go_len : zlen (adder_counters g) = NADDERS;
  go_nonneg n x : zget (adder_counters g) n = Some x → 0 ≤ x;
  go_sane : complaints g = []
}.

Definition count m : Z := match sems m !! finished_sem with Some sem => sem_count sem | None => 0 end.

(** The roles of the threads. *)
Definition math_roles : list math_role := Maths :: map Adder (seqZ 0 NADDERS).

Record math_inv m : Prop := {
  mi_sync : sync_ok m;
  mi_sems : length (sems m) = 1%nat;
  mi_guard : guarded lock_ critical m;
  mi_glob : glob_ok (glob m);
  mi_sum : total NADDERS (adder_counters (glob m)) + Z.of_nat (cnt pending (threads m)) = counter (glob m);
  mi_done : count m + Z.of_nat (sum_list_with waited (threads m)) = Z.of_nat (cnt signalled (threads m));
  mi_roles : map (λ th, role (loc th)) (threads m) = math_roles;
  mi_threads t th : threads m !! t = Some th → thread_ok (glob m) th
}.

Hypothesis adders_range : 0 < NADDERS < two31.
Hypothesis adds_range : 0 ≤ NADDS < two32.

(** *** Sums *)

Lemma total_next n xs x : 0 ≤ n → zget xs n = Some x → total (n + 1) xs = total n xs + x.
Proof.
  intros Hn Hx. unfold total. unfold zget in Hx. rewrite decide_True in Hx by done.
  replace (Z.to_nat (n + 1)) with (S (Z.to_nat n)) by lia.
  rewrite (take_S_r _ _ x Hx). induction (take _ xs); simpl; lia.
Qed.

Lemma total_all xs : total (zlen xs) xs = foldr Z.add 0 xs.
Proof. unfold total, zlen. by rewrite Nat2Z.id, firstn_all. Qed.

Lemma total_zset xs n x y :
  zget xs n = Some x → foldr Z.add 0 (zset xs n y) = foldr Z.add 0 xs - x + y.
Proof.
  intros Hx. pose proof (zget_Some_range _ _ _ Hx) as Hn. unfold zset. unfold zget in Hx.
  rewrite decide_True by lia. rewrite decide_True in Hx by lia. clear Hn. revert Hx. generalize (Z.to_nat n). clear n.
  induction xs as [|z xs IH]; intros [|n] Hx; simplify_eq/=; [lia|]. rewrite (IH n Hx). lia.
Qed.

Lemma math_total_nonneg n xs : (∀ i x, zget xs i = Some x → 0 ≤ x) → 0 ≤ total n xs.
Proof.
  intros Hx. unfold total. assert (∀ i x, xs !! i = Some x → 0 ≤ x) as Hx'.
  { intros i x Hi. apply (Hx (Z.of_nat i)). unfold zget. by rewrite decide_True, Nat2Z.id by lia. }
  revert Hx'. generalize (Z.to_nat n). clear Hx. induction xs as [|x xs IH]; intros [|k] Hx; simpl; try lia.
  pose proof (Hx 0%nat x eq_refl). specialize (IH k (λ i y, Hx (S i) y)). lia.
Qed.

(** *** Preservation *)

Lemma math_thread_ok_same g th th' :
  thread_ok g th → prog th' = prog th → pc th' = pc th → loc th' = loc th → thread_ok g th'.
Proof. destruct th, th'; simpl. intros H -> -> ->. by destruct H. Qed.

Lemma math_count_nonneg m : math_inv m → 0 ≤ count m.
Proof.
  intros Hinv. unfold count. destruct (sems m !! finished_sem) as [sem|] eqn:E; [|done].
  by destruct (sem_count_range m _ _ (mi_sync m Hinv) E).
Qed.

Lemma adders_count m : math_inv m → Z.of_nat (cnt is_adder (threads m)) = NADDERS.
Proof.
  intros Hinv.
  set (f := λ r, match r with Adder _ => true | Maths => false end).
  assert (∀ ths : list thread, cnt is_adder ths = cnt f (map (λ th, role (loc th)) ths)) as ->.
  { induction ths as [|x ths IH]; [done|]. simpl. by rewrite !cnt_cons, IH. }
  rewrite (mi_roles m Hinv). unfold math_roles. rewrite cnt_cons. simpl.
  rewrite (proj2 (cnt_all _ _)); [rewrite length_map, length_seqZ; lia|].
  intros j x (n & -> & _)%list_lookup_fmap_Some_1. done.
Qed.

(** [maths] is past its waiting loop only when every adder has signalled. *)
Lemma waiting m t th t' th' :
  math_inv m → threads m !! t = Some th → is_adder th = true → signalled th = false →
  threads m !! t' = Some th' → role (loc th') = Maths → (pc th' < 5)%nat.
Proof.
  intros Hinv Ht Ha Hs Ht' Hr. destruct (decide (pc th' < 5)%nat) as [|Hp]; [done|exfalso].
  assert (waited th' = Z.to_nat NADDERS) as Hw.
  { unfold waited. rewrite Hr. destruct (pc th') as [|[|[|[|[|p]]]]]; done || lia. }
  pose proof (sum_lookup_le waited _ _ _ Ht') as Hle. rewrite Hw in Hle.
  assert (cnt signalled (threads m) < cnt is_adder (threads m))%nat.
  { apply (cnt_lt _ _ _ t th); try done. by intros y [? _]%andb_true_iff. }
  pose proof (mi_done m Hinv). pose proof (math_count_nonneg m Hinv). pose proof (adders_count m Hinv). lia.
Qed.

(** The facts about a thread do not depend on what a thread in the critical
    section changes. *)
Lemma math_thread_ok_glob m g' t th t' th' :
  math_inv m → threads m !! t = Some th → threads m !! t' = Some th' → t' ≠ t →
  critical th = true → (counter (glob m) = NADDS → counter g' = NADDS) →
  thread_ok (glob m) th' → thread_ok g' th'.
Proof.
  intros Hinv Ht Ht' Hne Hc Hg [Hpr Hl]. split; [done|].
  assert (critical th' = false) as Hc'.
  { destruct (critical th') eqn:E; [|done]. destruct Hne.
    exact (guarded_unique _ _ m _ _ _ _ (mi_guard m Hinv) Ht' Ht E Hc). }
  destruct (role (loc th')) as [|n] eqn:Er.
  - assert (pc th' < 5)%nat as Hp.
    { apply andb_true_iff in Hc as [Ha Hp]. apply (waiting m t th t'); try done.
      unfold signalled. rewrite Ha. apply andb_true_iff in Hp as [_ Hp%Nat.leb_le].
      apply Nat.leb_gt. lia. }
    by destruct (pc th') as [|[|[|[|[|p]]]]]; try lia.
  - destruct Hl as [Hn Hl]. split; [done|]. unfold critical, is_adder in Hc'. rewrite Er in Hc'.
    revert Hl Hc'. generalize (pc th'). intros p Hl Hc'. simpl in Hc'.
    do 13 (try destruct p as [|p]); cbn in *; naive_solver.
Qed.


Lemma math_inv_move m m' f target t th :
  math_inv m → sync_ok m' → threads m !! t = Some th →
  threads m' = wake resume target (update f t (threads m)) →
  length (sems m') = 1%nat → length (locks m') = length (locks m) →
  (critical (f th) = true → critical th = true ∨ holder lock_ m = None) →
  holder lock_ m' = (if critical (f th) then Some t else if critical th then None else holder lock_ m) →
  glob_ok (glob m') →
  total NADDERS (adder_counters (glob m')) + b2z (pending (f th)) - counter (glob m')
    = total NADDERS (adder_counters (glob m)) + b2z (pending th) - counter (glob m) →
  count m' + Z.of_nat (waited (f th)) - b2z (signalled (f th))
    = count m + Z.of_nat (waited th) - b2z (signalled th) →
  role (loc (f th)) = role (loc th) → thread_ok (glob m') (f th) →
  glob m' = glob m ∨ critical th = true ∧ (counter (glob m) = NADDS → counter (glob m') = NADDS) →
  math_inv m'.
Proof.
  intros Hinv Hsync Ht Hths Hs Hl Hin Hh Hg Hsum Hcnt Hr Hok Hgl.
  constructor; try done; rewrite ?Hths.
  - exact (guarded_move lock_ critical m m' f target t th ltac:(done) (mi_guard m Hinv) Ht Hths Hl Hin Hh).
  - pose proof (cnt_step pending f target t th (threads m) ltac:(done) Ht).
    pose proof (mi_sum m Hinv). rewrite ?b2z_nat in *. lia.
  - pose proof (cnt_step signalled f target t th (threads m) ltac:(done) Ht).
    pose proof (sum_step waited f target t th (threads m) ltac:(done) Ht).
    pose proof (mi_done m Hinv). rewrite ?b2z_nat in *. lia.
  - rewrite <-(mi_roles m Hinv). by apply (map_step (λ th, role (loc th)) f target t th).
  - intros t' th' Ht'.
    destruct (lookup_step _ _ _ _ _ _ _ Ht Ht') as (th0 & ? & ? & ? & Hth0).
    apply math_thread_ok_same with th0; try done. case_decide; [by subst|].
    pose proof (mi_threads m Hinv t' th0 Hth0) as Hok0. destruct Hgl as [->|[Hc Hgl]]; [done|].
    by apply (math_thread_ok_glob m _ t th t' th0).
Qed.

Lemma math_sem_V_count m sem :
  math_inv m → sems m !! finished_sem = Some sem → 0 < u32 (sem_count sem + 1) →
  u32 (sem_count sem + 1) = sem_count sem + 1.
Proof.
  intros Hinv Hs Hu. pose proof (sem_count_range m _ _ (mi_sync m Hinv) Hs).
  destruct (decide (sem_count sem = two32 - 1)) as [E|]; [|apply u32_id; width].
  rewrite E in Hu. by vm_compute in Hu.
Qed.

Lemma math_count_insert m sem g ls cs ths :
  math_inv m → count (Machine g (<[finished_sem := sem]> (sems m)) ls cs ths) = sem_count sem.
Proof.
  intros Hinv. unfold count. simpl. rewrite list_lookup_insert_eq; [done|].
  rewrite (mi_sems m Hinv). unfold finished_sem. lia.
Qed.

Lemma math_holding m t th :
  math_inv m → threads m !! t = Some th →
  if critical th then holder lock_ m = Some t else holder lock_ m ≠ Some t.
Proof.
  intros Hinv Ht. rewrite (gu_crit _ _ m (mi_guard m Hinv) t th Ht). by case_bool_decide.
Qed.

(** Closes the side conditions of [math_inv_move] at a concrete instruction. *)
Ltac settle :=
  cbn; rewrite ?math_count_insert, ?holder_insert, ?length_insert by (done || eapply gu_lock, mi_guard; done); cbn;
  try done; try lia; try (unfold b2z; cbn; lia); naive_solver lia.

Ltac math_move f target :=
  match goal with
  | Hinv : math_inv ?m, Hsync : sync_ok ?m', Ht : threads ?m !! ?t = Some ?th |- math_inv ?m' =>
      apply (math_inv_move m m' f target t th Hinv Hsync Ht);
      [ done
      | cbn; rewrite ?length_insert; apply (mi_sems m Hinv)
      | cbn; rewrite ?length_insert; done
      | try (settle; fail)
      | try (settle; fail)
      | try apply (mi_glob m Hinv)
      | try (settle; fail)
      | try (settle; fail)
      | done
      | constructor; cbn; [done|try (settle; fail)]
      | try (by left) ]
  end.

Ltac math_move_goal :=
  match goal with |- math_inv (Machine _ _ _ _ (update ?f _ _)) => math_move f (@None nat) end.

(** An adder's counter is at most the counter. *)
Lemma total_lookup xs n x :
  (∀ i x, zget xs i = Some x → 0 ≤ x) → zget xs n = Some x → x ≤ total (zlen xs) xs.
Proof.
  intros Hp Hx. pose proof (total_zset xs n x 0 Hx) as E.
  assert (0 ≤ total (zlen (zset xs n 0)) (zset xs n 0)) as H.
  { apply math_total_nonneg. intros i y. rewrite zget_zset. case_decide; [intros [= <-]; lia|eauto]. }
  rewrite total_all in *. lia.
Qed.

Lemma stat_bound m n x :
  math_inv m → zget (adder_counters (glob m)) n = Some x →
  0 ≤ x ≤ NADDS - Z.of_nat (cnt pending (threads m)).
Proof.
  intros Hinv Hx. destruct (mi_glob m Hinv) as [Hc Hlen Hnn _].
  pose proof (total_lookup _ _ _ Hnn Hx). pose proof (mi_sum m Hinv). rewrite Hlen in *.
  pose proof (Hnn n x Hx). lia.
Qed.

Lemma total_part m n : math_inv m → 0 ≤ total n (adder_counters (glob m)) ≤ NADDS.
Proof.
  intros Hinv. destruct (mi_glob m Hinv) as [Hc Hlen Hnn _]. pose proof (mi_sum m Hinv) as Hs.
  split; [by apply math_total_nonneg|]. rewrite <-Hlen, total_all in Hs.
  assert (total n (adder_counters (glob m)) ≤ foldr Z.add 0 (adder_counters (glob m))); [|lia].
  rewrite <-(take_drop (Z.to_nat n) (adder_counters (glob m))) at 2. unfold total.
  assert (0 ≤ foldr Z.add 0 (drop (Z.to_nat n) (adder_counters (glob m)))) as Hd.
  { rewrite <-total_all. apply math_total_nonneg. intros i x Hx. unfold zget in Hx. case_decide; [|done].
    rewrite lookup_drop in Hx. apply (Hnn (Z.of_nat (Z.to_nat n + Z.to_nat i))).
    unfold zget. by rewrite decide_True, Nat2Z.id by lia. }
  rewrite foldr_app. revert Hd. generalize (foldr Z.add 0 (drop (Z.to_nat n) (adder_counters (glob m)))).
  intros z Hz. induction (take _ _); simpl; lia.
Qed.

Lemma all_signalled m t th t' th' :
  math_inv m → threads m !! t = Some th → role (loc th) = Maths → (5 ≤ pc th)%nat →
  threads m !! t' = Some th' → is_adder th' = true → signalled th' = true.
Proof.
  intros Hinv Ht Hr Hp Ht' Ha. destruct (signalled th') eqn:E; [done|].
  pose proof (waiting m t' th' t th Hinv Ht' Ha E Ht Hr). lia.
Qed.

(** Behind the waiting loop the counter has reached NADDS. *)
Lemma waited_counter m t th :
  math_inv m → threads m !! t = Some th → role (loc th) = Maths → (5 ≤ pc th)%nat → counter (glob m) = NADDS.
Proof.
  intros Hinv Ht Hr Hp. pose proof (adders_count m Hinv).
  destruct (cnt_pos_inv is_adder (threads m)) as (t' & th' & Ht' & Ha); [lia|].
  pose proof (all_signalled m t th t' th' Hinv Ht Hr Hp Ht' Ha) as Hs.
  destruct (mi_threads m Hinv t' th' Ht') as [_ Hl]. unfold signalled, is_adder in *.
  destruct (role (loc th')) as [|n]; [done|]. destruct Hl as [_ Hl]. apply Nat.leb_le in Hs.
  revert Hl Hs. generalize (pc th'). intros p Hl Hs. do 14 (try destruct p as [|p]); done || lia.
Qed.

(** The next instruction, by its kind. *)
Ltac math_instr He :=
  first
  [ eapply exec_P in He; [|done|done]; destruct He as (sem & Hs & [[Hc ->]|[Hc ->]]);
    assert (count _ = sem_count sem) as Hct by (unfold count; cbn in Hs; by rewrite Hs);
    [math_move (@sleep math_glob math_loc) (@None nat)|math_move (@next math_glob math_loc) (@None nat)]
  | eapply exec_V in He; [|done|done]; destruct He as (sem & Hs & Hu & ->);
    assert (count _ = sem_count sem) as Hct by (unfold count; cbn in Hs; by rewrite Hs);
    match goal with
    | Hi : math_inv ?m, H : sems ?m !! _ = Some ?sem, H0 : 0 < u32 (sem_count ?sem + 1) |- _ =>
        rewrite (math_sem_V_count m sem Hi H H0) in *;
        math_move (@next math_glob math_loc) (wchan_wakeone (sem_wchan sem)).2
    end
  | eapply exec_Acq in He; [|done|done]; destruct He as (lk & Hlk & Hhl & [[Hs ->]|[Hs ->]]);
    pose proof (holder_lookup _ _ _ Hlk) as Hho;
    [math_move (@sleep math_glob math_loc) (@None nat)|math_move (@next math_glob math_loc) (@None nat)]
  | eapply exec_Rel in He; [|done|done]; destruct He as (lk & Hlk & Hhl & ->);
    math_move (@next math_glob math_loc) (wchan_wakeone (lk_wchan lk)).2
  | eapply exec_Do in He; [|done|done]; let Hf := fresh "Hf" in destruct He as (g' & x' & Hf & ->); cbn in Hf;
    try (injection Hf as <- <-; math_move_goal)
  | eapply exec_If in He; [|done|done]; rewrite He in *; clear He; cbn in *;
    try match goal with H : sync_ok (Machine _ _ _ _ (update (if ?b then _ else _) _ _)) |- _ =>
      destruct b eqn:Hb end;
    math_move_goal
  | exfalso; eapply exec_finished in He; done ].

Lemma math_inv_adder t p s n l m m' :
  let th := Thr adder p s l in
  role l = Adder n → math_inv m → threads m !! t = Some th → sync_ok m' → exec t m = Ok m' → math_inv m'.
Proof.
  intros th Hr Hinv Ht Hsync He. subst th. pose proof (math_holding m t _ Hinv Ht) as Hh.
  destruct (mi_threads m Hinv t _ Ht) as [_ Hl]. destruct l as [r a b fl tmp ix sm sh st]. cbn in Hr. subst r.
  cbn in Hh, Hl. destruct Hl as [Hn Hl]. destruct (mi_glob m Hinv) as [Hcnt Hlen Hnn Hsane].
  do 14 (try destruct p as [|p]); cbn in Hh, Hl; math_instr He.
  - intros _. right. congruence.
  - split; cbn; try done. rewrite u32_id by width. lia.
  - cbn. unfold b2z. cbn. rewrite u32_id by width. lia.
  - rewrite u32_id by width. split_and!; lia.
  - right. split; [done|]. cbn. lia.
  - unfold load_stat in Hf. cbn in Hf. destruct (zget _ n) as [x|] eqn:Hx; [|done].
    injection Hf as <- <-. math_move_goal.
  - unfold store_stat in Hf. cbn in Hf. destruct Hl as (-> & Hc & -> & Hx).
    pose proof (stat_bound m n tmp Hinv Hx) as Hb. pose proof (cnt_pos pending _ _ _ Ht eq_refl).
    rewrite (proj2 (zput_Ok _ _ _ _) (conj (zget_Some_range _ _ _ Hx) eq_refl)) in Hf.
    rewrite u32_id in Hf by width. injection Hf as <- <-. math_move_goal.
    + split; cbn; [lia|by rewrite zlen_zset| |done]. intros j x. rewrite zget_zset.
      case_decide; [intros [= <-]; lia|eauto].
    + cbn. unfold b2z. cbn. rewrite <-Hlen at 1 2. rewrite <-(zlen_zset _ n (tmp + 1)) at 1.
      rewrite !total_all, (total_zset _ _ _ _ Hx). lia.
    + right. done.
  - unfold check_sane in Hf. cbn in Hf. rewrite u32_id in Hf by width.
    rewrite (proj2 (Z.eqb_eq _ _)) in Hf by lia. injection Hf as <- <-. math_move_goal.
Qed.

Lemma math_inv_maths t p s l m m' :
  let th := Thr maths_wait p s l in
  role l = Maths → math_inv m → threads m !! t = Some th → sync_ok m' → exec t m = Ok m' → math_inv m'.
Proof.
  intros th Hr Hinv Ht Hsync He. subst th. pose proof (math_holding m t _ Hinv Ht) as Hh.
  destruct (mi_threads m Hinv t _ Ht) as [_ Hl]. destruct l as [r a b fl tmp ix sm sh st]. cbn in Hr. subst r.
  cbn in Hh, Hl. destruct (mi_glob m Hinv) as [Hcnt Hlen Hnn Hsane].
  do 10 (try destruct p as [|p]); cbn in Hh, Hl; math_instr He.
  - apply negb_true_iff, Z.ltb_ge in Hb. unfold count, b2z. cbn. lia.
  - unfold count, b2z. cbn. lia.
  - split_and!; [lia..| |done]. split; [|by subst]. exact (waited_counter m t _ Hinv Ht eq_refl ltac:(done)).
  - apply negb_true_iff, Z.ltb_ge in Hb. assert (ix = NADDERS) as -> by lia. naive_solver.
  - unfold add_stat in Hf. cbn in Hf. destruct (zget _ ix) as [x|] eqn:Hx; [|done]. cbn in Hf.
    destruct Hl as (Hix & Hpr & Hsm). pose proof (total_part m ix Hinv) as Hb.
    pose proof (total_part m (ix + 1) Hinv) as Hb'.
    rewrite (total_next ix _ x) in Hb' by (done || lia). subst sm. rewrite u32_id in Hf by width.
    injection Hf as <- <-. math_move_goal. split_and!; [lia..|done|]. by rewrite (total_next ix _ x) by (done || lia).
  - unfold print_stat in Hf. cbn in Hf. destruct (zget _ ix) as [x|] eqn:Hx; [|done].
    injection Hf as <- <-. destruct Hl as (Hix & [Hsh Hst] & Hsm). cbn in Hst. math_move_goal.
    split_and!; [lia..| |done]. split; [done|]. cbn. rewrite Hst.
    replace (Z.to_nat (ix + 1)) with (S (Z.to_nat ix)) by lia. symmetry. apply take_S_r.
    unfold zget in Hx. by rewrite decide_True in Hx by lia.
Qed.

Lemma math_inv_exec t th m m' :
  math_inv m → threads m !! t = Some th → asleep th = false → exec t m = Ok m' → math_inv m'.
Proof.
  intros Hinv Ht Has He.
  pose proof (sync_ok_exec t th m m' (mi_sync m Hinv) Ht Has He) as Hsync.
  pose proof (to_prog _ _ (mi_threads m Hinv t th Ht)) as Hpr.
  destruct th as [pr p s l]. cbn in Hpr. destruct (role l) as [|n] eqn:Hr; cbn in Hpr; subst pr.
  - exact (math_inv_maths t p s l m m' Hr Hinv Ht Hsync He).
  - exact (math_inv_adder t p s n l m m' Hr Hinv Ht Hsync He).
Qed.

Lemma math_inv_mstep m m' : math_inv m → mstep m m' → math_inv m'.
Proof.
  intros Hinv Hs. destruct Hs as [t th m m' Ht Hr He]. apply andb_true_iff in Hr as [Ha%negb_true_iff _].
  exact (math_inv_exec t th m m' Hinv Ht Ha He).
Qed.

(** ** The initial state *)

Lemma maths_threads c xs t th :
  threads (maths c xs) !! t = Some th →
  ∃ r, th = Thr (prog_of r) 0 false (MathLoc r 0 0 1 0 0 0 0 []) ∧
    match r with Adder n => 0 ≤ n < NADDERS | Maths => True end.
Proof.
  cbn [maths start threads]. intros ([pr l] & -> & Hp)%list_lookup_fmap_Some_1.
  apply list_elem_of_lookup_2 in Hp. cbn [fst snd].
  apply elem_of_cons in Hp as [Hp|(n & Hp & Hn)%list_elem_of_fmap].
  - injection Hp as -> ->. by exists Maths.
  - injection Hp as -> ->. apply elem_of_seqZ in Hn. exists (Adder n). split; [done|lia].
Qed.

Lemma maths_inv c xs :
  zlen xs = NADDERS → (∀ n x, zget xs n = Some x → 0 ≤ x) → c = foldr Z.add 0 xs → c ≤ NADDS →
  math_inv (maths c xs).
Proof.
  intros Hlen Hnn Hc Hle. pose proof (math_total_nonneg NADDERS xs Hnn) as Hpos.
  rewrite <-Hlen, total_all in Hpos.
  assert (∀ P, (∀ r, P (Thr (prog_of r) 0 false (MathLoc r 0 0 1 0 0 0 0 [])) = false) →
    cnt P (threads (maths c xs)) = 0%nat) as Hz.
  { intros P HP. apply cnt_zero. intros t th (r & -> & _)%maths_threads. apply HP. }
  constructor.
  - apply sync_ok_start; repeat constructor; done.
  - done.
  - split; [by eexists| |done]. by intros t th ([] & -> & _)%maths_threads.
  - split; cbn; try done. lia.
  - rewrite Hz by (by intros []). cbn. rewrite <-Hlen, total_all. lia.
  - rewrite Hz by (by intros []).
    assert (sum_list_with waited (threads (maths c xs)) ≤ 0 * cnt (λ _, true) (threads (maths c xs)))%nat as Hw.
    { apply sum_cnt_le. by intros t th ([] & -> & _)%maths_threads. }
    cbn [count maths start sems]. cbn. cbn in Hw. lia.
  - cbn. unfold math_roles. f_equal. by rewrite !map_map.
  - by intros t th ([] & -> & ?)%maths_threads.
Qed.

(** ** Progress and termination *)

Lemma math_count_bound m : math_inv m → count m ≤ NADDERS.
Proof.
  intros Hinv. pose proof (mi_done m Hinv). pose proof (adders_count m Hinv).
  assert (cnt signalled (threads m) ≤ cnt is_adder (threads m))%nat; [|lia].
  apply cnt_mono. by intros y [? _]%andb_true_iff.
Qed.

Lemma check_sane_ok g l : ∃ g' l', check_sane g l = Ok (g', l').
Proof. unfold check_sane. destruct (_ =? _); eauto. Qed.

(** A thread that is not finished can execute its instruction. *)
Lemma math_exec_total m t th :
  math_inv m → threads m !! t = Some th → finished th = false → ∃ m', exec t m = Ok m'.
Proof.
  intros Hinv Ht Hf. pose proof (math_holding m t _ Hinv Ht) as Hh.
  destruct (lookup_lt_is_Some_2 (sems m) finished_sem) as [sem Hs].
  { rewrite (mi_sems m Hinv). unfold finished_sem. lia. }
  destruct (gu_lock _ _ m (mi_guard m Hinv)) as [lk Hlk]. rewrite (holder_lookup _ _ _ Hlk) in Hh.
  pose proof (math_count_bound m Hinv) as Hc. unfold count in Hc. rewrite Hs in Hc.
  pose proof (sem_count_range m _ _ (mi_sync m Hinv) Hs). destruct (mi_glob m Hinv) as [_ Hlen _ _].
  destruct (mi_threads m Hinv t th Ht) as [Hpr Hl].
  destruct th as [pr p s [r a b fl tmp ix sm sh st]]. cbn in Hpr, Hl. subst pr.
  assert (∀ n, 0 ≤ n < NADDERS → ∃ x, zget (adder_counters (glob m)) n = Some x) as Hz.
  { intros n Hn. apply zget_range. lia. }
  destruct r as [|n]; do 14 (try destruct p as [|p]); try done; cbn in Hl, Hh;
    first
    [ by eapply exec_P_ok; [exact Ht|done|]
    | eapply exec_V_ok; [exact Ht|done|exact Hs|width]
    | by eapply exec_If_ok; [exact Ht|done]
    | by eapply exec_Acq_ok; [exact Ht|done|done|]
    | by eapply exec_Rel_ok; [exact Ht|done|done|]
    | by eapply exec_Do_ok; [exact Ht|done|done]
    | destruct (Hz ix ltac:(lia)) as [x Hx]; eapply exec_Do_ok;
      [exact Ht|done|cbn; unfold add_stat, print_stat; cbn; by rewrite Hx]
    | destruct (Hz n ltac:(lia)) as [x Hx]; eapply exec_Do_ok;
      [exact Ht|done|cbn; unfold load_stat; cbn; by rewrite Hx]
    | eapply exec_Do_ok; [exact Ht|done|cbn; unfold store_stat; cbn; unfold zput];
      rewrite decide_True by lia; done
    | destruct (check_sane_ok (glob m) (MathLoc (Adder n) a b fl tmp ix sm sh st)) as (g & l & E);
      exact (exec_Do_ok _ _ _ _ g l Ht eq_refl E) ].
Qed.

(** An upper bound on the instructions a thread still executes; a turn of the
    loop of [adder] that adds is paid for by [credit]. *)
Definition work th : nat :=
  match role (loc th) with
  | Adder _ =>
      if ((5 <=? pc th) && (pc th <=? 12) && negb (pc th =? 10)) && (flag (loc th) =? 1)%Z then 30 - pc th else 14 - pc th
  | Maths =>
      let n := Z.to_nat NADDERS in let i := Z.to_nat (index (loc th)) in
      match pc th with
      | 0 => n * 10 + 20
      | 1 => (n - i) * 5 + n * 5 + 15
      | 2 => (n - i) * 5 + n * 5 + 14
      | 3 => (n - i) * 5 + n * 5 + 13
      | 4 => (n - i) * 5 + n * 5 + 16
      | 5 => n * 5 + 10
      | 6 => (n - i) * 5 + 5
      | 7 => (n - i) * 5 + 4
      | 8 => (n - i) * 5 + 3
      | 9 => (n - i) * 5 + 6
      | _ => 0
      end
  end%nat.

Definition credit g : nat := 16 * Z.to_nat (NADDS - counter g).

Abbreviation math_measure := (measure work credit).

Ltac work_step :=
  match goal with
  | Ht : threads ?m !! ?t = Some ?th |- (math_measure ?m' < math_measure ?m)%nat =>
      lazymatch m' with
      | Machine _ _ _ _ (update ?f _ _) =>
          apply (measure_work work credit (λ _ _, eq_refl) m m' f None t th Ht eq_refl eq_refl eq_refl)
      | Machine _ _ _ _ (wake resume ?w (update ?f _ _)) =>
          apply (measure_work work credit (λ _ _, eq_refl) m m' f w t th Ht eq_refl eq_refl eq_refl)
      end
  end; unfold credit; cbn -[Nat.mul Nat.add Nat.sub Z.to_nat Z.sub Z.add u32]; try lia.

Ltac work_instr He :=
  first
  [ eapply exec_P in He; [|done|done]; destruct He as (sem & Hs & [[Hc ->]|[Hc ->]]);
    [ by eapply (measure_sleep work credit) | work_step ]
  | eapply exec_V in He; [|done|done]; destruct He as (sem & Hs & Hu & ->); work_step
  | eapply exec_Acq in He; [|done|done]; destruct He as (lk & Hlk & Hhl & [[Hs ->]|[Hs ->]]);
    [ by eapply (measure_sleep work credit) | work_step ]
  | eapply exec_Rel in He; [|done|done]; destruct He as (lk & Hlk & Hhl & ->); work_step
  | eapply exec_Do in He; [|done|done]; destruct He as (g' & x' & Hf & ->); cbn in Hf;
    try (injection Hf as <- <-; work_step)
  | eapply exec_If in He; [|done|done]; rewrite He; clear He; cbn;
    try match goal with |- context [if ?b then _ else _] => destruct b eqn:Hb end; work_step
  | exfalso; eapply exec_finished in He; done ].

Lemma math_measure_exec m m' t th :
  math_inv m → threads m !! t = Some th → asleep th = false → exec t m = Ok m' →
  (math_measure m' < math_measure m)%nat.
Proof.
  intros Hinv Ht Ha He. destruct (mi_threads m Hinv t _ Ht) as [Hpr Hloc].
  destruct (mi_glob m Hinv) as [Hcnt _ _ _].
  destruct th as [pr p s [r a b fl tmp ix sm sh st]]. cbn in Hpr, Ha, Hloc. subst pr s.
  destruct r as [|n]; do 14 (try destruct p as [|p]); cbn in Hloc; work_instr He;
    try (destruct (Z.eqb_spec fl 1); lia).
  - unfold add_stat in Hf. cbn in Hf. destruct (zget _ _); [|done]. injection Hf as <- <-. work_step.
  - unfold print_stat in Hf. cbn in Hf. destruct (zget _ _); [|done]. injection Hf as <- <-. work_step.
  - rewrite u32_id by width. destruct (fl =? 1); lia.
  - unfold load_stat in Hf. cbn in Hf. destruct (zget _ _); [|done]. injection Hf as <- <-. work_step.
    destruct (fl =? 1); lia.
  - unfold store_stat in Hf. cbn in Hf. destruct (zput _ _ _); try done. injection Hf as <- <-. work_step.
    destruct (fl =? 1); lia.
  - unfold check_sane in Hf. cbn in Hf. destruct (_ =? _); injection Hf as <- <-; work_step;
      destruct (fl =? 1); lia.
Qed.

(** ** The end *)

(** The thread of [maths] is the first one. *)
Lemma maths_thread m :
  math_inv m → ∃ th ths, threads m = th :: ths ∧ role (loc th) = Maths ∧
    Forall (λ th, is_adder th = true) ths ∧ sum_list_with waited ths = 0%nat.
Proof.
  intros Hinv. pose proof (mi_roles m Hinv) as Hr. unfold math_roles in Hr.
  destruct (threads m) as [|th ths]; [done|]. injection Hr as Hr Hrs. exists th, ths.
  assert (Forall (λ th, is_adder th = true) ths) as Ha.
  { apply Forall_lookup. intros i x Hx. unfold is_adder.
    assert (map (λ th, role (loc th)) ths !! i = Some (role (loc x))) as E
      by (rewrite list_lookup_fmap, Hx; done).
    rewrite Hrs in E. by apply list_lookup_fmap_Some_1 in E as (n & -> & _). }
  split_and!; [done..|]. clear Hr Hrs. induction Ha as [|x ths Hx _ IH]; [done|].
  cbn. rewrite IH. unfold waited, is_adder in *. by destruct (role (loc x)).
Qed.

(** Where a blocked thread stands. *)
Lemma math_blocked_at m t th :
  math_inv m → (∀ t th, threads m !! t = Some th → ready th = false) →
  threads m !! t = Some th → finished th = false →
  (is_adder th = true ∧ pc th = 0%nat ∧ is_Some (holder lock_ m)) ∨
  (role (loc th) = Maths ∧ pc th = 2%nat ∧ count m = 0).
Proof.
  intros Hinv Hstuck Ht Hf. destruct (mi_threads m Hinv t th Ht) as [Hpr _].
  destruct (stuck_shape m t th (mi_sync m Hinv) Hstuck Ht Hf)
    as [(s & sem & Hi & Hs & Hc)|[(l & lk & h & Hi & Hl & Hh)|(? & ? & Hi)]];
    destruct th as [pr p b [r a b' fl tmp ix sm sh st]]; cbn in Hpr; subst pr; cbn in Hi;
    destruct r as [|n]; do 14 (try destruct p as [|p]); try done; injection Hi as <-.
  - right. unfold count. cbn in Hs. by rewrite Hs.
  - left. split_and!; [done..|]. rewrite (holder_lookup _ _ _ Hl), Hh. eauto.
Qed.

Lemma stuck_adder m t th :
  math_inv m → (∀ t th, threads m !! t = Some th → ready th = false) →
  threads m !! t = Some th → is_adder th = true → finished th = true.
Proof.
  intros Hinv Hstuck Ht Ha. destruct (finished th) eqn:Hf; [done|exfalso].
  destruct (math_blocked_at m t th Hinv Hstuck Ht Hf) as [(_ & _ & [h Hh])|(Hr & _)];
    [|by unfold is_adder in Ha; rewrite Hr in Ha].
  destruct (guarded_holder _ _ m h (mi_guard m Hinv) Hh) as (th' & Ht' & Hc).
  destruct (finished th') eqn:Hf'.
  - destruct (mi_threads m Hinv h th' Ht') as [Hpr _].
    destruct th' as [pr p b [r a b' fl tmp ix sm sh st]]. cbn in Hpr. subst pr. destruct r; [done|].
    do 14 (try destruct p as [|p]); done.
  - unfold critical, is_adder in *.
    destruct (math_blocked_at m h th' Hinv Hstuck Ht' Hf') as [(_ & Hp & _)|(Hr & _)].
    + by rewrite Hp, andb_false_r in Hc.
    + by rewrite Hr in Hc.
Qed.

Lemma finished_signalled m t th :
  math_inv m → threads m !! t = Some th → is_adder th = true → finished th = true → signalled th = true.
Proof.
  intros Hinv Ht Ha Hf. destruct (mi_threads m Hinv t th Ht) as [Hpr _].
  destruct th as [pr p b [r a b' fl tmp ix sm sh st]]. cbn in Hpr. subst pr. destruct r; [done|].
  do 14 (try destruct p as [|p]); done.
Qed.

Lemma math_stuck_finished m t th :
  math_inv m → (∀ t th, threads m !! t = Some th → ready th = false) →
  threads m !! t = Some th → finished th = true.
Proof.
  intros Hinv Hstuck Ht. destruct (is_adder th) eqn:Ha; [by eapply stuck_adder|].
  destruct (finished th) eqn:Hf; [done|exfalso].
  destruct (math_blocked_at m t th Hinv Hstuck Ht Hf) as [(Ha' & _)|(Hr & Hp & Hc)]; [congruence|].
  assert (cnt is_adder (threads m) ≤ cnt signalled (threads m))%nat as Hle.
  { apply cnt_mono_in. intros t' th' Ht' Ha'. apply (finished_signalled m t'); try done.
    by apply (stuck_adder m t'). }
  pose proof (adders_count m Hinv) as Hn. pose proof (mi_done m Hinv) as Hd.
  destruct (mi_threads m Hinv t th Ht) as [_ Hl]. rewrite Hr, Hp in Hl. destruct Hl as [Hix _].
  destruct (maths_thread m Hinv) as (th0 & ths & E & _ & Hall & Hz).
  rewrite E in Ht. destruct t as [|t].
  - injection Ht as ->. rewrite E in Hd at 1. cbn in Hd. rewrite Hz in Hd. unfold waited in Hd.
    rewrite Hr, Hp in Hd. lia.
  - rewrite Forall_lookup in Hall. by rewrite (Hall t th Ht) in Ha.
Qed.

(** A thread that has finished is in none of the sections of the code. *)
Lemma finished_quiet m t th :
  math_inv m → threads m !! t = Some th → finished th = true → critical th = false ∧ pending th = false.
Proof.
  intros Hinv Ht Hf. unfold critical, pending. destruct (is_adder th) eqn:Ha; [|done].
  pose proof (finished_signalled m t th Hinv Ht Ha Hf) as Hs. unfold signalled in Hs. rewrite Ha in Hs.
  apply Nat.leb_le in Hs. cbn [andb]. split; apply andb_false_iff; right; apply Nat.leb_gt; lia.
Qed.

Lemma finished_cleanup m :
  math_inv m → (∀ t th, threads m !! t = Some th → finished th = true) → maths_cleanup m = Ok tt.
Proof.
  intros Hinv Hfin. unfold maths_cleanup.
  destruct (lookup_lt_is_Some_2 (sems m) finished_sem) as [sem Hs].
  { rewrite (mi_sems m Hinv). unfold finished_sem. lia. }
  destruct (gu_lock _ _ m (mi_guard m Hinv)) as [lk Hlk]. rewrite Hs, Hlk. cbn.
  rewrite (finished_sem_destroy m _ _ (mi_sync m Hinv) Hfin Hs). cbn.
  apply (finished_lock_destroy m lock_ lk (mi_sync m Hinv) Hfin Hlk).
  rewrite <-(holder_lookup _ _ _ Hlk). destruct (holder lock_ m) as [h|] eqn:Hh; [exfalso|done].
  destruct (guarded_holder _ _ m h (mi_guard m Hinv) Hh) as (th & Ht & Hc).
  by rewrite (proj1 (finished_quiet m h th Hinv Ht (Hfin h th Ht))) in Hc.
Qed.

Lemma finished_results m :
  math_inv m → (∀ t th, threads m !! t = Some th → finished th = true) →
  counter (glob m) = NADDS ∧ foldr Z.add 0 (adder_counters (glob m)) = NADDS ∧ complaints (glob m) = [] ∧
  ∃ th, threads m !! 0%nat = Some th ∧ shown (loc th) = NADDS ∧ sum (loc th) = NADDS ∧
    stats (loc th) = adder_counters (glob m).
Proof.
  intros Hinv Hfin. destruct (maths_thread m Hinv) as (th & ths & E & Hr & _ & _).
  assert (threads m !! 0%nat = Some th) as Ht by by rewrite E.
  destruct (mi_threads m Hinv _ th Ht) as [Hpr Hl]. rewrite Hr in Hpr, Hl.
  assert (10 ≤ pc th)%nat as Hp.
  { specialize (Hfin _ _ Ht). destruct th as [pr p s l]. cbn in *. subst pr.
    do 10 (try destruct p as [|p]); done || lia. }
  pose proof (waited_counter m _ th Hinv Ht Hr ltac:(lia)) as Hc.
  destruct (mi_glob m Hinv) as [_ Hlen _ Hsane].
  assert (foldr Z.add 0 (adder_counters (glob m)) = NADDS) as Hsum.
  { rewrite <-total_all, Hlen, <-Hc, <-(mi_sum m Hinv), (proj2 (cnt_zero pending _)); [lia|].
    intros t' th' Ht'. exact (proj2 (finished_quiet m t' th' Hinv Ht' (Hfin t' th' Ht'))). }
  assert (index (loc th) = NADDERS ∧ printed (glob m) (loc th) ∧
    sum (loc th) = total NADDERS (adder_counters (glob m))) as (Hix & [Hsh Hst] & Hsm).
  { revert Hl Hp. generalize (pc th). intros p Hl Hp. do 10 (try destruct p as [|p]); done || lia. }
  split_and!; [done..|]. exists th. split_and!; [done..| |].
  - by rewrite Hsm, <-Hlen, total_all.
  - rewrite Hst, Hix, <-Hlen. unfold zlen. by rewrite Nat2Z.id, firstn_all.
Qed.

End maths.

(** ** Properties *)

(** The initial states: at boot the counters are zero, after an earlier run of the
    command they hold what that run left; they add up and do not exceed NADDS. *)
Definition maths_init (NADDERS NADDS : Z) (m : machine math_glob math_loc) : Prop :=
  ∃ xs, zlen xs = NADDERS ∧ (∀ n x, zget xs n = Some x → 0 ≤ x) ∧ foldr Z.add 0 xs ≤ NADDS ∧
    m = maths NADDERS NADDS (foldr Z.add 0 xs) xs.

Lemma math_inv_reachable NADDERS NADDS m :
  0 < NADDERS < two31 → 0 ≤ NADDS < two32 → reachable (maths_init NADDERS NADDS) mstep m →
  math_inv NADDERS NADDS m.
Proof.
  intros Hn Ha. apply reachable_invariant.
  - intros s (xs & Hlen & Hnn & Hle & ->). by apply maths_inv.
  - intros s s'. by apply math_inv_mstep.
Qed.

(** C21: the adders count correctly.  Under every schedule each thread that is ready
    can execute its next instruction (no assertion fails, no access leaves the
    array) and the program ends after finitely many steps.  When it has ended, all
    threads have finished, the counter is exactly NADDS, the adders' own counters
    add up to it, no adder has complained that x + 1 is not x + 1, [maths] has
    printed these values, and the semaphore and the lock can be destroyed. *)
Theorem maths_correct NADDERS NADDS m (Hn : 0 < NADDERS < two31) (Ha : 0 ≤ NADDS < two32)
  (Hr : reachable (maths_init NADDERS NADDS) mstep m) :
  (∀ t th, threads m !! t = Some th → ready th = true → ∃ m', exec t m = Ok m') ∧
  Acc (λ m2 m1, mstep m1 m2) m ∧
  ((∀ t th, threads m !! t = Some th → ready th = false) →
   (∀ t th, threads m !! t = Some th → finished th = true) ∧
   (counter (glob m) = NADDS ∧ foldr Z.add 0 (adder_counters (glob m)) = NADDS ∧ complaints (glob m) = [] ∧
    ∃ th, threads m !! 0%nat = Some th ∧ shown (loc th) = NADDS ∧ sum (loc th) = NADDS ∧
      stats (loc th) = adder_counters (glob m)) ∧
   maths_cleanup m = Ok tt).
Proof.
  pose proof (math_inv_reachable _ _ _ Hn Ha Hr) as Hinv. split_and!.
  - intros t th Ht [_ Hrd]%andb_true_iff. apply (math_exec_total NADDERS NADDS) with th; try done.
    apply bool_decide_eq_true in Hrd as [x Hx]. unfold finished. by rewrite Hx.
  - apply (measure_acc (work NADDERS) (credit NADDS) (math_inv NADDERS NADDS)); [| |done].
    + intros s s'. by apply math_inv_mstep.
    + intros s s' t th. by apply math_measure_exec.
  - intros Hstuck. assert (∀ t th, threads m !! t = Some th → finished th = true) as Hfin.
    { intros t th. by apply (math_stuck_finished NADDERS NADDS). }
    split; [done|]. split.
    + by apply (finished_results NADDERS NADDS).
    + by apply (finished_cleanup NADDERS NADDS).
Qed.

(** *** Concrete runs *)

(** Two adders and three additions, to the end. *)
Definition maths_demo : machine math_glob math_loc := run_sched 200 (maths 2 3 0 [0; 0]).

Lemma maths_demo_reachable : reachable (maths_init 2 3) mstep maths_demo.
Proof.
  apply run_sched_reachable, reach_init. exists [0; 0]. split_and!; [done| |done..].
  intros n x Hx. unfold zget in Hx. case_decide; [|done].
  destruct (Z.to_nat n) as [|[|k]]; simplify_eq/=; done || (rewrite lookup_nil in Hx; done).
Qed.

Lemma maths_demo_stuck t th : threads maths_demo !! t = Some th → ready th = false.
Proof. apply no_ready_stuck. vm_compute. reflexivity. Qed.

Lemma maths_correct_witness :
  counter (glob maths_demo) = 3 ∧ foldr Z.add 0 (adder_counters (glob maths_demo)) = 3 ∧
  maths_cleanup maths_demo = Ok tt.
Proof.
  destruct (maths_correct 2 3 maths_demo ltac:(done) ltac:(done) maths_demo_reachable) as (_ & _ & H).
  destruct (H maths_demo_stuck) as (_ & (H1 & H2 & _) & H3). exact (conj H1 (conj H2 H3)).
Defined.
