(* ===== verification/TwoLocks.v ===== *)
(** * Two threads and two locks

    twolocks.c of assignment 1 as programs of the machine of Synch.v: [bill] and
    [ben] take the locks a and b NUM_LOOPS times, both in the order a, b, and
    [twolocks] waits for them.  The theorem: no schedule ends in a deadlock. *)

From stdpp Require Import base list.
From Stdlib Require Import ZArith Lia.
From S2P Require Import Prelude Synch.
Open Scope Z_scope.

#[local] Arguments cnt {A} P l : simpl never.

Inductive frenzy := Twolocks | Bill | Ben.

Record tl_loc := TlLoc { who : frenzy; i : Z }.

Definition with_i (x : Z) (l : tl_loc) : tl_loc := TlLoc (who l) x.

(** The only shared data are the locks and the semaphore. *)
Definition tl_code : Type := list (instr unit tl_loc).

Definition locka : nat := 0.
Definition lockb : nat := 1.
Definition all_finished : nat := 0.

Section twolocks.

(** The #define NUM_LOOPS. *)
Context (NUM_LOOPS : Z).

Definition bill : tl_code :=
  [ IDo (λ g l, Ok (g, with_i 0 l));
    IIf (λ l, negb (i l <? NUM_LOOPS)) 8;
    IAcq locka;
    IAcq lockb;
    IRel lockb;
    IRel locka;
    IDo (λ g l, Ok (g, with_i (i l + 1) l));
    IIf (λ _, true) 1;
    IV (λ _, all_finished) ].

Definition ben : tl_code :=
  [ IDo (λ g l, Ok (g, with_i 0 l));
    IIf (λ l, negb (i l <? NUM_LOOPS)) 8;
    IAcq locka;
    IAcq lockb;
    IRel lockb;
    IRel locka;
    IDo (λ g l, Ok (g, with_i (i l + 1) l));
    IIf (λ _, true) 1;
    IV (λ _, all_finished) ].

(** [twolocks], once it has started the threads. *)
Definition twolocks_wait : tl_code := [ IP (λ _, all_finished); IP (λ _, all_finished) ].

Definition prog_of (w : frenzy) : tl_code :=
  match w with Twolocks => twolocks_wait | Bill => bill | Ben => ben end.

(** [twolocks] up to its first [P]; a thread that is forked later is one that is
    not scheduled before.  The local [i] holds anything. *)
Definition twolocks (i1 i2 : Z) : machine unit tl_loc :=
  start tt [sem_create 0] [lock_create; lock_create] []
    [ (twolocks_wait, TlLoc Twolocks 0); (bill, TlLoc Bill i1); (ben, TlLoc Ben i2) ].

(** ** Invariant *)

#[local] Abbreviation thread := (thr unit tl_loc).
Implicit Types (th : thread) (m : machine unit tl_loc).

Definition is_worker th : bool := match who (loc th) with Twolocks => false | _ => true end.

Definition has_a th : bool := is_worker th && ((3 <=? pc th) && (pc th <=? 5))%nat.
Definition has_b th : bool := is_worker th && (pc th =? 4)%nat.
Definition signalled th : bool := is_worker th && (9 <=? pc th)%nat.
Definition waited th : nat := if is_worker th then 0 else pc th.

Record thread_ok th : Prop := {
  to_prog : prog th = prog_of (who (loc th));
  to_waited : (waited th ≤ 2)%nat;
  to_i : is_worker th = true → (1 ≤ pc th)%nat →
    0 ≤ i (loc th) ∧ ((2 ≤ pc th ≤ 6)%nat → i (loc th) < NUM_LOOPS)
}.

Definition count m : Z := match sems m !! all_finished with Some sem => sem_count sem | None => 0 end.

Record tl_inv m : Prop := {
  ti_sync : sync_ok m;
  ti_sems : length (sems m) = 1%nat;
  ti_a : guarded locka has_a m;
  ti_b : guarded lockb has_b m;
  ti_done : count m + Z.of_nat (sum_list_with waited (threads m)) = Z.of_nat (cnt signalled (threads m));
  ti_who : map (λ th, who (loc th)) (threads m) = [Twolocks; Bill; Ben];
  ti_threads t th : threads m !! t = Some th → thread_ok th
}.


Lemma tl_inv_move m m' f target t th :
  tl_inv m → sync_ok m' → threads m !! t = Some th →
  threads m' = wake resume target (update f t (threads m)) →
  length (sems m') = 1%nat → length (locks m') = length (locks m) →
  (has_a (f th) = true → has_a th = true ∨ holder locka m = None) →
  holder locka m' = (if has_a (f th) then Some t else if has_a th then None else holder locka m) →
  (has_b (f th) = true → has_b th = true ∨ holder lockb m = None) →
  holder lockb m' = (if has_b (f th) then Some t else if has_b th then None else holder lockb m) →
  count m' + Z.of_nat (waited (f th)) - b2z (signalled (f th))
    = count m + Z.of_nat (waited th) - b2z (signalled th) →
  who (loc (f th)) = who (loc th) → thread_ok (f th) → tl_inv m'.
Proof.
  intros Hinv Hsync Ht Hths Hs Hl Hia Ha Hib Hb Hcnt Hw Hok. constructor; try done; rewrite ?Hths.
  - exact (guarded_move locka has_a m m' f target t th ltac:(done) (ti_a m Hinv) Ht Hths Hl Hia Ha).
  - exact (guarded_move lockb has_b m m' f target t th ltac:(done) (ti_b m Hinv) Ht Hths Hl Hib Hb).
  - pose proof (cnt_step signalled f target t th (threads m) ltac:(done) Ht).
    pose proof (sum_step waited f target t th (threads m) ltac:(done) Ht).
    pose proof (ti_done m Hinv). rewrite ?b2z_nat in *. lia.
  - rewrite <-(ti_who m Hinv). by apply (map_step (λ th, who (loc th)) f target t th).
  - intros t' th' Ht'.
    destruct (lookup_step _ _ _ _ _ _ _ Ht Ht') as (th0 & E1 & E2 & E3 & Hth0).
    assert (thread_ok th0) as Hok0 by (case_decide; [by subst|by eapply ti_threads]).
    destruct th', th0. cbn in *. subst. by destruct Hok0.
Qed.

Lemma tl_count_nonneg m : tl_inv m → 0 ≤ count m.
Proof.
  intros Hinv. unfold count. destruct (sems m !! all_finished) as [sem|] eqn:E; [|done].
  by destruct (sem_count_range m _ _ (ti_sync m Hinv) E).
Qed.

Lemma workers_count m : tl_inv m → cnt is_worker (threads m) = 2%nat.
Proof.
  intros Hinv. pose proof (ti_who m Hinv) as Hw.
  destruct (threads m) as [|t0 [|t1 [|t2 [|]]]]; try done. injection Hw as E0 E1 E2.
  rewrite !cnt_cons, cnt_nil. unfold is_worker. by rewrite E0, E1, E2.
Qed.

Lemma tl_count_bound m : tl_inv m → count m ≤ 2.
Proof.
  intros Hinv. pose proof (ti_done m Hinv). pose proof (workers_count m Hinv).
  assert (cnt signalled (threads m) ≤ cnt is_worker (threads m))%nat; [|lia].
  apply cnt_mono. by intros y [? _]%andb_true_iff.
Qed.

Lemma tl_count_insert m sem g ls cs ths :
  tl_inv m → count (Machine g (<[all_finished := sem]> (sems m)) ls cs ths) = sem_count sem.
Proof.
  intros Hinv. unfold count. simpl. rewrite list_lookup_insert_eq; [done|].
  rewrite (ti_sems m Hinv). unfold all_finished. lia.
Qed.

Lemma tl_holding m t th :
  tl_inv m → threads m !! t = Some th →
  (if has_a th then holder locka m = Some t else holder locka m ≠ Some t) ∧
  (if has_b th then holder lockb m = Some t else holder lockb m ≠ Some t).
Proof.
  intros Hinv Ht. rewrite (gu_crit _ _ m (ti_a m Hinv) t th Ht), (gu_crit _ _ m (ti_b m Hinv) t th Ht).
  by repeat case_bool_decide.
Qed.

(** Closes the side conditions of [tl_inv_move] at a concrete instruction. *)
Ltac settle :=
  cbn;
  repeat first
  [ rewrite tl_count_insert by done
  | rewrite holder_insert by (eapply gu_lock, ti_a; done)
  | rewrite holder_insert by (eapply gu_lock, ti_b; done)
  | rewrite holder_insert_ne by done ];
  cbn; try done; try lia; try (unfold b2z; cbn; lia); try (intros _; right; congruence); try congruence;
  try (unfold count, b2z; cbn; lia).

Ltac settle_thread :=
  constructor; cbn; [done|unfold waited; cbn; lia|intros; try lia; split; intros; lia].

Ltac tl_move f target :=
  match goal with
  | Hinv : tl_inv ?m, Hsync : sync_ok ?m', Ht : threads ?m !! ?t = Some ?th |- tl_inv ?m' =>
      apply (tl_inv_move m m' f target t th Hinv Hsync Ht);
      [ done
      | cbn; rewrite ?length_insert; apply (ti_sems m Hinv)
      | cbn; rewrite ?length_insert; done
      | settle | settle | settle | settle | settle | done | try settle_thread ]
  end.

Ltac tl_move_goal :=
  match goal with |- tl_inv (Machine _ _ _ _ (update ?f _ _)) => tl_move f (@None nat) end.

(** The next instruction, by its kind. *)
Ltac tl_instr He :=
  first
  [ eapply exec_P in He; [|done|done]; destruct He as (sem & Hs & [[Hc ->]|[Hc ->]]);
    assert (count _ = sem_count sem) as Hct by (unfold count; cbn in Hs; by rewrite Hs);
    [tl_move (@sleep unit tl_loc) (@None nat)|tl_move (@next unit tl_loc) (@None nat)]
  | eapply exec_V in He; [|done|done]; destruct He as (sem & Hs & Hu & ->);
    assert (count _ = sem_count sem) as Hct by (unfold count; cbn in Hs; by rewrite Hs);
    rewrite u32_id in * by width;
    tl_move (@next unit tl_loc) (wchan_wakeone (sem_wchan sem)).2
  | eapply exec_Acq in He; [|done|done]; destruct He as (lk & Hlk & Hhl & [[Hs ->]|[Hs ->]]);
    pose proof (holder_lookup _ _ _ Hlk) as Hho;
    [tl_move (@sleep unit tl_loc) (@None nat)|tl_move (@next unit tl_loc) (@None nat)]
  | eapply exec_Rel in He; [|done|done]; destruct He as (lk & Hlk & Hhl & ->);
    tl_move (@next unit tl_loc) (wchan_wakeone (lk_wchan lk)).2
  | eapply exec_Do in He; [|done|done]; let Hf := fresh "Hf" in destruct He as (g' & x' & Hf & ->); cbn in Hf;
    injection Hf as <- <-; tl_move_goal
  | eapply exec_If in He; [|done|done]; rewrite He in *; clear He; cbn in *;
    try match goal with H : sync_ok (Machine _ _ _ _ (update (if ?b then _ else _) _ _)) |- _ =>
      destruct b eqn:Hb end;
    tl_move_goal
  | exfalso; eapply exec_finished in He; done ].

Lemma tl_inv_exec t th m m' :
  tl_inv m → threads m !! t = Some th → asleep th = false → exec t m = Ok m' → tl_inv m'.
Proof.
  intros Hinv Ht Has He.
  pose proof (sync_ok_exec t th m m' (ti_sync m Hinv) Ht Has He) as Hsync.
  destruct (tl_holding m t _ Hinv Ht) as [Hha Hhb]. pose proof (tl_count_bound m Hinv). pose proof (tl_count_nonneg m Hinv).
  destruct (ti_threads m Hinv t th Ht) as [Hpr Hw Hi].
  destruct th as [pr p s [w ix]]. cbn in Hpr, Hw. subst pr.
  destruct w; do 9 (try destruct p as [|p]); cbn in Hha, Hhb, Hi; try specialize (Hi eq_refl ltac:(lia)); tl_instr He.
Qed.

Lemma tl_inv_mstep m m' : tl_inv m → mstep m m' → tl_inv m'.
Proof.
  intros Hinv Hs. destruct Hs as [t th m m' Ht Hr He]. apply andb_true_iff in Hr as [Ha%negb_true_iff _].
  exact (tl_inv_exec t th m m' Hinv Ht Ha He).
Qed.

Lemma twolocks_inv i1 i2 : tl_inv (twolocks i1 i2).
Proof.
  constructor; try done.
  - apply sync_ok_start; repeat constructor; done.
  - split; [by eexists| |done]. by intros [|[|[|t]]] th [= <-].
  - split; [by eexists| |done]. by intros [|[|[|t]]] th [= <-].
  - intros [|[|[|t]]] th [= <-]; constructor; cbn; try done; unfold waited; cbn; lia.
Qed.

(** ** Progress and termination *)

Lemma tl_exec_total m t th :
  tl_inv m → threads m !! t = Some th → finished th = false → ∃ m', exec t m = Ok m'.
Proof.
  intros Hinv Ht Hf. destruct (tl_holding m t _ Hinv Ht) as [Hha Hhb].
  destruct (lookup_lt_is_Some_2 (sems m) all_finished) as [sem Hs].
  { rewrite (ti_sems m Hinv). unfold all_finished. lia. }
  destruct (gu_lock _ _ m (ti_a m Hinv)) as [la Ha]. rewrite (holder_lookup _ _ _ Ha) in Hha.
  destruct (gu_lock _ _ m (ti_b m Hinv)) as [lb Hb]. rewrite (holder_lookup _ _ _ Hb) in Hhb.
  pose proof (tl_count_bound m Hinv) as Hc. unfold count in Hc. rewrite Hs in Hc.
  pose proof (sem_count_range m _ _ (ti_sync m Hinv) Hs).
  pose proof (to_prog _ (ti_threads m Hinv t th Ht)) as Hpr.
  destruct th as [pr p s [w ix]]. cbn in Hpr. subst pr.
  destruct w; do 9 (try destruct p as [|p]); try done; cbn in Hha, Hhb;
    first
    [ by eapply exec_P_ok; [exact Ht|done|]
    | eapply exec_V_ok; [exact Ht|done|exact Hs|width]
    | by eapply exec_If_ok; [exact Ht|done]
    | by eapply exec_Acq_ok; [exact Ht|done|done|]
    | by eapply exec_Rel_ok; [exact Ht|done|done|]
    | by eapply exec_Do_ok; [exact Ht|done|done] ].
Qed.

(** An upper bound on the instructions a thread still executes. *)
Definition work th : nat :=
  match who (loc th) with
  | Twolocks => 2 - pc th
  | _ =>
      let r := Z.to_nat (NUM_LOOPS - i (loc th)) in
      match pc th with
      | 0 => Z.to_nat NUM_LOOPS * 10 + 20
      | 1 => r * 10 + 9
      | 2 | 3 | 4 | 5 | 6 => r * 10 + (10 - pc th)
      | 7 => r * 10 + 10
      | _ => 9 - pc th
      end
  end%nat.

Abbreviation tl_measure := (measure work (λ _ : unit, 0%nat)).

Ltac work_step :=
  match goal with
  | Ht : threads ?m !! ?t = Some ?th |- (tl_measure ?m' < tl_measure ?m)%nat =>
      lazymatch m' with
      | Machine _ _ _ _ (update ?f _ _) =>
          apply (measure_work work _ (λ _ _, eq_refl) m m' f None t th Ht eq_refl eq_refl eq_refl)
      | Machine _ _ _ _ (wake resume ?w (update ?f _ _)) =>
          apply (measure_work work _ (λ _ _, eq_refl) m m' f w t th Ht eq_refl eq_refl eq_refl)
      end
  end; cbn -[Nat.mul Nat.add Nat.sub Z.to_nat Z.sub Z.add]; lia.

Ltac work_instr He :=
  first
  [ eapply exec_P in He; [|done|done]; destruct He as (sem & Hs & [[Hc ->]|[Hc ->]]);
    [ by eapply (measure_sleep work) | work_step ]
  | eapply exec_V in He; [|done|done]; destruct He as (sem & Hs & Hu & ->); work_step
  | eapply exec_Acq in He; [|done|done]; destruct He as (lk & Hlk & Hhl & [[Hs ->]|[Hs ->]]);
    [ by eapply (measure_sleep work) | work_step ]
  | eapply exec_Rel in He; [|done|done]; destruct He as (lk & Hlk & Hhl & ->); work_step
  | eapply exec_Do in He; [|done|done]; destruct He as (g' & x' & Hf & ->); cbn in Hf;
    injection Hf as <- <-; work_step
  | eapply exec_If in He; [|done|done]; rewrite He; clear He; cbn;
    try match goal with |- context [if ?b then _ else _] => destruct b eqn:Hb end; work_step
  | exfalso; eapply exec_finished in He; done ].

Lemma tl_measure_exec m m' t th :
  tl_inv m → threads m !! t = Some th → asleep th = false → exec t m = Ok m' →
  (tl_measure m' < tl_measure m)%nat.
Proof.
  intros Hinv Ht Ha He. destruct (ti_threads m Hinv t th Ht) as [Hpr _ Hi].
  destruct th as [pr p s [w ix]]. cbn in Hpr, Ha. subst pr s.
  destruct w; do 9 (try destruct p as [|p]); cbn in Hi; try specialize (Hi eq_refl ltac:(lia)); work_instr He.
Qed.

(** ** Deadlock *)

(** Where a blocked thread stands. *)
Lemma tl_blocked_at m t th :
  tl_inv m → (∀ t th, threads m !! t = Some th → ready th = false) →
  threads m !! t = Some th → finished th = false →
  (is_worker th = true ∧ pc th = 2%nat ∧ is_Some (holder locka m)) ∨
  (is_worker th = true ∧ pc th = 3%nat ∧ is_Some (holder lockb m)) ∨
  (is_worker th = false ∧ (waited th < 2)%nat ∧ count m = 0).
Proof.
  intros Hinv Hstuck Ht Hf. pose proof (to_prog _ (ti_threads m Hinv t th Ht)) as Hpr.
  destruct (stuck_shape m t th (ti_sync m Hinv) Hstuck Ht Hf)
    as [(s & sem & Hi & Hs & Hc)|[(l & lk & h & Hi & Hl & Hh)|(? & ? & Hi)]];
    destruct th as [pr p b [w ix]]; cbn in Hpr; subst pr; cbn in Hi;
    destruct w; do 9 (try destruct p as [|p]); try done; injection Hi as <-;
    try (right; right; unfold count, waited; cbn in Hs |- *; rewrite Hs; split_and!; [done|lia|done]);
    try (left; rewrite (holder_lookup _ _ _ Hl), Hh; by eauto);
    right; left; rewrite (holder_lookup _ _ _ Hl), Hh; by eauto.
Qed.

(** A thread that holds a lock has not finished. *)
Lemma holder_busy m t th :
  tl_inv m → threads m !! t = Some th → has_a th || has_b th = true → finished th = false.
Proof.
  intros Hinv Ht Hb. pose proof (to_prog _ (ti_threads m Hinv t th Ht)) as Hpr.
  destruct th as [pr p b [w ix]]. cbn in Hpr. subst pr.
  destruct w; do 9 (try destruct p as [|p]); done.
Qed.

(** Nobody holds lock b: its holder is about to release it. *)
Lemma stuck_b m : tl_inv m → (∀ t th, threads m !! t = Some th → ready th = false) → holder lockb m = None.
Proof.
  intros Hinv Hstuck. destruct (holder lockb m) as [h|] eqn:Hh; [exfalso|done].
  destruct (guarded_holder _ _ m h (ti_b m Hinv) Hh) as (th & Ht & Hc).
  assert (finished th = false) as Hf by (apply (holder_busy m h th Hinv Ht); by rewrite Hc, orb_true_r).
  apply andb_true_iff in Hc as [Hw Hp%Nat.eqb_eq].
  destruct (tl_blocked_at m h th Hinv Hstuck Ht Hf) as [(_ & ? & _)|[(_ & ? & _)|(? & _)]]; congruence.
Qed.

(** Nor lock a: its holder waits at most for lock b. *)
Lemma stuck_a m : tl_inv m → (∀ t th, threads m !! t = Some th → ready th = false) → holder locka m = None.
Proof.
  intros Hinv Hstuck. destruct (holder locka m) as [h|] eqn:Hh; [exfalso|done].
  destruct (guarded_holder _ _ m h (ti_a m Hinv) Hh) as (th & Ht & Hc).
  assert (finished th = false) as Hf by (apply (holder_busy m h th Hinv Ht); by rewrite Hc).
  pose proof (stuck_b m Hinv Hstuck) as Hb.
  apply andb_true_iff in Hc as [Hw [Hp%Nat.leb_le _]%andb_true_iff].
  destruct (tl_blocked_at m h th Hinv Hstuck Ht Hf) as [(_ & ? & _)|[(_ & _ & Hs)|(? & _)]];
    [lia|rewrite Hb in Hs; by destruct Hs|congruence].
Qed.

Lemma stuck_worker m t th :
  tl_inv m → (∀ t th, threads m !! t = Some th → ready th = false) →
  threads m !! t = Some th → is_worker th = true → signalled th = true.
Proof.
  intros Hinv Hstuck Ht Hw. assert (finished th = true) as Hf.
  { destruct (finished th) eqn:Hf; [done|exfalso].
    destruct (tl_blocked_at m t th Hinv Hstuck Ht Hf) as [(_ & _ & Hs)|[(_ & _ & Hs)|(? & _)]]; [| |congruence].
    - rewrite (stuck_a m Hinv Hstuck) in Hs. by destruct Hs.
    - rewrite (stuck_b m Hinv Hstuck) in Hs. by destruct Hs. }
  pose proof (to_prog _ (ti_threads m Hinv t th Ht)) as Hpr.
  destruct th as [pr p b [w ix]]. cbn in Hpr. subst pr.
  destruct w; do 9 (try destruct p as [|p]); done.
Qed.

Lemma tl_stuck_finished m t th :
  tl_inv m → (∀ t th, threads m !! t = Some th → ready th = false) →
  threads m !! t = Some th → finished th = true.
Proof.
  intros Hinv Hstuck Ht. destruct (finished th) eqn:Hf; [done|exfalso].
  destruct (tl_blocked_at m t th Hinv Hstuck Ht Hf) as [(_ & _ & Hs)|[(_ & _ & Hs)|(Hw & Hlt & Hc)]].
  - rewrite (stuck_a m Hinv Hstuck) in Hs. by destruct Hs.
  - rewrite (stuck_b m Hinv Hstuck) in Hs. by destruct Hs.
  - assert (cnt is_worker (threads m) ≤ cnt signalled (threads m))%nat as Hle.
    { apply cnt_mono_in. intros t' th'. by apply stuck_worker. }
    pose proof (workers_count m Hinv). pose proof (ti_done m Hinv) as Hd.
    pose proof (ti_who m Hinv) as Hwho.
    assert (sum_list_with waited (threads m) = waited th) as Hsum; [|lia].
    destruct (threads m) as [|t0 [|t1 [|t2 [|]]]]; try done. injection Hwho as E0 E1 E2.
    unfold is_worker in Hw. destruct t as [|[|[|t]]]; simplify_eq/=; rewrite ?E1, ?E2 in Hw; try done.
    unfold waited, is_worker. rewrite E0, E1, E2. lia.
Qed.

End twolocks.

(** ** Properties *)

(** C22: Bill and Ben never deadlock.  Whatever the number of loops and the
    schedule, no thread fails an assertion of the lock code (taking a lock it
    holds, releasing one it does not hold), every run ends after finitely many
    steps, and when no thread can run any more all of them have finished. *)
Theorem twolocks_no_deadlock NUM_LOOPS m
  (Hr : reachable (λ m, ∃ i1 i2, m = twolocks NUM_LOOPS i1 i2) mstep m) :
  (∀ t th, threads m !! t = Some th → ready th = true → ∃ m', exec t m = Ok m') ∧
  Acc (λ m2 m1, mstep m1 m2) m ∧
  ((∀ t th, threads m !! t = Some th → ready th = false) →
   ∀ t th, threads m !! t = Some th → finished th = true).
Proof.
  assert (tl_inv NUM_LOOPS m) as Hinv.
  { revert m Hr. apply reachable_invariant; [|apply tl_inv_mstep].
    intros s (i1 & i2 & ->). apply twolocks_inv. }
  split_and!.
  - intros t th Ht [_ Hrd]%andb_true_iff. apply (tl_exec_total NUM_LOOPS) with th; try done.
    apply bool_decide_eq_true in Hrd as [x Hx]. unfold finished. by rewrite Hx.
  - apply (measure_acc (work NUM_LOOPS) (λ _, 0%nat) (tl_inv NUM_LOOPS)); [| |done].
    + apply tl_inv_mstep.
    + intros s s' t th. apply tl_measure_exec.
  - intros Hstuck t th. by apply (tl_stuck_finished NUM_LOOPS).
Qed.

(** *** Concrete runs *)

Definition twolocks_demo : machine unit tl_loc := run_sched 200 (twolocks 2 7 8).

Lemma twolocks_no_deadlock_witness :
  (∀ t th, threads twolocks_demo !! t = Some th → finished th = true) ∧ length (threads twolocks_demo) = 3%nat.
Proof.
  split; [|vm_compute; reflexivity].
  assert (reachable (λ m, ∃ i1 i2, m = twolocks 2 i1 i2) mstep twolocks_demo) as Hr.
  { apply run_sched_reachable, reach_init. by exists 7, 8. }
  destruct (twolocks_no_deadlock 2 twolocks_demo Hr) as (_ & _ & H). apply H.
  apply no_ready_stuck. vm_compute. reflexivity.
Defined.
