(* ===== verification/Bar.v ===== *)
(** * The bar of assignment 1: the program

    bar.c ([order_drink], [take_order], [fill_order], [serve_order],
    [bar_open], [bar_close] and the sorting of an order) and its driver
    bar_driver.c ([customer], [bartender], [mix], [go_home], [run_bar]) as
    programs of the machine of Synch.v.

    Orders are objects in memory: order [c] is the variable [order] on the stack
    of customer [c], and order NCUSTOMERS is the [go_home_order] of the customer
    that leaves last.  Every access to memory that other threads may use at the
    same time is a step of its own: the update of an index of the queue, of the
    count of customers and of a bottle's doses is a load and a store.  [line] is
    the history variable that holds the orders in the queue, first come first; no
    instruction reads it. *)

From stdpp Require Import base list list_numbers.
From Stdlib Require Import ZArith Lia.
From S2P Require Import Prelude Synch.
Open Scope Z_scope.

(** ** barglass.h, bar.h *)

Definition BEER : Z := 1.
Definition GIN : Z := 4.
Definition TEQUILA : Z := 5.
Definition NBOTTLES : Z := 10.
Definition DRINK_COMPLEXITY : Z := 3.

Record barorder := BarOrder {
  requested_bottles : list Z;
  go_home_flag : Z;
  contents : list Z;
  order_done : option nat;
  is_semaphore_init : Z
}.

Definition with_requested (x : list Z) (o : barorder) : barorder :=
  BarOrder x (go_home_flag o) (contents o) (order_done o) (is_semaphore_init o).
Definition with_flag (x : Z) (o : barorder) : barorder :=
  BarOrder (requested_bottles o) x (contents o) (order_done o) (is_semaphore_init o).
Definition with_contents (x : list Z) (o : barorder) : barorder :=
  BarOrder (requested_bottles o) (go_home_flag o) x (order_done o) (is_semaphore_init o).
Definition with_done (s : nat) (o : barorder) : barorder :=
  BarOrder (requested_bottles o) (go_home_flag o) (contents o) (Some s) 1.

(** ** The sorting of an order *)

(** The [while] loop that moves larger elements up; the loop variable [j] it ends
    with.  The array has DRINK_COMPLEXITY elements and [j + 1 < DRINK_COMPLEXITY]. *)
Fixpoint shift_up (j : nat) (tmp : Z) (l : list Z) : nat * list Z :=
  match j with
  | O => (O, l)
  | S j' => if tmp <? nth j l 0 then shift_up j' tmp (<[S j := nth j l 0]> l) else (j, l)
  end.

Definition insert_one (l : list Z) (i : nat) : list Z :=
  let tmp := nth i l 0 in
  let '(j, l) := shift_up (i - 1) tmp l in
  <[S j := tmp]> l.

Definition sort_order_requested_bottles (l : list Z) : list Z :=
  foldl insert_one l (seq 1 (Z.to_nat DRINK_COMPLEXITY - 1)).

(** ** State *)

Record bar_glob := BarGlob {
  queue_bar_order : list Z;
  queue_front : Z;
  queue_rear : Z;
  bottles : list Z;
  customers : Z;
  orders : list barorder;
  line : list Z
}.

Definition set_queue (q : list Z) (g : bar_glob) : bar_glob :=
  BarGlob q (queue_front g) (queue_rear g) (bottles g) (customers g) (orders g) (line g).
Definition set_front (x : Z) (l : list Z) (g : bar_glob) : bar_glob :=
  BarGlob (queue_bar_order g) x (queue_rear g) (bottles g) (customers g) (orders g) l.
Definition set_rear (x : Z) (l : list Z) (g : bar_glob) : bar_glob :=
  BarGlob (queue_bar_order g) (queue_front g) x (bottles g) (customers g) (orders g) l.
Definition set_bottles (x : list Z) (g : bar_glob) : bar_glob :=
  BarGlob (queue_bar_order g) (queue_front g) (queue_rear g) x (customers g) (orders g) (line g).
Definition set_customers (x : Z) (g : bar_glob) : bar_glob :=
  BarGlob (queue_bar_order g) (queue_front g) (queue_rear g) (bottles g) x (orders g) (line g).
Definition set_orders (x : list barorder) (g : bar_glob) : bar_glob :=
  BarGlob (queue_bar_order g) (queue_front g) (queue_rear g) (bottles g) (customers g) x (line g).

Inductive person := Host | Customer (customernum : Z) | Bartender (staff : Z).

(** Local variables.  [i] counts a customer's iterations, a bartender's orders and
    the loops of [run_bar]; [j] is the loop variable of [go_home], [fill_order]
    and [mix]; [ord] the order a function was given; [tmp] a loaded value; [semp]
    a loaded pointer to a semaphore; [report] what [run_bar] prints. *)
Record bar_loc := BarLoc {
  who : person;
  i : Z;
  j : Z;
  ord : Z;
  bottle : Z;
  tmp : Z;
  semp : nat;
  report : list Z
}.

Definition with_i (x : Z) (l : bar_loc) : bar_loc :=
  BarLoc (who l) x (j l) (ord l) (bottle l) (tmp l) (semp l) (report l).
Definition with_j (x : Z) (l : bar_loc) : bar_loc :=
  BarLoc (who l) (i l) x (ord l) (bottle l) (tmp l) (semp l) (report l).
Definition with_ord (x : Z) (l : bar_loc) : bar_loc :=
  BarLoc (who l) (i l) (j l) x (bottle l) (tmp l) (semp l) (report l).
Definition with_bottle (x : Z) (l : bar_loc) : bar_loc :=
  BarLoc (who l) (i l) (j l) (ord l) x (tmp l) (semp l) (report l).
Definition with_tmp (x : Z) (l : bar_loc) : bar_loc :=
  BarLoc (who l) (i l) (j l) (ord l) (bottle l) x (semp l) (report l).
Definition with_semp (x : nat) (l : bar_loc) : bar_loc :=
  BarLoc (who l) (i l) (j l) (ord l) (bottle l) (tmp l) x (report l).
Definition with_report (x : list Z) (l : bar_loc) : bar_loc :=
  BarLoc (who l) (i l) (j l) (ord l) (bottle l) (tmp l) (semp l) x.

Definition bar_code : Type := list (instr bar_glob bar_loc).
Definition bar_step : Type := bar_glob → bar_loc → outcome (bar_glob * bar_loc).

(** A step on the local variables only. *)
Definition local (f : bar_loc → bar_loc) : instr bar_glob bar_loc := IDo (λ g l, Ok (g, f l)).
Definition jump (n : nat) : instr bar_glob bar_loc := IIf (λ _, true) n.

(** The semaphores: those of bar.c, [alldone] of the driver, [bottle_mutexs[b - 1]]
    of bottle [b], and the [order_done] that is created for the order of customer
    [c]; the lock [cust_lock]. *)
Definition queue_mutex : nat := 0.
Definition empty : nat := 1.
Definition full : nat := 2.
Definition alldone : nat := 3.
Definition bottle_mutex (b : Z) : nat := Z.to_nat (3 + b).
Definition done_sem (c : Z) : nat := Z.to_nat (4 + NBOTTLES + c).
Definition cust_lock : nat := 0.

(** The order the thread works on. *)
Definition on_order (f : barorder → outcome barorder) : bar_step := λ g l,
  o ← deref (zget (orders g) (ord l));
  o ← f o;
  Ok (set_orders (zset (orders g) (ord l) o) g, l).

Definition load_flag : bar_step := λ g l,
  o ← deref (zget (orders g) (ord l));
  Ok (g, with_tmp (go_home_flag o) l).

(** The pointer [order->order_done], which is about to be used. *)
Definition load_done : bar_step := λ g l,
  o ← deref (zget (orders g) (ord l));
  s ← deref (order_done o);
  Ok (g, with_semp s l).

Section bar.

(** The #defines of bar_driver.h, which its comments say will be changed; what
    the customers order (in the driver as it is, all order the same); and what
    becomes of an object on the stack once its function has returned. *)
Context (NCUSTOMERS NBARTENDERS : Z).
Context (drink : Z → list Z).
Context (frame_reused : barorder → barorder).

Definition QUEUE_SIZE : Z := NBARTENDERS.

(** ** bar.c *)

(** The creation of [order->order_done], unless there is one. *)
Definition create_done : bar_step := λ g l,
  on_order (λ o,
    Ok (if (go_home_flag o =? 0) && (is_semaphore_init o =? 0) then with_done (done_sem (ord l)) o else o)) g l.

Definition put_order : bar_step := λ g l,
  q ← zput (queue_bar_order g) (queue_rear g) (ord l);
  Ok (set_queue q g, l).

Definition load_rear : bar_step := λ g l, Ok (g, with_tmp (queue_rear g + 1) l).

Definition store_rear : bar_step := λ g l,
  Ok (set_rear (Z.rem (tmp l) QUEUE_SIZE) (line g ++ [ord l]) g, l).

(** [order_drink] on the order [ord], placed at [base] in the caller. *)
Definition order_drink (base : nat) : bar_code :=
  [ IDo create_done;
    IP (λ _, empty);
    IP (λ _, queue_mutex);
    IDo put_order;
    IDo load_rear;
    IDo store_rear;
    IV (λ _, queue_mutex);
    IV (λ _, full);
    IDo load_flag;
    IIf (λ l, negb (tmp l =? 0)) (base + 12);
    IDo load_done;
    IP semp ].

Definition get_order : bar_step := λ g l,
  x ← deref (zget (queue_bar_order g) (queue_front g));
  Ok (g, with_ord x l).

Definition load_front : bar_step := λ g l, Ok (g, with_tmp (queue_front g + 1) l).

Definition store_front : bar_step := λ g l,
  Ok (set_front (Z.rem (tmp l) QUEUE_SIZE) (tail (line g)) g, l).

Definition take_order : bar_code :=
  [ IP (λ _, full);
    IP (λ _, queue_mutex);
    IDo get_order;
    IDo load_front;
    IDo store_front;
    IV (λ _, queue_mutex);
    IV (λ _, empty) ].

Definition sort_order : bar_step :=
  on_order (λ o, Ok (with_requested (sort_order_requested_bottles (requested_bottles o)) o)).

(** [bottle = order->requested_bottles[k]], whose mutex is about to be used: the
    array [bottle_mutexs] has NBOTTLES elements. *)
Definition load_bottle (k : bar_loc → Z) : bar_step := λ g l,
  o ← deref (zget (orders g) (ord l));
  b ← deref (zget (requested_bottles o) (k l));
  if b <=? NBOTTLES then Ok (g, with_bottle b l) else Fault.

(** ** bar_driver.c, [mix] *)

Definition pour : bar_step := λ g l,
  o ← deref (zget (orders g) (ord l));
  b ← deref (zget (requested_bottles o) (j l));
  c ← zput (contents o) (j l) b;
  _ ← kassert (b <=? NBOTTLES);
  Ok (set_orders (zset (orders g) (ord l) (with_contents c o)) g, with_bottle b l).

Definition load_doses : bar_step := λ g l,
  d ← deref (zget (bottles g) (bottle l - 1));
  Ok (g, with_tmp d l).

Definition store_doses : bar_step := λ g l,
  bs ← zput (bottles g) (bottle l - 1) (s32 (tmp l + 1));
  Ok (set_bottles bs g, l).

(** [mix] on the order [ord], at position 16 of [bartender]. *)
Definition mix : bar_code :=
  [ local (with_j 0);
    IIf (λ l, negb (j l <? DRINK_COMPLEXITY)) 24;
    IDo pour;
    IIf (λ l, negb (0 <? bottle l)) 22;
    IDo load_doses;
    IDo store_doses;
    local (λ l, with_j (j l + 1) l);
    jump 17 ].

(** [fill_order], at position 9 of [bartender]: the bottles are taken in the order
    of the sorted request and given back in the opposite order. *)
Definition fill_order : bar_code :=
  [ IDo (λ g l, '(g, l) ← sort_order g l; Ok (g, with_j 0 l));
    IIf (λ l, negb (j l <? DRINK_COMPLEXITY)) 16;
    IDo (load_bottle j);
    IIf (λ l, bottle l =? 0) 14;
    IP (λ l, bottle_mutex (bottle l));
    local (λ l, with_j (j l + 1) l);
    jump 10 ] ++
  mix ++
  [ local (with_j DRINK_COMPLEXITY);
    IIf (λ l, negb (0 <? j l)) 31;
    IDo (load_bottle (λ l, j l - 1));
    IIf (λ l, bottle l =? 0) 29;
    IV (λ l, bottle_mutex (bottle l));
    local (λ l, with_j (j l - 1) l);
    jump 25 ].

(** [serve_order], placed at [base]. *)
Definition serve_order (base : nat) : bar_code :=
  [ IDo load_flag;
    IIf (λ l, negb (tmp l =? 0)) (base + 4);
    IDo load_done;
    IV semp ].

(** The number of orders filled, which only a build with PRINT_ON prints, is left
    out. *)
Definition bartender : bar_code :=
  take_order ++
  [ IDo load_flag;
    IIf (λ l, negb (tmp l =? 0)) 36 ] ++
  fill_order ++
  serve_order 31 ++
  [ jump 0 ] ++
  serve_order 36 ++
  [ IV (λ _, alldone) ].

(** ** bar_driver.c, customers *)

Definition load_customers : bar_step := λ g l, Ok (g, with_tmp (customers g) l).
Definition store_customers : bar_step := λ g l, Ok (set_customers (tmp l - 1) g, l).

(** [go_home], at position 16 of [customer]. *)
Definition go_home : bar_code :=
  [ IAcq cust_lock;
    IDo load_customers;
    IDo store_customers;
    IDo load_customers;
    IIf (λ l, negb (tmp l =? 0)) 40;
    IRel cust_lock;
    IDo (λ g l, on_order (λ o, Ok (with_flag 1 o)) g (with_j 0 (with_ord NCUSTOMERS l)));
    IIf (λ l, negb (j l <? NBARTENDERS)) 38 ] ++
  order_drink 24 ++
  [ local (λ l, with_j (j l + 1) l);
    jump 23;
    IDo (on_order (λ o, Ok (frame_reused o)));
    jump 41;
    IRel cust_lock ].

(** The customer's number is that of the order on its stack. *)
Definition customernum (l : bar_loc) : Z := match who l with Customer c => c | _ => 0 end.

Definition customer : bar_code :=
  [ IDo (λ g l, on_order (λ o, Ok (with_flag 0 o)) g (with_i 0 (with_ord (customernum l) l)));
    IDo (λ g l, on_order (λ o, Ok (with_requested (drink (customernum l)) o)) g l) ] ++
  order_drink 2 ++
  [ IDo (λ g l, '(g, l) ← on_order (λ o, Ok (with_contents [0; 0; 0] o)) g l; Ok (g, with_i (i l + 1) l));
    IIf (λ l, i l <? 10) 1 ] ++
  go_home ++
  [ IV (λ _, alldone) ].

(** ** bar_driver.c, [run_bar] *)

Definition print_bottle : bar_step := λ g l,
  d ← deref (zget (bottles g) (i l));
  Ok (g, with_i (i l + 1) (with_report (report l ++ [d]) l)).

(** From the loop that waits for everybody on. *)
Definition run_bar_wait : bar_code :=
  [ local (with_i 0);
    IIf (λ l, negb (i l <? NCUSTOMERS + NBARTENDERS)) 5;
    IP (λ _, alldone);
    local (λ l, with_i (i l + 1) l);
    jump 1;
    local (with_i 0);
    IIf (λ l, negb (i l <? NBOTTLES)) 9;
    IDo print_bottle;
    jump 6 ].

(** [queue_front] and [queue_rear] are set and the semaphores of bar.c created. *)
Definition bar_open (g : bar_glob) : bar_glob * (semaphore * semaphore * semaphore * list semaphore) :=
  (set_rear 0 (line g) (set_front 0 (line g) g),
   (sem_create 1, sem_create QUEUE_SIZE, sem_create 0, replicate (Z.to_nat NBOTTLES) (sem_create 1))).

Definition prog_of (p : person) : bar_code :=
  match p with Host => run_bar_wait | Customer _ => customer | Bartender _ => bartender end.

Definition fresh (p : person) : bar_code * bar_loc := (prog_of p, BarLoc p 0 0 0 0 0 0 []).

(** [run_bar] up to its waiting loop; a thread that is forked later is one that is
    not scheduled before, and the semaphore that [order_drink] creates for the
    order of customer [c] is the one at [done_sem c].  [q] is what the queue holds
    when the bar opens and [junk] what is on the customers' stacks. *)
Definition run_bar (q : list Z) (junk : list barorder) : machine bar_glob bar_loc :=
  let g := BarGlob q 0 0 (replicate (Z.to_nat NBOTTLES) 0) NCUSTOMERS junk [] in
  let '(g, (qm, em, fu, bs)) := bar_open g in
  start g ([qm; em; fu; sem_create 0] ++ bs ++ replicate (Z.to_nat NCUSTOMERS) (sem_create 0))
    [lock_create] []
    (fresh Host :: map (λ n, fresh (Bartender n)) (seqZ 0 NBARTENDERS)
       ++ map (λ c, fresh (Customer c)) (seqZ 0 NCUSTOMERS)).

(** [bar_close] and the end of [run_bar]. *)
Fixpoint destroy_all (ss : list semaphore) : outcome unit :=
  match ss with
  | [] => Ok tt
  | s :: ss => _ ← sem_destroy s; destroy_all ss
  end.

Definition bar_close (m : machine bar_glob bar_loc) : outcome bar_glob :=
  let g := glob m in
  let g := set_rear 0 (line g) (set_front 0 (line g) g) in
  destroy_all (take 3 (sems m));;
  destroy_all (take (Z.to_nat NBOTTLES) (drop 4 (sems m)));;
  Ok g.

Definition run_bar_end (m : machine bar_glob bar_loc) : outcome bar_glob :=
  g ← bar_close m;
  l ← deref (locks m !! cust_lock); lock_destroy l;;
  s ← deref (sems m !! alldone); sem_destroy s;;
  Ok g.

End bar.

(** What the customers of the driver order. *)
Definition driver_drink (c : Z) : list Z := [BEER; TEQUILA; GIN].

(** ** The sorting of an order, in closed form *)

(** The element at index 0 takes no part: the loop stops at [j = 0] before it is
    compared. *)
Lemma sort_order_eq x y z :
  sort_order_requested_bottles [x; y; z] = if z <? y then [x; z; y] else [x; y; z].
Proof. unfold sort_order_requested_bottles, insert_one. simpl. unfold insert_one. simpl. by destruct (z <? y). Qed.
