(* ===== verification/BarInv.v ===== *)
(** * The bar of assignment 1: the invariant

    What holds in every reachable state of the program of Bar.v, whatever the
    schedule: a conservation law for each semaphore and for the doses of each
    bottle, the state of the queue, and what each thread knows about the objects
    it has to itself. *)

From stdpp Require Import base list list_numbers.
From Stdlib Require Import ZArith Lia.
From S2P Require Import Prelude Synch Bar.
Open Scope Z_scope.

#[export] Hint Rewrite Nat2Z.id : os161.

(** ** Sums over the threads *)


Fixpoint total {A} (w : A → Z) (l : list A) : Z :=
  match l with [] => 0 | x :: l => w x + total w l end.

(** How often [b] occurs. *)
Definition occ (b : Z) (l : list Z) : Z := total (λ x, b2z (x =? b)) l.

Section total.
Context {A : Type} (w : A → Z).

Lemma total_app l1 l2 : total w (l1 ++ l2) = total w l1 + total w l2.
Proof. induction l1; simpl; lia. Qed.

Lemma total_insert l i x y : l !! i = Some x → total w (<[i := y]> l) + w x = total w l + w y.
Proof. revert i. induction l as [|z l IH]; intros [|i] H; simplify_eq/=; [lia|]. specialize (IH i H). lia. Qed.

Lemma total_zero l : (∀ i x, l !! i = Some x → w x = 0) → total w l = 0.
Proof.
  induction l as [|x l IH]; intros H; simpl; [done|].
  rewrite (H 0%nat x eq_refl), IH; [done|]. intros i y. apply (H (S i) y).
Qed.

Lemma total_nonneg l : (∀ i x, l !! i = Some x → 0 ≤ w x) → 0 ≤ total w l.
Proof.
  induction l as [|x l IH]; intros H; simpl; [done|].
  pose proof (H 0%nat x eq_refl). specialize (IH (λ i, H (S i))). lia.
Qed.

Lemma total_ge l i x : (∀ i x, l !! i = Some x → 0 ≤ w x) → l !! i = Some x → w x ≤ total w l.
Proof.
  revert i. induction l as [|y l IH]; intros [|i] H Hi; simplify_eq/=.
  - pose proof (total_nonneg l (λ i, H (S i))). lia.
  - pose proof (H 0%nat y eq_refl). specialize (IH i (λ i, H (S i)) Hi). lia.
Qed.

(** Two different elements count twice. *)
Lemma total_ge2 l i1 i2 x1 x2 :
  (∀ i x, l !! i = Some x → 0 ≤ w x) → i1 ≠ i2 → l !! i1 = Some x1 → l !! i2 = Some x2 →
  w x1 + w x2 ≤ total w l.
Proof.
  revert i1 i2. induction l as [|y l IH]; intros [|i1] [|i2] H Hne H1 H2; simplify_eq/=.
  - pose proof (total_ge l i2 x2 (λ i, H (S i)) H2). lia.
  - pose proof (total_ge l i1 x1 (λ i, H (S i)) H1). lia.
  - pose proof (H 0%nat y eq_refl).
    specialize (IH i1 i2 (λ i, H (S i)) ltac:(congruence) H1 H2). lia.
Qed.

(** A sum that is positive has a positive element. *)
Lemma total_pos l : 0 < total w l → ∃ i x, l !! i = Some x ∧ 0 < w x.
Proof.
  induction l as [|x l IH]; simpl; [lia|]. intros H. destruct (decide (0 < w x)).
  - by exists 0%nat, x.
  - destruct IH as (i & y & Hi & Hy); [lia|]. by exists (S i), y.
Qed.

End total.

Lemma total_mono {A} (w v : A → Z) l :
  (∀ i x, l !! i = Some x → w x ≤ v x) → total w l ≤ total v l.
Proof.
  induction l as [|x l IH]; intros H; simpl; [done|].
  pose proof (H 0%nat x eq_refl). specialize (IH (λ i, H (S i))). lia.
Qed.

Lemma total_ext {A} (w v : A → Z) l : (∀ i x, l !! i = Some x → w x = v x) → total w l = total v l.
Proof.
  intros H. apply Z.le_antisymm; apply total_mono; intros i x Hx; rewrite (H i x Hx); lia.
Qed.

Lemma total_map {A B} (f : A → B) (w : B → Z) l : total w (map f l) = total (λ x, w (f x)) l.
Proof. induction l; simpl; lia. Qed.

Lemma total_const {A} (l : list A) : total (λ _, 1) l = zlen l.
Proof. induction l as [|x l IH]; [done|]. simpl. rewrite IH. unfold zlen. simpl. lia. Qed.

(** A sum that is smaller at one place and nowhere greater. *)
Lemma total_less {A} (w v : A → Z) l i x :
  (∀ i x, l !! i = Some x → w x ≤ v x) → l !! i = Some x → total w l + (v x - w x) ≤ total v l.
Proof.
  revert i. induction l as [|y l IH]; intros [|i] H Hi; simplify_eq/=.
  - pose proof (total_mono w v l (λ i, H (S i))). lia.
  - pose proof (H 0%nat y eq_refl). specialize (IH i (λ i, H (S i)) Hi). lia.
Qed.

Lemma total_scale {A} z (w : A → Z) l : total (λ x, z * w x) l = z * total w l.
Proof. induction l; simpl; lia. Qed.

Lemma total_sub {A} (w v : A → Z) l : total (λ x, w x - v x) l = total w l - total v l.
Proof. induction l; simpl; lia. Qed.

Lemma occ_nonneg b l : 0 ≤ occ b l.
Proof. apply total_nonneg. intros i x _. unfold b2z. by destruct (_ =? _). Qed.

Lemma occ_app b l1 l2 : occ b (l1 ++ l2) = occ b l1 + occ b l2.
Proof. apply total_app. Qed.

Lemma occ_elem b l : b ∈ l → 1 ≤ occ b l.
Proof.
  intros (i & Hi)%list_elem_of_lookup. unfold occ.
  pose proof (total_ge (λ x, b2z (x =? b)) l i b) as H. cbn in H. rewrite Z.eqb_refl in H. apply H; [|done].
  intros k x _. unfold b2z. by destruct (_ =? _).
Qed.

Lemma occ_one b x : occ b [x] = b2z (x =? b).
Proof. unfold occ. simpl. lia. Qed.

Lemma occ_nil b : occ b [] = 0.
Proof. done. Qed.

Lemma occ_cons b x l : occ b (x :: l) = b2z (x =? b) + occ b l.
Proof. done. Qed.

Lemma total_cons {A} (w : A → Z) x l : total w (x :: l) = w x + total w l.
Proof. done. Qed.

Lemma total_one {A} (w : A → Z) x : total w [x] = w x.
Proof. simpl. lia. Qed.

Lemma occ_take_next b l k x :
  zget l k = Some x → occ b (take (Z.to_nat (k + 1)) l) = occ b (take (Z.to_nat k) l) + b2z (x =? b).
Proof.
  intros H. unfold zget in H. case_decide; [|done].
  replace (Z.to_nat (k + 1)) with (S (Z.to_nat k)) by lia.
  by rewrite (take_S_r _ _ x H), occ_app, occ_one.
Qed.

Lemma occ_take_prev b l k x :
  zget l (k - 1) = Some x → occ b (take (Z.to_nat k) l) = occ b (take (Z.to_nat (k - 1)) l) + b2z (x =? b).
Proof. intros H. rewrite <-(occ_take_next _ _ _ _ H). by rewrite Z.sub_add. Qed.

Lemma occ_drop_next b l k x :
  zget l k = Some x → occ b (drop (Z.to_nat k) l) = b2z (x =? b) + occ b (drop (Z.to_nat (k + 1)) l).
Proof.
  intros H. unfold zget in H. case_decide; [|done].
  replace (Z.to_nat (k + 1)) with (S (Z.to_nat k)) by lia. by rewrite (drop_S l x (Z.to_nat k) H).
Qed.

(** A thread moves and another may be woken. *)
Lemma total_step {G L} (w : thr G L → Z) f target t th ths :
  stable w → ths !! t = Some th →
  total w (wake resume target (update f t ths)) + w th = total w ths + w (f th).
Proof.
  intros Hw Ht.
  assert (∀ ths : list (thr G L), total w (wake resume target ths) = total w ths) as ->.
  { intros ths'. destruct target as [v|]; [|done]. simpl. unfold update.
    destruct (ths' !! v) as [x|] eqn:Hv; [|done].
    pose proof (total_insert w ths' v x (resume x) Hv) as Hi.
    rewrite (Hw x false : w (resume x) = w x) in Hi. lia. }
  unfold update. rewrite Ht. by apply total_insert.
Qed.

(** ** Where a thread stands *)

Definition within (a b p : nat) : bool := ((a <=? p) && (p <=? b))%nat.

Section bar.
Context (NCUSTOMERS NBARTENDERS : Z).
Context (drink : Z → list Z).
Context (frame_reused : barorder → barorder).

#[local] Abbreviation thread := (thr bar_glob bar_loc).
Implicit Types (th : thread) (g : bar_glob) (l : bar_loc) (m : machine bar_glob bar_loc) (o : barorder).

(** What goes into the glass of customer [c]: the sorted order, nothing for the
    order that sends a bartender home. *)
Definition recipe (c : Z) : list Z :=
  if c <? NCUSTOMERS then sort_order_requested_bottles (drink c) else [].

Definition is_customer th : bool := match who (loc th) with Customer _ => true | _ => false end.
Definition is_bartender th : bool := match who (loc th) with Bartender _ => true | _ => false end.

(** At instructions [a] to [b] of [order_drink]. *)
Definition ordering (a b : nat) th : bool :=
  is_customer th && (within (2 + a) (2 + b) (pc th) || within (24 + a) (24 + b) (pc th)).
Definition serving (a b : nat) th : bool := is_bartender th && within a b (pc th).

(** Between [P(queue_mutex)] and [V(queue_mutex)]. *)
Definition in_queue th : bool := ordering 3 6 th || serving 2 5 th.
Definition owns_empty th : bool := ordering 2 5 th.
Definition filled th : bool := ordering 6 7 th.
Definition owns_full th : bool := serving 1 4 th.
Definition freed th : bool := serving 5 6 th.

(** Customer [c] has put its order into the queue and waits for it. *)
Definition submitted (c : Z) th : bool :=
  match who (loc th) with Customer c' => (c' =? c) && within 8 13 (pc th) | _ => false end.
(** The bartender works on order [c]. *)
Definition holds (c : Z) th : bool := serving 5 34 th && (ord (loc th) =? c).

(** Orders to go home, taken and sent. *)
Definition took_home th : bool := is_bartender th && (5 <=? pc th)%nat && (ord (loc th) =? NCUSTOMERS).
Definition home th : bool :=
  is_customer th && (within 21 22 (pc th) || (23 <=? pc th)%nat && (ord (loc th) =? NCUSTOMERS)).
Definition sent_home th : Z :=
  if home th then
    if (pc th <=? 22)%nat then 0
    else if (pc th <=? 29)%nat then j (loc th)
    else if (pc th <=? 36)%nat then j (loc th) + 1
    else if (pc th =? 37)%nat then j (loc th)
    else NBARTENDERS
  else 0.

(** In [go_home]: the customer has left the count, and has not yet seen the
    result; it holds the lock. *)
Definition has_left th : bool := is_customer th && (19 <=? pc th)%nat.
Definition deciding th : bool := is_customer th && within 19 20 (pc th).
Definition counting th : bool := is_customer th && (within 17 21 (pc th) || (pc th =? 40)%nat).

Definition signalled th : bool :=
  match who (loc th) with
  | Customer _ => (42 <=? pc th)%nat
  | Bartender _ => (41 <=? pc th)%nat
  | Host => false
  end.
Definition waited th : Z :=
  match who (loc th) with
  | Host => match pc th with
            | 0 => 0%Z
            | 1 | 2 | 4 => i (loc th)
            | 3 => (i (loc th) + 1)%Z
            | _ => (NCUSTOMERS + NBARTENDERS)%Z
            end%nat
  | _ => 0
  end.

(** How many bottles of the recipe the bartender has taken, and poured. *)
Definition got th : Z :=
  let p := pc th in
  if is_bartender th then
    if within 10 13 p || (p =? 15)%nat then j (loc th)
    else if (p =? 14)%nat then j (loc th) + 1
    else if within 16 24 p then DRINK_COMPLEXITY
    else if within 25 28 p || (p =? 30)%nat then j (loc th)
    else if (p =? 29)%nat then j (loc th) - 1
    else 0
  else 0.
Definition poured th : Z :=
  let p := pc th in
  if within 17 21 p || (p =? 23)%nat then j (loc th)
  else if (p =? 22)%nat then j (loc th) + 1
  else if (24 <=? p)%nat then DRINK_COMPLEXITY
  else 0.

Definition bottles_held th : list Z := take (Z.to_nat (got th)) (recipe (ord (loc th))).
Definition to_pour th : list Z :=
  if serving 5 34 th then drop (Z.to_nat (poured th)) (recipe (ord (loc th))) else [].
(** The drinks a customer has ordered. *)
Definition ordered th : Z :=
  match who (loc th) with
  | Customer _ => if (pc th =? 0)%nat then 0 else if within 8 14 (pc th) then i (loc th) + 1 else i (loc th)
  | _ => 0
  end.
Definition who_ordered th : Z := match who (loc th) with Customer c => c | _ => NCUSTOMERS end.

(** ** Conservation laws *)

Inductive law :=
| LMutex | LEmpty | LFull | LAlldone
| LBottle (b : Z)
| LToken (c : Z)
| LHome
| LCustomers
| LDose (b : Z).

Definition law_valid (k : law) : Prop :=
  match k with
  | LBottle b | LDose b => 1 ≤ b ≤ NBOTTLES
  | LToken c => 0 ≤ c < NCUSTOMERS
  | _ => True
  end.

Definition count_of (s : nat) m : Z :=
  match sems m !! s with Some sem => sem_count sem | None => 0 end.
Definition doses (b : Z) g : Z := match zget (bottles g) (b - 1) with Some d => d | None => 0 end.

(** What a thread contributes to a law. *)
Definition weight (k : law) th : Z :=
  match k with
  | LMutex => b2z (in_queue th)
  | LEmpty => b2z (owns_empty th) + b2z (freed th)
  | LFull => b2z (filled th) + b2z (owns_full th)
  | LAlldone => waited th - b2z (signalled th)
  | LBottle b => occ b (bottles_held th)
  | LToken c => b2z (holds c th) - b2z (submitted c th)
  | LHome => b2z (took_home th) - sent_home th
  | LCustomers => b2z (has_left th)
  | LDose b => occ b (to_pour th) - ordered th * occ b (recipe (who_ordered th))
  end.

(** What the shared state contributes. *)
Definition stock (k : law) m : Z :=
  match k with
  | LMutex => count_of queue_mutex m
  | LEmpty => count_of empty m + zlen (line (glob m))
  | LFull => count_of full m - zlen (line (glob m))
  | LAlldone => count_of alldone m
  | LBottle b => count_of (bottle_mutex b) m
  | LToken c => count_of (done_sem c) m + occ c (line (glob m))
  | LHome => occ NCUSTOMERS (line (glob m))
  | LCustomers => customers (glob m)
  | LDose b => doses b (glob m) + total (λ c, occ b (recipe c)) (line (glob m))
  end.

Definition balance (k : law) : Z :=
  match k with
  | LMutex | LBottle _ => 1
  | LEmpty => QUEUE_SIZE NBARTENDERS
  | LCustomers => NCUSTOMERS
  | _ => 0
  end.

(** ** What each thread knows *)

(** The order of a customer has a semaphore. *)
Definition ready_order (c : Z) o : Prop :=
  go_home_flag o = 0 ∧ order_done o = Some (done_sem c) ∧ is_semaphore_init o ≠ 0.
Definition queued_order (c : Z) o : Prop := ready_order c o ∧ requested_bottles o = drink c.

Definition local_ok th : Prop :=
  let l := loc th in
  match who l with
  | Customer c => 0 ≤ c < NCUSTOMERS ∧
      match pc th with
      | 0 => True
      | 1 | 2 | 3 | 4 | 5 | 6 | 7 | 8 | 9 | 10 | 12 | 14 => (ord l = c ∧ 0 ≤ i l < 10)%Z
      | 11 => (ord l = c ∧ 0 ≤ i l < 10 ∧ tmp l = 0)%Z
      | 13 => (ord l = c ∧ 0 ≤ i l < 10 ∧ semp l = done_sem c)%Z
      | 15 => (ord l = c ∧ 0 ≤ i l ≤ 10)%Z
      | 16 | 17 | 18 | 19 | 20 | 21 | 40 => (ord l = c ∧ i l = 10)%Z
      | 22 => (i l = 10)%Z
      | 23 | 37 => (ord l = NCUSTOMERS ∧ i l = 10 ∧ 0 ≤ j l ≤ NBARTENDERS)%Z
      | 24 | 25 | 26 | 27 | 28 | 29 | 30 | 31 | 32 | 36 =>
          (ord l = NCUSTOMERS ∧ i l = 10 ∧ 0 ≤ j l < NBARTENDERS)%Z
      | 33 => (ord l = NCUSTOMERS ∧ i l = 10 ∧ 0 ≤ j l < NBARTENDERS ∧ tmp l ≠ 0)%Z
      | 34 | 35 => False
      | 38 | 39 => (ord l = NCUSTOMERS ∧ i l = 10)%Z
      | _ => ((ord l = c ∨ ord l = NCUSTOMERS) ∧ i l = 10)%Z
      end%nat
  | Bartender _ =>
      match pc th with
      | 0 | 1 | 2 => True
      | 3 | 4 | 5 | 6 | 7 => (0 ≤ ord l ≤ NCUSTOMERS)%Z
      | 8 => (0 ≤ ord l ≤ NCUSTOMERS ∧ (tmp l = 0 ↔ ord l < NCUSTOMERS))%Z
      | 10 | 15 | 17 | 23 | 25 | 30 => (0 ≤ ord l < NCUSTOMERS ∧ 0 ≤ j l ≤ DRINK_COMPLEXITY)%Z
      | 11 | 14 | 18 | 22 => (0 ≤ ord l < NCUSTOMERS ∧ 0 ≤ j l < DRINK_COMPLEXITY)%Z
      | 12 | 19 => (0 ≤ ord l < NCUSTOMERS ∧ 0 ≤ j l < DRINK_COMPLEXITY ∧
                    zget (recipe (ord l)) (j l) = Some (bottle l))%Z
      | 13 | 20 | 21 => (0 ≤ ord l < NCUSTOMERS ∧ 0 ≤ j l < DRINK_COMPLEXITY ∧
                    zget (recipe (ord l)) (j l) = Some (bottle l) ∧ bottle l ≠ 0)%Z
      | 26 | 29 => (0 ≤ ord l < NCUSTOMERS ∧ 0 < j l ≤ DRINK_COMPLEXITY)%Z
      | 27 => (0 ≤ ord l < NCUSTOMERS ∧ 0 < j l ≤ DRINK_COMPLEXITY ∧
                    zget (recipe (ord l)) (j l - 1) = Some (bottle l))%Z
      | 28 => (0 ≤ ord l < NCUSTOMERS ∧ 0 < j l ≤ DRINK_COMPLEXITY ∧
                    zget (recipe (ord l)) (j l - 1) = Some (bottle l) ∧ bottle l ≠ 0)%Z
      | 9 | 16 | 24 | 31 | 33 | 35 => (0 ≤ ord l < NCUSTOMERS)%Z
      | 32 => (0 ≤ ord l < NCUSTOMERS ∧ tmp l = 0)%Z
      | 34 => (0 ≤ ord l < NCUSTOMERS ∧ semp l = done_sem (ord l))%Z
      | 37 => (ord l = NCUSTOMERS ∧ tmp l ≠ 0)%Z
      | 38 | 39 => False
      | _ => (ord l = NCUSTOMERS)%Z
      end%nat
  | Host =>
      match pc th with
      | 0 | 5 => True
      | 1 | 4 => (0 ≤ i l ≤ NCUSTOMERS + NBARTENDERS)%Z
      | 2 | 3 => (0 ≤ i l < NCUSTOMERS + NBARTENDERS)%Z
      | 6 | 8 => (0 ≤ i l ≤ NBOTTLES)%Z
      | 7 => (0 ≤ i l < NBOTTLES)%Z
      | _ => (i l = NBOTTLES)%Z
      end%nat
  end.

(** In the queue. *)
Definition queue_ok g th : Prop :=
  let l := loc th in
  match who l with
  | Customer _ =>
      match pc th with
      | 6 | 28 => zget (queue_bar_order g) (queue_rear g) = Some (ord l)
      | 7 | 29 => zget (queue_bar_order g) (queue_rear g) = Some (ord l) ∧ (tmp l = queue_rear g + 1)%Z
      | _ => True
      end%nat
  | Bartender _ =>
      match pc th with
      | 3 => head (line g) = Some (ord l)
      | 4 => head (line g) = Some (ord l) ∧ (tmp l = queue_front g + 1)%Z
      | _ => True
      end%nat
  | Host => True
  end.

(** About the order the thread works on. *)
Definition customer_order (c : Z) (p : nat) o : Prop :=
  match p with
  | 0 => (is_semaphore_init o = 0)%Z
  | 1 => (go_home_flag o = 0 ∧ (is_semaphore_init o = 0 ∨ ready_order c o))%Z
  | 2 => (go_home_flag o = 0 ∧ (is_semaphore_init o = 0 ∨ ready_order c o) ∧ requested_bottles o = drink c)%Z
  | 3 | 4 | 5 | 6 | 7 => queued_order c o
  | 8 | 9 | 10 | 11 | 12 | 13 | 15 => ready_order c o
  | 14 => ready_order c o ∧ contents o = recipe c
  | _ => True
  end%nat.

Definition bartender_order (x : Z) l (p : nat) o : Prop :=
  if (p <=? 4)%nat then True
  else if (p <=? 8)%nat then if x <? NCUSTOMERS then queued_order x o else go_home_flag o ≠ 0
  else if (p =? 9)%nat then queued_order x o
  else if (p <=? 35)%nat then
    (ready_order x o ∧ requested_bottles o = recipe x) ∧
    (if (p <=? 16)%nat then True
     else if (p <=? 18)%nat || (p =? 23)%nat then
       take (Z.to_nat (j l)) (contents o) = take (Z.to_nat (j l)) (recipe x)
     else if (p <=? 22)%nat then
       take (Z.to_nat (j l + 1)) (contents o) = take (Z.to_nat (j l + 1)) (recipe x)
     else contents o = recipe x)
  else go_home_flag o ≠ 0.

Definition order_ok (os : list barorder) th : Prop :=
  match who (loc th) with
  | Customer c =>
      (∃ o, zget os c = Some o ∧ customer_order c (pc th) o) ∧
      (within 23 39 (pc th) = true → ∃ o, zget os NCUSTOMERS = Some o ∧ go_home_flag o ≠ 0)
  | Bartender _ =>
      (5 ≤ pc th)%nat → ∃ o, zget os (ord (loc th)) = Some o ∧
        (pc th ≠ 35%nat → bartender_order (ord (loc th)) (loc th) (pc th) o)
  | Host => True
  end.

(** About the doses of a bottle. *)
Definition dose_ok (bs : list Z) th : Prop :=
  match who (loc th) with
  | Bartender _ => pc th = 21%nat → zget bs (bottle (loc th) - 1) = Some (tmp (loc th))
  | Host => match pc th with
            | 0 | 1 | 2 | 3 | 4 | 5 => report (loc th) = []
            | _ => report (loc th) = take (Z.to_nat (i (loc th))) bs
            end%nat
  | Customer _ => True
  end.

(** About the number of customers. *)
Definition count_ok (n : Z) th : Prop :=
  match who (loc th) with
  | Customer _ => match pc th with 18 | 20 => tmp (loc th) = n | _ => True end%nat
  | _ => True
  end.

Record thread_ok g th : Prop := {
  to_prog : prog th = prog_of NCUSTOMERS NBARTENDERS drink frame_reused (who (loc th));
  to_local : local_ok th;
  to_queue : queue_ok g th;
  to_order : order_ok (orders g) th;
  to_dose : dose_ok (bottles g) th;
  to_count : count_ok (customers g) th
}.

(** ** The shared state *)

Record queue_inv g : Prop := {
  qi_len : zlen (queue_bar_order g) = QUEUE_SIZE NBARTENDERS;
  qi_front : 0 ≤ queue_front g < QUEUE_SIZE NBARTENDERS;
  qi_room : zlen (line g) ≤ QUEUE_SIZE NBARTENDERS;
  qi_rear : queue_rear g = (queue_front g + zlen (line g)) mod QUEUE_SIZE NBARTENDERS;
  qi_slots k x : zget (line g) k = Some x →
    zget (queue_bar_order g) ((queue_front g + k) mod QUEUE_SIZE NBARTENDERS) = Some x
}.

(** The orders in the queue. *)
Definition line_ok (os : list barorder) (x : Z) : Prop :=
  0 ≤ x ≤ NCUSTOMERS ∧
  ∃ o, zget os x = Some o ∧ if x <? NCUSTOMERS then queued_order x o else go_home_flag o ≠ 0.

Record glob_ok g : Prop := {
  go_queue : queue_inv g;
  go_line : Forall (line_ok (orders g)) (line g);
  go_orders : zlen (orders g) = NCUSTOMERS + 1;
  go_contents x o : zget (orders g) x = Some o → zlen (contents o) = DRINK_COMPLEXITY;
  go_bottles : zlen (bottles g) = NBOTTLES;
  go_doses k d : zget (bottles g) k = Some d → 0 ≤ d
}.

Definition people : list person :=
  Host :: map Bartender (seqZ 0 NBARTENDERS) ++ map Customer (seqZ 0 NCUSTOMERS).

Record bar_inv m : Prop := {
  bi_sync : sync_ok m;
  bi_sems : zlen (sems m) = 4 + NBOTTLES + NCUSTOMERS;
  bi_laws k : law_valid k → stock k m + total (weight k) (threads m) = balance k;
  bi_lock : guarded cust_lock counting m;
  bi_home : total (λ th, b2z (home th)) (threads m)
    = b2z ((customers (glob m) =? 0) && (total (λ th, b2z (deciding th)) (threads m) =? 0));
  bi_glob : glob_ok (glob m);
  bi_served c : 0 ≤ c < NCUSTOMERS → 0 < count_of (done_sem c) m →
    ∃ o, zget (orders (glob m)) c = Some o ∧ contents o = recipe c;
  bi_people : map (λ th, who (loc th)) (threads m) = people;
  bi_threads t th : threads m !! t = Some th → thread_ok (glob m) th
}.

(** ** Assumptions *)

(** An order that can be filled: the bottles exist and, once sorted, come in
    increasing order. *)
Record recipe_ok (r : list Z) : Prop := {
  rc_len : zlen r = DRINK_COMPLEXITY;
  rc_range k b : zget r k = Some b → 0 ≤ b ≤ NBOTTLES;
  rc_incr k1 k2 b1 b2 : k1 < k2 → zget r k1 = Some b1 → zget r k2 = Some b2 → b1 ≠ 0 → b2 ≠ 0 → b1 < b2
}.

Hypothesis customers_range : 0 < NCUSTOMERS ∧ 10 * NCUSTOMERS < two31.
Hypothesis bartenders_range : 0 < NBARTENDERS ∧ NCUSTOMERS + NBARTENDERS < two31.
Hypothesis recipes : ∀ c, 0 ≤ c < NCUSTOMERS → recipe_ok (sort_order_requested_bottles (drink c)).

(** The memory of a returned function keeps the flag that a bartender may still
    read; an array keeps its length. *)
Hypothesis frame_flag : ∀ o, go_home_flag o ≠ 0 → go_home_flag (frame_reused o) ≠ 0.
Hypothesis frame_contents : ∀ o, zlen (contents o) = DRINK_COMPLEXITY → zlen (contents (frame_reused o)) = DRINK_COMPLEXITY.

Lemma recipe_spec c : 0 ≤ c < NCUSTOMERS → recipe_ok (recipe c).
Proof. intros Hc. unfold recipe. rewrite (proj2 (Z.ltb_lt _ _)) by lia. by apply recipes. Qed.

Lemma recipe_home : recipe NCUSTOMERS = [].
Proof. unfold recipe. by rewrite Z.ltb_irrefl. Qed.

(** ** Consequences of the laws *)

Lemma people_nodup : NoDup people.
Proof.
  unfold people. apply NoDup_cons. split.
  - rewrite elem_of_app. intros [H|H]; apply list_elem_of_fmap in H as (x & ? & _); done.
  - apply NoDup_app. split_and!.
    + apply NoDup_fmap; [by intros ?? [=]|apply NoDup_seqZ].
    + intros p (x & -> & _)%list_elem_of_fmap (y & ? & _)%list_elem_of_fmap. done.
    + apply NoDup_fmap; [by intros ?? [=]|apply NoDup_seqZ].
Qed.

Lemma same_person m t th t' th' :
  bar_inv m → threads m !! t = Some th → threads m !! t' = Some th' →
  who (loc th) = who (loc th') → t = t'.
Proof.
  intros Hinv Ht Ht' E. pose proof people_nodup as Hnd. rewrite <-(bi_people m Hinv) in Hnd.
  eapply NoDup_lookup; [exact Hnd|..]; rewrite list_lookup_fmap; [by rewrite Ht|]. rewrite Ht'. cbn. by rewrite E.
Qed.

Lemma bar_count_nonneg m s : bar_inv m → 0 ≤ count_of s m.
Proof.
  intros Hinv. unfold count_of. destruct (sems m !! s) as [sem|] eqn:E; [|done].
  by destruct (sem_count_range m _ _ (bi_sync m Hinv) E).
Qed.

Lemma law_token m c :
  bar_inv m → 0 ≤ c < NCUSTOMERS →
  count_of (done_sem c) m + occ c (line (glob m)) + total (λ th, b2z (holds c th)) (threads m)
    = total (λ th, b2z (submitted c th)) (threads m).
Proof.
  intros Hinv Hc. pose proof (bi_laws m Hinv (LToken c) Hc) as Hl. cbn in Hl.
  rewrite (total_sub (λ th, b2z (holds c th)) (λ th, b2z (submitted c th))) in Hl. lia.
Qed.

(** At most the one customer has submitted order [c]. *)
Lemma submitted_le m c t th :
  bar_inv m → threads m !! t = Some th → who (loc th) = Customer c →
  total (λ th, b2z (submitted c th)) (threads m) = b2z (submitted c th).
Proof.
  intros Hinv Ht Hw.
  pose proof (total_insert (λ th, b2z (submitted c th)) (threads m) t th
    (Thr [] 0 false (BarLoc Host 0 0 0 0 0 0 [])) Ht) as Hi. cbn in Hi.
  rewrite (total_zero _ (<[t := _]> (threads m))) in Hi; [lia|]. intros t' th' Ht'.
  apply list_lookup_insert_Some in Ht' as [(<- & <- & _)|[Hne Ht']]; [done|].
  unfold submitted. destruct (who (loc th')) as [|c'|] eqn:E; try done.
  destruct (Z.eqb_spec c' c); [|done]. subst c'. destruct Hne.
  apply (same_person m t th t' th'); try done. congruence.
Qed.

Lemma customer_exists m c :
  bar_inv m → 0 ≤ c < NCUSTOMERS → ∃ t th, threads m !! t = Some th ∧ who (loc th) = Customer c.
Proof.
  intros Hinv Hc.
  assert (Customer c ∈ map (λ th, who (loc th)) (threads m)) as Hin.
  { rewrite (bi_people m Hinv). unfold people. right. apply elem_of_app. right.
    apply list_elem_of_fmap. exists c. split; [done|]. apply elem_of_seqZ. lia. }
  apply list_elem_of_fmap in Hin as (th & E & (t & Ht)%list_elem_of_lookup). eauto.
Qed.

(** While a customer has not submitted its order, nobody else has to do with it. *)
Lemma token_none m c t th :
  bar_inv m → threads m !! t = Some th → who (loc th) = Customer c → 0 ≤ c < NCUSTOMERS →
  submitted c th = false →
  count_of (done_sem c) m = 0 ∧ (c ∉ line (glob m)) ∧
  ∀ t' th', threads m !! t' = Some th' → holds c th' = false.
Proof.
  intros Hinv Ht Hw Hc Hs. pose proof (law_token m c Hinv Hc) as Hl.
  rewrite (submitted_le m c t th Hinv Ht Hw), Hs in Hl.
  pose proof (bar_count_nonneg m (done_sem c) Hinv). pose proof (occ_nonneg c (line (glob m))).
  assert (0 ≤ total (λ th, b2z (holds c th)) (threads m)) as Hh
    by (apply total_nonneg; intros; apply b2z_nonneg). cbn in Hl.
  split_and!; [lia| |].
  - intros Hin%occ_elem. lia.
  - intros t' th' Ht'. destruct (holds c th') eqn:E; [|done].
    pose proof (total_ge (λ th, b2z (holds c th)) (threads m) t' th' (λ _ _ _, b2z_nonneg _) Ht') as Hge.
    cbn in Hge. rewrite E in Hge. cbn in Hge. lia.
Qed.

(** While a bartender works on an order, nobody else does, and its customer waits. *)
Lemma token_held m c t th :
  bar_inv m → threads m !! t = Some th → holds c th = true → 0 ≤ c < NCUSTOMERS →
  count_of (done_sem c) m = 0 ∧ (c ∉ line (glob m)) ∧
  (∀ t' th', t' ≠ t → threads m !! t' = Some th' → holds c th' = false) ∧
  (∀ t' th', threads m !! t' = Some th' → who (loc th') = Customer c → submitted c th' = true).
Proof.
  intros Hinv Ht Hh Hc. pose proof (law_token m c Hinv Hc) as Hl.
  pose proof (bar_count_nonneg m (done_sem c) Hinv). pose proof (occ_nonneg c (line (glob m))).
  pose proof (total_ge (λ th, b2z (holds c th)) (threads m) t th (λ _ _ _, b2z_nonneg _) Ht) as Hge.
  cbn in Hge. rewrite Hh in Hge. cbn in Hge.
  destruct (customer_exists m c Hinv Hc) as (t0 & th0 & Ht0 & Hw0).
  rewrite (submitted_le m c t0 th0 Hinv Ht0 Hw0) in Hl.
  assert (b2z (submitted c th0) ≤ 1) by (by destruct (submitted c th0)).
  split_and!; [lia| | |].
  - intros Hin%occ_elem. lia.
  - intros t' th' Hne Ht'. destruct (holds c th') eqn:E; [|done].
    pose proof (total_ge2 (λ th, b2z (holds c th)) (threads m) t' t th' th (λ _ _ _, b2z_nonneg _) Hne Ht' Ht) as H2.
    cbn in H2. rewrite E, Hh in H2. cbn in H2. lia.
  - intros t' th' Ht' Hw'.
    assert (t0 = t') as -> by (apply (same_person m _ th0 _ th'); try done; congruence).
    assert (th0 = th') as -> by congruence. destruct (submitted c th'); [done|]. cbn in Hl. lia.
Qed.

(** Only one thread is between [P(queue_mutex)] and [V(queue_mutex)]. *)
Lemma queue_alone m t th t' th' :
  bar_inv m → threads m !! t = Some th → in_queue th = true →
  t' ≠ t → threads m !! t' = Some th' → in_queue th' = false.
Proof.
  intros Hinv Ht Hq Hne Ht'. destruct (in_queue th') eqn:E; [|done].
  pose proof (bi_laws m Hinv LMutex I) as Hl.
  change (weight LMutex) with (λ th : thread, b2z (in_queue th)) in Hl. cbn in Hl. pose proof (bar_count_nonneg m queue_mutex Hinv).
  pose proof (total_ge2 (λ th, b2z (in_queue th)) (threads m) t' t th' th (λ _ _ _, b2z_nonneg _) Hne Ht' Ht) as H2.
  cbn in H2. rewrite E, Hq in H2. cbn in H2. lia.
Qed.

(** Only one bartender has a bottle. *)
Lemma bottle_alone m b t th t' th' :
  bar_inv m → 1 ≤ b ≤ NBOTTLES → threads m !! t = Some th → threads m !! t' = Some th' → t' ≠ t →
  b ∈ bottles_held th → b ∉ bottles_held th'.
Proof.
  intros Hinv Hb Ht Ht' Hne H%occ_elem H'%occ_elem. pose proof (bi_laws m Hinv (LBottle b) Hb) as Hl.
  change (weight (LBottle b)) with (λ th : thread, occ b (bottles_held th)) in Hl. cbn in Hl.
  pose proof (bar_count_nonneg m (bottle_mutex b) Hinv).
  pose proof (total_ge2 (λ th, occ b (bottles_held th)) (threads m) t' t th' th (λ _ _ _, occ_nonneg _ _) Hne Ht' Ht).
  cbn in *. lia.
Qed.

(** ** Preservation: the general argument *)

Lemma bar_thread_ok_same g th th' :
  thread_ok g th → prog th' = prog th → pc th' = pc th → loc th' = loc th → thread_ok g th'.
Proof. destruct th, th'; simpl. intros H -> -> ->. by destruct H. Qed.

Lemma weight_stable k : stable (weight k).
Proof. by destruct k. Qed.

(** The other threads keep what they know. *)
Definition others_ok m m' (t : nat) : Prop :=
  ∀ t' th', t' ≠ t → threads m !! t' = Some th' → thread_ok (glob m) th' → thread_ok (glob m') th'.

(** The count of home-goers, given what the other threads contribute. *)
Definition home_step m m' th th' : Prop :=
  ∀ H D, 0 ≤ D → (counting th = true → D = 0) →
    H + b2z (home th) = b2z ((customers (glob m) =? 0) && (D + b2z (deciding th) =? 0)) →
    H + b2z (home th') = b2z ((customers (glob m') =? 0) && (D + b2z (deciding th') =? 0)).

(** Only the thread with the lock decides. *)
Lemma deciding_alone m t th :
  bar_inv m → threads m !! t = Some th → counting th = true →
  total (λ th, b2z (deciding th)) (threads m) - b2z (deciding th) = 0.
Proof.
  intros Hinv Ht Hc.
  pose proof (total_insert (λ th, b2z (deciding th)) (threads m) t th
    (Thr [] 0 false (BarLoc Host 0 0 0 0 0 0 [])) Ht) as Hi. cbn in Hi.
  rewrite (total_zero _ (<[t := _]> (threads m))) in Hi; [lia|]. intros t' th' Ht'.
  apply list_lookup_insert_Some in Ht' as [(<- & <- & _)|[Hne Ht']]; [done|].
  destruct (deciding th') eqn:E; [|done]. destruct Hne.
  apply (guarded_unique _ _ m _ th _ th' (bi_lock m Hinv)); try done.
  unfold deciding in E. unfold counting. apply andb_true_iff in E as [-> E].
  revert E. generalize (pc th'). intros p E. by do 22 (try destruct p as [|p]).
Qed.

Lemma bar_inv_move m m' f target t th :
  bar_inv m → sync_ok m' → threads m !! t = Some th →
  threads m' = wake resume target (update f t (threads m)) →
  length (sems m') = length (sems m) → length (locks m') = length (locks m) →
  (∀ k, law_valid k → stock k m' + weight k (f th) = stock k m + weight k th) →
  (counting (f th) = true → counting th = true ∨ holder cust_lock m = None) →
  holder cust_lock m' = (if counting (f th) then Some t else if counting th then None else holder cust_lock m) →
  home_step m m' th (f th) →
  glob_ok (glob m') →
  (∀ c, 0 ≤ c < NCUSTOMERS → 0 < count_of (done_sem c) m' →
    ∃ o, zget (orders (glob m')) c = Some o ∧ contents o = recipe c) →
  who (loc (f th)) = who (loc th) → thread_ok (glob m') (f th) → others_ok m m' t →
  bar_inv m'.
Proof.
  intros Hinv Hsync Ht Hths Hs Hl Hlaw Hin Hh Hhome Hg Hserved Hw Hok Hoth.
  constructor; try done; rewrite ?Hths.
  - unfold zlen. rewrite Hs. apply (bi_sems m Hinv).
  - intros k Hk. pose proof (total_step (weight k) f target t th (threads m) (weight_stable k) Ht).
    pose proof (bi_laws m Hinv k Hk). specialize (Hlaw k Hk). lia.
  - exact (guarded_move cust_lock counting m m' f target t th ltac:(done) (bi_lock m Hinv) Ht Hths Hl Hin Hh).
  - pose proof (total_step (λ th, b2z (home th)) f target t th (threads m) ltac:(done) Ht) as E1.
    pose proof (total_step (λ th, b2z (deciding th)) f target t th (threads m) ltac:(done) Ht) as E2.
    cbn beta in E1, E2.
    pose proof (total_ge (λ th, b2z (deciding th)) (threads m) t th (λ _ _ _, b2z_nonneg _) Ht) as H2.
    pose proof (bi_home m Hinv) as H0. cbn beta in *.
    set (H := total (λ th, b2z (home th)) (threads m)) in *.
    set (D := total (λ th, b2z (deciding th)) (threads m)) in *.
    specialize (Hhome (H - b2z (home th)) (D - b2z (deciding th)) ltac:(lia) (deciding_alone m t th Hinv Ht)).
    rewrite !Z.sub_add in Hhome. specialize (Hhome H0).
    replace (total (λ th0, b2z (deciding th0)) (wake resume target (update f t (threads m))))
      with (D - b2z (deciding th) + b2z (deciding (f th))) by lia. lia.
  - rewrite <-(bi_people m Hinv). by apply (map_step (λ th, who (loc th)) f target t th).
  - intros t' th' Ht'.
    destruct (lookup_step _ _ _ _ _ _ _ Ht Ht') as (th0 & ? & ? & ? & Hth0).
    apply bar_thread_ok_same with th0; try done. case_decide as Hd; [by subst|].
    apply (Hoth t' th0 Hd Hth0). by apply (bi_threads m Hinv t').
Qed.

(** *** What the other threads know *)

Lemma queue_ok_out g th : in_queue th = false → queue_ok g th.
Proof.
  unfold in_queue, queue_ok, ordering, serving, is_customer, is_bartender.
  destruct (who (loc th)); [done| |]; generalize (pc th); intros p H;
    do 30 (try destruct p as [|p]); done.
Qed.

Definition is_host th : bool := match who (loc th) with Host => true | _ => false end.

Lemma staff_total m : bar_inv m → total (λ th, b2z (negb (is_host th))) (threads m) = NCUSTOMERS + NBARTENDERS.
Proof.
  intros Hinv.
  set (f := λ p, b2z (match p with Host => false | _ => true end)).
  transitivity (total f (map (λ th, who (loc th)) (threads m))).
  { rewrite total_map. apply total_ext. intros k x _. unfold f, is_host. by destruct (who (loc x)). }
  rewrite (bi_people m Hinv). unfold people. simpl. rewrite total_app, !total_map. unfold f. cbn.
  rewrite !total_const. unfold zlen. rewrite !length_seqZ. lia.
Qed.

Lemma law_alldone m :
  bar_inv m →
  count_of alldone m + total waited (threads m) = total (λ th, b2z (signalled th)) (threads m).
Proof.
  intros Hinv. pose proof (bi_laws m Hinv LAlldone I) as Hl.
  change (weight LAlldone) with (λ th : thread, waited th - b2z (signalled th)) in Hl.
  rewrite (total_sub waited (λ th, b2z (signalled th))) in Hl. cbn in Hl. lia.
Qed.

Lemma waited_nonneg m t th : bar_inv m → threads m !! t = Some th → 0 ≤ waited th.
Proof.
  intros Hinv Ht. destruct (bi_threads m Hinv t th Ht) as [_ Hl _ _ _ _].
  unfold waited, local_ok in *. destruct (who (loc th)); try done.
  revert Hl. generalize (pc th). intros p Hl. do 9 (try destruct p as [|p]); cbn in *; lia.
Qed.

(** [run_bar] is past its waiting loop only when everybody has gone. *)
Lemma host_waiting m t th t' th' :
  bar_inv m → threads m !! t = Some th → is_host th = false → signalled th = false →
  threads m !! t' = Some th' → who (loc th') = Host → (pc th' < 5)%nat.
Proof.
  intros Hinv Ht Hh Hs Ht' Hw. destruct (decide (pc th' < 5)%nat) as [|Hp]; [done|exfalso].
  assert (waited th' = NCUSTOMERS + NBARTENDERS) as Hwt.
  { unfold waited. rewrite Hw. destruct (pc th') as [|[|[|[|[|p]]]]]; done || lia. }
  pose proof (total_ge waited (threads m) t' th' (λ k x, waited_nonneg m k x Hinv) Ht') as Hge.
  pose proof (law_alldone m Hinv). pose proof (bar_count_nonneg m alldone Hinv).
  pose proof (staff_total m Hinv) as Hst.
  assert (total (λ th, b2z (signalled th)) (threads m) + 1 ≤ total (λ th, b2z (negb (is_host th))) (threads m)); [|lia].
  pose proof (total_less (λ th, b2z (signalled th)) (λ th, b2z (negb (is_host th))) (threads m) t th) as Hlt.
  cbn beta in Hlt. rewrite Hh, Hs in Hlt. cbn in Hlt. specialize (Hlt ltac:(
    intros k x _; unfold signalled, is_host; destruct (who (loc x)); cbn -[Nat.leb]; [done|..];
    match goal with |- context [b2z ?b] => by destruct b end) Ht). lia.
Qed.

Lemma customers_total m : bar_inv m → total (λ th, b2z (is_customer th)) (threads m) = NCUSTOMERS.
Proof.
  intros Hinv.
  set (f := λ p, b2z (match p with Customer _ => true | _ => false end)).
  transitivity (total f (map (λ th, who (loc th)) (threads m))); [by rewrite total_map|].
  rewrite (bi_people m Hinv). unfold people. simpl. rewrite total_app, !total_map. unfold f. cbn.
  rewrite total_const. rewrite (total_zero _ (seqZ 0 NBARTENDERS)) by done. unfold zlen. rewrite length_seqZ. lia.
Qed.

(** Somebody who has not left is counted. *)
Lemma customers_pos m t th :
  bar_inv m → threads m !! t = Some th → is_customer th = true → has_left th = false → 0 < customers (glob m).
Proof.
  intros Hinv Ht Hc Hl. pose proof (bi_laws m Hinv LCustomers I) as Hlaw. cbn [stock balance] in Hlaw.
  change (weight LCustomers) with (λ th : thread, b2z (has_left th)) in Hlaw.
  pose proof (customers_total m Hinv) as Ht1.
  pose proof (total_less (λ th, b2z (has_left th)) (λ th, b2z (is_customer th)) (threads m) t th) as Hlt.
  cbn beta in Hlt. rewrite Hc, Hl in Hlt. cbn in Hlt.
  specialize (Hlt ltac:(intros k x _; unfold has_left; by destruct (is_customer x), (19 <=? pc x)%nat) Ht). lia.
Qed.

(** Nothing but the queue changes. *)
Lemma others_queue m m' t th :
  bar_inv m → threads m !! t = Some th → in_queue th = true →
  orders (glob m') = orders (glob m) → bottles (glob m') = bottles (glob m) →
  customers (glob m') = customers (glob m) → others_ok m m' t.
Proof.
  intros Hinv Ht Hq Eo Eb Ec t' th' Hne Ht' [H1 H2 _ H4 H5 H6].
  split; rewrite ?Eo, ?Eb, ?Ec; try done. apply queue_ok_out. by apply (queue_alone m t th t').
Qed.

(** Nothing changes. *)
Lemma others_same m m' t : glob m' = glob m → others_ok m m' t.
Proof. intros E t' th' _ _. by rewrite E. Qed.

(** Nothing but the number of customers changes. *)
Lemma others_customers m m' t th n :
  bar_inv m → threads m !! t = Some th → counting th = true → glob m' = set_customers n (glob m) →
  others_ok m m' t.
Proof.
  intros Hinv Ht Hc E t' th' Hne Ht' [H1 H2 H3 H4 H5 H6]. rewrite E. split; try done.
  assert (counting th' = false) as Hc'.
  { destruct (counting th') eqn:Hc'; [|done]. destruct Hne.
    by apply (guarded_unique _ _ m _ th' _ th (bi_lock m Hinv)). }
  unfold count_ok, counting, is_customer in *. destruct (who (loc th')); try done.
  revert Hc'. generalize (pc th'). intros p Hc'. by do 21 (try destruct p as [|p]).
Qed.

(** Nothing but the orders change. *)
Lemma others_orders m m' t os :
  glob m' = set_orders os (glob m) →
  (∀ t' th', t' ≠ t → threads m !! t' = Some th' → order_ok (orders (glob m)) th' → order_ok os th') →
  others_ok m m' t.
Proof.
  intros E Ho t' th' Hne Ht' [H1 H2 H3 H4 H5 H6]. rewrite E. split; try done.
  by apply (Ho t').
Qed.

(** A bottle that is about to be counted is held. *)
Lemma bottle_21 m t th :
  bar_inv m → threads m !! t = Some th → is_bartender th = true → pc th = 21%nat →
  1 ≤ bottle (loc th) ≤ NBOTTLES ∧ bottle (loc th) ∈ bottles_held th.
Proof.
  intros Hinv Ht Hb Hp. destruct (bi_threads m Hinv t th Ht) as [_ Hl _ _ _ _].
  unfold local_ok in Hl. unfold is_bartender in Hb. destruct (who (loc th)) eqn:Hw; try done.
  rewrite Hp in Hl. destruct Hl as (Ho & Hj & Hz & Hn). pose proof (recipe_spec _ Ho) as [Hlen Hr _].
  pose proof (Hr _ _ Hz). split; [lia|]. unfold bottles_held, got, is_bartender. rewrite Hw, Hp. cbn.
  rewrite take_ge by (unfold zlen, DRINK_COMPLEXITY in *; lia).
  unfold zget in Hz. destruct (decide _); [|done]. by apply list_elem_of_lookup_2 in Hz.
Qed.

(** Nothing but the doses of a bottle change. *)
Lemma others_dose m m' t th d :
  bar_inv m → threads m !! t = Some th → is_bartender th = true → pc th = 21%nat →
  glob m' = set_bottles (zset (bottles (glob m)) (bottle (loc th) - 1) d) (glob m) → others_ok m m' t.
Proof.
  intros Hinv Ht Hb Hp E t' th' Hne Ht' [H1 H2 H3 H4 H5 H6]. rewrite E. split; try done.
  destruct (bottle_21 m t th Hinv Ht Hb Hp) as [Hr Hin]. unfold dose_ok in *. cbn.
  destruct (who (loc th')) eqn:Hw; [|done|].
  - assert (pc th' < 5)%nat as Hp'.
    { unfold is_bartender in Hb. apply (host_waiting m t th t' th'); try done.
      - unfold is_host. by destruct (who (loc th)).
      - unfold signalled. rewrite Hp. by destruct (who (loc th)). }
    by destruct (pc th') as [|[|[|[|[|p]]]]]; try lia.
  - intros Hp'. specialize (H5 Hp').
    destruct (bottle_21 m t' th' Hinv Ht' ltac:(unfold is_bartender; by rewrite Hw) Hp') as [Hr' Hin'].
    rewrite zget_zset_ne; [done|]. intros Eb.
    apply (bottle_alone m (bottle (loc th)) t th t' th' Hinv Hr Ht Ht' Hne Hin).
    by replace (bottle (loc th)) with (bottle (loc th')) by lia.
Qed.

(** *** Changes of an order *)

(** A bartender with an order of a customer works on it until it is served. *)
Lemma bar_holding m t th n :
  bar_inv m → threads m !! t = Some th → who (loc th) = Bartender n →
  (5 ≤ pc th)%nat → pc th ≠ 35%nat → ord (loc th) ≠ NCUSTOMERS → holds (ord (loc th)) th = true.
Proof.
  intros Hinv Ht Hw Hp Hp35 Ho. destruct (bi_threads m Hinv t th Ht) as [_ Hl _ _ _ _].
  unfold local_ok in Hl. rewrite Hw in Hl.
  unfold holds, serving, is_bartender. rewrite Hw, Z.eqb_refl, andb_true_r. cbn.
  revert Hl Hp Hp35. generalize (pc th). intros p Hl Hp Hp35.
  do 40 (try destruct p as [|p]); try done; try lia; by destruct Hl.
Qed.

(** An order that is neither in the queue nor served. *)
Lemma line_served_other m c o' :
  bar_inv m → c ∉ line (glob m) → count_of (done_sem c) m = 0 →
  Forall (line_ok (zset (orders (glob m)) c o')) (line (glob m)) ∧
  (∀ x, 0 ≤ x < NCUSTOMERS → 0 < count_of (done_sem x) m →
    ∃ o, zget (zset (orders (glob m)) c o') x = Some o ∧ contents o = recipe x).
Proof.
  intros Hinv Hline Hn. split.
  - apply Forall_forall. intros x Hx.
    destruct (proj1 (Forall_forall _ _) (go_line _ (bi_glob m Hinv)) x Hx) as (Hr & o & Hz & Ho).
    split; [done|]. exists o. rewrite zget_zset_ne; [done|]. by intros ->.
  - intros x Hx Hpos. destruct (bi_served m Hinv x Hx Hpos) as (o & Hz & Ho). exists o.
    rewrite zget_zset_ne; [done|]. intros ->. lia.
Qed.

(** A customer changes its own order while nobody else has to do with it. *)
Lemma order_own m t th c o' :
  bar_inv m → threads m !! t = Some th → who (loc th) = Customer c → 0 ≤ c < NCUSTOMERS →
  submitted c th = false →
  (∀ t' th', t' ≠ t → threads m !! t' = Some th' → order_ok (orders (glob m)) th' →
     order_ok (zset (orders (glob m)) c o') th') ∧
  Forall (line_ok (zset (orders (glob m)) c o')) (line (glob m)) ∧
  (∀ x, 0 ≤ x < NCUSTOMERS → 0 < count_of (done_sem x) m →
    ∃ o, zget (zset (orders (glob m)) c o') x = Some o ∧ contents o = recipe x).
Proof.
  intros Hinv Ht Hw Hc Hs. destruct (token_none m c t th Hinv Ht Hw Hc Hs) as (Hn & Hline & Hh).
  split; [|by apply line_served_other].
  intros t' th' Hne Ht' Ho. unfold order_ok in *. destruct (who (loc th')) as [|c'|n] eqn:Hw'; [done|..].
  - assert (c' ≠ c). { intros ->. destruct Hne. apply (same_person m t' th' t th); try done. congruence. }
    by rewrite !zget_zset_ne by lia.
  - intros Hp. destruct (Ho Hp) as (o & Hz & Hb). destruct (decide (ord (loc th') = c)) as [E|E];
      [|rewrite zget_zset_ne by done; eauto].
    rewrite E in *. rewrite zget_zset_eq by (eapply zget_Some_range; done).
    eexists. split; [done|]. intros Hp35. specialize (Hh t' th' Ht').
    rewrite <-E in Hh.
    by rewrite (bar_holding m t' th' n) in Hh by (done || lia).
Qed.

(** A bartender changes the request or the glass of the order it works on. *)
Lemma order_held m t th c o o' :
  bar_inv m → threads m !! t = Some th → holds c th = true → 0 ≤ c < NCUSTOMERS →
  zget (orders (glob m)) c = Some o →
  go_home_flag o' = go_home_flag o → order_done o' = order_done o → is_semaphore_init o' = is_semaphore_init o →
  (∀ t' th', t' ≠ t → threads m !! t' = Some th' → order_ok (orders (glob m)) th' →
     order_ok (zset (orders (glob m)) c o') th') ∧
  Forall (line_ok (zset (orders (glob m)) c o')) (line (glob m)) ∧
  (∀ x, 0 ≤ x < NCUSTOMERS → 0 < count_of (done_sem x) m →
    ∃ o, zget (zset (orders (glob m)) c o') x = Some o ∧ contents o = recipe x).
Proof.
  intros Hinv Ht Hh Hc Hz Ef Ed Ei. destruct (token_held m c t th Hinv Ht Hh Hc) as (Hn & Hline & Hoth & Hsub).
  pose proof (zget_Some_range _ _ _ Hz) as Hrange. split; [|by apply line_served_other].
  intros t' th' Hne Ht' Ho. unfold order_ok in *. destruct (who (loc th')) as [|c'|n] eqn:Hw'; [done|..].
  - destruct Ho as [Ho Hg]. rewrite (zget_zset_ne _ c NCUSTOMERS) by lia. split; [|done].
    destruct (decide (c' = c)) as [->|]; [|by rewrite zget_zset_ne by done].
    destruct Ho as (o1 & Hz1 & Ho). rewrite Hz in Hz1. injection Hz1 as <-.
    rewrite zget_zset_eq by done. eexists. split; [done|].
    specialize (Hsub t' th' Ht' Hw'). unfold submitted in Hsub. rewrite Hw' in Hsub.
    apply andb_true_iff in Hsub as [_ Hp]. revert Ho Hp. generalize (pc th'). intros p Ho Hp.
    do 14 (try destruct p as [|p]); try done; unfold customer_order, ready_order in *; by rewrite Ef, Ed, Ei.
  - intros Hp. destruct (Ho Hp) as (o1 & Hz1 & Hb). destruct (decide (ord (loc th') = c)) as [E|E];
      [|rewrite zget_zset_ne by done; eauto].
    rewrite E in *. rewrite zget_zset_eq by done. eexists. split; [done|]. intros Hp35.
    specialize (Hoth t' th' Hne Ht'). rewrite <-E in Hoth.
    by rewrite (bar_holding m t' th' n) in Hoth by (done || lia).
Qed.

(** The order that sends the bartenders home keeps its flag. *)
Lemma order_home m t o' :
  bar_inv m → go_home_flag o' ≠ 0 →
  (∀ t' th', t' ≠ t → threads m !! t' = Some th' → order_ok (orders (glob m)) th' →
     order_ok (zset (orders (glob m)) NCUSTOMERS o') th') ∧
  Forall (line_ok (zset (orders (glob m)) NCUSTOMERS o')) (line (glob m)) ∧
  (∀ x, 0 ≤ x < NCUSTOMERS → 0 < count_of (done_sem x) m →
    ∃ o, zget (zset (orders (glob m)) NCUSTOMERS o') x = Some o ∧ contents o = recipe x).
Proof.
  intros Hinv Hf. pose proof (go_orders _ (bi_glob m Hinv)) as Hlen.
  assert (zget (zset (orders (glob m)) NCUSTOMERS o') NCUSTOMERS = Some o') as Hnew
    by (apply zget_zset_eq; lia).
  split_and!.
  - intros t' th' Hne Ht' Ho. unfold order_ok in *.
    pose proof (to_local _ _ (bi_threads m Hinv t' th' Ht')) as Hl. unfold local_ok in Hl.
    destruct (who (loc th')) as [|c'|n] eqn:Hw'; [done|..].
    + destruct Ho as [Ho Hg]. rewrite zget_zset_ne by lia. split; [done|]. intros _. by exists o'.
    + intros Hp. destruct (Ho Hp) as (o1 & Hz1 & Hb). destruct (decide (ord (loc th') = NCUSTOMERS)) as [E|E];
        [|rewrite zget_zset_ne by done; eauto].
      rewrite E. exists o'. split; [done|]. intros Hp35. rewrite E in Hl. revert Hl Hp. generalize (pc th').
      intros p Hl Hp. unfold bartender_order. rewrite Z.ltb_irrefl.
      do 36 (try destruct p as [|p]); cbn; try done; lia.
  - apply Forall_forall. intros x Hx.
    destruct (proj1 (Forall_forall _ _) (go_line _ (bi_glob m Hinv)) x Hx) as (Hr & o & Hz & Ho).
    split; [done|]. destruct (decide (x = NCUSTOMERS)) as [->|]; [|rewrite zget_zset_ne by done; eauto].
    exists o'. by rewrite Z.ltb_irrefl.
  - intros x Hx Hpos. rewrite zget_zset_ne by lia. by apply bi_served.
Qed.

(** *** The queue *)

Lemma zget_tail {A} (x : A) (xs : list A) k : 0 ≤ k → zget (x :: xs) (k + 1) = zget xs k.
Proof. intros Hk. rewrite zget_cons by lia. f_equal. lia. Qed.

Lemma bar_put_ok g x :
  queue_inv g → zlen (line g) < QUEUE_SIZE NBARTENDERS →
  let q := zset (queue_bar_order g) (queue_rear g) x in
  zput (queue_bar_order g) (queue_rear g) x = Ok q ∧ zget q (queue_rear g) = Some x ∧ queue_inv (set_queue q g).
Proof.
  intros [Hl Hf Hr Hre Hs] Hq. unfold QUEUE_SIZE in *.
  assert (0 ≤ queue_rear g < zlen (queue_bar_order g)) as Hrr.
  { rewrite Hre, Hl. apply Z.mod_pos_bound. lia. }
  split_and!.
  - unfold zput. by rewrite decide_True.
  - by apply zget_zset_eq.
  - split; unfold QUEUE_SIZE in *; cbn; rewrite ?zlen_zset; try done. intros k y Hk. rewrite zget_zset_ne; [by apply Hs|].
    rewrite Hre. apply not_eq_sym, mod_distinct; [|done]. by apply zget_Some_range in Hk.
Qed.

Lemma bar_push_ok g x :
  queue_inv g → zlen (line g) < QUEUE_SIZE NBARTENDERS → zget (queue_bar_order g) (queue_rear g) = Some x →
  queue_inv (set_rear (Z.rem (queue_rear g + 1) (QUEUE_SIZE NBARTENDERS)) (line g ++ [x]) g).
Proof.
  intros [Hl Hf Hr Hre Hs] Hq Hx. unfold QUEUE_SIZE in *. pose proof (zlen_nonneg (line g)).
  assert (0 ≤ queue_rear g) by (rewrite Hre; apply Z.mod_pos_bound; lia).
  split; unfold QUEUE_SIZE in *; cbn; rewrite ?zlen_app, ?zlen_singleton; try done.
  - lia.
  - rewrite Z.rem_mod_nonneg by lia. rewrite Hre, Zplus_mod_idemp_l. f_equal. lia.
  - intros k y Hk. destruct (decide (k < zlen (line g))).
    + rewrite zget_app_l in Hk by done. by apply Hs.
    + pose proof (zget_Some_range _ _ _ Hk) as Hkr. rewrite zlen_app, zlen_singleton in Hkr.
      assert (k = zlen (line g)) as -> by lia.
      rewrite zget_app_r, Z.sub_diag in Hk by lia. injection Hk as <-. by rewrite <-Hre.
Qed.

Lemma head_slot g x : queue_inv g → head (line g) = Some x → zget (queue_bar_order g) (queue_front g) = Some x.
Proof.
  intros [Hl Hf Hr Hre Hs] Hx. destruct (line g) as [|y l]; [done|]. injection Hx as ->.
  specialize (Hs 0 x eq_refl). by rewrite Z.add_0_r, Z.mod_small in Hs by done.
Qed.

Lemma bar_pop_ok g x :
  queue_inv g → head (line g) = Some x →
  queue_inv (set_front (Z.rem (queue_front g + 1) (QUEUE_SIZE NBARTENDERS)) (tail (line g)) g).
Proof.
  intros [Hl Hf Hr Hre Hs] Hx. destruct (line g) as [|y l]; [done|]. unfold QUEUE_SIZE in *.
  rewrite Z.rem_mod_nonneg by lia.
  split; unfold QUEUE_SIZE in *; cbn; try done.
  - apply Z.mod_pos_bound. lia.
  - unfold zlen in *. simpl in *. lia.
  - rewrite Hre, Zplus_mod_idemp_l. unfold zlen. simpl. f_equal. lia.
  - intros k z Hk. pose proof (zget_Some_range _ _ _ Hk). rewrite Zplus_mod_idemp_l.
    rewrite <-(Hs (k + 1) z) by (by rewrite zget_tail by lia). do 2 f_equal. lia.
Qed.

(** A thread that has taken a unit of [empty] finds room, one that has taken a
    unit of [full] finds an order. *)
Lemma bar_owner_room m t th :
  bar_inv m → threads m !! t = Some th → owns_empty th = true →
  zlen (line (glob m)) < QUEUE_SIZE NBARTENDERS.
Proof.
  intros Hinv Ht Ho. pose proof (bi_laws m Hinv LEmpty I) as Hl. cbn [stock balance] in Hl.
  pose proof (bar_count_nonneg m empty Hinv).
  assert (1 ≤ total (weight LEmpty) (threads m)); [|lia].
  assert (∀ k x, threads m !! k = Some x → 0 ≤ weight LEmpty x) as Hw.
  { intros k x _. cbn. pose proof (b2z_nonneg (owns_empty x)). pose proof (b2z_nonneg (freed x)). lia. }
  pose proof (total_ge _ _ _ _ Hw Ht) as Hge. cbn [weight] in Hge. rewrite Ho in Hge.
  pose proof (b2z_nonneg (freed th)). cbn in Hge. cbn [b2z] in *. lia.
Qed.

Lemma owner_order m t th :
  bar_inv m → threads m !! t = Some th → owns_full th = true →
  ∃ x, head (line (glob m)) = Some x.
Proof.
  intros Hinv Ht Ho. pose proof (bi_laws m Hinv LFull I) as Hl. cbn [stock balance] in Hl.
  pose proof (bar_count_nonneg m full Hinv).
  assert (1 ≤ total (weight LFull) (threads m)).
  { assert (∀ k x, threads m !! k = Some x → 0 ≤ weight LFull x) as Hw.
    { intros k x _. cbn. pose proof (b2z_nonneg (filled x)). pose proof (b2z_nonneg (owns_full x)). lia. }
    pose proof (total_ge _ _ _ _ Hw Ht) as Hge. cbn [weight] in Hge. rewrite Ho in Hge.
    pose proof (b2z_nonneg (filled th)). cbn [b2z] in *. lia. }
  destruct (line (glob m)) as [|x l]; [change (zlen []) with 0 in Hl; lia|by exists x].
Qed.

(** The counts of the semaphores stay small, so that [V] does not overflow. *)
Lemma bar_count_put m s sem s' g ls cs ths :
  is_Some (sems m !! s) →
  count_of s' (Machine g (<[s := sem]> (sems m)) ls cs ths) = if decide (s' = s) then sem_count sem else count_of s' m.
Proof.
  intros Hs%lookup_lt_is_Some. unfold count_of. simpl. case_decide as Hd.
  - subst. by rewrite list_lookup_insert_eq.
  - by rewrite list_lookup_insert_ne.
Qed.

Lemma bar_sem_V_count m s sem :
  bar_inv m → sems m !! s = Some sem → 0 < u32 (sem_count sem + 1) →
  u32 (sem_count sem + 1) = sem_count sem + 1.
Proof.
  intros Hinv Hs Hu. pose proof (sem_count_range m _ _ (bi_sync m Hinv) Hs).
  destruct (decide (sem_count sem = two32 - 1)) as [E|]; [|apply u32_id; width].
  rewrite E in Hu. by vm_compute in Hu.
Qed.

Lemma glob_put g x :
  glob_ok g → zlen (line g) < QUEUE_SIZE NBARTENDERS →
  glob_ok (set_queue (zset (queue_bar_order g) (queue_rear g) x) g).
Proof. intros [] Hr. split; try done. by apply bar_put_ok. Qed.

Lemma glob_push g x :
  glob_ok g → zlen (line g) < QUEUE_SIZE NBARTENDERS → zget (queue_bar_order g) (queue_rear g) = Some x →
  line_ok (orders g) x →
  glob_ok (set_rear (Z.rem (queue_rear g + 1) (QUEUE_SIZE NBARTENDERS)) (line g ++ [x]) g).
Proof.
  intros [] Hr Hx Ho. split; try done; [by apply bar_push_ok|]. cbn. apply Forall_app. by rewrite Forall_singleton.
Qed.

Lemma glob_pop g x :
  glob_ok g → head (line g) = Some x →
  glob_ok (set_front (Z.rem (queue_front g + 1) (QUEUE_SIZE NBARTENDERS)) (tail (line g)) g).
Proof.
  intros [] Hx. split; try done; [by apply (bar_pop_ok g x)|]. cbn. destruct (line g); [done|].
  by apply Forall_cons in go_line0 as [_ ?].
Qed.

Lemma glob_order g x o :
  glob_ok g → Forall (line_ok (zset (orders g) x o)) (line g) → zlen (contents o) = DRINK_COMPLEXITY →
  glob_ok (set_orders (zset (orders g) x o) g).
Proof.
  intros [[] ] Hl Hc. split; try done; cbn; [by rewrite zlen_zset|].
  intros y o'. rewrite zget_zset. case_decide; [intros [= <-]; done|eauto].
Qed.

Lemma glob_dose g k d :
  glob_ok g → 0 ≤ d → glob_ok (set_bottles (zset (bottles g) k d) g).
Proof.
  intros [[] ] Hd. split; try done; cbn; [by rewrite zlen_zset|].
  intros y x. rewrite zget_zset. case_decide; [intros [= <-]; done|eauto].
Qed.

Lemma glob_customers g n : glob_ok g → glob_ok (set_customers n g).
Proof. by intros [[] ]. Qed.

(** *** Steps *)

#[local] Arguments occ : simpl never.
#[local] Arguments total : simpl never.
#[local] Arguments recipe : simpl never.
#[local] Arguments zlen : simpl never.
#[local] Arguments count_of : simpl never.
#[local] Arguments done_sem : simpl never.
#[local] Arguments bottle_mutex : simpl never.
#[local] Arguments customer : simpl never.
#[local] Arguments bartender : simpl never.
#[local] Arguments run_bar_wait : simpl never.
#[local] Arguments Z.mul : simpl never.
#[local] Arguments Z.add : simpl never.
#[local] Arguments Z.sub : simpl never.
#[local] Arguments Z.to_nat : simpl never.

Lemma holding_lock m t th :
  bar_inv m → threads m !! t = Some th →
  if counting th then holder cust_lock m = Some t else holder cust_lock m ≠ Some t.
Proof.
  intros Hinv Ht. rewrite (gu_crit _ _ m (bi_lock m Hinv) t th Ht). by case_bool_decide.
Qed.

(** The numbers of the semaphores are different. *)
Ltac sems_differ :=
  unfold queue_mutex, empty, full, alldone, bottle_mutex, done_sem, NBOTTLES in *; lia.

Ltac law_cases :=
  repeat match goal with |- context [?x =? ?y] => destruct (Z.eqb_spec x y) end; cbn; subst;
  first [lia | exfalso; sems_differ].

Ltac settle_law :=
  let k := fresh "k" in let Hk := fresh "Hk" in
  intros k Hk; destruct k; cbn in Hk; unfold stock, weight; cbn;
  rewrite ?bar_count_put by (eexists; eassumption);
  repeat (case_decide as Hd; [try (exfalso; sems_differ)|]); cbn;
  rewrite ?zlen_app, ?zlen_singleton, ?occ_app, ?occ_one, ?total_app, ?total_one, ?recipe_home, ?occ_nil;
  try reflexivity; try lia; try (unfold count_of; cbn; lia); try law_cases;
  try (unfold count_of, doses, sent_home, home; cbn; law_cases).

(** The change of another semaphore leaves the served orders alone. *)
Ltac settle_served :=
  let c := fresh "c" in let Hc := fresh "Hc" in
  intros c Hc; cbn; rewrite ?bar_count_put by (eexists; eassumption); cbn;
  repeat (case_decide as Hd; [exfalso; sems_differ|]);
  by apply bi_served.

Ltac bar_move f target :=
  match goal with
  | Hinv : bar_inv ?m, Hsync : sync_ok ?m', Ht : threads ?m !! ?t = Some ?th |- bar_inv ?m' =>
      apply (bar_inv_move m m' f target t th Hinv Hsync Ht);
      [ done
      | cbn; rewrite ?length_insert; done
      | cbn; rewrite ?length_insert; done
      | settle_law
      | cbn; try done; try (by intros _; left); try (intros _; right; congruence)
      | cbn; rewrite ?holder_insert by (eapply gu_lock, bi_lock; done); cbn; try done; try congruence
      | try (intros ????; unfold home; cbn; rewrite ?Z.eqb_refl; done)
      | try exact (bi_glob m Hinv)
      | first [exact (bi_served m Hinv) | try settle_served]
      | done
      | constructor; cbn; try done; try lia
      | try (by apply others_same) ]
  end.

Ltac bar_move_goal :=
  match goal with |- bar_inv (Machine _ _ _ _ (update ?f _ _)) => bar_move f (@None nat) end.

(** The next instruction, by its kind. *)
Ltac bar_instr He :=
  first
  [ eapply exec_P in He; [|done|done]; destruct He as (sem & Hs & [[Hc ->]|[Hc ->]]); cbn in Hs;
    match type of Hs with sems ?m !! ?s = _ =>
      assert (count_of s m = sem_count sem) as Hct by (unfold count_of; by rewrite Hs) end;
    [bar_move (@sleep bar_glob bar_loc) (@None nat)|bar_move (@next bar_glob bar_loc) (@None nat)]
  | eapply exec_V in He; [|done|done]; destruct He as (sem & Hs & Hu & ->); cbn in Hs;
    match type of Hs with sems ?m !! ?s = _ =>
      assert (count_of s m = sem_count sem) as Hct by (unfold count_of; by rewrite Hs) end;
    match goal with
    | Hi : bar_inv ?m, H : sems ?m !! ?s = Some ?sem, H0 : 0 < u32 (sem_count ?sem + 1) |- _ =>
        rewrite (bar_sem_V_count m s sem Hi H H0) in *;
        bar_move (@next bar_glob bar_loc) (wchan_wakeone (sem_wchan sem)).2
    end
  | eapply exec_Acq in He; [|done|done]; destruct He as (lk & Hlk & Hhl & [[Hs ->]|[Hs ->]]);
    pose proof (holder_lookup _ _ _ Hlk) as Hho;
    [bar_move (@sleep bar_glob bar_loc) (@None nat)|bar_move (@next bar_glob bar_loc) (@None nat)]
  | eapply exec_Rel in He; [|done|done]; destruct He as (lk & Hlk & Hhl & ->);
    bar_move (@next bar_glob bar_loc) (wchan_wakeone (lk_wchan lk)).2
  | eapply exec_Do in He; [|done|done]; let Hf := fresh "Hf" in destruct He as (g' & x' & Hf & ->); cbn in Hf;
    try (injection Hf as <- <-; bar_move_goal)
  | eapply exec_If in He; [|done|done]; rewrite He in *; clear He; cbn in *;
    try match goal with H : sync_ok (Machine _ _ _ _ (update (if ?b then _ else _) _ _)) |- _ =>
      destruct b eqn:Hb end;
    bar_move_goal
  | exfalso; eapply exec_finished in He; done ].

Lemma bar_inv_host t p s ii jj oo bb tt sp rp m m' :
  let th := Thr (run_bar_wait NCUSTOMERS NBARTENDERS) p s (BarLoc Host ii jj oo bb tt sp rp) in
  bar_inv m → threads m !! t = Some th → sync_ok m' → exec t m = Ok m' → bar_inv m'.
Proof.
  intros th Hinv Ht Hsync He. subst th. pose proof (holding_lock m t _ Hinv Ht) as Hh.
  destruct (bi_threads m Hinv t _ Ht) as [_ Hlo _ _ Hdo _]. cbn in Hh.
  do 9 (try destruct p as [|p]); cbn in Hlo, Hdo; bar_instr He.
  unfold print_bottle in Hf. cbn in Hf. destruct (zget _ ii) as [x|] eqn:Hx; [|done].
  injection Hf as <- <-. bar_move_goal. rewrite Hdo.
  replace (Z.to_nat (ii + 1)) with (S (Z.to_nat ii)) by lia. symmetry. apply take_S_r.
  unfold zget in Hx. by rewrite decide_True in Hx by lia.
Qed.

(** A customer's order, as far as the thread may rely on it. *)
Ltac settle_order :=
  split; [first [done | eexists; split; [eassumption|unfold queued_order, ready_order in *; tauto]]
         |intros; try done; eauto].

(** A customer that has not submitted its order changes it. *)
Ltac own_order Ht o' :=
  match goal with
  | Hinv : bar_inv ?m, Ho : zget (orders (glob ?m)) ?c = Some ?o |- _ =>
      let Hoth := fresh "Hoth" in let Hline := fresh "Hline" in let Hsrv := fresh "Hsrv" in
      destruct (order_own m _ _ c o' Hinv Ht eq_refl ltac:(assumption) ltac:(cbn; by rewrite ?andb_false_r))
        as (Hoth & Hline & Hsrv);
      pose proof (zget_zset_eq _ _ o' (zget_Some_range _ _ _ Ho)) as Hnew
  end.

(** [P(order->order_done)] serves no other order. *)
Ltac served_less :=
  let c := fresh "c" in let Hc := fresh "Hc" in let Hd := fresh "Hd" in
  intros c Hc; cbn; rewrite bar_count_put by (eexists; eassumption); case_decide as Hd; cbn;
  [intros; apply bi_served; try done; rewrite Hd; lia|by apply bi_served].

(** The goals that a change of the order leaves. *)
Ltac order_changed :=
  [> apply glob_order; [by eapply bi_glob|assumption|try done]
   | assumption
   | split; [eexists; split; [eassumption|]|try done]
   | eapply others_orders; [reflexivity|assumption] ].

Lemma bar_inv_ordering t p s c ii jj oo bb tt sp rp m m' :
  let th := Thr (customer NCUSTOMERS NBARTENDERS drink frame_reused) p s (BarLoc (Customer c) ii jj oo bb tt sp rp) in
  bar_inv m → threads m !! t = Some th → sync_ok m' → exec t m = Ok m' → (p < 16)%nat → bar_inv m'.
Proof.
  intros th Hinv Ht Hsync He Hp. subst th. pose proof (holding_lock m t _ Hinv Ht) as Hh.
  destruct (bi_threads m Hinv t _ Ht) as [_ [Hcc Hlo] Hqu [(o & Ho & Hor) _] _ _]. cbn in Hh, Hcc.
  pose proof (go_contents _ (bi_glob m Hinv) c o Ho) as Hcon.
  do 16 (try destruct p as [|p]); [..|lia]; clear Hp; cbn in Hlo, Hqu, Hor; destruct_and? Hlo; subst; bar_instr He;
    try (settle_order; fail).
  - own_order Ht (with_flag 0 o). unfold on_order in Hf. cbn in Hf. rewrite Ho in Hf. injection Hf as <- <-.
    bar_move_goal; order_changed. cbn. by auto.
  - own_order Ht (with_requested (drink c) o). unfold on_order in Hf. cbn in Hf. rewrite Ho in Hf. injection Hf as <- <-.
    bar_move_goal; order_changed. cbn. destruct Hor as [? [?|?]]; naive_solver.
  - set (o' := if (go_home_flag o =? 0) && (is_semaphore_init o =? 0) then with_done (done_sem c) o else o).
    own_order Ht o'. unfold create_done, on_order in Hf. cbn in Hf. rewrite Ho in Hf. cbn in Hf. fold o' in Hf.
    injection Hf as <- <-.
    bar_move_goal; order_changed.
    + unfold o'. by destruct (_ && _).
    + destruct Hor as (Hfl & Hini & Hrq). unfold o'. rewrite Hfl. cbn.
      destruct (Z.eqb_spec (is_semaphore_init o) 0); [by split|]. destruct Hini; [done|]. by split.
  - unfold put_order in Hf. cbn in Hf.
    destruct (bar_put_ok (glob m) c (go_queue _ (bi_glob m Hinv)) (bar_owner_room m t _ Hinv Ht eq_refl)) as (Hput & Hslot & _).
    rewrite Hput in Hf. injection Hf as <- <-. bar_move_goal.
    + apply glob_put; [apply bi_glob; done|]. by apply (bar_owner_room m t _ Hinv Ht).
    + settle_order.
    + by eapply others_queue.
  - destruct Hqu as [Hslot ->]. apply glob_push; try done; [by eapply bi_glob|by apply (bar_owner_room m t _ Hinv Ht)|].
    split; [lia|]. exists o. split; [done|]. by rewrite (proj2 (Z.ltb_lt _ _)) by lia.
  - by eapply others_queue.
  - unfold load_flag in Hf. cbn in Hf. rewrite Ho in Hf. injection Hf as <- <-. bar_move_goal; [|settle_order].
    by destruct Hor as (-> & _).
  - unfold load_done in Hf. cbn in Hf. rewrite Ho in Hf. cbn in Hf. destruct Hor as (Hfl & Hdo & Hini).
    rewrite Hdo in Hf. injection Hf as <- <-. bar_move_goal. settle_order.
  - served_less.
  - served_less.
  - pose proof (bar_count_nonneg m (done_sem c) Hinv).
    destruct (bi_served m Hinv c Hcc ltac:(lia)) as (o1 & Ho1 & Hr). rewrite Ho in Ho1. injection Ho1 as <-.
    split; [|done]. by exists o.
  - own_order Ht (with_contents [0; 0; 0] o). unfold on_order in Hf. cbn in Hf. rewrite Ho in Hf. injection Hf as <- <-.
    bar_move_goal; order_changed. cbn. by destruct Hor.
Qed.

Lemma home_order m : bar_inv m →
  ∃ o, zget (orders (glob m)) NCUSTOMERS = Some o ∧ zlen (contents o) = DRINK_COMPLEXITY.
Proof.
  intros Hinv. destruct (zget_range (orders (glob m)) NCUSTOMERS) as [o Ho].
  { rewrite (go_orders _ (bi_glob m Hinv)). lia. }
  exists o. split; [done|]. by apply (go_contents _ (bi_glob m Hinv) NCUSTOMERS).
Qed.

(** The last customer changes the order that sends the bartenders home. *)
Ltac home_change m t c o' :=
  match goal with
  | Hinv : bar_inv m |- _ =>
      let Hoth := fresh "Hoth" in let Hline := fresh "Hline" in let Hsrv := fresh "Hsrv" in
      destruct (order_home m t o' Hinv ltac:(try done; by apply frame_flag)) as (Hoth & Hline & Hsrv);
      assert (zget (zset (orders (glob m)) NCUSTOMERS o') NCUSTOMERS = Some o') as Hnew
        by (eapply zget_zset_eq, zget_Some_range; eassumption);
      pose proof (zget_zset_ne (orders (glob m)) NCUSTOMERS c o' ltac:(lia)) as Hold
  end.

Ltac home_changed :=
  [> apply glob_order; [by eapply bi_glob|assumption|try done]
   | assumption
   | split; [eexists; split; [etransitivity; eassumption|try done]
            |intros _; eexists; split; [eassumption|try done; by apply frame_flag]]
   | eapply others_orders; [reflexivity|assumption] ].

Lemma bar_inv_leaving t p s c ii jj oo bb tt sp rp m m' :
  let th := Thr (customer NCUSTOMERS NBARTENDERS drink frame_reused) (16 + p) s (BarLoc (Customer c) ii jj oo bb tt sp rp) in
  bar_inv m → threads m !! t = Some th → sync_ok m' → exec t m = Ok m' → bar_inv m'.
Proof.
  intros th Hinv Ht Hsync He. subst th. pose proof (holding_lock m t _ Hinv Ht) as Hh.
  destruct (bi_threads m Hinv t _ Ht) as [_ [Hcc Hlo] Hqu [(o & Ho & _) Hor] _ Hco]. cbn in Hh, Hcc.
  unfold count_ok in Hco.
  do 26 (try destruct p as [|p]); cbn in Hlo, Hqu, Hor, Hco; try done; destruct_and? Hlo; subst; bar_instr He;
    try (settle_order; fail).
  - pose proof (customers_pos m t _ Hinv Ht eq_refl eq_refl). intros h d Hd _. cbn.
    destruct (Z.eqb_spec (customers (glob m)) 0); [lia|]. cbn. intros Hhd.
    destruct (Z.eqb_spec (d + 1) 0); [lia|]. by rewrite andb_false_r.
  - apply glob_customers. by eapply bi_glob.
  - by eapply others_customers.
  - intros h d Hd _. unfold home. cbn. apply negb_true_iff, Z.eqb_neq in Hb. rewrite (proj2 (Z.eqb_neq _ _) Hb). cbn.
    destruct (Z.eqb_spec c NCUSTOMERS); [lia|done].
  - intros h d Hd Hd0. unfold home. cbn. apply negb_false_iff, Z.eqb_eq in Hb. rewrite Hb, (Hd0 eq_refl).
    change (0 + 1 =? 0) with false. change (0 + 0 =? 0) with true. cbn. lia.
  - destruct (home_order m Hinv) as (oh & Hoh & Hlh). home_change m t c (with_flag 1 oh).
    unfold on_order in Hf. cbn in Hf. rewrite Hoh in Hf. injection Hf as <- <-. bar_move_goal; home_changed.
  - destruct (Hor eq_refl) as (oh & Hoh & Hfl). home_change m t c oh.
    unfold create_done, on_order in Hf. cbn in Hf. rewrite Hoh in Hf. cbn in Hf.
    rewrite (proj2 (Z.eqb_neq _ _) Hfl) in Hf. cbn in Hf. injection Hf as <- <-. bar_move_goal; home_changed.
    by apply (go_contents _ (bi_glob m Hinv) NCUSTOMERS).
  - unfold put_order in Hf. cbn in Hf.
    destruct (bar_put_ok (glob m) NCUSTOMERS (go_queue _ (bi_glob m Hinv)) (bar_owner_room m t _ Hinv Ht eq_refl)) as (Hput & Hslot & _).
    rewrite Hput in Hf. injection Hf as <- <-. bar_move_goal; [|settle_order|by eapply others_queue].
    apply glob_put; [apply bi_glob; done|]. by apply (bar_owner_room m t _ Hinv Ht).
  - destruct Hqu as [Hslot ->]. apply glob_push; try done; [by eapply bi_glob|by apply (bar_owner_room m t _ Hinv Ht)|].
    destruct (Hor eq_refl) as (oh & Hoh & Hfl). split; [lia|]. exists oh. by rewrite Z.ltb_irrefl.
  - by eapply others_queue.
  - destruct (Hor eq_refl) as (oh & Hoh & Hfl). unfold load_flag in Hf. cbn in Hf. rewrite Hoh in Hf.
    injection Hf as <- <-. bar_move_goal. settle_order.
  - destruct (Hor eq_refl) as (oh & Hoh & Hfl). pose proof (go_contents _ (bi_glob m Hinv) _ _ Hoh).
    home_change m t c (frame_reused oh). unfold on_order in Hf. cbn in Hf. rewrite Hoh in Hf.
    injection Hf as <- <-. bar_move_goal; home_changed. by apply frame_contents.
Qed.

Lemma head_line m x : bar_inv m → head (line (glob m)) = Some x → line_ok (orders (glob m)) x.
Proof.
  intros Hinv Hx. pose proof (go_line _ (bi_glob m Hinv)) as Hl. destruct (line (glob m)); [done|].
  injection Hx as ->. by apply Forall_cons in Hl as [? _].
Qed.

(** The first order leaves the queue. *)
Ltac popped m Hqu :=
  let El := fresh "El" in
  destruct Hqu as [Hqu _]; destruct (line (glob m)) eqn:El; [done|injection Hqu as ->];
  cbn [tail]; rewrite ?zlen_cons, ?occ_cons, ?total_cons; try (unfold count_of; cbn; lia).

(** What the bartender knows of its order does not change. *)
Ltac take_kept :=
  match goal with Hor : (_ <= _)%nat → _ |- _ =>
    intros _; destruct (Hor ltac:(lia)) as (o & Ho & Hq); specialize (Hq ltac:(lia)); exists o; split; [done|]; intros _; done
  end.

Lemma bar_inv_taking t p s n ii jj oo bb tt sp rp m m' :
  let th := Thr (bartender NBARTENDERS) p s (BarLoc (Bartender n) ii jj oo bb tt sp rp) in
  bar_inv m → threads m !! t = Some th → sync_ok m' → exec t m = Ok m' → (p < 9)%nat → bar_inv m'.
Proof.
  intros th Hinv Ht Hsync He Hp. subst th. pose proof (holding_lock m t _ Hinv Ht) as Hh.
  destruct (bi_threads m Hinv t _ Ht) as [_ Hlo Hqu Hor _ _]. cbn in Hh.
  do 9 (try destruct p as [|p]); [..|lia]; clear Hp; cbn in Hlo, Hqu, Hor; destruct_and? Hlo; subst; bar_instr He;
    try (take_kept; fail).
  - destruct (owner_order m t _ Hinv Ht eq_refl) as [x Hx].
    pose proof (head_slot _ x (go_queue _ (bi_glob m Hinv)) Hx) as Hslot.
    unfold get_order in Hf. cbn in Hf. rewrite Hslot in Hf. injection Hf as <- <-.
    destruct (head_line m x Hinv Hx) as (Hr & _). bar_move_goal.
  - popped m Hqu.
  - popped m Hqu.
  - popped m Hqu.
  - popped m Hqu.
  - popped m Hqu. change (Z.to_nat 0) with 0%nat. rewrite drop_0. unfold doses. cbn. lia.
  - destruct Hqu as [Hx ->]. apply (glob_pop _ oo); [by eapply bi_glob|done].
  - intros _. destruct Hqu as [Hx _]. destruct (head_line m oo Hinv Hx) as (_ & o & Ho & Hq). by exists o.
  - by eapply others_queue.
  - unfold load_flag in Hf. cbn in Hf. destruct (Hor ltac:(lia)) as (o & Ho & Hq). specialize (Hq ltac:(lia)).
    rewrite Ho in Hf. injection Hf as <- <-. bar_move_goal; [|by intros _; exists o].
    split; [lia|]. destruct (Z.ltb_spec oo NCUSTOMERS); [|split; [done|lia]]. split; [done|]. by destruct Hq as [(-> & _) _].
  - assert (oo = NCUSTOMERS) as -> by lia. rewrite recipe_home. cbn. rewrite drop_nil, occ_nil. lia.
  - assert (oo = NCUSTOMERS) as -> by lia. intros _. destruct (Hor ltac:(lia)) as (o & Ho & Hq).
    specialize (Hq ltac:(lia)). rewrite Z.ltb_irrefl in Hq. by exists o.
  - assert (oo < NCUSTOMERS) as Hlt by lia. intros _. destruct (Hor ltac:(lia)) as (o & Ho & Hq).
    specialize (Hq ltac:(lia)). rewrite (proj2 (Z.ltb_lt _ _) Hlt) in Hq. by exists o.
Qed.

(** The bottle at hand exists. *)
Ltac bottle_range :=
  try match goal with
  | Hz : zget (recipe ?c) _ = Some ?b |- _ =>
      pose proof (rc_range _ (recipe_spec c ltac:(lia)) _ _ Hz)
  end.

(** The law of a bottle, where the bartender takes it or gives it back. *)
Ltac bottle_law :=
  unfold bottles_held, got; cbn;
  try match goal with Hd : bottle_mutex ?x = bottle_mutex ?y |- _ => assert (x = y) by sems_differ; subst x end;
  match goal with
  | Hz : zget (recipe ?c) ?k = Some ?b |- _ = _ =>
      try rewrite (occ_take_prev _ _ _ _ Hz); try rewrite (occ_take_next _ _ _ _ Hz);
      first [lia | unfold count_of; cbn; law_cases | law_cases]
  | |- _ => unfold count_of; do 3 f_equal; lia
  end.

(** The bartender changes its order. *)
Ltac held_order m t c o o' :=
  match goal with
  | Hinv : bar_inv m, Ht : threads m !! t = Some _, Ho : zget (orders (glob m)) c = Some o |- _ =>
      let Hoth := fresh "Hoth" in let Hline := fresh "Hline" in
      destruct (order_held m t _ c o o' Hinv Ht ltac:(unfold holds; cbn; by rewrite Z.eqb_refl)
        ltac:(lia) Ho eq_refl eq_refl eq_refl) as (Hoth & Hline & Hsrv);
      pose proof (zget_zset_eq _ _ o' (zget_Some_range _ _ _ Ho)) as Hnew
  end.

Lemma bar_inv_filling t p s n ii jj oo bb tt sp rp m m' :
  let th := Thr (bartender NBARTENDERS) (9 + p) s (BarLoc (Bartender n) ii jj oo bb tt sp rp) in
  bar_inv m → threads m !! t = Some th → sync_ok m' → exec t m = Ok m' → (p < 7)%nat → bar_inv m'.
Proof.
  intros th Hinv Ht Hsync He Hp. subst th. pose proof (holding_lock m t _ Hinv Ht) as Hh.
  destruct (bi_threads m Hinv t _ Ht) as [_ Hlo _ Hor Hdo _]. cbn in Hh.
  destruct (Hor ltac:(cbn; lia)) as (o & Ho & Hq). clear Hor. cbn in Ho. specialize (Hq ltac:(cbn; lia)).
  do 7 (try destruct p as [|p]); [..|lia]; clear Hp; cbn in Hlo, Hdo, Hq; destruct_and? Hlo; subst;
    bottle_range; bar_instr He;
    try (intros _; exists o; split; [done|]; intros _; done); try bottle_law.
  - unfold sort_order, on_order in Hf. cbn in Hf. rewrite Ho in Hf. injection Hf as <- <-.
    held_order m t oo o (with_requested (sort_order_requested_bottles (requested_bottles o)) o).
    bar_move_goal; [|exact Hsrv|..].
    + apply glob_order; [by eapply bi_glob|done|]. exact (go_contents _ (bi_glob m Hinv) oo o Ho).
    + intros _. eexists. split; [exact Hnew|]. intros _. cbn. destruct Hq as [Hq Hr]. split; [|done]. split; [done|].
      unfold recipe. cbn. by rewrite (proj2 (Z.ltb_lt _ _)), Hr by lia.
    + eapply others_orders; [reflexivity|done].
  - unfold load_bottle in Hf. cbn in Hf. rewrite Ho in Hf. cbn in Hf. destruct Hq as [[Hrd Hrq] Hpre]. rewrite Hrq in Hf.
    destruct (zget_range (recipe oo) jj) as [x Hx]; [rewrite (rc_len _ (recipe_spec oo ltac:(lia))); lia|].
    rewrite Hx in Hf. cbn in Hf. bottle_range. rewrite (proj2 (Z.leb_le _ _)) in Hf by lia.
    injection Hf as <- <-. bar_move_goal; try bottle_law. intros _. by exists o.
  - split_and!; try done. by apply Z.eqb_neq.
Qed.

Lemma take_zset_next {A} (xs : list A) k x :
  0 ≤ k < zlen xs → take (Z.to_nat (k + 1)) (zset xs k x) = take (Z.to_nat k) xs ++ [x].
Proof.
  intros Hk. unfold zset. rewrite decide_True by lia.
  replace (Z.to_nat (k + 1)) with (S (Z.to_nat k)) by lia. unfold zlen in Hk.
  rewrite (take_S_r _ _ x) by (apply list_lookup_insert_eq; lia). by rewrite take_insert_ge by lia.
Qed.

Lemma take_next {A} (xs : list A) k x :
  zget xs k = Some x → take (Z.to_nat (k + 1)) xs = take (Z.to_nat k) xs ++ [x].
Proof.
  intros H. unfold zget in H. case_decide; [|done].
  replace (Z.to_nat (k + 1)) with (S (Z.to_nat k)) by lia. by apply take_S_r.
Qed.

Lemma take_whole {A} (xs ys : list A) n :
  zlen xs = n → zlen ys = n → take (Z.to_nat n) xs = take (Z.to_nat n) ys → xs = ys.
Proof. intros <- E. unfold zlen in *. rewrite Nat2Z.id. by rewrite !take_ge by lia. Qed.

(** Each bottle is in a drink at most once. *)
Lemma occ_recipe b c : 0 ≤ c ≤ NCUSTOMERS → 1 ≤ b → occ b (recipe c) ≤ 1.
Proof.
  intros Hc Hb. destruct (decide (c = NCUSTOMERS)) as [->|]; [by rewrite recipe_home|].
  destruct (recipe_spec c ltac:(lia)) as [_ _ Hi]. revert Hi. generalize (recipe c). clear -Hb.
  intros r Hi. induction r as [|x r IH]; [done|]. rewrite occ_cons.
  assert (∀ k b, zget r k = Some b → zget (x :: r) (k + 1) = Some b) as Hs.
  { intros k b0 Hk. by rewrite zget_tail by (by apply zget_Some_range in Hk as [? _]). }
  destruct (Z.eqb_spec x b) as [->|]; [|cbn; apply IH; intros k1 k2 b1 b2 Hk H1%Hs H2%Hs; eapply Hi; [|done..]; lia].
  unfold occ. rewrite total_zero; [cbn; lia|]. intros k x Hx. destruct (Z.eqb_spec x b) as [->|]; [|done].
  assert (zget r (Z.of_nat k) = Some b) as Hk by (unfold zget; by rewrite decide_True, Nat2Z.id by lia).
  pose proof (Hi 0 (Z.of_nat k + 1) b b ltac:(lia) eq_refl (Hs _ _ Hk)). lia.
Qed.

(** A customer orders ten drinks. *)
Lemma ordered_range m t th :
  bar_inv m → threads m !! t = Some th → 0 ≤ ordered th ≤ 10 * b2z (is_customer th) ∧ 0 ≤ who_ordered th ≤ NCUSTOMERS.
Proof.
  intros Hinv Ht. destruct (bi_threads m Hinv t th Ht) as [_ Hlo _ _ _ _].
  unfold local_ok, ordered, who_ordered, is_customer in *. destruct (who (loc th)); [cbn; lia| |cbn; lia].
  destruct Hlo as [Hc Hlo]. split; [|lia]. revert Hlo. generalize (pc th). intros p Hlo.
  do 42 (try destruct p as [|p]); cbn in *; try done; lia.
Qed.

(** The doses of a bottle are bounded by the drinks ordered. *)
Lemma dose_bound m b t th :
  bar_inv m → 1 ≤ b ≤ NBOTTLES → threads m !! t = Some th →
  doses b (glob m) + occ b (to_pour th) ≤ 10 * NCUSTOMERS.
Proof.
  intros Hinv Hb Ht. pose proof (bi_laws m Hinv (LDose b) Hb) as Hl. cbn [stock balance] in Hl.
  change (weight (LDose b)) with (λ th : thread, occ b (to_pour th) - ordered th * occ b (recipe (who_ordered th))) in Hl.
  rewrite total_sub in Hl.
  assert (0 ≤ total (λ c, occ b (recipe c)) (line (glob m))) by (apply total_nonneg; intros; apply occ_nonneg).
  pose proof (total_ge (λ th, occ b (to_pour th)) (threads m) t th (λ _ _ _, occ_nonneg _ _) Ht) as Hge. cbn beta in Hge.
  assert (total (λ th, ordered th * occ b (recipe (who_ordered th))) (threads m)
    ≤ total (λ th, 10 * b2z (is_customer th)) (threads m)) as Hle.
  { apply total_mono. intros k x Hx. destruct (ordered_range m k x Hinv Hx) as [Ho Hw].
    pose proof (occ_recipe b _ Hw ltac:(lia)). pose proof (occ_nonneg b (recipe (who_ordered x))). nia. }
  rewrite total_scale, (customers_total m Hinv) in Hle. lia.
Qed.

Lemma bar_inv_pour t s n ii jj oo bb tt sp rp m m' :
  let th := Thr (bartender NBARTENDERS) 18 s (BarLoc (Bartender n) ii jj oo bb tt sp rp) in
  bar_inv m → threads m !! t = Some th → sync_ok m' → exec t m = Ok m' → bar_inv m'.
Proof.
  intros th Hinv Ht Hsync He. subst th. pose proof (holding_lock m t _ Hinv Ht) as Hh.
  destruct (bi_threads m Hinv t _ Ht) as [_ [Hoo Hjj] _ Hor _ _]. cbn in Hh, Hoo, Hjj.
  destruct (Hor ltac:(cbn; lia)) as (o & Ho & Hq). clear Hor. cbn in Ho. specialize (Hq ltac:(cbn; lia)). cbn in Hq.
  destruct Hq as [[Hrd Hrq] Hpre]. pose proof (go_contents _ (bi_glob m Hinv) oo o Ho) as Hcl.
  destruct (zget_range (recipe oo) jj) as [x Hx]; [rewrite (rc_len _ (recipe_spec oo ltac:(lia))); lia|].
  bottle_range. bar_instr He.
  unfold pour in Hf. cbn in Hf. rewrite Ho in Hf. cbn in Hf. rewrite Hrq, Hx in Hf. cbn in Hf.
  unfold zput in Hf. rewrite decide_True in Hf by lia. cbn in Hf.
  rewrite (proj2 (Z.leb_le _ _)) in Hf by lia. injection Hf as <- <-.
  held_order m t oo o (with_contents (zset (contents o) jj x) o).
  bar_move_goal; [|exact Hsrv|..].
  - apply glob_order; [by eapply bi_glob|done|]. cbn. by rewrite zlen_zset.
  - intros _. eexists. split; [exact Hnew|]. intros _. cbn. split; [done|].
    rewrite take_zset_next by lia. by rewrite (take_next (recipe oo) jj x Hx), Hpre.
  - eapply others_orders; [reflexivity|done].
Qed.

Lemma bar_inv_dose t s n ii jj oo bb tt sp rp m m' :
  let th := Thr (bartender NBARTENDERS) 21 s (BarLoc (Bartender n) ii jj oo bb tt sp rp) in
  bar_inv m → threads m !! t = Some th → sync_ok m' → exec t m = Ok m' → bar_inv m'.
Proof.
  intros th Hinv Ht Hsync He. subst th. pose proof (holding_lock m t _ Hinv Ht) as Hh.
  destruct (bi_threads m Hinv t _ Ht) as [_ (Hoo & Hjj & Hz & Hbb) _ Hor Hdo _]. cbn in Hh, Hoo, Hjj, Hz, Hbb.
  specialize (Hdo eq_refl). cbn in Hdo. bottle_range.
  pose proof (λ b, occ_drop_next b _ _ _ Hz) as Hnext.
  assert (tt + 1 ≤ 10 * NCUSTOMERS) as Hbound.
  { pose proof (dose_bound m bb t _ Hinv ltac:(lia) Ht) as Hb. unfold doses, to_pour in Hb. cbn in Hb.
    rewrite Hdo, Hnext, Z.eqb_refl in Hb. cbn in Hb.
    pose proof (occ_nonneg bb (drop (Z.to_nat (jj + 1)) (recipe oo))). lia. }
  pose proof (go_doses _ (bi_glob m Hinv) _ _ Hdo). bar_instr He.
  unfold store_doses in Hf. cbn in Hf. rewrite s32_id in Hf by width.
  unfold zput in Hf. rewrite decide_True in Hf by (eapply zget_Some_range; done). injection Hf as <- <-.
  bar_move_goal.
  - rewrite Hnext. unfold doses. cbn. destruct (Z.eqb_spec bb b) as [->|Hne].
    + rewrite zget_zset_eq, Hdo by (eapply zget_Some_range; done). cbn. lia.
    + rewrite zget_zset_ne by lia. cbn. lia.
  - apply glob_dose; [by eapply bi_glob|lia].
  - intros _. destruct (Hor ltac:(cbn; lia)) as (o & Ho & Hq). exists o. split; [done|]. intros _. exact (Hq ltac:(done)).
  - by eapply (others_dose m _ t _ (tt + 1) Hinv Ht).
Qed.

Lemma bar_inv_mixing t p s n ii jj oo bb tt sp rp m m' :
  let th := Thr (bartender NBARTENDERS) (16 + p) s (BarLoc (Bartender n) ii jj oo bb tt sp rp) in
  bar_inv m → threads m !! t = Some th → sync_ok m' → exec t m = Ok m' → (p < 8)%nat → bar_inv m'.
Proof.
  intros th Hinv Ht Hsync He Hp. subst th. pose proof (holding_lock m t _ Hinv Ht) as Hh.
  destruct (bi_threads m Hinv t _ Ht) as [_ Hlo _ Hor Hdo _]. cbn in Hh.
  destruct (Hor ltac:(cbn; lia)) as (o & Ho & Hq). clear Hor. cbn in Ho. specialize (Hq ltac:(cbn; lia)).
  do 8 (try destruct p as [|p]); [..|lia]; clear Hp; cbn in Hlo, Hdo, Hq; destruct_and? Hlo; subst;
    bottle_range; first [eapply bar_inv_pour; eassumption|eapply bar_inv_dose; eassumption|bar_instr He];
    try (intros _; exists o; split; [done|]; intros _; done).
  - intros _. exists o. split; [done|]. intros _. split; [by destruct Hq|done].
  - do 4 f_equal. lia.
  - assert (jj = DRINK_COMPLEXITY) as -> by lia. intros _. exists o. split; [done|]. intros _.
    destruct Hq as [Hrd Hpre]. split; [done|].
    apply (take_whole _ _ DRINK_COMPLEXITY); [exact (go_contents _ (bi_glob m Hinv) oo o Ho)|by apply rc_len, recipe_spec|done].
  - assert (bb = 0) as -> by lia.
    match goal with Hz : zget (recipe oo) _ = _ |- _ => rewrite (occ_drop_next b _ _ _ Hz) end.
    destruct (Z.eqb_spec 0 b); [lia|cbn; lia].
  - split_and!; try done. lia.
  - unfold load_doses in Hf. cbn in Hf.
    destruct (zget_range (bottles (glob m)) (bb - 1)) as [d Hd]; [rewrite (go_bottles _ (bi_glob m Hinv)); lia|].
    rewrite Hd in Hf. injection Hf as <- <-. bar_move_goal. intros _. by exists o.
Qed.

Lemma bar_inv_returning t p s n ii jj oo bb tt sp rp m m' :
  let th := Thr (bartender NBARTENDERS) (24 + p) s (BarLoc (Bartender n) ii jj oo bb tt sp rp) in
  bar_inv m → threads m !! t = Some th → sync_ok m' → exec t m = Ok m' → (p < 7)%nat → bar_inv m'.
Proof.
  intros th Hinv Ht Hsync He Hp. subst th. pose proof (holding_lock m t _ Hinv Ht) as Hh.
  destruct (bi_threads m Hinv t _ Ht) as [_ Hlo _ Hor _ _]. cbn in Hh.
  destruct (Hor ltac:(cbn; lia)) as (o & Ho & Hq). clear Hor. cbn in Ho. specialize (Hq ltac:(cbn; lia)).
  do 7 (try destruct p as [|p]); [..|lia]; clear Hp; cbn in Hlo, Hq; destruct_and? Hlo; subst;
    bottle_range; bar_instr He; try (intros _; exists o; split; [done|]; intros _; done); try bottle_law.
  - assert (jj = 0) as -> by lia. cbn. rewrite occ_nil. done.
  - unfold load_bottle in Hf. cbn in Hf. rewrite Ho in Hf. cbn in Hf. destruct Hq as [[Hrd Hrq] Hpre]. rewrite Hrq in Hf.
    destruct (zget_range (recipe oo) (jj - 1)) as [x Hx]; [rewrite (rc_len _ (recipe_spec oo ltac:(lia))); lia|].
    rewrite Hx in Hf. cbn in Hf. bottle_range. rewrite (proj2 (Z.leb_le _ _)) in Hf by lia.
    injection Hf as <- <-. bar_move_goal; try bottle_law. intros _. by exists o.
  - split_and!; try done; lia.
Qed.

Lemma bar_inv_serving t p s n ii jj oo bb tt sp rp m m' :
  let th := Thr (bartender NBARTENDERS) (31 + p) s (BarLoc (Bartender n) ii jj oo bb tt sp rp) in
  bar_inv m → threads m !! t = Some th → sync_ok m' → exec t m = Ok m' → bar_inv m'.
Proof.
  intros th Hinv Ht Hsync He. subst th. pose proof (holding_lock m t _ Hinv Ht) as Hh.
  destruct (bi_threads m Hinv t _ Ht) as [_ Hlo _ Hor _ _]. cbn in Hh.
  destruct (Hor ltac:(cbn; lia)) as (o & Ho & Hq). clear Hor. cbn in Ho.
  do 10 (try destruct p as [|p]); cbn in Hlo, Hq; try done; destruct_and? Hlo; subst;
    try specialize (Hq ltac:(lia)); bar_instr He; try (intros _; exists o; split; [done|]; intros _; done).
  - unfold load_flag in Hf. cbn in Hf. rewrite Ho in Hf. injection Hf as <- <-. bar_move_goal; [|by intros _; exists o].
    split; [done|]. by destruct Hq as [[(-> & _) _] _].
  - unfold load_done in Hf. cbn in Hf. rewrite Ho in Hf. cbn in Hf. destruct Hq as [[(Hfl & Hdo & Hini) Hrq] Hcon].
    rewrite Hdo in Hf. injection Hf as <- <-. bar_move_goal. intros _. exists o. by split.
  - rewrite drop_ge, occ_nil; [done|].
    pose proof (rc_len _ (recipe_spec oo ltac:(lia))). unfold zlen in *. lia.
  - intros c Hc0. cbn. rewrite bar_count_put by (eexists; eassumption). case_decide as Hd; [|by apply bi_served].
    assert (c = oo) as -> by sems_differ. intros _. exists o. by destruct Hq.
  - unfold load_flag in Hf. cbn in Hf. rewrite Ho in Hf. injection Hf as <- <-. bar_move_goal. intros _. by exists o.
Qed.

Lemma bar_inv_exec t th m m' :
  bar_inv m → threads m !! t = Some th → asleep th = false → exec t m = Ok m' → bar_inv m'.
Proof.
  intros Hinv Ht Has He.
  pose proof (sync_ok_exec t th m m' (bi_sync m Hinv) Ht Has He) as Hsync.
  pose proof (to_prog _ _ (bi_threads m Hinv t th Ht)) as Hpr.
  destruct th as [pr p s [w ii jj oo bb tt sp rp]]. cbn in Hpr. destruct w as [|c|n]; cbn in Hpr; subst pr.
  - by eapply bar_inv_host.
  - destruct (decide (p < 16)%nat) as [Hp|Hp]; [by eapply bar_inv_ordering|].
    replace p with (16 + (p - 16))%nat in Ht by lia. by eapply bar_inv_leaving.
  - destruct (decide (p < 9)%nat) as [|Hp]; [by eapply bar_inv_taking|].
    destruct (decide (p < 16)%nat).
    { replace p with (9 + (p - 9))%nat in Ht by lia. eapply bar_inv_filling; try done; lia. }
    destruct (decide (p < 24)%nat).
    { replace p with (16 + (p - 16))%nat in Ht by lia. eapply bar_inv_mixing; try done; lia. }
    destruct (decide (p < 31)%nat).
    { replace p with (24 + (p - 24))%nat in Ht by lia. eapply bar_inv_returning; try done; lia. }
    replace p with (31 + (p - 31))%nat in Ht by lia. by eapply bar_inv_serving.
Qed.

Lemma bar_inv_mstep m m' : bar_inv m → mstep m m' → bar_inv m'.
Proof.
  intros Hinv Hs. destruct Hs as [t th m m' Ht Hr He]. apply andb_true_iff in Hr as [Ha%negb_true_iff _].
  exact (bar_inv_exec t th m m' Hinv Ht Ha He).
Qed.

(** ** The initial state *)

(** What is on the stacks when the customers start: the field that says whether
    there is a semaphore must be zero. *)
Record stacks_ok (junk : list barorder) : Prop := {
  st_len : zlen junk = NCUSTOMERS + 1;
  st_contents x o : zget junk x = Some o → zlen (contents o) = DRINK_COMPLEXITY;
  st_init c o : 0 ≤ c < NCUSTOMERS → zget junk c = Some o → is_semaphore_init o = 0
}.

Section start.
Context (q : list Z) (junk : list barorder).
Hypothesis queue_len : zlen q = QUEUE_SIZE NBARTENDERS.
Hypothesis stacks : stacks_ok junk.

Let m0 := run_bar NCUSTOMERS NBARTENDERS drink frame_reused q junk.

Lemma bar_run_threads t th :
  threads m0 !! t = Some th →
  ∃ w, th = Thr (prog_of NCUSTOMERS NBARTENDERS drink frame_reused w) 0 false (BarLoc w 0 0 0 0 0 0 []) ∧
    match w with Customer c => 0 ≤ c < NCUSTOMERS | _ => True end.
Proof.
  unfold m0. cbn [run_bar bar_open start threads]. intros ([pr l] & -> & Hp)%list_lookup_fmap_Some_1.
  apply list_elem_of_lookup_2 in Hp. cbn [fst snd].
  apply elem_of_cons in Hp as [Hp|[(n & Hp & Hn)%list_elem_of_fmap|(n & Hp & Hn)%list_elem_of_fmap]%elem_of_app];
    injection Hp as -> ->.
  - by exists Host.
  - by exists (Bartender n).
  - apply elem_of_seqZ in Hn. exists (Customer n). split; [done|lia].
Qed.

Lemma run_count s :
  count_of s m0 = if (s =? 0)%nat then 1 else if (s =? 1)%nat then NBARTENDERS
    else if ((4 <=? s) && (s <=? 13))%nat then 1 else 0.
Proof.
  unfold count_of, m0. cbn [run_bar bar_open start sems].
  do 14 (try destruct s as [|s]); try done.
  replace (([sem_create 1; sem_create (QUEUE_SIZE NBARTENDERS); sem_create 0; sem_create 0]
     ++ replicate (Z.to_nat NBOTTLES) (sem_create 1) ++ replicate (Z.to_nat NCUSTOMERS) (sem_create 0))
    !! S (S (S (S (S (S (S (S (S (S (S (S (S (S s)))))))))))))) with
   (replicate (Z.to_nat NCUSTOMERS) (sem_create 0) !! s) by done.
  destruct (replicate (Z.to_nat NCUSTOMERS) (sem_create 0) !! s) as [sem|] eqn:E; [|done]. by apply lookup_replicate in E as [-> _].
Qed.

Lemma run_laws k : law_valid k → stock k m0 + total (weight k) (threads m0) = balance k.
Proof.
  intros Hk. assert (total (weight k) (threads m0) = 0) as ->.
  { apply total_zero. intros t th ([|c|n] & -> & Hc)%bar_run_threads; destruct k; try done; cbn in *;
      unfold weight, bottles_held, to_pour, sent_home, home; cbn; rewrite ?occ_nil, ?andb_false_r; cbn; lia. }
  assert (∀ b, 1 ≤ b ≤ NBOTTLES → doses b (glob m0) = 0) as Hd.
  { intros b Hb. unfold doses, m0. cbn. destruct (zget _ _) as [d|] eqn:E; [|done].
    unfold zget in E. case_decide; [|done]. by apply lookup_replicate in E as [-> _]. }
  destruct k; cbn [stock balance law_valid] in *; rewrite ?run_count, ?Hd; try done;
    change (line (glob m0)) with (@nil Z); change (customers (glob m0)) with NCUSTOMERS;
    change (zlen []) with 0; rewrite ?occ_nil; unfold QUEUE_SIZE, empty;
    repeat match goal with
    | |- context [(?x =? ?y)%nat] => destruct (Nat.eqb_spec x y)
    | |- context [(?x <=? ?y)%nat] => destruct (Nat.leb_spec x y)
    end; cbn [andb]; try (exfalso; sems_differ); lia.
Qed.

Lemma bar_run_inv : bar_inv m0.
Proof.
  constructor.
  - apply sync_ok_start; [|by repeat constructor|constructor].
    repeat (constructor; [split; [unfold QUEUE_SIZE; cbn; width|done]|]). by apply Forall_replicate.
  - unfold m0. cbn [run_bar bar_open start sems]. unfold zlen. rewrite !length_app, !length_replicate. unfold NBOTTLES. cbn. lia.
  - apply run_laws.
  - split; [by eexists| |done]. by intros t th ([] & -> & _)%bar_run_threads.
  - rewrite !total_zero; [|by intros t th ([] & -> & _)%bar_run_threads..].
    unfold m0. cbn. destruct (Z.eqb_spec NCUSTOMERS 0); [lia|done].
  - split; [|constructor|apply (st_len _ stacks)|apply (st_contents _ stacks)|done|].
    + split; cbn; try done; unfold QUEUE_SIZE in *; change (zlen []) with 0; try lia.
      intros k x Hk. unfold zget in Hk. case_decide; [|done]. by rewrite lookup_nil in Hk.
    + intros k d Hk. unfold m0 in Hk. cbn in Hk. unfold zget in Hk. case_decide; [|done].
      by apply lookup_replicate in Hk as [-> _].
  - intros c Hc. rewrite run_count. 
    destruct (Nat.eqb_spec (done_sem c) 0); [sems_differ|]. destruct (Nat.eqb_spec (done_sem c) 1); [sems_differ|].
    destruct (Nat.leb_spec (done_sem c) 13); [sems_differ|]. by rewrite andb_false_r.
  - unfold m0, people. cbn. f_equal. by rewrite !map_app, !map_map.
  - intros t th (w & -> & Hw)%bar_run_threads. destruct w as [|c|n]; (split; cbn; try done).
    + split; [|done].  destruct (zget_range junk c) as [o Ho]; [rewrite (st_len _ stacks); lia|].
      exists o. split; [done|]. by apply (st_init _ stacks c).
    + lia.
Qed.

End start.

Lemma bar_count_bound m s : bar_inv m → (Z.of_nat s < 4 + NBOTTLES + NCUSTOMERS)%Z → count_of s m ≤ NCUSTOMERS + NBARTENDERS.
Proof.
  intros Hinv Hs.
  assert (∀ k, law_valid k → (∀ t th, threads m !! t = Some th → 0 ≤ weight k th) → stock k m ≤ balance k) as Hle.
  { intros k Hk Hw. pose proof (bi_laws m Hinv k Hk). pose proof (total_nonneg (weight k) (threads m) Hw). lia. }
  pose proof (zlen_nonneg (line (glob m))). pose proof (qi_room _ (go_queue _ (bi_glob m Hinv))) as Hroom.
  unfold QUEUE_SIZE in Hroom.
  assert (s = queue_mutex ∨ s = empty ∨ s = full ∨ s = alldone ∨
    (∃ b, 1 ≤ b ≤ NBOTTLES ∧ s = bottle_mutex b) ∨ (∃ c, 0 ≤ c < NCUSTOMERS ∧ s = done_sem c)) as Hcase.
  { destruct s as [|[|[|[|s]]]]; [tauto..|]. do 4 right. unfold bottle_mutex, done_sem, NBOTTLES in *.
    destruct (decide (Z.of_nat s < 10)).
    - left. exists (Z.of_nat s + 1). lia.
    - right. exists (Z.of_nat s - 10). lia. }
  destruct Hcase as [->|[->|[->|[->|[(b & Hb & ->)|(c & Hc & ->)]]]]].
  - pose proof (Hle LMutex I ltac:(intros; apply b2z_nonneg)) as H0. cbn in H0. lia.
  - pose proof (Hle LEmpty I ltac:(intros t th _; cbn; pose proof (b2z_nonneg (owns_empty th)); pose proof (b2z_nonneg (freed th)); lia)) as H0.
    cbn in H0. unfold QUEUE_SIZE in H0. lia.
  - pose proof (Hle LFull I ltac:(intros t th _; cbn; pose proof (b2z_nonneg (filled th)); pose proof (b2z_nonneg (owns_full th)); lia)) as H0.
    cbn in H0. lia.
  - pose proof (law_alldone m Hinv). pose proof (staff_total m Hinv).
    pose proof (total_nonneg waited (threads m) (λ k x, waited_nonneg m k x Hinv)).
    assert (total (λ th, b2z (signalled th)) (threads m) ≤ total (λ th, b2z (negb (is_host th))) (threads m)); [|lia].
    apply total_mono. intros k x _. unfold signalled, is_host. destruct (who (loc x)); cbn -[Nat.leb]; [done|..];
      match goal with |- context [b2z ?b] => by destruct b end.
  - pose proof (Hle (LBottle b) Hb ltac:(intros; apply occ_nonneg)) as H0. cbn in H0. lia.
  - pose proof (law_token m c Hinv Hc) as H0. destruct (customer_exists m c Hinv Hc) as (t & th & Ht & Hw).
    rewrite (submitted_le m c t th Hinv Ht Hw) in H0. pose proof (occ_nonneg c (line (glob m))).
    pose proof (total_nonneg (λ th, b2z (holds c th)) (threads m) (λ _ _ _, b2z_nonneg _)).
    assert (b2z (submitted c th) ≤ 1) by (by destruct (submitted c th)). lia.
Qed.

Lemma bar_P m t th s :
  bar_inv m → threads m !! t = Some th → cur_instr th = Some (IP s) →
  Z.of_nat (s (loc th)) < 4 + NBOTTLES + NCUSTOMERS → ∃ m', exec t m = Ok m'.
Proof.
  intros Hinv Ht Hi Hs. eapply exec_P_ok; [done..|]. apply lookup_lt_is_Some.
  pose proof (bi_sems m Hinv). unfold zlen in *. lia.
Qed.

Lemma bar_V m t th s :
  bar_inv m → threads m !! t = Some th → cur_instr th = Some (IV s) →
  Z.of_nat (s (loc th)) < 4 + NBOTTLES + NCUSTOMERS → ∃ m', exec t m = Ok m'.
Proof.
  intros Hinv Ht Hi Hs. pose proof (bi_sems m Hinv) as Hl.
  destruct (lookup_lt_is_Some_2 (sems m) (s (loc th))) as [sem Hsem]; [unfold zlen in *; lia|].
  pose proof (bar_count_bound m _ Hinv Hs) as Hb. unfold count_of in Hb. rewrite Hsem in Hb.
  pose proof (sem_count_range m _ _ (bi_sync m Hinv) Hsem). eapply exec_V_ok; [done..|]. width.
Qed.

Lemma bar_Do m t th f :
  threads m !! t = Some th → cur_instr th = Some (IDo f) →
  (∃ r, f (glob m) (loc th) = Ok r) → ∃ m', exec t m = Ok m'.
Proof. intros Ht Hi [[g l] Hf]. by eapply exec_Do_ok. Qed.

Ltac bar_do Ht := eapply bar_Do; [exact Ht|reflexivity|cbn].

Lemma host_total m t th :
  bar_inv m → threads m !! t = Some th → who (loc th) = Host → finished th = false → ∃ m', exec t m = Ok m'.
Proof.
  intros Hinv Ht Hw Hf. destruct (bi_threads m Hinv t th Ht) as [Hpr Hlo _ _ _ _].
  destruct th as [pr p s [w ii jj oo bb tt sp rp]]. cbn in Hw, Hpr. subst w pr. cbn in Hlo.
  do 9 (try destruct p as [|p]); try done; cbn in Hlo;
    first [ by eapply exec_If_ok; [exact Ht|reflexivity]
          | by eapply bar_P; [done|exact Ht|reflexivity|cbn; unfold alldone, NBOTTLES; lia]
          | by eapply exec_Do_ok; [exact Ht|reflexivity|reflexivity]
          | idtac ].
  destruct (zget_range (bottles (glob m)) ii) as [d Hd]; [rewrite (go_bottles _ (bi_glob m Hinv)); lia|].
  bar_do Ht. unfold print_bottle. cbn. rewrite Hd. by eexists.
Qed.

Lemma customer_total m t th c :
  bar_inv m → threads m !! t = Some th → who (loc th) = Customer c → finished th = false → ∃ m', exec t m = Ok m'.
Proof.
  intros Hinv Ht Hw Hf. destruct (bi_threads m Hinv t th Ht) as [Hpr Hlo Hqu Hor _ _].
  pose proof (holding_lock m t th Hinv Ht) as Hh.
  destruct (gu_lock _ _ m (bi_lock m Hinv)) as [lk Hlk]. rewrite (holder_lookup _ _ _ Hlk) in Hh.
  destruct (home_order m Hinv) as (oh & Hoh & _).
  destruct th as [pr p s [w ii jj oo bb tt sp rp]]. cbn in Hw, Hpr. subst w pr. cbn in Hlo.
  destruct Hor as [(o & Ho & Hor) Hor']. destruct Hlo as [Hcc Hlo].
  do 42 (try destruct p as [|p]); try done; cbn in Hlo, Hh, Hor, Ho; try done; destruct_and? Hlo; subst;
    first [ by eapply exec_If_ok; [exact Ht|reflexivity]
          | by eapply bar_P; [done|exact Ht|reflexivity|cbn; sems_differ]
          | by eapply bar_V; [done|exact Ht|reflexivity|cbn; sems_differ]
          | by eapply exec_Acq_ok; [exact Ht|reflexivity|exact Hlk|]
          | by eapply exec_Rel_ok; [exact Ht|reflexivity|exact Hlk|]
          | by eapply exec_Do_ok; [exact Ht|reflexivity|reflexivity]
          | idtac ].
  all: bar_do Ht; unfold create_done, put_order, load_flag, load_done, on_order; cbn; rewrite ?Ho, ?Hoh; cbn;
    first [by eexists | destruct Hor as (_ & -> & _); by eexists | idtac].
  - destruct (bar_put_ok (glob m) c (go_queue _ (bi_glob m Hinv)) (bar_owner_room m t _ Hinv Ht eq_refl)) as (-> & _ & _).
    by eexists.
  - destruct (bar_put_ok (glob m) NCUSTOMERS (go_queue _ (bi_glob m Hinv)) (bar_owner_room m t _ Hinv Ht eq_refl)) as (-> & _ & _).
    by eexists.
Qed.

(** The bottle of the sorted order that is read. *)
Ltac next_bottle Hq :=
  let Hrq := fresh "Hrq" in destruct Hq as [[_ Hrq] _]; rewrite Hrq;
  match goal with |- context[zget (recipe ?c) ?k] =>
    let x := fresh "x" in let Hx := fresh "Hx" in
    destruct (zget_range (recipe c) k) as [x Hx]; [rewrite (rc_len _ (recipe_spec c ltac:(lia))); lia|];
    rewrite Hx; cbn; bottle_range; rewrite (proj2 (Z.leb_le x _)) by lia
  end.

Lemma bartender_total m t th n :
  bar_inv m → threads m !! t = Some th → who (loc th) = Bartender n → finished th = false → ∃ m', exec t m = Ok m'.
Proof.
  intros Hinv Ht Hw Hf. destruct (bi_threads m Hinv t th Ht) as [Hpr Hlo _ Hor Hdo _].
  pose proof (go_bottles _ (bi_glob m Hinv)) as Hbl. pose proof (go_contents _ (bi_glob m Hinv)) as Hcl.
  destruct th as [pr p s [w ii jj oo bb tt sp rp]]. cbn in Hw, Hpr. subst w pr. unfold order_ok, dose_ok in Hor, Hdo. cbn in Hor.
  do 41 (try destruct p as [|p]); try done; cbn in Hlo; try done; destruct_and? Hlo; subst; cbn in Hor, Hdo; bottle_range;
    first [ by eapply exec_If_ok; [exact Ht|reflexivity]
          | by eapply bar_P; [done|exact Ht|reflexivity|cbn; sems_differ]
          | by eapply bar_V; [done|exact Ht|reflexivity|cbn; sems_differ]
          | by eapply exec_Do_ok; [exact Ht|reflexivity|reflexivity]
          | bar_do Ht ].
  all: unfold get_order, sort_order, load_bottle, pour, load_doses, store_doses, load_flag, load_done, on_order; cbn.
  all: try (destruct (Hor ltac:(lia)) as (o & Ho & Hq); specialize (Hq ltac:(lia)); rewrite Ho; cbn; try (by eexists)).
  - destruct (owner_order m t _ Hinv Ht eq_refl) as [x Hx].
    rewrite (head_slot _ x (go_queue _ (bi_glob m Hinv)) Hx). by eexists.
  - next_bottle Hq. by eexists.
  - specialize (Hcl _ _ Ho). next_bottle Hq. unfold zput. rewrite decide_True by lia. by eexists.
  - destruct (zget_range (bottles (glob m)) (bb - 1)) as [d Hd]; [lia|]. rewrite Hd. by eexists.
  - unfold zput. rewrite decide_True by lia. by eexists.
  - next_bottle Hq. by eexists.
  - destruct Hq as [[(_ & -> & _) _] _]. by eexists.
Qed.

Lemma bar_exec_total m t th :
  bar_inv m → threads m !! t = Some th → finished th = false → ∃ m', exec t m = Ok m'.
Proof.
  intros Hinv Ht Hf. destruct (who (loc th)) eqn:Hw.
  - by eapply host_total.
  - by eapply customer_total.
  - by eapply bartender_total.
Qed.

(** ** Termination *)

(** What is left to do for a thread; an order in the queue stands for the work that
    a bartender will have with it. *)
Definition order_work : nat := 100.

Definition bartender_work l (p : nat) : nat :=
  let left := Z.to_nat (DRINK_COMPLEXITY - j l) in
  match p with
  | 0 | 1 | 2 | 3 | 4 => 10 - p
  | 5 | 6 | 7 | 8 | 9 => 87 - p
  | 10 | 11 | 12 | 13 | 14 => 59 + 6 * left - (p - 10)
  | 15 => 60 + 6 * left
  | 16 => 58
  | 17 | 18 | 19 | 20 | 21 | 22 => 36 + 7 * left - (p - 17)
  | 23 => 37 + 7 * left
  | 24 => 35
  | 25 | 26 | 27 | 28 | 29 => 16 + 6 * Z.to_nat (j l) - (p - 25)
  | 30 => 17 + 6 * Z.to_nat (j l)
  | _ => 46 - p
  end%nat.

Definition customer_work l (p : nat) : nat :=
  let drinks := (2 * order_work * Z.to_nat (10 - i l))%nat in
  let homes := (order_work + 2 * order_work * Z.to_nat (NBARTENDERS - j l))%nat in
  let leave := (order_work + 2 * order_work * Z.to_nat NBARTENDERS)%nat in
  match p with
  | 0 => leave + 40 + 20 * order_work
  | 1 | 2 | 3 | 4 | 5 | 6 | 7 => leave + 40 + drinks - p
  | 8 | 9 | 10 | 11 | 12 | 13 | 14 => leave + 40 + drinks - order_work - p
  | 15 => leave + 40 + drinks
  | 16 | 17 | 18 | 19 | 20 | 21 | 22 => leave + 50 - p
  | 23 | 24 | 25 | 26 | 27 | 28 | 29 => homes - (p - 23)
  | 30 | 31 | 32 | 33 | 34 | 35 | 36 => homes - order_work - (p - 23)
  | 37 => homes + 1
  | _ => 100 - p
  end%nat.

Definition host_work l (p : nat) : nat :=
  let left := Z.to_nat (NCUSTOMERS + NBARTENDERS - i l) in
  let unread := Z.to_nat (NBOTTLES - i l) in
  match p with
  | 0 => 101 + 5 * Z.to_nat (NCUSTOMERS + NBARTENDERS)
  | 1 | 2 | 3 => 101 + 5 * left - p
  | 4 => 101 + 5 * left
  | 5 => 99
  | 6 => 40 + 5 * unread
  | 7 => 39 + 5 * unread
  | 8 => 41 + 5 * unread
  | _ => 0
  end%nat.

Definition work th : nat :=
  match who (loc th) with
  | Host => host_work (loc th) (pc th)
  | Customer _ => customer_work (loc th) (pc th)
  | Bartender _ => bartender_work (loc th) (pc th)
  end.

Definition credit g : nat := order_work * length (line g).

#[local] Abbreviation bar_measure := (measure work credit).

Ltac work_step :=
  match goal with
  | Ht : threads ?m !! ?t = Some ?th |- (bar_measure ?m' < bar_measure ?m)%nat =>
      lazymatch m' with
      | Machine _ _ _ _ (update ?f _ _) =>
          apply (measure_work work credit (λ _ _, eq_refl) m m' f None t th Ht eq_refl eq_refl eq_refl)
      | Machine _ _ _ _ (wake resume ?w (update ?f _ _)) =>
          apply (measure_work work credit (λ _ _, eq_refl) m m' f w t th Ht eq_refl eq_refl eq_refl)
      end
  end; unfold work, credit; cbn -[Nat.mul Nat.add Nat.sub Z.to_nat Z.sub Z.add]; rewrite ?length_app;
  unfold order_work, DRINK_COMPLEXITY, NBOTTLES in *; cbn [length]; try lia.

Ltac work_instr He :=
  first
  [ eapply exec_P in He; [|done|done]; destruct He as (sem & Hs & [[Hc ->]|[Hc ->]]);
    [ by eapply (measure_sleep work credit) | work_step ]
  | eapply exec_V in He; [|done|done]; destruct He as (sem & Hs & Hu & ->); work_step
  | eapply exec_Acq in He; [|done|done]; destruct He as (lk & Hlk & Hhl & [[Hs ->]|[Hs ->]]);
    [ by eapply (measure_sleep work credit) | work_step ]
  | eapply exec_Rel in He; [|done|done]; destruct He as (lk & Hlk & Hhl & ->); work_step
  | eapply exec_Do in He; [|done|done]; destruct He as (g' & x' & Hf & ->); cbn in Hf;
    try (injection Hf as <- <-; work_step)
  | eapply exec_If in He; [|done|done]; rewrite He; clear He; cbn;
    try match goal with |- context [if ?b then _ else _] => destruct b eqn:Hb end; work_step
  | exfalso; eapply exec_finished in He; done ].

(** The instructions that may fail. *)
Ltac work_do Hf :=
  unfold create_done, put_order, get_order, load_flag, load_done, sort_order, load_bottle, pour, load_doses, store_doses,
    print_bottle, on_order in Hf; cbn in Hf;
  repeat match type of Hf with
  | context[deref ?o] => destruct o; [cbn in Hf|done]
  | context[zput ?l ?k ?x] => destruct (zput l k x); [cbn in Hf|done..]
  | context[kassert ?b] => destruct b; [cbn in Hf|done]
  | (if ?b then _ else _) = _ => destruct b; [|done]
  end;
  injection Hf as <- <-; work_step.

Lemma bar_measure_exec m m' t th :
  bar_inv m → threads m !! t = Some th → asleep th = false → exec t m = Ok m' →
  (bar_measure m' < bar_measure m)%nat.
Proof.
  intros Hinv Ht Ha He. destruct (bi_threads m Hinv t _ Ht) as [Hpr Hlo Hqu _ _ _].
  destruct th as [pr p s [w ii jj oo bb tt sp rp]]. cbn in Hpr, Ha, Hlo. subst pr s.
  destruct w as [|c|n].
  - do 9 (try destruct p as [|p]); cbn in Hlo; work_instr He; work_do Hf.
  - destruct Hlo as [_ Hlo].
    do 42 (try destruct p as [|p]); cbn in Hlo; try done; work_instr He; work_do Hf.
  - do 41 (try destruct p as [|p]); cbn in Hlo, Hqu; try done; work_instr He; try work_do Hf.
    destruct Hqu as [Hx _]. destruct (line (glob m)); [done|cbn; lia].
Qed.

(** ** No deadlock *)

Section stuck.
Context (m : machine bar_glob bar_loc).
Hypothesis Hinv : bar_inv m.
Hypothesis Hstuck : ∀ t th, threads m !! t = Some th → ready th = false.

(** Where a thread that has not finished is blocked. *)
Definition blocked th : Prop :=
  match who (loc th) with
  | Host => pc th = 2%nat ∧ count_of alldone m = 0
  | Customer c =>
      (pc th = 3 ∨ pc th = 25)%nat ∧ count_of empty m = 0 ∨
      (pc th = 4 ∨ pc th = 26)%nat ∧ count_of queue_mutex m = 0 ∨
      pc th = 13%nat ∧ count_of (done_sem c) m = 0 ∨
      pc th = 16%nat ∧ is_Some (holder cust_lock m)
  | Bartender _ =>
      pc th = 0%nat ∧ count_of full m = 0 ∨
      pc th = 1%nat ∧ count_of queue_mutex m = 0 ∨
      pc th = 13%nat ∧ count_of (bottle_mutex (bottle (loc th))) m = 0
  end.

Lemma bar_blocked_at t th : threads m !! t = Some th → finished th = false → blocked th.
Proof.
  intros Ht Hf. destruct (bi_threads m Hinv t th Ht) as [Hpr Hlo _ _ _ _]. unfold blocked, count_of.
  destruct (stuck_shape m t th (bi_sync m Hinv) Hstuck Ht Hf)
    as [(s & sem & Hi & Hs & Hc)|[(l & lk & h & Hi & Hl & Hh)|(? & ? & Hi)]];
    destruct th as [pr p b [w ii jj oo bb tt sp rp]]; cbn in Hpr; subst pr; cbn in Hi, Hlo;
    destruct w as [|c|n]; do 43 (try destruct p as [|p]); try done; injection Hi as <-; cbn in Hlo.
  all: cbn in Hlo |- *; destruct_and? Hlo; subst; try done.
  all: try (cbn in Hs; rewrite ?Hs, ?Hc); try (rewrite (holder_lookup _ _ _ Hl), Hh); clear; intuition eauto.
Qed.

(** A thread that has finished is at the end of its code. *)
Lemma finished_at t th :
  threads m !! t = Some th → finished th = true →
  (match who (loc th) with Host => 9 | Customer _ => 42 | Bartender _ => 41 end ≤ pc th)%nat.
Proof.
  intros Ht Hf. pose proof (to_prog _ _ (bi_threads m Hinv t th Ht)) as Hpr.
  destruct th as [pr p b [w ii jj oo bb tt sp rp]]. cbn in Hpr. subst pr. cbn.
  destruct w as [|c|n]; do 42 (try destruct p as [|p]); done || lia.
Qed.

Lemma nobody_queues t th : threads m !! t = Some th → in_queue th = false ∧ counting th = false.
Proof.
  intros Ht. destruct (finished th) eqn:Hf.
  - pose proof (finished_at t th Ht Hf) as Hp.
    unfold in_queue, counting, ordering, serving, is_customer, is_bartender, within.
    destruct (who (loc th)); cbn [andb orb]; try done; split;
      repeat match goal with |- context[(?a <=? ?b)%nat] => destruct (Nat.leb_spec a b); try lia end; try done;
      cbn [andb orb]; apply Nat.eqb_neq; lia.
  - pose proof (bar_blocked_at t th Ht Hf) as Hb. unfold blocked in Hb.
    unfold in_queue, counting, ordering, serving, is_customer, is_bartender.
    destruct (who (loc th)); [done|..];
    repeat match type of Hb with _ ∨ _ => destruct Hb as [Hb|Hb] end; destruct Hb as [Hb _];
    try destruct Hb as [Hb|Hb]; rewrite Hb; done.
Qed.

Lemma mutex_free : count_of queue_mutex m = 1.
Proof.
  pose proof (bi_laws m Hinv LMutex I) as Hl.
  change (weight LMutex) with (λ th : thread, b2z (in_queue th)) in Hl. cbn in Hl.
  rewrite total_zero in Hl; [lia|]. intros t th Ht. by rewrite (proj1 (nobody_queues t th Ht)).
Qed.

Lemma lock_free : holder cust_lock m = None.
Proof.
  destruct (holder cust_lock m) as [h|] eqn:Hh; [exfalso|done].
  destruct (guarded_holder _ _ m h (bi_lock m Hinv) Hh) as (th & Ht & Hc).
  by rewrite (proj2 (nobody_queues h th Ht)) in Hc.
Qed.

Lemma occ_take b k (l : list Z) : 0 < occ b (take (Z.to_nat k) l) → ∃ k', k' < k ∧ zget l k' = Some b.
Proof.
  intros (n & x & Hx & Hb)%total_pos. destruct (Z.eqb_spec x b) as [->|]; [|done].
  apply lookup_take_Some in Hx as [Hx Hn]. exists (Z.of_nat n). split; [lia|].
  unfold zget. by rewrite decide_True, Nat2Z.id by lia.
Qed.

(** Who holds a bottle waits for another one. *)
Lemma holds_waits t th b :
  threads m !! t = Some th → 0 < occ b (bottles_held th) →
  ∃ n, who (loc th) = Bartender n ∧ pc th = 13%nat ∧ count_of (bottle_mutex (bottle (loc th))) m = 0.
Proof.
  intros Ht Ho. unfold bottles_held, got, is_bartender in Ho.
  destruct (finished th) eqn:Hf.
  - pose proof (finished_at t th Ht Hf) as Hp. destruct (who (loc th)); try done.
    exfalso. revert Hp Ho. generalize (pc th). intros p. by do 41 (try destruct p as [|p]; [lia|]).
  - pose proof (bar_blocked_at t th Ht Hf) as Hb. unfold blocked in Hb. destruct (who (loc th)) as [| |n]; try done.
    destruct Hb as [[Hb _]|[[Hb _]|Hb]]; [by rewrite Hb in Ho..|]. by exists n.
Qed.

(** Who waits for a bottle waits for a bartender that waits for a greater one. *)
Lemma waits_for_greater t th n :
  threads m !! t = Some th → who (loc th) = Bartender n → pc th = 13%nat →
  count_of (bottle_mutex (bottle (loc th))) m = 0 →
  ∃ t' th' n', threads m !! t' = Some th' ∧ who (loc th') = Bartender n' ∧ pc th' = 13%nat ∧
    count_of (bottle_mutex (bottle (loc th'))) m = 0 ∧ bottle (loc th) < bottle (loc th') ≤ NBOTTLES.
Proof.
  assert (∀ t th n, threads m !! t = Some th → who (loc th) = Bartender n → pc th = 13%nat →
    0 ≤ ord (loc th) < NCUSTOMERS ∧ zget (recipe (ord (loc th))) (j (loc th)) = Some (bottle (loc th)) ∧
    1 ≤ bottle (loc th) ≤ NBOTTLES ∧ bottles_held th = take (Z.to_nat (j (loc th))) (recipe (ord (loc th)))) as Hat.
  { clear t th n. intros t th n Ht Hw Hp. destruct (bi_threads m Hinv t th Ht) as [_ Hlo _ _ _ _].
    unfold local_ok in Hlo. rewrite Hw, Hp in Hlo. destruct Hlo as (Ho & Hj & Hz & Hb0).
    pose proof (rc_range _ (recipe_spec _ Ho) _ _ Hz). split; [done|]. split; [done|]. split; [lia|].
    unfold bottles_held, got, is_bartender. by rewrite Hw, Hp. }
  intros Ht Hw Hp Hc. destruct (Hat t th n Ht Hw Hp) as (Ho & Hz & Hb & _).
  pose proof (bi_laws m Hinv (LBottle (bottle (loc th))) Hb) as Hl.
  change (weight (LBottle (bottle (loc th)))) with (λ th', occ (bottle (loc th)) (bottles_held th')) in Hl. cbn in Hl.
  destruct (total_pos (λ th', occ (bottle (loc th)) (bottles_held th')) (threads m) ltac:(lia)) as (t' & th' & Ht' & Hocc).
  destruct (holds_waits t' th' _ Ht' Hocc) as (n' & Hw' & Hp' & Hc').
  destruct (Hat t' th' n' Ht' Hw' Hp') as (Ho' & Hz' & Hb' & Eh). rewrite Eh in Hocc.
  destruct (occ_take _ _ _ Hocc) as (k & Hk & Hzk). exists t', th', n'. split_and!; try done; [|lia].
  apply (rc_incr _ (recipe_spec _ Ho') k _ _ _ Hk Hzk Hz'); lia.
Qed.

Lemma no_bottle t th n :
  threads m !! t = Some th → who (loc th) = Bartender n → pc th = 13%nat →
  count_of (bottle_mutex (bottle (loc th))) m = 0 → False.
Proof.
  remember (Z.to_nat (NBOTTLES - bottle (loc th))) as k eqn:Ek. revert t th n Ek.
  induction k as [k IH] using lt_wf_ind. intros t th n Ek Ht Hw Hp Hc.
  destruct (waits_for_greater t th n Ht Hw Hp Hc) as (t' & th' & n' & Ht' & Hw' & Hp' & Hc' & Hlt).
  eapply (IH (Z.to_nat (NBOTTLES - bottle (loc th')))); [lia|reflexivity|done..].
Qed.

(** What is left: customers wait for room or for a drink, bartenders for orders. *)
Lemma settled t th :
  threads m !! t = Some th → finished th = false →
  match who (loc th) with
  | Host => pc th = 2%nat ∧ count_of alldone m = 0
  | Customer c => (pc th = 3 ∨ pc th = 25)%nat ∧ count_of empty m = 0 ∨ pc th = 13%nat ∧ count_of (done_sem c) m = 0
  | Bartender _ => pc th = 0%nat ∧ count_of full m = 0
  end.
Proof.
  intros Ht Hf. pose proof (bar_blocked_at t th Ht Hf) as Hb. unfold blocked in Hb.
  rewrite mutex_free, lock_free in Hb. destruct (who (loc th)) as [|c|n] eqn:Hw; [done|..].
  - destruct Hb as [?|[[_ ?]|[?|[_ [? ?]]]]]; [by left|done|by right|done].
  - destruct Hb as [?|[[_ ?]|[Hp Hc]]]; [done..|]. by destruct (no_bottle t th n).
Qed.

(** Nobody is in the middle of something. *)
Lemma at_rest t th :
  threads m !! t = Some th →
  weight LEmpty th = 0 ∧ weight LFull th = 0 ∧ deciding th = false ∧ ∀ c, holds c th = false.
Proof.
  intros Ht. unfold weight, owns_empty, freed, filled, owns_full, deciding, holds, ordering, serving, is_customer, is_bartender.
  destruct (finished th) eqn:Hf.
  - pose proof (finished_at t th Ht Hf) as Hp.
    revert Hp. generalize (pc th). intros p Hp. destruct (who (loc th)); [done|..].
    + by do 42 (try destruct p as [|p]; [lia|]).
    + by do 41 (try destruct p as [|p]; [lia|]).
  - pose proof (settled t th Ht Hf) as Hs. destruct (who (loc th)); [done|..].
    + destruct Hs as [[[Hp|Hp] _]|[Hp _]]; by rewrite Hp.
    + destruct Hs as [Hp _]; by rewrite Hp.
Qed.

Lemma bartenders_total : total (λ th, b2z (is_bartender th)) (threads m) = NBARTENDERS.
Proof.
  pose proof (staff_total m Hinv) as Hs. pose proof (customers_total m Hinv) as Hc.
  rewrite <-(total_ext (λ th, b2z (negb (is_host th)) - b2z (is_customer th))).
  - rewrite total_sub. lia.
  - intros t th _. unfold is_host, is_customer, is_bartender. by destruct (who (loc th)).
Qed.

Lemma law_home :
  occ NCUSTOMERS (line (glob m)) + total (λ th, b2z (took_home th)) (threads m) = total sent_home (threads m).
Proof.
  pose proof (bi_laws m Hinv LHome I) as Hl.
  change (weight LHome) with (λ th : thread, b2z (took_home th) - sent_home th) in Hl.
  rewrite (total_sub (λ th, b2z (took_home th)) sent_home) in Hl. cbn in Hl. lia.
Qed.

(** The last customer sends all the bartenders home. *)
Lemma sent_range t th : threads m !! t = Some th → 0 ≤ sent_home th ≤ NBARTENDERS * b2z (home th).
Proof.
  intros Ht. destruct (bi_threads m Hinv t th Ht) as [_ Hlo _ _ _ _]. unfold sent_home, home, local_ok, is_customer in *.
  destruct (who (loc th)) as [|c|n]; [cbn; lia| |cbn; lia]. destruct Hlo as [_ Hlo]. revert Hlo. generalize (pc th).
  intros p Hlo. do 42 (try destruct p as [|p]); cbn -[Z.mul] in *; try lia;
    destruct (ord (loc th) =? NCUSTOMERS); cbn -[Z.mul]; lia.
Qed.

Lemma empty_line : zlen (line (glob m)) = 0 → line (glob m) = [].
Proof. unfold zlen. intros H. apply nil_length_inv. lia. Qed.

(** Everybody has a drink once the queue is empty. *)
Lemma served t th : line (glob m) = [] → threads m !! t = Some th → is_customer th = true → finished th = true.
Proof.
  intros El Ht Hc. destruct (finished th) eqn:Hf; [done|exfalso]. pose proof (settled t th Ht Hf) as Hs.
  unfold is_customer in Hc. destruct (who (loc th)) as [|c|] eqn:Hw; try done.
  destruct Hs as [[_ He]|[Hp Hd]].
  - pose proof (bi_laws m Hinv LEmpty I) as Hl. cbn [stock balance] in Hl. rewrite He, El, total_zero in Hl.
    + unfold QUEUE_SIZE in Hl. change (zlen []) with 0 in Hl. lia.
    + intros k x Hx. by apply at_rest in Hx as [? _].
  - destruct (bi_threads m Hinv t th Ht) as [_ Hlo _ _ _ _]. unfold local_ok in Hlo. rewrite Hw in Hlo.
    pose proof (law_token m c Hinv (proj1 Hlo)) as Hl.
    rewrite Hd, El, (submitted_le m c t th Hinv Ht Hw), (total_zero (λ th, b2z (holds c th))) in Hl.
    + unfold submitted in Hl. by rewrite Hw, Hp, Z.eqb_refl in Hl.
    + intros k x Hx. apply at_rest in Hx as (_ & _ & _ & Hx). by rewrite Hx.
Qed.

Lemma nobody_decides : total (λ th, b2z (deciding th)) (threads m) = 0.
Proof. apply total_zero. intros t th (_ & _ & -> & _)%at_rest. done. Qed.

Lemma took_home_le t th : threads m !! t = Some th → b2z (took_home th) ≤ b2z (is_bartender th).
Proof. intros _. unfold took_home. by destruct (is_bartender th), (5 <=? pc th)%nat, (ord (loc th) =? NCUSTOMERS). Qed.

Lemma sent_total : total sent_home (threads m) ≤ NBARTENDERS * total (λ th, b2z (home th)) (threads m).
Proof. rewrite <-total_scale. apply total_mono. intros t th Ht. by apply (sent_range t). Qed.

Lemma bartenders_finished t th : threads m !! t = Some th → is_bartender th = true → finished th = true.
Proof.
  intros Ht Hb. destruct (finished th) eqn:Hf; [done|exfalso]. pose proof (settled t th Ht Hf) as Hs.
  unfold is_bartender in Hb. destruct (who (loc th)) as [| |n] eqn:Hw; try done. destruct Hs as [Hp Hfu].
  assert (line (glob m) = []) as El.
  { apply empty_line. pose proof (bi_laws m Hinv LFull I) as Hl. cbn [stock balance] in Hl.
    rewrite Hfu, total_zero in Hl; [lia|]. intros k x Hx. by apply at_rest in Hx as (_ & ? & _). }
  assert (∀ k x, threads m !! k = Some x → is_customer x = true → (42 ≤ pc x)%nat) as Hcf.
  { intros k x Hx Hc. pose proof (finished_at k x Hx (served k x El Hx Hc)) as Hp'.
    unfold is_customer in Hc. by destruct (who (loc x)). }
  assert (customers (glob m) = 0) as Hc0.
  { pose proof (bi_laws m Hinv LCustomers I) as Hl. cbn [stock balance] in Hl.
    pose proof (customers_total m Hinv) as Hct. rewrite (total_ext (weight LCustomers) (λ th, b2z (is_customer th))) in Hl; [lia|].
    intros k x Hx. cbn. unfold has_left. destruct (is_customer x) eqn:Hc; [|done]. pose proof (Hcf k x Hx Hc).
    cbn [andb]. by rewrite (proj2 (Nat.leb_le _ _)) by lia. }
  pose proof (bi_home m Hinv) as Hh. rewrite Hc0, nobody_decides in Hh. cbn in Hh.
  pose proof law_home as Hlh. rewrite El in Hlh. rewrite (total_ext sent_home (λ th, NBARTENDERS * b2z (home th))) in Hlh.
  - rewrite total_scale, Hh in Hlh. pose proof bartenders_total as Hbt.
    pose proof (total_less _ _ (threads m) t th (λ k x, took_home_le k x) Ht) as Hlt. cbn beta in Hlt.
    assert (is_bartender th = true) as Eb by (unfold is_bartender; by rewrite Hw).
    assert (took_home th = false) as Eh by (unfold took_home; by rewrite Eb, Hp).
    rewrite Eb, Eh in Hlt. rewrite occ_nil in Hlh. cbn [b2z] in Hlt. lia.
  - intros k x Hx. unfold sent_home. destruct (home x) eqn:E; [|cbn; lia].
    assert (is_customer x = true) as Hc by (unfold home in E; by destruct (is_customer x)). pose proof (Hcf k x Hx Hc).
    rewrite (proj2 (Nat.leb_gt _ 22)), (proj2 (Nat.leb_gt _ 29)), (proj2 (Nat.leb_gt _ 36)), (proj2 (Nat.eqb_neq _ 37)) by lia.
    cbn; lia.
Qed.

Lemma all_home : total (λ th, b2z (took_home th)) (threads m) = NBARTENDERS.
Proof.
  rewrite <-bartenders_total. apply total_ext. intros t th Ht. unfold took_home.
  destruct (is_bartender th) eqn:Hb; [|done].
  pose proof (finished_at t th Ht (bartenders_finished t th Ht Hb)) as Hp.
  destruct (bi_threads m Hinv t th Ht) as [_ Hlo _ _ _ _]. unfold local_ok, is_bartender in *.
  destruct (who (loc th)); try done. revert Hp Hlo. generalize (pc th). intros p Hp.
  do 41 (try destruct p as [|p]; [lia|]). cbn. intros ->. by rewrite Z.eqb_refl.
Qed.

Lemma customers_finished t th : threads m !! t = Some th → is_customer th = true → finished th = true.
Proof.
  intros Ht Hc. destruct (finished th) eqn:Hf; [done|exfalso]. pose proof (settled t th Ht Hf) as Hs.
  pose proof law_home as Hlh. rewrite all_home in Hlh. pose proof (occ_nonneg NCUSTOMERS (line (glob m))).
  pose proof sent_total as Hst. pose proof (bi_home m Hinv) as Hh. rewrite nobody_decides in Hh.
  destruct (Z.eqb_spec (customers (glob m)) 0) as [Hc0|]; cbn in Hh; rewrite Hh in Hst; [|lia].
  destruct (has_left th) eqn:Hl; [|pose proof (customers_pos m t th Hinv Ht Hc Hl); lia].
  pose proof (total_less sent_home (λ th, NBARTENDERS * b2z (home th)) (threads m) t th
    (λ k x Hx, proj2 (sent_range k x Hx)) Ht) as Hlt. rewrite total_scale, Hh in Hlt. cbn beta in Hlt.
  destruct (bi_threads m Hinv t th Ht) as [_ Hlo _ _ _ _]. unfold has_left, is_customer in *.
  unfold local_ok in Hlo. destruct (who (loc th)) as [|c|] eqn:Hw; try done.
  destruct Hs as [[[Hp|Hp] _]|[Hp _]]; rewrite Hp in Hl, Hlo; try done.
  destruct Hlo as (_ & Ho & _ & Hj).
  assert (home th = true) as Eh by (unfold home, is_customer; by rewrite Hw, Hp, Ho, Z.eqb_refl).
  assert (sent_home th = j (loc th)) as Es by (unfold sent_home; by rewrite Eh, Hp).
  rewrite Eh, Es in Hlt. cbn [b2z] in Hlt. lia.
Qed.

Lemma host_waited t th :
  threads m !! t = Some th → who (loc th) = Host → total waited (threads m) = waited th.
Proof.
  intros Ht Hw.
  pose proof (total_insert waited (threads m) t th (Thr [] 0 false (BarLoc Host 0 0 0 0 0 0 [])) Ht) as Hi.
  change (waited (Thr [] 0 false _)) with 0 in Hi.
  rewrite (total_zero _ (<[t := _]> (threads m))) in Hi; [lia|]. intros t' th' Ht'.
  apply list_lookup_insert_Some in Ht' as [(<- & <- & _)|[Hne Ht']]; [done|].
  unfold waited. destruct (who (loc th')) eqn:E; try done. destruct Hne.
  apply (same_person m t th t' th'); try done. congruence.
Qed.

Lemma all_finished t th : threads m !! t = Some th → finished th = true.
Proof.
  intros Ht. destruct (finished th) eqn:Hf; [done|]. pose proof (settled t th Ht Hf) as Hs.
  destruct (who (loc th)) as [|c|n] eqn:Hw.
  - destruct Hs as [Hp Ha]. pose proof (law_alldone m Hinv) as Hl. rewrite Ha, (host_waited t th Ht Hw) in Hl.
    rewrite (total_ext (λ th, b2z (signalled th)) (λ th, b2z (negb (is_host th)))), (staff_total m Hinv) in Hl.
    + destruct (bi_threads m Hinv t th Ht) as [_ Hlo _ _ _ _]. unfold local_ok, waited in *.
      rewrite Hw, Hp in Hlo, Hl. lia.
    + intros k x Hx. unfold signalled, is_host. destruct (who (loc x)) eqn:E; [done|..].
      * pose proof (finished_at k x Hx (customers_finished k x Hx ltac:(unfold is_customer; by rewrite E))) as Hk.
        rewrite E in Hk. by rewrite (proj2 (Nat.leb_le _ _) Hk).
      * pose proof (finished_at k x Hx (bartenders_finished k x Hx ltac:(unfold is_bartender; by rewrite E))) as Hk.
        rewrite E in Hk. by rewrite (proj2 (Nat.leb_le _ _) Hk).
  - rewrite <-Hf. apply (customers_finished t th Ht). unfold is_customer. by rewrite Hw.
  - rewrite <-Hf. apply (bartenders_finished t th Ht). unfold is_bartender. by rewrite Hw.
Qed.

End stuck.

(** ** Closing time *)

Section finish.
Context (m : machine bar_glob bar_loc).
Hypothesis Hinv : bar_inv m.
Hypothesis Hfin : ∀ t th, threads m !! t = Some th → finished th = true.

(** Nobody has anything left to do. *)
Lemma done_shape t th :
  threads m !! t = Some th →
  match who (loc th) with
  | Host => (9 ≤ pc th)%nat ∧ i (loc th) = NBOTTLES
  | Customer c => (42 ≤ pc th)%nat ∧ i (loc th) = 10
  | Bartender _ => (41 ≤ pc th)%nat ∧ ord (loc th) = NCUSTOMERS
  end.
Proof.
  intros Ht. pose proof (finished_at m Hinv t th Ht (Hfin t th Ht)) as Hp.
  destruct (bi_threads m Hinv t th Ht) as [_ Hlo _ _ _ _]. unfold local_ok in Hlo.
  destruct (who (loc th)) as [|c|n]; (split; [done|]); revert Hp Hlo; generalize (pc th); intros p Hp Hlo.
  - by do 9 (try destruct p as [|p]; [lia|]).
  - do 42 (try destruct p as [|p]; [lia|]). by destruct Hlo as (_ & _ & ?).
  - by do 41 (try destruct p as [|p]; [lia|]).
Qed.

Lemma done_quiet t th :
  threads m !! t = Some th →
  to_pour th = [] ∧ counting th = false ∧ ordered th = 10 * b2z (is_customer th) ∧
  b2z (took_home th) = b2z (is_bartender th) ∧
  ∀ c, holds c th = false ∧ submitted c th = false.
Proof.
  intros Ht. pose proof (done_shape t th Ht) as Hd.
  unfold to_pour, counting, ordered, holds, submitted, took_home, serving, is_customer, is_bartender.
  destruct (who (loc th)) as [|c|n]; destruct Hd as [Hp Hx]; revert Hp; generalize (pc th); intros p Hp.
  - done.
  - do 42 (try destruct p as [|p]; [lia|]). rewrite Hx. cbn. split_and!; try done. intros c'. by destruct (_ =? _).
  - do 41 (try destruct p as [|p]; [lia|]). rewrite Hx. cbn. split_and!; try done. by rewrite Z.eqb_refl.
Qed.

Lemma done_line : line (glob m) = [].
Proof.
  destruct (line (glob m)) as [|x l] eqn:El; [done|exfalso].
  pose proof (go_line _ (bi_glob m Hinv)) as Hl. rewrite El in Hl. apply Forall_cons in Hl as [[Hx _] _].
  assert (1 ≤ occ x (line (glob m))) as Ho by (apply occ_elem; rewrite El; left).
  destruct (decide (x = NCUSTOMERS)) as [->|].
  - pose proof (law_home m Hinv) as Hh. pose proof (sent_total m Hinv) as Hs. rewrite (bi_home m Hinv) in Hs.
    rewrite (total_ext (λ th, b2z (took_home th)) (λ th, b2z (is_bartender th))), (bartenders_total m Hinv) in Hh.
    + destruct (_ && _) in Hs; cbn [b2z] in Hs; lia.
    + intros t th (_ & _ & _ & ? & _)%done_quiet. done.
  - pose proof (law_token m x Hinv ltac:(lia)) as Hk. pose proof (bar_count_nonneg m (done_sem x) Hinv).
    rewrite (total_zero (λ th, b2z (holds x th))), (total_zero (λ th, b2z (submitted x th))) in Hk; [lia|..];
      intros t th (_ & _ & _ & _ & Hc)%done_quiet; destruct (Hc x) as [Hc1 Hc2]; by rewrite ?Hc1, ?Hc2.
Qed.

(** The doses poured are those ordered. *)
Lemma done_doses b : 1 ≤ b ≤ NBOTTLES →
  doses b (glob m) = 10 * total (λ c, occ b (recipe c)) (seqZ 0 NCUSTOMERS).
Proof.
  intros Hb. pose proof (bi_laws m Hinv (LDose b) Hb) as Hl. cbn [stock balance] in Hl. rewrite done_line in Hl.
  set (f := λ p, match p with Customer c => 10 * occ b (recipe c) | _ => 0 end).
  rewrite (total_ext (weight (LDose b)) (λ th, 0 - f (who (loc th)))) in Hl.
  - rewrite (total_sub (λ _ : thread, 0) (λ th, f (who (loc th)))), (total_zero (λ _, 0)) in Hl by done.
    rewrite <-(total_map (λ th : thread, who (loc th)) f), (bi_people m Hinv) in Hl. unfold people in Hl.
    rewrite total_cons, total_app, !total_map, (total_zero _ (seqZ 0 NBARTENDERS)) in Hl by done.
    unfold f in Hl. rewrite total_scale in Hl. change (total _ []) with 0 in Hl. lia.
  - intros t th Ht. pose proof (done_quiet t th Ht) as (Hp & _ & Ho & _). cbn [weight]. rewrite Hp, Ho, occ_nil.
    unfold f, who_ordered, is_customer. destruct (who (loc th)); cbn [b2z]; lia.
Qed.

Lemma done_report t th :
  threads m !! t = Some th → who (loc th) = Host → report (loc th) = bottles (glob m).
Proof.
  intros Ht Hw. pose proof (done_shape t th Ht) as Hd. destruct (bi_threads m Hinv t th Ht) as [_ _ _ _ Hdo _].
  unfold dose_ok in Hdo. rewrite Hw in Hd, Hdo. destruct Hd as [Hp Hi]. rewrite Hi in Hdo.
  rewrite <-(go_bottles _ (bi_glob m Hinv)) in Hdo. unfold zlen in Hdo. rewrite Nat2Z.id, firstn_all in Hdo.
  revert Hp Hdo. generalize (pc th). intros p Hp. by do 6 (try destruct p as [|p]; [lia|]).
Qed.

Lemma destroy_done ss : (∀ s, s ∈ ss → s ∈ sems m) → destroy_all ss = Ok tt.
Proof.
  induction ss as [|s ss IH]; intros Hs; [done|]. cbn.
  destruct (proj1 (list_elem_of_lookup (sems m) s) (Hs s ltac:(left))) as [k Hk].
  rewrite (finished_sem_destroy m k s (bi_sync m Hinv) Hfin Hk). apply IH. intros s' H'. apply Hs. by right.
Qed.

Lemma done_end : run_bar_end m = Ok (set_rear 0 (line (glob m)) (set_front 0 (line (glob m)) (glob m))).
Proof.
  unfold run_bar_end, bar_close. rewrite !destroy_done.
  - cbn. destruct (gu_lock _ _ m (bi_lock m Hinv)) as [lk Hlk]. rewrite Hlk. cbn.
    assert (lk_holder lk = None) as Hh.
    { rewrite <-(holder_lookup _ _ _ Hlk). destruct (holder cust_lock m) as [h|] eqn:Hh; [exfalso|done].
      destruct (guarded_holder _ _ m h (bi_lock m Hinv) Hh) as (th & Ht & Hc).
      apply done_quiet in Ht as (_ & Hq & _). congruence. }
    rewrite (finished_lock_destroy m _ lk (bi_sync m Hinv) Hfin Hlk Hh). cbn.
    destruct (lookup_lt_is_Some_2 (sems m) alldone) as [sem Hs].
    { pose proof (bi_sems m Hinv). unfold zlen, alldone, NBOTTLES in *. lia. }
    rewrite Hs. cbn. by rewrite (finished_sem_destroy m alldone sem (bi_sync m Hinv) Hfin Hs).
  - intros s Hs. by eapply subseteq_take.
  - intros s Hs. by eapply subseteq_drop, subseteq_take.
Qed.

End finish.

End bar.
