(* ===== verification/BarSpec.v ===== *)
(** * The bar of assignment 1: what it guarantees

    The properties of the program of Bar.v under every schedule, from the invariant
    of BarInv.v; and two runs that show what goes wrong outside its assumptions. *)

From stdpp Require Import base list list_numbers.
From Stdlib Require Import ZArith Lia.
From S2P Require Import Prelude Synch Bar BarInv.
Open Scope Z_scope.

(** ** The orders that can be filled *)

(** The drink has three ingredients and its bottles, once sorted, come in
    increasing order. *)
Definition drink_ok (d : list Z) : Prop :=
  zlen d = DRINK_COMPLEXITY ∧ recipe_ok (sort_order_requested_bottles d).

Lemma three (d : list Z) : zlen d = DRINK_COMPLEXITY → ∃ x y z, d = [x; y; z].
Proof.
  unfold zlen, DRINK_COMPLEXITY. destruct d as [|x [|y [|z [|? ?]]]]; cbn; intros H; try lia. eauto.
Qed.

(** Since the first bottle is not sorted, it has to be the smallest one already. *)
Lemma drink_ok_first x y z :
  0 ≤ x ≤ NBOTTLES → 0 ≤ y ≤ NBOTTLES → 0 ≤ z ≤ NBOTTLES →
  (x ≠ 0 → y ≠ 0 → x < y) → (x ≠ 0 → z ≠ 0 → x < z) → (y ≠ 0 → y ≠ z) → drink_ok [x; y; z].
Proof.
  intros Hx Hy Hz H1 H2 H3. split; [done|]. rewrite sort_order_eq.
  assert (∀ (a b c : Z) k v, zget [a; b; c] k = Some v → k = 0 ∧ v = a ∨ k = 1 ∧ v = b ∨ k = 2 ∧ v = c) as Hget.
  { intros a b c k v Hk. pose proof (zget_Some_range _ _ _ Hk) as Hr. unfold zlen in Hr. cbn in Hr.
    assert (k = 0 ∨ k = 1 ∨ k = 2) as [ -> | [ -> | -> ] ] by lia; cbn in Hk; injection Hk as ->; auto. }
  destruct (Z.ltb_spec z y) as [Hlt|Hge]; split; try done.
  1,3: intros k b Hk%Hget; lia.
  all: intros k1 k2 b1 b2 Hlt' Hk1%Hget Hk2%Hget; lia.
Qed.

Lemma occ_sort b d : zlen d = DRINK_COMPLEXITY → occ b (sort_order_requested_bottles d) = occ b d.
Proof.
  intros (x & y & z & ->)%three. rewrite sort_order_eq. destruct (z <? y); rewrite !occ_cons, !occ_nil; lia.
Qed.

(** ** The setting *)

(** The numbers of people that the counters can hold, orders that can be filled,
    and a stack that keeps the flag of the order to go home after the function
    that owns it has returned. *)
Record bar_setting (NCUSTOMERS NBARTENDERS : Z) (drink : Z → list Z) (frame_reused : barorder → barorder) : Prop := {
  bs_customers : 0 < NCUSTOMERS ∧ 10 * NCUSTOMERS < two31;
  bs_bartenders : 0 < NBARTENDERS ∧ NCUSTOMERS + NBARTENDERS < two31;
  bs_drinks c : 0 ≤ c < NCUSTOMERS → drink_ok (drink c);
  bs_flag o : go_home_flag o ≠ 0 → go_home_flag (frame_reused o) ≠ 0;
  bs_contents o : zlen (contents o) = DRINK_COMPLEXITY → zlen (contents (frame_reused o)) = DRINK_COMPLEXITY
}.

Definition bar_init (NCUSTOMERS NBARTENDERS : Z) (drink : Z → list Z) (frame_reused : barorder → barorder)
    (m : machine bar_glob bar_loc) : Prop :=
  ∃ q junk, zlen q = QUEUE_SIZE NBARTENDERS ∧ stacks_ok NCUSTOMERS junk ∧
    m = run_bar NCUSTOMERS NBARTENDERS drink frame_reused q junk.

Section spec.
Context (NCUSTOMERS NBARTENDERS : Z) (drink : Z → list Z) (frame_reused : barorder → barorder).
Hypothesis setting : bar_setting NCUSTOMERS NBARTENDERS drink frame_reused.

#[local] Abbreviation init := (bar_init NCUSTOMERS NBARTENDERS drink frame_reused).
#[local] Abbreviation inv := (bar_inv NCUSTOMERS NBARTENDERS drink frame_reused).

Lemma setting_recipes c : 0 ≤ c < NCUSTOMERS → recipe_ok (sort_order_requested_bottles (drink c)).
Proof. intros Hc. by apply (bs_drinks _ _ _ _ setting). Qed.

Lemma bar_inv_reachable m : reachable init mstep m → inv m.
Proof.
  destruct setting as [Hc Hb _ Hf Hk]. pose proof setting_recipes as Hd. apply reachable_invariant.
  - intros s (q & junk & Hq & Hj & ->). by apply bar_run_inv.
  - intros s s'. by apply bar_inv_mstep.
Qed.

(** Each thread that is ready can execute its next instruction. *)
Lemma bar_progress m t th : inv m → threads m !! t = Some th → ready th = true → ∃ m', exec t m = Ok m'.
Proof.
  intros Hinv Ht [_ Hr]%andb_true_iff. destruct setting as [Hc Hb _ _ _]. pose proof setting_recipes as Hd.
  apply (bar_exec_total NCUSTOMERS NBARTENDERS drink frame_reused) with th; try done.
  apply bool_decide_eq_true in Hr as [x Hx]. unfold finished. by rewrite Hx.
Qed.

Lemma bar_ends m : inv m → Acc (λ m2 m1, mstep m1 m2) m.
Proof.
  destruct setting as [Hc Hb _ Hf Hk]. pose proof setting_recipes as Hd.
  apply (measure_acc (work NCUSTOMERS NBARTENDERS) credit inv).
  - intros s s'. by apply bar_inv_mstep.
  - intros s s' t th. by apply bar_measure_exec.
Qed.

(** How much of each bottle the customers have ordered. *)
Definition ordered_doses : list Z :=
  map (λ b, 10 * total (λ c, occ b (drink c)) (seqZ 0 NCUSTOMERS)) (seqZ 1 NBOTTLES).

Lemma bar_bottles m :
  inv m → (∀ t th, threads m !! t = Some th → finished th = true) → bottles (glob m) = ordered_doses.
Proof.
  intros Hinv Hfin. destruct setting as [Hc Hb Hd _ _]. pose proof (go_bottles _ _ _ _ (bi_glob _ _ _ _ m Hinv)) as Hl.
  unfold zlen in Hl. apply list_eq_same_length with 10%nat.
  - unfold ordered_doses. by rewrite length_map, length_seqZ.
  - unfold NBOTTLES in Hl. lia.
  - intros k x y Hk Hx Hy. unfold ordered_doses in Hy. apply list_lookup_fmap_Some in Hy as (b & -> & Hb').
    apply lookup_seqZ in Hb' as [-> Hk'].
    pose proof (done_doses _ _ _ _ Hc Hb m Hinv Hfin (1 + Z.of_nat k) ltac:(lia)) as E.
    unfold doses in E. replace (1 + Z.of_nat k - 1) with (Z.of_nat k) in E by lia.
    unfold zget in E. rewrite decide_True, Nat2Z.id, Hx in E by lia. rewrite E. f_equal. apply total_ext.
    intros n c Hc'. apply lookup_seqZ in Hc' as [-> Hn]. unfold recipe.
    rewrite (proj2 (Z.ltb_lt _ _)) by lia. apply occ_sort, Hd. lia.
Qed.

(** A bartender that pours from a bottle has it. *)
Lemma pouring_held m t th n :
  inv m → threads m !! t = Some th → who (loc th) = Bartender n → pc th = 20%nat ∨ pc th = 21%nat →
  bottle (loc th) ∈ bottles_held NCUSTOMERS drink th.
Proof.
  intros Hinv Ht Hw Hp. destruct (bi_threads _ _ _ _ m Hinv t th Ht) as [_ Hlo _ _ _ _]. unfold local_ok in Hlo.
  assert (0 ≤ ord (loc th) < NCUSTOMERS ∧ zget (recipe NCUSTOMERS drink (ord (loc th))) (j (loc th)) = Some (bottle (loc th)))
    as [Ho Hz] by (destruct Hp as [Hp|Hp]; rewrite Hw, Hp in Hlo; tauto).
  unfold bottles_held. assert (got th = DRINK_COMPLEXITY) as ->.
  { unfold got, is_bartender. destruct Hp as [Hp|Hp]; by rewrite Hw, Hp. }
  assert (zlen (recipe NCUSTOMERS drink (ord (loc th))) = DRINK_COMPLEXITY) as Hl.
  { unfold recipe. rewrite (proj2 (Z.ltb_lt _ _)) by lia. by apply rc_len, setting_recipes. }
  rewrite take_ge by (unfold zlen in Hl; lia). unfold zget in Hz. case_decide; [|done].
  by eapply list_elem_of_lookup_2.
Qed.

End spec.

(** ** Properties *)

(** C19: the bar works.  Under every schedule each thread that is ready can execute
    its next instruction (no assertion fails, no access leaves an array, no pointer
    is invalid) and the program ends after finitely many steps.  When it has ended,
    everybody has gone home, each bottle has given exactly the doses that were
    ordered of it, these are what [run_bar] prints, and all the semaphores and the
    lock can be destroyed.  The assumptions: each order names different bottles and
    its first bottle is its smallest ([drink_ok]), the stack frame of [go_home] keeps
    its flag after the function has returned (both in [bar_setting]), the byte
    [is_semaphore_init] on the customers' stacks is 0 ([stacks_ok]), and the numbers of
    customers and bartenders fit the counters. *)
Theorem bar_correct NCUSTOMERS NBARTENDERS drink frame_reused m
  (Hs : bar_setting NCUSTOMERS NBARTENDERS drink frame_reused)
  (Hr : reachable (bar_init NCUSTOMERS NBARTENDERS drink frame_reused) mstep m) :
  (∀ t th, threads m !! t = Some th → ready th = true → ∃ m', exec t m = Ok m') ∧
  Acc (λ m2 m1, mstep m1 m2) m ∧
  ((∀ t th, threads m !! t = Some th → ready th = false) →
   (∀ t th, threads m !! t = Some th → finished th = true) ∧
   bottles (glob m) = ordered_doses NCUSTOMERS drink ∧
   (∀ t th, threads m !! t = Some th → who (loc th) = Host → report (loc th) = bottles (glob m)) ∧
   ∃ g, run_bar_end m = Ok g ∧ queue_front g = 0 ∧ queue_rear g = 0 ∧ bottles g = bottles (glob m)).
Proof.
  pose proof (bar_inv_reachable _ _ _ _ Hs m Hr) as Hinv. split_and!.
  - intros t th. by apply (bar_progress _ _ _ _ Hs).
  - by apply (bar_ends _ _ _ _ Hs).
  - intros Hstuck. pose proof (setting_recipes _ _ _ _ Hs) as Hd.
    assert (∀ t th, threads m !! t = Some th → finished th = true) as Hfin.
    { destruct Hs as [Hc Hb _ _ _]. by apply (all_finished _ _ _ _ Hc Hb Hd m Hinv). }
    split; [done|]. split; [by apply (bar_bottles _ _ _ frame_reused Hs)|]. split.
    + by apply (done_report NCUSTOMERS NBARTENDERS drink frame_reused).
    + destruct Hs as [Hc _ _ _ _]. eexists. split; [by apply (done_end NCUSTOMERS NBARTENDERS drink frame_reused)|done].
Qed.

(** C20: who orders is served.  In every reachable state, a customer that is back from
    [order_drink] has in its glass exactly the bottles of its order, sorted; two
    threads never update the doses of the same bottle at the same time; a bartender
    that pours from a bottle has its mutex; and two bartenders never have the same
    bottle. *)
Theorem bar_serves NCUSTOMERS NBARTENDERS drink frame_reused m
  (Hs : bar_setting NCUSTOMERS NBARTENDERS drink frame_reused)
  (Hr : reachable (bar_init NCUSTOMERS NBARTENDERS drink frame_reused) mstep m) :
  (∀ t th c, threads m !! t = Some th → who (loc th) = Customer c → pc th = 14%nat →
     ∃ o, zget (orders (glob m)) c = Some o ∧ contents o = sort_order_requested_bottles (drink c)) ∧
  (∀ t th n, threads m !! t = Some th → who (loc th) = Bartender n → pc th = 20%nat ∨ pc th = 21%nat →
     bottle (loc th) ∈ bottles_held NCUSTOMERS drink th) ∧
  (∀ t1 t2 th1 th2 b, threads m !! t1 = Some th1 → threads m !! t2 = Some th2 → t1 ≠ t2 → 1 ≤ b ≤ NBOTTLES →
     b ∈ bottles_held NCUSTOMERS drink th1 → b ∉ bottles_held NCUSTOMERS drink th2).
Proof.
  pose proof (bar_inv_reachable _ _ _ _ Hs m Hr) as Hinv. split_and!.
  - intros t th c Ht Hw Hp. destruct (bi_threads _ _ _ _ m Hinv t th Ht) as [_ Hlo _ Hor _ _].
    unfold local_ok in Hlo. unfold order_ok in Hor. rewrite Hw, Hp in Hlo, Hor.
    destruct Hor as [(o & Ho & _ & Hcon) _]. exists o. split; [done|]. rewrite Hcon. unfold recipe.
    by rewrite (proj2 (Z.ltb_lt _ _)) by lia.
  - intros t th n. by apply (pouring_held _ _ _ _ Hs).
  - intros t1 t2 th1 th2 b H1 H2 Hne Hb. destruct Hs as [Hc _ _ _ _].
    by eapply (bottle_alone NCUSTOMERS NBARTENDERS drink frame_reused m b t1 th1 t2 th2).
Qed.

(** *** Concrete runs *)

Definition bar_demo_order : barorder := BarOrder [0; 0; 0] 0 [0; 0; 0] None 0.

(** Two customers with the drinks of the driver and two bartenders. *)
Definition bar_demo (n : nat) : machine bar_glob bar_loc :=
  run_sched n (run_bar 2 2 driver_drink id [0; 0] (replicate 3 bar_demo_order)).

Lemma driver_setting NCUSTOMERS NBARTENDERS :
  0 < NCUSTOMERS ∧ 10 * NCUSTOMERS < two31 → 0 < NBARTENDERS ∧ NCUSTOMERS + NBARTENDERS < two31 →
  bar_setting NCUSTOMERS NBARTENDERS driver_drink id.
Proof. intros Hc Hb. split; try done. intros c _. by apply drink_ok_first. Qed.

Lemma demo_stacks n : stacks_ok (Z.of_nat n) (replicate (S n) bar_demo_order).
Proof.
  split.
  - unfold zlen. rewrite length_replicate. lia.
  - intros x o Hx. unfold zget in Hx. case_decide; [|done]. by apply lookup_replicate in Hx as [-> _].
  - intros c o _ Hx. unfold zget in Hx. case_decide; [|done]. by apply lookup_replicate in Hx as [-> _].
Qed.

Lemma bar_demo_reachable n : reachable (bar_init 2 2 driver_drink id) mstep (bar_demo n).
Proof.
  apply run_sched_reachable, reach_init. exists [0; 0], (replicate 3 bar_demo_order).
  split_and!; [done|apply (demo_stacks 2)|done].
Qed.

Lemma bar_correct_witness :
  bottles (glob (bar_demo 3000)) = [20; 0; 0; 20; 20; 0; 0; 0; 0; 0] ∧
  ∃ g, run_bar_end (bar_demo 3000) = Ok g ∧ queue_front g = 0.
Proof.
  destruct (bar_correct 2 2 driver_drink id (bar_demo 3000) ltac:(by apply driver_setting) (bar_demo_reachable 3000))
    as (_ & _ & H).
  assert (∀ t th, threads (bar_demo 3000) !! t = Some th → ready th = false) as Hst.
  { apply no_ready_stuck. vm_compute. reflexivity. }
  destruct (H Hst) as (_ & Hb & _ & g & He & Hq & _). split; [rewrite Hb; reflexivity|]. exists g. split; [exact He|exact Hq].
Defined.

(** A customer that has just got its drink. *)
Lemma bar_serves_witness :
  ∃ o, zget (orders (glob (bar_demo 97))) 0 = Some o ∧ contents o = [BEER; GIN; TEQUILA].
Proof.
  destruct (bar_serves 2 2 driver_drink id (bar_demo 97) ltac:(by apply driver_setting) (bar_demo_reachable 97)) as (H & _).
  apply (H 3%nat (nth 3 (threads (bar_demo 97)) (Thr [] 0 false (BarLoc Host 0 0 0 0 0 0 []))) 0); vm_compute; reflexivity.
Defined.

(** Two orders of which one starts with the greater bottle. *)
Definition unsorted_drink (c : Z) : list Z := if c =? 0 then [2; 1; 0] else [1; 2; 0].

Definition bar_deadlock : machine bar_glob bar_loc :=
  run_order (mjoin (replicate 100 [0; 1; 2; 3; 4]%nat)) (run_bar 2 2 unsorted_drink id [0; 0] (replicate 3 bar_demo_order)).

(** The sorting of [fill_order] never moves the first bottle of an order, and
    the bar can deadlock because of it.  With the orders 2, 1 and 1, 2 there is a
    reachable state in which each bartender has one bottle and waits for the other
    one, no thread is ready and nobody has finished. *)
Theorem bar_unsorted_deadlock :
  reachable (bar_init 2 2 unsorted_drink id) mstep bar_deadlock ∧
  (∀ t th, threads bar_deadlock !! t = Some th → ready th = false) ∧
  map finished (threads bar_deadlock) = replicate 5 false ∧
  map (bottles_held 2 unsorted_drink) (take 2 (drop 1 (threads bar_deadlock))) = [[2; 0]; [1; 0]] ∧
  map (λ th, bottle (loc th)) (take 2 (drop 1 (threads bar_deadlock))) = [1; 2].
Proof.
  split; [|split; [|split]].
  - unfold bar_deadlock. apply run_order_reachable, reach_init. exists [0; 0], (replicate 3 bar_demo_order).
    split; [done|]. split; [apply (demo_stacks 2)|done].
  - refine (no_ready_stuck (threads bar_deadlock) _). vm_compute. reflexivity.
  - vm_compute. reflexivity.
  - split; vm_compute; reflexivity.
Qed.

(** The last customer runs whenever it can. *)
Definition bar_dangling : machine bar_glob bar_loc :=
  run_order (mjoin (replicate 12 (replicate 60 2 ++ replicate 100 1)))%nat
    (run_bar 1 1 driver_drink (with_flag 0) [0] (replicate 2 bar_demo_order)).

(** The order that sends a bartender home is a variable of [go_home], which
    returns without waiting for the bartender.  If that part of the stack is used
    again and the flag overwritten with zero, there is a reachable state in which a
    bartender that is ready takes the remains for the order of a customer and
    follows an invalid pointer to a semaphore. *)
Theorem bar_go_home_dangling :
  reachable (bar_init 1 1 driver_drink (with_flag 0)) mstep bar_dangling ∧
  ready <$> threads bar_dangling !! 1%nat = Some true ∧ exec 1 bar_dangling = Fault.
Proof.
  split; [|split].
  - unfold bar_dangling. apply run_order_reachable, reach_init. exists [0], (replicate 2 bar_demo_order).
    split; [done|]. split; [apply (demo_stacks 1)|done].
  - vm_compute. reflexivity.
  - vm_compute. reflexivity.
Qed.
