(* ===== verification/CopyInOut.v ===== *)
(** * Copying between kernel and user memory (kern/vm/copyinout.c)

    User memory is a partial map from addresses to bytes: an address without a
    byte, or a write to an address in [um_ro], is a fault that the machine reports
    to [tm_badfaultfunc], so that the copy stops there and returns EFAULT.  The
    copy goes upwards byte by byte; a fault leaves the bytes below it copied.
    Kernel buffers are lists of bytes. *)

From stdpp Require Import base gmap list list_numbers.
From Stdlib Require Import ZArith Lia.
From S2P Require Import Prelude FrameTable.
Open Scope Z_scope.

Definition USERSPACETOP : Z := MIPS_KSEG0.

(** The memory of the current address space [cur_as], and the kernel's own. *)
Record memory := Mem {
  um : gmap Z Z;
  um_ro : gset Z;
  km : gmap Z Z;
  cur_as : Z
}.

Implicit Types (m : memory).

Definition with_um (u : gmap Z Z) m : memory := Mem u (um_ro m) (km m) (cur_as m).
Definition with_km (k : gmap Z Z) m : memory := Mem (um m) (um_ro m) k (cur_as m).

(** The result and the [stoplen] of [copycheck]. *)
Definition copycheck (userptr len : Z) : Z * Z :=
  let stoplen := len in
  let bot := userptr in
  let top := u32 (bot + len - 1) in
  if top <? bot then (EFAULT, stoplen)
  else if USERSPACETOP <=? bot then (EFAULT, stoplen)
  else if USERSPACETOP <=? top then (0, USERSPACETOP - bot)
  else (0, stoplen).

(** [memcpy] from user memory: the bytes up to the first fault, and whether all
    of them could be read. *)
Fixpoint user_load (n : nat) (a : Z) m : list Z * bool :=
  match n with
  | O => ([], true)
  | S n =>
      match um m !! a with
      | None => ([], false)
      | Some x => let '(l, ok) := user_load n (a + 1) m in (x :: l, ok)
      end
  end.

(** [memcpy] to user memory. *)
Fixpoint user_store (l : list Z) (a : Z) m : memory * bool :=
  match l with
  | [] => (m, true)
  | x :: l =>
      if decide (is_Some (um m !! a) ∧ a ∉ um_ro m)
      then user_store l (a + 1) (with_um (<[a := x]> (um m)) m)
      else (m, false)
  end.

(** The result and the new contents of the kernel buffer, which has to be large
    enough. *)
Definition copyin (usersrc len : Z) (dest : list Z) m : outcome (Z * list Z) :=
  let '(result, stoplen) := copycheck usersrc len in
  if negb (result =? 0) then Ok (result, dest)
  else if negb (stoplen =? len) then Ok (EFAULT, dest)
  else if zlen dest <? len then Fault
  else
    let '(l, ok) := user_load (Z.to_nat len) usersrc m in
    Ok ((if ok : bool then 0 else EFAULT), l ++ drop (length l) dest).

Definition copyout (src : list Z) (userdest : Z) m : Z * memory :=
  let len := zlen src in
  let '(result, stoplen) := copycheck userdest len in
  if negb (result =? 0) then (result, m)
  else if negb (stoplen =? len) then (EFAULT, m)
  else
    let '(m, ok) := user_store src userdest m in
    ((if ok : bool then 0 else EFAULT), m).

(** The loop of [copystr] when it reads from user memory: [i] bytes have been
    copied to [dest], [fuel] is [min maxlen stoplen - i]. *)
Fixpoint copystr_in (fuel : nat) (i a maxlen stoplen : Z) (dest : list Z) m : outcome (Z * list Z) :=
  match fuel with
  | O => if stoplen <? maxlen then Ok (EFAULT, dest) else Ok (ENAMETOOLONG, dest)
  | S fuel =>
      match um m !! a with
      | None => Ok (EFAULT, dest)
      | Some x =>
          dest ← zput dest i x;
          if x =? 0 then Ok (0, dest) else copystr_in fuel (i + 1) (a + 1) maxlen stoplen dest m
      end
  end.

(** The result and the buffer; [*actual] is the length up to the terminator. *)
Definition copyinstr (usersrc len : Z) (dest : list Z) m : outcome (Z * list Z) :=
  let '(result, stoplen) := copycheck usersrc len in
  if negb (result =? 0) then Ok (result, dest)
  else copystr_in (Z.to_nat (Z.min len stoplen)) 0 usersrc len stoplen dest m.

(** The loop of [copystr] when it writes to user memory. *)
Fixpoint copystr_out (fuel : nat) (src : list Z) (a maxlen stoplen : Z) m : outcome (Z * memory) :=
  match fuel with
  | O => if stoplen <? maxlen then Ok (EFAULT, m) else Ok (ENAMETOOLONG, m)
  | S fuel =>
      match src with
      | [] => Fault
      | x :: src =>
          let '(m, ok) := user_store [x] a m in
          if negb ok then Ok (EFAULT, m)
          else if x =? 0 then Ok (0, m) else copystr_out fuel src (a + 1) maxlen stoplen m
      end
  end.

Definition copyoutstr (src : list Z) (userdest len : Z) m : outcome (Z * memory) :=
  let '(result, stoplen) := copycheck userdest len in
  if negb (result =? 0) then Ok (result, m)
  else copystr_out (Z.to_nat (Z.min len stoplen)) src userdest len stoplen m.

(** ** Properties of the copies *)

(** User memory that can be read, or written, from [a] on. *)
Definition readable m (a n : Z) : Prop := ∀ k, a ≤ k < a + n → is_Some (um m !! k).
Definition writable m (a n : Z) : Prop := ∀ k, a ≤ k < a + n → is_Some (um m !! k) ∧ k ∉ um_ro m.

(** The bytes of user memory in a range that can be read. *)
Definition ubytes m (a : Z) (n : nat) : list Z := map (λ k, default 0 (um m !! k)) (seqZ a (Z.of_nat n)).

(** User memory with the bytes [l] stored from [a] on. *)
Fixpoint ustore (u : gmap Z Z) (a : Z) (l : list Z) : gmap Z Z :=
  match l with
  | [] => u
  | x :: l => ustore (<[a := x]> u) (a + 1) l
  end.

Lemma copycheck_spec a n :
  is_u32 a → 0 < n < two32 →
  copycheck a n =
    if decide (two32 < a + n ∨ USERSPACETOP ≤ a) then (EFAULT, n) else (0, Z.min n (USERSPACETOP - a)).
Proof.
  intros Ha Hn. unfold copycheck, USERSPACETOP, MIPS_KSEG0, is_u32, two32 in *.
  destruct (decide (4294967296 < a + n)) as [Hw|Hw].
  - rewrite decide_True by (by left).
    assert (u32 (a + n - 1) = a + n - 1 - 4294967296) as -> by (unfold u32, two32; Z.to_euclidean_division_equations; lia).
    by rewrite (proj2 (Z.ltb_lt _ _)) by lia.
  - rewrite u32_id by width. rewrite (proj2 (Z.ltb_ge _ _)) by lia.
    repeat case_decide; repeat match goal with |- context [?x <=? ?y] => destruct (Z.leb_spec x y) end;
      try lia; f_equal; lia.
Qed.

Lemma ubytes_S m a n : ubytes m a (S n) = default 0 (um m !! a) :: ubytes m (a + 1) n.
Proof.
  unfold ubytes. rewrite seqZ_cons by lia. rewrite Z.add_1_r, Nat2Z.inj_succ, Z.pred_succ. done.
Qed.

Lemma length_ubytes m a n : length (ubytes m a n) = n.
Proof. unfold ubytes. rewrite length_map, length_seqZ. lia. Qed.

Lemma user_load_ok m n a : readable m a (Z.of_nat n) → user_load n a m = (ubytes m a n, true).
Proof.
  revert a. induction n as [|n IH]; intros a Hr; simpl; [done|].
  destruct (Hr a ltac:(lia)) as [x Hx]. rewrite Hx, IH; [|intros k Hk; apply Hr; lia].
  by rewrite ubytes_S, Hx.
Qed.

Lemma user_load_prefix m n a :
  ∃ k, (k ≤ n)%nat ∧ user_load n a m = (ubytes m a k, bool_decide (k = n)) ∧
    readable m a (Z.of_nat k) ∧ ((k < n)%nat → um m !! (a + Z.of_nat k) = None).
Proof.
  revert a. induction n as [|n IH]; intros a; simpl.
  - exists 0%nat. split_and!; [done|done| |lia]. intros k Hk. lia.
  - destruct (um m !! a) as [x|] eqn:Hx.
    + destruct (IH (a + 1)) as (k & Hk & -> & Hr & Hn). exists (S k). split_and!; [lia| | |].
      * rewrite ubytes_S, Hx. f_equal. apply bool_decide_ext. lia.
      * intros j Hj. destruct (decide (j = a)) as [->|]; [by eauto|]. apply Hr. lia.
      * intros Hlt. rewrite <-Hn by lia. f_equal. lia.
    + exists 0%nat. split_and!; [lia|by rewrite bool_decide_eq_false_2| |]; [intros j Hj; lia|].
      intros _. by rewrite Z.add_0_r.
Qed.

Lemma user_store_ok m l a :
  writable m a (zlen l) → user_store l a m = (with_um (ustore (um m) a l) m, true).
Proof.
  revert a m. induction l as [|x l IH]; intros a m Hw; simpl; [by destruct m|].
  unfold zlen in Hw. simpl in Hw. destruct (Hw a ltac:(lia)) as [Hs Hro].
  rewrite decide_True by done. rewrite IH; [done|].
  intros k Hk. unfold zlen in Hk. simpl. destruct (Hw k ltac:(lia)) as [Hks Hkro]. split; [|done].
  rewrite lookup_insert_ne by lia. done.
Qed.

Lemma lookup_ustore u a l k :
  ustore u a l !! k = if decide (a ≤ k < a + zlen l) then zget l (k - a) else u !! k.
Proof.
  revert u a. induction l as [|x l IH]; intros u a; simpl.
  { rewrite decide_False; [done|]. unfold zlen. simpl. lia. }
  rewrite IH. unfold zlen. simpl. destruct (decide (k = a)) as [->|Hne].
  - rewrite decide_False by lia. rewrite decide_True by lia. rewrite lookup_insert_eq. by rewrite Z.sub_diag.
  - rewrite lookup_insert_ne by done. repeat case_decide; try lia; try done.
    rewrite zget_cons by lia. f_equal. lia.
Qed.

Lemma user_store_frame m l a :
  let '(m', ok) := user_store l a m in
  (ok = true → writable m a (zlen l)) ∧ um_ro m' = um_ro m ∧ km m' = km m ∧ cur_as m' = cur_as m ∧
  ∀ k, ¬ (a ≤ k < a + zlen l) → um m' !! k = um m !! k.
Proof.
  revert a m. induction l as [|x l IH]; intros a m; simpl.
  { split_and!; [|done..]. intros _ k Hk. unfold zlen in Hk. simpl in Hk. lia. }
  case_decide as Hd; [|by split_and!].
  specialize (IH (a + 1) (with_um (<[a := x]> (um m)) m)).
  destruct (user_store l (a + 1) _) as [m' ok]. destruct IH as (Hw & Hro & Hkm & Has & Hf). simpl in *.
  unfold zlen in *. simpl. split_and!; [|done..|].
  - intros Hok k Hk. destruct (decide (k = a)) as [->|Hne]; [done|].
    specialize (Hw Hok k ltac:(lia)). simpl in Hw. by rewrite lookup_insert_ne in Hw.
  - intros k Hk. rewrite Hf by lia. by rewrite lookup_insert_ne by lia.
Qed.

Lemma copyin_user m a n dest : is_u32 a → 0 < n < two32 → n ≤ zlen dest → a + n ≤ USERSPACETOP →
  (readable m a n → copyin a n dest m = Ok (0, ubytes m a (Z.to_nat n) ++ drop (Z.to_nat n) dest)) ∧
  (¬ readable m a n → ∃ dest', copyin a n dest m = Ok (EFAULT, dest')).
Proof.
  intros Ha Hn Hd Hin. unfold copyin. rewrite copycheck_spec by done.
  rewrite decide_False by (unfold USERSPACETOP, MIPS_KSEG0, two32 in *; lia).
  rewrite Z.min_l by lia. simpl. rewrite Z.eqb_refl. simpl. rewrite (proj2 (Z.ltb_ge _ _)) by done. split.
  - intros Hr. rewrite user_load_ok by (by rewrite Z2Nat.id by lia). simpl. by rewrite length_ubytes.
  - intros Hr. destruct (user_load_prefix m (Z.to_nat n) a) as (k & Hk & -> & Hrk & _).
    rewrite bool_decide_eq_false_2; [by eexists|]. intros ->. rewrite Z2Nat.id in Hrk by lia. done.
Qed.

Lemma copyout_user m a src : is_u32 a → 0 < zlen src < two32 → a + zlen src ≤ USERSPACETOP →
  (writable m a (zlen src) → copyout src a m = (0, with_um (ustore (um m) a src) m)) ∧
  (¬ writable m a (zlen src) → ∃ m', copyout src a m = (EFAULT, m') ∧
     ∀ k, ¬ (a ≤ k < a + zlen src) → um m' !! k = um m !! k).
Proof.
  intros Ha Hn Hin. unfold copyout. rewrite copycheck_spec by done.
  rewrite decide_False by (unfold USERSPACETOP, MIPS_KSEG0, two32 in *; lia).
  rewrite Z.min_l by lia. simpl. rewrite Z.eqb_refl. simpl. split.
  - intros Hw. by rewrite user_store_ok.
  - intros Hw. pose proof (user_store_frame m src a) as Hf.
    destruct (user_store src a m) as [m' ok]. destruct Hf as (Hok & _ & _ & _ & Hf).
    exists m'. destruct ok; [by destruct Hw; apply Hok|done].
Qed.

(** A block outside of user space. *)
Lemma copy_refused m a src dest : is_u32 a → 0 < zlen src < two32 → USERSPACETOP < a + zlen src →
  copyin a (zlen src) dest m = Ok (EFAULT, dest) ∧ copyout src a m = (EFAULT, m).
Proof.
  intros Ha Hn Hout. unfold copyin, copyout. rewrite copycheck_spec by done.
  case_decide as Hc; [done|]. simpl. rewrite (proj2 (Z.eqb_neq _ _)) by lia. done.
Qed.

(** C39: user copies stay in user space.  A block of at least one byte inside user
    space that is accessible is copied completely and the call returns 0; a block
    that is not accessible fails with EFAULT, and nothing outside of it changes; a
    block that reaches outside of user space, or wraps around, is refused with
    EFAULT before anything is copied. *)
Theorem copy_stays_in_user_space m a n src dest (Ha : is_u32 a) (Hn : 0 < n < two32)
  (Hs : zlen src = n) (Hd : n ≤ zlen dest) :
  (a + n ≤ USERSPACETOP →
    (readable m a n → copyin a n dest m = Ok (0, ubytes m a (Z.to_nat n) ++ drop (Z.to_nat n) dest)) ∧
    (¬ readable m a n → ∃ dest', copyin a n dest m = Ok (EFAULT, dest')) ∧
    (writable m a n → copyout src a m = (0, with_um (ustore (um m) a src) m)) ∧
    (¬ writable m a n → ∃ m', copyout src a m = (EFAULT, m') ∧
       ∀ k, ¬ (a ≤ k < a + n) → um m' !! k = um m !! k)) ∧
  (USERSPACETOP < a + n → copyin a n dest m = Ok (EFAULT, dest) ∧ copyout src a m = (EFAULT, m)).
Proof.
  subst n. split; [|by apply copy_refused]. intros Hin.
  destruct (copyin_user m a (zlen src) dest Ha Hn Hd Hin), (copyout_user m a src Ha Hn Hin). by split_and!.
Qed.

(** A zero-length block is refused, at any address. *)
Lemma copyin_zero a dest m : is_u32 a → copyin a 0 dest m = Ok (EFAULT, dest).
Proof.
  intros Ha. unfold copyin, copycheck. rewrite Z.add_0_r.
  destruct (decide (a = 0)) as [->|Hne]; [done|].
  rewrite u32_id by width. rewrite (proj2 (Z.ltb_lt _ _)) by lia. done.
Qed.

(** *** Strings *)

(** A string without its terminator, and the terminator after it, in user memory. *)
Fixpoint string_at m (a : Z) (s : list Z) : Prop :=
  match s with
  | [] => um m !! a = Some 0
  | x :: s => x ≠ 0 ∧ um m !! a = Some x ∧ string_at m (a + 1) s
  end.

Lemma copystr_in_fits s : ∀ fuel i a maxlen stoplen dest m,
  string_at m a s → (length s < fuel)%nat → 0 ≤ i → i + zlen s < zlen dest →
  copystr_in fuel i a maxlen stoplen dest m =
    Ok (0, take (Z.to_nat i) dest ++ s ++ 0 :: drop (Z.to_nat i + length s + 1) dest).
Proof.
  assert (∀ (dest : list Z) i x, 0 ≤ i < zlen dest →
    zset dest i x = take (Z.to_nat i) dest ++ x :: drop (Z.to_nat i + 1) dest) as Hset.
  { intros dest i x Hi. unfold zset. rewrite decide_True by lia.
    rewrite insert_take_drop by (unfold zlen in *; lia). do 2 f_equal. f_equal. lia. }
  induction s as [|x s IH]; intros fuel i a maxlen stoplen dest m Hs Hf Hi Hd;
    destruct fuel as [|fuel]; simpl in Hf; try lia; simpl in Hs |- *.
  - rewrite Hs. unfold zput. rewrite decide_True by (unfold zlen in *; simpl in *; lia).
    cbn [mbind outcome_bind]. rewrite Z.eqb_refl, Hset by (unfold zlen in *; simpl in *; lia).
    do 4 f_equal. f_equal. lia.
  - destruct Hs as (Hx & Ha & Hs). rewrite Ha. unfold zlen in Hd. simpl in Hd.
    unfold zput. rewrite decide_True by (unfold zlen; lia). cbn [mbind outcome_bind].
    rewrite (proj2 (Z.eqb_neq _ _)) by done.
    rewrite IH by (done || lia || (rewrite zlen_zset; unfold zlen; lia)).
    rewrite Hset by (unfold zlen; lia). do 2 f_equal.
    replace (Z.to_nat (i + 1)) with (Z.to_nat i + 1)%nat by lia.
    assert (length (take (Z.to_nat i) dest) = Z.to_nat i) as Hl by (rewrite length_take; unfold zlen in *; lia).
    rewrite take_app_ge by lia. rewrite Hl, Nat.add_comm, Nat.add_sub. simpl.
    rewrite take_0, <-(assoc_L (++)). simpl. do 2 f_equal. f_equal.
    rewrite drop_app_ge by lia. rewrite Hl.
    replace (S (Z.to_nat i + length s + 1) - Z.to_nat i)%nat with (S (length s + 1)) by lia.
    rewrite skipn_cons, drop_drop. do 2 f_equal. lia.
Qed.

Lemma copystr_in_long : ∀ fuel i a maxlen stoplen dest m,
  (∀ k, a ≤ k < a + Z.of_nat fuel → ∃ x, um m !! k = Some x ∧ x ≠ 0) → 0 ≤ i →
  i + Z.of_nat fuel ≤ zlen dest →
  ∃ dest', copystr_in fuel i a maxlen stoplen dest m
    = Ok (if stoplen <? maxlen then EFAULT else ENAMETOOLONG, dest').
Proof.
  induction fuel as [|fuel IH]; intros i a maxlen stoplen dest m Hk Hi Hd; simpl.
  - destruct (stoplen <? maxlen); eauto.
  - destruct (Hk a ltac:(lia)) as (x & -> & Hx). unfold zput. rewrite decide_True by lia.
    cbn [mbind outcome_bind]. rewrite (proj2 (Z.eqb_neq _ _)) by done.
    apply IH; [intros k Hk'; apply Hk; lia|lia|]. rewrite zlen_zset. lia.
Qed.

(** [copyinstr] copies a string from user memory exactly: a terminated string
    in user space that fits the buffer is copied with its terminator and the rest
    of the buffer is left alone; a string that does not end within the length
    given is refused with ENAMETOOLONG, and one that runs into the end of user
    space with EFAULT. *)
Theorem copyinstr_exact m a len s dest (Ha : 0 ≤ a < USERSPACETOP) (Hlen : 0 < len < two31)
  (Hd : len ≤ zlen dest) :
  (string_at m a s → zlen s < len → a + zlen s < USERSPACETOP →
     copyinstr a len dest m = Ok (0, s ++ 0 :: drop (length s + 1) dest)) ∧
  ((∀ k, a ≤ k < a + len → k < USERSPACETOP → ∃ x, um m !! k = Some x ∧ x ≠ 0) →
     ∃ dest', copyinstr a len dest m =
       Ok (if decide (a + len ≤ USERSPACETOP) then ENAMETOOLONG else EFAULT, dest')).
Proof.
  unfold copyinstr. unfold USERSPACETOP, MIPS_KSEG0 in *.
  rewrite copycheck_spec by (unfold is_u32, two32, two31 in *; lia).
  rewrite decide_False by (unfold USERSPACETOP, MIPS_KSEG0, two31, two32 in *; lia). simpl. split.
  - intros Hs Hf Ht. rewrite (copystr_in_fits s) by
      (done || lia || (unfold zlen, USERSPACETOP, MIPS_KSEG0 in *; lia)). done.
  - intros Hk. destruct (copystr_in_long (Z.to_nat (len `min` (len `min` (USERSPACETOP - a)))) 0 a len
      (len `min` (USERSPACETOP - a)) dest m) as [dest' E].
    + intros k Hk'. unfold USERSPACETOP, MIPS_KSEG0 in *. apply Hk; lia.
    + lia.
    + unfold USERSPACETOP, MIPS_KSEG0 in *. lia.
    + exists dest'. rewrite E. unfold USERSPACETOP, MIPS_KSEG0 in *. case_decide as Hc;
      match goal with |- context [?x <? ?y] => destruct (Z.ltb_spec x y) end; try done; lia.
Qed.

(** *** Concrete copies *)

(** A page of user memory that starts with the string "abc". *)
Definition demo_umem : memory :=
  Mem (<[8192 := 97]> (<[8193 := 98]> (<[8194 := 99]> (<[8195 := 0]> (<[8196 := 7]> ∅))))) ∅ ∅ 1.

Lemma demo_readable : readable demo_umem 8192 4.
Proof.
  intros k Hk. assert (k = 8192 ∨ k = 8193 ∨ k = 8194 ∨ k = 8195) as Hc by lia.
  destruct Hc as [->|[->|[->| ->]]]; eexists; vm_compute; reflexivity.
Qed.

Lemma copy_stays_in_user_space_witness :
  copyin 8192 4 [1; 2; 3; 4; 5] demo_umem = Ok (0, ubytes demo_umem 8192 4 ++ [5]) ∧
  copyin 2147483647 4 [1; 2; 3; 4; 5] demo_umem = Ok (EFAULT, [1; 2; 3; 4; 5]).
Proof.
  assert (0 < 4 < two32) as Hn by done. assert (4 ≤ zlen [1; 2; 3; 4; 5]) as Hd by done.
  split.
  - refine (proj1 (proj1 (copy_stays_in_user_space demo_umem 8192 4 [0; 0; 0; 0] [1; 2; 3; 4; 5] _ Hn _ Hd) _) demo_readable); done.
  - refine (proj1 (proj2 (copy_stays_in_user_space demo_umem 2147483647 4 [0; 0; 0; 0] [1; 2; 3; 4; 5] _ Hn _ Hd) _)); done.
Defined.

Lemma copyinstr_exact_witness :
  copyinstr 8192 6 [9; 9; 9; 9; 9; 9] demo_umem = Ok (0, [97; 98; 99; 0; 9; 9]).
Proof.
  refine (proj1 (copyinstr_exact demo_umem 8192 6 [97; 98; 99] [9; 9; 9; 9; 9; 9] _ _ _) _ _ _); done.
Defined.
