(* ===== verification/Uio.v ===== *)
(** * Scatter/gather transfers (kern/lib/uio.c)

    [uiomove], [uiomovezeros], [uio_kinit] and [uio_uinit].  The kernel buffer of
    a transfer is a list of bytes; the memory the uio describes is that of
    CopyInOut.v.  A uio is described by the list of addresses its iovecs cover;
    the lemmas say that a transfer moves bytes between the buffer and the first
    of these addresses, in order, and advances the uio by that many bytes. *)

From stdpp Require Import base gmap list list_numbers.
From Stdlib Require Import ZArith Lia.
From S2P Require Import Prelude FrameTable CopyInOut.
Open Scope Z_scope.

Inductive uio_rw := UIO_READ | UIO_WRITE.
Inductive uio_seg := UIO_USERISPACE | UIO_USERSPACE | UIO_SYSSPACE.

Record iovec := Iovec { iov_base : Z; iov_len : Z }.

(** [uio_iovcnt] is the length of [uio_iov]. *)
Record uio := Uio {
  uio_iov : list iovec;
  uio_offset : Z;
  uio_resid : Z;
  uio_segflg : uio_seg;
  uio_dir : uio_rw;
  uio_space : Z
}.

Implicit Types (u : uio) (m : memory) (ptr : list Z).

(** [memmove] from and to kernel memory. *)
Fixpoint kernel_load (n : nat) (a : Z) m : option (list Z) :=
  match n with
  | O => Some []
  | S n => x ← km m !! a; l ← kernel_load n (a + 1) m; Some (x :: l)
  end.

Fixpoint kernel_store (l : list Z) (a : Z) m : option memory :=
  match l with
  | [] => Some m
  | x :: l => _ ← km m !! a; kernel_store l (a + 1) (with_km (<[a := x]> (km m)) m)
  end.

(** The body of the switch: moves [size] bytes between the buffer and the memory at
    [base]. *)
Definition move_chunk ptr (base size : Z) (seg : uio_seg) (rw : uio_rw) m : outcome (Z * list Z * memory) :=
  match seg with
  | UIO_SYSSPACE =>
      match rw with
      | UIO_READ => m ← deref (kernel_store (take (Z.to_nat size) ptr) base m); Ok (0, ptr, m)
      | UIO_WRITE =>
          l ← deref (kernel_load (Z.to_nat size) base m);
          Ok (0, l ++ drop (Z.to_nat size) ptr, m)
      end
  | UIO_USERISPACE | UIO_USERSPACE =>
      match rw with
      | UIO_READ => let '(result, m) := copyout (take (Z.to_nat size) ptr) base m in Ok (result, ptr, m)
      | UIO_WRITE => '(result, ptr) ← copyin base size ptr m; Ok (result, ptr, m)
      end
  end.

(** The loop of [uiomove]: the result, the buffer, the uio and the memory. *)
Fixpoint uiomove_loop (fuel : nat) ptr (n : Z) u m : outcome (Z * list Z * uio * memory) :=
  match fuel with
  | O => Hang
  | S fuel =>
      if (0 <? n) && (0 <? uio_resid u) then
        match uio_iov u with
        | [] => Fault
        | iov :: iovs =>
            let size := if n <? iov_len iov then n else iov_len iov in
            if size =? 0 then
              match iovs with
              | [] => Panic
              | _ => uiomove_loop fuel ptr n
                       (Uio iovs (uio_offset u) (uio_resid u) (uio_segflg u) (uio_dir u) (uio_space u)) m
              end
            else if zlen ptr <? size then Fault
            else
              '(result, ptr, m) ← move_chunk ptr (iov_base iov) size (uio_segflg u) (uio_dir u) m;
              if negb (result =? 0) then Ok (result, ptr, u, m)
              else
                let u := Uio (Iovec (iov_base iov + size) (iov_len iov - size) :: iovs)
                           (s64 (uio_offset u + size)) (u32 (uio_resid u - size)) (uio_segflg u) (uio_dir u) (uio_space u) in
                '(result, rest, u, m) ← uiomove_loop fuel (drop (Z.to_nat size) ptr) (n - size) u m;
                Ok (result, take (Z.to_nat size) ptr ++ rest, u, m)
        end
      else Ok (0, ptr, u, m)
  end.

Definition uiomove ptr (n : Z) u m : outcome (Z * list Z * uio * memory) :=
  _ ← kassert (uio_space u =? match uio_segflg u with UIO_SYSSPACE => 0 | _ => cur_as m end);
  uiomove_loop (S (Z.to_nat n + length (uio_iov u))) ptr n u m.

(** [zeros] is 16 bytes long. *)
Fixpoint uiomovezeros_loop (fuel : nat) (n : Z) u m : outcome (Z * uio * memory) :=
  match fuel with
  | O => Hang
  | S fuel =>
      if 0 <? n then
        let amt := if n <? 16 then n else 16 in
        '(result, _, u, m) ← uiomove (replicate 16 0) amt u m;
        if negb (result =? 0) then Ok (result, u, m)
        else uiomovezeros_loop fuel (n - amt) u m
      else Ok (0, u, m)
  end.

Definition uiomovezeros (n : Z) u m : outcome (Z * uio * memory) :=
  _ ← kassert (match uio_dir u with UIO_READ => true | UIO_WRITE => false end);
  uiomovezeros_loop (S (Z.to_nat n)) n u m.

Definition uio_kinit (kbuf len pos : Z) (rw : uio_rw) : uio :=
  Uio [Iovec kbuf len] pos len UIO_SYSSPACE rw 0.

Definition uio_uinit (buf len offset : Z) (rw : uio_rw) m : uio :=
  Uio [Iovec buf len] offset len UIO_USERSPACE rw (cur_as m).

(** ** The addresses of a uio *)

Definition iov_addrs (iovs : list iovec) : list Z := flat_map (λ v, seqZ (iov_base v) (iov_len v)) iovs.

Definition uio_addrs u : list Z := iov_addrs (uio_iov u).

(** The iovecs cover at least [uio_resid] bytes, of the right address space. *)
Record uio_wf m u : Prop := {
  uw_len : Forall (λ v, 0 ≤ iov_len v ∧ 0 ≤ iov_base v ∧ iov_base v + iov_len v ≤ two32) (uio_iov u);
  uw_resid : 0 ≤ uio_resid u ≤ zlen (uio_addrs u) ∧ uio_resid u < two32;
  uw_offset : 0 ≤ uio_offset u ∧ uio_offset u + uio_resid u < two63;
  uw_space : uio_space u = match uio_segflg u with UIO_SYSSPACE => 0 | _ => cur_as m end
}.

(** A uio after [j] more bytes. *)
Definition advanced (j : Z) u u' : Prop :=
  uio_addrs u' = drop (Z.to_nat j) (uio_addrs u) ∧
  uio_offset u' = uio_offset u + j ∧ uio_resid u' = uio_resid u - j ∧
  uio_segflg u' = uio_segflg u ∧ uio_dir u' = uio_dir u ∧ uio_space u' = uio_space u.

(** Which addresses can be read and written. *)
Definition can_read m (seg : uio_seg) (a : Z) : Prop :=
  match seg with
  | UIO_SYSSPACE => is_Some (km m !! a)
  | _ => is_Some (um m !! a) ∧ a < USERSPACETOP
  end.

Definition can_write m (seg : uio_seg) (a : Z) : Prop :=
  match seg with
  | UIO_SYSSPACE => is_Some (km m !! a)
  | _ => is_Some (um m !! a) ∧ (a ∉ um_ro m) ∧ a < USERSPACETOP
  end.

(** The bytes at a list of addresses, and storing bytes at them. *)
Definition mget (seg : uio_seg) m (addrs : list Z) : list Z :=
  map (λ a, default 0 (match seg with UIO_SYSSPACE => km m !! a | _ => um m !! a end)) addrs.

Fixpoint mput (seg : uio_seg) m (addrs l : list Z) : memory :=
  match addrs, l with
  | a :: addrs, x :: l =>
      mput seg (match seg with
                | UIO_SYSSPACE => with_km (<[a := x]> (km m)) m
                | _ => with_um (<[a := x]> (um m)) m
                end) addrs l
  | _, _ => m
  end.

#[export] Instance can_read_dec m seg a : Decision (can_read m seg a).
Proof. destruct seg; apply _. Defined.

#[export] Instance can_write_dec m seg a : Decision (can_write m seg a).
Proof. destruct seg; apply _. Defined.

(** Memories with the same addresses. *)
Record same_space m m' : Prop := {
  ss_um a : is_Some (um m' !! a) ↔ is_Some (um m !! a);
  ss_km a : is_Some (km m' !! a) ↔ is_Some (km m !! a);
  ss_ro : um_ro m' = um_ro m;
  ss_as : cur_as m' = cur_as m
}.

#[export] Instance same_space_refl : Reflexive same_space.
Proof. done. Qed.

#[export] Instance same_space_trans : Transitive same_space.
Proof.
  intros m1 m2 m3 [] []. constructor; try congruence.
  - intros a. by rewrite ss_um1.
  - intros a. by rewrite ss_km1.
Qed.

Lemma can_write_same m m' seg a : same_space m m' → can_write m' seg a ↔ can_write m seg a.
Proof. intros []. destruct seg; simpl; rewrite ?ss_um0, ?ss_km0, ?ss_ro0; done. Qed.

Lemma can_read_same m m' seg a : same_space m m' → can_read m' seg a ↔ can_read m seg a.
Proof. intros []. destruct seg; simpl; rewrite ?ss_um0, ?ss_km0; done. Qed.

Lemma uio_wf_same m m' u : same_space m m' → uio_wf m u → uio_wf m' u.
Proof. intros [] []. constructor; try done. by rewrite ss_as0. Qed.

Lemma is_Some_insert (x : Z) (k : gmap Z Z) a b : is_Some (k !! a) → is_Some (<[a := x]> k !! b) ↔ is_Some (k !! b).
Proof.
  intros Ha. destruct (decide (a = b)) as [->|Hne]; [|by rewrite lookup_insert_ne].
  rewrite lookup_insert_eq. split; [done|by eauto].
Qed.

Lemma mput_same seg addrs : ∀ m l, Forall (can_write m seg) addrs → same_space m (mput seg m addrs l).
Proof.
  induction addrs as [|a addrs IH]; intros m l Hw; destruct l as [|x l]; simpl; try done.
  apply Forall_cons in Hw as [Ha Hw].
  match goal with |- same_space m (mput seg ?m1 _ _) => set (m' := m1) end.
  assert (same_space m m') as Hs.
  { unfold m'. destruct seg; simpl in Ha; constructor; simpl; try done; intros b;
      apply is_Some_insert; by apply Ha. }
  transitivity m'; [done|]. apply IH. eapply Forall_impl; [exact Hw|].
  intros b Hb. by apply (can_write_same m m').
Qed.

Lemma mput_app seg a1 : ∀ m l1 a2 l2,
  length a1 = length l1 → mput seg m (a1 ++ a2) (l1 ++ l2) = mput seg (mput seg m a1 l1) a2 l2.
Proof.
  induction a1 as [|a a1 IH]; intros m [|x l1] a2 l2 Hl; simpl in *; try lia; [done|]. apply IH. lia.
Qed.

Lemma mput_ustore l : ∀ m a, mput UIO_USERSPACE m (seqZ a (zlen l)) l = with_um (ustore (um m) a l) m.
Proof.
  induction l as [|x l IH]; intros m a; [by destruct m|].
  unfold zlen. simpl length. rewrite seqZ_cons by lia. simpl.
  rewrite Z.add_1_r, Nat2Z.inj_succ, Z.pred_succ. fold (zlen l). rewrite IH. done.
Qed.

Lemma kernel_store_ok l : ∀ m a,
  Forall (can_write m UIO_SYSSPACE) (seqZ a (zlen l)) →
  kernel_store l a m = Some (mput UIO_SYSSPACE m (seqZ a (zlen l)) l).
Proof.
  induction l as [|x l IH]; intros m a Hw; [done|]. unfold zlen in *. simpl length in *.
  rewrite seqZ_cons in * by lia. rewrite Z.add_1_r in * || idtac.
  rewrite Nat2Z.inj_succ, Z.pred_succ in *. apply Forall_cons in Hw as [[y Hy] Hw].
  cbn [kernel_store mput]. rewrite Hy. simpl. rewrite Z.add_1_r. fold (zlen l) in *. apply IH.
  eapply Forall_impl; [exact Hw|]. intros b Hb. simpl in *. by apply is_Some_insert; eauto.
Qed.

Lemma kernel_load_ok n : ∀ m a,
  Forall (can_read m UIO_SYSSPACE) (seqZ a (Z.of_nat n)) →
  kernel_load n a m = Some (mget UIO_SYSSPACE m (seqZ a (Z.of_nat n))).
Proof.
  induction n as [|n IH]; intros m a Hw; [done|]. rewrite seqZ_cons in * by lia.
  rewrite Nat2Z.inj_succ, Z.pred_succ in *. apply Forall_cons in Hw as [[y Hy] Hw].
  cbn [kernel_load]. rewrite Hy. simpl. rewrite Hy, Z.add_1_r, IH by done. done.
Qed.

(** ** One chunk *)

Lemma user_readable m seg a n :
  seg ≠ UIO_SYSSPACE → 0 < n → 0 ≤ a →
  Forall (can_read m seg) (seqZ a n) ↔ readable m a n ∧ a + n ≤ USERSPACETOP.
Proof.
  intros Hseg Hn Ha. rewrite Forall_seqZ. destruct seg; [| |done]; simpl; split.
  1,3: intros H; split; [intros k Hk; exact (proj1 (H k ltac:(lia)))|destruct (H (a + n - 1) ltac:(lia)); lia].
  all: intros [Hr Ht] k Hk; split; [exact (Hr k ltac:(lia))|lia].
Qed.

Lemma user_writable m seg a n :
  seg ≠ UIO_SYSSPACE → 0 < n → 0 ≤ a →
  Forall (can_write m seg) (seqZ a n) ↔ writable m a n ∧ a + n ≤ USERSPACETOP.
Proof.
  intros Hseg Hn Ha. rewrite Forall_seqZ. destruct seg; [| |done]; simpl; split.
  1,3: intros H; split; [intros k Hk; destruct (H k ltac:(lia)) as (? & ? & ?); done|
         destruct (H (a + n - 1) ltac:(lia)) as (? & ? & ?); lia].
  all: intros [Hr Ht] k Hk; destruct (Hr k ltac:(lia)); split_and!; [done|done|lia].
Qed.

Lemma user_store_same l : ∀ a m, same_space m (user_store l a m).1.
Proof.
  induction l as [|x l IH]; intros a m; simpl; [done|]. case_decide as Hd; [|done].
  transitivity (with_um (<[a := x]> (um m)) m); [|apply IH].
  constructor; try done. intros b. simpl. by apply is_Some_insert, Hd.
Qed.

Lemma copyout_same src a m : same_space m (copyout src a m).2.
Proof.
  unfold copyout. destruct (copycheck a (zlen src)) as [r st]. destruct (negb (r =? 0)); [done|].
  destruct (negb (st =? zlen src)); [done|]. pose proof (user_store_same src a m) as Hs.
  by destruct (user_store src a m).
Qed.

(** What moving a chunk does: all of it, or EFAULT for user memory. *)
Definition chunk_moved ptr (addrs : list Z) seg rw m (r : Z * list Z * memory) : Prop :=
  let '(e, ptr', m') := r in
  length ptr' = length ptr ∧ same_space m m' ∧
  match rw with
  | UIO_READ => ptr' = ptr ∧
      if decide (Forall (can_write m seg) addrs)
      then e = 0 ∧ m' = mput seg m addrs (take (length addrs) ptr) else e = EFAULT ∧ seg ≠ UIO_SYSSPACE
  | UIO_WRITE => m' = m ∧
      if decide (Forall (can_read m seg) addrs)
      then e = 0 ∧ ptr' = mget seg m addrs ++ drop (length addrs) ptr else e = EFAULT ∧ seg ≠ UIO_SYSSPACE
  end.

(** Kernel addresses have to be valid: a bad one is not recovered from. *)
Definition kernel_ok m (seg : uio_seg) (rw : uio_rw) (addrs : list Z) : Prop :=
  seg = UIO_SYSSPACE → Forall (can_write m UIO_SYSSPACE) addrs.

Lemma copyin_length a n dest m e dest' :
  copyin a n dest m = Ok (e, dest') → 0 ≤ n → length dest' = length dest.
Proof.
  unfold copyin. intros H Hn. destruct (copycheck a n) as [r st]. destruct (negb (r =? 0)); [by simplify_eq|].
  destruct (negb (st =? n)); [by simplify_eq|]. destruct (Z.ltb_spec (zlen dest) n); [done|].
  destruct (user_load_prefix m (Z.to_nat n) a) as (k & Hk & E & _). rewrite E in H.
  injection H as _ <-. rewrite length_app, length_ubytes, length_drop. unfold zlen in *. lia.
Qed.

Lemma mget_ubytes m seg a n : seg ≠ UIO_SYSSPACE → 0 ≤ n → mget seg m (seqZ a n) = ubytes m a (Z.to_nat n).
Proof. intros Hs Hn. unfold mget, ubytes. rewrite Z2Nat.id by done. by destruct seg. Qed.

Lemma mput_user seg m addrs l : seg ≠ UIO_SYSSPACE → mput seg m addrs l = mput UIO_USERSPACE m addrs l.
Proof.
  intros Hs. revert m l. induction addrs as [|a addrs IH]; intros m [|x l]; simpl; try done.
  rewrite IH. by destruct seg.
Qed.

Lemma move_chunk_user ptr base size seg rw m :
  seg ≠ UIO_SYSSPACE → 0 < size < two32 → size ≤ zlen ptr → is_u32 base →
  ∃ r, move_chunk ptr base size seg rw m = Ok r ∧ chunk_moved ptr (seqZ base size) seg rw m r.
Proof.
  intros Hseg Hsz Hp Hb.
  assert (zlen (take (Z.to_nat size) ptr) = size) as Htake by (unfold zlen in *; rewrite length_take; lia).
  pose proof (copyin_user m base size ptr Hb Hsz Hp) as Hin.
  pose proof (copyout_user m base (take (Z.to_nat size) ptr) Hb) as Hio.
  pose proof (copy_refused m base (take (Z.to_nat size) ptr) ptr Hb) as Hout.
  rewrite Htake in Hio, Hout. specialize (Hio Hsz). specialize (Hout Hsz).
  pose proof (copyout_same (take (Z.to_nat size) ptr) base m) as Hsame.
  assert (∀ e p, copyin base size ptr m = Ok (e, p) → length p = length ptr) as Hlen
    by (intros e p He; apply (copyin_length _ _ _ _ _ _ He); lia).
  unfold chunk_moved. destruct rw.
  - assert (move_chunk ptr base size seg UIO_READ m =
      Ok ((copyout (take (Z.to_nat size) ptr) base m).1, ptr, (copyout (take (Z.to_nat size) ptr) base m).2)) as ->.
    { unfold move_chunk. destruct seg; [| |done]; by destruct (copyout _ _ _). }
    eexists; split; [done|]. split_and!; [done|done|done|].
    case_decide as Hw; rewrite (user_writable m seg base size Hseg (proj1 Hsz) (proj1 Hb)) in Hw.
    + destruct Hw as [Hw Ht]. destruct (Hio Ht) as (Hc & _). rewrite (Hc Hw). split; [done|].
      rewrite length_seqZ. rewrite mput_user by done.
      rewrite <-Htake at 2. rewrite mput_ustore. done.
    + split; [|done]. destruct (decide (base + size ≤ USERSPACETOP)) as [Ht|Ht].
      * destruct (Hio Ht) as (_ & Hc). destruct Hc as (m' & -> & _); [|done]. naive_solver.
      * destruct Hout as [_ ->]; [lia|done].
  - assert (move_chunk ptr base size seg UIO_WRITE m =
      ('(result, p) ← copyin base size ptr m; Ok (result, p, m))) as -> by (by destruct seg).
    case_decide as Hw; rewrite (user_readable m seg base size Hseg (proj1 Hsz) (proj1 Hb)) in Hw.
    + destruct Hw as [Hw Ht]. destruct (Hin Ht) as (Hc & _). pose proof (Hlen _ _ (Hc Hw)) as Hl. rewrite (Hc Hw).
      eexists; split; [done|]. split_and!; [done..|].
      rewrite mget_ubytes, length_seqZ by (done || lia). done.
    + destruct (decide (base + size ≤ USERSPACETOP)) as [Ht|Ht].
      * destruct (Hin Ht) as (_ & Hc). destruct Hc as (p & Hp'); [naive_solver|].
        pose proof (Hlen _ _ Hp') as Hl. rewrite Hp'. eexists; split; [done|]. done.
      * destruct Hout as [Hc _]; [lia|]. rewrite Hc. eexists; split; [done|]. done.
Qed.

Lemma move_chunk_kernel ptr base size rw m :
  0 < size → size ≤ zlen ptr → Forall (can_write m UIO_SYSSPACE) (seqZ base size) →
  ∃ r, move_chunk ptr base size UIO_SYSSPACE rw m = Ok r ∧ chunk_moved ptr (seqZ base size) UIO_SYSSPACE rw m r.
Proof.
  intros Hsz Hp Hw.
  assert (zlen (take (Z.to_nat size) ptr) = size) as Htake by (unfold zlen in *; rewrite length_take; lia).
  unfold chunk_moved, move_chunk. destruct rw.
  - rewrite kernel_store_ok by (by rewrite Htake). simpl. eexists; split; [done|].
    rewrite Htake. split_and!; [done|by apply mput_same|done|].
    rewrite decide_True by done. by rewrite length_seqZ.
  - replace size with (Z.of_nat (Z.to_nat size)) in Hw |- * by lia.
    rewrite Nat2Z.id, kernel_load_ok by done. simpl. eexists; split; [done|]. simpl.
    unfold mget. rewrite length_app, length_map, length_seqZ, length_drop.
    split_and!; [unfold zlen in *; lia|done|done|]. rewrite decide_True by done.
    by rewrite Nat2Z.id.
Qed.

Lemma move_chunk_spec ptr base size seg rw m :
  0 < size < two32 → size ≤ zlen ptr → is_u32 base → kernel_ok m seg rw (seqZ base size) →
  ∃ r, move_chunk ptr base size seg rw m = Ok r ∧ chunk_moved ptr (seqZ base size) seg rw m r.
Proof.
  intros Hsz Hp Hb Hk. destruct seg.
  - by apply move_chunk_user.
  - by apply move_chunk_user.
  - apply move_chunk_kernel; [lia|done|by apply Hk].
Qed.

(** ** The whole transfer *)

(** What a transfer of [n] bytes does: it advances the uio by the [j] bytes that
    were moved, which are all [n] unless user memory faults. *)
Definition moved (n : Z) ptr u m (r : Z * list Z * uio * memory) : Prop :=
  let '(e, ptr', u', m') := r in
  let seg := uio_segflg u in
  let addrs := take (Z.to_nat n) (uio_addrs u) in
  ∃ j, 0 ≤ j ≤ n ∧ advanced j u u' ∧ uio_wf m' u' ∧ length ptr' = length ptr ∧ same_space m m' ∧
  match uio_dir u with
  | UIO_READ => ptr' = ptr ∧
      if decide (Forall (can_write m seg) addrs)
      then e = 0 ∧ j = n ∧ m' = mput seg m addrs (take (Z.to_nat n) ptr)
      else e = EFAULT ∧ seg ≠ UIO_SYSSPACE
  | UIO_WRITE => m' = m ∧
      if decide (Forall (can_read m seg) addrs)
      then e = 0 ∧ j = n ∧ ptr' = mget seg m addrs ++ drop (Z.to_nat n) ptr
      else e = EFAULT ∧ seg ≠ UIO_SYSSPACE
  end.

Lemma advanced_refl u : advanced 0 u u.
Proof. unfold advanced. rewrite drop_0. split_and!; done || lia. Qed.

Lemma advanced_trans j k u1 u2 u3 :
  0 ≤ j → 0 ≤ k → advanced j u1 u2 → advanced k u2 u3 → advanced (j + k) u1 u3.
Proof.
  intros Hj Hk (A1 & O1 & R1 & S1 & D1 & P1) (A2 & O2 & R2 & S2 & D2 & P2).
  unfold advanced. rewrite A2, A1, drop_drop, Z2Nat.inj_add by done. split_and!; congruence || lia.
Qed.

Lemma moved_none ptr u m : uio_wf m u → moved 0 ptr u m (0, ptr, u, m).
Proof.
  intros Hwf. exists 0. simpl. split_and!; [lia..|apply advanced_refl|done|done|done|].
  destruct (uio_dir u); split; try done; rewrite decide_True by done; done.
Qed.

(** Skipping an empty iovec. *)
Lemma moved_skip n ptr v iovs u m r :
  uio_iov u = v :: iovs → iov_len v = 0 →
  moved n ptr (Uio iovs (uio_offset u) (uio_resid u) (uio_segflg u) (uio_dir u) (uio_space u)) m r →
  moved n ptr u m r.
Proof.
  intros Hi Hl. assert (uio_addrs u = iov_addrs iovs) as E.
  { unfold uio_addrs, iov_addrs. rewrite Hi. simpl. by rewrite Hl. }
  unfold moved, advanced. rewrite E. by destruct r as [[[e p] u'] m'].
Qed.

(** The uio after a chunk. *)
Definition after_chunk (size : Z) (v : iovec) (iovs : list iovec) u : uio :=
  Uio (Iovec (iov_base v + size) (iov_len v - size) :: iovs)
    (s64 (uio_offset u + size)) (u32 (uio_resid u - size)) (uio_segflg u) (uio_dir u) (uio_space u).

Lemma seqZ_drop a n k : 0 ≤ k ≤ n → drop (Z.to_nat k) (seqZ a n) = seqZ (a + k) (n - k).
Proof.
  intros Hk. replace n with (k + (n - k)) at 1 by lia. rewrite seqZ_app by lia.
  rewrite drop_app_length'; [done|]. by rewrite length_seqZ.
Qed.

Lemma seqZ_take a n k : 0 ≤ k ≤ n → take (Z.to_nat k) (seqZ a n) = seqZ a k.
Proof.
  intros Hk. replace n with (k + (n - k)) at 1 by lia. rewrite seqZ_app by lia.
  rewrite take_app_length'; [done|]. by rewrite length_seqZ.
Qed.

Lemma after_chunk_spec size v iovs u m :
  uio_wf m u → uio_iov u = v :: iovs → 0 ≤ size ≤ iov_len v → size ≤ uio_resid u →
  advanced size u (after_chunk size v iovs u) ∧ uio_wf m (after_chunk size v iovs u) ∧
  take (Z.to_nat size) (uio_addrs u) = seqZ (iov_base v) size.
Proof.
  intros [Hl [Hr Hr2] [Ho1 Ho2] Hs] Hi Hsz Hres. rewrite Hi in Hl. apply Forall_cons in Hl as [(Hv1 & Hv2 & Hv3) Hl].
  assert (uio_addrs u = seqZ (iov_base v) (iov_len v) ++ iov_addrs iovs) as EA by (unfold uio_addrs; by rewrite Hi).
  assert (uio_addrs (after_chunk size v iovs u) = drop (Z.to_nat size) (uio_addrs u)) as EA'.
  { rewrite EA, drop_app_le by (rewrite length_seqZ; lia). rewrite seqZ_drop by lia. done. }
  assert (s64 (uio_offset u + size) = uio_offset u + size) as E64 by (apply s64_id; width).
  assert (u32 (uio_resid u - size) = uio_resid u - size) as E32 by (apply u32_id; width).
  split_and!.
  - unfold advanced. rewrite EA'. unfold after_chunk. simpl. by rewrite E64, E32.
  - constructor.
    + simpl. constructor; [simpl; lia|done].
    + rewrite EA'. unfold after_chunk. simpl. rewrite E32. unfold zlen in *. rewrite length_drop. lia.
    + simpl. rewrite E64, E32. lia.
    + done.
  - rewrite EA, take_app_le by (rewrite length_seqZ; lia). apply seqZ_take. lia.
Qed.

Lemma moved_chunk n size v iovs ptr u m ptr1 m1 e rest u' m' :
  uio_wf m u → uio_iov u = v :: iovs → 0 < size ≤ iov_len v → size ≤ n ≤ uio_resid u → n ≤ zlen ptr →
  chunk_moved ptr (seqZ (iov_base v) size) (uio_segflg u) (uio_dir u) m (0, ptr1, m1) →
  moved (n - size) (drop (Z.to_nat size) ptr1) (after_chunk size v iovs u) m1 (e, rest, u', m') →
  moved n ptr u m (e, take (Z.to_nat size) ptr1 ++ rest, u', m').
Proof.
  intros Hwf Hi Hsz Hn Hp Hc Hm. unfold chunk_moved in Hc. destruct Hc as (Hl1 & Hs1 & Hc).
  unfold moved in Hm |- *. destruct Hm as (j & Hj & Hadv & Hwf' & Hlen & Hsame & Hm).
  destruct (after_chunk_spec size v iovs u m Hwf Hi ltac:(lia) ltac:(lia)) as (Ha & _ & Ht).
  assert (length (take (Z.to_nat size) ptr1) = Z.to_nat size) as Hlt
    by (rewrite length_take; unfold zlen in *; lia).
  exists (size + j). split_and!; [lia..|by eapply advanced_trans; [lia|lia|done|done]|done| | |].
  { rewrite length_app, Hlen, Hlt, length_drop. unfold zlen in *. lia. }
  { by transitivity m1. }
  assert (take (Z.to_nat n) (uio_addrs u) = seqZ (iov_base v) size ++
    take (Z.to_nat (n - size)) (uio_addrs (after_chunk size v iovs u))) as EA.
  { destruct Ha as (-> & _). rewrite <-Ht, Z2Nat.inj_sub by lia. rewrite take_drop_commute.
    replace (Z.to_nat size + (Z.to_nat n - Z.to_nat size))%nat with (Z.to_nat n) by lia.
    rewrite <-(take_drop (Z.to_nat size) (take (Z.to_nat n) (uio_addrs u))) at 1.
    rewrite take_take. f_equal. f_equal. lia. }
  rewrite EA. cbn [after_chunk uio_segflg uio_dir] in Hm. destruct (uio_dir u).
  - destruct Hc as [-> Hc]. destruct Hm as [-> Hm]. split; [by rewrite take_drop|].
    destruct (decide (Forall (can_write m (uio_segflg u)) (seqZ (iov_base v) size))) as [Hw1|]; [|by destruct Hc].
    destruct Hc as [_ ->]. rewrite ?length_seqZ in *.
    set (m1 := mput _ m _ _) in *.
    assert (Forall (can_write m1 (uio_segflg u)) (take (Z.to_nat (n - size)) (uio_addrs (after_chunk size v iovs u)))
      ↔ Forall (can_write m (uio_segflg u)) (take (Z.to_nat (n - size)) (uio_addrs (after_chunk size v iovs u)))) as Hiff.
    { rewrite !Forall_forall. split; intros H a Ha'; apply (can_write_same m m1); eauto. }
    case_decide as Hw2; case_decide as Hw3; rewrite ?Forall_app in *; try tauto.
    destruct Hm as (-> & -> & ->). split_and!; [done|lia|].
    rewrite <-(take_drop (Z.to_nat size) (take (Z.to_nat n) ptr)), take_take.
    rewrite mput_app; [|rewrite length_take, length_seqZ; unfold zlen in *; lia].
    replace (Z.to_nat size `min` Z.to_nat n)%nat with (Z.to_nat size) by lia. fold m1.
    rewrite <-take_drop_commute || idtac. f_equal. rewrite take_drop_commute. f_equal. f_equal. lia.
  - destruct Hc as [-> Hc]. destruct Hm as [-> Hm]. split; [done|].
    destruct (decide (Forall (can_read m (uio_segflg u)) (seqZ (iov_base v) size))) as [Hw1|]; [|by destruct Hc].
    destruct Hc as [_ ->]. rewrite ?length_seqZ in *.
    case_decide as Hw2; case_decide as Hw3; rewrite ?Forall_app in *; try tauto.
    destruct Hm as (-> & -> & ->). split_and!; [done|lia|].
    unfold mget. rewrite map_app. fold (mget (uio_segflg u) m).
    assert (length (mget (uio_segflg u) m (seqZ (iov_base v) size)) = Z.to_nat size) as Hml
      by (unfold mget; by rewrite length_map, length_seqZ).
    rewrite take_app_length', <-(assoc_L (++)) by done. f_equal. f_equal.
    rewrite drop_app_length', drop_drop by done. f_equal. lia.
Qed.

Lemma uiomove_loop_spec fuel : ∀ ptr n u m,
  uio_wf m u → 0 ≤ n ≤ uio_resid u → n ≤ zlen ptr → (Z.to_nat n + length (uio_iov u) < fuel)%nat →
  kernel_ok m (uio_segflg u) (uio_dir u) (take (Z.to_nat n) (uio_addrs u)) →
  ∃ r, uiomove_loop fuel ptr n u m = Ok r ∧ moved n ptr u m r.
Proof.
  induction fuel as [|fuel IH]; intros ptr n u m Hwf Hn Hp Hf Hk; [lia|]. cbn [uiomove_loop].
  destruct (Z.ltb_spec 0 n) as [Hpos|]; simpl; [|replace n with 0 by lia; eexists; split; [done|by apply moved_none]].
  destruct (Z.ltb_spec 0 (uio_resid u)) as [_|]; [|lia].
  destruct (uio_iov u) as [|v iovs] eqn:Hi.
  { pose proof (uw_resid _ _ Hwf) as [Hr _]. unfold uio_addrs in Hr. rewrite Hi in Hr. unfold zlen in Hr. simpl in Hr. lia. }
  pose proof (uw_len _ _ Hwf) as Hl. rewrite Hi in Hl. apply Forall_cons in Hl as [(Hv1 & Hv2 & Hv3) Hl].
  set (size := if n <? iov_len v then n else iov_len v).
  assert (size = Z.min n (iov_len v)) as Esz by (unfold size; destruct (Z.ltb_spec n (iov_len v)); lia).
  destruct (Z.eqb_spec size 0) as [E0|Hs0].
  - assert (iov_len v = 0) as Ev by lia.
    assert (uio_addrs u = iov_addrs iovs) as EA by (unfold uio_addrs, iov_addrs; rewrite Hi; simpl; by rewrite Ev).
    pose proof (uw_resid _ _ Hwf) as [Hr Hr2]. rewrite EA in Hr.
    destruct iovs as [|v2 iovs]; [unfold zlen in Hr; simpl in Hr; lia|].
    destruct (IH ptr n (Uio (v2 :: iovs) (uio_offset u) (uio_resid u) (uio_segflg u) (uio_dir u) (uio_space u)) m)
      as (r & -> & Hm).
    + constructor; simpl; [done|split; [exact Hr|done]|apply (uw_offset _ _ Hwf)|apply (uw_space _ _ Hwf)].
    + done.
    + done.
    + simpl in *. lia.
    + intros Hsys. specialize (Hk Hsys). by rewrite EA in Hk.
    + exists r. split; [done|]. by eapply moved_skip.
  - rewrite (proj2 (Z.ltb_ge _ _)) by lia.
    destruct (after_chunk_spec size v iovs u m Hwf Hi ltac:(lia) ltac:(lia)) as (Ha & Hwf1 & Ht).
    assert (take (Z.to_nat n) (uio_addrs u) = seqZ (iov_base v) size ++
      take (Z.to_nat (n - size)) (drop (Z.to_nat size) (uio_addrs u))) as EA.
    { rewrite <-Ht, Z2Nat.inj_sub by lia. rewrite take_drop_commute.
      replace (Z.to_nat size + (Z.to_nat n - Z.to_nat size))%nat with (Z.to_nat n) by lia.
      rewrite <-(take_drop (Z.to_nat size) (take (Z.to_nat n) (uio_addrs u))) at 1.
      rewrite take_take. f_equal. f_equal. lia. }
    destruct (move_chunk_spec ptr (iov_base v) size (uio_segflg u) (uio_dir u) m) as ([[e1 ptr1] m1] & -> & Hc).
    + pose proof (uw_resid _ _ Hwf). lia.
    + lia.
    + unfold is_u32. unfold two32 in *. lia.
    + intros Hsys. specialize (Hk Hsys). rewrite EA in Hk. by apply Forall_app in Hk as [? _].
    + cbn [mbind outcome_bind]. destruct (Z.eqb_spec e1 0) as [->|Hne]; simpl.
      * fold (after_chunk size v iovs u). assert (length ptr1 = length ptr ∧ same_space m m1) as [Hl1 Hs1] by (unfold chunk_moved in Hc; tauto).
        destruct (IH (drop (Z.to_nat size) ptr1) (n - size) (after_chunk size v iovs u) m1)
          as ([[[e rest] u'] m'] & -> & Hm).
        -- by eapply uio_wf_same.
        -- destruct Ha as (_ & _ & -> & _). lia.
        -- unfold zlen in *. rewrite length_drop, Hl1. lia.
        -- simpl in *. lia.
        -- intros Hsys. specialize (Hk Hsys). rewrite EA in Hk. apply Forall_app in Hk as [_ Hk].
           destruct Ha as (-> & _). eapply Forall_impl; [exact Hk|]. intros a. by apply can_write_same.
        -- eexists; split; [done|]. by eapply moved_chunk; [done|done|lia|lia|done|done|done].
      * eexists; split; [done|]. unfold chunk_moved in Hc. destruct Hc as (Hl1 & Hs1 & Hc'). exists 0.
        split_and!; [lia..|apply advanced_refl|by eapply uio_wf_same|done|done|]. rewrite EA.
        destruct (uio_dir u).
        -- destruct Hc' as [-> Hc']. split; [done|]. case_decide as Hw; [by destruct Hc'|].
           rewrite decide_False; [done|]. by rewrite Forall_app; intros [? _].
        -- destruct Hc' as [-> Hc']. split; [done|]. case_decide as Hw; [by destruct Hc'|].
           rewrite decide_False; [done|]. by rewrite Forall_app; intros [? _].
Qed.

Lemma uiomove_spec ptr n u m :
  uio_wf m u → 0 ≤ n ≤ uio_resid u → n ≤ zlen ptr →
  kernel_ok m (uio_segflg u) (uio_dir u) (take (Z.to_nat n) (uio_addrs u)) →
  ∃ r, uiomove ptr n u m = Ok r ∧ moved n ptr u m r.
Proof.
  intros Hwf Hn Hp Hk. unfold uiomove.
  rewrite (uw_space _ _ Hwf), Z.eqb_refl. cbn [kassert mbind outcome_bind].
  apply uiomove_loop_spec; try done. lia.
Qed.

(** ** Zeros *)

Definition zeroed (n : Z) u m (r : Z * uio * memory) : Prop :=
  let '(e, u', m') := r in
  let seg := uio_segflg u in
  let addrs := take (Z.to_nat n) (uio_addrs u) in
  ∃ j, 0 ≤ j ≤ n ∧ advanced j u u' ∧ uio_wf m' u' ∧ same_space m m' ∧
  if decide (Forall (can_write m seg) addrs)
  then e = 0 ∧ j = n ∧ m' = mput seg m addrs (replicate (Z.to_nat n) 0)
  else e = EFAULT ∧ seg ≠ UIO_SYSSPACE.

Lemma take_split {A} (l : list A) (n k : Z) :
  0 ≤ k ≤ n → take (Z.to_nat n) l = take (Z.to_nat k) l ++ take (Z.to_nat (n - k)) (drop (Z.to_nat k) l).
Proof.
  intros Hk. rewrite take_drop_commute.
  replace (Z.to_nat k + Z.to_nat (n - k))%nat with (Z.to_nat n) by lia.
  rewrite <-(take_drop (Z.to_nat k) (take (Z.to_nat n) l)) at 1. rewrite take_take.
  f_equal. f_equal. lia.
Qed.

Lemma uiomovezeros_loop_spec fuel : ∀ n u m,
  uio_wf m u → 0 ≤ n ≤ uio_resid u → (Z.to_nat n < fuel)%nat → uio_dir u = UIO_READ →
  kernel_ok m (uio_segflg u) UIO_READ (take (Z.to_nat n) (uio_addrs u)) →
  ∃ r, uiomovezeros_loop fuel n u m = Ok r ∧ zeroed n u m r.
Proof.
  induction fuel as [|fuel IH]; intros n u m Hwf Hn Hf Hd Hk; [lia|]. cbn [uiomovezeros_loop].
  destruct (Z.ltb_spec 0 n) as [Hpos|].
  2: { replace n with 0 by lia. eexists; split; [done|]. exists 0.
       split_and!; [lia..|apply advanced_refl|done|done|]. by rewrite decide_True by constructor. }
  set (amt := if n <? 16 then n else 16).
  assert (amt = Z.min n 16) as Ea by (unfold amt; destruct (Z.ltb_spec n 16); lia).
  rewrite (take_split _ n amt) in Hk by lia.
  destruct (uiomove_spec (replicate 16 0) amt u m Hwf) as ([[[e p] u1] m1] & -> & Hm); [lia|done || (unfold zlen; simpl; lia)| |].
  { rewrite Hd. intros Hs. specialize (Hk Hs). by apply Forall_app in Hk as [? _]. }
  unfold moved in Hm. destruct Hm as (j & Hj & Hadv & Hwf1 & _ & Hsame & Hm). rewrite Hd in Hm.
  destruct Hm as [_ Hm]. cbn [mbind outcome_bind].
  case_decide as Hw.
  - destruct Hm as (-> & -> & ->). simpl.
    match goal with |- context [uiomovezeros_loop _ _ _ ?M] => set (m1 := M) in * end.
    pose proof Hadv as (Haddr & Hoff & Hres & Hseg & Hdir & Hsp).
    destruct (IH (n - amt) u1 m1) as ([[e u'] m'] & -> & Hz);
      [done|rewrite Hres; lia|lia|congruence| |].
    { rewrite Hseg, Haddr. intros Hs. specialize (Hk Hs). apply Forall_app in Hk as [_ Hk].
      eapply Forall_impl; [exact Hk|]. intros a. by apply can_write_same. }
    eexists; split; [done|]. unfold zeroed in Hz |- *. rewrite Hseg, Haddr in Hz.
    destruct Hz as (j & Hj' & Hadv' & Hwf' & Hsame' & Hz).
    exists (amt + j). split_and!; [lia..|by eapply advanced_trans; [lia|lia|done|done]|done|by transitivity m1|].
    rewrite (take_split _ n amt) by lia.
    assert (Forall (can_write m1 (uio_segflg u)) (take (Z.to_nat (n - amt)) (drop (Z.to_nat amt) (uio_addrs u)))
      ↔ Forall (can_write m (uio_segflg u)) (take (Z.to_nat (n - amt)) (drop (Z.to_nat amt) (uio_addrs u)))) as Hiff.
    { rewrite !Forall_forall. split; intros H a Ha'; apply (can_write_same m m1); eauto. }
    case_decide as Hw2; case_decide as Hw3; rewrite ?Forall_app in *; try tauto.
    destruct Hz as (-> & -> & ->). split_and!; [done|lia|].
    replace (Z.to_nat n) with (Z.to_nat amt + Z.to_nat (n - amt))%nat by lia.
    rewrite replicate_add, mput_app.
    + assert (take (Z.to_nat amt) (replicate 16 0) = replicate (Z.to_nat amt) 0) as E
        by (rewrite take_replicate; f_equal; lia).
      unfold m1. rewrite <-E. done.
    + rewrite length_replicate, length_take.
      pose proof (uw_resid _ _ Hwf) as [Hr _]. unfold zlen in Hr. lia.
  - destruct Hm as [-> Hseg]. simpl. eexists; split; [done|]. exists j.
    split_and!; [lia..|done|done|done|]. rewrite (take_split _ n amt) by lia.
    rewrite decide_False; [done|]. rewrite Forall_app. tauto.
Qed.

Lemma uiomovezeros_spec n u m :
  uio_wf m u → 0 ≤ n ≤ uio_resid u → uio_dir u = UIO_READ →
  kernel_ok m (uio_segflg u) UIO_READ (take (Z.to_nat n) (uio_addrs u)) →
  ∃ r, uiomovezeros n u m = Ok r ∧ zeroed n u m r.
Proof.
  intros Hwf Hn Hd Hk. unfold uiomovezeros. rewrite Hd. cbn [kassert mbind outcome_bind].
  apply uiomovezeros_loop_spec; try done. lia.
Qed.

(** ** Properties *)

(** [uiomove] moves bytes in order.  A transfer of [n] bytes, no more than the
    uio has left, returns.  Reading stores the first [n] bytes of the kernel
    buffer at the next [n] addresses of the uio, writing fills the first [n]
    bytes of the buffer from them; the uio is advanced by [n], across as many
    iovecs as that takes.  When some of these addresses are user addresses that
    cannot be accessed the result is EFAULT and the uio is advanced by the bytes
    of the iovecs before the one that failed. *)
Theorem uiomove_transfers ptr n u m (Hwf : uio_wf m u) (Hn : 0 ≤ n ≤ uio_resid u) (Hp : n ≤ zlen ptr)
  (Hk : kernel_ok m (uio_segflg u) (uio_dir u) (take (Z.to_nat n) (uio_addrs u))) :
  ∃ r, uiomove ptr n u m = Ok r ∧ moved n ptr u m r.
Proof. by apply uiomove_spec. Qed.

(** [uiomove] is not bounded by [uio_resid] within one iovec: with 4 bytes left and
    an iovec of 8, it moves 8 bytes and [uio_resid] wraps around. *)
Lemma uiomove_overruns_resid :
  let m := Mem (list_to_map ((λ a, (a, 0)) <$> seqZ 4096 8)) ∅ ∅ 1 in
  let u := Uio [Iovec 4096 8] 0 4 UIO_USERSPACE UIO_READ 1 in
  match uiomove (replicate 8 7) 8 u m with
  | Ok (0, _, u', _) => uio_resid u' = two32 - 4 ∧ uio_offset u' = 8
  | _ => False
  end.
Proof. vm_compute. done. Qed.

(** A write of 6 bytes from two user buffers. *)
Definition demo_mem : memory := Mem (list_to_map ((λ a, (a, a - 4000)) <$> seqZ 4096 16)) ∅ ∅ 1.
Definition demo_uio : uio := Uio [Iovec 4096 4; Iovec 4104 4] 100 8 UIO_USERSPACE UIO_WRITE 1.

Lemma demo_uio_wf : uio_wf demo_mem demo_uio.
Proof. constructor; try done. repeat (constructor; [done|]). constructor. Qed.

Lemma uiomove_transfers_witness :
  ∃ r, uiomove (replicate 6 0) 6 demo_uio demo_mem = Ok r ∧ moved 6 (replicate 6 0) demo_uio demo_mem r.
Proof.
  assert (0 ≤ 6 ≤ uio_resid demo_uio) as Hn by (split; vm_compute; congruence).
  assert (6 ≤ zlen (replicate 6 0)) as Hp by (vm_compute; congruence).
  refine (uiomove_transfers (replicate 6 0) 6 demo_uio demo_mem demo_uio_wf Hn Hp _).
  intros H. discriminate H.
Defined.
