(* ===== verification/Bitmap.v ===== *)
(** * Bitmaps (kern/lib/bitmap.c)

    Fixed-size arrays of bits, stored in bytes.  Every operation of the file is
    modelled; the outcome of each [kmalloc] is an argument of [bitmap_create].
    The lemmas relate the bytes to the set of bits in use: [bitmap_alloc] finds
    the least free index, and the padding bits of the last byte are never handed
    out. *)

From stdpp Require Import base list list_numbers.
From Stdlib Require Import ZArith Lia.
From S2P Require Import Prelude.
Open Scope Z_scope.

Definition BITS_PER_WORD : Z := 8.
Definition WORD_ALLBITS : Z := 0xff.

(** [DIVROUNDUP(a,b)] of lib.h on unsigned ints. *)
Definition DIVROUNDUP (a b : Z) : Z := u32 (a + b - 1) / b.

Record bitmap := Bitmap { nbits : Z; v : list Z }.

Implicit Types (b : bitmap).

Definition set_word b (ix w : Z) : outcome bitmap :=
  v' ← zput (v b) ix w;
  Ok (Bitmap (nbits b) v').

(** The loop that marks the leftover bits of the last word. *)
Fixpoint mark_over (js : list Z) (ix : Z) b : outcome bitmap :=
  match js with
  | [] => Ok b
  | j :: js =>
      w ← deref (zget (v b) ix);
      b ← set_word b ix (Z.lor w (Z.shiftl 1 j));
      mark_over js ix b
  end.

(** [have_b] and [have_v]: whether the two calls of [kmalloc] succeed. *)
Definition bitmap_create (n : Z) (have_b have_v : bool) : outcome (option bitmap) :=
  let words := DIVROUNDUP n BITS_PER_WORD in
  if negb have_b then Ok None
  else if negb have_v then Ok None
  else
    let b := Bitmap n (replicate (Z.to_nat words) 0) in
    if n / BITS_PER_WORD <? words then
      let ix := u32 (words - 1) in
      let overbits := u32 (n - u32 (ix * BITS_PER_WORD)) in
      _ ← kassert (n / BITS_PER_WORD =? u32 (words - 1));
      _ ← kassert ((0 <? overbits) && (overbits <? BITS_PER_WORD));
      b ← mark_over (seqZ overbits (BITS_PER_WORD - overbits)) ix b;
      Ok (Some b)
    else Ok (Some b).

Definition bitmap_getdata b : list Z := v b.

(** The inner loop of [bitmap_alloc]: the first offset whose bit is clear. *)
Fixpoint free_offset (offsets : list Z) (w : Z) : option Z :=
  match offsets with
  | [] => None
  | offset :: offsets =>
      let mask := Z.shiftl 1 offset in
      if Z.land w mask =? 0 then Some offset else free_offset offsets w
  end.

Fixpoint bitmap_alloc_loop (ixs : list Z) b : outcome (Z * Z * bitmap) :=
  match ixs with
  | [] => Ok (ENOSPC, 0, b)
  | ix :: ixs =>
      w ← deref (zget (v b) ix);
      if negb (w =? WORD_ALLBITS) then
        match free_offset (seqZ 0 BITS_PER_WORD) w with
        | Some offset =>
            b ← set_word b ix (Z.lor w (Z.shiftl 1 offset));
            let index := u32 (ix * BITS_PER_WORD + offset) in
            _ ← kassert (index <? nbits b);
            Ok (0, index, b)
        | None => Panic
        end
      else bitmap_alloc_loop ixs b
  end.

(** The result, the index handed out, and the bitmap. *)
Definition bitmap_alloc b : outcome (Z * Z * bitmap) :=
  bitmap_alloc_loop (seqZ 0 (DIVROUNDUP (nbits b) BITS_PER_WORD)) b.

Definition bitmap_translate (bitno : Z) : Z * Z :=
  (bitno / BITS_PER_WORD, Z.shiftl 1 (bitno mod BITS_PER_WORD)).

Definition bitmap_mark b (index : Z) : outcome bitmap :=
  _ ← kassert (index <? nbits b);
  let '(ix, mask) := bitmap_translate index in
  w ← deref (zget (v b) ix);
  _ ← kassert (Z.land w mask =? 0);
  set_word b ix (Z.lor w mask).

Definition bitmap_unmark b (index : Z) : outcome bitmap :=
  _ ← kassert (index <? nbits b);
  let '(ix, mask) := bitmap_translate index in
  w ← deref (zget (v b) ix);
  _ ← kassert (negb (Z.land w mask =? 0));
  set_word b ix (Z.land w (Z.lnot mask)).

Definition bitmap_isset b (index : Z) : outcome Z :=
  let '(ix, mask) := bitmap_translate index in
  w ← deref (zget (v b) ix);
  Ok (Z.land w mask).

Definition bitmap_destroy b : unit := tt.

(** ** The set of bits in use *)

Definition in_use b (i : Z) : bool :=
  match zget (v b) (i / 8) with Some w => Z.testbit w (i mod 8) | None => true end.

(** All bytes are bytes and the padding is marked. *)
Record bm_wf b : Prop := {
  bm_nbits : 0 ≤ nbits b < two32 - 8;
  bm_len : zlen (v b) = (nbits b + 7) / 8;
  bm_bytes i w : zget (v b) i = Some w → 0 ≤ w < 256;
  bm_pad i : nbits b ≤ i → in_use b i = true
}.

Lemma words_eq b : bm_wf b → DIVROUNDUP (nbits b) BITS_PER_WORD = zlen (v b).
Proof.
  intros [Hn Hl _ _]. unfold DIVROUNDUP, BITS_PER_WORD. rewrite Hl, u32_id by width. f_equal. lia.
Qed.

Lemma land_bit w j : 0 ≤ j → Z.land w (Z.shiftl 1 j) = if Z.testbit w j then Z.shiftl 1 j else 0.
Proof.
  intros Hj. apply Z.bits_inj'. intros n Hn. rewrite Z.land_spec, Z.shiftl_spec by done.
  destruct (decide (n = j)) as [->|Hne].
  - rewrite Z.sub_diag. destruct (Z.testbit w j) eqn:E; [|by rewrite Z.bits_0].
    by rewrite Z.shiftl_spec, Z.sub_diag.
  - assert (Z.testbit 1 (n - j) = false) as H1.
    { destruct (decide (n < j)); [apply Z.testbit_neg_r; lia|].
      apply (Z.bits_above_log2 1); simpl; lia. }
    rewrite H1, andb_false_r. destruct (Z.testbit w j); [|by rewrite Z.bits_0].
    by rewrite Z.shiftl_spec.
Qed.

Lemma land_bit_zero w j : 0 ≤ j → (Z.land w (Z.shiftl 1 j) =? 0) = negb (Z.testbit w j).
Proof.
  intros Hj. rewrite land_bit by done. destruct (Z.testbit w j); [|done].
  apply Z.eqb_neq. rewrite Z.shiftl_1_l. pose proof (Z.pow_pos_nonneg 2 j). lia.
Qed.

Lemma testbit_one j n : 0 ≤ n → 0 ≤ j → Z.testbit (Z.shiftl 1 j) n = bool_decide (n = j).
Proof.
  intros Hn Hj. rewrite Z.shiftl_1_l. case_bool_decide as E.
  - subst. by apply Z.pow2_bits_true.
  - by apply Z.pow2_bits_false.
Qed.

Lemma byte_bits w : 0 ≤ w < 256 ↔ 0 ≤ w ∧ ∀ n, 8 ≤ n → Z.testbit w n = false.
Proof.
  split.
  - intros Hw. split; [lia|]. intros n Hn. destruct (decide (w = 0)) as [->|]; [apply Z.bits_0|].
    apply Z.bits_above_log2; [lia|]. apply Z.log2_lt_pow2; [lia|].
    apply Z.lt_le_trans with (2 ^ 8); [lia|]. apply Z.pow_le_mono_r; lia.
  - intros [H0 Hb]. split; [done|]. destruct (decide (w = 0)) as [->|]; [done|].
    destruct (decide (w < 256)) as [|Hge]; [done|exfalso].
    assert (8 ≤ Z.log2 w) as Hl by (apply Z.log2_le_pow2; lia).
    pose proof (Z.bit_log2 w ltac:(lia)) as Ht. by rewrite Hb in Ht.
Qed.

Lemma lor_byte w j : 0 ≤ w < 256 → 0 ≤ j < 8 → 0 ≤ Z.lor w (Z.shiftl 1 j) < 256.
Proof.
  intros Hw Hj. apply byte_bits in Hw as [H0 Hb]. apply byte_bits. split.
  - apply Z.lor_nonneg. split; [done|]. apply Z.shiftl_nonneg. lia.
  - intros n Hn. rewrite Z.lor_spec, Hb, testbit_one by lia. by rewrite bool_decide_eq_false_2 by lia.
Qed.

Lemma ldiff_byte w j : 0 ≤ w < 256 → 0 ≤ j < 8 → 0 ≤ Z.land w (Z.lnot (Z.shiftl 1 j)) < 256.
Proof.
  intros Hw Hj. apply byte_bits in Hw as [H0 Hb]. apply byte_bits. split.
  - apply Z.land_nonneg. by left.
  - intros n Hn. by rewrite Z.land_spec, Hb by lia.
Qed.

(** ** Setting and clearing one bit *)

Section one_bit.
Context (b : bitmap) (i w : Z) (Hi : 0 ≤ i) (Hw : zget (v b) (i / 8) = Some w).

Lemma in_use_word : in_use b i = Z.testbit w (i mod 8).
Proof. unfold in_use. by rewrite Hw. Qed.

Lemma set_bit_in_use (w' : Z) (x : bool) k :
  0 ≤ k → (∀ j, 0 ≤ j < 8 → Z.testbit w' j = if decide (j = i mod 8) then x else Z.testbit w j) →
  in_use (Bitmap (nbits b) (zset (v b) (i / 8) w')) k = if decide (k = i) then x else in_use b k.
Proof.
  intros Hk Hbits. unfold in_use. cbn [v].
  pose proof (Z.mod_pos_bound i 8 ltac:(lia)). pose proof (Z.mod_pos_bound k 8 ltac:(lia)).
  destruct (decide (k / 8 = i / 8)) as [E|Hne].
  - rewrite E, zget_zset_eq by (by eapply zget_Some_range). rewrite Hw, Hbits by done.
    pose proof (Z.div_mod i 8). pose proof (Z.div_mod k 8). repeat case_decide; try done; lia.
  - rewrite zget_zset_ne by done. case_decide; [congruence|done].
Qed.

Lemma set_bit_wf (w' : Z) (x : bool) :
  bm_wf b → 0 ≤ w' < 256 → (nbits b ≤ i → x = true) →
  (∀ j, 0 ≤ j < 8 → Z.testbit w' j = if decide (j = i mod 8) then x else Z.testbit w j) →
  bm_wf (Bitmap (nbits b) (zset (v b) (i / 8) w')).
Proof.
  intros [Hn Hl Hb Hp] Hw' Hx Hbits. constructor; cbn [nbits v]; [done|by rewrite zlen_zset| |].
  - intros k y Hy. rewrite zget_zset in Hy. case_decide; [by simplify_eq|by eauto].
  - intros k Hk. rewrite (set_bit_in_use w' x k) by (done || lia). case_decide; [subst; eauto|by apply Hp].
Qed.

End one_bit.

(** The bitmap after one bit has been set or cleared. *)
Definition bit_set b (i : Z) (x : bool) (b' : bitmap) : Prop :=
  nbits b' = nbits b ∧ bm_wf b' ∧
  ∀ k, 0 ≤ k → in_use b' k = if decide (k = i) then x else in_use b k.

Lemma set_word_bit b i w w' x :
  bm_wf b → 0 ≤ i → zget (v b) (i / 8) = Some w → 0 ≤ w' < 256 → (nbits b ≤ i → x = true) →
  (∀ j, 0 ≤ j < 8 → Z.testbit w' j = if decide (j = i mod 8) then x else Z.testbit w j) →
  ∃ b', set_word b (i / 8) w' = Ok b' ∧ bit_set b i x b'.
Proof.
  intros Hwf Hi Hw Hw' Hx Hbits. exists (Bitmap (nbits b) (zset (v b) (i / 8) w')). split.
  - unfold set_word, zput. rewrite decide_True by (by eapply zget_Some_range). done.
  - split; [done|]. split; [by eapply set_bit_wf|]. intros k Hk. by eapply set_bit_in_use.
Qed.

Lemma word_exists b i : bm_wf b → 0 ≤ i < nbits b → ∃ w, zget (v b) (i / 8) = Some w ∧ 0 ≤ w < 256.
Proof.
  intros [Hn Hl Hb Hp] Hi. destruct (zget_range (v b) (i / 8)) as [w Hw].
  - rewrite Hl. Z.to_euclidean_division_equations. lia.
  - eauto.
Qed.

Lemma lor_bits w i j :
  0 ≤ j < 8 → 0 ≤ i →
  Z.testbit (Z.lor w (Z.shiftl 1 (i mod 8))) j = if decide (j = i mod 8) then true else Z.testbit w j.
Proof.
  intros Hj Hi. pose proof (Z.mod_pos_bound i 8 ltac:(lia)).
  rewrite Z.lor_spec, testbit_one by lia. case_bool_decide; case_decide; try done; by rewrite ?orb_true_r, ?orb_false_r.
Qed.

Lemma ldiff_bits w i j :
  0 ≤ j < 8 → 0 ≤ i →
  Z.testbit (Z.land w (Z.lnot (Z.shiftl 1 (i mod 8)))) j = if decide (j = i mod 8) then false else Z.testbit w j.
Proof.
  intros Hj Hi. pose proof (Z.mod_pos_bound i 8 ltac:(lia)).
  rewrite Z.land_spec, Z.lnot_spec, testbit_one by lia.
  case_bool_decide; case_decide; try done; by rewrite ?andb_true_r, ?andb_false_r.
Qed.

(** [bitmap_mark] and [bitmap_unmark] change exactly one bit, and insist that it
    was in the other state. *)
Lemma bitmap_mark_spec b i :
  bm_wf b → 0 ≤ i →
  if (i <? nbits b) && negb (in_use b i)
  then ∃ b', bitmap_mark b i = Ok b' ∧ bit_set b i true b'
  else bitmap_mark b i = Panic.
Proof.
  intros Hwf Hi. unfold bitmap_mark. destruct (Z.ltb_spec i (nbits b)) as [Hlt|]; [|done].
  destruct (word_exists b i Hwf ltac:(lia)) as (w & Hw & Hby).
  cbn [kassert mbind outcome_bind]. unfold bitmap_translate, BITS_PER_WORD. rewrite Hw. cbn [deref mbind outcome_bind].
  pose proof (Z.mod_pos_bound i 8 ltac:(lia)). rewrite land_bit_zero by lia. rewrite (in_use_word b i w Hw).
  destruct (Z.testbit w (i mod 8)); simpl; [done|].
  apply (set_word_bit b i w); [done..|by apply lor_byte|done|]. intros j Hj. by apply lor_bits.
Qed.

Lemma bitmap_unmark_spec b i :
  bm_wf b → 0 ≤ i →
  if (i <? nbits b) && in_use b i
  then ∃ b', bitmap_unmark b i = Ok b' ∧ bit_set b i false b'
  else bitmap_unmark b i = Panic.
Proof.
  intros Hwf Hi. unfold bitmap_unmark. destruct (Z.ltb_spec i (nbits b)) as [Hlt|]; [|done].
  destruct (word_exists b i Hwf ltac:(lia)) as (w & Hw & Hby).
  cbn [kassert mbind outcome_bind]. unfold bitmap_translate, BITS_PER_WORD. rewrite Hw. cbn [deref mbind outcome_bind].
  pose proof (Z.mod_pos_bound i 8 ltac:(lia)). rewrite land_bit_zero by lia. rewrite (in_use_word b i w Hw).
  destruct (Z.testbit w (i mod 8)); simpl; [|done].
  apply (set_word_bit b i w); [done..|by apply ldiff_byte|lia|]. intros j Hj. by apply ldiff_bits.
Qed.

Lemma bitmap_isset_spec b i :
  bm_wf b → 0 ≤ i < nbits b →
  ∃ x, bitmap_isset b i = Ok x ∧ negb (x =? 0) = in_use b i.
Proof.
  intros Hwf Hi. destruct (word_exists b i Hwf Hi) as (w & Hw & _).
  unfold bitmap_isset, bitmap_translate, BITS_PER_WORD. rewrite Hw. cbn [deref mbind outcome_bind].
  pose proof (Z.mod_pos_bound i 8 ltac:(lia)). eexists; split; [done|].
  rewrite land_bit_zero, (in_use_word b i w Hw) by lia. by rewrite negb_involutive.
Qed.

(** ** Allocation *)

Lemma free_offset_spec offs w :
  Forall (λ j, 0 ≤ j) offs →
  match free_offset offs w with
  | Some j => ∃ l1 l2, offs = l1 ++ j :: l2 ∧ Z.testbit w j = false ∧ Forall (λ k, Z.testbit w k = true) l1
  | None => Forall (λ k, Z.testbit w k = true) offs
  end.
Proof.
  induction 1 as [|j offs Hj _ IH]; simpl; [done|].
  rewrite land_bit_zero by done. destruct (Z.testbit w j) eqn:E; simpl; [|by exists [], offs].
  destruct (free_offset offs w) as [j'|]; [|by constructor].
  destruct IH as (l1 & l2 & -> & Hb & Hf). exists (j :: l1), l2. split_and!; [done..|by constructor].
Qed.

(** Within one byte: the least clear bit. *)
Lemma free_offset_byte w :
  0 ≤ w < 256 →
  match free_offset (seqZ 0 8) w with
  | Some j => 0 ≤ j < 8 ∧ Z.testbit w j = false ∧ ∀ k, 0 ≤ k < j → Z.testbit w k = true
  | None => w = 255
  end.
Proof.
  intros Hw. pose proof (free_offset_spec (seqZ 0 8) w) as Hs.
  destruct (free_offset (seqZ 0 8) w) as [j|].
  - destruct Hs as (l1 & l2 & E & Hb & Hf); [apply Forall_seqZ; lia|].
    assert (j ∈ seqZ 0 8) as Hj by (rewrite E; set_solver). apply elem_of_seqZ in Hj.
    split_and!; [lia..|done|]. intros k Hk.
    assert (k ∈ l1 ++ j :: l2) as Hk1 by (rewrite <-E; apply elem_of_seqZ; lia).
    rewrite Forall_forall in Hf. apply elem_of_app in Hk1 as [?|Hk2]; [by apply Hf|exfalso].
    apply elem_of_cons in Hk2 as [?|Hk2]; [lia|].
    apply list_elem_of_lookup in Hk2 as [n2 Hn2].
    assert (seqZ 0 8 !! (length l1 + S n2)%nat = Some k) as L1.
    { rewrite E, lookup_app_r by lia. by replace (length l1 + S n2 - length l1)%nat with (S n2) by lia. }
    assert (seqZ 0 8 !! length l1 = Some j) as L2.
    { rewrite E, lookup_app_r by lia. by rewrite Nat.sub_diag. }
    apply lookup_seqZ in L1. apply lookup_seqZ in L2. lia.
  - specialize (Hs ltac:(apply Forall_seqZ; lia)). rewrite Forall_forall in Hs.
    apply Z.bits_inj'. intros n Hn. destruct (decide (n < 8)) as [Hlt|Hge].
    + rewrite Hs by (apply elem_of_seqZ; lia). symmetry.
      change 255 with (Z.ones 8). by apply Z.ones_spec_low.
    + rewrite (proj2 (proj1 (byte_bits w) Hw)) by lia. symmetry.
      change 255 with (Z.ones 8). apply Z.ones_spec_high. lia.
Qed.

(** What [bitmap_alloc] does: the least free index, or ENOSPC. *)
Inductive alloc_effect b : outcome (Z * Z * bitmap) → Prop :=
| alloc_full : (∀ k, 0 ≤ k < nbits b → in_use b k = true) → alloc_effect b (Ok (ENOSPC, 0, b))
| alloc_got i b' : 0 ≤ i < nbits b → in_use b i = false → (∀ k, 0 ≤ k < i → in_use b k = true) →
    bit_set b i true b' → alloc_effect b (Ok (0, i, b')).

Lemma bitmap_alloc_loop_spec b n ix :
  bm_wf b → 0 ≤ ix → ix + Z.of_nat n = zlen (v b) → (∀ k, 0 ≤ k < ix * 8 → in_use b k = true) →
  alloc_effect b (bitmap_alloc_loop (seqZ ix (Z.of_nat n)) b).
Proof.
  intros Hwf. pose proof (bm_nbits b Hwf). pose proof (bm_len b Hwf) as Hlen.
  revert ix. induction n as [|n IH]; intros ix Hix Hn Hbelow.
  - rewrite seqZ_nil by lia. simpl. apply alloc_full. intros k Hk. apply Hbelow.
    assert (nbits b ≤ ix * 8); [|lia]. rewrite Z.add_0_r in Hn. rewrite Hn, Hlen.
    Z.to_euclidean_division_equations. lia.
  - rewrite seqZ_cons by lia. replace (Z.pred (Z.of_nat (S n))) with (Z.of_nat n) by lia.
    cbn [bitmap_alloc_loop]. destruct (zget_range (v b) ix ltac:(lia)) as [w Hw].
    rewrite Hw. cbn [deref mbind outcome_bind].
    pose proof (bm_bytes b Hwf ix w Hw) as Hby. pose proof (free_offset_byte w Hby) as Hfo.
    assert (∀ j, 0 ≤ j < 8 → in_use b (ix * 8 + j) = Z.testbit w j) as Hbit.
    { intros j Hj. unfold in_use.
      rewrite Z.div_add_l, Z.div_small, Z.add_0_r, Hw by lia.
      by rewrite Z.add_comm, Z.mod_add, Z.mod_small by lia. }
    destruct (Z.eqb_spec w WORD_ALLBITS) as [Ew|Hne]; cbn [negb].
    + apply IH; [lia..|]. intros k Hk. destruct (decide (k < ix * 8)); [by apply Hbelow; lia|].
      replace k with (ix * 8 + (k - ix * 8)) by lia. rewrite Hbit by lia. rewrite Ew.
      change WORD_ALLBITS with (Z.ones 8). apply Z.ones_spec_low. lia.
    + change (seqZ 0 BITS_PER_WORD) with (seqZ 0 8).
      destruct (free_offset (seqZ 0 8) w) as [j|]; [|done]. destruct Hfo as (Hj & Hclr & Hmin).
      set (i := ix * 8 + j).
      assert (i / 8 = ix) as Ei by (unfold i; rewrite Z.div_add_l, Z.div_small by lia; lia).
      assert (i mod 8 = j) as Em by (unfold i; rewrite Z.add_comm, Z.mod_add, Z.mod_small by lia; done).
      assert (i < nbits b) as Hlt.
      { destruct (decide (i < nbits b)) as [|Hge]; [done|exfalso].
        pose proof (bm_pad b Hwf i ltac:(lia)) as Hp. unfold i in Hp. rewrite Hbit in Hp by lia. congruence. }
      destruct (set_word_bit b i w (Z.lor w (Z.shiftl 1 j)) true) as (b' & Hs & Hset);
        [done|unfold i; lia|by rewrite Ei|by apply lor_byte|done| |].
      { intros k Hk. rewrite <-Em. apply lor_bits; unfold i; lia. }
      rewrite Ei in Hs. rewrite Hs. cbn [mbind outcome_bind].
      change (ix * BITS_PER_WORD + j) with i. rewrite u32_id by (unfold i in *; width).
      rewrite (proj1 Hset), (proj2 (Z.ltb_lt i (nbits b)) Hlt). cbn [kassert mbind outcome_bind].
      apply alloc_got; [unfold i in *; lia|unfold i; by rewrite Hbit by lia| |done].
      intros k Hk. destruct (decide (k < ix * 8)); [by apply Hbelow; lia|].
      replace k with (ix * 8 + (k - ix * 8)) by lia. rewrite Hbit by (unfold i in *; lia).
      apply Hmin. unfold i in *. lia.
Qed.

Lemma bitmap_alloc_spec b : bm_wf b → alloc_effect b (bitmap_alloc b).
Proof.
  intros Hwf. unfold bitmap_alloc. rewrite words_eq by done. unfold zlen.
  apply bitmap_alloc_loop_spec; [done|lia|done|]. intros k Hk. lia.
Qed.

(** ** Creation *)

Lemma mark_over_spec js b ix w :
  zget (v b) ix = Some w → 0 ≤ w < 256 → Forall (λ j, 0 ≤ j < 8) js →
  ∃ w', mark_over js ix b = Ok (Bitmap (nbits b) (zset (v b) ix w')) ∧ 0 ≤ w' < 256 ∧
    ∀ j, 0 ≤ j → Z.testbit w' j = Z.testbit w j || bool_decide (j ∈ js).
Proof.
  intros Hw Hb Hjs. revert b w Hw Hb. induction Hjs as [|j js Hj _ IH]; intros b w Hw Hb; cbn [mark_over].
  - exists w. split_and!; [|lia..|].
    + destruct b as [n l]. simpl in *. do 2 f_equal. symmetry. by apply zset_id.
    + intros j _. rewrite bool_decide_eq_false_2 by apply not_elem_of_nil. by rewrite orb_false_r.
  - rewrite Hw. cbn [deref mbind outcome_bind]. unfold set_word, zput.
    rewrite decide_True by (by eapply zget_Some_range). cbn [mbind outcome_bind].
    destruct (IH (Bitmap (nbits b) (zset (v b) ix (Z.lor w (Z.shiftl 1 j)))) (Z.lor w (Z.shiftl 1 j)))
      as (w' & -> & Hb' & Hbits).
    + cbn [v]. apply zget_zset_eq. by eapply zget_Some_range.
    + by apply lor_byte.
    + exists w'. cbn [v nbits]. split_and!; [by rewrite zset_zset|lia..|]. intros k Hk.
      rewrite Hbits, Z.lor_spec, testbit_one by lia. rewrite <-orb_assoc. f_equal.
      repeat case_bool_decide; try done; set_solver.
Qed.

Lemma bitmap_create_spec n :
  0 ≤ n < two32 - 8 →
  ∃ b, bitmap_create n true true = Ok (Some b) ∧ bm_wf b ∧ nbits b = n ∧
    ∀ i, 0 ≤ i < n → in_use b i = false.
Proof.
  intros Hn. unfold bitmap_create, DIVROUNDUP, BITS_PER_WORD. simpl negb. cbv iota.
  rewrite (u32_id (n + 8 - 1)) by width. set (words := (n + 8 - 1) / 8).
  assert (words = (n + 7) / 8) as Ew by (unfold words; f_equal; lia).
  assert (0 ≤ words) by (rewrite Ew; apply Z.div_pos; lia).
  assert (∀ i, 0 ≤ i < words → zget (replicate (Z.to_nat words) 0) i = Some 0) as Hrep.
  { intros i Hi. unfold zget. rewrite decide_True by lia. apply lookup_replicate. lia. }
  assert (zlen (replicate (Z.to_nat words) 0) = words) as Hlen
    by (unfold zlen; rewrite length_replicate; lia).
  destruct (Z.ltb_spec (n / 8) words) as [Hlt|Hge].
  - assert (words = n / 8 + 1 ∧ 0 < n mod 8) as [Ew1 Hmod] by (rewrite Ew in *; Z.to_euclidean_division_equations; lia).
    assert (n - (words - 1) * 8 = n mod 8) as Eo by (Z.to_euclidean_division_equations; lia).
    pose proof (Z.mod_pos_bound n 8 ltac:(lia)).
    assert (is_u32 (words - 1)) by (rewrite Ew1; Z.to_euclidean_division_equations; width).
    rewrite !(u32_id (words - 1)) by done. rewrite (u32_id ((words - 1) * 8)) by width.
    rewrite (u32_id (n - _)) by (rewrite Eo; width). rewrite Eo.
    replace (n / 8) with (words - 1) by lia. rewrite Z.eqb_refl. cbn [kassert mbind outcome_bind].
    rewrite (proj2 (Z.ltb_lt 0 (n mod 8))), (proj2 (Z.ltb_lt (n mod 8) 8)) by lia.
    cbn [andb kassert mbind outcome_bind].
    destruct (mark_over_spec (seqZ (n mod 8) (8 - n mod 8)) (Bitmap n (replicate (Z.to_nat words) 0)) (words - 1) 0)
      as (w' & -> & Hb & Hbits); [apply Hrep; lia|lia|apply Forall_seqZ; lia|].
    eexists. split; [done|]. cbn [v nbits].
    assert (∀ i, 0 ≤ i → in_use (Bitmap n (zset (replicate (Z.to_nat words) 0) (words - 1) w')) i = bool_decide (n ≤ i)) as Hin.
    { intros i Hi. unfold in_use. cbn [v]. rewrite zget_zset. case_decide as Hd; [destruct Hd as [E _]|rename Hd into Hne].
      - rewrite Hbits, Z.bits_0 by (apply Z.mod_pos_bound; lia). simpl.
        apply bool_decide_ext. rewrite elem_of_seqZ. Z.to_euclidean_division_equations. lia.
      - destruct (decide (i / 8 < words)) as [Hlt'|Hge'].
        + rewrite Hrep by (split; [apply Z.div_pos; lia|done]). rewrite Z.bits_0. symmetry.
          apply bool_decide_eq_false_2. rewrite Hlen in Hne. Z.to_euclidean_division_equations. lia.
        + rewrite (proj2 (zget_None _ _)) by lia. symmetry. apply bool_decide_eq_true_2.
          Z.to_euclidean_division_equations. lia. }
    split_and!; [|done|].
    + constructor; cbn [v nbits]; [done|by rewrite zlen_zset, Hlen| |].
      * intros i w Hw. rewrite zget_zset in Hw. case_decide; [by simplify_eq|].
        apply zget_Some_range in Hw as Hr. rewrite Hlen in Hr. rewrite Hrep in Hw by done. by simplify_eq.
      * intros i Hi. rewrite Hin by lia. by apply bool_decide_eq_true_2.
    + intros i Hi. rewrite Hin by lia. apply bool_decide_eq_false_2. lia.
  - eexists. split; [done|]. assert (words * 8 = n) by (rewrite Ew in *; Z.to_euclidean_division_equations; lia).
    split_and!; [|done|].
    + constructor; cbn [v nbits]; [done|by rewrite Hlen| |].
      * intros i w Hw. apply zget_Some_range in Hw as Hr. rewrite Hlen in Hr. rewrite Hrep in Hw by done. by simplify_eq.
      * intros i Hi. unfold in_use. cbn [v].
        rewrite (proj2 (zget_None _ _)); [done|]. rewrite Hlen. Z.to_euclidean_division_equations. lia.
    + intros i Hi. unfold in_use. cbn [v]. rewrite Hrep, Z.bits_0; [done|].
      Z.to_euclidean_division_equations. lia.
Qed.

(** ** Properties *)

(** C38: a bitmap is an allocator of indices.  [bitmap_create] gives a bitmap in
    which every index is free.  [bitmap_alloc] returns the least free index and
    marks only that one, or ENOSPC when all indices are in use; it never fails an
    assertion and never hands out a padding bit of the last byte.  Marking and
    unmarking change one index, and stop the kernel when it is out of range or
    already in the state asked for. *)
Theorem bitmap_allocates b n i (Hwf : bm_wf b) (Hn : 0 ≤ n < two32 - 8) (Hi : 0 ≤ i) :
  (∃ b0, bitmap_create n true true = Ok (Some b0) ∧ bm_wf b0 ∧ nbits b0 = n ∧
     ∀ k, 0 ≤ k < n → in_use b0 k = false) ∧
  alloc_effect b (bitmap_alloc b) ∧
  (if (i <? nbits b) && negb (in_use b i)
   then ∃ b', bitmap_mark b i = Ok b' ∧ bit_set b i true b' else bitmap_mark b i = Panic) ∧
  (if (i <? nbits b) && in_use b i
   then ∃ b', bitmap_unmark b i = Ok b' ∧ bit_set b i false b' else bitmap_unmark b i = Panic).
Proof.
  split_and!; [by apply bitmap_create_spec|by apply bitmap_alloc_spec|by apply bitmap_mark_spec|
    by apply bitmap_unmark_spec].
Qed.

(** A bitmap of ten bits of which the first three are in use. *)
Definition demo_bitmap : bitmap := Bitmap 10 [7; 252].

Lemma demo_bitmap_wf : bm_wf demo_bitmap.
Proof.
  constructor; [done|done| |].
  - intros k w Hw. apply zget_Some_range in Hw as Hr. cbn in Hr.
    assert (k = 0 ∨ k = 1) as [-> | ->] by (unfold zlen in Hr; simpl in Hr; lia); injection Hw as <-; lia.
  - intros k Hk. cbn [nbits demo_bitmap] in Hk. unfold in_use.
    destruct (decide (16 ≤ k)) as [Hge|Hlt].
    + rewrite (proj2 (zget_None _ _)); [done|]. right. change (zlen (v demo_bitmap)) with 2.
      Z.to_euclidean_division_equations. lia.
    + assert (k = 10 ∨ k = 11 ∨ k = 12 ∨ k = 13 ∨ k = 14 ∨ k = 15) as Hc by lia.
      destruct Hc as [->|[->|[->|[->|[->| ->]]]]]; reflexivity.
Qed.

Lemma bitmap_allocates_witness : alloc_effect demo_bitmap (Ok (0, 3, Bitmap 10 [15; 252])).
Proof.
  assert (0 ≤ 10 < two32 - 8) as Hn by (split; vm_compute; congruence).
  assert (0 ≤ 3) as H3 by (vm_compute; congruence).
  exact (proj1 (proj2 (bitmap_allocates demo_bitmap 10 3 demo_bitmap_wf Hn H3))).
Defined.
