(* ===== verification/Lhd.v ===== *)
(** * Disk driver and block I/O (kern/dev/lamebus/lhd.c, kern/fs/sfs/sfs_io.c)

    [lhd_io] and the interrupt side of the disk driver, and [sfs_rwblock],
    [sfs_readblock] and [sfs_writeblock] of SFS above it.  The disk itself is
    hardware: a list of sectors, and a function [hw_fails] that says which
    operations end with a media error.  A failed operation transfers nothing.
    One thread uses the disk at a time (the big VFS lock), so [lh_clear] is always
    free and [lh_done] is signalled once per operation.

    The last section shows what the retry loop of [sfs_rwblock] does: reads are
    retried properly; a write that fails is reported as done. *)

From stdpp Require Import base gmap list list_numbers.
From Stdlib Require Import ZArith Lia.
From S2P Require Import Prelude FrameTable CopyInOut Uio.
Open Scope Z_scope.

Definition LHD_SECTSIZE : Z := 512.
Definition LHD_IDLE : Z := 0.
Definition LHD_WORKING : Z := 1.
Definition LHD_OK : Z := 4.
Definition LHD_INVSECT : Z := 12.
Definition LHD_MEDIA : Z := 20.
Definition LHD_ISWRITE : Z := 2.
Definition LHD_STATEMASK : Z := 0x1d.

(** Whether the n-th operation of the disk ends with a media error. *)
Class Hardware := hw_fails : uio_rw → Z → bool.

(** The disk: its sectors, the on-card buffer and the operations done so far.
    [d_blocks] is the number of sectors. *)
Record lhd := Lhd { sectors : list (list Z); lh_buf : list Z; ops : Z }.

Implicit Types (u : uio) (m : memory) (lh : lhd).

#[local] Arguments moved : simpl never.

Definition d_blocks lh : Z := zlen (sectors lh).

Section lhd.
Context `{Hardware}.

(** The hardware carries out the operation on the sector in its register and sets
    its status. *)
Definition hw_run (statval sector : Z) lh : Z * lhd :=
  let rw := if Z.land statval LHD_ISWRITE =? 0 then UIO_READ else UIO_WRITE in
  let lh1 := Lhd (sectors lh) (lh_buf lh) (ops lh + 1) in
  match zget (sectors lh) sector with
  | None => (Z.lor LHD_INVSECT (Z.land statval LHD_ISWRITE), lh1)
  | Some data =>
      if hw_fails rw (ops lh) then (Z.lor LHD_MEDIA (Z.land statval LHD_ISWRITE), lh1)
      else
        (Z.lor LHD_OK (Z.land statval LHD_ISWRITE),
         match rw with
         | UIO_READ => Lhd (sectors lh) data (ops lh + 1)
         | UIO_WRITE => Lhd (zset (sectors lh) sector (lh_buf lh)) (lh_buf lh) (ops lh + 1)
         end)
  end.

Definition lhd_code_to_errno (code : Z) : Z :=
  if Z.land code LHD_STATEMASK =? LHD_OK then 0
  else if Z.land code LHD_STATEMASK =? LHD_INVSECT then EINVAL
  else if Z.land code LHD_STATEMASK =? LHD_MEDIA then EIO
  else EAGAIN.

(** The interrupt handler: [Some] result when the operation has completed. *)
Definition lhd_irq (val : Z) : option Z :=
  let st := Z.land val LHD_STATEMASK in
  if (st =? LHD_OK) || (st =? LHD_INVSECT) || (st =? LHD_MEDIA)
  then Some (lhd_code_to_errno val) else None.

(** One sector: the body of the loop of [lhd_io].  A completion that never comes
    would leave the thread in [P(lh->lh_done)]. *)
Definition lhd_sector (statval sector : Z) u m lh : outcome (Z * uio * memory * lhd) :=
  '(result, buf, u, m) ←
    match uio_dir u with
    | UIO_WRITE => uiomove (lh_buf lh) LHD_SECTSIZE u m
    | UIO_READ => Ok (0, lh_buf lh, u, m)
    end;
  let lh := Lhd (sectors lh) buf (ops lh) in
  if negb (result =? 0) then Ok (result, u, m, lh)
  else
    let '(val, lh) := hw_run statval sector lh in
    match lhd_irq val with
    | None => Hang
    | Some result =>
        match uio_dir u with
        | UIO_READ =>
            if result =? 0 then
              '(result, buf, u, m) ← uiomove (lh_buf lh) LHD_SECTSIZE u m;
              Ok (result, u, m, Lhd (sectors lh) buf (ops lh))
            else Ok (result, u, m, lh)
        | UIO_WRITE => Ok (result, u, m, lh)
        end
    end.

Fixpoint lhd_loop (is_ : list Z) (statval sector : Z) u m lh : outcome (Z * uio * memory * lhd) :=
  match is_ with
  | [] => Ok (0, u, m, lh)
  | i :: is_ =>
      '(result, u, m, lh) ← lhd_sector statval (u32 (sector + i)) u m lh;
      if negb (result =? 0) then Ok (result, u, m, lh)
      else lhd_loop is_ statval sector u m lh
  end.

Definition lhd_io u m lh : outcome (Z * uio * memory * lhd) :=
  let sector := u32 (uio_offset u / LHD_SECTSIZE) in
  let sectoff := u32 (uio_offset u mod LHD_SECTSIZE) in
  let len := uio_resid u / LHD_SECTSIZE in
  let lenoff := uio_resid u mod LHD_SECTSIZE in
  if negb (sectoff =? 0) || negb (lenoff =? 0) then Ok (EINVAL, u, m, lh)
  else if d_blocks lh <? u32 (sector + len) then Ok (EINVAL, u, m, lh)
  else
    let statval := match uio_dir u with
                   | UIO_WRITE => Z.lor LHD_WORKING LHD_ISWRITE
                   | UIO_READ => LHD_WORKING
                   end in
    lhd_loop (seqZ 0 len) statval sector u m lh.

(** ** sfs_io.c: blocks *)

Definition SFS_BLOCKSIZE : Z := 512.

(** The retry loop: [more] attempts are allowed after this one. *)
Fixpoint sfs_rw_try (more : nat) u m lh : outcome (Z * uio * memory * lhd) :=
  '(result, u, m, lh) ← lhd_io u m lh;
  if result =? EINVAL then Panic
  else if result =? EIO then
    match more with
    | S more => sfs_rw_try more u m lh
    | O => Ok (result, u, m, lh)
    end
  else Ok (result, u, m, lh).

(** [tries] counts from 0 to 10. *)
Definition sfs_rwblock u m lh : outcome (Z * uio * memory * lhd) := sfs_rw_try 10 u m lh.

(** The memory that consists of one kernel buffer. *)
Definition buf_mem (data : list Z) : memory :=
  Mem ∅ ∅ (map_seqZ 0 data) 0.

Definition mem_buf (n : Z) m : list Z := mget UIO_SYSSPACE m (seqZ 0 n).

(** [SFSUIO] on the buffer [data], and the block I/O through it. *)
Definition SFSUIO (block : Z) (rw : uio_rw) : uio :=
  uio_kinit 0 SFS_BLOCKSIZE (block * SFS_BLOCKSIZE) rw.

(** The result, the buffer and the disk. *)
Definition sfs_readblock (block : Z) (data : list Z) lh : outcome (Z * list Z * lhd) :=
  _ ← kassert (zlen data =? SFS_BLOCKSIZE);
  '(result, _, m, lh) ← sfs_rwblock (SFSUIO block UIO_READ) (buf_mem data) lh;
  Ok (result, mem_buf SFS_BLOCKSIZE m, lh).

Definition sfs_writeblock (block : Z) (data : list Z) lh : outcome (Z * lhd) :=
  _ ← kassert (zlen data =? SFS_BLOCKSIZE);
  '(result, _, _, lh) ← sfs_rwblock (SFSUIO block UIO_WRITE) (buf_mem data) lh;
  Ok (result, lh).

(** ** One block *)

(** Sectors are 512 bytes long and sector numbers fit in 23 bits, so that byte offsets
    fit in 32. *)
Record lhd_wf lh : Prop := {
  lw_sectors : Forall (λ s : list Z, length s = 512%nat) (sectors lh);
  lw_buf : length (lh_buf lh) = 512%nat;
  lw_blocks : d_blocks lh ≤ 8388608
}.

(** A uio for block [b] of a disk. *)
Record block_uio (b : Z) u m lh : Prop := {
  bu_wf : uio_wf m u;
  bu_kernel : kernel_ok m (uio_segflg u) (uio_dir u) (take 512 (uio_addrs u));
  bu_offset : uio_offset u = b * 512;
  bu_resid : uio_resid u = 512;
  bu_block : 0 ≤ b < d_blocks lh
}.

Lemma lhd_wf_sector b lh : lhd_wf lh → 0 ≤ b < d_blocks lh →
  ∃ s, zget (sectors lh) b = Some s ∧ length s = 512%nat.
Proof.
  intros [Hs _ _] Hb. destruct (zget_range _ _ Hb) as [s Es]. exists s. split; [done|].
  rewrite Forall_lookup in Hs. unfold zget in Es. case_decide; [|done]. by eapply Hs.
Qed.

Lemma lhd_io_block b u m lh : lhd_wf lh → block_uio b u m lh →
  lhd_io u m lh =
    ('(result, u, m, lh) ← lhd_sector (match uio_dir u with UIO_WRITE => 3 | UIO_READ => 1 end) b u m lh;
     Ok (result, u, m, lh)).
Proof.
  intros Hl [Hwf _ Ho Hr Hb]. pose proof (lw_blocks _ Hl) as Hd. unfold lhd_io, LHD_SECTSIZE. rewrite Ho, Hr.
  rewrite Z.div_mul, Z.mod_mul by done. rewrite (u32_id b) by width.
  change (u32 0) with 0. change (512 / 512) with 1. change (512 mod 512) with 0. simpl orb.
  rewrite (u32_id (b + 1)) by width. destruct (Z.ltb_spec (d_blocks lh) (b + 1)); [lia|].
  change (seqZ 0 1) with [0]. cbn [lhd_loop]. rewrite Z.add_0_r, (u32_id b) by width.
  change (Z.lor LHD_WORKING LHD_ISWRITE) with 3. change LHD_WORKING with 1.
  destruct (lhd_sector _ b u m lh) as [[[[e u'] m'] lh']| | |]; try done. simpl.
  by destruct (Z.eqb_spec e 0) as [->|].
Qed.

(** The disk after an operation that did not change its sectors. *)
Definition same_disk lh lh' : Prop := sectors lh' = sectors lh ∧ (lhd_wf lh → lhd_wf lh').

(** Reading a block: a media error leaves the uio as it was; otherwise the sector
    is moved to it. *)
Lemma lhd_read_block b u m lh s : lhd_wf lh → block_uio b u m lh → uio_dir u = UIO_READ →
  zget (sectors lh) b = Some s →
  ∃ lh', same_disk lh lh' ∧ ops lh' = ops lh + 1 ∧
  if hw_fails UIO_READ (ops lh) then lhd_io u m lh = Ok (EIO, u, m, lh')
  else ∃ e u' m', lhd_io u m lh = Ok (e, u', m', lh') ∧ moved 512 s u m (e, s, u', m').
Proof.
  intros Hl Hu Hd Es. rewrite (lhd_io_block b) by done. destruct Hu as [Hwf Hk Ho Hr Hb].
  assert (length s = 512%nat) as Hs by (destruct (lhd_wf_sector b lh Hl Hb) as (? & ? & ?); by simplify_eq).
  unfold lhd_sector. rewrite Hd. cbn [mbind outcome_bind]. change (negb (0 =? 0)) with false. cbv iota.
  unfold hw_run. simpl. rewrite Es. destruct (hw_fails UIO_READ (ops lh)); simpl; rewrite Hd.
  - exists (Lhd (sectors lh) (lh_buf lh) (ops lh + 1)). split; [split; [done|intros []; by constructor]|].
    done.
  - destruct (uiomove_spec s 512 u m Hwf) as ([[[e p] u'] m'] & E & Hm); [lia|unfold zlen; lia|by rewrite Hd in Hk |- *|].
    simpl. unfold LHD_SECTSIZE. rewrite E. simpl.
    assert (p = s) as -> by (unfold moved in Hm; rewrite Hd in Hm; by destruct Hm as (? & ? & ? & ? & ? & ? & -> & ?)).
    eexists (Lhd (sectors lh) s (ops lh + 1)). split; [split; [done|intros []; by constructor]|].
    split; [done|by eauto].
Qed.

(** Writing a block: the uio is consumed first; a media error then leaves the sector
    as it was. *)
Lemma lhd_write_block b u m lh : lhd_wf lh → block_uio b u m lh → uio_dir u = UIO_WRITE →
  ∃ e p u', uiomove (lh_buf lh) 512 u m = Ok (e, p, u', m) ∧ moved 512 (lh_buf lh) u m (e, p, u', m) ∧
  ∃ lh', lhd_wf lh' ∧
  if e =? 0 then
    ops lh' = ops lh + 1 ∧
    if hw_fails UIO_WRITE (ops lh) then lhd_io u m lh = Ok (EIO, u', m, lh') ∧ sectors lh' = sectors lh
    else lhd_io u m lh = Ok (0, u', m, lh') ∧ sectors lh' = zset (sectors lh) b p
  else lhd_io u m lh = Ok (e, u', m, lh') ∧ sectors lh' = sectors lh ∧ ops lh' = ops lh.
Proof.
  intros Hl Hu Hd. rewrite (lhd_io_block b) by done. destruct Hu as [Hwf Hk Ho Hr Hb].
  destruct (uiomove_spec (lh_buf lh) 512 u m Hwf) as ([[[e p] u'] m'] & E & Hm);
    [lia|unfold zlen; rewrite (lw_buf _ Hl); lia|by rewrite Hd in Hk |- *|].
  assert (m' = m ∧ length p = 512%nat ∧ uio_dir u' = UIO_WRITE) as (-> & Hp & Hd').
  { unfold moved in Hm. rewrite Hd in Hm. destruct Hm as (j & _ & Ha & _ & Hp & _ & -> & _).
    rewrite Hp, (lw_buf _ Hl). split_and!; [done|done|]. rewrite <-Hd. apply Ha. }
  exists e, p, u'. split_and!; [done|done|]. unfold lhd_sector. rewrite Hd. unfold LHD_SECTSIZE. rewrite E.
  simpl mbind. cbv beta iota. destruct Hl as [Hl1 Hl2 Hl3]. destruct (Z.eqb_spec e 0) as [->|Hne].
  - unfold hw_run. cbn [sectors lh_buf ops]. destruct (zget_range _ _ Hb) as [s ->].
    change (Z.land 3 LHD_ISWRITE =? 0) with false. cbv beta iota. simpl negb. cbv iota.
    destruct (hw_fails UIO_WRITE (ops lh)); simpl; rewrite Hd'; simpl.
    + exists (Lhd (sectors lh) p (ops lh + 1)). split; [by constructor|done].
    + exists (Lhd (zset (sectors lh) b p) p (ops lh + 1)). split; [constructor; simpl|done].
      * unfold zset. rewrite decide_True by lia. by apply Forall_insert.
      * done.
      * unfold d_blocks. simpl. by rewrite zlen_zset.
  - exists (Lhd (sectors lh) p (ops lh)). split; [by constructor|done].
Qed.

(** ** Kernel buffers *)

Lemma buf_mem_lookup data a : km (buf_mem data) !! a = zget data a.
Proof.
  unfold buf_mem, zget. simpl. case_decide; [by rewrite lookup_map_seqZ_0|].
  by rewrite lookup_map_seqZ, option_guard_False by lia.
Qed.

Lemma buf_mem_can data : Forall (can_write (buf_mem data) UIO_SYSSPACE) (seqZ 0 (zlen data)).
Proof.
  apply Forall_seqZ. intros a Ha. unfold can_write. rewrite buf_mem_lookup.
  destruct (zget_range data a) as [x ->]; [lia|by eexists].
Qed.

Lemma mget_buf_mem data : mget UIO_SYSSPACE (buf_mem data) (seqZ 0 (zlen data)) = data.
Proof.
  unfold mget. apply list_eq. intros i. change (map ?f ?l) with (f <$> l). rewrite list_lookup_fmap.
  destruct (decide (Z.of_nat i < zlen data)) as [Hi|Hi].
  - rewrite lookup_seqZ_lt by lia. cbn [fmap option_fmap option_map]. rewrite buf_mem_lookup.
    unfold zlen in Hi. destruct (lookup_lt_is_Some_2 data i ltac:(lia)) as [x Hx].
    unfold zget. rewrite decide_True by lia. replace (Z.to_nat (0 + Z.of_nat i)) with i by lia. by rewrite Hx.
  - rewrite lookup_seqZ_ge by lia. symmetry. apply lookup_ge_None. unfold zlen in Hi. lia.
Qed.

Lemma mput_kernel_ne m a addrs : ∀ l, a ∉ addrs → km (mput UIO_SYSSPACE m addrs l) !! a = km m !! a.
Proof.
  revert m. induction addrs as [|b addrs IH]; intros m [|x l] Ha; simpl; try done.
  apply not_elem_of_cons in Ha as [Ha Ha']. rewrite IH by done. simpl. by rewrite lookup_insert_ne.
Qed.

Lemma mget_mput addrs : ∀ m l, NoDup addrs → length addrs = length l →
  mget UIO_SYSSPACE (mput UIO_SYSSPACE m addrs l) addrs = l.
Proof.
  induction addrs as [|a addrs IH]; intros m [|x l] Hnd Hl; simpl in *; try done || lia.
  apply NoDup_cons in Hnd as [Ha Hnd]. rewrite IH by (done || lia).
  rewrite mput_kernel_ne by done. simpl. by rewrite lookup_insert_eq.
Qed.

Lemma SFSUIO_addrs b rw : uio_addrs (SFSUIO b rw) = seqZ 0 512.
Proof. exact (app_nil_r (seqZ 0 512)). Qed.

Lemma SFSUIO_block b rw data lh : lhd_wf lh → length data = 512%nat → 0 ≤ b < d_blocks lh →
  block_uio b (SFSUIO b rw) (buf_mem data) lh.
Proof.
  intros Hl Hd Hb. pose proof (lw_blocks _ Hl) as Hn.
  pose proof (buf_mem_can data) as Hc. unfold zlen in Hc. rewrite Hd in Hc.
  constructor; [|intros _|done|done|done].
  - constructor; [repeat constructor; done| | |done].
    + rewrite SFSUIO_addrs. unfold zlen. rewrite length_seqZ. cbn [SFSUIO uio_kinit uio_resid]. unfold SFS_BLOCKSIZE. width.
    + cbn [SFSUIO uio_kinit uio_resid uio_offset]. unfold SFS_BLOCKSIZE. width.
  - rewrite SFSUIO_addrs. eapply Forall_take. exact Hc.
Qed.

(** ** The retry loop *)

Lemma moved_error n ptr u m e p u' m' : moved n ptr u m (e, p, u', m') → e = 0 ∨ e = EFAULT.
Proof. unfold moved. intros (j & _ & _ & _ & _ & _ & H'). destruct (uio_dir u); case_decide; naive_solver. Qed.

Lemma sfs_rw_try_S more u m lh :
  sfs_rw_try (S more) u m lh =
    ('(result, u, m, lh) ← lhd_io u m lh;
     if result =? EINVAL then Panic else if result =? EIO then sfs_rw_try more u m lh else Ok (result, u, m, lh)).
Proof. done. Qed.

Lemma sfs_rw_read more : ∀ b u m lh s,
  lhd_wf lh → block_uio b u m lh → uio_dir u = UIO_READ → zget (sectors lh) b = Some s →
  ∃ lh', same_disk lh lh' ∧
  if decide (Exists (λ i, hw_fails UIO_READ (ops lh + i) = false) (seqZ 0 (Z.of_nat more + 1)))
  then ∃ e u' m', sfs_rw_try more u m lh = Ok (e, u', m', lh') ∧ moved 512 s u m (e, s, u', m')
  else sfs_rw_try more u m lh = Ok (EIO, u, m, lh').
Proof.
  induction more as [|more IH]; intros b u m lh s Hl Hu Hd Es;
    destruct (lhd_read_block b u m lh s Hl Hu Hd Es) as (lh1 & [Hs1 Hw1] & Ho & Hr); cbn [sfs_rw_try];
    rewrite (seqZ_cons 0) by lia.
  - destruct (hw_fails UIO_READ (ops lh)) eqn:E.
    + rewrite Hr. exists lh1. split; [done|]. rewrite decide_False; [done|].
      intros Hx. apply Exists_cons in Hx as [Hx|Hx]; [rewrite Z.add_0_r in Hx; congruence|by apply Exists_nil in Hx].
    + destruct Hr as (e & u' & m' & -> & Hm). exists lh1. split; [done|].
      rewrite decide_True by (left; by rewrite Z.add_0_r). exists e, u', m'. split; [|done].
      by destruct (moved_error _ _ _ _ _ _ _ _ Hm) as [->| ->].
  - destruct (hw_fails UIO_READ (ops lh)) eqn:E.
    + rewrite Hr. cbn [mbind outcome_bind]. change (EIO =? EINVAL) with false. rewrite Z.eqb_refl. cbv iota.
      destruct (IH b u m lh1 s) as (lh2 & [Hs2 Hw2] & Hr2); [by apply Hw1| |done|by rewrite Hs1|].
      { destruct Hu. constructor; try done. unfold d_blocks. by rewrite Hs1. }
      exists lh2. split; [split; [by rewrite Hs2|auto]|].
      assert (∀ l, Exists (λ i, hw_fails UIO_READ (ops lh + i) = false) (map (Z.add 1) l) ↔
                   Exists (λ i, hw_fails UIO_READ (ops lh1 + i) = false) l) as Hsh.
      { intros l. rewrite Ho. change (map ?f ?l) with (f <$> l). rewrite Exists_fmap. unfold compose.
        apply Exists_proper; [|done]. intros i. by rewrite Z.add_assoc. }
      assert (seqZ (Z.succ 0) (Z.pred (Z.of_nat (S more) + 1)) = map (Z.add 1) (seqZ 0 (Z.of_nat more + 1))) as ->.
      { change (map ?f ?l) with (f <$> l). rewrite fmap_add_seqZ. f_equal; lia. }
      assert (∀ l, Exists (λ i, hw_fails UIO_READ (ops lh + i) = false) (0 :: map (Z.add 1) l) ↔
                   Exists (λ i, hw_fails UIO_READ (ops lh1 + i) = false) l) as Hcons.
      { intros l. rewrite Exists_cons, Hsh, Z.add_0_r, E. naive_solver. }
      case_decide as Hx; case_decide as Hy; rewrite Hcons in Hx || rewrite Hcons in Hy; done.
    + destruct Hr as (e & u' & m' & -> & Hm). exists lh1. split; [done|].
      rewrite decide_True by (left; by rewrite Z.add_0_r). exists e, u', m'. split; [|done].
      by destruct (moved_error _ _ _ _ _ _ _ _ Hm) as [->| ->].
Qed.

(** Moving a block between a kernel buffer and the card always succeeds. *)
Lemma moved_SFSUIO b rw data ptr e p u' m' :
  length data = 512%nat → length ptr = 512%nat →
  moved 512 ptr (SFSUIO b rw) (buf_mem data) (e, p, u', m') →
  e = 0 ∧ uio_resid u' = 0 ∧ uio_offset u' = b * 512 + 512 ∧
  match rw with
  | UIO_READ => mem_buf 512 m' = ptr
  | UIO_WRITE => p = data
  end.
Proof.
  intros Hd Hp Hm. unfold moved in Hm. rewrite SFSUIO_addrs in Hm.
  change (uio_segflg (SFSUIO b rw)) with UIO_SYSSPACE in Hm. change (uio_dir (SFSUIO b rw)) with rw in Hm.
  destruct Hm as (j & Hj & (_ & Ho & Hr & _) & _ & _ & _ & Hm).
  change (uio_offset (SFSUIO b rw)) with (b * 512) in Ho. change (uio_resid (SFSUIO b rw)) with 512 in Hr.
  pose proof (buf_mem_can data) as Hc. pose proof (mget_buf_mem data) as Hg.
  unfold zlen in Hc, Hg. rewrite Hd in Hc, Hg.
  rewrite seqZ_take in Hm by lia.
  destruct rw; rewrite decide_True in Hm by exact Hc; destruct Hm as (-> & -> & -> & Hm);
    (split_and!; [done|lia|lia|]).
  - rewrite Hm, take_ge by (rewrite Hp; lia). unfold mem_buf. apply mget_mput; [apply NoDup_seqZ|].
    by rewrite length_seqZ, Hp.
  - rewrite Hm, drop_ge, app_nil_r by (rewrite Hp; lia). exact Hg.
Qed.

(** A failed write: the retry finds a uio with nothing left in it, does no I/O and
    reports success. *)
Lemma sfs_rw_consumed more b u m lh :
  lhd_wf lh → 0 ≤ b < d_blocks lh → uio_resid u = 0 → uio_offset u = b * 512 + 512 →
  sfs_rw_try more u m lh = Ok (0, u, m, lh).
Proof.
  intros Hl Hb Hr Ho. pose proof (lw_blocks _ Hl). destruct more; cbn [sfs_rw_try]; unfold lhd_io, LHD_SECTSIZE; rewrite Hr, Ho.
  all: replace (b * 512 + 512) with ((b + 1) * 512) by lia; rewrite Z.div_mul, Z.mod_mul by done.
  all: change (0 / 512) with 0; change (0 mod 512) with 0; rewrite (u32_id (b + 1)), Z.add_0_r by width.
  all: rewrite (u32_id (b + 1)) by width; destruct (Z.ltb_spec (d_blocks lh) (b + 1)); [lia|done].
Qed.

Lemma sfs_readblock_spec b data lh s :
  lhd_wf lh → length data = 512%nat → zget (sectors lh) b = Some s →
  ∃ lh', same_disk lh lh' ∧
  sfs_readblock b data lh =
    if decide (Exists (λ i, hw_fails UIO_READ (ops lh + i) = false) (seqZ 0 11))
    then Ok (0, s, lh') else Ok (EIO, data, lh').
Proof.
  intros Hl Hd Es. pose proof (zget_Some_range _ _ _ Es) as Hb.
  pose proof (SFSUIO_block b UIO_READ data lh Hl Hd Hb) as Hu.
  destruct (lhd_wf_sector b lh Hl Hb) as (s' & Es' & Hs). simplify_eq.
  destruct (sfs_rw_read 10 b _ _ lh s Hl Hu eq_refl Es) as (lh' & Hsame & Hr). exists lh'. split; [done|].
  unfold sfs_readblock, zlen. rewrite Hd. cbn [mbind outcome_bind kassert]. simpl (Z.eqb _ _). cbv iota beta.
  unfold sfs_rwblock. change (Z.of_nat 10 + 1) with 11 in Hr. case_decide.
  - destruct Hr as (e & u' & m' & -> & Hm). destruct (moved_SFSUIO _ _ _ _ _ _ _ _ Hd Hs Hm) as (-> & _ & _ & Hb').
    unfold SFS_BLOCKSIZE. cbn [mbind outcome_bind]. by rewrite Hb'.
  - rewrite Hr. cbn [mbind outcome_bind]. unfold mem_buf, SFS_BLOCKSIZE. pose proof (mget_buf_mem data) as Hg. unfold zlen in Hg.
    rewrite Hd in Hg. change (Z.of_nat 512) with 512 in Hg. by rewrite Hg.
Qed.

Lemma sfs_writeblock_spec b data lh :
  lhd_wf lh → length data = 512%nat → 0 ≤ b < d_blocks lh →
  ∃ lh', sfs_writeblock b data lh = Ok (0, lh') ∧ lhd_wf lh' ∧ ops lh' = ops lh + 1 ∧
    sectors lh' = if hw_fails UIO_WRITE (ops lh) then sectors lh else zset (sectors lh) b data.
Proof.
  intros Hl Hd Hb. pose proof (SFSUIO_block b UIO_WRITE data lh Hl Hd Hb) as Hu.
  destruct (lhd_write_block b _ _ lh Hl Hu eq_refl) as (e & p & u' & _ & Hm & lh' & Hl' & Hr).
  destruct (moved_SFSUIO _ _ _ _ _ _ _ _ Hd (lw_buf _ Hl) Hm) as (-> & Hres & Hoff & ->).
  change (0 =? 0) with true in Hr. cbv iota in Hr. destruct Hr as [Hops Hr].
  exists lh'. unfold sfs_writeblock, zlen. rewrite Hd. cbn [mbind outcome_bind kassert]. simpl (Z.eqb _ _). cbv iota beta.
  unfold sfs_rwblock. rewrite (sfs_rw_try_S 9). destruct (hw_fails UIO_WRITE (ops lh)); destruct Hr as [-> Hs].
  - cbn [mbind outcome_bind]. change (EIO =? EINVAL) with false. rewrite Z.eqb_refl. cbv iota.
    rewrite (sfs_rw_consumed _ b) by (done || (unfold d_blocks; by rewrite Hs)). done.
  - done.
Qed.

(** ** Properties *)

(** A block read survives media errors.  [sfs_readblock] of a block of the disk
    tries up to eleven times: if one of these operations succeeds the buffer holds
    the block and the result is 0, otherwise the result is EIO and the buffer is as
    before.  The disk is not changed. *)
Theorem read_block_retries b data lh s (Hl : lhd_wf lh) (Hd : length data = 512%nat)
  (Hs : zget (sectors lh) b = Some s) :
  ∃ lh', sectors lh' = sectors lh ∧
  sfs_readblock b data lh =
    if decide (Exists (λ i, hw_fails UIO_READ (ops lh + i) = false) (seqZ 0 11))
    then Ok (0, s, lh') else Ok (EIO, data, lh').
Proof. destruct (sfs_readblock_spec b data lh s Hl Hd Hs) as (lh' & [? _] & ?). by exists lh'. Qed.

(** A block write does not.  When the disk reports a media error for a write,
    [sfs_writeblock] retries with a uio that the first attempt has used up: nothing
    is written, and the result is 0. *)
Theorem write_block_lost b data lh (Hl : lhd_wf lh) (Hd : length data = 512%nat)
  (Hb : 0 ≤ b < d_blocks lh) (Hf : hw_fails UIO_WRITE (ops lh) = true) :
  ∃ lh', sfs_writeblock b data lh = Ok (0, lh') ∧ sectors lh' = sectors lh.
Proof.
  destruct (sfs_writeblock_spec b data lh Hl Hd Hb) as (lh' & -> & _ & _ & Hs). rewrite Hf in Hs. by exists lh'.
Qed.

End lhd.

(** A disk of two sectors whose first two operations fail. *)
Definition demo_hw : Hardware := λ _ n, n <? 2.
Definition demo_disk : lhd := Lhd [replicate 512 1; replicate 512 2] (replicate 512 0) 0.

Lemma demo_disk_wf : lhd_wf demo_disk.
Proof. by repeat constructor. Qed.

Lemma read_block_retries_witness :
  ∃ lh', sectors lh' = sectors demo_disk ∧
    @sfs_readblock demo_hw 1 (replicate 512 7) demo_disk = Ok (0, replicate 512 2, lh').
Proof.
  exact (@read_block_retries demo_hw 1 (replicate 512 7) demo_disk (replicate 512 2) demo_disk_wf eq_refl eq_refl).
Defined.

Lemma write_block_lost_witness :
  ∃ lh', @sfs_writeblock demo_hw 1 (replicate 512 7) demo_disk = Ok (0, lh') ∧ sectors lh' = sectors demo_disk.
Proof.
  assert (0 ≤ 1 < d_blocks demo_disk) as Hb by done.
  exact (@write_block_lost demo_hw 1 (replicate 512 7) demo_disk demo_disk_wf eq_refl Hb eq_refl).
Defined.
