(* ===== verification/SfsDisk.v ===== *)
(** * The on-disk format of SFS (kern/include/kern/sfs.h)

    The kernel reads and writes superblocks, inodes, indirect blocks and directory
    entries as C structures on a big-endian machine.  This file gives their
    encodings as bytes and shows that reading back what was written yields the same
    structure. *)

From stdpp Require Import base list list_numbers.
From Stdlib Require Import ZArith Lia.
From S2P Require Import Prelude.
Open Scope Z_scope.

Definition SFS_MAGIC : Z := 0xabadf001.
Definition SFS_NDIRECT : Z := 15.
Definition SFS_NINDIRECT : Z := 1.
Definition SFS_DBPERIDB : Z := 128.
Definition SFS_NAMELEN : Z := 60.
Definition SFS_VOLNAME_SIZE : Z := 32.
Definition SFS_SUPER_BLOCK : Z := 0.
Definition SFS_FREEMAP_START : Z := 2.
Definition SFS_NOINO : Z := 0.
Definition SFS_ROOTDIR_INO : Z := 1.
Definition SFS_TYPE_INVAL : Z := 0.
Definition SFS_TYPE_FILE : Z := 1.
Definition SFS_TYPE_DIR : Z := 2.

Definition SFS_BITSPERBLOCK : Z := 4096.
Definition SFS_ROUNDUP (a b : Z) : Z := u32 (u32 (a + b - 1) / b * b).
Definition SFS_FREEMAPBITS (nblocks : Z) : Z := SFS_ROUNDUP nblocks SFS_BITSPERBLOCK.
Definition SFS_FREEMAPBLOCKS (nblocks : Z) : Z := SFS_FREEMAPBITS nblocks / SFS_BITSPERBLOCK.

Record sfs_superblock := Superblock {
  sb_magic : Z;
  sb_nblocks : Z;
  sb_volname : list Z;
  sb_reserved : list Z
}.

Record sfs_dinode := Dinode {
  sfi_size : Z;
  sfi_type : Z;
  sfi_linkcount : Z;
  sfi_direct : list Z;
  sfi_indirect : Z;
  sfi_waste : list Z
}.

Record sfs_direntry := Direntry {
  sfd_ino : Z;
  sfd_name : list Z
}.

(** ** Big-endian integers *)

Definition be32 (x : Z) : list Z := [x / 16777216 mod 256; x / 65536 mod 256; x / 256 mod 256; x mod 256].
Definition be16 (x : Z) : list Z := [x / 256 mod 256; x mod 256].

(** An integer from its bytes, the most significant first. *)
Definition be_val (l : list Z) : Z := fold_left (λ acc b, acc * 256 + b) l 0.

Definition words_bytes (ws : list Z) : list Z := flat_map be32 ws.

(** The first [n] words of a buffer. *)
Fixpoint bytes_words (n : nat) (l : list Z) : list Z :=
  match n with
  | O => []
  | S n => be_val (take 4 l) :: bytes_words n (drop 4 l)
  end.

(** ** Structures *)

Definition enc_dinode (d : sfs_dinode) : list Z :=
  be32 (sfi_size d) ++ be16 (sfi_type d) ++ be16 (sfi_linkcount d) ++ words_bytes (sfi_direct d) ++
  be32 (sfi_indirect d) ++ words_bytes (sfi_waste d).

Definition dec_dinode (l : list Z) : sfs_dinode :=
  Dinode (be_val (take 4 l)) (be_val (take 2 (drop 4 l))) (be_val (take 2 (drop 6 l)))
    (bytes_words 15 (drop 8 l)) (be_val (take 4 (drop 68 l))) (bytes_words 110 (drop 72 l)).

Definition enc_direntry (d : sfs_direntry) : list Z := be32 (sfd_ino d) ++ sfd_name d.
Definition dec_direntry (l : list Z) : sfs_direntry := Direntry (be_val (take 4 l)) (drop 4 l).

Definition enc_super (s : sfs_superblock) : list Z :=
  be32 (sb_magic s) ++ be32 (sb_nblocks s) ++ sb_volname s ++ words_bytes (sb_reserved s).
Definition dec_super (l : list Z) : sfs_superblock :=
  Superblock (be_val (take 4 l)) (be_val (take 4 (drop 4 l))) (take 32 (drop 8 l)) (bytes_words 118 (drop 40 l)).

(** The last byte of the volume name cleared. *)
Definition end_volname (s : sfs_superblock) : sfs_superblock :=
  Superblock (sb_magic s) (sb_nblocks s) (<[31%nat := 0]> (sb_volname s)) (sb_reserved s).

(** The values that the C types can hold. *)
Definition is_byte (x : Z) : Prop := 0 ≤ x < 256.
Definition is_u16 (x : Z) : Prop := 0 ≤ x < 65536.

Record dinode_typed (d : sfs_dinode) : Prop := {
  dt_size : is_u32 (sfi_size d);
  dt_type : is_u16 (sfi_type d);
  dt_links : is_u16 (sfi_linkcount d);
  dt_direct : length (sfi_direct d) = 15%nat ∧ Forall is_u32 (sfi_direct d);
  dt_indirect : is_u32 (sfi_indirect d);
  dt_waste : length (sfi_waste d) = 110%nat ∧ Forall is_u32 (sfi_waste d)
}.

Record direntry_typed (d : sfs_direntry) : Prop := {
  et_ino : is_u32 (sfd_ino d);
  et_name : length (sfd_name d) = 60%nat ∧ Forall is_byte (sfd_name d)
}.

Record super_typed (s : sfs_superblock) : Prop := {
  st_magic : is_u32 (sb_magic s);
  st_nblocks : is_u32 (sb_nblocks s);
  st_volname : length (sb_volname s) = 32%nat ∧ Forall is_byte (sb_volname s);
  st_reserved : length (sb_reserved s) = 118%nat ∧ Forall is_u32 (sb_reserved s)
}.

(** ** Round trips *)

Lemma be32_val x : is_u32 x → be_val (be32 x) = x.
Proof. unfold is_u32, two32, be_val, be32. simpl. intros. Z.to_euclidean_division_equations. lia. Qed.

Lemma be16_val x : is_u16 x → be_val (be16 x) = x.
Proof. unfold is_u16, be_val, be16. simpl. intros. Z.to_euclidean_division_equations. lia. Qed.

Lemma be32_bytes x : Forall is_byte (be32 x).
Proof. repeat constructor; apply Z.mod_pos_bound; lia. Qed.

Lemma be16_bytes x : Forall is_byte (be16 x).
Proof. repeat constructor; apply Z.mod_pos_bound; lia. Qed.

Lemma be_val_be32 a b c d :
  is_byte a → is_byte b → is_byte c → is_byte d →
  be32 (be_val [a; b; c; d]) = [a; b; c; d] ∧ is_u32 (be_val [a; b; c; d]).
Proof.
  unfold is_byte, is_u32, two32, be_val, be32. simpl. intros. split; [|lia].
  repeat f_equal; Z.to_euclidean_division_equations; lia.
Qed.

Lemma length_words_bytes ws : length (words_bytes ws) = (4 * length ws)%nat.
Proof. induction ws as [|w ws IH]; [done|]. unfold words_bytes in *. cbn [flat_map length be32 app]. lia. Qed.

Lemma words_bytes_bytes ws : Forall is_byte (words_bytes ws).
Proof. induction ws; [constructor|]. apply Forall_app. split; [apply be32_bytes|done]. Qed.

Lemma words_roundtrip ws l : Forall is_u32 ws → bytes_words (length ws) (words_bytes ws ++ l) = ws.
Proof.
  induction 1 as [|w ws Hw _ IH]; [done|]. cbn [length bytes_words].
  change (words_bytes (w :: ws)) with (be32 w ++ words_bytes ws). rewrite <-(assoc_L (++)).
  rewrite take_app_length', drop_app_length' by done. by rewrite be32_val, IH.
Qed.

Lemma words_roundtrip_n n ws l : length ws = n → Forall is_u32 ws → bytes_words n (words_bytes ws ++ l) = ws.
Proof. intros <-. apply words_roundtrip. Qed.

Lemma words_roundtrip_end n ws : length ws = n → Forall is_u32 ws → bytes_words n (words_bytes ws) = ws.
Proof. intros Hl Hw. rewrite <-(app_nil_r (words_bytes ws)). by apply words_roundtrip_n. Qed.

Lemma length_bytes_words n : ∀ l, length (bytes_words n l) = n.
Proof. induction n as [|n IH]; intros l; simpl; [done|]. by rewrite IH. Qed.

Lemma bytes_roundtrip n : ∀ l, length l = (4 * n)%nat → Forall is_byte l →
  words_bytes (bytes_words n l) = l ∧ Forall is_u32 (bytes_words n l).
Proof.
  induction n as [|n IH]; intros l Hl Hb.
  - destruct l; simpl in *; [done|lia].
  - destruct l as [|a [|b [|c [|d l]]]]; simpl in Hl; try lia.
    repeat match goal with H : Forall _ (_ :: _) |- _ => apply Forall_cons in H as [? H] end.
    destruct (be_val_be32 a b c d) as [E Hu]; [done..|].
    destruct (IH l) as [E2 Hu2]; [lia|done|].
    cbn [bytes_words]. change (take 4 (a :: b :: c :: d :: l)) with [a; b; c; d].
    change (drop 4 (a :: b :: c :: d :: l)) with l. split; [|by constructor].
    change (words_bytes (?x :: ?ws)) with (be32 x ++ words_bytes ws). by rewrite E, E2.
Qed.

Lemma dinode_roundtrip d : dinode_typed d →
  dec_dinode (enc_dinode d) = d ∧ length (enc_dinode d) = 512%nat ∧ Forall is_byte (enc_dinode d).
Proof.
  intros [Hs Ht Hl [Hd1 Hd2] Hi [Hw1 Hw2]]. unfold enc_dinode, dec_dinode. split_and!.
  - change (take 4 (be32 (sfi_size d) ++ _)) with (be32 (sfi_size d)).
    change (drop 4 (be32 (sfi_size d) ++ ?x)) with x. change (take 2 (be16 (sfi_type d) ++ _)) with (be16 (sfi_type d)).
    change (drop 6 (be32 (sfi_size d) ++ be16 (sfi_type d) ++ ?x)) with x.
    change (take 2 (be16 (sfi_linkcount d) ++ _)) with (be16 (sfi_linkcount d)).
    change (drop 8 (be32 (sfi_size d) ++ be16 (sfi_type d) ++ be16 (sfi_linkcount d) ++ ?x)) with x.
    change (drop 68 (be32 (sfi_size d) ++ be16 (sfi_type d) ++ be16 (sfi_linkcount d) ++ ?x)) with (drop 60 x).
    change (drop 72 (be32 (sfi_size d) ++ be16 (sfi_type d) ++ be16 (sfi_linkcount d) ++ ?x)) with (drop 64 x).
    assert (∀ x, drop 64 (words_bytes (sfi_direct d) ++ be32 (sfi_indirect d) ++ x) = x) as ->.
    { intros x. rewrite (assoc_L (++)). apply drop_app_length'. by rewrite length_app, length_words_bytes, Hd1. }
    rewrite drop_app_length' by (by rewrite length_words_bytes, Hd1).
    change (take 4 (be32 (sfi_indirect d) ++ _)) with (be32 (sfi_indirect d)).
    rewrite words_roundtrip_n, words_roundtrip_end by done.
    rewrite !be32_val, !be16_val by done. by destruct d.
  - rewrite !length_app, !length_words_bytes, Hd1, Hw1. done.
  - rewrite !Forall_app. split_and!; auto using be32_bytes, be16_bytes, words_bytes_bytes.
Qed.

Lemma direntry_roundtrip d : direntry_typed d →
  dec_direntry (enc_direntry d) = d ∧ length (enc_direntry d) = 64%nat ∧ Forall is_byte (enc_direntry d).
Proof.
  intros [Hi [Hl Hb]]. unfold enc_direntry, dec_direntry. split_and!.
  - rewrite take_app_length', drop_app_length', be32_val by done. by destruct d.
  - rewrite length_app, Hl. done.
  - rewrite Forall_app. auto using be32_bytes.
Qed.

Lemma super_roundtrip s : super_typed s →
  dec_super (enc_super s) = s ∧ length (enc_super s) = 512%nat ∧ Forall is_byte (enc_super s).
Proof.
  intros [Hm Hn [Hv1 Hv2] [Hr1 Hr2]]. unfold enc_super, dec_super. split_and!.
  - change (take 4 (be32 (sb_magic s) ++ _)) with (be32 (sb_magic s)).
    change (drop 4 (be32 (sb_magic s) ++ ?x)) with x.
    change (take 4 (be32 (sb_nblocks s) ++ _)) with (be32 (sb_nblocks s)).
    change (drop 8 (be32 (sb_magic s) ++ be32 (sb_nblocks s) ++ ?x)) with x.
    change (drop 40 (be32 (sb_magic s) ++ be32 (sb_nblocks s) ++ ?x)) with (drop 32 x).
    rewrite take_app_length', drop_app_length', !be32_val, words_roundtrip_end by done. by destruct s.
  - rewrite !length_app, !length_words_bytes, Hv1, Hr1. done.
  - rewrite !Forall_app. split_and!; auto using be32_bytes, words_bytes_bytes.
Qed.

(** What is read from any block is a value of the C type. *)
Lemma be_val_range n l : Forall is_byte l → (length l ≤ n)%nat → 0 ≤ be_val l < 256 ^ Z.of_nat n.
Proof.
  intros Hb Hl.
  assert (∀ acc l, 0 ≤ acc → Forall is_byte l →
    0 ≤ fold_left (λ acc b, acc * 256 + b) l acc < (acc + 1) * 256 ^ Z.of_nat (length l)) as Hgen.
  { clear. intros acc l. revert acc. induction l as [|x l IH]; intros acc Ha Hl; cbn [fold_left length].
    - change (256 ^ Z.of_nat 0) with 1. lia.
    - apply Forall_cons in Hl as [Hx Hl]. unfold is_byte in Hx.
      specialize (IH (acc * 256 + x) ltac:(lia) Hl). rewrite Nat2Z.inj_succ, Z.pow_succ_r by lia.
      pose proof (Z.pow_pos_nonneg 256 (Z.of_nat (length l))). nia. }
  specialize (Hgen 0 l ltac:(lia) Hb). unfold be_val.
  assert (256 ^ Z.of_nat (length l) ≤ 256 ^ Z.of_nat n) by (apply Z.pow_le_mono_r; lia). lia.
Qed.

Lemma dec_dinode_typed l : length l = 512%nat → Forall is_byte l → dinode_typed (dec_dinode l).
Proof.
  intros Hl Hb.
  assert (∀ k n, Forall is_byte (take n (drop k l))) as Htd by (intros; by apply Forall_take, Forall_drop).
  assert (∀ n k, (4 * n + k ≤ 512)%nat → Forall is_u32 (bytes_words n (drop k l))) as Hw.
  { clear Hl. intros n k _. revert k. induction n as [|n IH]; intros k; cbn [bytes_words]; constructor.
    - pose proof (be_val_range 4 (take 4 (drop k l)) (Htd k 4%nat) ltac:(rewrite length_take; lia)). done.
    - rewrite drop_drop. apply IH. }
  constructor; cbn [dec_dinode sfi_size sfi_type sfi_linkcount sfi_direct sfi_indirect sfi_waste].
  - apply (be_val_range 4 (take 4 l)); [by apply Forall_take|rewrite length_take; lia].
  - apply (be_val_range 2 (take 2 (drop 4 l))); [done|rewrite length_take; lia].
  - apply (be_val_range 2 (take 2 (drop 6 l))); [done|rewrite length_take; lia].
  - split; [apply length_bytes_words|]. apply Hw. lia.
  - apply (be_val_range 4 (take 4 (drop 68 l))); [done|rewrite length_take; lia].
  - split; [apply length_bytes_words|]. apply Hw. lia.
Qed.
