(* ===== verification/SfsBmap.v ===== *)
(** * SFS block allocation and block maps (kern/fs/sfs/sfs_balloc.c, sfs_bmap.c)

    [sfs_balloc], [sfs_bfree], [sfs_bused] on the freemap, and [sfs_bmap] and
    [sfs_itrunc], which maintain the table of disk blocks of an inode.

    The lemmas describe an inode by the list [fblocks] of the disk blocks of its 143
    file blocks, 0 for a hole, and by the contents [fdata] of these blocks.  [grown]
    relates two states of a volume between which one inode may have gained blocks:
    the new ones were free, and no block that belongs to anything else has changed. *)

From stdpp Require Import base gmap list list_numbers.
From Stdlib Require Import ZArith Lia.
From S2P Require Import Prelude FrameTable CopyInOut Uio Lhd Bitmap SfsDisk.
Open Scope Z_scope.

(** The fields of [sfs_vnode] other than the abstract vnode. *)
Record sfs_vnode := SfsVnode { sv_i : sfs_dinode; sv_ino : Z; sv_dirty : bool }.

(** The fields of [sfs_fs] other than the table of vnodes. *)
Record sfs_fs := SfsFs {
  sfs_sb : sfs_superblock;
  sfs_superdirty : bool;
  sfs_device : lhd;
  sfs_freemap : bitmap;
  sfs_freemapdirty : bool
}.

Implicit Types (sfs : sfs_fs) (sv : sfs_vnode) (d : sfs_dinode).

Definition with_device (lh : lhd) sfs : sfs_fs :=
  SfsFs (sfs_sb sfs) (sfs_superdirty sfs) lh (sfs_freemap sfs) (sfs_freemapdirty sfs).
Definition with_freemap (b : bitmap) (dirty : bool) sfs : sfs_fs :=
  SfsFs (sfs_sb sfs) (sfs_superdirty sfs) (sfs_device sfs) b dirty.

Definition with_direct (l : list Z) d : sfs_dinode :=
  Dinode (sfi_size d) (sfi_type d) (sfi_linkcount d) l (sfi_indirect d) (sfi_waste d).
Definition with_indirect (b : Z) d : sfs_dinode :=
  Dinode (sfi_size d) (sfi_type d) (sfi_linkcount d) (sfi_direct d) b (sfi_waste d).
Definition with_size (n : Z) d : sfs_dinode :=
  Dinode n (sfi_type d) (sfi_linkcount d) (sfi_direct d) (sfi_indirect d) (sfi_waste d).

(** Changing the inode and setting [sv_dirty]. *)
Definition dirtied d sv : sfs_vnode := SfsVnode d (sv_ino sv) true.

(** The contents of the static buffers before they are filled do not matter: each
    is written in full before it is read. *)
Definition iobuf0 : list Z := replicate 512 0.

Section sfs.
Context `{Hardware}.

(** [sfs_readblock] and [sfs_writeblock] on the device of the volume. *)
Definition fs_readblock (block : Z) (data : list Z) sfs : outcome (Z * list Z * sfs_fs) :=
  '(result, data, lh) ← sfs_readblock block data (sfs_device sfs);
  Ok (result, data, with_device lh sfs).

Definition fs_writeblock (block : Z) (data : list Z) sfs : outcome (Z * sfs_fs) :=
  '(result, lh) ← sfs_writeblock block data (sfs_device sfs);
  Ok (result, with_device lh sfs).

(** ** sfs_balloc.c *)

Definition sfs_clearblock (block : Z) sfs : outcome (Z * sfs_fs) := fs_writeblock block (replicate 512 0) sfs.

(** The result and the block. *)
Definition sfs_balloc sfs : outcome (Z * Z * sfs_fs) :=
  '(result, diskblock, b) ← bitmap_alloc (sfs_freemap sfs);
  if negb (result =? 0) then Ok (result, diskblock, with_freemap b (sfs_freemapdirty sfs) sfs)
  else
    let sfs := with_freemap b true sfs in
    if sb_nblocks (sfs_sb sfs) <=? diskblock then Panic
    else
      '(result, sfs) ← sfs_clearblock diskblock sfs;
      if negb (result =? 0) then
        b ← bitmap_unmark (sfs_freemap sfs) diskblock;
        Ok (result, diskblock, with_freemap b (sfs_freemapdirty sfs) sfs)
      else Ok (result, diskblock, sfs).

Definition sfs_bfree (diskblock : Z) sfs : outcome sfs_fs :=
  b ← bitmap_unmark (sfs_freemap sfs) diskblock;
  Ok (with_freemap b true sfs).

Definition sfs_bused (diskblock : Z) sfs : outcome bool :=
  if sb_nblocks (sfs_sb sfs) <=? diskblock then Panic
  else x ← bitmap_isset (sfs_freemap sfs) diskblock; Ok (negb (x =? 0)).

(** ** sfs_bmap.c *)

(** [if (block != 0 && !sfs_bused(sfs, block)) panic(...)] *)
Definition check_used (block : Z) sfs : outcome unit :=
  if block =? 0 then Ok tt else used ← sfs_bused block sfs; kassert used.

Definition sfs_bmap sv (fileblock : Z) (doalloc : bool) sfs : outcome (Z * Z * sfs_vnode * sfs_fs) :=
  if fileblock <? SFS_NDIRECT then
    block ← deref (zget (sfi_direct (sv_i sv)) fileblock);
    '(result, block, sv, sfs) ←
      (if (block =? 0) && doalloc then
        '(result, block, sfs) ← sfs_balloc sfs;
        if negb (result =? 0) then Ok (result, 0, sv, sfs)
        else
          direct ← zput (sfi_direct (sv_i sv)) fileblock block;
          Ok (0, block, dirtied (with_direct direct (sv_i sv)) sv, sfs)
      else Ok (0, block, sv, sfs));
    if negb (result =? 0) then Ok (result, 0, sv, sfs)
    else
      _ ← check_used block sfs;
      Ok (0, block, sv, sfs)
  else
    let fileblock := fileblock - SFS_NDIRECT in
    let idnum := fileblock / SFS_DBPERIDB in
    let idoff := fileblock mod SFS_DBPERIDB in
    if SFS_NINDIRECT <=? idnum then Ok (EFBIG, 0, sv, sfs)
    else
      let idblock := sfi_indirect (sv_i sv) in
      if (idblock =? 0) && negb doalloc then Ok (0, 0, sv, sfs)
      else
        '(result, idblock, idbuf, sv, sfs) ←
          (if idblock =? 0 then
            '(result, idblock, sfs) ← sfs_balloc sfs;
            if negb (result =? 0) then Ok (result, 0, [], sv, sfs)
            else Ok (0, idblock, replicate 128 0, dirtied (with_indirect idblock (sv_i sv)) sv, sfs)
          else
            '(result, data, sfs) ← fs_readblock idblock iobuf0 sfs;
            Ok (result, idblock, bytes_words 128 data, sv, sfs));
        if negb (result =? 0) then Ok (result, 0, sv, sfs)
        else
          block ← deref (zget idbuf idoff);
          '(result, block, sfs) ←
            (if (block =? 0) && doalloc then
              '(result, block, sfs) ← sfs_balloc sfs;
              if negb (result =? 0) then Ok (result, 0, sfs)
              else
                idbuf ← zput idbuf idoff block;
                '(result, sfs) ← fs_writeblock idblock (words_bytes idbuf) sfs;
                Ok (result, block, sfs)
            else Ok (0, block, sfs));
          if negb (result =? 0) then Ok (result, 0, sv, sfs)
          else
            _ ← check_used block sfs;
            Ok (0, block, sv, sfs).

(** The loop over the direct blocks. *)
Fixpoint trunc_direct (is_ : list Z) (blocklen : Z) sv sfs : outcome (sfs_vnode * sfs_fs) :=
  match is_ with
  | [] => Ok (sv, sfs)
  | i :: is_ =>
      block ← deref (zget (sfi_direct (sv_i sv)) i);
      if (blocklen <=? i) && negb (block =? 0) then
        sfs ← sfs_bfree block sfs;
        direct ← zput (sfi_direct (sv_i sv)) i 0;
        trunc_direct is_ blocklen (dirtied (with_direct direct (sv_i sv)) sv) sfs
      else trunc_direct is_ blocklen sv sfs
  end.

(** The loop over the indirect block: the buffer, [hasnonzero] and [iddirty]. *)
Fixpoint trunc_indirect (js : list Z) (blocklen : Z) (idbuf : list Z) (hasnonzero iddirty : bool) sfs
    : outcome (list Z * bool * bool * sfs_fs) :=
  match js with
  | [] => Ok (idbuf, hasnonzero, iddirty, sfs)
  | j :: js =>
      x ← deref (zget idbuf j);
      if (blocklen <? SFS_NDIRECT + j) && negb (x =? 0) then
        sfs ← sfs_bfree x sfs;
        idbuf ← zput idbuf j 0;
        trunc_indirect js blocklen idbuf hasnonzero true sfs
      else trunc_indirect js blocklen idbuf (hasnonzero || negb (x =? 0)) iddirty sfs
  end.

Definition sfs_itrunc sv (len : Z) sfs : outcome (Z * sfs_vnode * sfs_fs) :=
  let blocklen := u32 (Z.quot (len + SFS_BLOCKSIZE - 1) SFS_BLOCKSIZE) in
  '(sv, sfs) ← trunc_direct (seqZ 0 SFS_NDIRECT) blocklen sv sfs;
  let idblock := sfi_indirect (sv_i sv) in
  let highblock := SFS_NDIRECT + SFS_DBPERIDB - 1 in
  '(result, sv, sfs) ←
    (if (blocklen <? highblock) && negb (idblock =? 0) then
      '(result, data, sfs) ← fs_readblock idblock iobuf0 sfs;
      if negb (result =? 0) then Ok (result, sv, sfs)
      else
        '(idbuf, hasnonzero, iddirty, sfs) ←
          trunc_indirect (seqZ 0 SFS_DBPERIDB) blocklen (bytes_words 128 data) false false sfs;
        if negb hasnonzero then
          sfs ← sfs_bfree idblock sfs;
          Ok (0, dirtied (with_indirect 0 (sv_i sv)) sv, sfs)
        else if iddirty : bool then
          '(result, sfs) ← fs_writeblock idblock (words_bytes idbuf) sfs;
          Ok (result, sv, sfs)
        else Ok (0, sv, sfs)
    else Ok (0, sv, sfs));
  if negb (result =? 0) then Ok (result, sv, sfs)
  else Ok (0, dirtied (with_size (u32 len) (sv_i sv)) sv, sfs).

(** ** Volumes and inodes *)

(** Hardware that does not fail. *)
Class Reliable := reliable rw n : hw_fails rw n = false.

Definition used sfs (b : Z) : bool := in_use (sfs_freemap sfs) b.

(** A block of the disk. *)
Definition sector sfs (b : Z) : list Z := default iobuf0 (zget (sectors (sfs_device sfs)) b).

Record sfs_wf sfs : Prop := {
  sw_device : lhd_wf (sfs_device sfs);
  sw_freemap : bm_wf (sfs_freemap sfs);
  sw_nblocks : 0 < sb_nblocks (sfs_sb sfs) ≤ d_blocks (sfs_device sfs);
  sw_bits : nbits (sfs_freemap sfs) = SFS_FREEMAPBITS (sb_nblocks (sfs_sb sfs));
  sw_beyond b : sb_nblocks (sfs_sb sfs) ≤ b → used sfs b = true;
  sw_zero : used sfs 0 = true
}.

(** The words of the indirect block, and the disk blocks of the file. *)
Definition idwords sfs (idblock : Z) : list Z :=
  if idblock =? 0 then replicate 128 0 else bytes_words 128 (sector sfs idblock).

Definition fblocks sfs sv : list Z := sfi_direct (sv_i sv) ++ idwords sfs (sfi_indirect (sv_i sv)).

Definition fblock sfs sv (i : Z) : Z := default 0 (zget (fblocks sfs sv) i).

(** The contents of a file block: zeros for a hole. *)
Definition bdata sfs (b : Z) : list Z := if b =? 0 then iobuf0 else sector sfs b.
Definition fdata sfs sv (i : Z) : list Z := bdata sfs (fblock sfs sv i).

(** All the block numbers an inode has, the indirect block first, and the blocks it
    owns. *)
Definition table sfs sv : list Z := sfi_indirect (sv_i sv) :: fblocks sfs sv.
Definition nonzero (l : list Z) : list Z := filter (λ b, b ≠ 0) l.
Definition owned sfs sv : list Z := nonzero (table sfs sv).

Record inode_wf sfs sv : Prop := {
  iw_direct : length (sfi_direct (sv_i sv)) = 15%nat;
  iw_nodup : NoDup (owned sfs sv);
  iw_used b : b ∈ owned sfs sv → 0 ≤ b < sb_nblocks (sfs_sb sfs) ∧ used sfs b = true
}.

Record grown sfs sv sfs' sv' : Prop := {
  gr_sb : sfs_sb sfs' = sfs_sb sfs;
  gr_wf : sfs_wf sfs';
  gr_inode : inode_wf sfs' sv';
  gr_use b : 0 ≤ b → used sfs' b = used sfs b || bool_decide (b ∈ owned sfs' sv');
  gr_new b : b ∈ owned sfs' sv' → b ∈ owned sfs sv ∨ used sfs b = false;
  gr_keep b : b ∈ owned sfs sv → b ∈ owned sfs' sv';
  gr_other b : 0 ≤ b → used sfs b = true → b ∉ owned sfs sv → sector sfs' b = sector sfs b;
  gr_ino : sv_ino sv' = sv_ino sv ∧ sfi_type (sv_i sv') = sfi_type (sv_i sv) ∧
           sfi_linkcount (sv_i sv') = sfi_linkcount (sv_i sv) ∧ sfi_waste (sv_i sv') = sfi_waste (sv_i sv);
  gr_dirty : sv' = sv ∨ sv_dirty sv' = true;
  gr_fdirty : (sfs_freemap sfs' = sfs_freemap sfs ∧ sfs_freemapdirty sfs' = sfs_freemapdirty sfs) ∨
              sfs_freemapdirty sfs' = true
}.

(** The file has the same contents. *)
Definition same_data sfs sv sfs' sv' : Prop :=
  (∀ i, fdata sfs' sv' i = fdata sfs sv i) ∧ sfi_size (sv_i sv') = sfi_size (sv_i sv).

(** The freemap is unchanged or will be written, and the blocks in [P] keep their
    contents. *)
Record meta_kept (P : Z → Prop) sfs sfs' : Prop := {
  kp_map : (sfs_freemap sfs' = sfs_freemap sfs ∧ sfs_freemapdirty sfs' = sfs_freemapdirty sfs) ∨
           sfs_freemapdirty sfs' = true;
  kp_sector b : P b → sector sfs' b = sector sfs b
}.

(** ** Block I/O on a volume *)

(** Only the state of the device other than its sectors has changed. *)
Record same_fs sfs sfs' : Prop := {
  sf_sb : sfs_sb sfs' = sfs_sb sfs;
  sf_superdirty : sfs_superdirty sfs' = sfs_superdirty sfs;
  sf_sectors : sectors (sfs_device sfs') = sectors (sfs_device sfs);
  sf_freemap : sfs_freemap sfs' = sfs_freemap sfs;
  sf_dirty : sfs_freemapdirty sfs' = sfs_freemapdirty sfs;
  sf_wf : sfs_wf sfs → sfs_wf sfs'
}.

(** A volume with other contents in block [b]. *)
Record wrote sfs (b : Z) (data : list Z) sfs' : Prop := {
  wr_sb : sfs_sb sfs' = sfs_sb sfs;
  wr_superdirty : sfs_superdirty sfs' = sfs_superdirty sfs;
  wr_freemap : sfs_freemap sfs' = sfs_freemap sfs;
  wr_dirty : sfs_freemapdirty sfs' = sfs_freemapdirty sfs;
  wr_sector k : sector sfs' k = if decide (k = b) then data else sector sfs k;
  wr_wf : sfs_wf sfs'
}.

Lemma sector_length sfs b : sfs_wf sfs → length (sector sfs b) = 512%nat.
Proof.
  intros Hwf. unfold sector. destruct (zget (sectors (sfs_device sfs)) b) as [s|] eqn:E; [|done].
  pose proof (zget_Some_range _ _ _ E) as Hb.
  destruct (lhd_wf_sector b _ (sw_device _ Hwf) Hb) as (s' & E' & Hl). by simplify_eq.
Qed.

Lemma with_device_wf lh sfs : lhd_wf lh → d_blocks lh = d_blocks (sfs_device sfs) → sfs_wf sfs → sfs_wf (with_device lh sfs).
Proof. intros Hl Hd []. constructor; try done. simpl. by rewrite Hd. Qed.

(** The freemap covers the volume. *)
Lemma freemap_covers sfs : sfs_wf sfs → sb_nblocks (sfs_sb sfs) ≤ nbits (sfs_freemap sfs).
Proof.
  intros Hwf. pose proof (lw_blocks _ (sw_device _ Hwf)). pose proof (sw_nblocks _ Hwf). rewrite (sw_bits _ Hwf).
  unfold SFS_FREEMAPBITS, SFS_ROUNDUP, SFS_BITSPERBLOCK. rewrite (u32_id (_ + 4096 - 1)) by width.
  rewrite u32_id by (unfold is_u32, two32; Z.to_euclidean_division_equations; lia). Z.to_euclidean_division_equations. lia.
Qed.

Section reliable.
Context `{Reliable}.

Lemma fs_readblock_ok b data sfs :
  sfs_wf sfs → 0 ≤ b < sb_nblocks (sfs_sb sfs) → length data = 512%nat →
  ∃ sfs', fs_readblock b data sfs = Ok (0, sector sfs b, sfs') ∧ same_fs sfs sfs'.
Proof.
  intros Hwf Hb Hd. pose proof (sw_nblocks _ Hwf) as Hn.
  destruct (zget_range (sectors (sfs_device sfs)) b) as [s Es]; [unfold d_blocks in Hn; lia|].
  destruct (sfs_readblock_spec b data (sfs_device sfs) s (sw_device _ Hwf) Hd Es) as (lh' & [Hs Hw] & E).
  rewrite decide_True in E by (left; apply reliable).
  exists (with_device lh' sfs). unfold fs_readblock, sector. rewrite E, Es. split; [done|]. constructor; try done.
  intros _. apply with_device_wf; [apply Hw, Hwf|unfold d_blocks; by rewrite Hs|done].
Qed.

Lemma fs_writeblock_ok b data sfs :
  sfs_wf sfs → 0 ≤ b < sb_nblocks (sfs_sb sfs) → length data = 512%nat →
  ∃ sfs', fs_writeblock b data sfs = Ok (0, sfs') ∧ wrote sfs b data sfs'.
Proof.
  intros Hwf Hb Hd. pose proof (sw_nblocks _ Hwf) as Hn.
  destruct (sfs_writeblock_spec b data (sfs_device sfs) (sw_device _ Hwf) Hd ltac:(lia)) as (lh' & E & Hw & _ & Hs).
  rewrite reliable in Hs. exists (with_device lh' sfs). unfold fs_writeblock. rewrite E. split; [done|].
  constructor; try done.
  - intros k. unfold sector. simpl. rewrite Hs, zget_zset. unfold d_blocks in Hn.
    repeat case_decide; naive_solver lia.
  - apply with_device_wf; [done| |done]. unfold d_blocks. by rewrite Hs, zlen_zset.
Qed.

(** What [sfs_balloc] does: a free block is marked and cleared, or there is none. *)
Record allocated sfs (b : Z) sfs' : Prop := {
  al_block : 0 < b < sb_nblocks (sfs_sb sfs);
  al_free : used sfs b = false;
  al_used k : 0 ≤ k → used sfs' k = if decide (k = b) then true else used sfs k;
  al_sector k : sector sfs' k = if decide (k = b) then iobuf0 else sector sfs k;
  al_sb : sfs_sb sfs' = sfs_sb sfs;
  al_wf : sfs_wf sfs';
  al_dirty : sfs_freemapdirty sfs' = true
}.

Inductive balloc_effect sfs : outcome (Z * Z * sfs_fs) → Prop :=
| balloc_full : (∀ k, 0 ≤ k → used sfs k = true) → balloc_effect sfs (Ok (ENOSPC, 0, sfs))
| balloc_got b sfs' : allocated sfs b sfs' → balloc_effect sfs (Ok (0, b, sfs')).

Lemma with_freemap_wf b dirty sfs :
  sfs_wf sfs → bm_wf b → nbits b = nbits (sfs_freemap sfs) →
  (∀ k, 0 ≤ k → k = 0 ∨ sb_nblocks (sfs_sb sfs) ≤ k → in_use b k = true) → sfs_wf (with_freemap b dirty sfs).
Proof.
  intros [] Hb Hn Hu. constructor; try done; unfold used; simpl.
  - by rewrite Hn.
  - intros k Hk. apply Hu; lia.
  - apply Hu; lia.
Qed.

Lemma sfs_balloc_spec sfs : sfs_wf sfs → balloc_effect sfs (sfs_balloc sfs).
Proof.
  intros Hwf. unfold sfs_balloc.
  destruct (bitmap_alloc_spec _ (sw_freemap _ Hwf)) as [Hfull|b bm Hb Hfree Hleast (Hn & Hbm & Hset)];
    cbn [mbind outcome_bind].
  - replace (with_freemap _ _ _) with sfs by (by destruct sfs). apply balloc_full. intros k Hk.
    destruct (decide (k < nbits (sfs_freemap sfs))); [by apply Hfull|].
    apply (bm_pad _ (sw_freemap _ Hwf)). lia.
  - change (negb (0 =? 0)) with false. cbv iota beta zeta.
    assert (b ≠ 0) as Hb0 by (intros ->; pose proof (sw_zero _ Hwf) as Hz; unfold used in Hz; congruence).
    assert (b < sb_nblocks (sfs_sb sfs)) as Hlt.
    { destruct (decide (b < sb_nblocks (sfs_sb sfs))); [done|].
      pose proof (sw_beyond _ Hwf b ltac:(lia)) as Hz. unfold used in Hz. congruence. }
    set (sfs1 := with_freemap bm true sfs).
    assert (sfs_wf sfs1) as Hwf1.
    { apply with_freemap_wf; [done..|]. intros k Hk0 Hk. rewrite Hset by done.
      case_decide; [done|]. destruct Hk as [->|Hk]; [apply (sw_zero _ Hwf)|by apply (sw_beyond _ Hwf)]. }
    change (sb_nblocks (sfs_sb sfs1)) with (sb_nblocks (sfs_sb sfs)).
    destruct (Z.leb_spec (sb_nblocks (sfs_sb sfs)) b); [lia|]. unfold sfs_clearblock.
    destruct (fs_writeblock_ok b (replicate 512 0) sfs1) as (sfs2 & -> & [Hsb _ Hfm Hfd Hsec Hwf2]);
      [done|simpl; lia|done|]. cbn [mbind outcome_bind]. apply balloc_got.
    constructor; [simpl; lia|done| | |done|done|by rewrite Hfd].
    + intros k Hk. unfold used. rewrite Hfm. by apply Hset.
    + intros k. rewrite Hsec. done.
Qed.

Lemma check_used_ok b sfs : sfs_wf sfs → 0 ≤ b < sb_nblocks (sfs_sb sfs) → used sfs b = true → check_used b sfs = Ok tt.
Proof.
  intros Hwf Hb Hu. unfold check_used, sfs_bused. destruct (b =? 0); [done|].
  destruct (Z.leb_spec (sb_nblocks (sfs_sb sfs)) b); [lia|]. pose proof (freemap_covers _ Hwf).
  destruct (bitmap_isset_spec _ b (sw_freemap _ Hwf)) as (x & -> & Hx); [lia|].
  cbn [mbind outcome_bind]. rewrite Hx. unfold used in Hu. by rewrite Hu.
Qed.

End reliable.

(** ** Tables of blocks *)

Lemma elem_of_nonzero b l : b ∈ nonzero l ↔ b ≠ 0 ∧ b ∈ l.
Proof. unfold nonzero. by rewrite list_elem_of_filter. Qed.

Lemma nonzero_add l i b : zget l i = Some 0 → b ≠ 0 → nonzero (zset l i b) ≡ₚ b :: nonzero l.
Proof.
  unfold zget, zset, nonzero. case_decide; [|done]. intros Hi Hb.
  rewrite insert_take_drop by (by eapply lookup_lt_Some).
  rewrite <-(take_drop_middle l _ _ Hi) at 3.
  rewrite !filter_app, !filter_cons, (decide_True (P := b ≠ 0)), (decide_False (P := 0 ≠ 0)) by naive_solver.
  by rewrite Permutation_middle.
Qed.

Lemma nonzero_remove l i b : zget l i = Some b → b ≠ 0 → nonzero l ≡ₚ b :: nonzero (zset l i 0).
Proof.
  intros Hi Hb. rewrite <-(zset_id l i b Hi) at 1. rewrite <-(zset_zset l i 0 b).
  apply nonzero_add; [|done]. apply zget_zset_eq. by eapply zget_Some_range.
Qed.

(** ** Inodes *)

Section inode.
Context sfs sv (Hwf : sfs_wf sfs) (Hin : inode_wf sfs sv).

Lemma idwords_length b : zlen (idwords sfs b) = 128.
Proof. unfold idwords, zlen. destruct (b =? 0); [done|]. by rewrite length_bytes_words. Qed.

Lemma direct_length : zlen (sfi_direct (sv_i sv)) = 15.
Proof. unfold zlen. by rewrite (iw_direct _ _ Hin). Qed.

Lemma fblocks_length : zlen (fblocks sfs sv) = 143.
Proof. unfold fblocks. by rewrite zlen_app, direct_length, idwords_length. Qed.

Lemma fblock_get i : 0 ≤ i < 143 → zget (fblocks sfs sv) i = Some (fblock sfs sv i).
Proof.
  intros Hi. unfold fblock. destruct (zget_range (fblocks sfs sv) i) as [b Hb]; [by rewrite fblocks_length|].
  by rewrite Hb.
Qed.

Lemma fblock_owned i : fblock sfs sv i ≠ 0 → fblock sfs sv i ∈ owned sfs sv.
Proof.
  unfold fblock. destruct (zget (fblocks sfs sv) i) as [b|] eqn:E; [simpl|done]. intros Hb.
  unfold owned. rewrite elem_of_nonzero. split; [done|]. right. rewrite elem_of_zget. eauto.
Qed.

Lemma indirect_owned : sfi_indirect (sv_i sv) ≠ 0 → sfi_indirect (sv_i sv) ∈ owned sfs sv.
Proof. intros Hne. unfold owned. rewrite elem_of_nonzero. split; [done|]. by left. Qed.

Lemma fblock_range i : 0 ≤ fblock sfs sv i < sb_nblocks (sfs_sb sfs) ∧ used sfs (fblock sfs sv i) = true.
Proof.
  destruct (decide (fblock sfs sv i = 0)) as [->|Hne].
  - pose proof (sw_nblocks _ Hwf). split; [lia|]. apply (sw_zero _ Hwf).
  - by apply (iw_used _ _ Hin), fblock_owned.
Qed.

Lemma indirect_range : 0 ≤ sfi_indirect (sv_i sv) < sb_nblocks (sfs_sb sfs) ∧ used sfs (sfi_indirect (sv_i sv)) = true.
Proof.
  destruct (decide (sfi_indirect (sv_i sv) = 0)) as [->|Hne].
  - pose proof (sw_nblocks _ Hwf). split; [lia|]. apply (sw_zero _ Hwf).
  - by apply (iw_used _ _ Hin), indirect_owned.
Qed.

Lemma idword_range x : x ∈ idwords sfs (sfi_indirect (sv_i sv)) → 0 ≤ x < sb_nblocks (sfs_sb sfs).
Proof.
  intros Hx. destruct (decide (x = 0)) as [->|Hne]; [pose proof (sw_nblocks _ Hwf); lia|].
  apply (iw_used _ _ Hin). unfold owned. rewrite elem_of_nonzero. split; [done|]. right.
  unfold fblocks. rewrite elem_of_app. by right.
Qed.

(** Distinct places hold distinct blocks. *)
Lemma table_inj i j b : zget (table sfs sv) i = Some b → zget (table sfs sv) j = Some b → b ≠ 0 → i = j.
Proof.
  intros Hi Hj Hb. pose proof (iw_nodup _ _ Hin) as Hnd. unfold owned in Hnd.
  destruct (decide (i = j)) as [|Hne]; [done|exfalso].
  rewrite (nonzero_remove _ i b) in Hnd by done. apply NoDup_cons in Hnd as [Hnd _]. apply Hnd.
  rewrite elem_of_nonzero. split; [done|]. rewrite elem_of_zget. exists j. by rewrite zget_zset_ne.
Qed.

Lemma table_get i : 0 ≤ i < 143 → zget (table sfs sv) (i + 1) = Some (fblock sfs sv i).
Proof. intros Hi. unfold table. rewrite zget_cons by lia. replace (i + 1 - 1) with i by lia. by apply fblock_get. Qed.

Lemma fblock_inj i j : 0 ≤ i < 143 → 0 ≤ j < 143 → fblock sfs sv i = fblock sfs sv j → fblock sfs sv i ≠ 0 → i = j.
Proof.
  intros Hi Hj He Hne. pose proof (table_get i Hi) as Ei. pose proof (table_get j Hj) as Ej. rewrite <-He in Ej.
  pose proof (table_inj _ _ _ Ei Ej Hne). lia.
Qed.

Lemma fblock_indirect i : 0 ≤ i < 143 → fblock sfs sv i ≠ 0 → fblock sfs sv i ≠ sfi_indirect (sv_i sv).
Proof.
  intros Hi Hne He. pose proof (table_get i Hi) as Ei.
  assert (zget (table sfs sv) 0 = Some (fblock sfs sv i)) as E0 by (by rewrite He).
  pose proof (table_inj _ _ _ Ei E0 Hne). lia.
Qed.

End inode.

Lemma fblock_out sfs sv i : inode_wf sfs sv → ¬ 0 ≤ i < 143 → fblock sfs sv i = 0.
Proof.
  intros Hin Hi. unfold fblock. rewrite (proj2 (zget_None _ _)); [done|]. rewrite fblocks_length by done. lia.
Qed.

Lemma grown_refl sfs sv : sfs_wf sfs → inode_wf sfs sv → grown sfs sv sfs sv.
Proof.
  intros Hwf Hin. constructor; auto. intros b Hb. case_bool_decide as Hd; [|by rewrite orb_false_r].
  rewrite (proj2 (iw_used _ _ Hin b Hd)). done.
Qed.

Lemma grown_trans sfs1 sv1 sfs2 sv2 sfs3 sv3 :
  grown sfs1 sv1 sfs2 sv2 → grown sfs2 sv2 sfs3 sv3 → grown sfs1 sv1 sfs3 sv3.
Proof.
  intros [A1 A2 A3 A4 A5 A6 A7 A8 A9 A10] [B1 B2 B3 B4 B5 B6 B7 B8 B9 B10]. constructor; try done.
  - congruence.
  - intros b Hb. rewrite B4, A4 by done. destruct (used sfs1 b); [done|]. simpl.
    destruct (decide (b ∈ owned sfs2 sv2)) as [H2|H2].
    + rewrite !bool_decide_eq_true_2 by eauto. done.
    + by rewrite (bool_decide_eq_false_2 _ H2).
  - intros b Hb. destruct (B5 b Hb) as [H2|H2]; [eauto|right]. destruct (decide (0 ≤ b)) as [Hp|Hp].
    + rewrite A4 in H2 by done. by destruct (used sfs1 b).
    + pose proof (iw_used _ _ B3 b Hb). lia.
  - eauto.
  - intros b H0 Hb Hn. rewrite B7; [by apply A7|done| |].
    + by rewrite A4, Hb by done.
    + intros H2. destruct (A5 b H2); [done|congruence].
  - destruct A8 as (? & ? & ? & ?), B8 as (? & ? & ? & ?). split_and!; congruence.
  - destruct A9 as [->|A9], B9 as [->|B9]; auto.
  - destruct A10 as [[A10 A11]|A10], B10 as [[B10 B11]|B10]; auto; [left|right]; split || idtac; congruence.
Qed.

Lemma same_data_refl sfs sv : same_data sfs sv sfs sv.
Proof. done. Qed.

Lemma same_data_trans sfs1 sv1 sfs2 sv2 sfs3 sv3 :
  same_data sfs1 sv1 sfs2 sv2 → same_data sfs2 sv2 sfs3 sv3 → same_data sfs1 sv1 sfs3 sv3.
Proof. intros [H1 S1] [H2 S2]. split; [|congruence]. intros i. by rewrite H2. Qed.

(** Adding one block to the table. *)
Section grow.
Context sfs sv sfs1 (b k : Z) sfs' sv' (Hwf : sfs_wf sfs) (Hin : inode_wf sfs sv) (Hal : allocated sfs b sfs1)
  (Hk : zget (table sfs sv) k = Some 0) (Htab : table sfs' sv' = zset (table sfs sv) k b)
  (Hdir : length (sfi_direct (sv_i sv')) = 15%nat) (Hwf' : sfs_wf sfs')
  (Hsb : sfs_sb sfs' = sfs_sb sfs1) (Hfm : sfs_freemap sfs' = sfs_freemap sfs1)
  (Hfd : sfs_freemapdirty sfs' = true).

Lemma owned_one : owned sfs' sv' ≡ₚ b :: owned sfs sv.
Proof. unfold owned. rewrite Htab. apply nonzero_add; [done|]. pose proof (al_block _ _ _ Hal). lia. Qed.

Lemma grow_one :
  (∀ c, 0 ≤ c → used sfs c = true → c ∉ owned sfs sv → sector sfs' c = sector sfs c) →
  sv_ino sv' = sv_ino sv ∧ sfi_type (sv_i sv') = sfi_type (sv_i sv) ∧
    sfi_linkcount (sv_i sv') = sfi_linkcount (sv_i sv) ∧ sfi_waste (sv_i sv') = sfi_waste (sv_i sv) →
  sv' = sv ∨ sv_dirty sv' = true →
  grown sfs sv sfs' sv'.
Proof.
  intros Hsec Hino Hdirty. destruct Hal as [Hb Hfree Hu Hs Hsb1 Hwf1 _].
  assert (∀ c, used sfs' c = used sfs1 c) as Hu' by (intros c; unfold used; by rewrite Hfm).
  constructor; try done.
  - by rewrite Hsb.
  - constructor; [done| |].
    + rewrite owned_one. constructor; [|apply Hin]. intros Hx. destruct (iw_used _ _ Hin b Hx). congruence.
    + intros c Hc. rewrite owned_one in Hc. rewrite Hsb, Hsb1, Hu'.
      apply elem_of_cons in Hc as [->|Hc]; [rewrite Hu, decide_True by lia; split; [lia|done]|].
      destruct (iw_used _ _ Hin c Hc) as [Hr Hcu]. rewrite Hu by lia. split; [done|]. by case_decide.
  - intros c Hc. rewrite Hu', Hu by done. destruct (decide (c = b)) as [->|Hne].
    + rewrite Hfree, bool_decide_eq_true_2; [done|]. rewrite owned_one. by left.
    + case_bool_decide as Hd; [|by rewrite orb_false_r]. rewrite owned_one in Hd.
      apply elem_of_cons in Hd as [?|Hd]; [done|]. by rewrite (proj2 (iw_used _ _ Hin c Hd)).
  - intros c Hc. rewrite owned_one in Hc. apply elem_of_cons in Hc as [->|Hc]; auto.
  - intros c Hc. rewrite owned_one. by right.
  - by right.
Qed.

Lemma data_one :
  (∀ i, 0 ≤ i < 143 → fblock sfs sv i ≠ 0 → sector sfs' (fblock sfs sv i) = sector sfs (fblock sfs sv i)) →
  (k ≠ 0 → sector sfs' b = iobuf0) → sfi_size (sv_i sv') = sfi_size (sv_i sv) →
  same_data sfs sv sfs' sv'.
Proof.
  intros Hsec Hz Hsz. split; [|done]. intros i. unfold fdata, bdata.
  assert (∀ j, fblock sfs' sv' j = if decide (j + 1 = k ∧ 0 ≤ j) then b else fblock sfs sv j) as Hf.
  { intros j. unfold fblock. destruct (decide (0 ≤ j)) as [Hj|Hj].
    - assert (∀ f v, zget (fblocks f v) j = zget (table f v) (j + 1)) as Ht
        by (intros; unfold table; rewrite zget_cons by lia; f_equal; lia).
      rewrite !Ht, Htab, zget_zset. pose proof (zget_Some_range _ _ _ Hk) as Hkr.
      repeat case_decide; try done; naive_solver lia.
    - rewrite !(proj2 (zget_None _ j)) by lia. case_decide; [lia|done]. }
  rewrite Hf. case_decide as Hd.
  - assert (fblock sfs sv i = 0) as ->.
    { unfold fblock. assert (zget (fblocks sfs sv) i = zget (table sfs sv) k) as ->; [|by rewrite Hk].
      unfold table. rewrite zget_cons by lia. f_equal. lia. }
    pose proof (al_block _ _ _ Hal). destruct (Z.eqb_spec b 0); [lia|]. simpl. apply Hz. lia.
  - destruct (Z.eqb_spec (fblock sfs sv i) 0) as [|Hne]; [done|].
    destruct (decide (0 ≤ i < 143)) as [Hi|Hi]; [by apply Hsec|].
    by rewrite (fblock_out sfs sv i Hin Hi) in Hne.
Qed.

End grow.

(** Allocating does not change the blocks in use. *)
Lemma allocated_sector sfs b sfs1 c : allocated sfs b sfs1 → used sfs c = true → sector sfs1 c = sector sfs c.
Proof. intros [] Hc. rewrite al_sector0. case_decide; [congruence|done]. Qed.

Lemma idwords_zeros : bytes_words 128 iobuf0 = replicate 128 0.
Proof. vm_compute. done. Qed.

Lemma idword_hole sfs j : default 0 (zget (idwords sfs 0) j) = 0.
Proof.
  change (idwords sfs 0) with (replicate 128 0). unfold zget. case_decide; [|done].
  destruct (replicate 128 0 !! Z.to_nat j) eqn:E; [|done]. by apply lookup_replicate in E as [-> _].
Qed.

(** A direct block is added. *)
Lemma grow_direct sfs sv sfs1 b i :
  sfs_wf sfs → inode_wf sfs sv → allocated sfs b sfs1 → 0 ≤ i < 15 → fblock sfs sv i = 0 →
  let sv' := dirtied (with_direct (zset (sfi_direct (sv_i sv)) i b) (sv_i sv)) sv in
  grown sfs sv sfs1 sv' ∧ same_data sfs sv sfs1 sv' ∧ fblock sfs1 sv' i = b.
Proof.
  intros Hwf Hin Hal Hi H0 sv'.
  pose proof (direct_length sfs sv Hin) as Hdl.
  destruct (indirect_range sfs sv Hwf Hin) as [_ Hiu].
  assert (idwords sfs1 (sfi_indirect (sv_i sv)) = idwords sfs (sfi_indirect (sv_i sv))) as Hid
    by (unfold idwords; by rewrite (allocated_sector sfs b sfs1) by done).
  assert (fblocks sfs1 sv' = zset (fblocks sfs sv) i b) as Hfb.
  { unfold fblocks. simpl. rewrite Hid, zset_app_l by lia. done. }
  assert (table sfs1 sv' = zset (table sfs sv) (i + 1) b) as Htab.
  { unfold table. rewrite Hfb, zset_cons by lia. simpl. do 2 f_equal. lia. }
  assert (zget (table sfs sv) (i + 1) = Some 0) as Hk by (rewrite <-H0; apply table_get; [done|lia]).
  assert (length (sfi_direct (sv_i sv')) = 15%nat) as Hdl'.
  { simpl. pose proof (zlen_zset (sfi_direct (sv_i sv)) i b) as Hz. rewrite Hdl in Hz. unfold zlen in Hz. lia. }
  pose proof (al_wf _ _ _ Hal) as Hwf1. split_and!.
  - eapply grow_one; try done; [apply Hal| |by right]. intros c _ Hc _. by apply (allocated_sector sfs b sfs1).
  - eapply data_one; try done.
    + intros j _ _. apply (allocated_sector sfs b sfs1); [done|]. by apply fblock_range.
    + intros _. rewrite (al_sector _ _ _ Hal). by rewrite decide_True.
  - unfold fblock. rewrite Hfb, zget_zset_eq; [done|]. rewrite fblocks_length by done. lia.
Qed.

(** The indirect block is added. *)
Lemma grow_indirect sfs sv sfs1 b :
  sfs_wf sfs → inode_wf sfs sv → allocated sfs b sfs1 → sfi_indirect (sv_i sv) = 0 →
  let sv' := dirtied (with_indirect b (sv_i sv)) sv in
  grown sfs sv sfs1 sv' ∧ same_data sfs sv sfs1 sv' ∧ fblocks sfs1 sv' = fblocks sfs sv ∧
  idwords sfs1 b = replicate 128 0.
Proof.
  intros Hwf Hin Hal H0 sv'. pose proof (al_block _ _ _ Hal) as Hb.
  assert (idwords sfs1 b = replicate 128 0) as Hid.
  { unfold idwords. destruct (Z.eqb_spec b 0); [lia|]. rewrite (al_sector _ _ _ Hal), decide_True by done. apply idwords_zeros. }
  assert (fblocks sfs1 sv' = fblocks sfs sv) as Hfb.
  { unfold fblocks. simpl. rewrite Hid, H0. done. }
  assert (table sfs1 sv' = zset (table sfs sv) 0 b) as Htab.
  { unfold table. rewrite Hfb. done. }
  assert (zget (table sfs sv) 0 = Some 0) as Hk by (unfold table; by rewrite H0).
  assert (length (sfi_direct (sv_i sv')) = 15%nat) as Hdl' by apply Hin.
  pose proof (al_wf _ _ _ Hal) as Hwf1. split_and!; [| |done|done].
  - eapply grow_one; try done; [apply Hal| |by right]. intros c _ Hc _. by apply (allocated_sector sfs b sfs1).
  - eapply data_one; try done. intros j _ _. apply (allocated_sector sfs b sfs1); [done|]. by apply fblock_range.
Qed.

(** A block is added to the indirect block. *)
Lemma grow_idword sfs sv sfs1 b j sfs2 :
  sfs_wf sfs → inode_wf sfs sv → allocated sfs b sfs1 → sfi_indirect (sv_i sv) ≠ 0 → 0 ≤ j < 128 →
  fblock sfs sv (15 + j) = 0 →
  wrote sfs1 (sfi_indirect (sv_i sv)) (words_bytes (zset (idwords sfs (sfi_indirect (sv_i sv))) j b)) sfs2 →
  grown sfs sv sfs2 sv ∧ same_data sfs sv sfs2 sv ∧ fblock sfs2 sv (15 + j) = b.
Proof.
  intros Hwf Hin Hal Hne Hj H0 Hwr. pose proof (al_block _ _ _ Hal) as Hb.
  pose proof (direct_length sfs sv Hin) as Hdl. destruct (indirect_range sfs sv Hwf Hin) as [Hir Hiu].
  set (ib := sfi_indirect (sv_i sv)) in *. set (ws := idwords sfs ib) in *.
  assert (sfs_sb sfs1 = sfs_sb sfs) as Hsb by apply Hal.
  assert (Forall is_u32 (zset ws j b) ∧ length (zset ws j b) = 128%nat) as [Hu32 Hl].
  { pose proof (zlen_zset ws j b) as Hz. pose proof (idwords_length sfs ib) as Hil. split; [|unfold zlen in *; fold ws in Hil; lia].
    pose proof (lw_blocks _ (sw_device _ Hwf)) as Hlim. pose proof (sw_nblocks _ Hwf) as Hnb.
    rewrite Forall_forall. intros x Hx. apply elem_of_zget in Hx as [i Hi]. rewrite zget_zset in Hi.
    case_decide; [simplify_eq; width|]. assert (x ∈ ws) as Hx by (rewrite elem_of_zget; eauto).
    pose proof (idword_range sfs sv Hwf Hin x Hx). width. }
  assert (idwords sfs2 ib = zset ws j b) as Hid.
  { unfold idwords. destruct (Z.eqb_spec ib 0); [done|]. rewrite (wr_sector _ _ _ _ Hwr), decide_True by done.
    by apply words_roundtrip_end. }
  assert (fblocks sfs2 sv = zset (fblocks sfs sv) (15 + j) b) as Hfb.
  { unfold fblocks. fold ib. rewrite Hid, zset_app_r by lia. rewrite Hdl. do 2 f_equal. lia. }
  assert (table sfs2 sv = zset (table sfs sv) (15 + j + 1) b) as Htab.
  { unfold table. rewrite Hfb, zset_cons by lia. do 2 f_equal. lia. }
  assert (zget (table sfs sv) (15 + j + 1) = Some 0) as Hk by (rewrite <-H0; apply table_get; [done|lia]).
  assert (∀ c, used sfs c = true → c ≠ ib → sector sfs2 c = sector sfs c) as Hsec.
  { intros c Hc Hcne. rewrite (wr_sector _ _ _ _ Hwr), decide_False by done. by apply (allocated_sector sfs b sfs1). }
  assert (b ≠ ib) as Hbne by (intros ->; pose proof (al_free _ _ _ Hal); congruence).
  pose proof (wr_wf _ _ _ _ Hwr) as Hwf2. split_and!.
  - eapply grow_one; try done; [apply Hin|apply Hwr|apply Hwr|by rewrite (wr_dirty _ _ _ _ Hwr); apply Hal| |by left].
    intros c _ Hc Hco. apply Hsec; [done|]. intros ->. apply Hco. by apply indirect_owned.
  - eapply data_one; try done; [apply Hin| |].
    + intros i Hi Hne'. apply Hsec; [by apply fblock_range|]. by apply fblock_indirect.
    + intros _. rewrite (wr_sector _ _ _ _ Hwr), decide_False, (al_sector _ _ _ Hal), decide_True by done. done.
  - unfold fblock. rewrite Hfb, zget_zset_eq; [done|]. rewrite fblocks_length by done. lia.
Qed.

(** What [sfs_bmap] does. *)
Inductive bmap_effect sfs sv (fileblock : Z) (doalloc : bool) : outcome (Z * Z * sfs_vnode * sfs_fs) → Prop :=
| bmap_toobig : 143 ≤ fileblock → bmap_effect sfs sv fileblock doalloc (Ok (EFBIG, 0, sv, sfs))
| bmap_nospace sv' sfs' :
    fileblock < 143 → doalloc = true → fblock sfs sv fileblock = 0 →
    grown sfs sv sfs' sv' → same_data sfs sv sfs' sv' → (∀ k, 0 ≤ k → used sfs' k = true) →
    bmap_effect sfs sv fileblock doalloc (Ok (ENOSPC, 0, sv', sfs'))
| bmap_found block sv' sfs' :
    fileblock < 143 → block = fblock sfs' sv' fileblock → grown sfs sv sfs' sv' → same_data sfs sv sfs' sv' →
    (doalloc = true → fblock sfs' sv' fileblock ≠ 0) →
    (doalloc = false ∨ fblock sfs sv fileblock ≠ 0 → sv' = sv ∧ same_fs sfs sfs') →
    bmap_effect sfs sv fileblock doalloc (Ok (0, block, sv', sfs')).

Lemma same_fs_refl sfs : same_fs sfs sfs.
Proof. by constructor. Qed.

Lemma same_fs_trans sfs1 sfs2 sfs3 : same_fs sfs1 sfs2 → same_fs sfs2 sfs3 → same_fs sfs1 sfs3.
Proof. intros [A1 A2 A3 A4 A5 A6] [B1 B2 B3 B4 B5 B6]. constructor; auto; congruence. Qed.

Lemma same_fs_sector sfs sfs' b : same_fs sfs sfs' → sector sfs' b = sector sfs b.
Proof. intros []. unfold sector. by rewrite sf_sectors0. Qed.

Lemma same_fs_fblocks sfs sfs' sv : same_fs sfs sfs' → fblocks sfs' sv = fblocks sfs sv.
Proof. intros Hs. unfold fblocks, idwords. by rewrite (same_fs_sector sfs sfs'). Qed.

Lemma same_fs_owned sfs sfs' sv : same_fs sfs sfs' → owned sfs' sv = owned sfs sv.
Proof. intros Hs. unfold owned, table. by rewrite (same_fs_fblocks sfs sfs'). Qed.

Lemma kept_refl P sfs : meta_kept P sfs sfs.
Proof. constructor; auto. Qed.

Lemma kept_trans P sfs1 sfs2 sfs3 : meta_kept P sfs1 sfs2 → meta_kept P sfs2 sfs3 → meta_kept P sfs1 sfs3.
Proof.
  intros [M1 S1] [M2 S2]. constructor; [|intros b Hb; by rewrite S2, S1].
  destruct M1 as [[M1 D1]|M1], M2 as [[M2 D2]|M2]; auto; [left; split|right]; congruence.
Qed.

Lemma kept_weaken (P Q : Z → Prop) sfs sfs' : (∀ b, Q b → P b) → meta_kept P sfs sfs' → meta_kept Q sfs sfs'.
Proof. intros HQ [M S]. constructor; auto. Qed.

Lemma same_fs_kept P sfs sfs' : same_fs sfs sfs' → meta_kept P sfs sfs'.
Proof. intros []. constructor; [by left|]. intros b _. unfold sector. by rewrite sf_sectors0. Qed.

Lemma wrote_kept (P : Z → Prop) sfs b data sfs' : ¬ P b → wrote sfs b data sfs' → meta_kept P sfs sfs'.
Proof.
  intros Hb []. constructor; [by left|]. intros k Hk. rewrite wr_sector0, decide_False; [done|]. by intros ->.
Qed.

Lemma grown_kept sfs sv sfs' sv' : grown sfs sv sfs' sv' → meta_kept (λ b, 0 ≤ b ∧ used sfs b = true ∧ b ∉ owned sfs sv) sfs sfs'.
Proof. intros []. constructor; [done|]. intros b (? & ? & ?). auto. Qed.

Lemma allocated_kept sfs b sfs' : allocated sfs b sfs' → meta_kept (λ k, used sfs k = true) sfs sfs'.
Proof.
  intros []. constructor; [by right|]. intros k Hk. rewrite al_sector0, decide_False; [done|]. intros ->. congruence.
Qed.

Lemma same_fs_used sfs sfs' b : same_fs sfs sfs' → used sfs' b = used sfs b.
Proof. intros []. unfold used. by rewrite sf_freemap0. Qed.

Lemma same_fs_inode sfs sfs' sv : same_fs sfs sfs' → inode_wf sfs sv → inode_wf sfs' sv.
Proof.
  intros Hs []. constructor; [done|by rewrite (same_fs_owned sfs sfs')|].
  intros b. rewrite (same_fs_owned sfs sfs'), (same_fs_used sfs sfs'), (sf_sb _ _ Hs) by done. auto.
Qed.

Lemma same_fs_fblock sfs sfs' sv i : same_fs sfs sfs' → fblock sfs' sv i = fblock sfs sv i.
Proof. intros Hs. unfold fblock. by rewrite (same_fs_fblocks sfs sfs'). Qed.

Lemma same_fs_data sfs sfs' sv : same_fs sfs sfs' → same_data sfs sv sfs' sv.
Proof.
  intros Hs. split; [|done]. intros i. unfold fdata, bdata. rewrite (same_fs_fblock sfs sfs') by done.
  by rewrite (same_fs_sector sfs sfs').
Qed.

Lemma same_fs_grown sfs sfs' sv : same_fs sfs sfs' → sfs_wf sfs → inode_wf sfs sv → grown sfs sv sfs' sv.
Proof.
  intros Hs Hwf Hin. pose proof (grown_refl sfs sv Hwf Hin) as [G1 G2 G3 G4 G5 G6 G7 G8 G9 G10].
  constructor; [apply Hs|by apply Hs|by apply (same_fs_inode sfs)| | | | |done|done|left; split; apply Hs].
  - intros b Hb. rewrite (same_fs_used sfs sfs'), (same_fs_owned sfs sfs') by done. by apply G4.
  - intros b. rewrite (same_fs_owned sfs sfs') by done. apply G5.
  - intros b. by rewrite (same_fs_owned sfs sfs').
  - intros b _ _ _. by apply same_fs_sector.
Qed.

Section bmap.
Context `{Reliable}.

Lemma bmap_used sfs sv i : sfs_wf sfs → inode_wf sfs sv → check_used (fblock sfs sv i) sfs = Ok tt.
Proof. intros Hwf Hin. destruct (fblock_range sfs sv Hwf Hin i). by apply check_used_ok. Qed.

Lemma bmap_direct sfs sv i doalloc :
  sfs_wf sfs → inode_wf sfs sv → 0 ≤ i < 15 → bmap_effect sfs sv i doalloc (sfs_bmap sv i doalloc sfs).
Proof.
  intros Hwf Hin Hi. pose proof (direct_length sfs sv Hin) as Hdl. unfold sfs_bmap, SFS_NDIRECT.
  destruct (Z.ltb_spec i 15); [|lia].
  assert (zget (sfi_direct (sv_i sv)) i = Some (fblock sfs sv i)) as ->.
  { rewrite <-fblock_get by (done || lia). unfold fblocks. by rewrite zget_app_l by lia. }
  cbn [deref mbind outcome_bind]. destruct (Z.eqb_spec (fblock sfs sv i) 0) as [E0|Hne]; [destruct doalloc|];
    cbn [andb mbind outcome_bind].
  - destruct (sfs_balloc_spec sfs Hwf) as [Hfull|b sfs1 Hal]; cbn [mbind outcome_bind].
    + change (negb (ENOSPC =? 0)) with true. cbv iota. cbn [mbind outcome_bind]. change (negb (ENOSPC =? 0)) with true.
      cbv iota. apply bmap_nospace; auto using grown_refl, same_data_refl. lia.
    + change (negb (0 =? 0)) with false. cbv iota. unfold zput. rewrite decide_True by lia. cbn [mbind outcome_bind].
      destruct (grow_direct sfs sv sfs1 b i Hwf Hin Hal Hi E0) as (Hg & Hd & Hb). cbv zeta in *.
      change (negb (0 =? 0)) with false. cbv iota.
      pose proof (bmap_used _ _ i (gr_wf _ _ _ _ Hg) (gr_inode _ _ _ _ Hg)) as Hu. rewrite Hb in Hu. rewrite Hu.
      cbn [mbind outcome_bind]. apply bmap_found; [lia|done|done|done| |].
      * intros _. rewrite Hb. pose proof (al_block _ _ _ Hal). lia.
      * intros [?|?]; [done|congruence].
  - change (negb (0 =? 0)) with false. cbv iota. rewrite E0. cbn [check_used Z.eqb mbind outcome_bind].
    apply bmap_found; auto using grown_refl, same_data_refl, same_fs_refl; lia || done.
  - change (negb (0 =? 0)) with false. cbv iota. rewrite bmap_used by done. cbn [mbind outcome_bind].
    apply bmap_found; auto using grown_refl, same_data_refl, same_fs_refl. lia.
Qed.

(** The part of [sfs_bmap] after the indirect block has been loaded. *)
Lemma bmap_idword sfs sv idblock idbuf j doalloc :
  sfs_wf sfs → inode_wf sfs sv → 0 ≤ j < 128 → idblock = sfi_indirect (sv_i sv) → idblock ≠ 0 →
  idbuf = idwords sfs idblock →
  bmap_effect sfs sv (15 + j) doalloc
    (block ← deref (zget idbuf j);
     '(result, block, sfs) ←
       (if (block =? 0) && doalloc then
         '(result, block, sfs) ← sfs_balloc sfs;
         if negb (result =? 0) then Ok (result, 0, sfs)
         else
           idbuf ← zput idbuf j block;
           '(result, sfs) ← fs_writeblock idblock (words_bytes idbuf) sfs;
           Ok (result, block, sfs)
       else Ok (0, block, sfs));
     if negb (result =? 0) then Ok (result, 0, sv, sfs)
     else
       _ ← check_used block sfs;
       Ok (0, block, sv, sfs)).
Proof.
  intros Hwf Hin Hj -> Hne ->. pose proof (direct_length sfs sv Hin) as Hdl. pose proof (idwords_length sfs (sfi_indirect (sv_i sv))) as Hil.
  destruct (indirect_range sfs sv Hwf Hin) as [Hir Hiu].
  assert (zget (idwords sfs (sfi_indirect (sv_i sv))) j = Some (fblock sfs sv (15 + j))) as ->.
  { rewrite <-fblock_get by (done || lia). unfold fblocks. rewrite zget_app_r by lia. f_equal. lia. }
  cbn [deref mbind outcome_bind]. destruct (Z.eqb_spec (fblock sfs sv (15 + j)) 0) as [E0|Hne0]; [destruct doalloc|];
    cbn [andb mbind outcome_bind].
  - destruct (sfs_balloc_spec sfs Hwf) as [Hfull|b sfs1 Hal]; cbn [mbind outcome_bind].
    + change (negb (ENOSPC =? 0)) with true. cbv iota. cbn [mbind outcome_bind]. change (negb (ENOSPC =? 0)) with true.
      cbv iota. apply bmap_nospace; auto using grown_refl, same_data_refl. lia.
    + change (negb (0 =? 0)) with false. cbv iota.
      unfold zput. rewrite decide_True by lia. cbn [mbind outcome_bind].
      set (ws := zset (idwords sfs _) j b).
      assert (length (words_bytes ws) = 512%nat) as Hl.
      { rewrite length_words_bytes. unfold ws. pose proof (zlen_zset (idwords sfs (sfi_indirect (sv_i sv))) j b) as Hz.
        unfold zlen in *. lia. }
      destruct (fs_writeblock_ok (sfi_indirect (sv_i sv)) (words_bytes ws) sfs1) as (sfs2 & -> & Hw);
        [apply Hal|rewrite (al_sb _ _ _ Hal); lia|done|]. cbn [mbind outcome_bind].
      destruct (grow_idword sfs sv sfs1 b j sfs2 Hwf Hin Hal Hne Hj E0 Hw) as (Hg & Hd & Hb).
      change (negb (0 =? 0)) with false. cbv iota.
      pose proof (bmap_used _ _ (15 + j) (gr_wf _ _ _ _ Hg) (gr_inode _ _ _ _ Hg)) as Hu. rewrite Hb in Hu. rewrite Hu.
      cbn [mbind outcome_bind]. apply bmap_found; [lia|done|done|done| |].
      * intros _. rewrite Hb. pose proof (al_block _ _ _ Hal). lia.
      * intros [?|?]; [done|congruence].
  - change (negb (0 =? 0)) with false. cbv iota. rewrite E0. cbn [check_used Z.eqb mbind outcome_bind].
    apply bmap_found; auto using grown_refl, same_data_refl, same_fs_refl; lia || done.
  - change (negb (0 =? 0)) with false. cbv iota. rewrite bmap_used by done. cbn [mbind outcome_bind].
    apply bmap_found; auto using grown_refl, same_data_refl, same_fs_refl. lia.
Qed.

(** Steps that leave the contents of the file alone, before the block is looked up. *)
Lemma bmap_effect_after sfs sv sfs1 sv1 i doalloc r :
  grown sfs sv sfs1 sv1 → same_data sfs sv sfs1 sv1 → fblock sfs1 sv1 i = fblock sfs sv i →
  (sv1 = sv ∧ same_fs sfs sfs1 ∨ doalloc = true ∧ fblock sfs sv i = 0) → i < 143 →
  bmap_effect sfs1 sv1 i doalloc r → bmap_effect sfs sv i doalloc r.
Proof.
  intros Hg Hd Hf Hs Hi [Hb|sv' sfs' Hi' Hda Hz Hg' Hd' Hfull|block sv' sfs' Hi' -> Hg' Hd' Hnz Hsame].
  - lia.
  - apply bmap_nospace; eauto using grown_trans, same_data_trans. congruence.
  - apply bmap_found; eauto using grown_trans, same_data_trans. intros Hc.
    destruct Hs as [[-> Hs]|[Hs1 Hs2]]; [|destruct Hc; congruence]. rewrite Hf in Hsame.
    destruct (Hsame Hc) as [-> [? ? ? ? ? ?]]. destruct Hs as [? ? ? ? ? ?]. split; [done|].
    constructor; auto; congruence.
Qed.

Lemma sfs_bmap_spec sfs sv i doalloc :
  sfs_wf sfs → inode_wf sfs sv → 0 ≤ i → bmap_effect sfs sv i doalloc (sfs_bmap sv i doalloc sfs).
Proof.
  intros Hwf Hin Hi. destruct (decide (i < 15)) as [Hlt|Hge]; [apply bmap_direct; done || lia|].
  unfold sfs_bmap, SFS_NDIRECT, SFS_DBPERIDB, SFS_NINDIRECT. destruct (Z.ltb_spec i 15); [lia|].
  destruct (Z.leb_spec 1 ((i - 15) / 128)) as [Hbig|Hsm].
  { apply bmap_toobig. Z.to_euclidean_division_equations. lia. }
  assert (i < 143) as Hi' by (Z.to_euclidean_division_equations; lia).
  rewrite (Z.mod_small (i - 15) 128) by lia.
  assert (fblock sfs sv i = default 0 (zget (idwords sfs (sfi_indirect (sv_i sv))) (i - 15))) as Hfi.
  { unfold fblock, fblocks. rewrite zget_app_r by (rewrite (direct_length sfs sv Hin); lia). by rewrite (direct_length sfs sv Hin). }
  replace i with (15 + (i - 15)) at 1 by lia.
  destruct (Z.eqb_spec (sfi_indirect (sv_i sv)) 0) as [E0|Hne]; [destruct doalloc|]; cbn [andb negb].
  - assert (fblock sfs sv i = 0) as Hz.
    { rewrite Hfi, E0. apply idword_hole. }
    destruct (sfs_balloc_spec sfs Hwf) as [Hfull|b sfs1 Hal]; cbn [mbind outcome_bind].
    + change (negb (ENOSPC =? 0)) with true. cbv iota. cbn [mbind outcome_bind]. change (negb (ENOSPC =? 0)) with true.
      cbv iota. replace (15 + (i - 15)) with i by lia. apply bmap_nospace; auto using grown_refl, same_data_refl.
    + change (negb (0 =? 0)) with false. cbv iota. cbn [mbind outcome_bind]. change (negb (0 =? 0)) with false. cbv iota.
      destruct (grow_indirect sfs sv sfs1 b Hwf Hin Hal E0) as (Hg & Hd & Hfb & Hid). cbv zeta in *.
      set (sv1 := dirtied _ sv) in *. pose proof (al_block _ _ _ Hal) as Hb.
      eapply bmap_effect_after; [exact Hg|exact Hd|unfold fblock; by rewrite Hfb| |lia|].
      { right. split; [done|]. by replace (15 + (i - 15)) with i by lia. }
      apply (bmap_idword sfs1 sv1 b _ (i - 15)); [apply Hg|apply Hg|lia|done|lia|by symmetry].
  - apply bmap_found; [lia| |by apply grown_refl|done|done|auto using same_fs_refl].
    replace (15 + (i - 15)) with i by lia. by rewrite Hfi, E0, idword_hole.
  - destruct (indirect_range sfs sv Hwf Hin) as [Hir Hiu].
    destruct (fs_readblock_ok (sfi_indirect (sv_i sv)) iobuf0 sfs Hwf Hir eq_refl) as (sfs1 & -> & Hs).
    cbn [mbind outcome_bind]. change (negb (0 =? 0)) with false. cbv iota.
    assert (bytes_words 128 (sector sfs (sfi_indirect (sv_i sv))) = idwords sfs1 (sfi_indirect (sv_i sv))) as ->.
    { unfold idwords. destruct (Z.eqb_spec (sfi_indirect (sv_i sv)) 0); [done|]. by rewrite (same_fs_sector sfs sfs1). }
    eapply bmap_effect_after; [by apply same_fs_grown|by apply same_fs_data|by apply same_fs_fblock|by left|lia|].
    apply (bmap_idword sfs1 sv _ _ (i - 15)); [by apply Hs|by apply (same_fs_inode sfs)|lia|done|done|done].
Qed.

End bmap.

End sfs.
