(* ===== verification/SfsTrunc.v ===== *)
(** * SFS truncation (the proofs about [sfs_itrunc] of kern/fs/sfs/sfs_bmap.c)

    The two loops of [sfs_itrunc] free the blocks at some places of an array of
    block numbers.  [shrunk] relates two states of a volume between which an inode
    has given up blocks. *)

From stdpp Require Import base gmap list list_numbers.
From Stdlib Require Import ZArith Lia.
From S2P Require Import Prelude FrameTable CopyInOut Uio Lhd Bitmap SfsDisk SfsBmap.
Open Scope Z_scope.

Section trunc.
Context `{Hardware}.
Implicit Types (sfs : sfs_fs) (sv : sfs_vnode).

(** Blocks given back to the freemap. *)
Record released sfs (l : list Z) sfs' : Prop := {
  re_used k : 0 ≤ k → used sfs' k = if decide (k ∈ l) then false else used sfs k;
  re_sb : sfs_sb sfs' = sfs_sb sfs;
  re_sectors : sectors (sfs_device sfs') = sectors (sfs_device sfs);
  re_wf : sfs_wf sfs';
  re_dirty : (sfs_freemap sfs' = sfs_freemap sfs ∧ sfs_freemapdirty sfs' = sfs_freemapdirty sfs) ∨
             sfs_freemapdirty sfs' = true
}.

Lemma released_nil sfs : sfs_wf sfs → released sfs [] sfs.
Proof. intros. constructor; auto. Qed.

Lemma released_trans sfs1 l1 sfs2 l2 sfs3 :
  released sfs1 l1 sfs2 → released sfs2 l2 sfs3 → released sfs1 (l1 ++ l2) sfs3.
Proof.
  intros [A1 A2 A3 A4 A5] [B1 B2 B3 B4 B5]. constructor; try congruence.
  - intros k Hk. rewrite B1, A1 by done. destruct (decide (k ∈ l2)), (decide (k ∈ l1)).
    all: (rewrite decide_True by (apply elem_of_app; auto)) || (rewrite decide_False by (rewrite elem_of_app; tauto)); done.
  - destruct A5 as [[A5 A6]|A5], B5 as [[B5 B6]|B5]; auto; [left; split|right]; congruence.
Qed.

Lemma same_fs_released sfs sfs' : same_fs sfs sfs' → sfs_wf sfs → released sfs [] sfs'.
Proof.
  intros [S1 S2 S3 S4 S5 S6] Hwf. constructor; auto. intros k Hk. unfold used. by rewrite S4.
Qed.

Lemma released_kept P sfs l sfs' : released sfs l sfs' → meta_kept P sfs sfs'.
Proof. intros []. constructor; [done|]. intros b _. unfold sector. by rewrite re_sectors0. Qed.

Lemma sfs_bfree_ok b sfs :
  sfs_wf sfs → 0 < b < sb_nblocks (sfs_sb sfs) → used sfs b = true →
  ∃ sfs', sfs_bfree b sfs = Ok sfs' ∧ released sfs [b] sfs'.
Proof.
  intros Hwf Hb Hu. pose proof (bitmap_unmark_spec _ b (sw_freemap _ Hwf) ltac:(lia)) as Hs.
  pose proof (freemap_covers _ Hwf) as Hn. unfold used in Hu.
  rewrite Hu, (proj2 (Z.ltb_lt _ _)) in Hs by lia. destruct Hs as (bm & E & Hnb & Hbm & Hset).
  exists (with_freemap bm true sfs). unfold sfs_bfree. rewrite E. split; [done|]. constructor; auto.
  - intros k Hk. unfold used. simpl. rewrite Hset by done. apply decide_ext. by rewrite list_elem_of_singleton.
  - apply with_freemap_wf; [done..|]. intros k Hk0 Hk. rewrite Hset by done. case_decide; [lia|].
    destruct Hk as [->|Hk]; [apply (sw_zero _ Hwf)|by apply (sw_beyond _ Hwf)].
Qed.

(** Both loops of [sfs_itrunc] free the blocks at some places of an array. *)
Fixpoint free_places (is_ : list Z) (cut : Z → bool) (l : list Z) sfs : outcome (list Z * sfs_fs) :=
  match is_ with
  | [] => Ok (l, sfs)
  | i :: is_ =>
      x ← deref (zget l i);
      if cut i && negb (x =? 0) then
        sfs ← sfs_bfree x sfs;
        l ← zput l i 0;
        free_places is_ cut l sfs
      else free_places is_ cut l sfs
  end.

Lemma trunc_direct_places is_ blocklen : ∀ sv sfs l' sfs',
  free_places is_ (λ i, blocklen <=? i) (sfi_direct (sv_i sv)) sfs = Ok (l', sfs') →
  ∃ sv', trunc_direct is_ blocklen sv sfs = Ok (sv', sfs') ∧
    sv_i sv' = with_direct l' (sv_i sv) ∧ sv_ino sv' = sv_ino sv.
Proof.
  induction is_ as [|i is_ IH]; intros sv sfs l' sfs' Hf; cbn [free_places trunc_direct] in *.
  - simplify_eq. exists sv. split_and!; [done| |done]. by destruct (sv_i sv).
  - destruct (deref (zget (sfi_direct (sv_i sv)) i)) as [x| | |]; try done. cbn [mbind outcome_bind] in *.
    destruct ((blocklen <=? i) && negb (x =? 0)); [|by apply IH].
    destruct (sfs_bfree x sfs) as [sfs1| | |]; try done. cbn [mbind outcome_bind] in *.
    destruct (zput (sfi_direct (sv_i sv)) i 0) as [l1| | |]; try done. cbn [mbind outcome_bind] in *.
    destruct (IH (dirtied (with_direct l1 (sv_i sv)) sv) sfs1 l' sfs' Hf) as (sv' & E & E1 & E2). by exists sv'.
Qed.

Lemma free_places_outside is_ cut : ∀ l sfs l' sfs' j,
  free_places is_ cut l sfs = Ok (l', sfs') → j ∉ is_ → zget l' j = zget l j.
Proof.
  induction is_ as [|i is_ IH]; intros l sfs l' sfs' j Hf Hj; cbn [free_places] in *; [by simplify_eq|].
  apply not_elem_of_cons in Hj as [Hij Hj].
  destruct (deref (zget l i)) as [x| | |]; try done. cbn [mbind outcome_bind] in *.
  destruct (cut i && negb (x =? 0)); [|by eapply IH].
  destruct (sfs_bfree x sfs) as [sfs1| | |]; try done. cbn [mbind outcome_bind] in *.
  destruct (zput l i 0) as [l1| | |] eqn:E; try done. cbn [mbind outcome_bind] in *.
  apply zput_Ok in E as [_ ->]. rewrite (IH _ _ _ _ j Hf Hj). by apply zget_zset_ne.
Qed.

Lemma trunc_indirect_places js blocklen : ∀ l h dirty sfs l' sfs',
  NoDup js → free_places js (λ j, blocklen <? SFS_NDIRECT + j) l sfs = Ok (l', sfs') →
  ∃ dirty', trunc_indirect js blocklen l h dirty sfs =
      Ok (l', h || existsb (λ j, negb (default 0 (zget l' j) =? 0)) js, dirty', sfs') ∧
    (dirty' = false → l' = l ∧ dirty = false).
Proof.
  induction js as [|j js IH]; intros l h dirty sfs l' sfs' Hnd Hf; cbn [free_places trunc_indirect existsb] in *.
  - simplify_eq. exists dirty. by rewrite orb_false_r.
  - apply NoDup_cons in Hnd as [Hj Hnd].
    destruct (zget l j) as [x|] eqn:Ex; [|done]. cbn [deref mbind outcome_bind] in *.
    destruct ((blocklen <? SFS_NDIRECT + j) && negb (x =? 0)).
    + destruct (sfs_bfree x sfs) as [sfs1| | |]; try done. cbn [mbind outcome_bind] in *.
      destruct (zput l j 0) as [l1| | |] eqn:E; try done. cbn [mbind outcome_bind] in *.
      pose proof (free_places_outside _ _ _ _ _ _ j Hf Hj) as Hl. apply zput_Ok in E as [Hr ->].
      rewrite zget_zset_eq in Hl by done.
      destruct (IH _ h true _ _ _ Hnd Hf) as (d' & -> & Hd). exists d'. rewrite Hl. simpl. split; [done|].
      intros E. by destruct (Hd E).
    + pose proof (free_places_outside _ _ _ _ _ _ j Hf Hj) as Hl. rewrite Ex in Hl.
      destruct (IH _ (h || negb (x =? 0)) dirty _ _ _ Hnd Hf) as (d' & -> & Hd). exists d'. rewrite Hl. simpl.
      by rewrite orb_assoc.
Qed.

Lemma cut_cons {A} (i j : Z) is_ (cut : Z → bool) (a b : A) :
  (j = i → cut j = true → a = b) →
  (if decide (j ∈ i :: is_ ∧ cut j = true) then a else b) = if decide (j ∈ is_ ∧ cut j = true) then a else b.
Proof.
  intros Hab. destruct (decide (j ∈ is_ ∧ cut j = true)) as [[Hj Hc]|Hn].
  - rewrite decide_True; [done|]. split; [by right|done].
  - destruct (decide (j ∈ i :: is_ ∧ cut j = true)) as [[Hj Hc]|]; [|done].
    apply elem_of_cons in Hj as [->|Hj]; [by apply Hab|]. by destruct Hn.
Qed.

Lemma free_places_spec is_ cut : ∀ l sfs,
  sfs_wf sfs → NoDup is_ → Forall (λ i, 0 ≤ i < zlen l) is_ → NoDup (nonzero l) →
  (∀ b, b ∈ nonzero l → 0 < b < sb_nblocks (sfs_sb sfs) ∧ used sfs b = true) →
  ∃ l' sfs' fr, free_places is_ cut l sfs = Ok (l', sfs') ∧ released sfs fr sfs' ∧
    nonzero l ≡ₚ fr ++ nonzero l' ∧ zlen l' = zlen l ∧
    ∀ j, zget l' j = if decide (j ∈ is_ ∧ cut j = true) then (λ _, 0) <$> zget l j else zget l j.
Proof.
  induction is_ as [|i is_ IH]; intros l sfs Hwf Hnd Hr Hl Hu; cbn [free_places].
  - exists l, sfs, []. split_and!; auto using released_nil.
  - apply NoDup_cons in Hnd as [Hi Hnd]. apply Forall_cons in Hr as [Hir Hr].
    destruct (zget_range l i Hir) as [x Ex]. rewrite Ex. cbn [deref mbind outcome_bind].
    destruct (cut i) eqn:Ec; cbn [andb].
    2: { destruct (IH l sfs Hwf Hnd Hr Hl Hu) as (l' & sfs' & fr & E & Hre & Hp & Hlen & Hj).
         exists l', sfs', fr. split_and!; [done..|]. intros j. rewrite Hj, cut_cons; [done|]. intros ->. by rewrite Ec. }
    destruct (Z.eqb_spec x 0) as [->|Hx]; cbn [negb].
    { destruct (IH l sfs Hwf Hnd Hr Hl Hu) as (l' & sfs' & fr & E & Hre & Hp & Hlen & Hj).
      exists l', sfs', fr. split_and!; [done..|]. intros j. rewrite Hj, cut_cons; [done|]. intros -> _. by rewrite Ex. }
    pose proof (nonzero_remove l i x Ex Hx) as Hperm.
    assert (x ∈ nonzero l) as Hxl by (rewrite Hperm; by left). destruct (Hu x Hxl) as [Hxr Hxu].
    destruct (sfs_bfree_ok x sfs Hwf Hxr Hxu) as (sfs1 & -> & Hre1). cbn [mbind outcome_bind].
    unfold zput. rewrite decide_True by done. cbn [mbind outcome_bind].
    rewrite Hperm in Hl. apply NoDup_cons in Hl as [Hx' Hl].
    destruct (IH (zset l i 0) sfs1) as (l' & sfs' & fr & -> & Hre & Hp & Hlen & Hj);
      [apply Hre1|done|by rewrite zlen_zset|done| |].
    { intros b Hb. rewrite (re_sb _ _ _ Hre1). destruct (Hu b) as [Hb1 Hb2]; [rewrite Hperm; by right|].
      split; [done|]. rewrite (re_used _ _ _ Hre1) by lia.
      rewrite decide_False; [done|]. rewrite list_elem_of_singleton. by intros ->. }
    exists l', sfs', (x :: fr). split_and!; [done|by apply (released_trans sfs [x] sfs1 fr)| | |].
    + rewrite Hperm, Hp. done.
    + by rewrite Hlen, zlen_zset.
    + intros j. rewrite Hj. destruct (decide (j = i)) as [->|].
      * rewrite zget_zset_eq, Ex by done. rewrite decide_False by tauto. rewrite decide_True; [done|].
        split; [by left|done].
      * by rewrite zget_zset_ne, cut_cons by done.
Qed.

(** An inode that has given up blocks. *)
Record shrunk sfs sv sfs' sv' : Prop := {
  sh_sb : sfs_sb sfs' = sfs_sb sfs;
  sh_wf : sfs_wf sfs';
  sh_inode : inode_wf sfs' sv';
  sh_owned b : b ∈ owned sfs' sv' → b ∈ owned sfs sv;
  sh_used b : 0 ≤ b → used sfs' b = used sfs b && negb (bool_decide (b ∈ owned sfs sv ∧ b ∉ owned sfs' sv'));
  sh_other b : b ∉ owned sfs sv → sector sfs' b = sector sfs b;
  sh_ino : sv_ino sv' = sv_ino sv ∧ sfi_type (sv_i sv') = sfi_type (sv_i sv) ∧
           sfi_linkcount (sv_i sv') = sfi_linkcount (sv_i sv) ∧ sfi_waste (sv_i sv') = sfi_waste (sv_i sv);
  sh_fdirty : (sfs_freemap sfs' = sfs_freemap sfs ∧ sfs_freemapdirty sfs' = sfs_freemapdirty sfs) ∨
              sfs_freemapdirty sfs' = true
}.

Lemma shrunk_kept sfs sv sfs' sv' : shrunk sfs sv sfs' sv' → meta_kept (λ b, b ∉ owned sfs sv) sfs sfs'.
Proof. intros []. by constructor. Qed.

Lemma shrink sfs sv sfs1 fr sfs' sv' :
  sfs_wf sfs → inode_wf sfs sv → released sfs fr sfs1 → owned sfs sv ≡ₚ fr ++ owned sfs' sv' →
  length (sfi_direct (sv_i sv')) = 15%nat → sfs_wf sfs' → sfs_sb sfs' = sfs_sb sfs1 →
  sfs_freemap sfs' = sfs_freemap sfs1 → sfs_freemapdirty sfs' = sfs_freemapdirty sfs1 →
  (∀ b, b ∉ owned sfs sv → sector sfs' b = sector sfs b) →
  sv_ino sv' = sv_ino sv ∧ sfi_type (sv_i sv') = sfi_type (sv_i sv) ∧
    sfi_linkcount (sv_i sv') = sfi_linkcount (sv_i sv) ∧ sfi_waste (sv_i sv') = sfi_waste (sv_i sv) →
  shrunk sfs sv sfs' sv'.
Proof.
  intros Hwf Hin Hre Hp Hdl Hwf' Hsb Hfm Hfd Hsec Hino.
  assert (∀ b, used sfs' b = used sfs1 b) as Hu by (intros b; unfold used; by rewrite Hfm).
  pose proof (iw_nodup _ _ Hin) as Hnd. rewrite Hp in Hnd. apply NoDup_app in Hnd as (_ & Hdisj & Hnd).
  assert (∀ b, b ∈ owned sfs sv ↔ b ∈ fr ∨ b ∈ owned sfs' sv') as Hown
    by (intros b; by rewrite Hp, elem_of_app).
  constructor; try done.
  - by rewrite Hsb, (re_sb _ _ _ Hre).
  - constructor; [done|done|]. intros b Hb. rewrite Hu, Hsb, (re_sb _ _ _ Hre).
    destruct (iw_used _ _ Hin b) as [Hbr Hbu]; [apply Hown; by right|]. rewrite (re_used _ _ _ Hre) by lia.
    split; [done|]. rewrite decide_False; [done|]. intros Hf. by apply (Hdisj b).
  - intros b Hb. apply Hown. by right.
  - intros b Hb. rewrite Hu, (re_used _ _ _ Hre) by done. case_decide as Hd.
    + rewrite bool_decide_eq_true_2; [by rewrite andb_false_r|]. split; [apply Hown; by left|by apply Hdisj].
    + rewrite bool_decide_eq_false_2; [by rewrite andb_true_r|]. rewrite Hown. tauto.
  - rewrite Hfm, Hfd. apply Hre.
Qed.

(** The file blocks that [sfs_itrunc] keeps for a file of [n] blocks.  In the range of
    the indirect block it keeps one more than it should. *)
Definition kept (n i : Z) : bool := if i <? SFS_NDIRECT then i <? n else i <=? n.

Inductive itrunc_effect sfs sv (len : Z) : outcome (Z * sfs_vnode * sfs_fs) → Prop :=
| itrunc_done sfs' sv' :
    shrunk sfs sv sfs' sv' →
    (∀ i, fblock sfs' sv' i = if kept ((len + 511) / 512) i then fblock sfs sv i else 0) →
    (∀ b, b ≠ sfi_indirect (sv_i sv) → sector sfs' b = sector sfs b) →
    sfi_size (sv_i sv') = len → sv_dirty sv' = true →
    (len = 0 → owned sfs' sv' = []) →
    itrunc_effect sfs sv len (Ok (0, sv', sfs')).

Lemma nonzero_app l k : nonzero (l ++ k) = nonzero l ++ nonzero k.
Proof. apply filter_app. Qed.

Lemma nonzero_zeros l : (∀ x, x ∈ l → x = 0) → nonzero l = [].
Proof.
  intros Hz. destruct (nonzero l) as [|x k] eqn:E; [done|].
  assert (x ∈ nonzero l) as Hx by (rewrite E; by left). apply elem_of_nonzero in Hx as [Hne Hx]. by apply Hz in Hx.
Qed.

Lemma released_sector sfs l sfs' b : released sfs l sfs' → sector sfs' b = sector sfs b.
Proof. intros []. unfold sector. by rewrite re_sectors0. Qed.

(** The file blocks of an inode whose two arrays were cut. *)
Lemma fblock_parts sfs sv i : inode_wf sfs sv →
  fblock sfs sv i = default 0 (if i <? 15 then zget (sfi_direct (sv_i sv)) i
                               else zget (idwords sfs (sfi_indirect (sv_i sv))) (i - 15)).
Proof.
  intros Hin. pose proof (direct_length sfs sv Hin) as Hd. unfold fblock, fblocks.
  destruct (Z.ltb_spec i 15); [by rewrite zget_app_l by lia|]. by rewrite zget_app_r, Hd by lia.
Qed.

Lemma kept_out sfs sv n i : inode_wf sfs sv → 142 ≤ n → 15 ≤ i → kept n i = false → fblock sfs sv i = 0.
Proof.
  intros Hin Hn Hi. unfold kept, SFS_NDIRECT. destruct (Z.ltb_spec i 15); [lia|].
  destruct (Z.leb_spec i n); [done|]. intros _. apply fblock_out; [done|lia].
Qed.

Lemma owned_eq sfs sv :
  owned sfs sv = nonzero [sfi_indirect (sv_i sv)] ++ nonzero (sfi_direct (sv_i sv)) ++
    nonzero (idwords sfs (sfi_indirect (sv_i sv))).
Proof.
  unfold owned, table, fblocks. rewrite <-!nonzero_app. done.
Qed.

Section itrunc.
Context {Hrel : Reliable} (sfs : sfs_fs) (sv : sfs_vnode) (len : Z).
Context (Hwf : sfs_wf sfs) (Hin : inode_wf sfs sv) (Hlen : 0 ≤ len < two32).
Let n : Z := (len + 511) / 512.
Let ib : Z := sfi_indirect (sv_i sv).

Lemma owned_facts b : b ∈ owned sfs sv → 0 < b < sb_nblocks (sfs_sb sfs) ∧ used sfs b = true.
Proof.
  intros Hb. destruct (iw_used _ _ Hin b Hb) as [Hr Hu].
  assert (b ≠ 0) by (unfold owned in Hb; by apply elem_of_nonzero in Hb as [? _]). split; [lia|done].
Qed.

(** The loop over the direct blocks. *)
Lemma itrunc_direct : ∃ l sfs1 fr sv1,
  trunc_direct (seqZ 0 SFS_NDIRECT) n sv sfs = Ok (sv1, sfs1) ∧ released sfs fr sfs1 ∧
  sv_i sv1 = with_direct l (sv_i sv) ∧ sv_ino sv1 = sv_ino sv ∧
  nonzero (sfi_direct (sv_i sv)) ≡ₚ fr ++ nonzero l ∧ zlen l = 15 ∧
  ∀ j, default 0 (zget l j) = if kept n j then default 0 (zget (sfi_direct (sv_i sv)) j) else 0.
Proof.
  pose proof (direct_length sfs sv Hin) as Hdl. pose proof (iw_nodup _ _ Hin) as Hnd.
  rewrite owned_eq in Hnd. apply NoDup_app in Hnd as (_ & _ & Hnd). apply NoDup_app in Hnd as (Hnd & _ & _).
  destruct (free_places_spec (seqZ 0 15) (λ i, n <=? i) (sfi_direct (sv_i sv)) sfs Hwf)
    as (l & sfs1 & fr & E & Hre & Hp & Hl & Hj); [apply NoDup_seqZ| |done| |].
  { rewrite Hdl. apply Forall_seqZ. lia. }
  { intros b Hb. apply owned_facts. rewrite owned_eq, !elem_of_app. auto. }
  destruct (trunc_direct_places _ _ _ _ _ _ E) as (sv1 & E1 & E2 & E3).
  exists l, sfs1, fr, sv1. split_and!; [done..|lia|]. intros j. rewrite Hj. unfold kept, SFS_NDIRECT.
  destruct (zget (sfi_direct (sv_i sv)) j) eqn:Eg.
  - apply zget_Some_range in Eg as Hr. rewrite Hdl in Hr. destruct (Z.ltb_spec j 15); [|lia].
    assert (j ∈ seqZ 0 15) by (apply elem_of_seqZ; lia). destruct (Z.ltb_spec j n).
    + rewrite decide_False; [done|]. intros [_ Hc]. apply Z.leb_le in Hc. lia.
    + rewrite decide_True; [done|]. split; [done|]. by apply Z.leb_le.
  - case_decide; simpl; by destruct (if j <? 15 then _ else _).
Qed.

(** The state at the end, from the two arrays. *)
Lemma itrunc_result l fr sfs1 sfs' sv' :
  released sfs fr sfs1 → owned sfs sv ≡ₚ fr ++ owned sfs' sv' →
  sfs_wf sfs' → sfs_sb sfs' = sfs_sb sfs1 → sfs_freemap sfs' = sfs_freemap sfs1 →
  sfs_freemapdirty sfs' = sfs_freemapdirty sfs1 →
  sfi_direct (sv_i sv') = l → zlen l = 15 →
  (∀ j, default 0 (zget l j) = if kept n j then default 0 (zget (sfi_direct (sv_i sv)) j) else 0) →
  (∀ j, 0 ≤ j → default 0 (zget (idwords sfs' (sfi_indirect (sv_i sv'))) j) =
     if kept n (15 + j) then default 0 (zget (idwords sfs ib) j) else 0) →
  (∀ b, ¬ (b = ib ∧ ib ≠ 0) → sector sfs' b = sector sfs b) →
  sv_ino sv' = sv_ino sv ∧ sfi_type (sv_i sv') = sfi_type (sv_i sv) ∧
    sfi_linkcount (sv_i sv') = sfi_linkcount (sv_i sv) ∧ sfi_waste (sv_i sv') = sfi_waste (sv_i sv) →
  sfi_size (sv_i sv') = len → sv_dirty sv' = true → (n = 0 → sfi_indirect (sv_i sv') = 0) →
  itrunc_effect sfs sv len (Ok (0, sv', sfs')).
Proof.
  intros Hre Hp Hwf' Hsb Hfm Hfd Hdir Hl15 Hl Hw Hsec Hino Hsz Hdty Hzero.
  assert (shrunk sfs sv sfs' sv') as Hsh.
  { eapply shrink; try done.
    - rewrite Hdir. unfold zlen in Hl15. lia.
    - intros b Hb. apply Hsec. intros [-> Hne]. apply Hb. by apply indirect_owned. }
  assert (∀ i, fblock sfs' sv' i = if kept n i then fblock sfs sv i else 0) as Hfb.
  { intros i. rewrite (fblock_parts _ _ _ Hin), (fblock_parts _ _ _ (sh_inode _ _ _ _ Hsh)), Hdir.
    destruct (Z.ltb_spec i 15); [apply Hl|]. rewrite Hw by lia. by replace (15 + (i - 15)) with i by lia. }
  apply itrunc_done; try done.
  - intros b Hb. apply Hsec. by intros [? _].
  - intros ->. assert (n = 0) as Hn0 by done. unfold owned, table. rewrite Hzero by done.
    apply nonzero_zeros. intros x Hx. apply elem_of_cons in Hx as [->|Hx]; [done|].
    apply elem_of_zget in Hx as [i Hi]. pose proof (zget_Some_range _ _ _ Hi) as Hir. specialize (Hfb i).
    unfold fblock in Hfb at 1. rewrite Hi, Hn0 in Hfb. unfold kept, SFS_NDIRECT in Hfb. cbn [default from_option] in Hfb.
    destruct (Z.ltb_spec i 15); [destruct (Z.ltb_spec i 0)|destruct (Z.leb_spec i 0)]; done || lia.
Qed.

(** The loop over the indirect block. *)
Lemma itrunc_indirect sfs1 fr :
  released sfs fr sfs1 → (∀ b, b ∈ fr → b ∉ nonzero (idwords sfs ib)) →
  ∃ ws sfs2 fr2 dirty,
  trunc_indirect (seqZ 0 SFS_DBPERIDB) n (idwords sfs ib) false false sfs1 =
    Ok (ws, existsb (λ j, negb (default 0 (zget ws j) =? 0)) (seqZ 0 SFS_DBPERIDB), dirty, sfs2) ∧
  released sfs1 fr2 sfs2 ∧ nonzero (idwords sfs ib) ≡ₚ fr2 ++ nonzero ws ∧ zlen ws = 128 ∧
  (dirty = false → ws = idwords sfs ib) ∧
  ∀ j, 0 ≤ j → default 0 (zget ws j) = if kept n (15 + j) then default 0 (zget (idwords sfs ib) j) else 0.
Proof.
  intros Hre Hdisj. pose proof (idwords_length sfs ib) as Hil. pose proof (iw_nodup _ _ Hin) as Hnd.
  rewrite owned_eq in Hnd. apply NoDup_app in Hnd as (_ & _ & Hnd). apply NoDup_app in Hnd as (_ & _ & Hnd).
  destruct (free_places_spec (seqZ 0 128) (λ j, n <? SFS_NDIRECT + j) (idwords sfs ib) sfs1 (re_wf _ _ _ Hre))
    as (ws & sfs2 & fr2 & E & Hre2 & Hp & Hl & Hj); [apply NoDup_seqZ| |done| |].
  { rewrite Hil. apply Forall_seqZ. lia. }
  { intros b Hb. destruct (owned_facts b) as [Hr Hu]; [rewrite owned_eq, !elem_of_app; auto|].
    rewrite (re_sb _ _ _ Hre). split; [done|]. rewrite (re_used _ _ _ Hre) by lia.
    rewrite decide_False; [done|]. intros Hf. by apply (Hdisj b). }
  destruct (trunc_indirect_places _ _ _ false false _ _ _ (NoDup_seqZ 0 128) E) as (dirty & E1 & Hd).
  exists ws, sfs2, fr2, dirty. split_and!; [done|done|done|lia|naive_solver|]. intros j Hj0. rewrite Hj.
  unfold kept, SFS_NDIRECT. destruct (Z.ltb_spec (15 + j) 15); [lia|].
  destruct (zget (idwords sfs ib) j) eqn:Eg.
  - apply zget_Some_range in Eg as Hr. assert (j ∈ seqZ 0 128) by (apply elem_of_seqZ; lia).
    destruct (Z.leb_spec (15 + j) n).
    + rewrite decide_False; [done|]. intros [_ Hc]. apply Z.ltb_lt in Hc. lia.
    + rewrite decide_True; [done|]. split; [done|]. by apply Z.ltb_lt.
  - case_decide; simpl; by destruct (15 + j <=? n).
Qed.

Lemma blocklen_eq : u32 (Z.quot (len + SFS_BLOCKSIZE - 1) SFS_BLOCKSIZE) = n.
Proof.
  unfold n, SFS_BLOCKSIZE. rewrite Z.quot_div_nonneg by lia. replace (len + 512 - 1) with (len + 511) by lia.
  apply u32_id. unfold is_u32, two32 in *. Z.to_euclidean_division_equations. lia.
Qed.

(** The inode at the end. *)
Let final (l : list Z) (idblock : Z) : sfs_vnode :=
  SfsVnode (Dinode len (sfi_type (sv_i sv)) (sfi_linkcount (sv_i sv)) l idblock (sfi_waste (sv_i sv))) (sv_ino sv) true.

Section after_direct.
Context (l : list Z) (sfs1 : sfs_fs) (fr : list Z).
Context (Hre : released sfs fr sfs1) (Hp : nonzero (sfi_direct (sv_i sv)) ≡ₚ fr ++ nonzero l) (Hl15 : zlen l = 15).
Context (Hl : ∀ j, default 0 (zget l j) = if kept n j then default 0 (zget (sfi_direct (sv_i sv)) j) else 0).

Lemma after_sector b : sector sfs1 b = sector sfs b.
Proof. by apply (released_sector sfs fr). Qed.

Lemma after_idwords : idwords sfs1 ib = idwords sfs ib.
Proof. unfold idwords. by rewrite after_sector. Qed.

Lemma nonzero_one b : b ≠ 0 → nonzero [b] = [b].
Proof. intros Hb. unfold nonzero. by rewrite filter_cons, decide_True. Qed.

Lemma final_owned sfs' idblock :
  owned sfs' (final l idblock) = nonzero [idblock] ++ nonzero l ++ nonzero (idwords sfs' idblock).
Proof. apply owned_eq. Qed.

(** The indirect block was not looked at. *)
Lemma itrunc_skip : ib = 0 ∨ 142 ≤ n → itrunc_effect sfs sv len (Ok (0, final l ib, sfs1)).
Proof.
  intros Hc. apply (itrunc_result l fr sfs1); try done; [|apply Hre| | |].
  - rewrite final_owned, owned_eq, after_idwords. fold ib. rewrite Hp, <-!(assoc_L (++)). apply Permutation_app_swap_app.
  - cbn [final sv_i sfi_indirect]. intros j Hj. rewrite after_idwords. destruct (kept n (15 + j)) eqn:Ek; [done|].
    destruct Hc as [->|Hn]; [apply idword_hole|].
    pose proof (kept_out sfs sv n (15 + j) Hin Hn ltac:(lia) Ek) as Hz. rewrite (fblock_parts _ _ _ Hin) in Hz.
    destruct (Z.ltb_spec (15 + j) 15); [lia|]. by replace (15 + j - 15) with j in Hz by lia.
  - intros b _. apply after_sector.
  - intros Hn0. destruct Hc; [done|lia].
Qed.

Context (ws : list Z) (sfs2 : sfs_fs) (fr2 : list Z) (Hre2 : released sfs (fr ++ fr2) sfs2) (Hib : ib ≠ 0).
Context (Hp2 : nonzero (idwords sfs ib) ≡ₚ fr2 ++ nonzero ws) (Hw128 : zlen ws = 128).
Context (Hw : ∀ j, 0 ≤ j → default 0 (zget ws j) = if kept n (15 + j) then default 0 (zget (idwords sfs ib) j) else 0).

(** Some block of the indirect block stays. *)
Lemma itrunc_keep j sfs' :
  0 ≤ j < 128 → default 0 (zget ws j) ≠ 0 → sfs_wf sfs' → sfs_sb sfs' = sfs_sb sfs2 →
  sfs_freemap sfs' = sfs_freemap sfs2 → sfs_freemapdirty sfs' = sfs_freemapdirty sfs2 →
  idwords sfs' ib = ws → (∀ b, b ≠ ib → sector sfs' b = sector sfs b) →
  itrunc_effect sfs sv len (Ok (0, final l ib, sfs')).
Proof.
  intros Hj Hnz Hwf' Hsb Hfm Hfd Hid Hsec. apply (itrunc_result l (fr ++ fr2) sfs2); try done.
  - rewrite final_owned, owned_eq, Hid. fold ib. rewrite Hp, Hp2.
    rewrite <-!(assoc_L (++)), Permutation_app_swap_app. apply Permutation_app_head.
    rewrite (Permutation_app_swap_app (nonzero l) fr2). apply Permutation_app_swap_app.
  - cbn [final sv_i sfi_indirect]. intros k Hk. rewrite Hid. by apply Hw.
  - intros b Hb. apply Hsec. tauto.
  - intros Hn0. exfalso. rewrite Hw, Hn0 in Hnz by lia. unfold kept, SFS_NDIRECT in Hnz.
    destruct (Z.ltb_spec (15 + j) 15); [lia|]. by destruct (Z.leb_spec (15 + j) 0); [lia|].
Qed.

(** None does, and the indirect block is freed too. *)
Lemma itrunc_free :
  (∀ x, x ∈ ws → x = 0) → ∃ sfs', sfs_bfree ib sfs2 = Ok sfs' ∧ itrunc_effect sfs sv len (Ok (0, final l 0, sfs')).
Proof.
  intros Hz. assert (nonzero (idwords sfs ib) ≡ₚ fr2) as Hp3 by (rewrite Hp2, (nonzero_zeros ws Hz); by rewrite app_nil_r).
  assert (ib ∈ owned sfs sv) as Hio by (by apply indirect_owned).
  assert (ib ∉ fr ++ fr2) as Hnf.
  { pose proof (iw_nodup _ _ Hin) as Hnd. rewrite owned_eq in Hnd. fold ib in Hnd.
    apply NoDup_app in Hnd as (_ & Hnd & _). specialize (Hnd ib). rewrite Hp, Hp3 in Hnd. rewrite !elem_of_app in *.
    intros Hc. apply Hnd; [apply elem_of_nonzero; split; [done|by left]|]. tauto. }
  destruct (owned_facts ib Hio) as [Hr Hu].
  destruct (sfs_bfree_ok ib sfs2) as (sfs3 & -> & Hre3); [apply Hre2|by rewrite (re_sb _ _ _ Hre2)| |].
  { rewrite (re_used _ _ _ Hre2) by lia. by rewrite decide_False. }
  exists sfs3. split; [done|]. pose proof (released_trans _ _ _ _ _ Hre2 Hre3) as Hre23.
  apply (itrunc_result l ((fr ++ fr2) ++ [ib]) sfs3); try done; [|apply Hre3| |].
  - rewrite final_owned, owned_eq. fold ib. rewrite Hp, Hp3, nonzero_one by done.
    rewrite (nonzero_zeros (idwords sfs3 0)) by (intros x Hx; by apply elem_of_replicate_inv in Hx).
    rewrite (nonzero_zeros [0]) by (intros x Hx; by apply list_elem_of_singleton in Hx).
    rewrite app_nil_l, app_nil_r, <-!(assoc_L (++)). rewrite Permutation_app_swap_app. apply Permutation_app_head.
    rewrite (Permutation_app_comm (nonzero l) fr2), Permutation_app_swap_app. done.
  - cbn [final sv_i sfi_indirect]. intros j Hj. rewrite idword_hole, <-Hw by done. destruct (zget ws j) eqn:E; [|done].
    simpl. symmetry. apply Hz. apply elem_of_zget. eauto.
  - intros b _. by apply (released_sector _ _ _ _ Hre23).
Qed.

(** Writing the indirect block back, when it has changed. *)
Lemma itrunc_write_back (dirty : bool) sv1 :
  (dirty = false → ws = idwords sfs ib) →
  ∃ sfs3, (if dirty then '(result, sfs) ← fs_writeblock ib (words_bytes ws) sfs2; Ok (result, sv1, sfs)
           else Ok (0, sv1, sfs2)) = Ok (0, sv1, sfs3) ∧ sfs_wf sfs3 ∧ sfs_sb sfs3 = sfs_sb sfs2 ∧
    sfs_freemap sfs3 = sfs_freemap sfs2 ∧ sfs_freemapdirty sfs3 = sfs_freemapdirty sfs2 ∧
    idwords sfs3 ib = ws ∧ ∀ b, b ≠ ib → sector sfs3 b = sector sfs b.
Proof.
  intros Hd. assert (∀ b, sector sfs2 b = sector sfs b) as Hsec by (intros; by apply (released_sector _ _ _ _ Hre2)).
  destruct (indirect_range sfs sv Hwf Hin) as [Hir _]. fold ib in Hir. destruct dirty.
  - destruct (fs_writeblock_ok ib (words_bytes ws) sfs2 (re_wf _ _ _ Hre2)) as (sfs3 & -> & Hwr);
      [rewrite (re_sb _ _ _ Hre2); lia|rewrite length_words_bytes; unfold zlen in Hw128; lia|].
    exists sfs3. split; [done|]. split; [apply Hwr|]. split; [apply Hwr|]. split; [apply Hwr|]. split; [apply Hwr|]. split.
    + unfold idwords. destruct (Z.eqb_spec ib 0); [done|]. rewrite (wr_sector _ _ _ _ Hwr), decide_True by done.
      apply words_roundtrip_end; [unfold zlen in Hw128; lia|]. rewrite Forall_forall. intros x Hx.
      pose proof (lw_blocks _ (sw_device _ Hwf)). pose proof (sw_nblocks _ Hwf).
      destruct (decide (x = 0)) as [->|Hx0]; [width|].
      destruct (owned_facts x) as [Hr _]; [|width]. rewrite owned_eq, !elem_of_app. right; right.
      fold ib. rewrite Hp2. apply elem_of_app. right. by apply elem_of_nonzero.
    + intros b Hb. rewrite (wr_sector _ _ _ _ Hwr), decide_False by done. apply Hsec.
  - exists sfs2. split; [done|]. split; [apply Hre2|]. do 3 (split; [done|]).
    rewrite (Hd eq_refl). unfold idwords. rewrite Hsec. done.
Qed.

End after_direct.

Lemma final_eq l idblock sv1 : sv_i sv1 = with_direct l (sv_i sv) → sv_ino sv1 = sv_ino sv → idblock = ib →
  dirtied (with_size len (sv_i sv1)) sv1 = final l idblock ∧
  dirtied (with_size len (sv_i (dirtied (with_indirect 0 (sv_i sv1)) sv1))) (dirtied (with_indirect 0 (sv_i sv1)) sv1) = final l 0.
Proof. intros E1 E2 ->. unfold dirtied. cbn [sv_i sv_ino]. by rewrite E1, E2. Qed.

Lemma sfs_itrunc_spec : itrunc_effect sfs sv len (sfs_itrunc sv len sfs).
Proof.
  unfold sfs_itrunc. rewrite blocklen_eq.
  destruct itrunc_direct as (l & sfs1 & fr & sv1 & -> & Hre & Ei & Eino & Hp & Hl15 & Hl). rewrite bind_of_Ok.
  destruct (final_eq l ib sv1 Ei Eino eq_refl) as [F1 F2].
  assert (sfi_indirect (sv_i sv1) = ib) as -> by (by rewrite Ei).
  change (SFS_NDIRECT + SFS_DBPERIDB - 1) with 142. rewrite (u32_id len) by done.
  destruct ((n <? 142) && negb (ib =? 0)) eqn:Ecase; [|rewrite bind_of_Ok].
  2: { rewrite no_error. rewrite F1. apply (itrunc_skip l sfs1 fr); try done.
       destruct (Z.ltb_spec n 142); [|by right]. left. destruct (Z.eqb_spec ib 0); done. }
  apply andb_true_iff in Ecase as [Hn Hib]. apply Z.ltb_lt in Hn. apply negb_true_iff, Z.eqb_neq in Hib.
  destruct (indirect_range sfs sv Hwf Hin) as [Hir _]. fold ib in Hir.
  destruct (fs_readblock_ok ib iobuf0 sfs1 (re_wf _ _ _ Hre)) as (sfs2 & -> & Hsame);
    [rewrite (re_sb _ _ _ Hre); lia|done|]. rewrite bind_of_Ok. cbv beta iota. rewrite no_error.
  assert (bytes_words 128 (sector sfs1 ib) = idwords sfs ib) as ->.
  { rewrite (after_sector sfs1 fr) by done. unfold idwords. by destruct (Z.eqb_spec ib 0). }
  assert (released sfs fr sfs2) as Hre2.
  { rewrite <-(app_nil_r fr). by eapply released_trans, same_fs_released, Hre. }
  destruct (itrunc_indirect sfs2 fr Hre2) as (ws & sfs3 & fr2 & dirty & -> & Hre3 & Hp2 & Hw128 & Hdirty & Hw).
  { intros b Hb Hb2. pose proof (iw_nodup _ _ Hin) as Hnd. rewrite owned_eq, Hp in Hnd.
    apply NoDup_app in Hnd as (_ & _ & Hnd). apply NoDup_app in Hnd as (_ & Hnd & _).
    apply (Hnd b); [apply elem_of_app; by left|done]. }
  rewrite bind_of_Ok. pose proof (released_trans _ _ _ _ _ Hre2 Hre3) as Hre23.
  destruct (existsb _ _) eqn:Esome; cbn [negb].
  - destruct (itrunc_write_back fr ws sfs3 fr2 Hre23 Hib Hp2 Hw128 dirty sv1 Hdirty)
      as (sfs4 & -> & Hwf4 & Hsb4 & Hfm4 & Hfd4 & Hid4 & Hsec4).
    rewrite bind_of_Ok. cbv beta iota. rewrite no_error. rewrite F1.
    apply existsb_exists in Esome as (j & Hj & Hnz). apply list_elem_of_In, elem_of_seqZ in Hj.
    apply negb_true_iff, Z.eqb_neq in Hnz. by apply (itrunc_keep l fr Hp Hl15 Hl ws sfs3 fr2 Hre23 Hib Hp2 Hw j).
  - destruct (itrunc_free l fr Hp Hl15 Hl ws sfs3 fr2 Hre23 Hib Hp2 Hw) as (sfs4 & -> & Heff).
    { intros x Hx. apply elem_of_zget in Hx as [j Hj]. pose proof (zget_Some_range _ _ _ Hj) as Hr.
      destruct (decide (x = 0)) as [|Hx0]; [done|]. exfalso. apply not_true_iff_false in Esome. apply Esome.
      apply existsb_exists. exists j. split; [apply list_elem_of_In, elem_of_seqZ; unfold SFS_DBPERIDB; lia|].
      rewrite Hj. simpl. by apply negb_true_iff, Z.eqb_neq. }
    rewrite !bind_of_Ok. cbv beta iota. rewrite no_error, F2. done.
Qed.

End itrunc.

End trunc.
