(* ===== verification/SfsIo.v ===== *)
(** * SFS file I/O (kern/fs/sfs/sfs_io.c)

    [sfs_partialio], [sfs_blockio], [sfs_io] and [sfs_metaio].  The contents of a
    file are the bytes [fbyte]: 143 blocks with zeros in the holes.  Reading moves
    the bytes of the file up to its size to the memory of the uio; writing stores
    the bytes of that memory in the file and changes nothing else on the volume. *)

From stdpp Require Import base gmap list list_numbers.
From Stdlib Require Import ZArith Lia.
From S2P Require Import Prelude FrameTable CopyInOut Uio Lhd Bitmap SfsDisk SfsBmap.
Open Scope Z_scope.

Implicit Types (u : uio) (m : memory) (sfs : sfs_fs) (sv : sfs_vnode).

Definition with_resid (n : Z) u : uio := Uio (uio_iov u) (uio_offset u) n (uio_segflg u) (uio_dir u) (uio_space u).
Definition with_offset (o : Z) u : uio := Uio (uio_iov u) o (uio_resid u) (uio_segflg u) (uio_dir u) (uio_space u).

Definition writing u : bool := match uio_dir u with UIO_WRITE => true | UIO_READ => false end.

Section io.
Context `{Hardware}.

(** The result, the vnode, the uio, the memory it describes and the volume. *)
Definition io_state : Type := Z * sfs_vnode * uio * memory * sfs_fs.

(** [sfs_rwblock] on the device of the volume. *)
Definition fs_rwblock u m sfs : outcome (Z * uio * memory * sfs_fs) :=
  '(result, u, m, lh) ← sfs_rwblock u m (sfs_device sfs);
  Ok (result, u, m, with_device lh sfs).

Definition sfs_partialio sv u m (skipstart len : Z) sfs : outcome io_state :=
  let doalloc := writing u in
  _ ← kassert (skipstart + len <=? SFS_BLOCKSIZE);
  let fileblock := u32 (uio_offset u / SFS_BLOCKSIZE) in
  '(result, diskblock, sv, sfs) ← sfs_bmap sv fileblock doalloc sfs;
  if negb (result =? 0) then Ok (result, sv, u, m, sfs)
  else
    '(result, iobuf, sfs) ←
      (if diskblock =? 0 then
        _ ← kassert (negb (writing u));
        Ok (0, replicate 512 0, sfs)
      else fs_readblock diskblock iobuf0 sfs);
    if negb (result =? 0) then Ok (result, sv, u, m, sfs)
    else
      '(result, part, u, m) ← uiomove (drop (Z.to_nat skipstart) iobuf) len u m;
      let iobuf := take (Z.to_nat skipstart) iobuf ++ part in
      if negb (result =? 0) then Ok (result, sv, u, m, sfs)
      else if writing u then
        '(result, sfs) ← fs_writeblock diskblock iobuf sfs;
        Ok (result, sv, u, m, sfs)
      else Ok (0, sv, u, m, sfs).

Definition sfs_blockio sv u m sfs : outcome io_state :=
  let doalloc := writing u in
  let fileblock := u32 (uio_offset u / SFS_BLOCKSIZE) in
  '(result, diskblock, sv, sfs) ← sfs_bmap sv fileblock doalloc sfs;
  if negb (result =? 0) then Ok (result, sv, u, m, sfs)
  else if diskblock =? 0 then
    _ ← kassert (negb (writing u));
    '(result, u, m) ← uiomovezeros SFS_BLOCKSIZE u m;
    Ok (result, sv, u, m, sfs)
  else
    let saveoff := uio_offset u in
    let diskoff := u32 (diskblock * SFS_BLOCKSIZE) in
    _ ← kassert (SFS_BLOCKSIZE <=? uio_resid u);
    let saveres := uio_resid u in
    let diskres := SFS_BLOCKSIZE in
    '(result, u, m, sfs) ← fs_rwblock (with_resid diskres (with_offset diskoff u)) m sfs;
    Ok (result, sv,
        with_resid (u32 (uio_resid u - diskres + saveres)) (with_offset (s64 (uio_offset u - diskoff + saveoff)) u),
        m, sfs).

(** The loop over the whole blocks. *)
Fixpoint sfs_io_blocks (nblocks : nat) sv u m sfs : outcome io_state :=
  match nblocks with
  | O => Ok (0, sv, u, m, sfs)
  | S nblocks =>
      '(result, sv, u, m, sfs) ← sfs_blockio sv u m sfs;
      if negb (result =? 0) then Ok (result, sv, u, m, sfs)
      else sfs_io_blocks nblocks sv u m sfs
  end.

(** [sfs_io] up to the label [out]. *)
Definition sfs_io_body sv u m sfs : outcome io_state :=
  let blkoff := u32 (uio_offset u mod SFS_BLOCKSIZE) in
  '(result, sv, u, m, sfs) ←
    (if negb (blkoff =? 0) then
      let len := SFS_BLOCKSIZE - blkoff in
      let len := if uio_resid u <? len then uio_resid u else len in
      sfs_partialio sv u m blkoff len sfs
    else Ok (0, sv, u, m, sfs));
  if negb (result =? 0) then Ok (result, sv, u, m, sfs)
  else if uio_resid u =? 0 then Ok (0, sv, u, m, sfs)
  else
    _ ← kassert (uio_offset u mod SFS_BLOCKSIZE =? 0);
    let nblocks := uio_resid u / SFS_BLOCKSIZE in
    '(result, sv, u, m, sfs) ← sfs_io_blocks (Z.to_nat nblocks) sv u m sfs;
    if negb (result =? 0) then Ok (result, sv, u, m, sfs)
    else
      _ ← kassert (uio_resid u <? SFS_BLOCKSIZE);
      if 0 <? uio_resid u then sfs_partialio sv u m 0 (uio_resid u) sfs
      else Ok (0, sv, u, m, sfs).

(** The adjustment of the file length at [out]. *)
Definition set_length (origresid : Z) sv u : sfs_vnode :=
  if negb (uio_resid u =? origresid) && writing u && (sfi_size (sv_i sv) <? uio_offset u)
  then dirtied (with_size (u32 (uio_offset u)) (sv_i sv)) sv else sv.

Definition sfs_io sv u m sfs : outcome io_state :=
  let origresid := uio_resid u in
  let size := sfi_size (sv_i sv) in
  let endpos := s64 (uio_offset u + uio_resid u) in
  if negb (writing u) && (size <=? uio_offset u) then Ok (0, sv, u, m, sfs)
  else
    let extraresid := if negb (writing u) && (size <? endpos) then u32 (endpos - size) else 0 in
    _ ← kassert (writing u || (endpos <=? size) || (extraresid <? uio_resid u));
    '(result, sv, u, m, sfs) ← sfs_io_body sv (with_resid (u32 (uio_resid u - extraresid)) u) m sfs;
    Ok (result, set_length origresid sv u, with_resid (u32 (uio_resid u + extraresid)) u, m, sfs).

(** The result, the data, the vnode and the volume. *)
Definition sfs_metaio sv (actualpos : Z) (data : list Z) (rw : uio_rw) sfs : outcome (Z * list Z * sfs_vnode * sfs_fs) :=
  let len := zlen data in
  let vnblock := u32 (actualpos / SFS_BLOCKSIZE) in
  let blockoffset := u32 (actualpos mod SFS_BLOCKSIZE) in
  let doalloc := match rw with UIO_WRITE => true | UIO_READ => false end in
  '(result, diskblock, sv, sfs) ← sfs_bmap sv vnblock doalloc sfs;
  if negb (result =? 0) then Ok (result, data, sv, sfs)
  else if diskblock =? 0 then
    _ ← kassert (negb doalloc);
    Ok (0, replicate (length data) 0, sv, sfs)
  else
    '(result, metaiobuf, sfs) ← fs_readblock diskblock iobuf0 sfs;
    if negb (result =? 0) then Ok (result, data, sv, sfs)
    else if 512 <? blockoffset + len then Fault
    else
      match rw with
      | UIO_READ => Ok (0, take (length data) (drop (Z.to_nat blockoffset) metaiobuf), sv, sfs)
      | UIO_WRITE =>
          let metaiobuf := take (Z.to_nat blockoffset) metaiobuf ++ data ++
                           drop (Z.to_nat blockoffset + length data) metaiobuf in
          '(result, sfs) ← fs_writeblock diskblock metaiobuf sfs;
          if negb (result =? 0) then Ok (result, data, sv, sfs)
          else
            let endpos := actualpos + len in
            Ok (0, data, (if sfi_size (sv_i sv) <? endpos
                          then dirtied (with_size (u32 endpos) (sv_i sv)) sv else sv), sfs)
      end.

(** ** Bytes of a file *)

Definition fbyte sfs sv (k : Z) : Z := default 0 (zget (fdata sfs sv (k / 512)) (k mod 512)).
Definition frange sfs sv (off n : Z) : list Z := map (fbyte sfs sv) (seqZ off n).

(** The bytes [bs] have been stored at [off], and nothing else. *)
Definition stored (off : Z) (bs : list Z) sfs sv sfs' sv' : Prop :=
  ∀ k, 0 ≤ k → fbyte sfs' sv' k = if decide (off ≤ k < off + zlen bs) then default 0 (zget bs (k - off)) else fbyte sfs sv k.

Lemma fdata_length sfs sv i : sfs_wf sfs → length (fdata sfs sv i) = 512%nat.
Proof. intros Hwf. unfold fdata, bdata. destruct (_ =? 0); [done|by apply sector_length]. Qed.

Lemma zlen_frange sfs sv off n : 0 ≤ n → zlen (frange sfs sv off n) = n.
Proof. intros. unfold zlen, frange. rewrite length_map, length_seqZ. lia. Qed.

Lemma fbyte_block sfs sv i t : 0 ≤ t < 512 → fbyte sfs sv (i * 512 + t) = default 0 (zget (fdata sfs sv i) t).
Proof.
  intros Ht. unfold fbyte. rewrite Z.div_add_l, (Z.div_small t) by lia. rewrite Z.add_0_r.
  by rewrite Z.add_comm, Z.mod_add, (Z.mod_small t) by lia.
Qed.

Lemma frange_block sfs sv i skip n : sfs_wf sfs → 0 ≤ skip → 0 ≤ n → skip + n ≤ 512 →
  take (Z.to_nat n) (drop (Z.to_nat skip) (fdata sfs sv i)) = frange sfs sv (i * 512 + skip) n.
Proof.
  intros Hwf Hs Hn Hsn. pose proof (fdata_length sfs sv i Hwf) as Hl. apply list_eq. intros t.
  unfold frange. change (map ?f ?l) with (f <$> l). rewrite list_lookup_fmap.
  destruct (decide (Z.of_nat t < n)) as [Ht|Ht].
  - rewrite lookup_take_lt, lookup_drop, lookup_seqZ_lt by lia. cbn [fmap option_fmap option_map].
    rewrite <-Z.add_assoc, fbyte_block by lia. unfold zget. rewrite decide_True by lia.
    replace (Z.to_nat (skip + Z.of_nat t)) with (Z.to_nat skip + t)%nat by lia.
    destruct (lookup_lt_is_Some_2 (fdata sfs sv i) (Z.to_nat skip + t)) as [x Hx]; [lia|]. by rewrite Hx.
  - rewrite lookup_seqZ_ge by lia. rewrite lookup_take_ge by lia. done.
Qed.

Lemma frange_app sfs sv off n1 n2 : 0 ≤ n1 → 0 ≤ n2 →
  frange sfs sv off (n1 + n2) = frange sfs sv off n1 ++ frange sfs sv (off + n1) n2.
Proof. intros. unfold frange. rewrite seqZ_app by lia. by rewrite map_app. Qed.

Lemma frange_same sfs sv sfs' sv' off n : same_data sfs sv sfs' sv' → frange sfs' sv' off n = frange sfs sv off n.
Proof. intros [Hd _]. unfold frange. apply map_ext. intros k. unfold fbyte. by rewrite Hd. Qed.

(** ** Transfers in several parts *)

Lemma moved_ptr n p q u m e u' m' :
  uio_dir u = UIO_READ → take (Z.to_nat n) p = take (Z.to_nat n) q → 
  moved n p u m (e, p, u', m') → moved n q u m (e, q, u', m').
Proof.
  unfold moved. intros -> Hpq (j & Hj & Ha & Hwf & _ & Hs & _ & Hm). exists j.
  rewrite Hpq in Hm. do 6 (split; [done|]). done.
Qed.

Lemma zeroed_moved n u m e u' m' :
  uio_dir u = UIO_READ → zeroed n u m (e, u', m') →
  moved n (replicate (Z.to_nat n) 0) u m (e, replicate (Z.to_nat n) 0, u', m').
Proof.
  unfold moved, zeroed. intros -> (j & Hj & Ha & Hwf & Hs & Hm). exists j.
  do 6 (split; [done|]).
  by rewrite (take_ge (replicate (Z.to_nat n) 0)) by (by rewrite length_replicate).
Qed.

Lemma advanced_dir j u u' : advanced j u u' → uio_dir u' = uio_dir u ∧ uio_segflg u' = uio_segflg u.
Proof. by intros (_ & _ & _ & ? & ? & _). Qed.

Lemma Forall_write_same m m' seg l : same_space m m' → Forall (can_write m' seg) l ↔ Forall (can_write m seg) l.
Proof. intros Hs. rewrite !Forall_forall. split; intros Hf a Ha; apply (can_write_same m m'); auto. Qed.

Lemma take_addrs_split u n1 n2 : 0 ≤ n1 → 0 ≤ n2 →
  take (Z.to_nat (n1 + n2)) (uio_addrs u) =
    take (Z.to_nat n1) (uio_addrs u) ++ take (Z.to_nat n2) (drop (Z.to_nat n1) (uio_addrs u)).
Proof. intros. rewrite (take_split _ (n1 + n2) n1) by lia. do 3 f_equal. lia. Qed.

Lemma moved_cat n1 n2 p1 p2 u m u1 m1 e u2 m2 :
  uio_wf m u → uio_dir u = UIO_READ → 0 ≤ n1 ≤ uio_resid u → 0 ≤ n2 → zlen p1 = n1 →
  moved n1 p1 u m (0, p1, u1, m1) → moved n2 p2 u1 m1 (e, p2, u2, m2) →
  moved (n1 + n2) (p1 ++ p2) u m (e, p1 ++ p2, u2, m2).
Proof.
  intros Hwf Hd Hn1 Hn2 Hp1 (j1 & Hj1 & Ha1 & Hwf1 & _ & Hs1 & H1) (j2 & Hj2 & Ha2 & Hwf2 & _ & Hs2 & H2).
  destruct (advanced_dir _ _ _ Ha1) as [Hd1 Hseg1]. rewrite Hd1, Hseg1, Hd in H2. rewrite Hd in H1.
  destruct H1 as [_ H1], H2 as [_ H2]. unfold moved. rewrite Hd.
  destruct (decide (Forall (can_write m _) (take (Z.to_nat n1) _))) as [Hw1|]; [|by destruct H1].
  destruct H1 as (_ & -> & Hm1).
  exists (n1 + j2). split; [lia|]. split; [eapply advanced_trans; [lia|lia|done|done]|]. split; [done|]. split; [done|].
  split; [by transitivity m1|]. split; [done|]. rewrite take_addrs_split by lia. pose proof (proj1 Ha1) as Haddr. rewrite Haddr in H2.
  pose proof (Forall_write_same m m1 (uio_segflg u) (take (Z.to_nat n2) (drop (Z.to_nat n1) (uio_addrs u))) Hs1) as Hiff.
  assert (length p1 = Z.to_nat n1) as Hlp by (unfold zlen in Hp1; lia).
  case_decide as Hw2; case_decide as Hw; rewrite ?Forall_app in *; try tauto.
  destruct H2 as (-> & -> & ->). split_and!; [done|done|].
  assert (length (take (Z.to_nat n1) (uio_addrs u)) = length p1) as Hlt
    by (rewrite length_take; destruct (uw_resid _ _ Hwf); unfold zlen in *; lia).
  assert (take (Z.to_nat (n1 + n2)) (p1 ++ p2) = p1 ++ take (Z.to_nat n2) p2) as ->
    by (rewrite Z2Nat.inj_add, <-Hlp by lia; apply take_app_add).
  rewrite mput_app by done. f_equal. rewrite Hm1. by rewrite (take_ge p1) by lia.
Qed.

Lemma moved_stop n1 n2 p1 p2 u m u1 m1 :
  uio_dir u = UIO_READ → 0 ≤ n1 → 0 ≤ n2 → moved n1 p1 u m (EFAULT, p1, u1, m1) →
  moved (n1 + n2) (p1 ++ p2) u m (EFAULT, p1 ++ p2, u1, m1).
Proof.
  intros Hd Hn1 Hn2 (j & Hj & Ha & Hwf1 & _ & Hs & H1). unfold moved. rewrite Hd in *. destruct H1 as [_ H1].
  exists j. split; [lia|]. do 5 (split; [done|]). rewrite take_addrs_split by lia.
  destruct (decide (Forall (can_write m (uio_segflg u)) (take (Z.to_nat n1) (uio_addrs u)))) as [Hw|Hw]; [by destruct H1|].
  rewrite decide_False by (rewrite Forall_app; tauto). done.
Qed.

(** ** Reading *)

Section reading.
Context {Hrel : Reliable}.

(** A kernel uio whose memory exists. *)
Definition kernel_uio m u : Prop := kernel_ok m (uio_segflg u) (uio_dir u) (uio_addrs u).

Lemma kernel_take n m u : kernel_uio m u → kernel_ok m (uio_segflg u) (uio_dir u) (take n (uio_addrs u)).
Proof. intros Hk Hs. apply Forall_take. by apply Hk. Qed.

Lemma kernel_advanced j m m' u u' : kernel_uio m u → advanced j u u' → same_space m m' → kernel_uio m' u'.
Proof.
  intros Hk (Ha & _ & _ & Hs & Hd & _) Hsp. unfold kernel_uio. rewrite Ha, Hs, Hd. intros Hsys.
  apply Forall_drop. specialize (Hk Hsys). eapply Forall_impl; [exact Hk|]. intros a. by apply can_write_same.
Qed.

(** What a read of [n] bytes does. *)
Definition reads (n : Z) sv u m sfs (r : outcome io_state) : Prop :=
  ∃ e u' m' sfs', r = Ok (e, sv, u', m', sfs') ∧ same_fs sfs sfs' ∧
    moved n (frange sfs sv (uio_offset u) n) u m (e, frange sfs sv (uio_offset u) n, u', m').

(** The block of a position, without the conversion to 32 bits. *)
Lemma fileblock_eq u m : uio_wf m u → uio_offset u < 2199023255552 →
  u32 (uio_offset u / SFS_BLOCKSIZE) = uio_offset u / 512 ∧ 0 ≤ uio_offset u / 512.
Proof.
  intros Hwf Ho. pose proof (uw_offset _ _ Hwf). unfold SFS_BLOCKSIZE. split; [|apply Z.div_pos; lia].
  apply u32_id. unfold is_u32, two32 in *. Z.to_euclidean_division_equations. lia.
Qed.

Lemma reads_intro n sv u m sfs p e u' m' sfs' :
  uio_dir u = UIO_READ → same_fs sfs sfs' → take (Z.to_nat n) p = frange sfs sv (uio_offset u) n → 0 ≤ n →
  moved n p u m (e, p, u', m') → reads n sv u m sfs (Ok (e, sv, u', m', sfs')).
Proof.
  intros Hd Hs Hp Hn Hm. exists e, u', m', sfs'. split; [done|]. split; [done|].
  eapply moved_ptr; [done| |exact Hm]. rewrite Hp, take_ge; [done|].
  pose proof (zlen_frange sfs sv (uio_offset u) n Hn). unfold zlen in *. lia.
Qed.

Lemma partialio_read sv u m len sfs :
  sfs_wf sfs → inode_wf sfs sv → uio_wf m u → kernel_uio m u → uio_dir u = UIO_READ →
  uio_offset u < 73216 → 0 ≤ len ≤ uio_resid u → uio_offset u mod 512 + len ≤ 512 →
  reads len sv u m sfs (sfs_partialio sv u m (uio_offset u mod 512) len sfs).
Proof.
  intros Hwf Hin Hu Hk Hd Ho Hlen Hsk. destruct (fileblock_eq u m Hu) as [Efb Hfb]; [lia|].
  pose proof (Z.mod_pos_bound (uio_offset u) 512 ltac:(lia)) as Hmod.
  assert (uio_offset u = uio_offset u / 512 * 512 + uio_offset u mod 512) as Hoff by (Z.to_euclidean_division_equations; lia).
  assert (uio_offset u / 512 < 143) as Hfb2 by (Z.to_euclidean_division_equations; lia).
  unfold sfs_partialio, writing. rewrite Hd, Efb.
  rewrite (proj2 (Z.leb_le _ _)) by (unfold SFS_BLOCKSIZE; lia). change (kassert true) with (Ok tt). rewrite bind_of_Ok.
  set (i := uio_offset u / 512) in *. set (skip := uio_offset u mod 512) in *.
  destruct (sfs_bmap_spec sfs sv i false Hwf Hin Hfb) as [|? ? ? ?|block sv' sfs1 _ -> Hg Hdat _ Hsame]; [lia|done|].
  destruct Hsame as [-> Hsame]; [by left|]. rewrite bind_of_Ok. cbv beta iota. rewrite no_error.
  rewrite (same_fs_fblock sfs sfs1) by done.
  assert (∃ sfs2, (if fblock sfs sv i =? 0 then _ ← kassert (negb false); Ok (0, replicate 512 0, sfs1)
                   else fs_readblock (fblock sfs sv i) iobuf0 sfs1) = Ok (0, fdata sfs sv i, sfs2) ∧ same_fs sfs sfs2)
    as (sfs2 & -> & Hs2).
  { unfold fdata, bdata. destruct (Z.eqb_spec (fblock sfs sv i) 0) as [|Hne]; [by exists sfs1|].
    destruct (fblock_range sfs sv Hwf Hin i) as [Hr _].
    destruct (fs_readblock_ok (fblock sfs sv i) iobuf0 sfs1) as (sfs2 & -> & Hs2); [by apply Hsame|by rewrite (sf_sb _ _ Hsame)|done|].
    exists sfs2. rewrite (same_fs_sector sfs sfs1) by done. split; [done|]. by eapply same_fs_trans. }
  rewrite bind_of_Ok. cbv beta iota. rewrite no_error.
  pose proof (fdata_length sfs sv i Hwf) as Hfl.
  destruct (uiomove_spec (drop (Z.to_nat skip) (fdata sfs sv i)) len u m Hu Hlen) as ([[[e p] u'] m'] & -> & Hm).
  { unfold zlen. rewrite length_drop. lia. }
  { by apply kernel_take. }
  rewrite bind_of_Ok. cbv beta iota zeta.
  assert (p = drop (Z.to_nat skip) (fdata sfs sv i) ∧ uio_dir u' = UIO_READ) as [-> Hd'].
  { unfold moved in Hm. rewrite Hd in Hm. destruct Hm as (j & _ & Ha & _ & _ & _ & -> & _).
    destruct (advanced_dir _ _ _ Ha). split; [done|congruence]. }
  rewrite Hd'. assert (reads len sv u m sfs (Ok (e, sv, u', m', sfs2))) as Hr.
  { eapply reads_intro; [done|done| |lia|exact Hm]. rewrite frange_block by (done || lia). by rewrite <-Hoff. }
  by destruct (Z.eqb_spec e 0) as [->|].
Qed.

(** The uio that [sfs_blockio] gives to the device, and what is made of it. *)
Section redirect.
Context (u : uio) (m : memory) (b : Z) (sfs : sfs_fs).
Context (Hwf : sfs_wf sfs) (Hu : uio_wf m u) (Hk : kernel_uio m u) (Hb : 0 ≤ b < sb_nblocks (sfs_sb sfs)) (Hr : 512 ≤ uio_resid u).

Definition to_disk : uio := with_resid SFS_BLOCKSIZE (with_offset (u32 (b * SFS_BLOCKSIZE)) u).
Definition from_disk (u' : uio) : uio :=
  with_resid (u32 (uio_resid u' - SFS_BLOCKSIZE + uio_resid u))
    (with_offset (s64 (uio_offset u' - u32 (b * SFS_BLOCKSIZE) + uio_offset u)) u').

Lemma diskoff_eq : u32 (b * SFS_BLOCKSIZE) = b * 512.
Proof.
  pose proof (lw_blocks _ (sw_device _ Hwf)). pose proof (sw_nblocks _ Hwf). apply u32_id. unfold SFS_BLOCKSIZE. width.
Qed.

Lemma to_disk_block : block_uio b to_disk m (sfs_device sfs).
Proof.
  pose proof (lw_blocks _ (sw_device _ Hwf)) as Hlim. pose proof (sw_nblocks _ Hwf) as Hn.
  destruct Hu as [U1 U2 U3 U4]. constructor.
  - constructor; [done| |cbn [to_disk with_resid with_offset uio_offset uio_resid]; rewrite diskoff_eq; unfold SFS_BLOCKSIZE; width|done].
    change (uio_addrs to_disk) with (uio_addrs u). cbn [to_disk with_resid uio_resid]. unfold SFS_BLOCKSIZE. width.
  - by apply kernel_take.
  - cbn [to_disk with_resid with_offset uio_offset]. apply diskoff_eq.
  - done.
  - lia.
Qed.

Lemma from_disk_advanced j u' m' :
  0 ≤ j ≤ 512 → advanced j to_disk u' → uio_wf m' u' → advanced j u (from_disk u') ∧ uio_wf m' (from_disk u').
Proof.
  intros Hj (A1 & A2 & A3 & A4 & A5 & A6) [U1 U2 U3 U4]. destruct Hu as [V1 V2 V3 V4].
  cbn [to_disk with_resid with_offset uio_offset uio_resid uio_segflg uio_dir uio_space] in *.
  rewrite diskoff_eq in A2. unfold SFS_BLOCKSIZE in *.
  assert (u32 (uio_resid u' - SFS_BLOCKSIZE + uio_resid u) = uio_resid u - j) as Er
    by (rewrite A3; unfold SFS_BLOCKSIZE; rewrite u32_id; width).
  assert (s64 (uio_offset u' - u32 (b * SFS_BLOCKSIZE) + uio_offset u) = uio_offset u + j) as Eo
    by (rewrite diskoff_eq, A2, s64_id; width).
  assert (uio_addrs u' = drop (Z.to_nat j) (uio_addrs u)) as Ea by exact A1.
  unfold from_disk, with_resid, with_offset. split.
  - unfold advanced. cbn [uio_offset uio_resid uio_segflg uio_dir uio_space]. rewrite Er, Eo.
    split_and!; try done.
  - constructor; cbn [uio_iov uio_offset uio_resid uio_segflg uio_space]; rewrite ?Er, ?Eo; try done.
    + unfold uio_addrs in *. cbn [uio_iov]. rewrite Ea. unfold zlen in *. rewrite length_drop. lia.
    + lia.
Qed.

End redirect.

Lemma fs_rwblock_read u m b sfs :
  sfs_wf sfs → block_uio b u m (sfs_device sfs) → uio_dir u = UIO_READ →
  ∃ e u' m' sfs', fs_rwblock u m sfs = Ok (e, u', m', sfs') ∧ same_fs sfs sfs' ∧
    moved 512 (sector sfs b) u m (e, sector sfs b, u', m').
Proof.
  intros Hwf Hbu Hd. destruct (zget_range _ _ (bu_block _ _ _ _ Hbu)) as [s Es].
  destruct (sfs_rw_read 10 b u m (sfs_device sfs) s (sw_device _ Hwf) Hbu Hd Es) as (lh & [Hls Hlw] & Hr).
  rewrite decide_True in Hr by (left; apply reliable). destruct Hr as (e & u' & m' & E & Hm).
  exists e, u', m', (with_device lh sfs). unfold fs_rwblock, sfs_rwblock. rewrite E. split; [done|].
  assert (sector sfs b = s) as -> by (unfold sector; by rewrite Es). split; [|done].
  constructor; try done. intros _. apply with_device_wf; [apply Hlw, Hwf|unfold d_blocks; by rewrite Hls|done].
Qed.

Lemma moved_redirect u m b sfs p e u' m' :
  sfs_wf sfs → uio_wf m u → 0 ≤ b < sb_nblocks (sfs_sb sfs) → 512 ≤ uio_resid u →
  moved 512 p (to_disk u b) m (e, p, u', m') → moved 512 p u m (e, p, from_disk u b u', m').
Proof.
  intros Hwf Hu Hb Hr (j & Hj & Ha & Hwf' & Hrest). exists j. split; [done|].
  destruct (from_disk_advanced u m b sfs Hwf Hu Hb Hr j u' m' Hj Ha Hwf') as [Ha' Hw']. by do 2 (split; [done|]).
Qed.

Lemma blockio_read sv u m sfs :
  sfs_wf sfs → inode_wf sfs sv → uio_wf m u → kernel_uio m u → uio_dir u = UIO_READ →
  uio_offset u < 73216 → uio_offset u mod 512 = 0 → 512 ≤ uio_resid u →
  reads 512 sv u m sfs (sfs_blockio sv u m sfs).
Proof.
  intros Hwf Hin Hu Hk Hd Ho Hmod Hres. destruct (fileblock_eq u m Hu) as [Efb Hfb]; [lia|].
  assert (uio_offset u = uio_offset u / 512 * 512 + 0) as Hoff by (Z.to_euclidean_division_equations; lia).
  assert (uio_offset u / 512 < 143) as Hfb2 by (Z.to_euclidean_division_equations; lia).
  unfold sfs_blockio, writing. rewrite Hd, Efb. set (i := uio_offset u / 512) in *.
  destruct (sfs_bmap_spec sfs sv i false Hwf Hin Hfb) as [|? ? ? ?|block sv' sfs1 _ -> Hg Hdat _ Hsame]; [lia|done|].
  destruct Hsame as [-> Hsame]; [by left|]. rewrite bind_of_Ok. cbv beta iota. rewrite no_error.
  rewrite (same_fs_fblock sfs sfs1) by done.
  assert (take (Z.to_nat 512) (fdata sfs sv i) = frange sfs sv (uio_offset u) 512) as Hfr.
  { pose proof (frange_block sfs sv i 0 512 Hwf ltac:(lia) ltac:(lia) ltac:(lia)) as Hf. rewrite drop_0 in Hf.
    rewrite Hf. by rewrite <-Hoff. }
  destruct (Z.eqb_spec (fblock sfs sv i) 0) as [E0|Hne].
  - change (kassert (negb false)) with (Ok tt). rewrite bind_of_Ok.
    destruct (uiomovezeros_spec 512 u m Hu) as ([[e u'] m'] & E & Hz); [lia|done|rewrite <-Hd; by apply kernel_take|].
    unfold SFS_BLOCKSIZE. rewrite E, bind_of_Ok. eapply reads_intro; [done|done| |lia|by apply zeroed_moved].
    rewrite <-Hfr. unfold fdata, bdata. by rewrite E0.
  - destruct (fblock_range sfs sv Hwf Hin i) as [Hbr _].
    assert (sfs_wf sfs1) as Hwf1 by (by apply Hsame).
    assert (0 ≤ fblock sfs sv i < sb_nblocks (sfs_sb sfs1)) as Hbr1 by (by rewrite (sf_sb _ _ Hsame)).
    rewrite (proj2 (Z.leb_le _ _)) by (unfold SFS_BLOCKSIZE; lia). change (kassert true) with (Ok tt). rewrite bind_of_Ok.
    cbv zeta. fold (to_disk u (fblock sfs sv i)).
    destruct (fs_rwblock_read (to_disk u (fblock sfs sv i)) m (fblock sfs sv i) sfs1 Hwf1) as (e & u' & m' & sfs2 & -> & Hs2 & Hm);
      [by apply to_disk_block|done|].
    rewrite bind_of_Ok. fold (from_disk u (fblock sfs sv i) u').
    eapply reads_intro; [done|by eapply same_fs_trans| |lia|by eapply (moved_redirect _ _ _ sfs1)].
    rewrite (same_fs_sector sfs sfs1), <-Hfr by done. unfold fdata, bdata. by destruct (Z.eqb_spec (fblock sfs sv i) 0).
Qed.

Lemma reads_none sv u m sfs : uio_wf m u → uio_dir u = UIO_READ → reads 0 sv u m sfs (Ok (0, sv, u, m, sfs)).
Proof.
  intros Hu Hd. exists 0, u, m, sfs. split; [done|]. split; [apply same_fs_refl|]. by apply moved_none.
Qed.

(** The part of a read of [n] bytes that lies below the end of the block map. *)
Definition below_map (off n : Z) : Z := Z.max 0 (Z.min n (73216 - off)).

(** What a read of [n] bytes does that may go past the end of the block map: the bytes
    below it are moved, and then the read fails with EFBIG. *)
Definition reads_map (n : Z) sv u m sfs (r : outcome io_state) : Prop :=
  let k := below_map (uio_offset u) n in
  let bytes := frange sfs sv (uio_offset u) k in
  ∃ e u' m' sfs', r = Ok (if (e =? 0) && (k <? n) then EFBIG else e, sv, u', m', sfs') ∧ same_fs sfs sfs' ∧
    moved k bytes u m (e, bytes, u', m').

Lemma reads_map_all n sv u m sfs r : 0 ≤ n → n = 0 ∨ uio_offset u + n ≤ 73216 → reads n sv u m sfs r → reads_map n sv u m sfs r.
Proof.
  intros Hn Ho (e & u' & m' & sfs' & -> & Hs & Hm). unfold reads_map. assert (below_map (uio_offset u) n = n) as -> by (unfold below_map; lia).
  exists e, u', m', sfs'. by rewrite Z.ltb_irrefl, andb_false_r.
Qed.

Lemma reads_map_none sv u m sfs : uio_wf m u → uio_dir u = UIO_READ → reads_map 0 sv u m sfs (Ok (0, sv, u, m, sfs)).
Proof. intros Hu Hd. apply reads_map_all; [lia|by left|by apply reads_none]. Qed.

Lemma reads_map_past n sv u m sfs : uio_wf m u → uio_dir u = UIO_READ → 73216 ≤ uio_offset u → 0 < n →
  reads_map n sv u m sfs (Ok (EFBIG, sv, u, m, sfs)).
Proof.
  intros Hu Hd Ho Hn. unfold reads_map. assert (below_map (uio_offset u) n = 0) as -> by (unfold below_map; lia).
  exists 0, u, m, sfs. rewrite (proj2 (Z.ltb_lt 0 n)) by done. split; [done|]. split; [apply same_fs_refl|]. by apply moved_none.
Qed.

(** A read followed by another one. *)
Lemma reads_bind n1 n2 sv u m sfs r (K : sfs_vnode → uio → memory → sfs_fs → outcome io_state) :
  uio_wf m u → kernel_uio m u → uio_dir u = UIO_READ → 0 ≤ n1 ≤ uio_resid u → 0 ≤ n2 →
  reads_map n1 sv u m sfs r →
  (∀ u1 m1 sfs1, same_fs sfs sfs1 → advanced n1 u u1 → uio_wf m1 u1 → kernel_uio m1 u1 → uio_dir u1 = UIO_READ →
     reads_map n2 sv u1 m1 sfs1 (K sv u1 m1 sfs1)) →
  reads_map (n1 + n2) sv u m sfs
    ('(result, sv, u, m, sfs) ← r; if negb (result =? 0) then Ok (result, sv, u, m, sfs) else K sv u m sfs).
Proof.
  intros Hu Hk Hd Hn1 Hn2 (e & u1 & m1 & sfs1 & -> & Hs1 & Hm1) HK. rewrite bind_of_Ok. cbv beta iota.
  pose proof (moved_error _ _ _ _ _ _ _ _ Hm1) as He. unfold reads_map at 1. set (k1 := below_map (uio_offset u) n1) in *.
  assert (0 ≤ k1 ≤ n1) as Hk1 by (unfold k1, below_map; lia).
  set (k2 := below_map (uio_offset u + n1) n2). assert (0 ≤ k2 ≤ n2) as Hk2 by (unfold k2, below_map; lia).
  assert (below_map (uio_offset u) (n1 + n2) = k1 + k2) as -> by (unfold k1, k2, below_map; lia).
  rewrite frange_app by lia.
  destruct (Z.eqb_spec e 0) as [->|Hne]; cbn [andb].
  2: { destruct He as [?| ->]; [done|]. exists EFAULT, u1, m1, sfs1. split; [done|]. split; [done|]. by apply moved_stop; [|lia|lia|]. }
  pose proof Hm1 as (j & Hj & Ha & Hw1 & _ & Hsp & Hrest). rewrite Hd in Hrest. destruct Hrest as [_ Hrest].
  assert (j = k1) as -> by (case_decide; [by destruct Hrest as (_ & -> & _)|by destruct Hrest]).
  destruct (Z.ltb_spec k1 n1) as [Hlt|Hge]; cbn [negb Z.eqb].
  - assert (k2 = 0) as -> by (unfold k1, k2, below_map in *; lia). exists 0, u1, m1, sfs1. rewrite Z.add_0_r.
    rewrite (proj2 (Z.ltb_lt k1 (n1 + n2))) by lia. split; [done|]. split; [done|].
    change (frange sfs sv (uio_offset u + k1) 0) with (@nil Z). by rewrite app_nil_r.
  - assert (k1 = n1) as E1 by lia. rewrite E1 in *. destruct (advanced_dir _ _ _ Ha) as [Hd1 _]. rewrite Hd in Hd1.
    pose proof (proj1 (proj2 Ha)) as Hoff.
    destruct (HK u1 m1 sfs1 Hs1 Ha Hw1 (kernel_advanced _ _ _ _ _ Hk Ha Hsp) Hd1) as (e & u2 & m2 & sfs2 & E & Hs2 & Hm2).
    rewrite Hoff in E, Hm2. fold k2 in E, Hm2. rewrite (frange_same sfs sv sfs1 sv) in Hm2 by (by apply same_fs_data).
    rewrite E. exists e, u2, m2, sfs2.
    split; [|split; [by eapply same_fs_trans|apply (moved_cat n1 k2 _ _ _ _ u1 m1); try done; [lia|apply zlen_frange; lia]]].
    do 4 f_equal. destruct (Z.ltb_spec k2 n2), (Z.ltb_spec (n1 + k2) (n1 + n2)); done || lia.
Qed.

(** Past the end of the block map there is no block. *)
Lemma bmap_past sv u m sfs : sfs_wf sfs → inode_wf sfs sv → uio_wf m u → 73216 ≤ uio_offset u < 2199023255552 →
  sfs_bmap sv (u32 (uio_offset u / SFS_BLOCKSIZE)) false sfs = Ok (EFBIG, 0, sv, sfs).
Proof.
  intros Hwf Hin Hu Ho. destruct (fileblock_eq u m Hu) as [-> Hfb]; [lia|].
  assert (143 ≤ uio_offset u / 512) as Hbig by (Z.to_euclidean_division_equations; lia).
  unfold sfs_bmap, SFS_NDIRECT, SFS_NINDIRECT. rewrite (proj2 (Z.ltb_ge _ _)) by lia. rewrite (proj2 (Z.leb_le _ _)); [done|].
  unfold SFS_DBPERIDB. Z.to_euclidean_division_equations. lia.
Qed.

Lemma partialio_map sv u m len sfs :
  sfs_wf sfs → inode_wf sfs sv → uio_wf m u → kernel_uio m u → uio_dir u = UIO_READ →
  uio_offset u < 2199023255552 → 0 ≤ len ≤ uio_resid u → uio_offset u mod 512 + len ≤ 512 → 0 < len ∨ uio_offset u < 73216 →
  reads_map len sv u m sfs (sfs_partialio sv u m (uio_offset u mod 512) len sfs).
Proof.
  intros Hwf Hin Hu Hk Hd Ho Hlen Hsk Hpos. destruct (Z.lt_ge_cases (uio_offset u) 73216) as [Hlt|Hge].
  - apply reads_map_all; [lia| |by apply partialio_read; try done; lia]. right. Z.to_euclidean_division_equations. lia.
  - unfold sfs_partialio, writing. rewrite Hd, (bmap_past sv u m sfs) by done.
    rewrite (proj2 (Z.leb_le _ _)) by (unfold SFS_BLOCKSIZE; lia). change (kassert true) with (Ok tt). rewrite !bind_of_Ok.
    apply reads_map_past; done || lia.
Qed.

Lemma blockio_map sv u m sfs :
  sfs_wf sfs → inode_wf sfs sv → uio_wf m u → kernel_uio m u → uio_dir u = UIO_READ →
  uio_offset u < 2199023255552 → uio_offset u mod 512 = 0 → 512 ≤ uio_resid u →
  reads_map 512 sv u m sfs (sfs_blockio sv u m sfs).
Proof.
  intros Hwf Hin Hu Hk Hd Ho Hmod Hres. destruct (Z.lt_ge_cases (uio_offset u) 73216) as [Hlt|Hge].
  - apply reads_map_all; [lia| |by apply blockio_read]. right. Z.to_euclidean_division_equations. lia.
  - unfold sfs_blockio, writing. rewrite Hd, (bmap_past sv u m sfs), bind_of_Ok by done. apply reads_map_past; done || lia.
Qed.

Lemma io_blocks_read k : ∀ sv u m sfs,
  sfs_wf sfs → inode_wf sfs sv → uio_wf m u → kernel_uio m u → uio_dir u = UIO_READ →
  uio_offset u + Z.of_nat k * 512 < 2199023255552 → uio_offset u mod 512 = 0 → Z.of_nat k * 512 ≤ uio_resid u →
  reads_map (Z.of_nat k * 512) sv u m sfs (sfs_io_blocks k sv u m sfs).
Proof.
  induction k as [|k IH]; intros sv u m sfs Hwf Hin Hu Hk Hd Ho Hmod Hres; [by apply reads_map_none|].
  cbn [sfs_io_blocks]. replace (Z.of_nat (S k) * 512) with (512 + Z.of_nat k * 512) by lia.
  apply (reads_bind 512 (Z.of_nat k * 512) sv u m sfs); try done || lia; [apply blockio_map; done || lia|].
  intros u1 m1 sfs1 Hs1 (_ & Ho1 & Hr1 & _) Hw1 Hk1 Hd1.
  apply IH; [by apply Hs1|by apply (same_fs_inode sfs)|done|done|done|lia| |lia].
  rewrite Ho1. Z.to_euclidean_division_equations. lia.
Qed.

(** [sfs_io] between the checks and [out]. *)
Lemma io_body_read sv u m sfs :
  sfs_wf sfs → inode_wf sfs sv → uio_wf m u → kernel_uio m u → uio_dir u = UIO_READ →
  uio_offset u + uio_resid u < 2199023255552 → 0 < uio_resid u ∨ uio_offset u < 73216 →
  reads_map (uio_resid u) sv u m sfs (sfs_io_body sv u m sfs).
Proof.
  intros Hwf Hin Hu Hk Hd Ho Hpos. pose proof (uw_offset _ _ Hu) as [Ho0 _]. pose proof (uw_resid _ _ Hu) as [Hr0 _]. unfold sfs_io_body, SFS_BLOCKSIZE.
  pose proof (Z.mod_pos_bound (uio_offset u) 512 ltac:(lia)) as Hmod. rewrite (u32_id (uio_offset u mod 512)) by width.
  set (skip := uio_offset u mod 512) in *.
  set (n1 := if skip =? 0 then 0 else Z.min (512 - skip) (uio_resid u)).
  replace (uio_resid u) with (n1 + (uio_resid u - n1)) at 1 by lia.
  assert (0 ≤ n1 ≤ uio_resid u) as Hn1 by (unfold n1; destruct (Z.eqb_spec skip 0); lia).
  apply reads_bind; try done || lia.
  - unfold n1. destruct (Z.eqb_spec skip 0) as [|Hne]; cbn [negb]; [by apply reads_map_none|].
    assert ((if uio_resid u <? 512 - skip then uio_resid u else 512 - skip) = Z.min (512 - skip) (uio_resid u)) as ->
      by (destruct (Z.ltb_spec (uio_resid u) (512 - skip)); lia).
    apply partialio_map; try done || lia.
  - intros u1 m1 sfs1 Hs1 (_ & Ho1 & Hr1 & _) Hw1 Hk1 Hd1. cbv beta.
    destruct (Z.eqb_spec (uio_resid u1) 0) as [E0|Hne0].
    { replace (uio_resid u - n1) with 0 by lia. by apply reads_map_none. }
    assert (uio_offset u1 mod 512 = 0) as Hal.
    { rewrite Ho1. unfold n1 in *. unfold skip in *. destruct (Z.eqb_spec (uio_offset u mod 512) 0); Z.to_euclidean_division_equations; lia. }
    rewrite Hal. change (kassert (0 =? 0)) with (Ok tt). rewrite bind_of_Ok.
    rewrite <-Hr1. set (k := uio_resid u1 / 512). assert (0 ≤ k) as Hk0 by (apply Z.div_pos; lia).
    assert (uio_resid u1 = k * 512 + uio_resid u1 mod 512) as Hsplit by (unfold k; Z.to_euclidean_division_equations; lia).
    pose proof (Z.mod_pos_bound (uio_resid u1) 512 ltac:(lia)) as Hrm.
    rewrite Hsplit at 1. replace (k * 512) with (Z.of_nat (Z.to_nat k) * 512) by lia.
    apply reads_bind; try done || lia.
    + apply io_blocks_read; try done || lia; [by apply Hs1|by apply (same_fs_inode sfs)].
    + intros u2 m2 sfs2 Hs2 (_ & Ho2 & Hr2 & _) Hw2 Hk2 Hd2. cbv beta.
      rewrite (proj2 (Z.ltb_lt (uio_resid u2) 512)) by lia. change (kassert true) with (Ok tt). rewrite bind_of_Ok.
      replace (uio_resid u1 mod 512) with (uio_resid u2) by lia.
      destruct (Z.ltb_spec 0 (uio_resid u2)); [|replace (uio_resid u2) with 0 by lia; by apply reads_map_none].
      assert (uio_offset u2 mod 512 = 0) as Hal2 by (rewrite Ho2; Z.to_euclidean_division_equations; lia).
      pose proof (partialio_map sv u2 m2 (uio_resid u2) sfs2) as Hp. rewrite Hal2 in Hp.
      pose proof (same_fs_trans _ _ _ Hs1 Hs2) as Hs12.
      apply Hp; try done || lia; [by apply Hs12|by apply (same_fs_inode sfs)].
Qed.

Lemma sfs_io_read sv u m sfs :
  sfs_wf sfs → inode_wf sfs sv → uio_wf m u → kernel_uio m u → uio_dir u = UIO_READ →
  is_u32 (sfi_size (sv_i sv)) → (uio_resid u = 0 → sfi_size (sv_i sv) ≤ 73216) →
  reads_map (Z.max 0 (Z.min (uio_resid u) (sfi_size (sv_i sv) - uio_offset u))) sv u m sfs (sfs_io sv u m sfs).
Proof.
  intros Hwf Hin Hu Hk Hd Hsz Hpos. pose proof (uw_offset _ _ Hu) as [Ho0 Ho1]. pose proof (uw_resid _ _ Hu) as [Hr0 Hr1].
  unfold sfs_io, writing. rewrite Hd. cbn [negb andb orb]. set (size := sfi_size (sv_i sv)) in *.
  rewrite (s64_id (uio_offset u + uio_resid u)) by width.
  destruct (Z.leb_spec size (uio_offset u)) as [Hle|Hlt].
  { replace (Z.max 0 _) with 0 by lia. by apply reads_map_none. }
  set (n := Z.min (uio_resid u) (size - uio_offset u)). replace (Z.max 0 n) with n by lia.
  assert ((if size <? uio_offset u + uio_resid u then u32 (uio_offset u + uio_resid u - size) else 0) = uio_resid u - n) as ->.
  { destruct (Z.ltb_spec size (uio_offset u + uio_resid u)); [rewrite u32_id; width|lia]. }
  assert (((uio_offset u + uio_resid u <=? size) || (uio_resid u - n <? uio_resid u)) = true) as ->.
  { destruct (Z.leb_spec (uio_offset u + uio_resid u) size); [done|]. apply Z.ltb_lt. lia. }
  change (kassert true) with (Ok tt). rewrite bind_of_Ok. replace (uio_resid u - (uio_resid u - n)) with n by lia.
  rewrite (u32_id n) by width. set (u0 := with_resid n u).
  assert (uio_wf m u0) as Hu0 by (destruct Hu as [U1 U2 U3 U4]; constructor; try done; unfold u0; simpl; unfold uio_addrs in *; simpl; lia).
  destruct (io_body_read sv u0 m sfs Hwf Hin Hu0 Hk Hd) as (e & u' & m' & sfs' & -> & Hs & Hm);
    [change (uio_offset u + n < 2199023255552); width|change (0 < n ∨ uio_offset u < 73216); lia|].
  rewrite bind_of_Ok. cbv beta iota. change (uio_resid u0) with n in *. change (uio_offset u0) with (uio_offset u) in *.
  unfold reads_map. set (k := below_map (uio_offset u) n) in *. assert (0 ≤ k ≤ n) as Hkn by (unfold k, below_map; lia).
  destruct Hm as (j & Hj & Ha & Hw & Hlp & Hsp & Hrest).
  change (uio_dir u0) with (uio_dir u) in *.
  change (uio_addrs u0) with (uio_addrs u) in *. change (uio_segflg u0) with (uio_segflg u) in *.
  destruct Ha as (A1 & A2 & A3 & A4 & A5 & A6). cbn [u0 with_resid uio_resid uio_offset uio_segflg uio_dir uio_space] in *.
  assert (set_length (uio_resid u) sv u' = sv) as ->.
  { unfold set_length, writing. rewrite A5, Hd. by rewrite andb_false_r. }
  assert (u32 (uio_resid u' + (uio_resid u - n)) = uio_resid u - j) as -> by (rewrite u32_id; width).
  exists e, (with_resid (uio_resid u - j) u'), m', sfs'. split; [done|]. split; [done|]. exists j. split; [done|].
  split; [by split_and!|]. split; [|done]. destruct Hw as [W1 W2 W3 W4]. destruct Hu as [U1 U2 U3 U4].
  constructor; unfold uio_addrs in *; cbn [with_resid uio_iov uio_offset uio_resid uio_segflg uio_space] in *; try done; [|lia].
  change (uio_iov u0) with (uio_iov u) in A1. rewrite A1. unfold zlen in *. rewrite length_drop. lia.
Qed.

End reading.

End io.
