(* ===== verification/SfsWrite.v ===== *)
(** * SFS file I/O: writing (the proofs about the write side of kern/fs/sfs/sfs_io.c)

    [writes] says what a write of some bytes does to the file and to the volume;
    the lemmas show it for a part of a block, for a block, and for [sfs_io]. *)

From stdpp Require Import base gmap list list_numbers.
From Stdlib Require Import ZArith Lia.
From S2P Require Import Prelude FrameTable CopyInOut Uio Lhd Bitmap SfsDisk SfsBmap SfsIo.
Open Scope Z_scope.

Implicit Types (u : uio) (m : memory) (sfs : sfs_fs) (sv : sfs_vnode).

Section writing.
Context `{Hardware} {Hrel : Reliable}.

Definition can_read_all m u (n : Z) : Prop := Forall (can_read m (uio_segflg u)) (take (Z.to_nat n) (uio_addrs u)).

(** The bytes a uio describes. *)
Definition uio_bytes m u : list Z := mget (uio_segflg u) m (uio_addrs u).

(** What a write of [n] bytes does.  The uio is advanced by [j] bytes, of which the
    first [w] are stored in the file; all [n] when the result is 0. *)
Definition write_result (n e j w : Z) u m sfs' : Prop :=
  (e = 0 ∧ j = n ∧ w = n ∧ can_read_all m u n) ∨
  (e = EFAULT ∧ ¬ can_read_all m u n) ∨
  (e = ENOSPC ∧ j = w ∧ ∀ b, 0 ≤ b → used sfs' b = true) ∨
  (e = EFBIG ∧ j = w ∧ 73216 ≤ uio_offset u + n).

Definition writes (n : Z) sv u m sfs (r : outcome io_state) : Prop :=
  ∃ e j w sv' u' sfs', r = Ok (e, sv', u', m, sfs') ∧ 0 ≤ w ≤ j ∧ j ≤ n ∧ advanced j u u' ∧ uio_wf m u' ∧
    grown sfs sv sfs' sv' ∧ sfi_size (sv_i sv') = sfi_size (sv_i sv) ∧
    stored (uio_offset u) (take (Z.to_nat w) (uio_bytes m u)) sfs sv sfs' sv' ∧ write_result n e j w u m sfs'.

Lemma stored_none off sfs sv sfs' sv' : same_data sfs sv sfs' sv' → stored off [] sfs sv sfs' sv'.
Proof.
  intros [Hd _] k Hk. unfold zlen. simpl. rewrite decide_False by lia. unfold fbyte. by rewrite Hd.
Qed.

Lemma stored_same off bs sfs sv sfs1 sv1 sfs' sv' :
  same_data sfs sv sfs1 sv1 → stored off bs sfs1 sv1 sfs' sv' → stored off bs sfs sv sfs' sv'.
Proof.
  intros [Hd _] Hs k Hk. rewrite Hs by done. case_decide; [done|]. unfold fbyte. by rewrite Hd.
Qed.

Lemma stored_app off bs1 bs2 sfs sv sfs1 sv1 sfs' sv' :
  0 ≤ off → stored off bs1 sfs sv sfs1 sv1 → stored (off + zlen bs1) bs2 sfs1 sv1 sfs' sv' →
  stored off (bs1 ++ bs2) sfs sv sfs' sv'.
Proof.
  intros Ho H1 H2 k Hk. rewrite H2, H1, zlen_app by done. pose proof (zlen_nonneg bs1). pose proof (zlen_nonneg bs2).
  destruct (decide (off + zlen bs1 ≤ k < off + zlen bs1 + zlen bs2)).
  - rewrite decide_True by lia. rewrite zget_app_r by lia. do 2 f_equal. lia.
  - destruct (decide (off ≤ k < off + zlen bs1)).
    + rewrite decide_True by lia. by rewrite zget_app_l by lia.
    + by rewrite decide_False by lia.
Qed.

(** A data block is overwritten. *)
Lemma write_block sfs sv i data sfs' :
  sfs_wf sfs → inode_wf sfs sv → 0 ≤ i < 143 → fblock sfs sv i ≠ 0 → wrote sfs (fblock sfs sv i) data sfs' →
  grown sfs sv sfs' sv ∧ ∀ j, fdata sfs' sv j = if decide (j = i) then data else fdata sfs sv j.
Proof.
  intros Hwf Hin Hi Hne Hwr. pose proof (fblock_indirect sfs sv Hin i Hi Hne) as Hni.
  assert (fblocks sfs' sv = fblocks sfs sv) as Hfb.
  { unfold fblocks, idwords. rewrite (wr_sector _ _ _ _ Hwr), decide_False by done. done. }
  assert (owned sfs' sv = owned sfs sv) as Hown by (unfold owned, table; by rewrite Hfb).
  assert (∀ b, used sfs' b = used sfs b) as Hu by (intros b; unfold used; by rewrite (wr_freemap _ _ _ _ Hwr)).
  assert (∀ j, fblock sfs' sv j = fblock sfs sv j) as Hfb' by (intros j; unfold fblock; by rewrite Hfb).
  pose proof (grown_refl sfs sv Hwf Hin) as [G1 G2 G3 G4 G5 G6 G7 G8 G9 G10]. split.
  - constructor; [apply Hwr|apply Hwr| | | | | |done|by left|left; split; apply Hwr].
    + destruct Hin as [I1 I2 I3]. constructor; [done|by rewrite Hown|]. intros b. rewrite Hown, Hu, (wr_sb _ _ _ _ Hwr). apply I3.
    + intros b Hb. rewrite Hu, Hown. by apply G4.
    + intros b. rewrite Hown. apply G5.
    + intros b. by rewrite Hown.
    + intros b _ _ Hb. rewrite (wr_sector _ _ _ _ Hwr), decide_False; [done|]. intros ->. apply Hb. by apply fblock_owned.
  - intros j. unfold fdata. rewrite Hfb'. destruct (decide (j = i)) as [->|Hji].
    + unfold bdata. destruct (Z.eqb_spec (fblock sfs sv i) 0); [done|]. by rewrite (wr_sector _ _ _ _ Hwr), decide_True.
    + unfold bdata. destruct (Z.eqb_spec (fblock sfs sv j) 0); [done|].
      rewrite (wr_sector _ _ _ _ Hwr), decide_False; [done|]. intros He.
      destruct (decide (0 ≤ j < 143)) as [Hj|Hj]; [|by rewrite fblock_out in *].
      by apply Hji, (fblock_inj sfs sv Hin j i Hj Hi).
Qed.

(** Replacing a part of a block. *)
Lemma stored_block sfs sv i skip bs sfs' sv' :
  sfs_wf sfs → 0 ≤ skip → skip + zlen bs ≤ 512 → 
  (∀ j, fdata sfs' sv' j = if decide (j = i)
     then take (Z.to_nat skip) (fdata sfs sv i) ++ bs ++ drop (Z.to_nat skip + length bs) (fdata sfs sv i)
     else fdata sfs sv j) →
  stored (i * 512 + skip) bs sfs sv sfs' sv'.
Proof.
  intros Hwf Hs Hl Hd k Hk. pose proof (fdata_length sfs sv i Hwf) as Hfl.
  pose proof (Z.mod_pos_bound k 512 ltac:(lia)) as Hm.
  assert (k = k / 512 * 512 + k mod 512) as Hkk by (Z.to_euclidean_division_equations; lia).
  rewrite Hkk. rewrite !fbyte_block by lia. rewrite Hd. set (q := k / 512) in *. set (t := k mod 512) in *.
  destruct (decide (q = i)) as [->|Hne].
  - assert (zlen (take (Z.to_nat skip) (fdata sfs sv i)) = skip) as Ht
      by (unfold zlen in *; rewrite length_take; lia).
    case_decide as Hc.
    + rewrite zget_app_r, Ht, zget_app_l by lia. do 2 f_equal. lia.
    + destruct (decide (t < skip)).
      * rewrite zget_app_l by lia. f_equal. unfold zget. case_decide; [|done]. apply lookup_take_lt. lia.
      * rewrite zget_app_r, Ht, zget_app_r by lia. f_equal. unfold zget, zlen in *. rewrite !decide_True by lia.
        rewrite lookup_drop. f_equal. lia.
  - rewrite decide_False; [done|]. pose proof (zlen_nonneg bs). lia.
Qed.

(** ** One block *)

Lemma writes_error e sv u m n sfs sv' sfs' :
  uio_wf m u → 0 ≤ n → grown sfs sv sfs' sv' → same_data sfs sv sfs' sv' →
  (e = ENOSPC ∧ (∀ b, 0 ≤ b → used sfs' b = true)) ∨ (e = EFBIG ∧ 73216 ≤ uio_offset u + n) →
  writes n sv u m sfs (Ok (e, sv', u, m, sfs')).
Proof.
  intros Hu Hn Hg Hd He. exists e, 0, 0, sv', u, sfs'. split; [done|]. split; [done|]. split; [done|].
  split; [apply advanced_refl|]. split; [done|]. split; [done|]. split; [apply Hd|]. split; [by apply stored_none|].
  unfold write_result. naive_solver.
Qed.

Lemma length_uio_bytes m u : zlen (uio_bytes m u) = zlen (uio_addrs u).
Proof. unfold zlen, uio_bytes, mget. by rewrite length_map. Qed.

Lemma mget_take seg m n l : mget seg m (take n l) = take n (mget seg m l).
Proof. unfold mget. by rewrite firstn_map. Qed.

(** A transfer into a buffer: the bytes of the uio replace the first [n]. *)
Lemma moved_write n p u m e p' u' m' :
  uio_dir u = UIO_WRITE → moved n p u m (e, p', u', m') →
  m' = m ∧ uio_wf m u' ∧ uio_dir u' = UIO_WRITE ∧ ∃ j, 0 ≤ j ≤ n ∧ advanced j u u' ∧ length p' = length p ∧
  (e = 0 ∧ can_read_all m u n ∧ j = n ∧ p' = take (Z.to_nat n) (uio_bytes m u) ++ drop (Z.to_nat n) p ∨
   e = EFAULT ∧ ¬ can_read_all m u n).
Proof.
  unfold moved. intros Hd (j & Hj & Ha & Hw & Hl & Hs & Hm). rewrite Hd in Hm. destruct Hm as [-> Hm].
  split; [done|]. split; [done|]. split; [by rewrite (proj1 (advanced_dir _ _ _ Ha))|]. exists j. do 3 (split; [done|]).
  unfold can_read_all, uio_bytes. rewrite mget_take in Hm.
  case_decide as Hc; [left|right]; naive_solver.
Qed.

Lemma partialio_write sv u m len sfs :
  sfs_wf sfs → inode_wf sfs sv → uio_wf m u → kernel_uio m u → uio_dir u = UIO_WRITE →
  uio_offset u < 2199023255552 → 0 ≤ len ≤ uio_resid u → uio_offset u mod 512 + len ≤ 512 →
  writes len sv u m sfs (sfs_partialio sv u m (uio_offset u mod 512) len sfs).
Proof.
  intros Hwf Hin Hu Hk Hd Ho Hlen Hsk. destruct (fileblock_eq u m Hu Ho) as [Efb Hfb].
  pose proof (Z.mod_pos_bound (uio_offset u) 512 ltac:(lia)) as Hmod.
  assert (uio_offset u = uio_offset u / 512 * 512 + uio_offset u mod 512) as Hoff by (Z.to_euclidean_division_equations; lia).
  unfold sfs_partialio, writing. rewrite Hd, Efb.
  rewrite (proj2 (Z.leb_le _ _)) by (unfold SFS_BLOCKSIZE; lia). change (kassert true) with (Ok tt). rewrite bind_of_Ok.
  set (i := uio_offset u / 512) in *. set (skip := uio_offset u mod 512) in *.
  destruct (sfs_bmap_spec sfs sv i true Hwf Hin Hfb) as [Hbig|sv1 sfs1 Hi _ _ Hg Hdat Hfull|block sv1 sfs1 Hi -> Hg Hdat Hne _];
    rewrite bind_of_Ok; cbv beta iota.
  { apply writes_error; auto using grown_refl, same_data_refl; lia. }
  { apply writes_error; auto. lia. }
  rewrite no_error. specialize (Hne eq_refl). set (b := fblock sfs1 sv1 i) in *.
  pose proof (gr_wf _ _ _ _ Hg) as Hwf1. pose proof (gr_inode _ _ _ _ Hg) as Hin1.
  destruct (fblock_range sfs1 sv1 Hwf1 Hin1 i) as [Hbr _].
  destruct (Z.eqb_spec b 0) as [|_]; [done|].
  destruct (fs_readblock_ok b iobuf0 sfs1 Hwf1 Hbr eq_refl) as (sfs2 & -> & Hs2). rewrite bind_of_Ok. cbv beta iota. rewrite no_error.
  assert (sector sfs1 b = fdata sfs1 sv1 i) as Esec by (unfold fdata, bdata; fold b; by destruct (Z.eqb_spec b 0)).
  rewrite Esec. pose proof (fdata_length sfs1 sv1 i Hwf1) as Hfl. set (data := fdata sfs1 sv1 i) in *.
  destruct (uiomove_spec (drop (Z.to_nat skip) data) len u m Hu Hlen) as ([[[e p] u'] m'] & -> & Hm);
    [unfold zlen; rewrite length_drop; lia|by apply kernel_take|]. rewrite bind_of_Ok. cbv beta iota zeta.
  destruct (moved_write _ _ _ _ _ _ _ _ Hd Hm) as (-> & Hu' & Hd' & j & Hj & Ha & Hlp & Hres). rewrite Hd'.
  pose proof (grown_trans _ _ _ _ _ _ Hg (same_fs_grown _ _ sv1 Hs2 Hwf1 Hin1)) as Hg2.
  destruct Hres as [(-> & Hcan & -> & ->)|[-> Hcan]].
  - rewrite no_error. set (bs := take (Z.to_nat len) (uio_bytes m u)) in *.
    assert (zlen bs = len) as Hbl.
    { pose proof (length_uio_bytes m u) as Hub. destruct (uw_resid _ _ Hu). unfold bs, zlen in *. rewrite length_take. lia. }
    destruct (fs_writeblock_ok b (take (Z.to_nat skip) data ++ bs ++ drop (Z.to_nat len) (drop (Z.to_nat skip) data)) sfs2)
      as (sfs3 & -> & Hwr); [by apply Hs2|by rewrite (sf_sb _ _ Hs2)| |].
    { rewrite !length_app, length_take, !length_drop. unfold zlen in Hbl. lia. }
    rewrite bind_of_Ok. assert (same_data sfs1 sv1 sfs2 sv1) as Hd12 by (by apply same_fs_data).
    rewrite drop_drop in Hwr.
    destruct (write_block sfs2 sv1 i _ sfs3 (sf_wf _ _ Hs2 Hwf1) (same_fs_inode _ _ _ Hs2 Hin1) ltac:(lia)
      ltac:(by rewrite (same_fs_fblock sfs1 sfs2)) ltac:(by rewrite (same_fs_fblock sfs1 sfs2))) as [Hg3 Hf3].
    exists 0, len, len, sv1, u', sfs3. split; [done|]. split; [lia|]. split; [lia|]. split; [done|]. split; [done|].
    split; [by eapply grown_trans|]. split; [apply Hdat|]. split; [|left; done].
    fold bs. rewrite Hoff. eapply stored_same; [by eapply same_data_trans|].
    apply stored_block; [by apply Hs2|lia|lia|]. intros q. rewrite Hf3.
    assert (fdata sfs2 sv1 i = data) as -> by (by rewrite (proj1 Hd12)).
    replace (length bs) with (Z.to_nat len) by (unfold zlen in Hbl; lia). done.
  - change (negb (EFAULT =? 0)) with true. cbv iota.
    exists EFAULT, j, 0, sv1, u', sfs2. split; [done|]. split; [lia|]. split; [lia|]. split; [done|]. split; [done|].
    split; [done|]. split; [apply Hdat|]. split; [|right; left; done].
    apply stored_none. eapply same_data_trans; [done|by apply same_fs_data].
Qed.

Lemma fs_rwblock_write u m b sfs :
  sfs_wf sfs → block_uio b u m (sfs_device sfs) → b < sb_nblocks (sfs_sb sfs) → uio_dir u = UIO_WRITE →
  ∃ e p u' sfs', fs_rwblock u m sfs = Ok (e, u', m, sfs') ∧ length p = 512%nat ∧
    moved 512 (lh_buf (sfs_device sfs)) u m (e, p, u', m) ∧
    if e =? 0 then wrote sfs b p sfs' else same_fs sfs sfs'.
Proof.
  intros Hwf Hbu Hb Hd. pose proof (sw_device _ Hwf) as Hl. pose proof (bu_block _ _ _ _ Hbu) as Hb0.
  destruct (lhd_write_block b u m (sfs_device sfs) Hl Hbu Hd) as (e & p & u' & _ & Hm & lh & Hlw & Hr).
  assert (length p = 512%nat) as Hp.
  { destruct (moved_write _ _ _ _ _ _ _ _ Hd Hm) as (_ & _ & _ & j & _ & _ & Hlp & _). by rewrite Hlp, (lw_buf _ Hl). }
  exists e, p, u', (with_device lh sfs). unfold fs_rwblock, sfs_rwblock. rewrite (sfs_rw_try_S 9).
  pose proof (moved_error _ _ _ _ _ _ _ _ Hm) as He. destruct He as [->| ->]; simpl in Hr.
  - rewrite reliable in Hr. destruct Hr as (_ & -> & Hs). rewrite bind_of_Ok. split; [done|]. split; [done|]. split; [done|].
    constructor; try done.
    + intros k. unfold sector. simpl. rewrite Hs, zget_zset. repeat case_decide; naive_solver lia.
    + apply with_device_wf; [done|unfold d_blocks; by rewrite Hs, zlen_zset|done].
  - destruct Hr as (-> & Hs & _). rewrite bind_of_Ok. split; [done|]. split; [done|]. split; [done|].
    constructor; try done. intros _. apply with_device_wf; [done|unfold d_blocks; by rewrite Hs|done].
Qed.

Lemma blockio_write sv u m sfs :
  sfs_wf sfs → inode_wf sfs sv → uio_wf m u → kernel_uio m u → uio_dir u = UIO_WRITE →
  uio_offset u < 2199023255552 → uio_offset u mod 512 = 0 → 512 ≤ uio_resid u →
  writes 512 sv u m sfs (sfs_blockio sv u m sfs).
Proof.
  intros Hwf Hin Hu Hk Hd Ho Hmod Hres. destruct (fileblock_eq u m Hu Ho) as [Efb Hfb].
  assert (uio_offset u = uio_offset u / 512 * 512 + 0) as Hoff by (Z.to_euclidean_division_equations; lia).
  unfold sfs_blockio, writing. rewrite Hd, Efb. set (i := uio_offset u / 512) in *.
  destruct (sfs_bmap_spec sfs sv i true Hwf Hin Hfb) as [Hbig|sv1 sfs1 Hi _ _ Hg Hdat Hfull|block sv1 sfs1 Hi -> Hg Hdat Hne _];
    rewrite bind_of_Ok; cbv beta iota.
  { apply writes_error; auto using grown_refl, same_data_refl; lia. }
  { apply writes_error; auto. lia. }
  rewrite no_error. specialize (Hne eq_refl). set (b := fblock sfs1 sv1 i) in *.
  pose proof (gr_wf _ _ _ _ Hg) as Hwf1. pose proof (gr_inode _ _ _ _ Hg) as Hin1.
  destruct (fblock_range sfs1 sv1 Hwf1 Hin1 i) as [Hbr _]. fold b in Hbr.
  destruct (Z.eqb_spec b 0) as [|_]; [done|].
  rewrite (proj2 (Z.leb_le _ _)) by (unfold SFS_BLOCKSIZE; lia). change (kassert true) with (Ok tt). rewrite bind_of_Ok.
  cbv zeta. fold (to_disk u b).
  destruct (fs_rwblock_write (to_disk u b) m b sfs1 Hwf1) as (e & p & u' & sfs2 & -> & Hp & Hm & Hr);
    [by apply to_disk_block|lia|done|].
  rewrite bind_of_Ok. cbv beta iota. fold (from_disk u b u').
  destruct (moved_write _ _ (to_disk u b) _ _ _ _ _ Hd Hm) as (_ & Hu' & _ & j & Hj & Ha & _ & Hcase).
  change (uio_bytes m (to_disk u b)) with (uio_bytes m u) in Hcase.
  change (can_read_all m (to_disk u b) 512) with (can_read_all m u 512) in Hcase.
  destruct (from_disk_advanced u m b sfs1 Hwf1 Hu Hbr Hres j u' m Hj Ha Hu') as [Ha' Hw'].
  destruct Hcase as [(-> & Hcan & -> & Ep)|[-> Hcan]].
  - cbn [Z.eqb] in Hr. set (bs := take (Z.to_nat 512) (uio_bytes m u)) in *.
    assert (length bs = 512%nat) as Hbl.
    { pose proof (length_uio_bytes m u) as Hub. destruct (uw_resid _ _ Hu). unfold bs, zlen in *. rewrite length_take. lia. }
    assert (p = bs) as ->.
    { rewrite Ep, drop_ge, app_nil_r; [done|]. rewrite (lw_buf _ (sw_device _ Hwf1)). lia. }
    destruct (write_block sfs1 sv1 i bs sfs2 Hwf1 Hin1 ltac:(lia) Hne Hr) as [Hg2 Hf2].
    exists 0, 512, 512, sv1, (from_disk u b u'), sfs2. split; [done|]. split; [lia|]. split; [lia|]. split; [done|].
    split; [done|]. split; [by eapply grown_trans|]. split; [apply Hdat|]. split; [|left; done].
    fold bs. rewrite Hoff. eapply stored_same; [done|]. apply stored_block; [done|lia|unfold zlen; lia|].
    intros q. rewrite Hf2. rewrite Hbl, drop_ge, app_nil_r by (rewrite (fdata_length _ _ _ Hwf1); lia). done.
  - cbn [Z.eqb EFAULT] in Hr.
    exists EFAULT, j, 0, sv1, (from_disk u b u'), sfs2. split; [done|]. split; [lia|]. split; [lia|]. split; [done|].
    split; [done|]. split; [by eapply grown_trans, same_fs_grown|]. split; [apply Hdat|]. split; [|right; left; done].
    apply stored_none. eapply same_data_trans; [done|by apply same_fs_data].
Qed.

(** ** Composition *)

Lemma writes_none sv u m sfs :
  sfs_wf sfs → inode_wf sfs sv → uio_wf m u → writes 0 sv u m sfs (Ok (0, sv, u, m, sfs)).
Proof.
  intros Hwf Hin Hu. exists 0, 0, 0, sv, u, sfs. do 3 (split; [done|]). split; [apply advanced_refl|]. split; [done|].
  split; [by apply grown_refl|]. split; [done|]. split; [by apply stored_none|]. left. do 3 (split; [done|]). constructor.
Qed.

Lemma can_read_split m u u1 n1 n2 : 0 ≤ n1 → 0 ≤ n2 → advanced n1 u u1 →
  can_read_all m u (n1 + n2) ↔ can_read_all m u n1 ∧ can_read_all m u1 n2.
Proof.
  intros Hn1 Hn2 (Ha & _ & _ & Hs & _). unfold can_read_all. rewrite take_addrs_split, Forall_app, Ha, Hs by done. done.
Qed.

Lemma uio_bytes_advanced m j u u1 : advanced j u u1 → uio_bytes m u1 = drop (Z.to_nat j) (uio_bytes m u).
Proof. intros (Ha & _ & _ & Hs & _). unfold uio_bytes, mget. rewrite Ha, Hs. by rewrite skipn_map. Qed.

Lemma writes_bind n1 n2 sv u m sfs r (K : sfs_vnode → uio → memory → sfs_fs → outcome io_state) :
  uio_wf m u → kernel_uio m u → uio_dir u = UIO_WRITE → 0 ≤ n1 ≤ uio_resid u → 0 ≤ n2 →
  writes n1 sv u m sfs r →
  (∀ sv1 u1 sfs1, sfs_wf sfs1 → inode_wf sfs1 sv1 → advanced n1 u u1 → uio_wf m u1 → kernel_uio m u1 →
     uio_dir u1 = UIO_WRITE → writes n2 sv1 u1 m sfs1 (K sv1 u1 m sfs1)) →
  writes (n1 + n2) sv u m sfs
    ('(result, sv, u, m, sfs) ← r; if negb (result =? 0) then Ok (result, sv, u, m, sfs) else K sv u m sfs).
Proof.
  intros Hu Hk Hd Hn1 Hn2 (e & j & w & sv1 & u1 & sfs1 & -> & Hw & Hj & Ha & Hu1 & Hg & Hsz & Hst & Hres) HK.
  rewrite bind_of_Ok. cbv beta iota. pose proof (uw_offset _ _ Hu) as [Ho0 _].
  destruct Hres as [(-> & -> & -> & Hcan)|Hres].
  - rewrite no_error. destruct (HK sv1 u1 sfs1) as (e & j2 & w2 & sv2 & u2 & sfs2 & -> & Hw2 & Hj2 & Ha2 & Hu2 & Hg2 & Hsz2 & Hst2 & Hres);
      [apply Hg|apply Hg|done|done|by eapply kernel_advanced|by rewrite (proj1 (advanced_dir _ _ _ Ha))|].
    exists e, (n1 + j2), (n1 + w2), sv2, u2, sfs2. split; [done|]. split; [lia|]. split; [lia|].
    split; [eapply advanced_trans; [lia|lia|done|done]|]. split; [done|]. split; [by eapply grown_trans|].
    split; [congruence|]. pose proof (proj1 (proj2 Ha)) as Hoff. split.
    + rewrite (uio_bytes_advanced m n1 u u1 Ha) in Hst2. rewrite (take_split _ (n1 + w2) n1) by lia.
      replace (n1 + w2 - n1) with w2 by lia. eapply stored_app; [done|done|].
      assert (zlen (take (Z.to_nat n1) (uio_bytes m u)) = n1) as ->.
      { pose proof (length_uio_bytes m u) as Hub. destruct (uw_resid _ _ Hu). unfold zlen in *. rewrite length_take. lia. }
      by rewrite <-Hoff.
    + pose proof (can_read_split m u u1 n1 n2 ltac:(lia) Hn2 Ha) as Hsp. unfold write_result in *.
      rewrite Hoff in Hres.
      destruct Hres as [(-> & -> & -> & ?)|[[-> ?]|[(-> & -> & ?)|(-> & -> & ?)]]].
      * left. split_and!; [done|lia|lia|tauto].
      * right; left. tauto.
      * right; right; left. done.
      * right; right; right. split_and!; [done|done|lia].
  - assert (negb (e =? 0) = true) as -> by (destruct Hres as [[-> _]|[(-> & _)|(-> & _)]]; done).
    exists e, j, w, sv1, u1, sfs1. do 2 (split; [done|]). split; [lia|]. do 5 (split; [done|]).
    right. destruct Hres as [[-> Hc]|[(-> & ? & ?)|(-> & ? & ?)]]; [left|right; left|right; right].
    + split; [done|]. unfold can_read_all in *. rewrite take_addrs_split, Forall_app by lia. tauto.
    + done.
    + split_and!; [done|done|lia].
Qed.

Lemma io_blocks_write k : ∀ sv u m sfs,
  sfs_wf sfs → inode_wf sfs sv → uio_wf m u → kernel_uio m u → uio_dir u = UIO_WRITE →
  uio_offset u + Z.of_nat k * 512 < 2199023255552 → uio_offset u mod 512 = 0 → Z.of_nat k * 512 ≤ uio_resid u →
  writes (Z.of_nat k * 512) sv u m sfs (sfs_io_blocks k sv u m sfs).
Proof.
  induction k as [|k IH]; intros sv u m sfs Hwf Hin Hu Hk Hd Ho Hmod Hres; [by apply writes_none|].
  cbn [sfs_io_blocks]. replace (Z.of_nat (S k) * 512) with (512 + Z.of_nat k * 512) by lia.
  apply (writes_bind 512 (Z.of_nat k * 512) sv u m sfs); try done || lia; [apply blockio_write; done || lia|].
  intros sv1 u1 sfs1 Hwf1 Hin1 (_ & Ho1 & Hr1 & _) Hw1 Hk1 Hd1.
  apply IH; [done..|lia| |lia]. rewrite Ho1. Z.to_euclidean_division_equations. lia.
Qed.

Lemma io_body_write sv u m sfs :
  sfs_wf sfs → inode_wf sfs sv → uio_wf m u → kernel_uio m u → uio_dir u = UIO_WRITE →
  uio_offset u + uio_resid u < 2199023255552 → writes (uio_resid u) sv u m sfs (sfs_io_body sv u m sfs).
Proof.
  intros Hwf Hin Hu Hk Hd Ho. pose proof (uw_offset _ _ Hu) as [Ho0 _]. pose proof (uw_resid _ _ Hu) as [Hr0 _].
  unfold sfs_io_body, SFS_BLOCKSIZE.
  pose proof (Z.mod_pos_bound (uio_offset u) 512 ltac:(lia)) as Hmod. rewrite (u32_id (uio_offset u mod 512)) by width.
  set (skip := uio_offset u mod 512) in *.
  set (n1 := if skip =? 0 then 0 else Z.min (512 - skip) (uio_resid u)).
  replace (uio_resid u) with (n1 + (uio_resid u - n1)) at 1 by lia.
  assert (0 ≤ n1 ≤ uio_resid u) as Hn1 by (unfold n1; destruct (Z.eqb_spec skip 0); lia).
  apply writes_bind; try done || lia.
  - unfold n1. destruct (Z.eqb_spec skip 0) as [|Hne]; cbn [negb]; [by apply writes_none|].
    assert ((if uio_resid u <? 512 - skip then uio_resid u else 512 - skip) = Z.min (512 - skip) (uio_resid u)) as ->
      by (destruct (Z.ltb_spec (uio_resid u) (512 - skip)); lia).
    apply partialio_write; try done || lia.
  - intros sv1 u1 sfs1 Hwf1 Hin1 (_ & Ho1 & Hr1 & _) Hw1 Hk1 Hd1. cbv beta.
    destruct (Z.eqb_spec (uio_resid u1) 0) as [E0|Hne0].
    { replace (uio_resid u - n1) with 0 by lia. by apply writes_none. }
    assert (uio_offset u1 mod 512 = 0) as Hal.
    { rewrite Ho1. unfold n1 in *. unfold skip in *. destruct (Z.eqb_spec (uio_offset u mod 512) 0); Z.to_euclidean_division_equations; lia. }
    rewrite Hal. change (kassert (0 =? 0)) with (Ok tt). rewrite bind_of_Ok.
    rewrite <-Hr1. set (k := uio_resid u1 / 512). assert (0 ≤ k) as Hk0 by (apply Z.div_pos; lia).
    assert (uio_resid u1 = k * 512 + uio_resid u1 mod 512) as Hsplit by (unfold k; Z.to_euclidean_division_equations; lia).
    pose proof (Z.mod_pos_bound (uio_resid u1) 512 ltac:(lia)) as Hrm.
    rewrite Hsplit at 1. replace (k * 512) with (Z.of_nat (Z.to_nat k) * 512) by lia.
    apply writes_bind; try done || lia.
    + apply io_blocks_write; try done || lia.
    + intros sv2 u2 sfs2 Hwf2 Hin2 (_ & Ho2 & Hr2 & _) Hw2 Hk2 Hd2. cbv beta.
      rewrite (proj2 (Z.ltb_lt (uio_resid u2) 512)) by lia. change (kassert true) with (Ok tt). rewrite bind_of_Ok.
      replace (uio_resid u1 mod 512) with (uio_resid u2) by lia.
      destruct (Z.ltb_spec 0 (uio_resid u2)); [|replace (uio_resid u2) with 0 by lia; by apply writes_none].
      assert (uio_offset u2 mod 512 = 0) as Hal2 by (rewrite Ho2; Z.to_euclidean_division_equations; lia).
      pose proof (partialio_write sv2 u2 m (uio_resid u2) sfs2) as Hp. rewrite Hal2 in Hp.
      apply Hp; try done || lia.
Qed.

(** Setting the length of the file does not change its blocks. *)
Lemma grown_size sfs sv sfs' sv' n : grown sfs sv sfs' sv' → grown sfs sv sfs' (dirtied (with_size n (sv_i sv')) sv').
Proof.
  intros [G1 G2 [I1 I2 I3] G4 G5 G6 G7 G8 G9 G10]. constructor; try done. by right.
Qed.

(** What [sfs_io] does when it writes. *)
Definition io_writes sv u m sfs (r : outcome io_state) : Prop :=
  ∃ e j w sv' u' sfs', r = Ok (e, sv', u', m, sfs') ∧ 0 ≤ w ≤ j ∧ j ≤ uio_resid u ∧ advanced j u u' ∧ uio_wf m u' ∧
    grown sfs sv sfs' sv' ∧
    sfi_size (sv_i sv') = (if j =? 0 then sfi_size (sv_i sv) else Z.max (sfi_size (sv_i sv)) (uio_offset u + j)) ∧
    stored (uio_offset u) (take (Z.to_nat w) (uio_bytes m u)) sfs sv sfs' sv' ∧
    write_result (uio_resid u) e j w u m sfs'.

Lemma sfs_io_write sv u m sfs :
  sfs_wf sfs → inode_wf sfs sv → uio_wf m u → kernel_uio m u → uio_dir u = UIO_WRITE →
  uio_offset u + uio_resid u < two32 → io_writes sv u m sfs (sfs_io sv u m sfs).
Proof.
  intros Hwf Hin Hu Hk Hd Ho. pose proof (uw_resid _ _ Hu) as [Hr0 Hr1]. pose proof (uw_offset _ _ Hu) as [Ho0 _].
  unfold sfs_io. assert (writing u = true) as -> by (unfold writing; by rewrite Hd). cbn [negb andb orb].
  change (kassert true) with (Ok tt). rewrite bind_of_Ok. cbv zeta. rewrite Z.sub_0_r, (u32_id (uio_resid u)) by width.
  replace (with_resid (uio_resid u) u) with u by (by destruct u).
  destruct (io_body_write sv u m sfs Hwf Hin Hu Hk Hd) as (e & j & w & sv1 & u1 & sfs1 & -> & Hw & Hj & Ha & Hu1 & Hg & Hsz & Hst & Hres);
    [unfold two32 in *; lia|].
  rewrite bind_of_Ok. cbv beta iota. pose proof Ha as (_ & A2 & A3 & _ & A5 & _).
  assert (with_resid (u32 (uio_resid u1 + 0)) u1 = u1) as ->.
  { rewrite Z.add_0_r, u32_id by width. by destruct u1. }
  assert (writing u1 = true) as Hw1 by (unfold writing; by rewrite A5, Hd).
  assert (negb (uio_resid u1 =? uio_resid u) = negb (j =? 0)) as Ej.
  { rewrite A3. destruct (Z.eqb_spec j 0); destruct (Z.eqb_spec (uio_resid u - j) (uio_resid u)); done || lia. }
  exists e, j, w, (set_length (uio_resid u) sv1 u1), u1, sfs1. do 5 (split; [done|]).
  unfold set_length. rewrite Hw1, Ej, Hsz, A2.
  destruct (Z.eqb_spec j 0) as [->|Hj0]; cbn [negb andb]; [done|].
  destruct (Z.ltb_spec (sfi_size (sv_i sv)) (uio_offset u + j)) as [Hlt|Hge].
  - split; [by apply grown_size|]. split; [cbn; rewrite u32_id by width; lia|]. done.
  - split; [done|]. split; [lia|]. done.
Qed.

(** ** Other files *)

(** Two files with no block in common. *)
Definition disjoint_files sfs sv1 sv2 : Prop := ∀ b, b ∈ owned sfs sv1 → b ∉ owned sfs sv2.

Lemma owned_used sfs sv b : inode_wf sfs sv → b ∈ owned sfs sv → 0 ≤ b ∧ used sfs b = true.
Proof. intros Hin Hb. destruct (iw_used _ _ Hin b Hb). split; [lia|done]. Qed.

(** Growing one file leaves the others as they are. *)
Lemma grown_others sfs sv sfs' sv' sv2 :
  sfs_wf sfs → grown sfs sv sfs' sv' → inode_wf sfs sv2 → disjoint_files sfs sv sv2 →
  inode_wf sfs' sv2 ∧ same_data sfs sv2 sfs' sv2 ∧ disjoint_files sfs' sv' sv2.
Proof.
  intros Hwf Hg Hin2 Hdis.
  assert (∀ b, b ∈ owned sfs sv2 → sector sfs' b = sector sfs b) as Hsec.
  { intros b Hb. destruct (owned_used sfs sv2 b Hin2 Hb). apply (gr_other _ _ _ _ Hg); try done. intros Hb1. by apply (Hdis b). }
  assert (fblocks sfs' sv2 = fblocks sfs sv2) as Hfb.
  { unfold fblocks, idwords. destruct (Z.eqb_spec (sfi_indirect (sv_i sv2)) 0); [done|]. by rewrite Hsec by (by apply indirect_owned). }
  assert (owned sfs' sv2 = owned sfs sv2) as Hown by (unfold owned, table; by rewrite Hfb).
  split_and!.
  - destruct Hin2 as [I1 I2 I3]. constructor; [done|by rewrite Hown|]. intros b. rewrite Hown, (gr_sb _ _ _ _ Hg). intros Hb.
    destruct (I3 b Hb) as [Hr Hu]. split; [done|]. rewrite (gr_use _ _ _ _ Hg), Hu by lia. done.
  - split; [|done]. intros i. unfold fdata, bdata, fblock. rewrite Hfb. fold (fblock sfs sv2 i).
    destruct (Z.eqb_spec (fblock sfs sv2 i) 0); [done|]. by apply Hsec, fblock_owned.
  - intros b Hb. rewrite Hown. intros Hb2. destruct (gr_new _ _ _ _ Hg b Hb) as [Hb1|Hf]; [by apply (Hdis b)|].
    destruct (owned_used sfs sv2 b Hin2 Hb2). congruence.
Qed.

End writing.
