(* ===== verification/SfsDir.v ===== *)
(** * SFS directories (kern/fs/sfs/sfs_dir.c)

    A directory is a file of 64-byte entries.  [entry] is the inode number and the
    name in a slot; a slot with inode number 0 is free.  The lemmas describe the
    operations by the names a directory binds. *)

From stdpp Require Import base gmap list list_numbers.
From Stdlib Require Import ZArith Lia.
From S2P Require Import Prelude FrameTable CopyInOut Uio Lhd Bitmap SfsDisk SfsBmap SfsIo SfsWrite.
Open Scope Z_scope.

Implicit Types (sfs : sfs_fs) (sv : sfs_vnode) (name : list Z).

(** A C string: the bytes before the terminator. *)
Fixpoint cstring (l : list Z) : list Z :=
  match l with
  | [] => []
  | c :: l => if c =? 0 then [] else c :: cstring l
  end.

Section dir.
Context `{Hardware}.

(** The result, the entry and the volume. *)
Definition sfs_readdir sv (slot : Z) sfs : outcome (Z * sfs_direntry * sfs_vnode * sfs_fs) :=
  let actualpos := u32 (slot * 64) in
  '(result, data, sv, sfs) ← sfs_metaio sv actualpos (replicate 64 0) UIO_READ sfs;
  Ok (result, dec_direntry data, sv, sfs).

Definition sfs_writedir sv (slot : Z) (sd : sfs_direntry) sfs : outcome (Z * sfs_vnode * sfs_fs) :=
  _ ← kassert (0 <=? slot);
  let actualpos := u32 (slot * 64) in
  '(result, _, sv, sfs) ← sfs_metaio sv actualpos (enc_direntry sd) UIO_WRITE sfs;
  Ok (result, sv, sfs).

Definition sfs_dir_nentries sv : outcome Z :=
  _ ← kassert (sfi_type (sv_i sv) =? SFS_TYPE_DIR);
  let size := sfi_size (sv_i sv) in
  if negb (size mod 64 =? 0) then Panic else Ok (size / 64).

(** The loop of [sfs_dir_findname]: what was found, as an inode number and a slot,
    and the last free slot that was seen. *)
Fixpoint findname_loop (slots : list Z) sv name (found : option (Z * Z)) (emptyslot : option Z) sfs
    : outcome (Z * option (Z * Z) * option Z * sfs_vnode * sfs_fs) :=
  match slots with
  | [] => Ok (match found with Some _ => 0 | None => ENOENT end, found, emptyslot, sv, sfs)
  | i :: slots =>
      '(result, tsd, sv, sfs) ← sfs_readdir sv i sfs;
      if negb (result =? 0) then Ok (result, found, emptyslot, sv, sfs)
      else if sfd_ino tsd =? SFS_NOINO then findname_loop slots sv name found (Some i) sfs
      else
        let tname := zset (sfd_name tsd) (SFS_NAMELEN - 1) 0 in
        if decide (cstring tname = name) then
          _ ← kassert (match found with None => true | Some _ => false end);
          findname_loop slots sv name (Some (sfd_ino tsd, i)) emptyslot sfs
        else findname_loop slots sv name found emptyslot sfs
  end.

Definition sfs_dir_findname sv name sfs : outcome (Z * option (Z * Z) * option Z * sfs_vnode * sfs_fs) :=
  nentries ← sfs_dir_nentries sv;
  findname_loop (seqZ 0 nentries) sv name None None sfs.

(** The result and the slot. *)
Definition sfs_dir_link sv name (ino : Z) sfs : outcome (Z * Z * sfs_vnode * sfs_fs) :=
  '(result, _, empty, sv, sfs) ← sfs_dir_findname sv name sfs;
  if negb (result =? 0) && negb (result =? ENOENT) then Ok (result, -1, sv, sfs)
  else if result =? 0 then Ok (EEXIST, -1, sv, sfs)
  else if SFS_NAMELEN <? zlen name + 1 then Ok (ENAMETOOLONG, -1, sv, sfs)
  else
    emptyslot ← match empty with Some i => Ok i | None => sfs_dir_nentries sv end;
    let sd := Direntry ino (name ++ replicate (60 - length name) 0) in
    '(result, sv, sfs) ← sfs_writedir sv emptyslot sd sfs;
    Ok (result, emptyslot, sv, sfs).

Definition sfs_dir_unlink sv (slot : Z) sfs : outcome (Z * sfs_vnode * sfs_fs) :=
  let sd := Direntry SFS_NOINO (replicate 60 0) in
  sfs_writedir sv slot sd sfs.

(** ** Metadata I/O *)

Section metaio.
Context {Hrel : Reliable}.

Lemma metaio_block pos : 0 ≤ pos < two32 →
  u32 (pos / SFS_BLOCKSIZE) = pos / 512 ∧ u32 (pos mod SFS_BLOCKSIZE) = pos mod 512.
Proof.
  intros Hp. unfold SFS_BLOCKSIZE. pose proof (Z.mod_pos_bound pos 512 ltac:(lia)).
  split; apply u32_id; unfold is_u32, two32 in *; Z.to_euclidean_division_equations; lia.
Qed.

Lemma metaio_read sv pos data sfs :
  sfs_wf sfs → inode_wf sfs sv → 0 ≤ pos → pos < 73216 → pos mod 512 + zlen data ≤ 512 →
  ∃ sfs', sfs_metaio sv pos data UIO_READ sfs = Ok (0, frange sfs sv pos (zlen data), sv, sfs') ∧ same_fs sfs sfs'.
Proof.
  intros Hwf Hin Hp Hlt Hlen. unfold sfs_metaio. destruct (metaio_block pos) as [-> ->]; [unfold two32; lia|].
  pose proof (Z.mod_pos_bound pos 512 ltac:(lia)) as Hmod.
  assert (pos = pos / 512 * 512 + pos mod 512) as Hoff by (Z.to_euclidean_division_equations; lia).
  assert (0 ≤ pos / 512 < 143) as Hfb by (Z.to_euclidean_division_equations; lia).
  set (i := pos / 512) in *. pose proof (zlen_nonneg data) as Hl0.
  assert (frange sfs sv pos (zlen data) = take (length data) (drop (Z.to_nat (pos mod 512)) (fdata sfs sv i))) as Hfr.
  { rewrite Hoff at 1. rewrite <-frange_block by (done || lia). f_equal. unfold zlen. lia. }
  destruct (sfs_bmap_spec sfs sv i false Hwf Hin ltac:(lia)) as [|? ? ? ?|block sv' sfs1 _ -> Hg Hdat _ Hsame]; [lia|done|].
  destruct Hsame as [-> Hsame]; [by left|]. rewrite bind_of_Ok. cbv beta iota. rewrite no_error.
  rewrite (same_fs_fblock sfs sfs1), Hfr by done. unfold fdata, bdata.
  destruct (Z.eqb_spec (fblock sfs sv i) 0) as [|Hne].
  { change (kassert (negb false)) with (Ok tt). rewrite bind_of_Ok. exists sfs1. split; [|done].
    unfold iobuf0. rewrite drop_replicate, take_replicate.
    by replace (length data `min` (512 - Z.to_nat (pos mod 512)))%nat with (length data) by (unfold zlen in *; lia). }
  destruct (fblock_range sfs sv Hwf Hin i) as [Hr _].
  destruct (fs_readblock_ok (fblock sfs sv i) iobuf0 sfs1) as (sfs2 & -> & Hs2); [by apply Hsame|by rewrite (sf_sb _ _ Hsame)|done|].
  rewrite bind_of_Ok. cbv beta iota. rewrite no_error. destruct (Z.ltb_spec 512 (pos mod 512 + zlen data)); [lia|].
  exists sfs2. rewrite (same_fs_sector sfs sfs1) by done. split; [done|]. by eapply same_fs_trans.
Qed.

(** What a metadata write does. *)
Inductive metaio_writes sv (pos : Z) (data : list Z) sfs : outcome (Z * list Z * sfs_vnode * sfs_fs) → Prop :=
| metaio_fails e sv' sfs' :
    e = ENOSPC ∧ fblock sfs sv (pos / 512) = 0 ∧ (∀ b, 0 ≤ b → used sfs' b = true) ∨ e = EFBIG ∧ 73216 ≤ pos → grown sfs sv sfs' sv' → same_data sfs sv sfs' sv' →
    metaio_writes sv pos data sfs (Ok (e, data, sv', sfs'))
| metaio_done sv' sfs' :
    pos < 73216 → grown sfs sv sfs' sv' → stored pos data sfs sv sfs' sv' →
    sfi_size (sv_i sv') = Z.max (sfi_size (sv_i sv)) (pos + zlen data) →
    metaio_writes sv pos data sfs (Ok (0, data, sv', sfs')).

Lemma metaio_write sv pos data sfs :
  sfs_wf sfs → inode_wf sfs sv → 0 ≤ pos → pos + zlen data < two32 → pos mod 512 + zlen data ≤ 512 →
  metaio_writes sv pos data sfs (sfs_metaio sv pos data UIO_WRITE sfs).
Proof.
  intros Hwf Hin Hp Hlt Hlen. unfold sfs_metaio. pose proof (zlen_nonneg data) as Hl0.
  destruct (metaio_block pos) as [-> ->]; [lia|]. pose proof (Z.mod_pos_bound pos 512 ltac:(lia)) as Hmod.
  assert (pos = pos / 512 * 512 + pos mod 512) as Hoff by (Z.to_euclidean_division_equations; lia).
  assert (0 ≤ pos / 512) as Hfb by (Z.to_euclidean_division_equations; lia). set (i := pos / 512) in *.
  destruct (sfs_bmap_spec sfs sv i true Hwf Hin Hfb) as [Hbig|sv1 sfs1 Hi _ Hz Hg Hdat Hfull|block sv1 sfs1 Hi -> Hg Hdat Hne _];
    rewrite bind_of_Ok; cbv beta iota.
  { apply metaio_fails; [right; split; [done|lia]|by apply grown_refl|done]. }
  { by apply metaio_fails; [left|..]. }
  rewrite no_error. specialize (Hne eq_refl). set (b := fblock sfs1 sv1 i) in *.
  pose proof (gr_wf _ _ _ _ Hg) as Hwf1. pose proof (gr_inode _ _ _ _ Hg) as Hin1.
  destruct (fblock_range sfs1 sv1 Hwf1 Hin1 i) as [Hbr _]. destruct (Z.eqb_spec b 0) as [|_]; [done|].
  destruct (fs_readblock_ok b iobuf0 sfs1 Hwf1 Hbr eq_refl) as (sfs2 & -> & Hs2). rewrite bind_of_Ok. cbv beta iota. rewrite no_error.
  assert (sector sfs1 b = fdata sfs2 sv1 i) as ->.
  { rewrite (proj1 (same_fs_data sfs1 sfs2 sv1 Hs2)). unfold fdata, bdata. fold b. by destruct (Z.eqb_spec b 0). }
  pose proof (sf_wf _ _ Hs2 Hwf1) as Hwf2. pose proof (fdata_length sfs2 sv1 i Hwf2) as Hfl.
  destruct (Z.ltb_spec 512 (pos mod 512 + zlen data)); [lia|]. cbv zeta.
  match goal with |- context [fs_writeblock b ?l _] => set (buf := l) end.
  destruct (fs_writeblock_ok b buf sfs2) as (sfs3 & -> & Hwr); [done|by rewrite (sf_sb _ _ Hs2)| |].
  { unfold buf. rewrite !length_app, length_take, length_drop. unfold zlen in *. lia. }
  rewrite bind_of_Ok. cbv beta iota. rewrite no_error.
  destruct (write_block sfs2 sv1 i buf sfs3 Hwf2 (same_fs_inode _ _ _ Hs2 Hin1) ltac:(lia)
    ltac:(by rewrite (same_fs_fblock sfs1 sfs2)) ltac:(by rewrite (same_fs_fblock sfs1 sfs2))) as [Hg3 Hf3].
  assert (grown sfs sv sfs3 sv1) as Hg13 by (eapply grown_trans; [done|]; by eapply grown_trans, Hg3; apply same_fs_grown).
  assert (stored pos data sfs sv sfs3 sv1) as Hst.
  { rewrite Hoff. eapply stored_same; [eapply same_data_trans; [exact Hdat|by apply same_fs_data]|].
    apply stored_block; [done|lia|lia|done]. }
  rewrite (proj2 Hdat). destruct (Z.ltb_spec (sfi_size (sv_i sv)) (pos + zlen data)) as [Hsz|Hsz].
  - apply metaio_done; [lia|by apply grown_size|done|]. cbn. rewrite u32_id by width. lia.
  - apply metaio_done; [lia|done|done|]. rewrite (proj2 Hdat). lia.
Qed.

(** ** Names *)

Definition entry sfs sv (i : Z) : Z * list Z :=
  let sd := dec_direntry (frange sfs sv (i * 64) 64) in
  (sfd_ino sd, cstring (zset (sfd_name sd) 59 0)).

Definition nslots sv : Z := sfi_size (sv_i sv) / 64.

(** The directory binds [name] to [ino] in [slot]. *)
Definition binds sfs sv name (ino slot : Z) : Prop :=
  0 ≤ slot < nslots sv ∧ ino ≠ 0 ∧ entry sfs sv slot = (ino, name).

Record dir_wf sfs sv : Prop := {
  dw_type : sfi_type (sv_i sv) = SFS_TYPE_DIR;
  dw_size : 0 ≤ sfi_size (sv_i sv) ≤ 73216 ∧ sfi_size (sv_i sv) mod 64 = 0;
  dw_unique name i1 s1 i2 s2 : binds sfs sv name i1 s1 → binds sfs sv name i2 s2 → s1 = s2
}.

Lemma entry_same sfs sv sfs' sv' i : same_data sfs sv sfs' sv' → entry sfs' sv' i = entry sfs sv i.
Proof. intros Hd. unfold entry. by rewrite (frange_same sfs sv sfs' sv'). Qed.

Lemma binds_same sfs sv sfs' sv' name ino slot :
  same_data sfs sv sfs' sv' → binds sfs' sv' name ino slot ↔ binds sfs sv name ino slot.
Proof. intros Hd. unfold binds, nslots. by rewrite (entry_same sfs sv sfs' sv'), (proj2 Hd). Qed.

Lemma dir_same sfs sv sfs' sv' :
  same_data sfs sv sfs' sv' → sfi_type (sv_i sv') = sfi_type (sv_i sv) → dir_wf sfs sv → dir_wf sfs' sv'.
Proof.
  intros Hd Ht [D1 D2 D3]. constructor; [by rewrite Ht|by rewrite (proj2 Hd)|].
  intros name i1 s1 i2 s2. rewrite !(binds_same sfs sv sfs' sv') by done. apply D3.
Qed.

Lemma slot_block i : i * 64 mod 512 + 64 ≤ 512.
Proof. Z.to_euclidean_division_equations. lia. Qed.

Lemma sfs_readdir_ok sfs sv i :
  sfs_wf sfs → inode_wf sfs sv → 0 ≤ i → i * 64 < 73216 →
  ∃ sfs', sfs_readdir sv i sfs = Ok (0, dec_direntry (frange sfs sv (i * 64) 64), sv, sfs') ∧ same_fs sfs sfs'.
Proof.
  intros Hwf Hin Hi Hlt. unfold sfs_readdir. rewrite (u32_id (i * 64)) by width.
  destruct (metaio_read sv (i * 64) (replicate 64 0) sfs Hwf Hin) as (sfs' & -> & Hs); [lia|lia|apply slot_block|].
  by exists sfs'.
Qed.

(** What the search knows when it has seen the slots below [i]. *)
Definition found_below sfs sv name (found : option (Z * Z)) (i : Z) : Prop :=
  match found with
  | Some (ino, slot) => binds sfs sv name ino slot ∧ slot < i
  | None => ∀ ino slot, slot < i → ¬ binds sfs sv name ino slot
  end.

Definition empty_below sfs sv (empty : option Z) (i : Z) : Prop :=
  match empty with
  | Some k => 0 ≤ k < i ∧ (entry sfs sv k).1 = 0
  | None => ∀ k, 0 ≤ k < i → (entry sfs sv k).1 ≠ 0
  end.

Lemma findname_loop_spec n : ∀ i sfs0 sv name found empty sfs,
  sfs_wf sfs0 → inode_wf sfs0 sv → dir_wf sfs0 sv → same_fs sfs0 sfs →
  0 ≤ i → i + Z.of_nat n = nslots sv → found_below sfs0 sv name found i → empty_below sfs0 sv empty i →
  ∃ found' empty' sfs', findname_loop (seqZ i (Z.of_nat n)) sv name found empty sfs =
      Ok (match found' with Some _ => 0 | None => ENOENT end, found', empty', sv, sfs') ∧ same_fs sfs0 sfs' ∧
    found_below sfs0 sv name found' (nslots sv) ∧ empty_below sfs0 sv empty' (nslots sv).
Proof.
  induction n as [|n IH]; intros i sfs0 sv name found empty sfs Hwf Hin Hdir Hs Hi Hn Hf He.
  - replace i with (nslots sv) in Hf, He by lia. rewrite seqZ_nil by lia. by exists found, empty, sfs.
  - rewrite seqZ_cons by lia. cbn [findname_loop]. rewrite Nat2Z.inj_succ, Z.pred_succ.
    pose proof (dw_size _ _ Hdir) as [D2 D3]. pose proof (dw_unique _ _ Hdir) as D4.
    assert (i * 64 < 73216) as Hpos by (unfold nslots in Hn; Z.to_euclidean_division_equations; nia).
    destruct (sfs_readdir_ok sfs sv i (sf_wf _ _ Hs Hwf) (same_fs_inode _ _ _ Hs Hin) Hi Hpos) as (sfs1 & -> & Hs1).
    rewrite bind_of_Ok. cbv beta iota. rewrite no_error. pose proof (same_fs_trans _ _ _ Hs Hs1) as Hs01.
    rewrite (frange_same sfs0 sv sfs sv) by (by apply same_fs_data). set (sd := dec_direntry (frange sfs0 sv (i * 64) 64)).
    assert (entry sfs0 sv i = (sfd_ino sd, cstring (zset (sfd_name sd) 59 0))) as Ee by done.
    assert (∀ found', found_below sfs0 sv name found' i → (∀ ino, ¬ binds sfs0 sv name ino i) →
      found_below sfs0 sv name found' (Z.succ i)) as Hskip.
    { intros [[ino slot]|] Hf' Hno; cbn in *; [split; [apply Hf'|lia]|].
      intros ino slot Hslot Hb. destruct (decide (slot = i)) as [->|]; [by eapply Hno|]. eapply Hf'; [|done]. lia. }
    assert ((entry sfs0 sv i).1 ≠ 0 → empty_below sfs0 sv empty (Z.succ i)) as Hfull.
    { intros Hne. destruct empty as [k|]; cbn in *; [split; [lia|apply He]|].
      intros k Hk. destruct (decide (k = i)) as [->|]; [done|]. apply He. lia. }
    unfold SFS_NOINO, SFS_NAMELEN. change (60 - 1) with 59. destruct (Z.eqb_spec (sfd_ino sd) 0) as [E0|Hne].
    + apply (IH (Z.succ i) sfs0); try done; [lia|lia|..].
      * apply Hskip; [done|]. intros ino (_ & Hino & Heq). rewrite Ee in Heq. by simplify_eq.
      * split; [lia|by rewrite Ee].
    + case_decide as Hname.
      * assert (binds sfs0 sv name (sfd_ino sd) i) as Hb by (split; [lia|]; split; [done|]; by rewrite Ee, Hname).
        assert (found = None) as ->.
        { destruct found as [[ino slot]|]; [|done]. destruct Hf as [Hb' Hlt].
          pose proof (D4 _ _ _ _ _ Hb Hb'). lia. }
        change (kassert true) with (Ok tt). rewrite bind_of_Ok.
        apply (IH (Z.succ i) sfs0); try done; [lia|lia| |apply Hfull; by rewrite Ee].
        split; [done|lia].
      * apply (IH (Z.succ i) sfs0); try done; [lia|lia| |apply Hfull; by rewrite Ee].
        apply Hskip; [done|]. intros ino (_ & _ & Heq). rewrite Ee in Heq. by simplify_eq.
Qed.

Lemma nentries_ok sfs sv : dir_wf sfs sv → sfs_dir_nentries sv = Ok (nslots sv).
Proof.
  intros [D1 [D2 D3] _]. unfold sfs_dir_nentries. rewrite D1, D3. done.
Qed.

(** What [sfs_dir_findname] finds: the binding of the name, and a free slot if there
    is one. *)
Lemma sfs_dir_findname_ok sfs sv name :
  sfs_wf sfs → inode_wf sfs sv → dir_wf sfs sv →
  ∃ found empty sfs', sfs_dir_findname sv name sfs =
      Ok (match found with Some _ => 0 | None => ENOENT end, found, empty, sv, sfs') ∧ same_fs sfs sfs' ∧
    found_below sfs sv name found (nslots sv) ∧ empty_below sfs sv empty (nslots sv).
Proof.
  intros Hwf Hin Hdir. unfold sfs_dir_findname. rewrite (nentries_ok sfs) by done. rewrite bind_of_Ok.
  assert (0 ≤ nslots sv) as Hn by (apply Z.div_pos; [apply Hdir|lia]).
  pose proof (findname_loop_spec (Z.to_nat (nslots sv)) 0 sfs sv name None None sfs) as Hl. rewrite Z2Nat.id in Hl by lia.
  apply Hl; try done; [intros ino slot Hlt (Hr & _); lia|cbn; lia].
Qed.

(** ** Changing an entry *)

Lemma frange_stored_eq off bs sfs sv sfs' sv' :
  0 ≤ off → stored off bs sfs sv sfs' sv' → frange sfs' sv' off (zlen bs) = bs.
Proof.
  intros Ho Hst. unfold frange. apply list_eq. intros i. change (map ?f ?l) with (f <$> l). rewrite list_lookup_fmap.
  destruct (decide (Z.of_nat i < zlen bs)) as [Hi|Hi].
  - rewrite lookup_seqZ_lt by lia. cbn [fmap option_fmap option_map]. rewrite Hst, decide_True by lia.
    unfold zget. rewrite decide_True by lia. replace (Z.to_nat (off + Z.of_nat i - off)) with i by lia.
    unfold zlen in Hi. destruct (lookup_lt_is_Some_2 bs i) as [x Hx]; [lia|]. by rewrite Hx.
  - rewrite lookup_seqZ_ge by lia. symmetry. apply lookup_ge_None. unfold zlen in Hi. lia.
Qed.

Lemma frange_stored_ne off bs off2 n sfs sv sfs' sv' :
  0 ≤ off2 → off2 + n ≤ off ∨ off + zlen bs ≤ off2 → stored off bs sfs sv sfs' sv' →
  frange sfs' sv' off2 n = frange sfs sv off2 n.
Proof.
  intros Ho Hd Hst. unfold frange. apply list_eq. intros i. change (map ?f ?l) with (f <$> l). rewrite !list_lookup_fmap.
  destruct (seqZ off2 n !! i) as [k|] eqn:E; [|done]. apply lookup_seqZ in E. cbn [fmap option_fmap option_map].
  rewrite Hst, decide_False by lia. done.
Qed.

Lemma cstring_app name l : Forall (λ c, c ≠ 0) name → cstring (name ++ 0 :: l) = name.
Proof.
  induction 1 as [|c name Hc _ IH]; [done|]. cbn [app cstring]. destruct (Z.eqb_spec c 0); [done|]. by rewrite IH.
Qed.

(** The names that can be bound. *)
Definition name_ok name : Prop := Forall (λ c, 0 < c < 256) name ∧ zlen name < SFS_NAMELEN.

Lemma padded_name name : name_ok name →
  cstring (zset (name ++ replicate (60 - length name) 0) 59 0) = name.
Proof.
  intros [Hn Hl]. unfold SFS_NAMELEN, zlen in Hl. rewrite zset_app_r by (unfold zlen; lia).
  assert (Forall (λ c, c ≠ 0) name) as Hnz by (eapply Forall_impl; [exact Hn|]; cbn; intros; lia).
  assert (zset (replicate (60 - length name) 0) (59 - zlen name) 0 = replicate (60 - length name) 0) as ->.
  { apply zset_id. unfold zget. rewrite decide_True by (unfold zlen; lia). apply lookup_replicate. unfold zlen. lia. }
  destruct (60 - length name)%nat as [|k] eqn:E; [lia|]. by apply cstring_app.
Qed.

Lemma padded_typed ino name : is_u32 ino → name_ok name → direntry_typed (Direntry ino (name ++ replicate (60 - length name) 0)).
Proof.
  intros Hi [Hn Hl]. unfold SFS_NAMELEN, zlen in Hl. constructor; [done|]. cbn. split.
  - rewrite length_app, length_replicate. lia.
  - apply Forall_app. split; [eapply Forall_impl; [exact Hn|]; cbn; unfold is_byte; intros; lia|].
    apply Forall_replicate. unfold is_byte. lia.
Qed.

(** Writing an entry changes that slot only. *)
Inductive writedir_effect sv (slot : Z) (sd : sfs_direntry) sfs : outcome (Z * sfs_vnode * sfs_fs) → Prop :=
| writedir_fails e sv' sfs' :
    e = ENOSPC ∧ fblock sfs sv (slot * 64 / 512) = 0 ∧ (∀ b, 0 ≤ b → used sfs' b = true) ∨ e = EFBIG ∧ 73216 ≤ slot * 64 → grown sfs sv sfs' sv' → same_data sfs sv sfs' sv' →
    writedir_effect sv slot sd sfs (Ok (e, sv', sfs'))
| writedir_done sv' sfs' :
    slot * 64 < 73216 → grown sfs sv sfs' sv' → sfi_size (sv_i sv') = Z.max (sfi_size (sv_i sv)) (slot * 64 + 64) →
    entry sfs' sv' slot = (sfd_ino sd, cstring (zset (sfd_name sd) 59 0)) →
    (∀ i, 0 ≤ i → i ≠ slot → entry sfs' sv' i = entry sfs sv i) →
    writedir_effect sv slot sd sfs (Ok (0, sv', sfs')).

Lemma sfs_writedir_ok sv slot sd sfs :
  sfs_wf sfs → inode_wf sfs sv → 0 ≤ slot → slot * 64 + 64 < two32 → direntry_typed sd →
  writedir_effect sv slot sd sfs (sfs_writedir sv slot sd sfs).
Proof.
  intros Hwf Hin Hs Hlt Ht. destruct (direntry_roundtrip sd Ht) as (Hrt & Hl & _). unfold sfs_writedir.
  rewrite (proj2 (Z.leb_le 0 slot)) by done. change (kassert true) with (Ok tt). rewrite bind_of_Ok.
  rewrite (u32_id (slot * 64)) by width. assert (zlen (enc_direntry sd) = 64) as Hz by (unfold zlen; by rewrite Hl).
  pose proof (slot_block slot) as Hsb.
  destruct (metaio_write sv (slot * 64) (enc_direntry sd) sfs Hwf Hin) as [e sv' sfs' He Hg Hd|sv' sfs' Hps Hg Hst Hsz];
    [lia|lia|lia| |]; rewrite bind_of_Ok; cbv beta iota.
  - by apply writedir_fails.
  - apply writedir_done; [done|done|by rewrite Hsz, Hz| |].
    + unfold entry. pose proof (frange_stored_eq (slot * 64) (enc_direntry sd) sfs sv sfs' sv' ltac:(lia) Hst) as Hf. rewrite Hz in Hf. by rewrite Hf, Hrt.
    + intros i Hi Hne. unfold entry. rewrite (frange_stored_ne (slot * 64) (enc_direntry sd) (i * 64) 64 sfs sv sfs' sv'); [done|lia| |done].
      rewrite Hz. lia.
Qed.

(** ** Link and unlink *)

(** The binding in [slot] has been replaced. *)
Definition rebound (slot : Z) (new : option (Z * list Z)) sfs sv sfs' sv' : Prop :=
  ∀ nm i s, binds sfs' sv' nm i s ↔ s = slot ∧ new = Some (i, nm) ∨ s ≠ slot ∧ binds sfs sv nm i s.

Lemma rebind sv slot ino name sfs sv' sfs' :
  dir_wf sfs sv → 0 ≤ slot ≤ nslots sv → slot * 64 < 73216 → grown sfs sv sfs' sv' →
  sfi_size (sv_i sv') = Z.max (sfi_size (sv_i sv)) (slot * 64 + 64) →
  entry sfs' sv' slot = (ino, name) → (∀ i, 0 ≤ i → i ≠ slot → entry sfs' sv' i = entry sfs sv i) →
  (ino ≠ 0 → ∀ i s, ¬ binds sfs sv name i s) →
  rebound slot (if ino =? 0 then None else Some (ino, name)) sfs sv sfs' sv' ∧ dir_wf sfs' sv'.
Proof.
  intros [D1 [D2 D3] D4] Hs Hlt Hg Hsz He Hothers Hnew.
  assert (sfi_size (sv_i sv) = nslots sv * 64) as Hns by (unfold nslots; Z.to_euclidean_division_equations; lia).
  assert (nslots sv' = Z.max (nslots sv) (slot + 1)) as Hns'.
  { unfold nslots at 1. rewrite Hsz, Hns. replace (Z.max _ _) with (Z.max (nslots sv) (slot + 1) * 64) by lia. by apply Z.div_mul. }
  assert (rebound slot (if ino =? 0 then None else Some (ino, name)) sfs sv sfs' sv') as Hre.
  { intros nm i s. unfold binds. rewrite Hns'. destruct (decide (s = slot)) as [->|Hne].
    - rewrite He. destruct (Z.eqb_spec ino 0) as [->|Hi0]; split.
      + intros (_ & Hi & Heq). by simplify_eq.
      + intros [[_ ?]|[? _]]; done.
      + intros (_ & Hi & Heq). simplify_eq. by left.
      + intros [[_ Heq]|[? _]]; [|done]. simplify_eq. split_and!; done || lia.
    - split.
      + intros (Hr & Hi & Heq). right. split; [done|]. rewrite Hothers in Heq by lia. split_and!; done || lia.
      + intros [[? _]|[_ (Hr & Hi & Heq)]]; [done|]. rewrite Hothers by lia. split_and!; done || lia. }
  split; [done|]. constructor.
  - destruct (gr_ino _ _ _ _ Hg) as (_ & -> & _). done.
  - rewrite Hsz. split; Z.to_euclidean_division_equations; lia.
  - intros nm i1 s1 i2 s2 H1%Hre H2%Hre. destruct H1 as [[-> H1]|[N1 H1]], H2 as [[-> H2]|[N2 H2]]; try done.
    + destruct (Z.eqb_spec ino 0); simplify_eq. exfalso. by eapply Hnew.
    + destruct (Z.eqb_spec ino 0); simplify_eq. exfalso. by eapply Hnew.
    + by eapply D4.
Qed.

Inductive link_effect sv name (ino : Z) sfs : outcome (Z * Z * sfs_vnode * sfs_fs) → Prop :=
| link_exists i s sfs' :
    binds sfs sv name i s → same_fs sfs sfs' → link_effect sv name ino sfs (Ok (EEXIST, -1, sv, sfs'))
| link_toolong sfs' :
    (∀ i s, ¬ binds sfs sv name i s) → SFS_NAMELEN ≤ zlen name → same_fs sfs sfs' →
    link_effect sv name ino sfs (Ok (ENAMETOOLONG, -1, sv, sfs'))
| link_fails e slot sv' sfs' :
    (∀ i s, ¬ binds sfs sv name i s) → zlen name < SFS_NAMELEN →
    e = ENOSPC ∧ (∀ b, 0 ≤ b → used sfs' b = true) ∨ e = EFBIG ∧ (∀ k, 0 ≤ k < 1144 → (entry sfs sv k).1 ≠ 0) ∧ nslots sv = 1144 →
    grown sfs sv sfs' sv' → same_data sfs sv sfs' sv' → link_effect sv name ino sfs (Ok (e, slot, sv', sfs'))
| link_done slot sv' sfs' :
    (∀ i s, ¬ binds sfs sv name i s) → zlen name < SFS_NAMELEN → grown sfs sv sfs' sv' → dir_wf sfs' sv' →
    rebound slot (Some (ino, name)) sfs sv sfs' sv' → (∀ nm i, ¬ binds sfs sv nm i slot) →
    link_effect sv name ino sfs (Ok (0, slot, sv', sfs')).

Lemma sfs_dir_link_ok sv name ino sfs :
  sfs_wf sfs → inode_wf sfs sv → dir_wf sfs sv → Forall (λ c, 0 < c < 256) name → is_u32 ino → ino ≠ 0 →
  link_effect sv name ino sfs (sfs_dir_link sv name ino sfs).
Proof.
  intros Hwf Hin Hdir Hname Hino Hi0. unfold sfs_dir_link.
  destruct (sfs_dir_findname_ok sfs sv name Hwf Hin Hdir) as (found & empty & sfs1 & -> & Hs1 & Hf & He).
  rewrite bind_of_Ok. cbv beta iota. destruct found as [[i s]|].
  { destruct Hf as [Hb _]. by eapply link_exists. }
  change (negb (ENOENT =? 0) && negb (ENOENT =? ENOENT)) with false. cbv iota. change (ENOENT =? 0) with false. cbv iota.
  assert (∀ i s, ¬ binds sfs sv name i s) as Hno by (intros i s Hb; eapply Hf; [apply Hb|done]).
  destruct (Z.ltb_spec SFS_NAMELEN (zlen name + 1)) as [Hlong|Hlen]; [apply link_toolong; done || lia|].
  assert (∃ slot, match empty with Some i => Ok i | None => sfs_dir_nentries sv end = Ok slot ∧ 0 ≤ slot ≤ nslots sv ∧
            (∀ nm i, ¬ binds sfs sv nm i slot) ∧ (slot = nslots sv → ∀ k, 0 ≤ k < nslots sv → (entry sfs sv k).1 ≠ 0))
    as (slot & -> & Hslot & Hfree & Hfullslots).
  { unfold empty_below in He. destruct empty as [k|].
    - exists k. split; [done|]. split; [lia|]. split; [|lia]. intros nm i (_ & Hi & Heq). rewrite Heq in He. by destruct He.
    - exists (nslots sv). split; [by apply (nentries_ok sfs)|]. assert (0 ≤ nslots sv) by (apply Z.div_pos; [apply Hdir|lia]).
      split; [lia|]. split; [intros nm i (Hr & _); lia|done]. }
  rewrite bind_of_Ok. cbv beta zeta. assert (name_ok name) as Hok by (split; [done|lia]).
  pose proof (dw_size _ _ Hdir) as [Hsz Hm].
  assert (slot * 64 ≤ 73216) as Hsl by (unfold nslots in Hslot; Z.to_euclidean_division_equations; nia).
  set (sd := Direntry ino _). assert (same_data sfs sv sfs1 sv) as Hd1 by (by apply same_fs_data).
  pose proof (same_fs_grown _ _ _ Hs1 Hwf Hin) as Hg1.
  destruct (sfs_writedir_ok sv slot sd sfs1) as [e sv' sfs' Hc Hg Hd|sv' sfs' Hps Hg Hsz' He' Hot];
    [by apply Hs1|by apply (same_fs_inode sfs)|lia|unfold two32; lia|by apply padded_typed| |]; rewrite bind_of_Ok.
  - apply link_fails; [done|lia| |by eapply grown_trans|by eapply same_data_trans].
    destruct Hc as [(-> & _ & Hfull)|[-> Hbig]]; [by left|right].
    assert (nslots sv = 1144) as Hns by (unfold nslots in *; Z.to_euclidean_division_equations; nia).
    split; [done|]. split; [|done]. intros k Hk. apply Hfullslots; lia.
  - unfold sd in He'. cbn [sfd_ino sfd_name] in He'. rewrite padded_name in He' by done.
    pose proof (grown_trans _ _ _ _ _ _ Hg1 Hg) as Hg'.
    destruct (rebind sv slot ino name sfs sv' sfs' Hdir Hslot Hps Hg' Hsz' He') as [Hre Hdir']; [|by intros _|].
    { intros i Hi Hne. rewrite Hot by done. by apply entry_same. }
    rewrite (proj2 (Z.eqb_neq ino 0)) in Hre by done. apply link_done; done || lia.
Qed.

(** A slot in a hole is free. *)
Lemma entry_hole sfs sv i : sfs_wf sfs → 0 ≤ i → fblock sfs sv (i * 64 / 512) = 0 → (entry sfs sv i).1 = 0.
Proof.
  intros Hwf Hi Hz. unfold entry. cbn [fst].
  assert (i * 64 = i * 64 / 512 * 512 + i * 64 mod 512) as Hoff by (Z.to_euclidean_division_equations; lia).
  pose proof (slot_block i) as Hsb. pose proof (Z.mod_pos_bound (i * 64) 512 ltac:(lia)) as Hm.
  rewrite Hoff, <-frange_block by (done || lia). unfold fdata, bdata. rewrite Hz. cbn [Z.eqb].
  unfold iobuf0. rewrite drop_replicate, take_replicate.
  replace (Z.to_nat 64 `min` (512 - Z.to_nat (i * 64 mod 512)))%nat with 64%nat by lia. done.
Qed.

Lemma sfs_dir_unlink_ok sv name ino slot sfs :
  sfs_wf sfs → inode_wf sfs sv → dir_wf sfs sv → binds sfs sv name ino slot →
  ∃ sv' sfs', sfs_dir_unlink sv slot sfs = Ok (0, sv', sfs') ∧ grown sfs sv sfs' sv' ∧ dir_wf sfs' sv' ∧
    rebound slot None sfs sv sfs' sv'.
Proof.
  intros Hwf Hin Hdir (Hs & Hi0 & He). unfold sfs_dir_unlink. pose proof (dw_size _ _ Hdir) as [Hsz Hm].
  assert (slot * 64 < 73216) as Hsl by (unfold nslots in Hs; Z.to_euclidean_division_equations; nia).
  destruct (sfs_writedir_ok sv slot (Direntry SFS_NOINO (replicate 60 0)) sfs) as [e sv' sfs' Hc Hg Hd|sv' sfs' Hps Hg Hsz' He' Hot];
    [done|done|lia|unfold two32; lia|constructor; [done|]; split; [done|by apply Forall_replicate]|..].
  - destruct Hc as [(_ & Hz & _)|[_ ?]]; [|lia]. apply entry_hole in Hz; [|done|lia]. rewrite He in Hz. done.
  - destruct (rebind sv slot 0 [] sfs sv' sfs' Hdir ltac:(lia) Hps Hg Hsz' He' Hot) as [Hre Hdir']; [done|].
    exists sv', sfs'. split; [done|]. split; [done|]. split; [done|exact Hre].
Qed.

End metaio.

End dir.
