(* ===== verification/SfsVnode.v ===== *)
(** * SFS vnodes (kern/fs/sfs/sfs_inode.c, sfs_vnops.c, kern/vfs/vnode.c)

    A mounted volume has a table [sfs_vnodes] of pointers to the vnodes in memory;
    the vnodes are objects in [vheap] with a reference count.  The operations here
    are those of sfs_inode.c and of the vnode operation tables of sfs_vnops.c, and
    the reference counting of vnode.c.  [mallocs] says which of the next memory
    allocations succeed; when it is empty all of them do. *)

From stdpp Require Import base gmap list list_numbers.
From Stdlib Require Import ZArith Lia.
From S2P Require Import Prelude FrameTable CopyInOut Uio Lhd Bitmap SfsDisk SfsBmap SfsIo SfsWrite SfsDir.
Open Scope Z_scope.

(** An [sfs_vnode] with the reference count of its abstract vnode. *)
Record svnode := Vn { vn_data : sfs_vnode; vn_refcount : Z }.

Record volume := Volume {
  vol_fs : sfs_fs;
  sfs_vnodes : list Z;
  vheap : gmap Z svnode;
  mallocs : list bool
}.

Implicit Types (vol : volume) (sfs : sfs_fs) (sv : sfs_vnode) (name : list Z) (p : Z).

Definition with_fs sfs vol : volume := Volume sfs (sfs_vnodes vol) (vheap vol) (mallocs vol).
Definition with_vn p (x : svnode) vol : volume := Volume (vol_fs vol) (sfs_vnodes vol) (<[p := x]> (vheap vol)) (mallocs vol).

(** Whether the next [kmalloc] succeeds. *)
Definition malloc vol : bool * volume :=
  match mallocs vol with
  | [] => (true, vol)
  | b :: l => (b, Volume (vol_fs vol) (sfs_vnodes vol) (vheap vol) l)
  end.

Definition get_vn p vol : outcome svnode := deref (vheap vol !! p).

(** An operation on the inode of a vnode. *)
Definition on_vnode {A} p (f : sfs_vnode → sfs_fs → outcome (A * sfs_vnode * sfs_fs)) vol : outcome (A * volume) :=
  x ← get_vn p vol;
  '(a, sv, sfs) ← f (vn_data x) (vol_fs vol);
  Ok (a, with_vn p (Vn sv (vn_refcount x)) (with_fs sfs vol)).

Definition with_links (n : Z) (d : sfs_dinode) : sfs_dinode :=
  Dinode (sfi_size d) (sfi_type d) n (sfi_direct d) (sfi_indirect d) (sfi_waste d).
Definition with_type (n : Z) (d : sfs_dinode) : sfs_dinode :=
  Dinode (sfi_size d) n (sfi_linkcount d) (sfi_direct d) (sfi_indirect d) (sfi_waste d).

(** Conversion to [uint16_t]. *)
Definition u16 (z : Z) : Z := z mod 65536.

(** [sfi_linkcount += n] and [sv_dirty = true]. *)
Definition add_links (n : Z) sv : sfs_vnode := dirtied (with_links (u16 (sfi_linkcount (sv_i sv) + n)) (sv_i sv)) sv.

Section vnode.
Context `{Hardware}.

(** ** vnode.c *)

Definition vnode_incref p vol : outcome volume :=
  x ← get_vn p vol;
  Ok (with_vn p (Vn (vn_data x) (vn_refcount x + 1)) vol).

(** ** sfs_inode.c *)

Definition sfs_sync_inode sv sfs : outcome (Z * sfs_vnode * sfs_fs) :=
  if sv_dirty sv then
    '(result, sfs) ← fs_writeblock (sv_ino sv) (enc_dinode (sv_i sv)) sfs;
    if negb (result =? 0) then Ok (result, sv, sfs)
    else Ok (0, SfsVnode (sv_i sv) (sv_ino sv) false, sfs)
  else Ok (0, sv, sfs).

Definition sfs_reclaim p vol : outcome (Z * volume) :=
  x ← get_vn p vol;
  if negb (vn_refcount x =? 1) then
    _ ← kassert (1 <? vn_refcount x);
    Ok (EBUSY, with_vn p (Vn (vn_data x) (vn_refcount x - 1)) vol)
  else
    '(result, vol) ←
      (if sfi_linkcount (sv_i (vn_data x)) =? 0 then on_vnode p (λ sv sfs, sfs_itrunc sv 0 sfs) vol else Ok (0, vol));
    if negb (result =? 0) then Ok (result, vol)
    else
      '(result, vol) ← on_vnode p sfs_sync_inode vol;
      if negb (result =? 0) then Ok (result, vol)
      else
        x ← get_vn p vol;
        vol ←
          (if sfi_linkcount (sv_i (vn_data x)) =? 0
           then sfs ← sfs_bfree (sv_ino (vn_data x)) (vol_fs vol); Ok (with_fs sfs vol)
           else Ok vol);
        match list_find (λ q, q = p) (sfs_vnodes vol) with
        | None => Panic
        | Some (ix, _) =>
            _ ← kassert (vn_refcount x =? 1);
            Ok (0, Volume (vol_fs vol) (delete ix (sfs_vnodes vol)) (delete p (vheap vol)) (mallocs vol))
        end.

(** [VOP_DECREF]; the result of the reclaim is only printed. *)
Definition vnode_decref p vol : outcome volume :=
  x ← get_vn p vol;
  _ ← kassert (0 <? vn_refcount x);
  if 1 <? vn_refcount x then Ok (with_vn p (Vn (vn_data x) (vn_refcount x - 1)) vol)
  else '(_, vol) ← sfs_reclaim p vol; Ok vol.

(** The search of [sfs_loadvnode]. *)
Fixpoint find_vnode (ps : list Z) (ino : Z) vol : outcome (option Z) :=
  match ps with
  | [] => Ok None
  | p :: ps =>
      x ← get_vn p vol;
      used ← sfs_bused (sv_ino (vn_data x)) (vol_fs vol);
      _ ← kassert used;
      if sv_ino (vn_data x) =? ino then Ok (Some p) else find_vnode ps ino vol
  end.

(** The result and the vnode. *)
Definition sfs_loadvnode (ino forcetype : Z) vol : outcome (Z * Z * volume) :=
  found ← find_vnode (sfs_vnodes vol) ino vol;
  match found with
  | Some p =>
      _ ← kassert (forcetype =? SFS_TYPE_INVAL);
      vol ← vnode_incref p vol;
      Ok (0, p, vol)
  | None =>
      let '(have_sv, vol) := malloc vol in
      if negb have_sv then Ok (ENOMEM, 0, vol)
      else
        used ← sfs_bused ino (vol_fs vol);
        _ ← kassert used;
        '(result, data, sfs) ← fs_readblock ino iobuf0 (vol_fs vol);
        let vol := with_fs sfs vol in
        if negb (result =? 0) then Ok (result, 0, vol)
        else
          let d := dec_dinode data in
          _ ← kassert ((forcetype =? SFS_TYPE_INVAL) || (sfi_type d =? SFS_TYPE_INVAL));
          let sv := if forcetype =? SFS_TYPE_INVAL then SfsVnode d ino false
                    else SfsVnode (with_type forcetype d) ino true in
          if negb (sfi_type (sv_i sv) =? SFS_TYPE_FILE) && negb (sfi_type (sv_i sv) =? SFS_TYPE_DIR) then Panic
          else
            let '(have_slot, vol) := malloc vol in
            if negb have_slot then Ok (ENOMEM, 0, vol)
            else
              let p := fresh (dom (vheap vol) ∪ {[0]}) in
              Ok (0, p, Volume (vol_fs vol) (sfs_vnodes vol ++ [p]) (<[p := Vn sv 1]> (vheap vol)) (mallocs vol))
  end.

Definition sfs_makeobj (type : Z) vol : outcome (Z * Z * volume) :=
  '(result, ino, sfs) ← sfs_balloc (vol_fs vol);
  let vol := with_fs sfs vol in
  if negb (result =? 0) then Ok (result, 0, vol)
  else
    '(result, p, vol) ← sfs_loadvnode ino type vol;
    if negb (result =? 0) then
      sfs ← sfs_bfree ino (vol_fs vol);
      Ok (result, 0, with_fs sfs vol)
    else Ok (0, p, vol).

Definition sfs_getroot vol : outcome (Z * Z * volume) :=
  '(result, p, vol) ← sfs_loadvnode SFS_ROOTDIR_INO SFS_TYPE_INVAL vol;
  if negb (result =? 0) then Ok (result, 0, vol)
  else
    x ← get_vn p vol;
    if negb (sfi_type (sv_i (vn_data x)) =? SFS_TYPE_DIR) then Ok (EINVAL, 0, vol)
    else Ok (0, p, vol).

(** ** sfs_dir.c: looking up a vnode *)

(** [sfs_dir_findname] and [sfs_dir_link] on a vnode. *)
Definition dir_findname dir name vol : outcome (Z * option (Z * Z) * volume) :=
  on_vnode dir (λ sv sfs,
    '(result, found, _, sv, sfs) ← sfs_dir_findname sv name sfs; Ok ((result, found), sv, sfs)) vol.

Definition dir_link dir name (ino : Z) vol : outcome (Z * Z * volume) :=
  on_vnode dir (λ sv sfs, '(result, slot, sv, sfs) ← sfs_dir_link sv name ino sfs; Ok ((result, slot), sv, sfs)) vol.

(** The result, the vnode and the slot. *)
Definition sfs_lookonce dir name vol : outcome (Z * Z * Z * volume) :=
  '(result, found, vol) ← dir_findname dir name vol;
  match found with
  | Some (ino, slot) =>
      if negb (result =? 0) then Ok (result, 0, 0, vol)
      else
        '(result, p, vol) ← sfs_loadvnode ino SFS_TYPE_INVAL vol;
        if negb (result =? 0) then Ok (result, 0, 0, vol)
        else
          x ← get_vn p vol;
          _ ← kassert (negb (sfi_linkcount (sv_i (vn_data x)) =? 0));
          Ok (0, p, slot, vol)
  | None => Ok (result, 0, 0, vol)
  end.

(** ** sfs_vnops.c *)

Definition O_ACCMODE : Z := 3.
Definition O_RDONLY : Z := 0.
Definition O_APPEND : Z := 32.
Definition S_IFREG : Z := 4096.
Definition S_IFDIR : Z := 8192.

Definition sfs_eachopen (openflags : Z) : Z := 0.

Definition sfs_eachopendir (openflags : Z) : Z :=
  if negb (Z.land openflags O_ACCMODE =? O_RDONLY) then EISDIR
  else if negb (Z.land openflags O_APPEND =? 0) then EISDIR
  else 0.

Definition sfs_read p (u : uio) (m : memory) vol : outcome (Z * uio * memory * volume) :=
  _ ← kassert (negb (writing u));
  on_vnode p (λ sv sfs, '(result, sv, u, m, sfs) ← sfs_io sv u m sfs; Ok ((result, u, m), sv, sfs)) vol.

Definition sfs_write p (u : uio) (m : memory) vol : outcome (Z * uio * memory * volume) :=
  _ ← kassert (writing u);
  on_vnode p (λ sv sfs, '(result, sv, u, m, sfs) ← sfs_io sv u m sfs; Ok ((result, u, m), sv, sfs)) vol.

Definition sfs_ioctl : Z := EINVAL.

Definition sfs_gettype p vol : outcome Z :=
  x ← get_vn p vol;
  if sfi_type (sv_i (vn_data x)) =? SFS_TYPE_FILE then Ok S_IFREG
  else if sfi_type (sv_i (vn_data x)) =? SFS_TYPE_DIR then Ok S_IFDIR
  else Panic.

(** The fields of [struct stat] that are not left at 0. *)
Record stat := Stat { st_mode : Z; st_size : Z; st_nlink : Z }.

Definition sfs_stat p vol : outcome stat :=
  mode ← sfs_gettype p vol;
  x ← get_vn p vol;
  Ok (Stat mode (sfi_size (sv_i (vn_data x))) (sfi_linkcount (sv_i (vn_data x)))).

Definition sfs_isseekable : bool := true.

Definition sfs_fsync p vol : outcome (Z * volume) := on_vnode p sfs_sync_inode vol.

Definition sfs_mmap : Z := ENOSYS.

Definition sfs_truncate p (len : Z) vol : outcome (Z * volume) := on_vnode p (λ sv sfs, sfs_itrunc sv len sfs) vol.

Definition sfs_namefile p vol : outcome Z :=
  x ← get_vn p vol;
  _ ← kassert (sv_ino (vn_data x) =? SFS_ROOTDIR_INO);
  Ok 0.

(** Changing the link count of a vnode. *)
Definition vn_add_links p (n : Z) vol : outcome volume :=
  x ← get_vn p vol;
  Ok (with_vn p (Vn (add_links n (vn_data x)) (vn_refcount x)) vol).

Definition sfs_creat dir name (excl : bool) vol : outcome (Z * Z * volume) :=
  '(result, found, vol) ← dir_findname dir name vol;
  if negb (result =? 0) && negb (result =? ENOENT) then Ok (result, 0, vol)
  else if (result =? 0) && excl then Ok (EEXIST, 0, vol)
  else
    match found with
    | Some (ino, _) =>
        '(result, p, vol) ← sfs_loadvnode ino SFS_TYPE_INVAL vol;
        if negb (result =? 0) then Ok (result, 0, vol) else Ok (0, p, vol)
    | None =>
        '(result, p, vol) ← sfs_makeobj SFS_TYPE_FILE vol;
        if negb (result =? 0) then Ok (result, 0, vol)
        else
          x ← get_vn p vol;
          '(result, _, vol) ← dir_link dir name (sv_ino (vn_data x)) vol;
          if negb (result =? 0) then
            vol ← vnode_decref p vol;
            Ok (result, 0, vol)
          else
            vol ← vn_add_links p 1 vol;
            Ok (0, p, vol)
    end.

Definition sfs_link dir name file vol : outcome (Z * volume) :=
  x ← get_vn file vol;
  if sfi_type (sv_i (vn_data x)) =? SFS_TYPE_DIR then Ok (EINVAL, vol)
  else
    '(result, _, vol) ← dir_link dir name (sv_ino (vn_data x)) vol;
    if negb (result =? 0) then Ok (result, vol)
    else
      vol ← vn_add_links file 1 vol;
      Ok (0, vol).

Definition sfs_remove dir name vol : outcome (Z * volume) :=
  '(result, victim, slot, vol) ← sfs_lookonce dir name vol;
  if negb (result =? 0) then Ok (result, vol)
  else
    '(result, vol) ← on_vnode dir (λ sv sfs, sfs_dir_unlink sv slot sfs) vol;
    vol ←
      (if result =? 0 then
        x ← get_vn victim vol;
        _ ← kassert (0 <? sfi_linkcount (sv_i (vn_data x)));
        vn_add_links victim (-1) vol
      else Ok vol);
    vol ← vnode_decref victim vol;
    Ok (result, vol).

Definition sfs_rename d1 n1 d2 n2 vol : outcome (Z * volume) :=
  x ← get_vn d1 vol;
  _ ← kassert (d1 =? d2);
  _ ← kassert (sv_ino (vn_data x) =? SFS_ROOTDIR_INO);
  '(result, g1, slot1, vol) ← sfs_lookonce d1 n1 vol;
  if negb (result =? 0) then Ok (result, vol)
  else
    y ← get_vn g1 vol;
    _ ← kassert (sfi_type (sv_i (vn_data y)) =? SFS_TYPE_FILE);
    '(result, slot2, vol) ← dir_link d1 n2 (sv_ino (vn_data y)) vol;
    if negb (result =? 0) then
      vol ← vnode_decref g1 vol;
      Ok (result, vol)
    else
      vol ← vn_add_links g1 1 vol;
      '(result, vol) ← on_vnode d1 (λ sv sfs, sfs_dir_unlink sv slot1 sfs) vol;
      if negb (result =? 0) then
        '(result2, vol) ← on_vnode d1 (λ sv sfs, sfs_dir_unlink sv slot2 sfs) vol;
        if negb (result2 =? 0) then Panic
        else
          z ← get_vn g1 vol;
          let sv := vn_data z in
          let vol := with_vn g1 (Vn (SfsVnode (with_links (u16 (sfi_linkcount (sv_i sv) - 1)) (sv_i sv)) (sv_ino sv) (sv_dirty sv))
                                   (vn_refcount z)) vol in
          vol ← vnode_decref g1 vol;
          Ok (result, vol)
      else
        z ← get_vn g1 vol;
        _ ← kassert (0 <? sfi_linkcount (sv_i (vn_data z)));
        vol ← vn_add_links g1 (-1) vol;
        vol ← vnode_decref g1 vol;
        Ok (0, vol).

(** The result, the vnode and the last component. *)
Definition sfs_lookparent p (path : list Z) (buflen : Z) vol : outcome (Z * Z * list Z * volume) :=
  x ← get_vn p vol;
  if negb (sfi_type (sv_i (vn_data x)) =? SFS_TYPE_DIR) then Ok (ENOTDIR, 0, [], vol)
  else if buflen <? zlen path + 1 then Ok (ENAMETOOLONG, 0, [], vol)
  else
    vol ← vnode_incref p vol;
    Ok (0, p, path, vol).

Definition sfs_lookup p (path : list Z) vol : outcome (Z * Z * volume) :=
  x ← get_vn p vol;
  if negb (sfi_type (sv_i (vn_data x)) =? SFS_TYPE_DIR) then Ok (ENOTDIR, 0, vol)
  else
    '(result, final, _, vol) ← sfs_lookonce p path vol;
    if negb (result =? 0) then Ok (result, 0, vol) else Ok (0, final, vol).

End vnode.
