(* ===== verification/SfsVol.v ===== *)
(** * SFS volumes: the invariant (kern/fs/sfs/sfs_inode.c, sfs_vnops.c)

    The abstract state of a volume is a map [N] from inode numbers to inodes: the
    vnode in memory where there is one, the inode on disk otherwise.  [vol_wf] relates
    it to the volume: the inodes are in blocks of their own, no block belongs to two
    files, an inode is in memory at most once, and what is not dirty is on disk.
    The lemmas say how the operations of sfs_inode.c change [N]. *)

From stdpp Require Import base gmap list list_numbers.
From Stdlib Require Import ZArith Lia.
From S2P Require Import Prelude FrameTable CopyInOut Uio Lhd Bitmap SfsDisk SfsBmap SfsTrunc SfsIo SfsWrite SfsDir SfsVnode.
Open Scope Z_scope.

Implicit Types (vol : volume) (sfs fs : sfs_fs) (sv : sfs_vnode) (name : list Z) (p i j b : Z) (N : gmap Z sfs_vnode).

Lemma dec_zeros : dec_dinode iobuf0 = Dinode 0 0 0 (replicate 15 0) 0 (replicate 110 0).
Proof. vm_compute. done. Qed.

#[local] Opaque dec_dinode enc_dinode.

Record node_wf fs i sv : Prop := {
  nw_ino : sv_ino sv = i;
  nw_block : 0 < i < sb_nblocks (sfs_sb fs) ∧ used fs i = true;
  nw_inode : inode_wf fs sv;
  nw_typed : dinode_typed (sv_i sv)
}.

Record nodes_wf N fs : Prop := {
  ns_fs : sfs_wf fs;
  ns_node i sv : N !! i = Some sv → node_wf fs i sv;
  ns_inode i j sv : N !! i = Some sv → is_Some (N !! j) → j ∉ owned fs sv;
  ns_disjoint i j svi svj : i ≠ j → N !! i = Some svi → N !! j = Some svj → disjoint_files fs svi svj;
  ns_clean i sv : N !! i = Some sv → sv_dirty sv = false → dec_dinode (sector fs i) = sv_i sv
}.

Record vol_wf N vol : Prop := {
  vw_nodes : nodes_wf N (vol_fs vol);
  vw_loaded p x : vheap vol !! p = Some x →
    N !! sv_ino (vn_data x) = Some (vn_data x) ∧ 1 ≤ vn_refcount x ∧ p ∈ sfs_vnodes vol;
  vw_table p : p ∈ sfs_vnodes vol → is_Some (vheap vol !! p);
  vw_nodup : NoDup (sfs_vnodes vol);
  vw_unique p q x y : vheap vol !! p = Some x → vheap vol !! q = Some y →
    sv_ino (vn_data x) = sv_ino (vn_data y) → p = q;
  vw_unloaded i sv : N !! i = Some sv → (∀ p x, vheap vol !! p = Some x → sv_ino (vn_data x) ≠ i) → sv_dirty sv = false
}.

(** The blocks of a node: its inode and what it owns. *)
Definition node_block fs i sv b : Prop := b = i ∨ b ∈ owned fs sv.

Lemma node_block_used fs i sv b : node_wf fs i sv → node_block fs i sv b → 0 < b < sb_nblocks (sfs_sb fs) ∧ used fs b = true.
Proof.
  intros [_ Hb Hin _] [->|Ho]; [done|]. destruct (iw_used _ _ Hin b Ho). split; [|done].
  assert (b ≠ 0) by (unfold owned in Ho; by apply elem_of_nonzero in Ho as [? _]). lia.
Qed.

Lemma nodes_apart N fs i j svi svj b :
  nodes_wf N fs → i ≠ j → N !! i = Some svi → N !! j = Some svj →
  node_block fs i svi b → node_block fs j svj b → False.
Proof.
  intros Hn Hij Hi Hj [->|H1] [->|H2].
  - done.
  - by eapply (ns_inode _ _ Hn j i).
  - by eapply (ns_inode _ _ Hn i j).
  - by eapply (ns_disjoint _ _ Hn i j).
Qed.

(** An inode, or a node, whose blocks are as before. *)
Lemma inode_frame fs fs' sv :
  sfs_sb fs' = sfs_sb fs → inode_wf fs sv →
  (∀ b, b ∈ owned fs sv → used fs' b = used fs b ∧ sector fs' b = sector fs b) →
  inode_wf fs' sv ∧ owned fs' sv = owned fs sv ∧ same_data fs sv fs' sv.
Proof.
  intros Hsb [I1 I2 I3] Hf.
  assert (fblocks fs' sv = fblocks fs sv) as Hfb.
  { unfold fblocks, idwords. destruct (Z.eqb_spec (sfi_indirect (sv_i sv)) 0); [done|].
    by rewrite (proj2 (Hf _ (indirect_owned fs sv n))). }
  assert (owned fs' sv = owned fs sv) as Hown by (unfold owned, table; by rewrite Hfb).
  split; [|split; [done|]].
  - constructor; [done|by rewrite Hown|].
    intros b Hb. rewrite Hown in Hb. rewrite Hsb, (proj1 (Hf b Hb)). by apply I3.
  - split; [|done]. intros k. unfold fdata, bdata, fblock. rewrite Hfb. fold (fblock fs sv k).
    destruct (Z.eqb_spec (fblock fs sv k) 0); [done|]. by apply Hf, fblock_owned.
Qed.

Lemma node_frame fs fs' j sv :
  sfs_sb fs' = sfs_sb fs → node_wf fs j sv →
  (∀ b, node_block fs j sv b → used fs' b = used fs b ∧ sector fs' b = sector fs b) →
  node_wf fs' j sv ∧ owned fs' sv = owned fs sv ∧ same_data fs sv fs' sv.
Proof.
  intros Hsb [N1 [N2 N3] N4 N5] Hf.
  destruct (inode_frame fs fs' sv Hsb N4) as (F1 & F2 & F3); [intros b Hb; apply Hf; by right|].
  split; [|done]. constructor; [done| |done|done]. rewrite Hsb. split; [done|]. by rewrite (proj1 (Hf j (or_introl eq_refl))).
Qed.

(** One node is changed or added: [old] are the blocks it had. *)
Lemma nodes_update N fs i sv' fs' (old : Z → Prop) :
  nodes_wf N fs → sfs_wf fs' → sfs_sb fs' = sfs_sb fs → node_wf fs' i sv' →
  (∀ j svj b, j ≠ i → N !! j = Some svj → node_block fs j svj b → ¬ old b) →
  (∀ b, 0 ≤ b → used fs b = true → ¬ old b → used fs' b = true ∧ sector fs' b = sector fs b) →
  (∀ b, node_block fs' i sv' b → old b ∨ used fs b = false) →
  i ∉ owned fs' sv' →
  (sv_dirty sv' = false → dec_dinode (sector fs' i) = sv_i sv') →
  nodes_wf (<[i := sv']> N) fs' ∧
  ∀ j svj, j ≠ i → N !! j = Some svj → same_data fs svj fs' svj ∧ owned fs' svj = owned fs svj.
Proof.
  intros Hn Hwf' Hsb Hnode Hold Hkeep Hnew Hself Hclean.
  assert (∀ j svj b, j ≠ i → N !! j = Some svj → node_block fs j svj b → used fs' b = used fs b ∧ sector fs' b = sector fs b) as Hf.
  { intros j svj b Hji Hj Hb. destruct (node_block_used fs j svj b (ns_node _ _ Hn j svj Hj) Hb) as [Hr Hu].
    rewrite Hu. apply Hkeep; [lia|done|]. by eapply Hold. }
  assert (∀ j svj, j ≠ i → N !! j = Some svj → node_wf fs' j svj ∧ owned fs' svj = owned fs svj ∧ same_data fs svj fs' svj) as Ho.
  { intros j svj Hji Hj. apply node_frame; [done|by eapply ns_node|]. intros b Hb. by eapply Hf. }
  assert (∀ j svj b, j ≠ i → N !! j = Some svj → node_block fs j svj b → ¬ node_block fs' i sv' b) as Hap.
  { intros j svj b Hji Hj Hb Hb'. destruct (Hnew b Hb') as [Hb2|Hb2]; [by eapply Hold|].
    destruct (node_block_used fs j svj b (ns_node _ _ Hn j svj Hj) Hb). congruence. }
  split; [|intros j svj Hji Hj; by destruct (Ho j svj Hji Hj) as (_ & ? & ?)].
  constructor; [done|..].
  - intros j svj Hj. destruct (decide (j = i)) as [->|Hji]; [rewrite lookup_insert_eq in Hj; by simplify_eq|].
    rewrite lookup_insert_ne in Hj by done. by apply Ho.
  - intros j k svj Hj Hk. destruct (decide (j = i)) as [->|Hji].
    + rewrite lookup_insert_eq in Hj. simplify_eq. destruct (decide (k = i)) as [->|Hki]; [done|].
      rewrite lookup_insert_ne in Hk by done. destruct Hk as [svk Hk]. intros Hc.
      eapply (Hap k svk k); [done|done|by left|by right].
    + rewrite lookup_insert_ne in Hj by done. rewrite (proj1 (proj2 (Ho j svj Hji Hj))).
      destruct (decide (k = i)) as [->|Hki].
      * intros Hc. eapply (Hap j svj i); [done|done|by right|by left].
      * rewrite lookup_insert_ne in Hk by done. by eapply ns_inode.
  - intros j k svj svk Hjk Hj Hk b Hb1 Hb2.
    destruct (decide (j = i)) as [->|Hji]; [|rewrite lookup_insert_ne in Hj by done];
      destruct (decide (k = i)) as [->|Hki]; rewrite ?lookup_insert_eq in *; try done.
    + rewrite lookup_insert_ne in Hk by done. simplify_eq. rewrite (proj1 (proj2 (Ho k svk Hki Hk))) in Hb2.
      eapply (Hap k svk b); [done|done|by right|by right].
    + simplify_eq. rewrite (proj1 (proj2 (Ho j svj Hji Hj))) in Hb1. eapply (Hap j svj b); [done|done|by right|by right].
    + rewrite lookup_insert_ne in Hk by done. rewrite (proj1 (proj2 (Ho j svj Hji Hj))) in Hb1.
      rewrite (proj1 (proj2 (Ho k svk Hki Hk))) in Hb2. by eapply (ns_disjoint _ _ Hn j k).
  - intros j svj Hj Hd. destruct (decide (j = i)) as [->|Hji]; [rewrite lookup_insert_eq in Hj; simplify_eq; auto|].
    rewrite lookup_insert_ne in Hj by done. rewrite (proj2 (Hf j svj j Hji Hj (or_introl eq_refl))). by apply (ns_clean _ _ Hn).
Qed.

(** The blocks that the other nodes do not have. *)
Lemma nodes_old N fs i sv : nodes_wf N fs → N !! i = Some sv →
  ∀ j svj b, j ≠ i → N !! j = Some svj → node_block fs j svj b → ¬ node_block fs i sv b.
Proof. intros Hn Hi j svj b Hji Hj Hb Hb'. by eapply (nodes_apart N fs j i svj sv b). Qed.

(** An inode in range whose other fields are values of their types. *)
Lemma inode_typed fs sv :
  sfs_wf fs → inode_wf fs sv → is_u32 (sfi_size (sv_i sv)) → is_u16 (sfi_type (sv_i sv)) →
  is_u16 (sfi_linkcount (sv_i sv)) → length (sfi_waste (sv_i sv)) = 110%nat ∧ Forall is_u32 (sfi_waste (sv_i sv)) →
  dinode_typed (sv_i sv).
Proof.
  intros Hwf Hin Hs Ht Hl Hw. pose proof (lw_blocks _ (sw_device _ Hwf)) as Hlim. pose proof (sw_nblocks _ Hwf) as Hnb.
  assert (∀ b, 0 ≤ b < sb_nblocks (sfs_sb fs) → is_u32 b) as Hu by (intros b Hb; width).
  constructor; try done.
  - split; [apply Hin|]. rewrite Forall_forall. intros b Hb. apply Hu. destruct (decide (b = 0)) as [->|Hb0]; [lia|].
    apply (iw_used _ _ Hin). rewrite owned_eq, !elem_of_app. right; left. by apply elem_of_nonzero.
  - apply Hu. by apply (indirect_range fs sv Hwf Hin).
Qed.

(** What happens to the nodes other than [i]. *)
Definition others_same N fs i fs' : Prop :=
  ∀ j svj, j ≠ i → N !! j = Some svj → same_data fs svj fs' svj ∧ owned fs' svj = owned fs svj.

Lemma nodes_grown N fs i sv fs' sv' :
  nodes_wf N fs → N !! i = Some sv → grown fs sv fs' sv' → is_u32 (sfi_size (sv_i sv')) →
  nodes_wf (<[i := sv']> N) fs' ∧ others_same N fs i fs'.
Proof.
  intros Hn Hi Hg Hsz. destruct (ns_node _ _ Hn i sv Hi) as [N1 [N2 N3] N4 N5].
  destruct (gr_ino _ _ _ _ Hg) as (G1 & G2 & G3 & G4). pose proof (ns_inode _ _ Hn i i sv Hi ltac:(by eexists)) as Hself.
  apply (nodes_update N fs i sv' fs' (node_block fs i sv) Hn).
  - apply Hg.
  - apply Hg.
  - constructor; [congruence| |apply Hg|].
    + rewrite (gr_sb _ _ _ _ Hg), (gr_use _ _ _ _ Hg), N3 by lia. done.
    + destruct N5. eapply inode_typed; [apply Hg|apply Hg|done|congruence|congruence|congruence].
  - by apply nodes_old.
  - intros b Hb Hu Hold. split; [by rewrite (gr_use _ _ _ _ Hg), Hu by done|]. apply (gr_other _ _ _ _ Hg); try done.
    intros Ho. apply Hold. by right.
  - intros b [->|Hb]; [left; by left|]. destruct (gr_new _ _ _ _ Hg b Hb); [left; by right|by right].
  - intros Hc. destruct (gr_new _ _ _ _ Hg i Hc); [done|congruence].
  - intros Hd. destruct (gr_dirty _ _ _ _ Hg) as [->|Hdd]; [|congruence].
    rewrite (gr_other _ _ _ _ Hg) by (done || lia). by apply (ns_clean _ _ Hn).
Qed.

Lemma nodes_shrunk N fs i sv fs' sv' :
  nodes_wf N fs → N !! i = Some sv → shrunk fs sv fs' sv' → is_u32 (sfi_size (sv_i sv')) → sv_dirty sv' = true →
  nodes_wf (<[i := sv']> N) fs' ∧ others_same N fs i fs'.
Proof.
  intros Hn Hi Hg Hsz Hdty. destruct (ns_node _ _ Hn i sv Hi) as [N1 [N2 N3] N4 N5].
  destruct (sh_ino _ _ _ _ Hg) as (G1 & G2 & G3 & G4). pose proof (ns_inode _ _ Hn i i sv Hi ltac:(by eexists)) as Hself.
  assert (∀ b, 0 ≤ b → used fs b = true → b ∉ owned fs sv → used fs' b = true) as Hu'.
  { intros b Hb Hu Ho. rewrite (sh_used _ _ _ _ Hg), Hu, bool_decide_eq_false_2 by (done || tauto). done. }
  apply (nodes_update N fs i sv' fs' (node_block fs i sv) Hn).
  - apply Hg.
  - apply Hg.
  - constructor; [congruence| |apply Hg|].
    + rewrite (sh_sb _ _ _ _ Hg). split; [done|]. apply Hu'; done || lia.
    + destruct N5. eapply inode_typed; [apply Hg|apply Hg|done|congruence|congruence|congruence].
  - by apply nodes_old.
  - intros b Hb Hu Hold. assert (b ∉ owned fs sv) as Ho by (intros Ho; apply Hold; by right).
    split; [by apply Hu'|by apply (sh_other _ _ _ _ Hg)].
  - intros b [->|Hb]; [left; by left|]. left. right. by apply (sh_owned _ _ _ _ Hg).
  - intros Hc. by apply Hself, (sh_owned _ _ _ _ Hg).
  - congruence.
Qed.

(** The device has been used, but nothing written. *)
Lemma nodes_same N fs fs' : nodes_wf N fs → same_fs fs fs' → nodes_wf N fs' ∧ ∀ sv, same_data fs sv fs' sv.
Proof.
  intros [N1 N2 N3 N4 N5] Hs. split; [|intros; by apply same_fs_data]. constructor; [by apply Hs|..].
  - intros i sv Hi. destruct (N2 i sv Hi) as [M1 M2 M3 M4].
    constructor; [done| |by apply (same_fs_inode fs)|done]. by rewrite (sf_sb _ _ Hs), (same_fs_used fs fs').
  - intros i j sv Hi Hj. rewrite (same_fs_owned fs fs') by done. eauto.
  - intros i j svi svj Hij Hi Hj b. rewrite !(same_fs_owned fs fs') by done. by eapply N4.
  - intros i sv Hi Hd. rewrite (same_fs_sector fs fs') by done. eauto.
Qed.

(** An inode is written to its block. *)
Definition cleaned sv : sfs_vnode := SfsVnode (sv_i sv) (sv_ino sv) false.

Lemma nodes_synced N fs i sv fs' :
  nodes_wf N fs → N !! i = Some sv → wrote fs i (enc_dinode (sv_i sv)) fs' →
  nodes_wf (<[i := cleaned sv]> N) fs' ∧ others_same N fs i fs' ∧ same_data fs sv fs' (cleaned sv).
Proof.
  intros Hn Hi Hw. destruct (ns_node _ _ Hn i sv Hi) as [N1 [N2 N3] N4 N5].
  pose proof (ns_inode _ _ Hn i i sv Hi ltac:(by eexists)) as Hself.
  assert (∀ b, used fs' b = used fs b) as Hu by (intros b; unfold used; by rewrite (wr_freemap _ _ _ _ Hw)).
  assert (∀ b, b ≠ i → sector fs' b = sector fs b) as Hsec by (intros b Hb; by rewrite (wr_sector _ _ _ _ Hw), decide_False).
  destruct (inode_frame fs fs' sv (wr_sb _ _ _ _ Hw) N4) as (F1 & F2 & F3).
  { intros b Hb. split; [done|]. apply Hsec. by intros ->. }
  destruct (nodes_update N fs i (cleaned sv) fs' (node_block fs i sv) Hn) as [U1 U2]; [..|done].
  - apply Hw.
  - apply Hw.
  - constructor; [done| |by destruct F1|done]. by rewrite (wr_sb _ _ _ _ Hw), Hu.
  - by apply nodes_old.
  - intros b Hb Hbu Hold. rewrite Hu. split; [done|]. apply Hsec. intros ->. apply Hold. by left.
  - intros b [->|Hb]; [left; by left|left; right]. by rewrite <-F2.
  - change (owned fs' (cleaned sv)) with (owned fs' sv). by rewrite F2.
  - intros _. cbn. rewrite (wr_sector _ _ _ _ Hw), decide_True by done. by apply dinode_roundtrip.
Qed.

(** The fields of an inode other than its blocks change. *)
Lemma nodes_meta N fs i sv sv' :
  nodes_wf N fs → N !! i = Some sv → sv_ino sv' = sv_ino sv → sfi_direct (sv_i sv') = sfi_direct (sv_i sv) →
  sfi_indirect (sv_i sv') = sfi_indirect (sv_i sv) → dinode_typed (sv_i sv') → sv_dirty sv' = true →
  nodes_wf (<[i := sv']> N) fs.
Proof.
  intros Hn Hi E1 E2 E3 Ht Hd. destruct (ns_node _ _ Hn i sv Hi) as [N1 [N2 N3] N4 N5].
  pose proof (ns_inode _ _ Hn i i sv Hi ltac:(by eexists)) as Hself.
  assert (owned fs sv' = owned fs sv) as Ho by (unfold owned, table, fblocks; by rewrite E2, E3).
  destruct (nodes_update N fs i sv' fs (node_block fs i sv) Hn) as [U1 _]; [..|exact U1].
  - apply Hn.
  - done.
  - constructor; [congruence|done| |done]. destruct N4 as [I1 I2 I3]. constructor; [by rewrite E2|by rewrite Ho|]. by rewrite Ho.
  - by apply nodes_old.
  - done.
  - intros b [->|Hb]; [left; by left|left; right]. by rewrite <-Ho.
  - by rewrite Ho.
  - congruence.
Qed.

(** A block is allocated for a new inode. *)
Definition new_inode (type i : Z) : sfs_vnode :=
  SfsVnode (Dinode 0 type 0 (replicate 15 0) 0 (replicate 110 0)) i true.

Lemma new_inode_owned fs type i : owned fs (new_inode type i) = [].
Proof.
  unfold owned, table, fblocks, new_inode. cbn [sv_i sfi_indirect sfi_direct]. apply nonzero_zeros. intros x Hx. change (idwords fs 0) with (replicate 128 0) in Hx.
  apply elem_of_cons in Hx as [->|Hx]; [done|]. apply elem_of_app in Hx as [Hx|Hx]; by apply elem_of_replicate_inv in Hx.
Qed.

Lemma allocated_fresh N fs i fs' : nodes_wf N fs → allocated fs i fs' → N !! i = None.
Proof.
  intros Hn Hal. destruct (N !! i) as [sv|] eqn:E; [|done]. pose proof (nw_block _ _ _ (ns_node _ _ Hn i sv E)) as [_ Hu].
  pose proof (al_free _ _ _ Hal). congruence.
Qed.

Lemma nodes_new N fs i fs' type :
  nodes_wf N fs → allocated fs i fs' → is_u16 type →
  nodes_wf (<[i := new_inode type i]> N) fs' ∧ others_same N fs i fs'.
Proof.
  intros Hn Hal Ht. pose proof Hal as [A1 A2 A3 A4 A5 A6 A7].
  apply (nodes_update N fs i (new_inode type i) fs' (λ _, False) Hn A6 A5).
  - constructor; [done| | |].
    + rewrite A5, A3, decide_True by lia. done.
    + constructor; [done|by rewrite new_inode_owned; constructor|]. rewrite new_inode_owned. by intros b Hb%elem_of_nil.
    + constructor; try done; (split; [done|by apply Forall_replicate]).
  - intros j svj b _ _ _ [].
  - intros b Hb Hu _. rewrite A3, A4 by done. case_decide; [congruence|done].
  - intros b [->|Hb]; [by right|]. rewrite new_inode_owned in Hb. by apply elem_of_nil in Hb.
  - rewrite new_inode_owned. by intros Hb%elem_of_nil.
  - done.
Qed.

(** The block of an inode that owns nothing is freed. *)
Lemma nodes_delete N fs i sv fs' :
  nodes_wf N fs → N !! i = Some sv → owned fs sv = [] → released fs [i] fs' →
  nodes_wf (delete i N) fs' ∧ others_same N fs i fs'.
Proof.
  intros Hn Hi Ho Hre.
  assert (∀ j svj b, j ≠ i → N !! j = Some svj → node_block fs j svj b → used fs' b = used fs b ∧ sector fs' b = sector fs b) as Hf.
  { intros j svj b Hji Hj Hb. destruct (node_block_used fs j svj b (ns_node _ _ Hn j svj Hj) Hb) as [Hr Hu].
    rewrite (re_used _ _ _ Hre) by lia. split; [|by apply (released_sector _ _ _ _ Hre)].
    rewrite decide_False; [done|]. rewrite list_elem_of_singleton. intros ->.
    eapply (nodes_apart N fs j i svj sv i); [done|done|done|done|done|by left]. }
  assert (∀ j svj, j ≠ i → N !! j = Some svj → node_wf fs' j svj ∧ owned fs' svj = owned fs svj ∧ same_data fs svj fs' svj) as Hother.
  { intros j svj Hji Hj. apply node_frame; [apply Hre|by eapply ns_node|]. intros b Hb. by eapply Hf. }
  split; [|intros j svj Hji Hj; by destruct (Hother j svj Hji Hj) as (_ & ? & ?)].
  assert (∀ j svj, delete i N !! j = Some svj → j ≠ i ∧ N !! j = Some svj) as Hdel
    by (intros j svj Hj; apply lookup_delete_Some in Hj as [? ?]; done).
  constructor; [apply Hre|..].
  - intros j svj [Hji Hj]%Hdel. by apply Hother.
  - intros j k svj [Hji Hj]%Hdel [svk [Hki Hk]%Hdel]. rewrite (proj1 (proj2 (Hother j svj Hji Hj))).
    apply (ns_inode _ _ Hn j k svj Hj). by eexists.
  - intros j k svj svk Hjk [Hji Hj]%Hdel [Hki Hk]%Hdel b. rewrite (proj1 (proj2 (Hother j svj Hji Hj))), (proj1 (proj2 (Hother k svk Hki Hk))).
    by apply (ns_disjoint _ _ Hn j k).
  - intros j svj [Hji Hj]%Hdel Hd. rewrite (proj2 (Hf j svj j Hji Hj (or_introl eq_refl))). by apply (ns_clean _ _ Hn).
Qed.

(** ** The table of vnodes *)

(** The inode of a loaded vnode changes, with its volume. *)
Lemma vol_set N vol p x sv' r fs' :
  vol_wf N vol → vheap vol !! p = Some x → sv_ino sv' = sv_ino (vn_data x) → 1 ≤ r →
  nodes_wf (<[sv_ino (vn_data x) := sv']> N) fs' →
  vol_wf (<[sv_ino (vn_data x) := sv']> N) (with_vn p (Vn sv' r) (with_fs fs' vol)).
Proof.
  intros [V1 V2 V3 V4 V5 V6] Hp Hino Hr Hn. set (i := sv_ino (vn_data x)) in *.
  assert (∀ q y, <[p := Vn sv' r]> (vheap vol) !! q = Some y →
    q = p ∧ y = Vn sv' r ∨ q ≠ p ∧ vheap vol !! q = Some y ∧ sv_ino (vn_data y) ≠ i) as Hq.
  { intros q y Hy. destruct (decide (q = p)) as [->|Hqp]; [rewrite lookup_insert_eq in Hy; left; by simplify_eq|right].
    rewrite lookup_insert_ne in Hy by done. split_and!; [done|done|]. intros E. apply Hqp. by eapply V5. }
  constructor; cbn [with_vn with_fs vol_fs sfs_vnodes vheap]; [done| | |done| |].
  - intros q y [[-> ->]|(Hqp & Hy & Hne)]%Hq; cbn [vn_data vn_refcount].
    + rewrite Hino, lookup_insert_eq. split_and!; [done|done|]. by apply (V2 p x).
    + rewrite lookup_insert_ne by done. by apply V2.
  - intros q Hq'. destruct (decide (q = p)) as [->|]; [by rewrite lookup_insert_eq|]. rewrite lookup_insert_ne by done. by apply V3.
  - intros q1 q2 y1 y2 [[-> ->]|(N1 & Y1 & Z1)]%Hq [[-> ->]|(N2 & Y2 & Z2)]%Hq; cbn [vn_data]; try done.
    + congruence.
    + congruence.
    + by apply V5.
  - intros j sv Hj Hun. destruct (decide (j = i)) as [->|Hji].
    + exfalso. apply (Hun p (Vn sv' r)); [by rewrite lookup_insert_eq|done].
    + rewrite lookup_insert_ne in Hj by done. apply (V6 j sv Hj). intros q y Hy Hc.
      destruct (decide (q = p)) as [->|Hqp]; [by simplify_eq|]. apply (Hun q y); [by rewrite lookup_insert_ne|done].
Qed.

Lemma vol_set_same N vol p x r fs' :
  vol_wf N vol → vheap vol !! p = Some x → 1 ≤ r → nodes_wf N fs' →
  vol_wf N (with_vn p (Vn (vn_data x) r) (with_fs fs' vol)).
Proof.
  intros Hv Hp Hr Hn. destruct (vw_loaded _ _ Hv p x Hp) as (Hi & _ & _).
  rewrite <-(insert_id N _ _ Hi). apply (vol_set N vol p x); try done. by rewrite insert_id.
Qed.

Lemma with_fs_id vol : with_fs (vol_fs vol) vol = vol.
Proof. by destruct vol. Qed.

(** A vnode is removed from the table. *)
Lemma vol_unload N vol p x ix q :
  vol_wf N vol → vheap vol !! p = Some x → list_find (λ q, q = p) (sfs_vnodes vol) = Some (ix, q) →
  sv_dirty (vn_data x) = false →
  vol_wf N (Volume (vol_fs vol) (delete ix (sfs_vnodes vol)) (delete p (vheap vol)) (mallocs vol)).
Proof.
  intros [V1 V2 V3 V4 V5 V6] Hp Hfind Hd. apply list_find_Some in Hfind as (Hix & -> & _).
  assert (sfs_vnodes vol ≡ₚ p :: delete ix (sfs_vnodes vol)) as Hperm by (by apply delete_Permutation).
  assert (NoDup (p :: delete ix (sfs_vnodes vol))) as Hnd by (by rewrite <-Hperm). apply NoDup_cons in Hnd as [Hni Hnd].
  constructor; cbn [vol_fs sfs_vnodes vheap]; [done|..].
  - intros q y [Hqp Hy]%lookup_delete_Some. destruct (V2 q y Hy) as (H1 & H2 & H3). split_and!; [done|done|].
    rewrite Hperm in H3. by apply elem_of_cons in H3 as [?|?].
  - intros q Hq. rewrite lookup_delete_ne by (by intros ->). apply V3. rewrite Hperm. by right.
  - done.
  - intros q1 q2 y1 y2 [_ Y1]%lookup_delete_Some [_ Y2]%lookup_delete_Some. by apply V5.
  - intros j sv Hj Hun. destruct (decide (j = sv_ino (vn_data x))) as [->|Hne].
    + destruct (V2 p x Hp) as (Hi & _ & _). by simplify_eq.
    + apply (V6 j sv Hj). intros q y Hy Hc. destruct (decide (q = p)) as [->|Hqp]; [by simplify_eq|].
      apply (Hun q y); [by rewrite lookup_delete_ne|done].
Qed.

(** A node that is not in memory is deleted. *)
Lemma vol_delete N vol i fs' :
  vol_wf N vol → (∀ p x, vheap vol !! p = Some x → sv_ino (vn_data x) ≠ i) → nodes_wf (delete i N) fs' →
  vol_wf (delete i N) (with_fs fs' vol).
Proof.
  intros [V1 V2 V3 V4 V5 V6] Hun Hn. constructor; cbn [with_fs vol_fs sfs_vnodes vheap]; try done.
  - intros q y Hy. destruct (V2 q y Hy) as (H1 & H2 & H3). rewrite lookup_delete_ne; [done|]. intros E. by apply (Hun q y).
  - intros j sv [_ Hj]%lookup_delete_Some Hu. by eapply V6.
Qed.

Section ops.
Context `{Hardware} {Hrel : Reliable}.

(** [sfs_sync_inode] on a loaded vnode. *)
Lemma sync_inode_ok N fs sv :
  nodes_wf N fs → N !! sv_ino sv = Some sv →
  ∃ fs', sfs_sync_inode sv fs = Ok (0, cleaned sv, fs') ∧
    nodes_wf (<[sv_ino sv := cleaned sv]> N) fs' ∧ others_same N fs (sv_ino sv) fs' ∧ same_data fs sv fs' (cleaned sv) ∧
    sfs_freemap fs' = sfs_freemap fs ∧ sfs_sb fs' = sfs_sb fs ∧ meta_kept (λ b, b ≠ sv_ino sv) fs fs' ∧ owned fs' sv = owned fs sv.
Proof.
  intros Hn Hi. destruct (ns_node _ _ Hn _ sv Hi) as [_ [Hb Hu] Hin Ht]. unfold sfs_sync_inode. destruct (sv_dirty sv) eqn:Ed.
  - destruct (dinode_roundtrip (sv_i sv) Ht) as (_ & Hl & _).
    destruct (fs_writeblock_ok (sv_ino sv) (enc_dinode (sv_i sv)) fs (ns_fs _ _ Hn)) as (fs' & -> & Hw); [lia|done|].
    rewrite bind_of_Ok. cbv beta iota. rewrite no_error. exists fs'. split; [done|].
    destruct (nodes_synced N fs (sv_ino sv) sv fs' Hn Hi Hw) as (U1 & U2 & U3). do 3 (split; [done|]).
    split; [apply Hw|]. split; [apply Hw|]. split; [eapply wrote_kept; [|exact Hw]; tauto|].
    assert (idwords fs' (sfi_indirect (sv_i sv)) = idwords fs (sfi_indirect (sv_i sv))) as Hid.
    { unfold idwords. destruct (Z.eqb_spec (sfi_indirect (sv_i sv)) 0) as [|Hne]; [done|].
      rewrite (wr_sector _ _ _ _ Hw), decide_False; [done|]. intros Hc.
      apply (ns_inode _ _ Hn _ (sv_ino sv) sv Hi); [by eexists|]. rewrite <-Hc. by apply indirect_owned. }
    unfold owned, table, fblocks. by rewrite Hid.
  - assert (cleaned sv = sv) as Hc by (destruct sv; unfold cleaned; cbn in *; by subst). rewrite Hc.
    exists fs. split; [done|]. rewrite insert_id by done. split; [done|]. split; [intros j svj _ _; done|].
    do 3 (split; [done|]). split; [apply kept_refl|done].
Qed.

Lemma on_vnode_eq {A} p x f vol (a : A) sv' fs' :
  vheap vol !! p = Some x → f (vn_data x) (vol_fs vol) = Ok (a, sv', fs') →
  on_vnode p f vol = Ok (a, with_vn p (Vn sv' (vn_refcount x)) (with_fs fs' vol)).
Proof. intros Hp Hf. unfold on_vnode, get_vn. rewrite Hp. cbn [deref]. by rewrite bind_of_Ok, Hf, bind_of_Ok. Qed.

Lemma get_vn_eq p x vol : vheap vol !! p = Some x → get_vn p vol = Ok x.
Proof. intros Hp. unfold get_vn. by rewrite Hp. Qed.

Lemma others_same_trans N N1 fs1 fs2 fs3 i :
  (∀ j, j ≠ i → N1 !! j = N !! j) → others_same N fs1 i fs2 → others_same N1 fs2 i fs3 → others_same N fs1 i fs3.
Proof.
  intros HN H1 H2 j svj Hji Hj. destruct (H1 j svj Hji Hj) as [D1 O1]. destruct (H2 j svj Hji) as [D2 O2]; [by rewrite HN|].
  split; [by eapply same_data_trans|congruence].
Qed.

(** The abstract state after the last reference to a vnode, or another one, is given
    up: a file without links goes away with it. *)
Definition after_drop (x : svnode) N : gmap Z sfs_vnode :=
  let i := sv_ino (vn_data x) in
  if 1 <? vn_refcount x then N
  else if sfi_linkcount (sv_i (vn_data x)) =? 0 then delete i N
  else <[i := cleaned (vn_data x)]> N.

(** The inode of one vnode is replaced; the other files are as they were. *)
Record changed N vol p x sv' vol' : Prop := {
  ch_vol : vol_wf (<[sv_ino (vn_data x) := sv']> N) vol';
  ch_heap : vheap vol' = <[p := Vn sv' (vn_refcount x)]> (vheap vol);
  ch_table : sfs_vnodes vol' = sfs_vnodes vol;
  ch_mallocs : mallocs vol' = mallocs vol;
  ch_ino : sv_ino sv' = sv_ino (vn_data x);
  ch_type : sfi_type (sv_i sv') = sfi_type (sv_i (vn_data x));
  ch_links : sfi_linkcount (sv_i sv') = sfi_linkcount (sv_i (vn_data x));
  ch_others : others_same N (vol_fs vol) (sv_ino (vn_data x)) (vol_fs vol');
  ch_sb : sfs_sb (vol_fs vol') = sfs_sb (vol_fs vol)
}.

Lemma changed_grown N vol p x fs' sv' :
  vol_wf N vol → vheap vol !! p = Some x → grown (vol_fs vol) (vn_data x) fs' sv' → is_u32 (sfi_size (sv_i sv')) →
  changed N vol p x sv' (with_vn p (Vn sv' (vn_refcount x)) (with_fs fs' vol)).
Proof.
  intros Hv Hp Hg Hsz. destruct (vw_loaded _ _ Hv p x Hp) as (Hi & Hr & _). destruct (gr_ino _ _ _ _ Hg) as (G1 & G2 & G3 & _).
  destruct (nodes_grown N _ _ _ _ _ (vw_nodes _ _ Hv) Hi Hg Hsz) as [U1 U2].
  constructor; [by apply vol_set|reflexivity|reflexivity|reflexivity|exact G1|exact G2|exact G3|exact U2|apply Hg].
Qed.

Lemma changed_shrunk N vol p x fs' sv' :
  vol_wf N vol → vheap vol !! p = Some x → shrunk (vol_fs vol) (vn_data x) fs' sv' → is_u32 (sfi_size (sv_i sv')) →
  sv_dirty sv' = true → changed N vol p x sv' (with_vn p (Vn sv' (vn_refcount x)) (with_fs fs' vol)).
Proof.
  intros Hv Hp Hg Hsz Hd. destruct (vw_loaded _ _ Hv p x Hp) as (Hi & Hr & _). destruct (sh_ino _ _ _ _ Hg) as (G1 & G2 & G3 & _).
  destruct (nodes_shrunk N _ _ _ _ _ (vw_nodes _ _ Hv) Hi Hg Hsz Hd) as [U1 U2].
  constructor; [by apply vol_set|reflexivity|reflexivity|reflexivity|exact G1|exact G2|exact G3|exact U2|apply Hg].
Qed.

(** The parts of [sfs_reclaim]: the erasing of a file without links, and the writing
    of the inode. *)
Lemma vnode_truncated N vol p x len : vol_wf N vol → vheap vol !! p = Some x → is_u32 len →
  ∃ sv' fs', sfs_truncate p len vol = Ok (0, with_vn p (Vn sv' (vn_refcount x)) (with_fs fs' vol)) ∧
    changed N vol p x sv' (with_vn p (Vn sv' (vn_refcount x)) (with_fs fs' vol)) ∧
    itrunc_effect (vol_fs vol) (vn_data x) len (Ok (0, sv', fs')).
Proof.
  intros Hv Hp Hlen. destruct (vw_loaded _ _ Hv p x Hp) as (Hi & Hr & _). pose proof (vw_nodes _ _ Hv) as Hn.
  destruct (ns_node _ _ Hn _ _ Hi) as [_ _ Hin _].
  pose proof (sfs_itrunc_spec (vol_fs vol) (vn_data x) len (ns_fs _ _ Hn) Hin ltac:(done)) as He.
  inversion He as [fs' sv' Hsh Hfb Hsec Hsz Hd Hown Heq]. exists sv', fs'.
  split; [apply on_vnode_eq; [exact Hp|by symmetry]|]. split; [|by constructor]. apply changed_shrunk; [exact Hv|exact Hp|exact Hsh|by rewrite Hsz|exact Hd].
Qed.

Lemma vnode_synced N vol p x : vol_wf N vol → vheap vol !! p = Some x →
  ∃ vol', sfs_fsync p vol = Ok (0, vol') ∧ changed N vol p x (cleaned (vn_data x)) vol' ∧
    same_data (vol_fs vol) (vn_data x) (vol_fs vol') (vn_data x) ∧
    owned (vol_fs vol') (vn_data x) = owned (vol_fs vol) (vn_data x) ∧
    sfs_freemap (vol_fs vol') = sfs_freemap (vol_fs vol) ∧
    meta_kept (λ b, b ≠ sv_ino (vn_data x)) (vol_fs vol) (vol_fs vol').
Proof.
  intros Hv Hp. destruct (vw_loaded _ _ Hv p x Hp) as (Hi & Hr & _).
  destruct (sync_inode_ok N (vol_fs vol) (vn_data x) (vw_nodes _ _ Hv) Hi) as (fs' & Es & Hn & Ho & Hd & Hfm & Hsb & Hk & Hown).
  eexists. split; [by apply (on_vnode_eq p x _ vol 0 (cleaned (vn_data x)) fs')|]. split; [|done].
  constructor; [by apply vol_set|reflexivity|reflexivity|reflexivity|reflexivity|reflexivity|reflexivity|exact Ho|exact Hsb].
Qed.

(** The effect of giving up a reference. *)
Record dropped N vol p x vol' : Prop := {
  dr_vol : vol_wf (after_drop x N) vol';
  dr_others : others_same N (vol_fs vol) (sv_ino (vn_data x)) (vol_fs vol');
  dr_same : after_drop x N !! sv_ino (vn_data x) ≠ None →
    same_data (vol_fs vol) (vn_data x) (vol_fs vol') (vn_data x) ∧
    owned (vol_fs vol') (vn_data x) = owned (vol_fs vol) (vn_data x);
  dr_used b : 0 ≤ b → used (vol_fs vol') b = used (vol_fs vol) b &&
    negb (bool_decide (after_drop x N !! sv_ino (vn_data x) = None ∧ node_block (vol_fs vol) (sv_ino (vn_data x)) (vn_data x) b));
  dr_sb : sfs_sb (vol_fs vol') = sfs_sb (vol_fs vol);
  dr_heap q : q ≠ p → vheap vol' !! q = vheap vol !! q;
  dr_now : vheap vol' !! p = (if 1 <? vn_refcount x then Some (Vn (vn_data x) (vn_refcount x - 1)) else None);
  dr_mallocs : mallocs vol' = mallocs vol;
  dr_kept : meta_kept (λ b, ¬ node_block (vol_fs vol) (sv_ino (vn_data x)) (vn_data x) b) (vol_fs vol) (vol_fs vol')
}.

(** The end of [sfs_reclaim]: the vnode leaves the table. *)
Lemma vnode_gone N vol p x : vol_wf N vol → vheap vol !! p = Some x → sv_dirty (vn_data x) = false →
  ∃ ix, list_find (λ q, q = p) (sfs_vnodes vol) = Some (ix, p) ∧
    vol_wf N (Volume (vol_fs vol) (delete ix (sfs_vnodes vol)) (delete p (vheap vol)) (mallocs vol)).
Proof.
  intros Hv Hp Hd. destruct (vw_loaded _ _ Hv p x Hp) as (_ & _ & Htab).
  destruct (list_find_elem_of (λ q, q = p) (sfs_vnodes vol) p) as [[ix q] Hfind]; [done|done|].
  pose proof Hfind as (_ & -> & _)%list_find_Some. exists ix. split; [done|]. by eapply vol_unload.
Qed.

(** A block that is not dropped. *)
Lemma used_kept (N : gmap Z sfs_vnode) fs i sv (P : Prop) `{Decision P} b sv' :
  N !! i = Some sv' → used fs b = used fs b && negb (bool_decide (N !! i = None ∧ P)).
Proof. intros Hi. rewrite bool_decide_eq_false_2 by (intros [? _]; congruence). by rewrite andb_true_r. Qed.

(** The last reference to a file with links. *)
Lemma reclaim_linked N vol p x :
  vol_wf N vol → vheap vol !! p = Some x → vn_refcount x = 1 → sfi_linkcount (sv_i (vn_data x)) ≠ 0 →
  ∃ vol', sfs_reclaim p vol = Ok (0, vol') ∧ dropped N vol p x vol'.
Proof.
  intros Hv Hp Hr1 E0. unfold sfs_reclaim. rewrite (get_vn_eq p x) by done. rewrite bind_of_Ok, Hr1.
  change (negb (1 =? 1)) with false. cbv iota. rewrite (proj2 (Z.eqb_neq _ _) E0), bind_of_Ok. cbv beta iota. rewrite no_error.
  destruct (vnode_synced N vol p x Hv Hp) as (vol1 & Es & Hc & Hd & Hown & Hfm & Hk). unfold sfs_fsync in Es. rewrite Es, bind_of_Ok.
  cbv beta iota. rewrite no_error.
  assert (vheap vol1 !! p = Some (Vn (cleaned (vn_data x)) 1)) as Hp1 by (by rewrite (ch_heap _ _ _ _ _ _ Hc), lookup_insert_eq, Hr1).
  rewrite (get_vn_eq p _ vol1 Hp1), bind_of_Ok. cbn [vn_data cleaned sv_i sv_ino vn_refcount].
  rewrite (proj2 (Z.eqb_neq _ _) E0), bind_of_Ok.
  destruct (vnode_gone _ vol1 p _ (ch_vol _ _ _ _ _ _ Hc) Hp1 eq_refl) as (ix & -> & Hv2).
  change (kassert (1 =? 1)) with (Ok tt). rewrite bind_of_Ok. eexists. split; [done|].
  assert (after_drop x N = <[sv_ino (vn_data x) := cleaned (vn_data x)]> N) as Hafter.
  { unfold after_drop. by rewrite Hr1, (proj2 (Z.eqb_neq _ _) E0). }
  constructor; rewrite ?Hafter; cbn [vol_fs vheap mallocs].
  - exact Hv2.
  - apply Hc.
  - intros _. split; [exact Hd|exact Hown].
  - intros b Hb. unfold used. rewrite Hfm. eapply (used_kept _ (vol_fs vol) _ (vn_data x)). by rewrite lookup_insert_eq.
  - apply Hc.
  - intros q Hq. by rewrite lookup_delete_ne, (ch_heap _ _ _ _ _ _ Hc), lookup_insert_ne by done.
  - by rewrite Hr1, lookup_delete_eq.
  - apply Hc.
  - eapply kept_weaken; [|exact Hk]. intros b Hb ->. apply Hb. by left.
Qed.

(** The last reference to a file without links. *)
Lemma reclaim_unlinked N vol p x :
  vol_wf N vol → vheap vol !! p = Some x → vn_refcount x = 1 → sfi_linkcount (sv_i (vn_data x)) = 0 →
  ∃ vol', sfs_reclaim p vol = Ok (0, vol') ∧ dropped N vol p x vol'.
Proof.
  intros Hv Hp Hr1 E0. unfold sfs_reclaim. rewrite (get_vn_eq p x) by done. rewrite bind_of_Ok, Hr1.
  change (negb (1 =? 1)) with false. cbv iota. rewrite E0. change (0 =? 0) with true. cbv iota. set (i := sv_ino (vn_data x)) in *.
  destruct (vnode_truncated N vol p x 0 Hv Hp ltac:(done)) as (sv1 & fs1 & Et & Hc1 & He). unfold sfs_truncate in Et.
  rewrite Et, bind_of_Ok. cbv beta iota. rewrite no_error. rewrite Hr1 in *. set (vol1 := with_vn p _ _) in *.
  inversion He as [fs' sv' Hsh Hfb Hsec Hsz Hd Hown Heq]. subst fs' sv'. specialize (Hown eq_refl).
  pose proof (ch_vol _ _ _ _ _ _ Hc1) as Hv1. fold i in Hv1. pose proof (ch_ino _ _ _ _ _ _ Hc1) as Eino. fold i in Eino.
  assert (vheap vol1 !! p = Some (Vn sv1 1)) as Hp1 by (cbn; by rewrite lookup_insert_eq).
  destruct (vnode_synced _ vol1 p _ Hv1 Hp1) as (vol2 & Es & Hc2 & _ & Hown2 & Hfm2 & Hk2). unfold sfs_fsync in Es. rewrite Es, bind_of_Ok.
  cbv beta iota. rewrite no_error. cbn [vn_data] in Hc2, Hown2.
  pose proof (ch_vol _ _ _ _ _ _ Hc2) as Hv2. cbn [vn_data] in Hv2. rewrite Eino, insert_insert_eq in Hv2.
  assert (vheap vol2 !! p = Some (Vn (cleaned sv1) 1)) as Hp2 by (by rewrite (ch_heap _ _ _ _ _ _ Hc2), lookup_insert_eq).
  rewrite (get_vn_eq p _ vol2 Hp2), bind_of_Ok. cbn [vn_data cleaned sv_i sv_ino vn_refcount].
  rewrite (ch_links _ _ _ _ _ _ Hc1), E0. change (0 =? 0) with true. cbv iota. rewrite Eino.
  destruct (ns_node _ _ (vw_nodes _ _ Hv2) i (cleaned sv1)) as [_ [Hb2 Hu2] _ _]; [by rewrite lookup_insert_eq|].
  destruct (sfs_bfree_ok i (vol_fs vol2) (ns_fs _ _ (vw_nodes _ _ Hv2)) ltac:(lia) Hu2) as (fs3 & -> & Hre). rewrite !bind_of_Ok.
  destruct (vnode_gone _ vol2 p _ Hv2 Hp2 eq_refl) as (ix & Hfind & Hv3). cbn [with_fs sfs_vnodes]. rewrite Hfind.
  change (kassert (1 =? 1)) with (Ok tt). rewrite bind_of_Ok. eexists. split; [done|].
  destruct (nodes_delete (<[i := cleaned sv1]> N) (vol_fs vol2) i (cleaned sv1) fs3 (vw_nodes _ _ Hv2)) as [Hn3 Ho3];
    [by rewrite lookup_insert_eq|change (owned (vol_fs vol2) sv1 = []); by rewrite Hown2|done|].
  rewrite delete_insert_eq in Hn3.
  assert (after_drop x N = delete i N) as Hafter by (unfold after_drop; by rewrite Hr1, E0).
  assert (∀ j, j ≠ i → <[i := sv1]> N !! j = N !! j ∧ <[i := cleaned sv1]> N !! j = N !! j) as Hins
    by (intros j Hj; by rewrite !lookup_insert_ne).
  pose proof (ch_others _ _ _ _ _ _ Hc2) as Ho2. cbn [vn_data] in Ho2. rewrite Eino in Ho2.
  constructor; rewrite ?Hafter; fold i; cbn [with_fs vol_fs vheap mallocs].
  - pose proof (vol_delete _ _ i fs3 Hv3) as Hdel. rewrite delete_insert_eq in Hdel. apply Hdel; [|done].
    cbn. intros q' y [Hq Hy]%lookup_delete_Some Hc. apply Hq.
    apply (vw_unique _ _ Hv2 p q' _ y Hp2 Hy). cbn. congruence.
  - eapply others_same_trans; [|exact (ch_others _ _ _ _ _ _ Hc1)|eapply others_same_trans; [|exact Ho2|exact Ho3]].
    + intros j Hj. by apply Hins.
    + intros j Hj. by rewrite (proj1 (Hins j Hj)), (proj2 (Hins j Hj)).
  - by rewrite lookup_delete_eq.
  - intros b Hb. rewrite (re_used _ _ _ Hre) by done. unfold used at 1. rewrite Hfm2. cbn [vol1 with_vn with_fs vol_fs].
    fold (used fs1 b). rewrite (sh_used _ _ _ _ Hsh), Hown by done. rewrite lookup_delete_eq.
    case_decide as Hbi; rewrite list_elem_of_singleton in Hbi.
    + rewrite (bool_decide_eq_true_2 (None = None ∧ _)) by (split; [done|by left]). by rewrite andb_false_r.
    + f_equal. f_equal. apply bool_decide_ext. unfold node_block. split.
      * intros [? _]. split; [done|by right].
      * intros [_ [?|?]]; [done|]. split; [done|]. by intros ?%elem_of_nil.
  - rewrite (re_sb _ _ _ Hre), (ch_sb _ _ _ _ _ _ Hc2). apply (ch_sb _ _ _ _ _ _ Hc1).
  - intros q Hq. rewrite lookup_delete_ne, (ch_heap _ _ _ _ _ _ Hc2), lookup_insert_ne by done. by rewrite (ch_heap _ _ _ _ _ _ Hc1), lookup_insert_ne.
  - by rewrite Hr1, lookup_delete_eq.
  - by rewrite (ch_mallocs _ _ _ _ _ _ Hc2), (ch_mallocs _ _ _ _ _ _ Hc1).
  - apply (kept_trans _ _ fs1); [|apply (kept_trans _ _ (vol_fs vol2)); [|by eapply released_kept]].
    + eapply kept_weaken; [|exact (shrunk_kept _ _ _ _ Hsh)]. intros b Hb Ho. apply Hb. by right.
    + eapply kept_weaken; [|exact Hk2]. cbn [vn_data]. rewrite Eino. intros b Hb ->. apply Hb. by left.
Qed.

Lemma vnode_decref_ok N vol p x :
  vol_wf N vol → vheap vol !! p = Some x → ∃ vol', vnode_decref p vol = Ok vol' ∧ dropped N vol p x vol'.
Proof.
  intros Hv Hp. destruct (vw_loaded _ _ Hv p x Hp) as (Hi & Hr & Htab). unfold vnode_decref.
  rewrite (get_vn_eq p x) by done. rewrite bind_of_Ok, (proj2 (Z.ltb_lt 0 _)) by lia. change (kassert true) with (Ok tt). rewrite bind_of_Ok.
  destruct (Z.ltb_spec 1 (vn_refcount x)) as [Hgt|Hle].
  - eexists. split; [done|]. assert (after_drop x N = N) as Hafter by (unfold after_drop; by rewrite (proj2 (Z.ltb_lt _ _) Hgt)).
    constructor; rewrite ?Hafter; cbn [with_vn vol_fs vheap mallocs].
    + rewrite <-(with_fs_id vol) at 1. apply vol_set_same; [done|done|lia|apply Hv].
    + by intros j svj _ _.
    + done.
    + intros b _. by eapply (used_kept _ (vol_fs vol) _ (vn_data x)).
    + done.
    + intros q Hq. by rewrite lookup_insert_ne.
    + by rewrite lookup_insert_eq, (proj2 (Z.ltb_lt _ _) Hgt).
    + done.
    + apply kept_refl.
  - assert (vn_refcount x = 1) as Hr1 by lia.
    destruct (decide (sfi_linkcount (sv_i (vn_data x)) = 0)) as [E|E];
      [destruct (reclaim_unlinked N vol p x Hv Hp Hr1 E) as (vol' & -> & Hd)|
       destruct (reclaim_linked N vol p x Hv Hp Hr1 E) as (vol' & -> & Hd)]; rewrite bind_of_Ok; by exists vol'.
Qed.

(** ** Loading vnodes *)

Lemma sfs_bused_ok fs b : sfs_wf fs → 0 ≤ b < sb_nblocks (sfs_sb fs) → sfs_bused b fs = Ok (used fs b).
Proof.
  intros Hwf Hb. unfold sfs_bused. destruct (Z.leb_spec (sb_nblocks (sfs_sb fs)) b); [lia|].
  pose proof (freemap_covers _ Hwf). destruct (bitmap_isset_spec _ b (sw_freemap _ Hwf)) as (y & -> & Hy); [lia|].
  rewrite bind_of_Ok. by rewrite Hy.
Qed.

Lemma find_vnode_ok N vol ino ps :
  vol_wf N vol → (∀ p, p ∈ ps → p ∈ sfs_vnodes vol) →
  ∃ r, find_vnode ps ino vol = Ok r ∧
  match r with
  | Some p => p ∈ ps ∧ ∃ x, vheap vol !! p = Some x ∧ sv_ino (vn_data x) = ino
  | None => ∀ p x, p ∈ ps → vheap vol !! p = Some x → sv_ino (vn_data x) ≠ ino
  end.
Proof.
  intros Hv. induction ps as [|p ps IH]; intros Hps; cbn [find_vnode].
  - exists None. split; [done|]. by intros p x ?%elem_of_nil.
  - destruct (vw_table _ _ Hv p) as [x Hx]; [apply Hps; by left|]. rewrite (get_vn_eq p x) by done. rewrite bind_of_Ok.
    destruct (vw_loaded _ _ Hv p x Hx) as (Hi & _ & _). destruct (ns_node _ _ (vw_nodes _ _ Hv) _ _ Hi) as [_ [Hb Hu] _ _].
    rewrite sfs_bused_ok by (done || lia || apply Hv). rewrite bind_of_Ok, Hu. change (kassert true) with (Ok tt). rewrite bind_of_Ok.
    destruct (Z.eqb_spec (sv_ino (vn_data x)) ino) as [E|Hne].
    + exists (Some p). split; [done|]. split; [by left|]. by exists x.
    + destruct IH as (r & -> & Hr); [intros q Hq; apply Hps; by right|]. exists r. split; [done|]. destruct r as [q|].
      * destruct Hr as [Hq Hr]. split; [by right|done].
      * intros q y Hq Hy. apply elem_of_cons in Hq as [->|Hq]; [by simplify_eq|by eapply Hr].
Qed.

(** A vnode is added to the table for a node that has none, or for a new node. *)
Lemma vol_load N N1 vol fs' p sv ms :
  vol_wf N vol → nodes_wf N1 fs' → N1 !! sv_ino sv = Some sv → (∀ j, j ≠ sv_ino sv → N1 !! j = N !! j) →
  vheap vol !! p = None → (∀ q x, vheap vol !! q = Some x → sv_ino (vn_data x) ≠ sv_ino sv) →
  vol_wf N1 (Volume fs' (sfs_vnodes vol ++ [p]) (<[p := Vn sv 1]> (vheap vol)) ms).
Proof.
  intros [V1 V2 V3 V4 V5 V6] Hn Hi HN Hfresh Hun.
  assert (p ∉ sfs_vnodes vol) as Hp by (intros Hp; destruct (V3 p Hp); congruence).
  constructor; cbn [vol_fs sfs_vnodes vheap]; [done|..].
  - intros q y Hy. destruct (decide (q = p)) as [->|Hqp].
    + rewrite lookup_insert_eq in Hy. simplify_eq. cbn. split_and!; [done|lia|]. apply elem_of_app. right. by left.
    + rewrite lookup_insert_ne in Hy by done. destruct (V2 q y Hy) as (? & ? & ?).
      rewrite HN by (by eapply Hun). split_and!; [done|done|]. apply elem_of_app. by left.
  - intros q Hq. destruct (decide (q = p)) as [->|Hqp]; [by rewrite lookup_insert_eq|]. rewrite lookup_insert_ne by done.
    apply elem_of_app in Hq as [Hq|Hq]; [by apply V3|]. by apply list_elem_of_singleton in Hq.
  - apply NoDup_app. split_and!; [done| |apply NoDup_singleton]. intros q Hq Hc. apply list_elem_of_singleton in Hc as ->. done.
  - intros q1 q2 y1 y2 H1 H2. destruct (decide (q1 = p)) as [->|N1'], (decide (q2 = p)) as [->|N2'];
      rewrite ?lookup_insert_eq in *; rewrite ?lookup_insert_ne in * by done; simplify_eq; cbn [vn_data]; try done.
    + intros E. exfalso. by apply (Hun q2 y2).
    + intros E. exfalso. by apply (Hun q1 y1).
    + by apply V5.
  - intros j svj Hj Hu. destruct (decide (j = sv_ino sv)) as [->|Hji].
    + exfalso. apply (Hu p (Vn sv 1)); [by rewrite lookup_insert_eq|done].
    + rewrite HN in Hj by done. apply (V6 j svj Hj). intros q y Hy. apply (Hu q y). rewrite lookup_insert_ne; [done|]. intros ->. congruence.
Qed.

(** The vnode [p] is held once more. *)
Record held vol p sv vol' : Prop := {
  hd_now : ∃ r, vheap vol' !! p = Some (Vn sv r) ∧
    (vheap vol !! p = None ∧ r = 1 ∨ vheap vol !! p = Some (Vn sv (r - 1)));
  hd_others q : q ≠ p → vheap vol' !! q = vheap vol !! q;
  hd_fs : same_fs (vol_fs vol) (vol_fs vol')
}.

Inductive load_effect N vol (ino : Z) sv : outcome (Z * Z * volume) → Prop :=
| load_nomem vol' :
    vol_wf N vol' → mallocs vol ≠ [] → same_fs (vol_fs vol) (vol_fs vol') → vheap vol' = vheap vol →
    load_effect N vol ino sv (Ok (ENOMEM, 0, vol'))
| load_done p vol' : vol_wf N vol' → held vol p sv vol' → (mallocs vol = [] → mallocs vol' = []) →
    load_effect N vol ino sv (Ok (0, p, vol')).

Lemma malloc_wf N vol (ok : bool) vol' : malloc vol = (ok, vol') → vol_wf N vol →
  vol_wf N vol' ∧ vol_fs vol' = vol_fs vol ∧ vheap vol' = vheap vol ∧ sfs_vnodes vol' = sfs_vnodes vol ∧
  (mallocs vol = [] → ok = true ∧ mallocs vol' = []).
Proof.
  unfold malloc. intros Hm [V1 V2 V3 V4 V5 V6]. destruct (mallocs vol) as [|c l] eqn:E; simplify_eq; split_and!; try done;
    by constructor.
Qed.

Lemma sfs_loadvnode_ok N vol ino sv :
  vol_wf N vol → N !! ino = Some sv → sfi_type (sv_i sv) = SFS_TYPE_FILE ∨ sfi_type (sv_i sv) = SFS_TYPE_DIR →
  load_effect N vol ino sv (sfs_loadvnode ino SFS_TYPE_INVAL vol).
Proof.
  intros Hv Hi Hty. unfold sfs_loadvnode. destruct (find_vnode_ok N vol ino (sfs_vnodes vol) Hv) as (r & -> & Hr); [done|].
  rewrite bind_of_Ok. pose proof (vw_nodes _ _ Hv) as Hn. destruct r as [p|].
  - destruct Hr as (_ & x & Hx & Ex). change (kassert (SFS_TYPE_INVAL =? SFS_TYPE_INVAL)) with (Ok tt). rewrite bind_of_Ok.
    unfold vnode_incref. rewrite (get_vn_eq p x) by done. rewrite !bind_of_Ok.
    destruct (vw_loaded _ _ Hv p x Hx) as (Hix & Hrx & _). rewrite Ex, Hi in Hix. injection Hix as ->.
    apply load_done; [|constructor|done].
    + rewrite <-(with_fs_id vol) at 1. apply vol_set_same; [done|done|lia|done].
    + exists (vn_refcount x + 1). cbn. rewrite lookup_insert_eq. split; [done|]. right. rewrite Hx.
      replace (vn_refcount x + 1 - 1) with (vn_refcount x) by lia. by destruct x.
    + intros q Hq. cbn. by rewrite lookup_insert_ne.
    + apply same_fs_refl.
  - assert (∀ p x, vheap vol !! p = Some x → sv_ino (vn_data x) ≠ ino) as Hun.
    { intros p x Hx. apply (Hr p x); [|done]. by apply (vw_loaded _ _ Hv p x). }
    destruct (malloc vol) as [b vol1] eqn:Em. destruct (malloc_wf N vol b vol1 Em Hv) as (Hv1 & Efs1 & Eh1 & Et1 & Em1).
    destruct b; cbn [negb].
    2: { apply load_nomem; [done|intros E; by destruct (Em1 E)|rewrite Efs1; apply same_fs_refl|done]. }
    destruct (ns_node _ _ Hn ino sv Hi) as [Eino [Hb Hu] Hin Ht].
    rewrite Efs1, sfs_bused_ok by (lia || apply Hn). rewrite bind_of_Ok, Hu. change (kassert true) with (Ok tt). rewrite bind_of_Ok.
    destruct (fs_readblock_ok ino iobuf0 (vol_fs vol) (ns_fs _ _ Hn)) as (fs2 & -> & Hs2); [lia|done|].
    rewrite bind_of_Ok. cbv beta iota. rewrite no_error.
    assert (sv_dirty sv = false) as Hd by (by eapply (vw_unloaded _ _ Hv ino)).
    rewrite (ns_clean _ _ Hn ino sv Hi Hd). rewrite Z.eqb_refl. cbn [orb]. change (kassert true) with (Ok tt). rewrite bind_of_Ok.
    assert (SfsVnode (sv_i sv) ino false = sv) as Esv by (destruct sv; cbn in *; by subst). rewrite Esv.
    assert (negb (sfi_type (sv_i sv) =? SFS_TYPE_FILE) && negb (sfi_type (sv_i sv) =? SFS_TYPE_DIR) = false) as ->
      by (destruct Hty as [->| ->]; done).
    assert (vol_wf N (with_fs fs2 vol1)) as Hv2.
    { destruct (nodes_same N (vol_fs vol) fs2 Hn Hs2) as [Hn2 _]. destruct Hv1. by constructor. }
    destruct (malloc (with_fs fs2 vol1)) as [b vol3] eqn:Em3.
    destruct (malloc_wf N _ b vol3 Em3 Hv2) as (Hv3 & Efs3 & Eh3 & Et3 & Em3'). cbn in Efs3, Eh3, Et3.
    destruct b; cbn [negb].
    2: { apply load_nomem; [done| |by rewrite Efs3|congruence]. intros E. destruct (Em1 E) as [_ E1]. by destruct (Em3' E1). }
    set (p := fresh _).
    assert (vheap vol3 !! p = None) as Hp.
    { apply not_elem_of_dom. intros Hc. apply (is_fresh (dom (vheap vol3) ∪ {[0]})). fold p. apply elem_of_union. by left. }
    apply load_done; [|constructor|].
    + apply (vol_load N N vol3); [done|apply Hv3|by rewrite Eino|done|done|]. rewrite Eh3, Eh1, Eino. done.
    + exists 1. cbn. rewrite lookup_insert_eq. split; [done|left]. split; [|done]. congruence.
    + intros q Hq. cbn. rewrite lookup_insert_ne by done. congruence.
    + cbn. by rewrite Efs3.
    + intros E. destruct (Em1 E) as [_ E1]. by destruct (Em3' E1).
Qed.

(** ** Creating objects *)

Lemma nodes_subset N N' fs : N' ⊆ N → nodes_wf N fs → nodes_wf N' fs.
Proof.
  intros Hs [N1 N2 N3 N4 N5]. assert (∀ j sv, N' !! j = Some sv → N !! j = Some sv) as Hl by (intros; by eapply lookup_weaken).
  constructor; [done|by auto| |by eauto|by eauto]. intros i j sv Hi [svj Hj]. apply (N3 i j sv); [auto|]. exists svj. auto.
Qed.

(** The nodes when a block outside all of them has been freed. *)
Lemma nodes_released N fs i fs' : nodes_wf (<[i := new_inode SFS_TYPE_FILE i]> N) fs → N !! i = None → released fs [i] fs' →
  nodes_wf N fs' ∧ ∀ j svj, N !! j = Some svj → same_data fs svj fs' svj ∧ owned fs' svj = owned fs svj.
Proof.
  intros Hn Hi Hre. destruct (nodes_delete _ fs i _ fs' Hn (lookup_insert_eq _ _ _) (new_inode_owned _ _ _) Hre) as [Hd Ho].
  rewrite delete_insert_id in Hd by done. split; [done|]. intros j svj Hj.
  assert (j ≠ i) as Hji by congruence. apply (Ho j svj); [done|]. by rewrite lookup_insert_ne.
Qed.

(** Every file has the same contents and the same blocks. *)
Definition all_same N fs fs' : Prop := ∀ j svj, N !! j = Some svj → same_data fs svj fs' svj ∧ owned fs' svj = owned fs svj.

Inductive makeobj_effect N vol : outcome (Z * Z * volume) → Prop :=
| makeobj_fails e vol' :
    e = ENOSPC ∧ (∀ b, 0 ≤ b → used (vol_fs vol) b = true) ∨ e = ENOMEM ∧ mallocs vol ≠ [] →
    vol_wf N vol' → all_same N (vol_fs vol) (vol_fs vol') → vheap vol' = vheap vol →
    (∀ b, 0 ≤ b → used (vol_fs vol') b = used (vol_fs vol) b) → sfs_sb (vol_fs vol') = sfs_sb (vol_fs vol) →
    meta_kept (λ b, used (vol_fs vol) b = true) (vol_fs vol) (vol_fs vol') →
    makeobj_effect N vol (Ok (e, 0, vol'))
| makeobj_done p ino vol' :
    N !! ino = None → is_u32 ino → vol_wf (<[ino := new_inode SFS_TYPE_FILE ino]> N) vol' →
    all_same N (vol_fs vol) (vol_fs vol') → vheap vol !! p = None →
    vheap vol' = <[p := Vn (new_inode SFS_TYPE_FILE ino) 1]> (vheap vol) →
    (∀ b, 0 ≤ b → used (vol_fs vol') b = if decide (b = ino) then true else used (vol_fs vol) b) → used (vol_fs vol) ino = false →
    sfs_sb (vol_fs vol') = sfs_sb (vol_fs vol) → (mallocs vol = [] → mallocs vol' = []) →
    meta_kept (λ b, used (vol_fs vol) b = true) (vol_fs vol) (vol_fs vol') →
    makeobj_effect N vol (Ok (0, p, vol')).

Lemma with_fs_wf N vol fs' : vol_wf N vol → nodes_wf N fs' → vol_wf N (with_fs fs' vol).
Proof. intros [V1 V2 V3 V4 V5 V6] Hn. by constructor. Qed.

Lemma makeobj_free N vol vol1 ino fs1 :
  vol_wf N vol → allocated (vol_fs vol) ino fs1 → all_same N (vol_fs vol) fs1 → vol_fs vol1 = fs1 ∨ same_fs fs1 (vol_fs vol1) →
  vol_wf N vol1 → nodes_wf (<[ino := new_inode SFS_TYPE_FILE ino]> N) fs1 → vheap vol1 = vheap vol → mallocs vol ≠ [] →
  makeobj_effect N vol (sfs ← sfs_bfree ino (vol_fs vol1); Ok (ENOMEM, 0, with_fs sfs vol1)).
Proof.
  intros Hv Hal Hs1 Hsame Hv1 Hn1 Hh Hms.
  assert (same_fs fs1 (vol_fs vol1)) as Hs by (destruct Hsame as [->|]; [apply same_fs_refl|done]).
  destruct (nodes_same _ fs1 (vol_fs vol1) Hn1 Hs) as [Hn1' Hsd].
  destruct (sfs_bfree_ok ino (vol_fs vol1) (ns_fs _ _ Hn1')) as (fs2 & -> & Hre).
  { rewrite (sf_sb _ _ Hs), (al_sb _ _ _ Hal). apply Hal. }
  { rewrite (same_fs_used fs1), (al_used _ _ _ Hal), decide_True by (done || (pose proof (al_block _ _ _ Hal); lia)). done. }
  rewrite bind_of_Ok. pose proof (allocated_fresh _ _ _ _ (vw_nodes _ _ Hv) Hal) as Hnone.
  destruct (nodes_released N (vol_fs vol1) ino fs2 Hn1' Hnone Hre) as [Hn2 Hs2].
  apply makeobj_fails; [by right|by apply with_fs_wf| |done| | |].
  2: { intros b Hb. cbn [vol_fs with_fs]. rewrite (re_used _ _ _ Hre), (same_fs_used fs1), (al_used _ _ _ Hal) by done.
       repeat case_decide; rewrite ?list_elem_of_singleton in *; [|done..]. subst b. symmetry. apply Hal. }
  2: { cbn [vol_fs with_fs]. by rewrite (re_sb _ _ _ Hre), (sf_sb _ _ Hs), (al_sb _ _ _ Hal). }
  2: { apply (kept_trans _ _ fs1); [by eapply allocated_kept|]. apply (kept_trans _ _ (vol_fs vol1)); [by apply same_fs_kept|].
       by eapply released_kept. }
  intros j svj Hj. destruct (Hs1 j svj Hj) as [D1 O1], (Hs2 j svj Hj) as [D2 O2]. cbn [vol_fs with_fs]. split.
  - eapply same_data_trans; [exact D1|]. eapply same_data_trans; [apply Hsd|exact D2].
  - rewrite O2, (same_fs_owned fs1) by done. done.
Qed.

Lemma sfs_makeobj_ok N vol : vol_wf N vol → makeobj_effect N vol (sfs_makeobj SFS_TYPE_FILE vol).
Proof.
  intros Hv. pose proof (vw_nodes _ _ Hv) as Hn. unfold sfs_makeobj.
  destruct (sfs_balloc_spec (vol_fs vol) (ns_fs _ _ Hn)) as [Hfull|ino fs1 Hal]; rewrite bind_of_Ok; cbv beta iota.
  { change (negb (ENOSPC =? 0)) with true. cbv iota. rewrite with_fs_id. apply makeobj_fails; [by left|done|by intros j svj _|done|done|done|apply kept_refl]. }
  rewrite no_error. destruct (nodes_new N (vol_fs vol) ino fs1 SFS_TYPE_FILE Hn Hal ltac:(done)) as [Hn1 Ho1].
  pose proof (allocated_fresh _ _ _ _ Hn Hal) as Hnone.
  assert (all_same N (vol_fs vol) fs1) as Hs1 by (intros j svj Hj; apply (Ho1 j svj); [congruence|done]).
  assert (vol_wf N (with_fs fs1 vol)) as Hv1.
  { apply with_fs_wf; [done|]. eapply nodes_subset; [|exact Hn1]. by apply insert_subseteq. }
  pose proof (al_block _ _ _ Hal) as Hb.
  assert (is_u32 ino) as Hino.
  { pose proof (lw_blocks _ (sw_device _ (ns_fs _ _ Hn))). pose proof (sw_nblocks _ (ns_fs _ _ Hn)). width. }
  unfold sfs_loadvnode. destruct (find_vnode_ok N _ ino (sfs_vnodes (with_fs fs1 vol)) Hv1) as (r & -> & Hr); [done|].
  rewrite bind_of_Ok.
  assert (∀ p x, vheap vol !! p = Some x → sv_ino (vn_data x) ≠ ino) as Hun.
  { intros p x Hx E. destruct (vw_loaded _ _ Hv p x Hx) as (Hi & _). rewrite E in Hi. congruence. }
  destruct r as [p|]; [destruct Hr as (_ & x & Hx & E); by apply Hun in Hx|]. clear Hr.
  destruct (malloc (with_fs fs1 vol)) as [ok vol2] eqn:Em.
  destruct (malloc_wf N _ ok vol2 Em Hv1) as (Hv2 & Efs2 & Eh2 & Et2 & Ems2). cbn in Efs2, Eh2, Et2, Ems2.
  destruct ok; cbn [negb].
  2: { rewrite bind_of_Ok. change (negb (ENOMEM =? 0)) with true. cbv beta iota. eapply makeobj_free; eauto. intros Hms. by destruct (Ems2 Hms). }
  rewrite Efs2, sfs_bused_ok by (apply Hn1 || (rewrite (al_sb _ _ _ Hal); lia)).
  rewrite (al_used _ _ _ Hal), decide_True, bind_of_Ok by (done || lia). change (kassert true) with (Ok tt). rewrite bind_of_Ok.
  destruct (fs_readblock_ok ino iobuf0 fs1 (ns_fs _ _ Hn1)) as (fs3 & -> & Hs3); [rewrite (al_sb _ _ _ Hal); lia|done|].
  rewrite bind_of_Ok. cbv beta iota. rewrite no_error, (al_sector _ _ _ Hal), decide_True, dec_zeros by done.
  change (SFS_TYPE_FILE =? SFS_TYPE_INVAL) with false. cbn [orb sfi_type]. change (kassert (0 =? SFS_TYPE_INVAL)) with (Ok tt). rewrite bind_of_Ok.
  cbn [sv_i with_type sfi_type]. change (negb (SFS_TYPE_FILE =? SFS_TYPE_FILE) && _) with false. cbv iota.
  destruct (nodes_same _ fs1 fs3 Hn1 Hs3) as [Hn3 Hsd3].
  assert (vol_wf N (with_fs fs3 vol2)) as Hv3.
  { apply with_fs_wf; [done|]. eapply nodes_subset; [|exact Hn3]. by apply insert_subseteq. }
  destruct (malloc (with_fs fs3 vol2)) as [ok vol4] eqn:Em4.
  destruct (malloc_wf N _ ok vol4 Em4 Hv3) as (Hv4 & Efs4 & Eh4 & Et4 & Ems4). cbn in Efs4, Eh4, Et4, Ems4.
  destruct ok; cbn [negb]; rewrite bind_of_Ok; cbv beta iota.
  2: { change (negb (ENOMEM =? 0)) with true. cbv iota. eapply makeobj_free; eauto; [right; by rewrite Efs4|congruence|].
       intros Hms. destruct (Ems2 Hms) as [_ Hm2]. by destruct (Ems4 Hm2). }
  rewrite no_error. set (p := fresh _).
  assert (vheap vol4 !! p = None) as Hp.
  { apply not_elem_of_dom. intros Hc. apply (is_fresh (dom (vheap vol4) ∪ {[0]})). fold p. apply elem_of_union. by left. }
  apply (makeobj_done N vol p ino); [done|done|..].
  - apply (vol_load N _ vol4 _ p (new_inode SFS_TYPE_FILE ino)); [done|by rewrite Efs4|by cbn; rewrite lookup_insert_eq| |done|].
    + cbn. intros j Hj. by rewrite lookup_insert_ne.
    + rewrite Eh4, Eh2. exact Hun.
  - cbn [vol_fs with_fs]. rewrite Efs4. intros j svj Hj. destruct (Hs1 j svj Hj) as [D1 O1]. split; [by eapply same_data_trans|].
    rewrite (same_fs_owned fs1) by done. done.
  - rewrite Eh4, Eh2 in Hp. exact Hp.
  - cbn. rewrite Eh4, Eh2. done.
  - intros b Hb0. cbn [vol_fs]. by rewrite Efs4, (same_fs_used fs1), (al_used _ _ _ Hal).
  - apply Hal.
  - cbn [vol_fs]. by rewrite Efs4, (sf_sb _ _ Hs3), (al_sb _ _ _ Hal).
  - cbn [mallocs]. intros Hms. destruct (Ems2 Hms) as [_ Hm2]. by destruct (Ems4 Hm2).
  - cbn [vol_fs]. rewrite Efs4. apply (kept_trans _ _ fs1); [by eapply allocated_kept|by apply same_fs_kept].
Qed.

End ops.
