(* ===== verification/SfsTree.v ===== *)
(** * SFS volumes as a name space with files (kern/fs/sfs/sfs_vnops.c)

    The specification of a mounted volume is [fs_abs]: the names of the root directory
    with the inode each stands for, the files with their bytes, and the handles, the
    vnodes the kernel holds with their reference counts.  [represents] relates a volume to it:
    the directory holds exactly the names, link counts are the numbers of names, a
    file without names is held by somebody, and every used block is the superblock,
    a freemap block or part of exactly one file.  The lemmas here say how the parts of
    the operations change it. *)

From stdpp Require Import base gmap list list_numbers.
From Stdlib Require Import ZArith Lia.
From S2P Require Import Prelude FrameTable CopyInOut Uio Lhd Bitmap SfsDisk SfsBmap SfsTrunc SfsIo SfsWrite SfsDir SfsVnode SfsVol.
Open Scope Z_scope.

Implicit Types (vol : volume) (sfs fs : sfs_fs) (sv d : sfs_vnode) (name : list Z) (p i j b : Z) (N : gmap Z sfs_vnode).

#[local] Opaque dec_dinode enc_dinode dec_direntry.

(** A file: its size and its bytes, 0 where it has no block. *)
Record afile := AFile { af_size : Z; af_bytes : Z → Z }.

Record fs_abs := FsAbs {
  names : gmap (list Z) Z;
  files : gmap Z afile;
  handles : gmap Z (Z * Z)
}.

Implicit Types (A : fs_abs) (T : gmap (list Z) Z).

Definition with_names T A : fs_abs := FsAbs T (files A) (handles A).
Definition with_files (F : gmap Z afile) A : fs_abs := FsAbs (names A) F (handles A).
Definition with_handles (hs : gmap Z (Z * Z)) A : fs_abs := FsAbs (names A) (files A) hs.

(** The number of names of an inode. *)
Definition links T i : Z := Z.of_nat (size (filter (λ kv, kv.2 = i) T)).

Definition is_file fs sv (f : afile) : Prop :=
  af_size f = sfi_size (sv_i sv) ∧ ∀ k, 0 ≤ k → af_bytes f k = fbyte fs sv k.
Definition handle (x : svnode) : Z * Z := (sv_ino (vn_data x), vn_refcount x).

(** The blocks that are in use without belonging to a file. *)
Definition reserved fs b : Prop :=
  b = SFS_SUPER_BLOCK ∨
  SFS_FREEMAP_START ≤ b < SFS_FREEMAP_START + SFS_FREEMAPBLOCKS (sb_nblocks (sfs_sb fs)).

(** The part of the freemap that is in its block [j]. *)
Definition map_block fs j : list Z := take 512 (drop (Z.to_nat (512 * j)) (v (sfs_freemap fs))).

(** What is on disk of the superblock and the freemap. *)
Record on_disk fs : Prop := {
  od_typed : super_typed (sfs_sb fs);
  od_magic : sb_magic (sfs_sb fs) = SFS_MAGIC;
  od_super : end_volname (dec_super (sector fs SFS_SUPER_BLOCK)) = sfs_sb fs;
  od_room : SFS_FREEMAP_START + SFS_FREEMAPBLOCKS (sb_nblocks (sfs_sb fs)) ≤ sb_nblocks (sfs_sb fs);
  od_freemap j : sfs_freemapdirty fs = false → 0 ≤ j < SFS_FREEMAPBLOCKS (sb_nblocks (sfs_sb fs)) →
    sector fs (SFS_FREEMAP_START + j) = map_block fs j
}.

Record accounted N fs : Prop := {
  ac_used b : 0 ≤ b < sb_nblocks (sfs_sb fs) → used fs b = true →
    reserved fs b ∨ ∃ i sv, N !! i = Some sv ∧ node_block fs i sv b;
  ac_files b i sv : reserved fs b → N !! i = Some sv → ¬ node_block fs i sv b;
  ac_reserved b : reserved fs b → used fs b = true;
  ac_disk : on_disk fs
}.

(** [T] are the names the link counts stand for; in the middle of an operation they
    are not the names of the directory. *)
Record volume_abs T N vol A : Prop := {
  va_vol : vol_wf N vol;
  va_blocks : accounted N (vol_fs vol);
  va_root d : N !! SFS_ROOTDIR_INO = Some d →
    dir_wf (vol_fs vol) d ∧ sfi_linkcount (sv_i d) ≠ 0 ∧
    ∀ name i, names A !! name = Some i ↔ ∃ s, binds (vol_fs vol) d name i s;
  va_rooted : is_Some (N !! SFS_ROOTDIR_INO);
  va_files i : option_Forall2 (is_file (vol_fs vol)) (delete SFS_ROOTDIR_INO N !! i) (files A !! i);
  va_handles : handles A = handle <$> vheap vol;
  va_names name i : names A !! name = Some i → is_Some (files A !! i);
  va_links i sv : N !! i = Some sv → i ≠ SFS_ROOTDIR_INO →
    sfi_type (sv_i sv) = SFS_TYPE_FILE ∧ sfi_linkcount (sv_i sv) = links T i;
  va_open i : is_Some (files A !! i) → links T i = 0 → ∃ p r, handles A !! p = Some (i, r)
}.

Definition represents vol A : Prop := ∃ N, volume_abs (names A) N vol A.

(** ** Counting names *)

Lemma links_insert T name i j : T !! name = None → links (<[name := i]> T) j = links T j + (if decide (i = j) then 1 else 0).
Proof.
  intros Hn. unfold links. rewrite map_filter_insert. cbn. case_decide as Hij.
  - rewrite map_size_insert_None; [lia|]. apply map_lookup_filter_None. by left.
  - rewrite delete_id by done. lia.
Qed.

Lemma links_delete T name i j : T !! name = Some i → links (delete name T) j = links T j - (if decide (i = j) then 1 else 0).
Proof.
  intros Hn. pose proof (links_insert (delete name T) name i j (lookup_delete_eq _ _)) as Hl.
  rewrite insert_delete_id in Hl by done. lia.
Qed.

Lemma links_positive T name i : T !! name = Some i → 0 < links T i.
Proof.
  intros Hn. pose proof (links_delete T name i i Hn) as Hl. rewrite decide_True in Hl by done. unfold links in *. lia.
Qed.

Lemma links_nonneg T i : 0 ≤ links T i.
Proof. unfold links. lia. Qed.

Lemma links_size T i : links T i ≤ Z.of_nat (size T).
Proof.
  unfold links. apply inj_le. rewrite <-!(size_dom (D := gset _)). apply subseteq_size, dom_filter_subseteq.
Qed.

Lemma size_list_to_set_le (l : list (list Z)) : (size (list_to_set l : gset (list Z)) ≤ length l)%nat.
Proof.
  induction l as [|x l IH]; cbn [list_to_set length]; [by rewrite size_empty|].
  rewrite size_union_alt, size_singleton. apply le_n_S. etrans; [|exact IH]. apply subseteq_size. set_solver.
Qed.

(** The names are at most as many as the slots. *)
Lemma names_bound fs d T : dir_wf fs d → (∀ name i, T !! name = Some i → ∃ s, binds fs d name i s) → Z.of_nat (size T) ≤ 1144.
Proof.
  intros Hdir HT. pose proof (dw_size _ _ Hdir) as [Hsz Hm].
  assert (0 ≤ nslots d ≤ 1144) as Hns by (unfold nslots; Z.to_euclidean_division_equations; lia).
  set (l := (λ s, (entry fs d s).2) <$> seqZ 0 (nslots d)).
  assert (dom T ⊆ (list_to_set l : gset (list Z))) as Hsub.
  { intros name [i Hi]%elem_of_dom. destruct (HT name i Hi) as (s & Hs & _ & He). apply elem_of_list_to_set, list_elem_of_fmap.
    exists s. rewrite He. split; [done|]. apply elem_of_seqZ. lia. }
  apply subseteq_size in Hsub. rewrite size_dom in Hsub. pose proof (size_list_to_set_le l) as Hl.
  unfold l in Hl at 2. rewrite length_fmap, length_seqZ in Hl. lia.
Qed.

(** A directory without a free slot has as many names as slots. *)
Lemma names_full fs d T : dir_wf fs d → nslots d = 1144 → (∀ k, 0 ≤ k < 1144 → (entry fs d k).1 ≠ 0) →
  (∀ name i s, binds fs d name i s → is_Some (T !! name)) → 1144 ≤ Z.of_nat (size T).
Proof.
  intros Hdir Hns Hfull HT. set (l := (λ s, (entry fs d s).2) <$> seqZ 0 1144).
  assert (∀ k, 0 ≤ k < 1144 → binds fs d (entry fs d k).2 (entry fs d k).1 k) as Hb.
  { intros k Hk. split; [by rewrite Hns|]. split; [by apply Hfull|]. by destruct (entry fs d k). }
  assert (NoDup l) as Hnd.
  { apply NoDup_fmap_2_strong; [|apply NoDup_seqZ]. intros k1 k2 H1%elem_of_seqZ H2%elem_of_seqZ E.
    eapply (dw_unique _ _ Hdir); [apply (Hb k1); lia|]. rewrite E. apply (Hb k2). lia. }
  assert ((list_to_set l : gset (list Z)) ⊆ dom T) as Hsub.
  { intros name (k & -> & Hk%elem_of_seqZ)%elem_of_list_to_set%list_elem_of_fmap. apply elem_of_dom. eapply HT, Hb. lia. }
  apply subseteq_size in Hsub. rewrite size_dom, size_list_to_set in Hsub by done. unfold l in Hsub.
  rewrite length_fmap, length_seqZ in Hsub. lia.
Qed.

(** ** Keeping the rest *)

Lemma is_file_same fs sv fs' sv' f : same_data fs sv fs' sv' → is_file fs sv f → is_file fs' sv' f.
Proof.
  intros [Hd Hs] [E1 E2]. split; [congruence|]. intros k Hk. rewrite E2 by done. unfold fbyte. by rewrite Hd.
Qed.

Lemma is_file_meta fs sv sv' f : sfi_size (sv_i sv') = sfi_size (sv_i sv) → sfi_direct (sv_i sv') = sfi_direct (sv_i sv) →
  sfi_indirect (sv_i sv') = sfi_indirect (sv_i sv) → is_file fs sv f → is_file fs sv' f.
Proof.
  intros E1 E2 E3 [F1 F2]. split; [congruence|]. intros k Hk. rewrite F2 by done.
  unfold fbyte, fdata, fblock, fblocks. by rewrite E2, E3.
Qed.

Lemma dir_wf_same fs d fs' d' : same_data fs d fs' d' → sfi_type (sv_i d') = sfi_type (sv_i d) → dir_wf fs d → dir_wf fs' d'.
Proof.
  intros Hd Ht [D1 D2 D3]. constructor; [congruence|by rewrite (proj2 Hd)|].
  intros nm i1 s1 i2 s2 H1 H2. rewrite (binds_same fs d) in H1, H2 by done. by eapply D3.
Qed.

Lemma names_same fs d fs' d' T : same_data fs d fs' d' →
  (∀ name i, T !! name = Some i ↔ ∃ s, binds fs d name i s) → ∀ name i, T !! name = Some i ↔ ∃ s, binds fs' d' name i s.
Proof.
  intros Hd HT name i. rewrite HT.
  split; intros [s Hs]; exists s; [exact (proj2 (binds_same fs d fs' d' name i s Hd) Hs)|exact (proj1 (binds_same fs d fs' d' name i s Hd) Hs)].
Qed.

Lemma on_disk_kept fs fs' : on_disk fs → sfs_sb fs' = sfs_sb fs → meta_kept (reserved fs) fs fs' → on_disk fs'.
Proof.
  intros [O1 O2 O3 O4 O5] Hsb [M S]. constructor; rewrite ?Hsb; try done.
  - rewrite S; [done|by left].
  - intros j Hd Hj. rewrite S by (right; lia). destruct M as [[M1 M2]|M]; [|congruence]. unfold map_block. rewrite M1. apply O5; congruence.
Qed.

(** The blocks of a file are not those of the superblock and the freemap. *)
Lemma accounted_kept N fs i sv fs' : accounted N fs → N !! i = Some sv →
  meta_kept (λ b, ¬ node_block fs i sv b) fs fs' → meta_kept (reserved fs) fs fs'.
Proof. intros Ha Hi. apply kept_weaken. intros b Hb. by apply (ac_files _ _ Ha). Qed.

(** One node changes. *)
Lemma accounted_update N fs i fs' sv' :
  accounted N fs → sfs_sb fs' = sfs_sb fs → others_same N fs i fs' → meta_kept (reserved fs) fs fs' →
  (∀ b, node_block fs' i sv' b → (∃ sv, N !! i = Some sv ∧ node_block fs i sv b) ∨ used fs b = false) →
  (∀ b, 0 ≤ b → used fs' b = true → node_block fs' i sv' b ∨
     used fs b = true ∧ ∀ sv, N !! i = Some sv → ¬ node_block fs i sv b) →
  (∀ b, 0 ≤ b → used fs b = true → (∀ sv, N !! i = Some sv → ¬ node_block fs i sv b) → used fs' b = true) →
  accounted (<[i := sv']> N) fs'.
Proof.
  intros [A1 A2 A3 A4] Hsb Ho Hmeta Hnew Hused Hkeep. pose proof (on_disk_kept _ _ A4 Hsb Hmeta) as Hod.
  unfold reserved in *. rewrite <-Hsb in A1, A2, A3.
  assert (∀ b, reserved fs' b → 0 ≤ b) as Hpos by (intros b [->|Hr]; [done|]; unfold SFS_FREEMAP_START in Hr; lia).
  constructor; unfold reserved in *; [| | |done].
  - intros b Hb Hu. destruct (Hused b) as [Hi|[Hu' Hni]]; [lia|done| |].
    + right. exists i, sv'. by rewrite lookup_insert_eq.
    + destruct (A1 b Hb Hu') as [Hr|(j & svj & Hj & Hbj)]; [by left|right]. assert (j ≠ i) as Hji by (intros ->; by eapply Hni).
      exists j, svj. rewrite lookup_insert_ne by done. split; [done|]. unfold node_block. by rewrite (proj2 (Ho j svj Hji Hj)).
  - intros b j svj Hr Hj Hb. destruct (decide (j = i)) as [->|Hji].
    + rewrite lookup_insert_eq in Hj. simplify_eq. destruct (Hnew b Hb) as [(sv & Hi & Hb')|Hf]; [by eapply A2|].
      rewrite A3 in Hf by done. done.
    + rewrite lookup_insert_ne in Hj by done. unfold node_block in Hb. rewrite (proj2 (Ho j svj Hji Hj)) in Hb. by eapply A2.
  - intros b Hr. apply Hkeep; [by apply Hpos|by apply A3|]. intros sv Hi Hb. by eapply A2.
Qed.

Lemma accounted_grown N fs i sv fs' sv' : nodes_wf N fs → N !! i = Some sv → grown fs sv fs' sv' → others_same N fs i fs' →
  accounted N fs → accounted (<[i := sv']> N) fs'.
Proof.
  intros Hn Hi Hg Ho Hac. apply (accounted_update N fs); try done; [apply Hg|..].
  - eapply kept_weaken; [|exact (grown_kept _ _ _ _ Hg)]. intros b Hb.
    split; [destruct Hb as [->|Hb]; [done|unfold SFS_FREEMAP_START in Hb; lia]|]. split; [by apply Hac|].
    intros Hown. apply (ac_files _ _ Hac b i sv Hb Hi). by right.
  - intros b [->|Hb]; [left; exists sv; split; [done|by left]|].
    destruct (gr_new _ _ _ _ Hg b Hb) as [Hb'|Hf]; [left; exists sv; split; [done|by right]|by right].
  - intros b Hb Hu. rewrite (gr_use _ _ _ _ Hg) in Hu by done. destruct (decide (node_block fs' i sv' b)) as [|Hnb]; [by left|right].
    rewrite bool_decide_eq_false_2, orb_false_r in Hu by (intros ?; apply Hnb; by right). split; [done|].
    intros sv0 Hsv [->|Hb0]; apply Hnb; [by left|right]. apply (gr_keep _ _ _ _ Hg). by simplify_eq.
  - intros b Hb Hu _. by rewrite (gr_use _ _ _ _ Hg), Hu by done.
Qed.

Lemma accounted_shrunk N fs i sv fs' sv' : nodes_wf N fs → N !! i = Some sv → shrunk fs sv fs' sv' → others_same N fs i fs' →
  accounted N fs → accounted (<[i := sv']> N) fs'.
Proof.
  intros Hn Hi Hg Ho Hac. apply (accounted_update N fs); try done; [apply Hg|..].
  - eapply (accounted_kept N); [done|done|]. eapply kept_weaken; [|exact (shrunk_kept _ _ _ _ Hg)]. intros b Hb Hown. apply Hb. by right.
  - intros b [->|Hb]; left; exists sv; (split; [done|]); [by left|right; by apply (sh_owned _ _ _ _ Hg)].
  - intros b Hb Hu. rewrite (sh_used _ _ _ _ Hg) in Hu by done. apply andb_true_iff in Hu as [Hu Hd].
    apply negb_true_iff, bool_decide_eq_false in Hd. destruct (decide (node_block fs' i sv' b)) as [|Hnb]; [by left|right]. split; [done|].
    intros sv0 Hsv [->|Hb0]; [apply Hnb; by left|]. simplify_eq. apply Hd. split; [done|]. intros Hc. apply Hnb. by right.
  - intros b Hb Hu Hnb. rewrite (sh_used _ _ _ _ Hg), Hu, bool_decide_eq_false_2; [done| |done].
    intros [Hc _]. apply (Hnb sv Hi). by right.
Qed.

(** The contents of the files when one node changes. *)
Lemma files_others T N vol A i fs' sv' j : volume_abs T N vol A → others_same N (vol_fs vol) i fs' → j ≠ i →
  option_Forall2 (is_file fs') (delete SFS_ROOTDIR_INO (<[i := sv']> N) !! j) (files A !! j).
Proof.
  intros Ha Ho Hji. pose proof (va_files _ _ _ _ Ha j) as Hf. destruct (decide (j = SFS_ROOTDIR_INO)) as [->|Hj1].
  - rewrite lookup_delete_eq in *. by inversion Hf; constructor.
  - rewrite lookup_delete_ne, lookup_insert_ne by done. rewrite lookup_delete_ne in Hf by done.
    destruct (N !! j) as [svj|] eqn:E; inversion Hf; constructor. eapply is_file_same; [|done]. by apply (Ho j svj).
Qed.

Lemma handles_set vol p x sv' : vheap vol !! p = Some x → sv_ino sv' = sv_ino (vn_data x) →
  handle <$> <[p := Vn sv' (vn_refcount x)]> (vheap vol) = handle <$> vheap vol.
Proof.
  intros Hp Hi. rewrite fmap_insert. apply insert_id. rewrite lookup_fmap, Hp. cbn. unfold handle. by rewrite <-Hi.
Qed.

Lemma files_some T N vol A i : volume_abs T N vol A → is_Some (files A !! i) ↔ i ≠ SFS_ROOTDIR_INO ∧ is_Some (N !! i).
Proof.
  intros Ha. assert (is_Some (files A !! i) ↔ is_Some (delete SFS_ROOTDIR_INO N !! i)) as ->
    by (destruct (va_files _ _ _ _ Ha i); done).
  rewrite lookup_delete_is_Some. naive_solver.
Qed.

(** A file other than the root directory changes. *)
Lemma abs_file T N vol A p x sv' vol' f : volume_abs T N vol A → vheap vol !! p = Some x →
  sv_ino (vn_data x) ≠ SFS_ROOTDIR_INO → changed N vol p x sv' vol' → accounted (<[sv_ino (vn_data x) := sv']> N) (vol_fs vol') →
  is_file (vol_fs vol') sv' f →
  volume_abs T (<[sv_ino (vn_data x) := sv']> N) vol' (with_files (<[sv_ino (vn_data x) := f]> (files A)) A).
Proof.
  intros Ha Hp Hi1 Hc Hac Hf. pose proof Ha as [B1 B2 B3 B4 B5 B6 B7 B8 B9].
  destruct (vw_loaded _ _ B1 p x Hp) as (Hi & _ & _). pose proof (ch_others _ _ _ _ _ _ Hc) as Ho. set (i := sv_ino (vn_data x)) in *.
  assert (∀ j, is_Some (<[i := f]> (files A) !! j) ↔ is_Some (files A !! j)) as Hsome.
  { intros j. rewrite lookup_insert_is_Some'. split; [|by right]. intros [<-|?]; [|done]. by apply (files_some T N vol A). }
  constructor; cbn [names files handles with_files].
  - apply Hc.
  - done.
  - intros d. rewrite lookup_insert_ne by done. intros Hd. destruct (B3 d Hd) as (D1 & D2 & D3).
    destruct (Ho SFS_ROOTDIR_INO d) as [Hs _]; [done|done|].
    split; [by eapply dir_wf_same|]. split; [done|]. by eapply names_same.
  - by rewrite lookup_insert_ne.
  - intros j. destruct (decide (j = i)) as [->|Hji].
    + rewrite lookup_delete_ne, !lookup_insert_eq by done. by constructor.
    + rewrite (lookup_insert_ne (files A)) by done. by apply (files_others T N vol A).
  - rewrite (ch_heap _ _ _ _ _ _ Hc), handles_set; [exact B6|exact Hp|exact (ch_ino _ _ _ _ _ _ Hc)].
  - intros nm k Hk. apply Hsome. by eapply B7.
  - intros j sv Hj Hj1. destruct (decide (j = i)) as [->|Hji]; [|rewrite lookup_insert_ne in Hj by done; by apply B8].
    rewrite lookup_insert_eq in Hj. simplify_eq. rewrite (ch_type _ _ _ _ _ _ Hc), (ch_links _ _ _ _ _ _ Hc). by apply B8.
  - intros j Hj. apply B9. by apply Hsome.
Qed.

(** The root directory changes. *)
Lemma abs_root T N vol A p x d' vol' T2 : volume_abs T N vol A → vheap vol !! p = Some x →
  sv_ino (vn_data x) = SFS_ROOTDIR_INO → changed N vol p x d' vol' → accounted (<[sv_ino (vn_data x) := d']> N) (vol_fs vol') →
  dir_wf (vol_fs vol') d' → (∀ name i, T2 !! name = Some i ↔ ∃ s, binds (vol_fs vol') d' name i s) →
  (∀ name i, T2 !! name = Some i → is_Some (files A !! i)) →
  volume_abs T (<[sv_ino (vn_data x) := d']> N) vol' (with_names T2 A).
Proof.
  intros Ha Hp Hi1 Hc Hac Hdir HT2 Hin. pose proof Ha as [B1 B2 B3 B4 B5 B6 B7 B8 B9].
  destruct (vw_loaded _ _ B1 p x Hp) as (Hi & _ & _). pose proof (ch_others _ _ _ _ _ _ Hc) as Ho. rewrite Hi1 in *.
  constructor; cbn [names files handles with_names].
  - rewrite <-Hi1. apply Hc.
  - done.
  - intros d. rewrite lookup_insert_eq. intros [= <-]. split; [done|]. split; [|done].
    rewrite (ch_links _ _ _ _ _ _ Hc). by apply B3.
  - by rewrite lookup_insert_eq.
  - intros j. destruct (decide (j = SFS_ROOTDIR_INO)) as [->|Hj1]; [|by apply (files_others T N vol A)].
    specialize (B5 SFS_ROOTDIR_INO). rewrite lookup_delete_eq in B5. rewrite lookup_delete_eq. inversion B5. constructor.
  - rewrite (ch_heap _ _ _ _ _ _ Hc), handles_set; [exact B6|exact Hp|exact (ch_ino _ _ _ _ _ _ Hc)].
  - done.
  - intros j sv Hj Hj1. rewrite lookup_insert_ne in Hj by done. by apply B8.
  - done.
Qed.

Lemma accounted_same N fs fs' : all_same N fs fs' → (∀ b, 0 ≤ b → used fs' b = used fs b) → sfs_sb fs' = sfs_sb fs →
  meta_kept (λ b, used fs b = true) fs fs' → accounted N fs → accounted N fs'.
Proof.
  intros Hs Hu Hsb Hmeta [A1 A2 A3 A4].
  assert (on_disk fs') as Hod by (eapply on_disk_kept; [done|done|]; eapply kept_weaken; [exact A3|exact Hmeta]).
  unfold reserved, node_block in *. rewrite <-Hsb in A1, A2, A3.
  constructor; unfold reserved, node_block; [| | |done].
  - intros b Hb. rewrite Hu by lia. intros Hub. destruct (A1 b Hb Hub) as [?|(i & sv & Hi & Hb')]; [by left|right].
    exists i, sv. by rewrite (proj2 (Hs i sv Hi)).
  - intros b i sv Hr Hi. rewrite (proj2 (Hs i sv Hi)). by apply A2.
  - intros b Hr. rewrite Hu; [by apply A3|]. destruct Hr as [->|Hr]; [done|]. unfold SFS_FREEMAP_START in Hr. lia.
Qed.

(** No file has changed, but the handles may have. *)
Lemma abs_same_nodes T N vol A vol' hs : volume_abs T N vol A → vol_wf N vol' → all_same N (vol_fs vol) (vol_fs vol') →
  accounted N (vol_fs vol') → hs = handle <$> vheap vol' →
  (∀ i, is_Some (files A !! i) → links T i = 0 → ∃ p r, hs !! p = Some (i, r)) →
  volume_abs T N vol' (with_handles hs A).
Proof.
  intros [B1 B2 B3 B4 B5 B6 B7 B8 B9] Hv Hs Hac Hh Hhs.
  constructor; cbn [names files handles with_handles]; [exact Hv|exact Hac| |exact B4| |exact Hh|exact B7|exact B8|exact Hhs].
  - intros d Hd. destruct (B3 d Hd) as (D1 & D2 & D3). destruct (Hs _ d Hd) as [Hsd _].
    split; [by eapply dir_wf_same|]. split; [done|]. by eapply names_same.
  - intros i. specialize (B5 i). destruct (delete SFS_ROOTDIR_INO N !! i) as [sv|] eqn:E; inversion B5; constructor.
    apply lookup_delete_Some in E as [_ E]. eapply is_file_same; [apply (Hs i sv E)|done].
Qed.

Lemma abs_all_same T N vol A vol' hs : volume_abs T N vol A → vol_wf N vol' → all_same N (vol_fs vol) (vol_fs vol') →
  (∀ b, 0 ≤ b → used (vol_fs vol') b = used (vol_fs vol) b) → sfs_sb (vol_fs vol') = sfs_sb (vol_fs vol) →
  meta_kept (λ b, used (vol_fs vol) b = true) (vol_fs vol) (vol_fs vol') →
  hs = handle <$> vheap vol' → (∀ i p r, handles A !! p = Some (i, r) → ∃ p' r', hs !! p' = Some (i, r')) →
  volume_abs T N vol' (with_handles hs A).
Proof.
  intros Ha Hv Hs Hu Hsb Hmeta Hh Hhs. apply (abs_same_nodes T N vol); [done|done|done| |done|].
  - eapply accounted_same; [exact Hs|exact Hu|exact Hsb|exact Hmeta|apply Ha].
  - intros i Hi Hl. destruct (va_open _ _ _ _ Ha i Hi Hl) as (p & r & Hp). by eapply Hhs.
Qed.

(** The device has been used. *)
Lemma abs_same T N vol A vol' hs : volume_abs T N vol A → vol_wf N vol' → same_fs (vol_fs vol) (vol_fs vol') →
  hs = handle <$> vheap vol' → (∀ i p r, handles A !! p = Some (i, r) → ∃ p' r', hs !! p' = Some (i, r')) →
  volume_abs T N vol' (with_handles hs A).
Proof.
  intros Ha Hv Hs. apply (abs_all_same T N vol); [exact Ha|exact Hv| | |apply Hs|by apply same_fs_kept].
  - intros i sv _. split; [by apply same_fs_data|by apply same_fs_owned].
  - intros b _. by apply same_fs_used.
Qed.

(** The vnode [p] for [i] is held once more. *)
Definition holds p i (hs hs' : gmap Z (Z * Z)) : Prop :=
  ∃ r, hs' = <[p := (i, r)]> hs ∧ (hs !! p = None ∧ r = 1 ∨ hs !! p = Some (i, r - 1)).

Lemma abs_held T N vol A p sv vol' : volume_abs T N vol A → vol_wf N vol' → held vol p sv vol' →
  holds p (sv_ino sv) (handles A) (handle <$> vheap vol') ∧ volume_abs T N vol' (with_handles (handle <$> vheap vol') A).
Proof.
  intros Ha Hv [(r & Hp & Hold) Hot Hs]. pose proof (va_handles _ _ _ _ Ha) as Hh.
  assert (handle <$> vheap vol' = <[p := (sv_ino sv, r)]> (handles A)) as Hh'.
  { rewrite Hh. apply map_eq. intros q. rewrite lookup_fmap. destruct (decide (q = p)) as [->|Hq].
    - by rewrite Hp, lookup_insert_eq.
    - by rewrite lookup_insert_ne, Hot, lookup_fmap by done. }
  rewrite Hh'. split.
  - exists r. split; [done|]. rewrite Hh, lookup_fmap. destruct Hold as [[-> ->]| ->]; [by left|by right].
  - eapply abs_same; [exact Ha|exact Hv|exact Hs|by rewrite Hh'|]. intros i q r' Hq. destruct (decide (q = p)) as [->|Hqp].
    + exists p, r. rewrite lookup_insert_eq. rewrite Hh, lookup_fmap in Hq. destruct Hold as [[E ->]|E]; rewrite E in Hq; [done|].
      cbn in Hq. unfold handle in Hq. cbn in Hq. by simplify_eq.
    + exists q, r'. by rewrite lookup_insert_ne.
Qed.

Lemma links_none T i : (∀ name, T !! name ≠ Some i) → links T i = 0.
Proof.
  intros Hn. unfold links. replace (filter _ T) with (∅ : gmap (list Z) Z); [done|]. symmetry. apply map_empty. intros name.
  apply map_lookup_filter_None. right. intros j Hj. cbn. intros ->. by eapply Hn.
Qed.

Lemma new_inode_file fs type i : is_file fs (new_inode type i) (AFile 0 (λ _, 0)).
Proof.
  split; [done|]. intros k Hk. cbn [af_bytes]. unfold fbyte, fdata.
  assert (fblock fs (new_inode type i) (k / 512) = 0) as ->.
  { unfold fblock, fblocks. cbn [new_inode sv_i sfi_direct sfi_indirect]. unfold idwords. cbn [Z.eqb]. rewrite <-replicate_add.
    unfold zget. case_decide; [|done]. destruct (replicate _ _ !! _) as [y|] eqn:E; [|done]. by apply lookup_replicate_1 in E as [-> _]. }
  unfold bdata. cbn [Z.eqb]. unfold iobuf0, zget. case_decide; [|done].
  destruct (replicate _ _ !! _) as [y|] eqn:E; [|done]. by apply lookup_replicate_1 in E as [-> _].
Qed.

(** A file is created. *)
Lemma abs_new T N vol A p ino vol' : volume_abs T N vol A → (∀ name, T !! name ≠ Some ino) → N !! ino = None →
  vol_wf (<[ino := new_inode SFS_TYPE_FILE ino]> N) vol' → all_same N (vol_fs vol) (vol_fs vol') → vheap vol !! p = None →
  vheap vol' = <[p := Vn (new_inode SFS_TYPE_FILE ino) 1]> (vheap vol) →
  (∀ b, 0 ≤ b → used (vol_fs vol') b = if decide (b = ino) then true else used (vol_fs vol) b) → used (vol_fs vol) ino = false →
  sfs_sb (vol_fs vol') = sfs_sb (vol_fs vol) → meta_kept (λ b, used (vol_fs vol) b = true) (vol_fs vol) (vol_fs vol') →
  volume_abs T (<[ino := new_inode SFS_TYPE_FILE ino]> N) vol'
    (FsAbs (names A) (<[ino := AFile 0 (λ _, 0)]> (files A)) (<[p := (ino, 1)]> (handles A))).
Proof.
  intros Ha HT Hino Hv Hs Hp Hh Hu Hfree Hsb Hmeta. pose proof Ha as [B1 B2 B3 B4 B5 B6 B7 B8 B9].
  assert (others_same N (vol_fs vol) ino (vol_fs vol')) as Ho by (intros j svj _ Hj; exact (Hs j svj Hj)).
  assert (ino ≠ SFS_ROOTDIR_INO) as Hi1 by (intros ->; destruct B4; congruence).
  assert (∀ j, is_Some (<[ino := AFile 0 (λ _, 0)]> (files A) !! j) ↔ j = ino ∨ is_Some (files A !! j)) as Hsome
    by (intros j; rewrite lookup_insert_is_Some'; naive_solver).
  constructor; cbn [names files handles]; [done| | | | | | | |].
  - apply (accounted_update N (vol_fs vol)); [done|done|done|eapply kept_weaken; [|exact Hmeta]; apply B2|..].
    + intros b [->|Hb]; [by right|]. rewrite new_inode_owned in Hb. by apply elem_of_nil in Hb.
    + intros b Hb. rewrite Hu by done. case_decide as Hbi; [left; by left|]. intros Hub. right. split; [done|]. intros sv Hsv. congruence.
    + intros b Hb Hub _. rewrite Hu by done. by case_decide.
  - intros d. rewrite lookup_insert_ne by done. intros Hd. destruct (B3 d Hd) as (D1 & D2 & D3). destruct (Hs _ d Hd) as [Hsd _].
    split; [by eapply dir_wf_same|]. split; [done|]. by eapply names_same.
  - by rewrite lookup_insert_ne.
  - intros j. destruct (decide (j = ino)) as [->|Hji].
    + rewrite lookup_delete_ne, !lookup_insert_eq by done. constructor. apply new_inode_file.
    + rewrite (lookup_insert_ne (files A)) by done. by apply (files_others T N vol A).
  - by rewrite Hh, fmap_insert, B6.
  - intros nm k Hk. apply Hsome. right. by eapply B7.
  - intros j sv Hj Hj1. destruct (decide (j = ino)) as [->|Hji]; [|rewrite lookup_insert_ne in Hj by done; by apply B8].
    rewrite lookup_insert_eq in Hj. simplify_eq. cbn. by rewrite links_none.
  - intros j [->|Hj]%Hsome Hl; [exists p, 1; by rewrite lookup_insert_eq|]. destruct (B9 j Hj Hl) as (q & r & Hq). exists q, r.
    rewrite lookup_insert_ne; [done|]. intros ->. rewrite B6, lookup_fmap, Hp in Hq. done.
Qed.

(** The link count of a file that is held changes. *)
Lemma abs_add_links T T' N vol A p x n : volume_abs T N vol A → vheap vol !! p = Some x → sv_ino (vn_data x) ≠ SFS_ROOTDIR_INO →
  (∀ j, links T' j = links T j + (if decide (sv_ino (vn_data x) = j) then n else 0)) → links T' (sv_ino (vn_data x)) < 65536 →
  let vol' := with_vn p (Vn (add_links n (vn_data x)) (vn_refcount x)) vol in
  vn_add_links p n vol = Ok vol' ∧ volume_abs T' (<[sv_ino (vn_data x) := add_links n (vn_data x)]> N) vol' A.
Proof.
  intros Ha Hp Hi1 HT Hlim vol'. pose proof Ha as [B1 B2 B3 B4 B5 B6 B7 B8 B9].
  destruct (vw_loaded _ _ B1 p x Hp) as (Hi & Hr & _). pose proof (vw_nodes _ _ B1) as Hn.
  split; [unfold vn_add_links; by rewrite (get_vn_eq p x), bind_of_Ok|]. set (i := sv_ino (vn_data x)) in *.
  destruct (B8 i (vn_data x) Hi Hi1) as [Ht Hl]. pose proof (links_nonneg T' i) as Hpos.
  assert (sfi_linkcount (sv_i (add_links n (vn_data x))) = links T' i) as Hl'.
  { cbn. rewrite Hl, HT, decide_True by done. unfold u16. apply Z.mod_small. rewrite HT, decide_True in Hpos, Hlim by done. lia. }
  assert (nodes_wf (<[i := add_links n (vn_data x)]> N) (vol_fs vol)) as Hn'.
  { apply (nodes_meta N (vol_fs vol) i (vn_data x)); [done|done|done|done|done| |done].
    destruct (nw_typed _ _ _ (ns_node _ _ Hn i _ Hi)). constructor; try done. rewrite Hl'. unfold is_u16. lia. }
  assert (∀ j, j ≠ i → links T' j = links T j) as Hother by (intros j Hj; rewrite HT, decide_False by done; lia).
  assert (others_same N (vol_fs vol) i (vol_fs vol)) as Ho by (intros j svj _ _; done).
  constructor.
  - exact (vol_set N vol p x (add_links n (vn_data x)) (vn_refcount x) (vol_fs vol) B1 Hp eq_refl Hr Hn').
  - apply (accounted_update N (vol_fs vol)); [done|done|exact Ho|apply kept_refl|..].
    + intros b Hb. left. by exists (vn_data x).
    + intros b Hb Hu. destruct (decide (node_block (vol_fs vol) i (vn_data x) b)); [by left|right]. split; [done|]. intros sv0 E. by simplify_eq.
    + done.
  - intros d. rewrite lookup_insert_ne by done. apply B3.
  - by rewrite lookup_insert_ne.
  - intros j. destruct (decide (j = i)) as [->|Hji]; [|by apply (files_others T N vol A)].
    specialize (B5 i). rewrite lookup_delete_ne in * by done. rewrite lookup_insert_eq, Hi in *.
    inversion B5 as [sv0 f Hf|]; subst. constructor. exact Hf.
  - unfold vol'. cbn [with_vn vheap]. rewrite handles_set; [exact B6|exact Hp|done].
  - exact B7.
  - intros j sv Hj Hj1. destruct (decide (j = i)) as [->|Hji].
    + rewrite lookup_insert_eq in Hj. by simplify_eq.
    + rewrite lookup_insert_ne in Hj by done. rewrite Hother by done. by apply B8.
  - intros j Hj Hlj. destruct (decide (j = i)) as [->|Hji].
    + exists p, (vn_refcount x). by rewrite B6, lookup_fmap, Hp.
    + apply B9; [done|]. by rewrite <-Hother.
Qed.

(** A reference is given up; a file without names goes away with the last one. *)
Definition drop_handle p A : fs_abs :=
  match handles A !! p with
  | None => A
  | Some (i, r) =>
      if 1 <? r then with_handles (<[p := (i, r - 1)]> (handles A)) A
      else FsAbs (names A)
             (if (links (names A) i =? 0) && negb (i =? SFS_ROOTDIR_INO) then delete i (files A) else files A)
             (delete p (handles A))
  end.

(** A file keeps its inode, its bytes and its blocks; the handles may change. *)
Lemma abs_kept T N vol A p x sv' vol' hs : volume_abs T N vol A → vheap vol !! p = Some x → sv_i sv' = sv_i (vn_data x) →
  vol_wf (<[sv_ino (vn_data x) := sv']> N) vol' → others_same N (vol_fs vol) (sv_ino (vn_data x)) (vol_fs vol') →
  same_data (vol_fs vol) (vn_data x) (vol_fs vol') (vn_data x) → owned (vol_fs vol') (vn_data x) = owned (vol_fs vol) (vn_data x) →
  (∀ b, 0 ≤ b → used (vol_fs vol') b = used (vol_fs vol) b) → sfs_sb (vol_fs vol') = sfs_sb (vol_fs vol) →
  meta_kept (λ b, ¬ node_block (vol_fs vol) (sv_ino (vn_data x)) (vn_data x) b) (vol_fs vol) (vol_fs vol') →
  hs = handle <$> vheap vol' → (∀ i, is_Some (files A !! i) → links T i = 0 → ∃ q r, hs !! q = Some (i, r)) →
  volume_abs T (<[sv_ino (vn_data x) := sv']> N) vol' (with_handles hs A).
Proof.
  intros Ha Hp Esv Hv Ho Hd Hown Hu Hsb Hmeta Hh Hhs. pose proof Ha as [B1 B2 B3 B4 B5 B6 B7 B8 B9].
  destruct (vw_loaded _ _ B1 p x Hp) as (Hi & Hr & _). set (i := sv_ino (vn_data x)) in *.
  assert (same_data (vol_fs vol) (vn_data x) (vol_fs vol') sv') as Hd'.
  { destruct Hd as [D1 D2]. split; [|by rewrite Esv]. intros k. rewrite <-D1. unfold fdata, fblock, fblocks. by rewrite Esv. }
  assert (∀ b, node_block (vol_fs vol') i sv' b ↔ node_block (vol_fs vol) i (vn_data x) b) as Hnb.
  { intros b. unfold node_block. rewrite <-Hown. unfold owned, table, fblocks. by rewrite Esv. }
  constructor; cbn [names files handles with_handles]; [exact Hv| | | | |exact Hh|exact B7| |exact Hhs].
  - apply (accounted_update N (vol_fs vol)); [done|done|exact Ho|by eapply accounted_kept|..].
    + intros b Hb. left. exists (vn_data x). split; [done|by apply Hnb].
    + intros b Hb. rewrite Hu, Hnb by done. intros Hub. destruct (decide (node_block (vol_fs vol) i (vn_data x) b)); [by left|right].
      split; [done|]. intros sv0 E. by simplify_eq.
    + intros b Hb Hub _. by rewrite Hu.
  - intros d Hd1. assert (∃ d0, N !! SFS_ROOTDIR_INO = Some d0 ∧ same_data (vol_fs vol) d0 (vol_fs vol') d ∧ sv_i d = sv_i d0)
      as (d0 & Hd0 & Hs0 & E0).
    { destruct (decide (i = SFS_ROOTDIR_INO)) as [E|Hne].
      - rewrite E, lookup_insert_eq in Hd1. simplify_eq. exists (vn_data x). by rewrite <-E.
      - rewrite lookup_insert_ne in Hd1 by done. exists d. split; [done|]. split; [|done]. by eapply Ho. }
    destruct (B3 d0 Hd0) as (D1 & D2 & D3). rewrite E0. split; [by eapply dir_wf_same; [..|exact D1]; [exact Hs0|congruence]|].
    split; [done|]. by eapply names_same.
  - apply lookup_insert_is_Some'. by right.
  - intros j. destruct (decide (j = i)) as [->|Hji]; [|by apply (files_others T N vol A)].
    specialize (B5 i). destruct (decide (i = SFS_ROOTDIR_INO)) as [E|Hne].
    + rewrite E in *. rewrite lookup_delete_eq in *. inversion B5. constructor.
    + rewrite lookup_delete_ne in * by done. rewrite lookup_insert_eq, Hi in *. inversion B5. constructor. by eapply is_file_same.
  - intros j sv Hj Hj1. destruct (decide (j = i)) as [->|Hji].
    + rewrite lookup_insert_eq in Hj. simplify_eq. rewrite Esv. by apply B8.
    + rewrite lookup_insert_ne in Hj by done. by apply B8.
Qed.

(** A file goes away. *)
Lemma abs_gone T N vol A i sv vol' hs : volume_abs T N vol A → N !! i = Some sv → i ≠ SFS_ROOTDIR_INO →
  links T i = 0 → (∀ name, names A !! name ≠ Some i) →
  vol_wf (delete i N) vol' → others_same N (vol_fs vol) i (vol_fs vol') →
  (∀ b, 0 ≤ b → used (vol_fs vol') b = used (vol_fs vol) b && negb (bool_decide (node_block (vol_fs vol) i sv b))) →
  sfs_sb (vol_fs vol') = sfs_sb (vol_fs vol) → meta_kept (λ b, ¬ node_block (vol_fs vol) i sv b) (vol_fs vol) (vol_fs vol') →
  hs = handle <$> vheap vol' → (∀ j q r, j ≠ i → handles A !! q = Some (j, r) → hs !! q = Some (j, r)) →
  volume_abs T (delete i N) vol' (FsAbs (names A) (delete i (files A)) hs).
Proof.
  intros Ha Hi Hi1 HTi Hno Hv Ho Hu Hsb Hmeta Hh Hhs. pose proof Ha as [B1 B2 B3 B4 B5 B6 B7 B8 B9].
  assert (∀ j svj, delete i N !! j = Some svj → j ≠ i ∧ N !! j = Some svj) as Hdel
    by (intros j svj [? ?]%lookup_delete_Some; done).
  constructor; cbn [names files handles]; [exact Hv| | | | |exact Hh| | |].
  - assert (on_disk (vol_fs vol')) as Hod by (eapply on_disk_kept; [apply B2|done|by eapply accounted_kept]).
    destruct B2 as [A1 A2 A3 _]. unfold reserved in *. rewrite <-Hsb in A1, A2, A3. constructor; unfold reserved; [| | |done].
    + intros b Hb. rewrite Hu by lia. intros [Hub Hnb]%andb_true_iff. apply negb_true_iff, bool_decide_eq_false in Hnb.
      destruct (A1 b Hb Hub) as [?|(j & svj & Hj & Hbj)]; [by left|right]. exists j, svj.
      assert (j ≠ i) as Hji by (intros ->; simplify_eq; done).
      rewrite lookup_delete_ne by done. split; [done|]. unfold node_block. by rewrite (proj2 (Ho j svj Hji Hj)).
    + intros b j svj Hr [Hji Hj]%Hdel. unfold node_block. rewrite (proj2 (Ho j svj Hji Hj)). by apply A2.
    + intros b Hr. rewrite Hu by (destruct Hr as [->|Hr]; [done|unfold SFS_FREEMAP_START in Hr; lia]).
      rewrite A3, bool_decide_eq_false_2 by (done || by apply A2). done.
  - intros d [_ Hd]%Hdel. destruct (B3 d Hd) as (D1 & D2 & D3). destruct (Ho _ d (not_eq_sym Hi1) Hd) as [Hs _].
    split; [by eapply dir_wf_same|]. split; [done|]. by eapply names_same.
  - by rewrite lookup_delete_ne.
  - intros j. rewrite delete_delete. destruct (decide (j = i)) as [->|Hji]; [rewrite !lookup_delete_eq; constructor|].
    rewrite !(lookup_delete_ne _ i) by done. pose proof (files_others T N vol A i (vol_fs vol') sv j Ha Ho Hji) as Hf.
    by rewrite (insert_id N i sv Hi) in Hf.
  - intros nm k Hk. apply lookup_delete_is_Some. split; [|by eapply B7]. intros ->. by eapply Hno.
  - intros j svj [_ Hj]%Hdel. by apply B8.
  - intros j [Hji Hj]%lookup_delete_is_Some Hl. destruct (B9 j Hj Hl) as (q & r & Hq). exists q, r. by apply Hhs.
Qed.

Lemma dropped_handles N vol p x vol' : vheap vol !! p = Some x → dropped N vol p x vol' →
  handle <$> vheap vol' =
  (if 1 <? vn_refcount x then <[p := (sv_ino (vn_data x), vn_refcount x - 1)]> else delete p) (handle <$> vheap vol).
Proof.
  intros Hp Hd. apply map_eq. intros q. rewrite lookup_fmap. destruct (decide (q = p)) as [->|Hq].
  - rewrite (dr_now _ _ _ _ _ Hd). destruct (1 <? vn_refcount x); [by rewrite lookup_insert_eq|by rewrite lookup_delete_eq].
  - rewrite (dr_heap _ _ _ _ _ Hd) by done. destruct (1 <? vn_refcount x);
      [by rewrite lookup_insert_ne, lookup_fmap by done|by rewrite lookup_delete_ne, lookup_fmap by done].
Qed.

Lemma abs_drop N vol A p x vol' : volume_abs (names A) N vol A → vheap vol !! p = Some x → dropped N vol p x vol' →
  volume_abs (names A) (after_drop x N) vol' (drop_handle p A).
Proof.
  intros Ha Hp Hdr. pose proof (va_vol _ _ _ _ Ha) as Hv. destruct (vw_loaded _ _ Hv p x Hp) as (Hi & Hr & _).
  pose proof (dropped_handles N vol p x vol' Hp Hdr) as Hh. destruct Hdr as [H1 H2 H3 H4 H5 _ _ _ H9].
  pose proof (va_handles _ _ _ _ Ha) as Hhs. rewrite <-Hhs in Hh. set (i := sv_ino (vn_data x)) in *.
  assert (handles A !! p = Some (i, vn_refcount x)) as Hpi by (by rewrite Hhs, lookup_fmap, Hp).
  assert (∀ j q r, j ≠ i → handles A !! q = Some (j, r) → q ≠ p) as Hqp by (intros j q r Hji Hq ->; by simplify_eq).
  unfold drop_handle. rewrite Hpi. unfold after_drop in *. fold i in H1, H3, H4 |- *.
  destruct (Z.ltb_spec 1 (vn_refcount x)) as [Hgt|Hle].
  - assert (∀ b, 0 ≤ b → used (vol_fs vol') b = used (vol_fs vol) b) as Hu.
    { intros b Hb. rewrite H4 by done. rewrite bool_decide_eq_false_2 by (intros [? _]; congruence). by rewrite andb_true_r. }
    destruct H3 as [Hs Hown]; [congruence|]. rewrite <-(insert_id N i _ Hi) in H1 |- *.
    eapply abs_kept; [exact Ha|exact Hp|done|exact H1|exact H2|exact Hs|exact Hown|exact Hu|exact H5|exact H9|by rewrite Hh|].
    intros j Hj Hl. destruct (va_open _ _ _ _ Ha j Hj Hl) as (q & r & Hq). destruct (decide (q = p)) as [->|Hne].
    + exists p, (r - 1). simplify_eq. by rewrite lookup_insert_eq.
    + exists q, r. by rewrite lookup_insert_ne.
  - assert (i = SFS_ROOTDIR_INO → sfi_linkcount (sv_i (vn_data x)) ≠ 0) as Hroot.
    { intros E. rewrite E in Hi. by apply (va_root _ _ _ _ Ha). }
    destruct (Z.eqb_spec (sfi_linkcount (sv_i (vn_data x))) 0) as [E0|E0].
    + assert (i ≠ SFS_ROOTDIR_INO) as Hi1 by (intros E; by apply Hroot).
      destruct (va_links _ _ _ _ Ha i _ Hi Hi1) as [_ Hl]. rewrite E0 in Hl. rewrite <-Hl, (proj2 (Z.eqb_neq _ _) Hi1). cbn [Z.eqb negb andb].
      rewrite lookup_delete_eq in H4.
      eapply abs_gone; [exact Ha|exact Hi|exact Hi1|done| |exact H1|exact H2| |exact H5|exact H9|by rewrite Hh|].
      * intros nm Hn. apply links_positive in Hn. lia.
      * intros b Hb. rewrite H4 by done. do 2 f_equal. apply bool_decide_ext. naive_solver.
      * intros j q r Hji Hq. rewrite lookup_delete_ne; [done|]. by eapply not_eq_sym, Hqp.
    + assert ((links (names A) i =? 0) && negb (i =? SFS_ROOTDIR_INO) = false) as ->.
      { destruct (Z.eqb_spec i SFS_ROOTDIR_INO) as [|Hi1]; [by rewrite andb_false_r|].
        destruct (va_links _ _ _ _ Ha i _ Hi Hi1) as [_ Hl]. rewrite <-Hl. by rewrite (proj2 (Z.eqb_neq _ _) E0). }
      rewrite lookup_insert_eq in H3, H4. destruct H3 as [Hs Hown]; [done|].
      change (FsAbs _ _ _) with (with_handles (delete p (handles A)) A).
      eapply abs_kept; [exact Ha|exact Hp|done|exact H1|exact H2|exact Hs|exact Hown| |exact H5|exact H9|by rewrite Hh|].
      * intros b Hb. rewrite H4 by done. rewrite bool_decide_eq_false_2 by (intros [? _]; congruence). by rewrite andb_true_r.
      * intros j Hj Hl. destruct (va_open _ _ _ _ Ha j Hj Hl) as (q & r & Hq). exists q, r. rewrite lookup_delete_ne; [done|].
        apply not_eq_sym, (Hqp j q r); [|done]. intros ->. apply (files_some _ _ _ _ _ Ha) in Hj as [Hi1 _].
        destruct (va_links _ _ _ _ Ha i _ Hi Hi1) as [_ Hl']. lia.
Qed.
