(* ===== verification/SfsOps.v ===== *)
(** * The SFS vnode operations on the abstract volume (kern/fs/sfs/sfs_vnops.c, sfs_dir.c)

    What the steps of the operations do to the name space, the files and the handles
    of [SfsTree]: searching, linking and unlinking names of the root directory, loading
    and giving up vnodes. *)

From stdpp Require Import base gmap list list_numbers.
From Stdlib Require Import ZArith Lia.
From S2P Require Import Prelude FrameTable CopyInOut Uio Lhd Bitmap SfsDisk SfsBmap SfsTrunc SfsIo SfsWrite SfsDir SfsVnode SfsVol SfsTree.
Open Scope Z_scope.

Implicit Types (vol : volume) (sfs fs : sfs_fs) (sv d : sfs_vnode) (name : list Z) (p i j b : Z) (N : gmap Z sfs_vnode).
Implicit Types (A : fs_abs) (T : gmap (list Z) Z).

#[local] Opaque dec_dinode enc_dinode dec_direntry.

Section ops.
Context `{Hardware} {Hrel : Reliable}.

(** The vnode of the root directory. *)
Definition is_root A dir : Prop := ∃ r, handles A !! dir = Some (SFS_ROOTDIR_INO, r).

Lemma handle_vnode T N vol A p i r : volume_abs T N vol A → handles A !! p = Some (i, r) →
  ∃ sv, vheap vol !! p = Some (Vn sv r) ∧ sv_ino sv = i ∧ N !! i = Some sv.
Proof.
  intros Ha Hp. rewrite (va_handles _ _ _ _ Ha), lookup_fmap in Hp. destruct (vheap vol !! p) as [x|] eqn:E; [|done].
  cbn in Hp. unfold handle in Hp. simplify_eq. destruct (vw_loaded _ _ (va_vol _ _ _ _ Ha) p x E) as (Hi & _).
  exists (vn_data x). by destruct x.
Qed.

Lemma vnode_handle T N vol A p x : volume_abs T N vol A → vheap vol !! p = Some x →
  handles A !! p = Some (sv_ino (vn_data x), vn_refcount x).
Proof. intros Ha Hp. by rewrite (va_handles _ _ _ _ Ha), lookup_fmap, Hp. Qed.

Lemma abs_eta A : with_handles (handles A) A = A.
Proof. by destruct A. Qed.

(** ** Names of the root directory *)

Lemma vol_touched N vol p x fs' : vol_wf N vol → vheap vol !! p = Some x → same_fs (vol_fs vol) fs' →
  vol_wf N (with_vn p (Vn (vn_data x) (vn_refcount x)) (with_fs fs' vol)).
Proof.
  intros Hv Hp Hs. destruct (vw_loaded _ _ Hv p x Hp) as (_ & Hr & _). apply vol_set_same; [done|done|done|].
  by apply (nodes_same N (vol_fs vol)), Hs; apply Hv.
Qed.

Lemma abs_touched T N vol A p x fs' : volume_abs T N vol A → vheap vol !! p = Some x → same_fs (vol_fs vol) fs' →
  volume_abs T N (with_vn p (Vn (vn_data x) (vn_refcount x)) (with_fs fs' vol)) A.
Proof.
  intros Ha Hp Hs. rewrite <-(abs_eta A). eapply abs_same; [exact Ha|by apply vol_touched; [apply Ha|..]|exact Hs| |by eauto].
  cbn [with_vn with_fs vheap]. by rewrite handles_set, (va_handles _ _ _ _ Ha).
Qed.

(** A volume that differs in the state of the device only. *)
Record touched vol vol' : Prop := {
  to_fs : same_fs (vol_fs vol) (vol_fs vol');
  to_heap : vheap vol' = vheap vol;
  to_mallocs : mallocs vol' = mallocs vol
}.

Lemma dir_findname_ok T N vol A dir name : volume_abs T N vol A → is_root A dir →
  ∃ found vol', dir_findname dir name vol = Ok (match found with Some _ => 0 | None => ENOENT end, found, vol') ∧
    volume_abs T N vol' A ∧ touched vol vol' ∧ fst <$> found = names A !! name ∧
    ∀ i s, found = Some (i, s) → ∀ d, N !! SFS_ROOTDIR_INO = Some d → binds (vol_fs vol') d name i s.
Proof.
  intros Ha [r Hr]. destruct (handle_vnode _ _ _ _ _ _ _ Ha Hr) as (d & Hx & Hino & Hd).
  destruct (va_root _ _ _ _ Ha d Hd) as (Hdir & _ & Hnames). pose proof (vw_nodes _ _ (va_vol _ _ _ _ Ha)) as Hn.
  destruct (sfs_dir_findname_ok (vol_fs vol) d name (ns_fs _ _ Hn) (nw_inode _ _ _ (ns_node _ _ Hn _ _ Hd)) Hdir)
    as (found & empty & fs' & Ef & Hs & Hfound & _).
  exists found. eexists. split.
  { unfold dir_findname. apply (on_vnode_eq dir (Vn d r)); [exact Hx|]. cbn [vn_data]. by rewrite Ef, bind_of_Ok. }
  split; [by apply (abs_touched T N vol A dir (Vn d r))|]. split; [constructor; [exact Hs|by cbn; apply insert_id|done]|].
  destruct found as [[i s]|]; cbn [found_below] in Hfound.
  - destruct Hfound as [Hb _]. split; [symmetry; apply Hnames; by exists s|]. intros i' s' [= <- <-] d' Hd'. simplify_eq.
    exact (proj2 (binds_same _ _ _ _ _ _ _ (same_fs_data _ _ d Hs)) Hb).
  - split; [|done]. cbn. destruct (names A !! name) as [i|] eqn:E; [|done]. apply Hnames in E as [s Hs'].
    exfalso. by eapply Hfound, Hs'; apply Hs'.
Qed.

(** Why a name cannot be added. *)
Inductive link_refused A name (full : Prop) : Z → Prop :=
| refused_exists : is_Some (names A !! name) → link_refused A name full EEXIST
| refused_toolong : names A !! name = None → SFS_NAMELEN ≤ zlen name → link_refused A name full ENAMETOOLONG
| refused_nospace : names A !! name = None → full → link_refused A name full ENOSPC
| refused_toobig : names A !! name = None → 1144 ≤ Z.of_nat (size (names A)) → link_refused A name full EFBIG.

Definition disk_full fs : Prop := ∀ b, 0 ≤ b → used fs b = true.

(** The root directory has grown, and binds the names [T2]. *)
Lemma abs_root_grown T N vol A dir d r fs' d' T2 : volume_abs T N vol A → vheap vol !! dir = Some (Vn d r) →
  sv_ino d = SFS_ROOTDIR_INO → grown (vol_fs vol) d fs' d' → dir_wf fs' d' →
  (∀ name i, T2 !! name = Some i ↔ ∃ s, binds fs' d' name i s) → (∀ name i, T2 !! name = Some i → is_Some (files A !! i)) →
  volume_abs T (<[SFS_ROOTDIR_INO := d']> N) (with_vn dir (Vn d' r) (with_fs fs' vol)) (with_names T2 A).
Proof.
  intros Ha Hx Hino Hg Hdir HT2 Hin. pose proof (va_vol _ _ _ _ Ha) as Hv. pose proof (vw_nodes _ _ Hv) as Hn.
  destruct (vw_loaded _ _ Hv dir _ Hx) as (Hd & _). cbn [vn_data] in Hd.
  pose proof (changed_grown N vol dir (Vn d r) fs' d' Hv Hx Hg) as Hc. cbn [vn_data vn_refcount] in Hc.
  specialize (Hc ltac:(pose proof (dw_size _ _ Hdir); width)).
  pose proof (abs_root T N vol A dir (Vn d r) d' _ T2 Ha Hx Hino Hc) as Hr. cbn [vn_data] in Hr. rewrite Hino in *.
  apply Hr; [|exact Hdir|exact HT2|exact Hin].
  eapply accounted_grown; [exact Hn|exact Hd|exact Hg|pose proof (ch_others _ _ _ _ _ _ Hc) as Ho; cbn [vn_data] in Ho; by rewrite Hino in Ho|apply Ha].
Qed.

Lemma with_names_id A : with_names (names A) A = A.
Proof. by destruct A. Qed.

Inductive linked T N vol A name ino : outcome (Z * Z * volume) → Prop :=
| linked_fails e slot vol' N' : e ≠ 0 → link_refused A name (disk_full (vol_fs vol')) e → volume_abs T N' vol' A →
    (∀ j, j ≠ SFS_ROOTDIR_INO → N' !! j = N !! j) →
    mallocs vol' = mallocs vol → linked T N vol A name ino (Ok (e, slot, vol'))
| linked_done slot vol' N' : names A !! name = None → zlen name < SFS_NAMELEN →
    volume_abs T N' vol' (with_names (<[name := ino]> (names A)) A) →
    (∀ j, j ≠ SFS_ROOTDIR_INO → N' !! j = N !! j) →
    (∀ nm i s d d', N !! SFS_ROOTDIR_INO = Some d → N' !! SFS_ROOTDIR_INO = Some d' →
       binds (vol_fs vol) d nm i s → binds (vol_fs vol') d' nm i s) →
    mallocs vol' = mallocs vol → linked T N vol A name ino (Ok (0, slot, vol')).

Lemma dir_link_ok T N vol A dir name ino : volume_abs T N vol A → is_root A dir → Forall (λ c, 0 < c < 256) name →
  is_u32 ino → ino ≠ 0 → is_Some (files A !! ino) → linked T N vol A name ino (dir_link dir name ino vol).
Proof.
  intros Ha [r Hr] Hname Hu Hi0 Hino. destruct (handle_vnode _ _ _ _ _ _ _ Ha Hr) as (d & Hx & Hid & Hd).
  destruct (va_root _ _ _ _ Ha d Hd) as (Hdir & _ & Hnames). pose proof (vw_nodes _ _ (va_vol _ _ _ _ Ha)) as Hn.
  assert (∀ i s, binds (vol_fs vol) d name i s → is_Some (names A !! name)) as Hsome by (intros i s Hb; exists i; apply Hnames; by exists s).
  assert ((∀ i s, ¬ binds (vol_fs vol) d name i s) → names A !! name = None) as Hnone.
  { intros Hno. destruct (names A !! name) as [i|] eqn:E; [|done]. apply Hnames in E as [s Hs]. by apply Hno in Hs. }
  assert (∀ j d', j ≠ SFS_ROOTDIR_INO → <[SFS_ROOTDIR_INO := d']> N !! j = N !! j) as HN by (intros j d' Hj; by rewrite lookup_insert_ne).
  assert (∀ a sv' fs', sfs_dir_link d name ino (vol_fs vol) = Ok (a.1, a.2, sv', fs') →
    dir_link dir name ino vol = Ok (a.1, a.2, with_vn dir (Vn sv' r) (with_fs fs' vol))) as Hon.
  { intros [e s] sv' fs' He. unfold dir_link. rewrite (on_vnode_eq dir (Vn d r) _ vol (e, s) sv' fs' Hx); [done|].
    cbn [vn_data]. by rewrite He, bind_of_Ok. }
  pose proof (sfs_dir_link_ok d name ino (vol_fs vol) (ns_fs _ _ Hn) (nw_inode _ _ _ (ns_node _ _ Hn _ _ Hd)) Hdir Hname Hu Hi0) as He.
  inversion He as [i s fs' Hb Hs Eq|fs' Hno Hlong Hs Eq|e s d' fs' Hno Hlen Hc Hg Hsd Eq|s d' fs' Hno Hlen Hg Hdir' Hre Hfree Eq]; symmetry in Eq.
  - rewrite (Hon (_, _) _ _ Eq). eapply linked_fails; [done|apply refused_exists; by eapply Hsome|
      by apply (abs_touched T N vol A dir (Vn d r))|done|done].
  - rewrite (Hon (_, _) _ _ Eq). eapply linked_fails; [done|by apply refused_toolong; [apply Hnone|]|
      by apply (abs_touched T N vol A dir (Vn d r))|done|done].
  - rewrite (Hon (_, _) _ _ Eq). apply linked_fails with (N' := <[SFS_ROOTDIR_INO := d']> N); [by destruct Hc as [[-> _]|[-> _]]| | |by auto|done].
    + destruct Hc as [[-> Hf]|(-> & Hf & Hns)]; [by apply refused_nospace; [apply Hnone|]|apply refused_toobig; [by apply Hnone|]].
      eapply names_full; [exact Hdir|done|exact Hf|]. intros nm i s' Hb. exists i. apply Hnames. by exists s'.
    + rewrite <-(with_names_id A). destruct (gr_ino _ _ _ _ Hg) as (_ & G2 & _).
      eapply abs_root_grown; [exact Ha|exact Hx|exact Hid|exact Hg|by eapply dir_wf_same|by eapply names_same|apply Ha].
  - rewrite (Hon (_, _) _ _ Eq). eapply linked_done; [by apply Hnone|exact Hlen| |by auto| |done].
    + eapply abs_root_grown; [exact Ha|exact Hx|exact Hid|exact Hg|exact Hdir'| |].
      * intros nm i. rewrite lookup_insert_Some. unfold rebound in Hre. split.
        -- intros [[<- <-]|[Hne Hi]]; [exists s; apply Hre; by left|]. apply Hnames in Hi as [s' Hs']. exists s'. apply Hre. right.
           split; [|done]. intros ->. by eapply Hfree.
        -- intros [s' Hb]. apply Hre in Hb as [[-> [= <- <-]]|[Hne Hb]]; [by left|right]. split; [intros ->; by eapply Hno|].
           apply Hnames. by exists s'.
      * intros nm i [[_ <-]|[_ Hi]]%lookup_insert_Some; [done|]. by eapply (va_names _ _ _ _ Ha).
    + intros nm i s' d1 d2 Hd1 Hd2 Hb. rewrite lookup_insert_eq in Hd2. simplify_eq. apply Hre. right. split; [|done].
      intros ->. by eapply Hfree.
Qed.

Lemma dir_unlink_ok T N vol A dir name i slot d : volume_abs T N vol A → is_root A dir → N !! SFS_ROOTDIR_INO = Some d →
  binds (vol_fs vol) d name i slot →
  ∃ vol' d', on_vnode dir (λ sv sfs, sfs_dir_unlink sv slot sfs) vol = Ok (0, vol') ∧
    volume_abs T (<[SFS_ROOTDIR_INO := d']> N) vol' (with_names (delete name (names A)) A) ∧ mallocs vol' = mallocs vol.
Proof.
  intros Ha [r Hr] Hd Hb. destruct (handle_vnode _ _ _ _ _ _ _ Ha Hr) as (d0 & Hx & Hid & Hd0). simplify_eq.
  destruct (va_root _ _ _ _ Ha d Hd) as (Hdir & _ & Hnames). pose proof (vw_nodes _ _ (va_vol _ _ _ _ Ha)) as Hn.
  destruct (sfs_dir_unlink_ok d name i slot (vol_fs vol) (ns_fs _ _ Hn) (nw_inode _ _ _ (ns_node _ _ Hn _ _ Hd)) Hdir Hb)
    as (d' & fs' & Eu & Hg & Hdir' & Hre).
  eexists _, d'. split; [by apply (on_vnode_eq dir (Vn d r) _ vol 0 d' fs')|]. split; [|done].
  eapply abs_root_grown; [exact Ha|exact Hx|exact Hid|exact Hg|exact Hdir'| |].
  - intros nm k. rewrite lookup_delete_Some. split.
    + intros [Hne Hk]. apply Hnames in Hk as [s Hs]. exists s. apply Hre. right. split; [|done]. intros ->.
      destruct Hb as (_ & _ & E1), Hs as (_ & _ & E2). congruence.
    + intros [s Hs]. apply Hre in Hs as [[_ Hs]|[Hne Hs]]; [done|]. split; [|apply Hnames; by exists s].
      intros ->. apply Hne. by eapply (dw_unique _ _ Hdir).
  - intros nm k [_ Hk]%lookup_delete_Some. by eapply (va_names _ _ _ _ Ha).
Qed.

(** ** Loading a file and looking up a name *)

Inductive loaded T N vol A i : outcome (Z * Z * volume) → Prop :=
| loaded_fails vol' : mallocs vol ≠ [] → volume_abs T N vol' A → loaded T N vol A i (Ok (ENOMEM, 0, vol'))
| loaded_done p vol' hs : volume_abs T N vol' (with_handles hs A) → holds p i (handles A) hs →
    same_fs (vol_fs vol) (vol_fs vol') → (mallocs vol = [] → mallocs vol' = []) → loaded T N vol A i (Ok (0, p, vol')).

Lemma loadvnode_ok T N vol A i : volume_abs T N vol A → is_Some (N !! i) → loaded T N vol A i (sfs_loadvnode i SFS_TYPE_INVAL vol).
Proof.
  intros Ha [sv Hi]. pose proof (va_vol _ _ _ _ Ha) as Hv.
  assert (sfi_type (sv_i sv) = SFS_TYPE_FILE ∨ sfi_type (sv_i sv) = SFS_TYPE_DIR) as Ht.
  { destruct (decide (i = SFS_ROOTDIR_INO)) as [->|Hi1].
    - right. apply (va_root _ _ _ _ Ha sv Hi).
    - left. by apply (va_links _ _ _ _ Ha i sv). }
  pose proof (nw_ino _ _ _ (ns_node _ _ (vw_nodes _ _ Hv) i sv Hi)) as Eino.
  destruct (sfs_loadvnode_ok N vol i sv Hv Hi Ht) as [vol' Hv' Hm Hs Hh|p vol' Hv' Hheld Hm].
  - apply loaded_fails; [done|]. rewrite <-(abs_eta A). eapply abs_same; [exact Ha|exact Hv'|exact Hs| |by eauto].
    rewrite Hh. apply (va_handles _ _ _ _ Ha).
  - destruct (abs_held T N vol A p sv vol' Ha Hv' Hheld) as [Hho Ha']. rewrite Eino in Hho.
    eapply loaded_done; [exact Ha'|exact Hho|apply Hheld|done].
Qed.

Inductive looked T N vol A name : outcome (Z * Z * Z * volume) → Prop :=
| looked_nothing vol' : names A !! name = None → volume_abs T N vol' A → looked T N vol A name (Ok (ENOENT, 0, 0, vol'))
| looked_fails vol' : mallocs vol ≠ [] → volume_abs T N vol' A → looked T N vol A name (Ok (ENOMEM, 0, 0, vol'))
| looked_done p i slot vol' hs : names A !! name = Some i → volume_abs T N vol' (with_handles hs A) → holds p i (handles A) hs →
    (∀ d, N !! SFS_ROOTDIR_INO = Some d → binds (vol_fs vol') d name i slot) → looked T N vol A name (Ok (0, p, slot, vol')).

Lemma holds_handle p i hs hs' : holds p i hs hs' → ∃ r, hs' !! p = Some (i, r).
Proof. intros (r & -> & _). exists r. by rewrite lookup_insert_eq. Qed.

Lemma lookonce_ok N vol A dir name : volume_abs (names A) N vol A → is_root A dir →
  looked (names A) N vol A name (sfs_lookonce dir name vol).
Proof.
  intros Ha Hroot. destruct (dir_findname_ok _ N vol A dir name Ha Hroot) as (found & vol1 & Ef & Ha1 & Ht & Hf & Hb).
  unfold sfs_lookonce. rewrite Ef, bind_of_Ok. destruct found as [[i slot]|]; cbn in Hf; [|by apply looked_nothing].
  rewrite no_error. symmetry in Hf.
  destruct (proj1 (files_some _ _ _ _ i Ha1) (va_names _ _ _ _ Ha1 name i Hf)) as [Hi1 Hi].
  destruct (loadvnode_ok _ N vol1 A i Ha1 Hi) as [vol2 Hm Ha2|p vol2 hs Ha2 Hho Hs Hm]; rewrite bind_of_Ok; cbv beta iota.
  { change (negb (ENOMEM =? 0)) with true. cbv iota. apply looked_fails; [by rewrite <-(to_mallocs _ _ Ht)|done]. }
  rewrite no_error. destruct (holds_handle _ _ _ _ Hho) as [r Hr].
  destruct (handle_vnode _ _ _ _ p i r Ha2 Hr) as (sv & Hx & Hino & Hsv).
  rewrite (get_vn_eq p _ vol2 Hx), bind_of_Ok. cbn [vn_data].
  destruct (va_links _ _ _ _ Ha2 i sv Hsv Hi1) as [_ Hl]. rewrite Hl.
  rewrite (proj2 (Z.eqb_neq _ _)) by (pose proof (links_positive _ _ _ Hf); lia).
  change (kassert (negb false)) with (Ok tt). rewrite bind_of_Ok. eapply looked_done; [done|exact Ha2|exact Hho|].
  intros d Hd. specialize (Hb i slot eq_refl d Hd). exact (proj2 (binds_same _ _ _ _ _ _ _ (same_fs_data _ _ d Hs)) Hb).
Qed.

(** Giving up a vnode. *)
Lemma decref_ok N vol A p i r : volume_abs (names A) N vol A → handles A !! p = Some (i, r) →
  ∃ N' vol' sv, vnode_decref p vol = Ok vol' ∧ volume_abs (names A) N' vol' (drop_handle p A) ∧ mallocs vol' = mallocs vol ∧
    N !! i = Some sv ∧ (∀ b, 0 ≤ b → used (vol_fs vol') b = false → used (vol_fs vol) b = false ∨ node_block (vol_fs vol) i sv b).
Proof.
  intros Ha Hp. destruct (handle_vnode _ _ _ _ p i r Ha Hp) as (sv & Hx & Hino & Hsv).
  destruct (vnode_decref_ok N vol p _ (va_vol _ _ _ _ Ha) Hx) as (vol' & Ed & Hdr).
  exists (after_drop (Vn sv r) N), vol', sv. split; [done|]. split; [by eapply abs_drop|]. split; [apply Hdr|]. split; [done|].
  intros b Hb. rewrite (dr_used _ _ _ _ _ Hdr) by done. cbn [vn_data]. rewrite Hino.
  intros [?|Hf]%andb_false_iff; [by left|right]. apply negb_false_iff, bool_decide_eq_true in Hf. by destruct Hf.
Qed.

(** Link counts do not overflow: a directory has at most 1144 entries. *)
Lemma links_fit T N vol A i : volume_abs T N vol A → links (names A) i < 65536.
Proof.
  intros Ha. destruct (va_rooted _ _ _ _ Ha) as [d Hd]. destruct (va_root _ _ _ _ Ha d Hd) as (Hdir & _ & Hnames).
  pose proof (names_bound (vol_fs vol) d (names A) Hdir (λ nm k, proj1 (Hnames nm k))). pose proof (links_size (names A) i). lia.
Qed.

(** The link count of a file follows a name that was added or removed. *)
Lemma add_links_ok T T' N vol A p i r n : volume_abs T N vol (with_names T' A) → handles A !! p = Some (i, r) → i ≠ SFS_ROOTDIR_INO →
  (∀ j, links T' j = links T j + (if decide (i = j) then n else 0)) →
  ∃ N' vol', vn_add_links p n vol = Ok vol' ∧ volume_abs T' N' vol' (with_names T' A) ∧ mallocs vol' = mallocs vol ∧
    vol_fs vol' = vol_fs vol ∧ N' !! SFS_ROOTDIR_INO = N !! SFS_ROOTDIR_INO.
Proof.
  intros Ha Hp Hi1 HT. destruct (handle_vnode _ _ _ _ p i r Ha Hp) as (sv & Hx & Hino & Hsv).
  destruct (abs_add_links T T' N vol _ p (Vn sv r) n Ha Hx) as [El Ha']; cbn [vn_data]; rewrite ?Hino; [done|done|exact (links_fit _ _ _ _ i Ha)|].
  eexists _, _. split; [exact El|]. split; [exact Ha'|]. cbn [vn_data]. rewrite Hino. split; [done|]. split; [done|]. by rewrite lookup_insert_ne.
Qed.

(** A file that is held is written or truncated. *)
Lemma abs_file_grown T N vol A p sv r fs' sv' f : volume_abs T N vol A → vheap vol !! p = Some (Vn sv r) →
  sv_ino sv ≠ SFS_ROOTDIR_INO → grown (vol_fs vol) sv fs' sv' → is_u32 (sfi_size (sv_i sv')) → is_file fs' sv' f →
  volume_abs T (<[sv_ino sv := sv']> N) (with_vn p (Vn sv' r) (with_fs fs' vol)) (with_files (<[sv_ino sv := f]> (files A)) A).
Proof.
  intros Ha Hx Hi1 Hg Hsz Hf. pose proof (va_vol _ _ _ _ Ha) as Hv. pose proof (changed_grown N vol p (Vn sv r) fs' sv' Hv Hx Hg Hsz) as Hc.
  apply (abs_file T N vol A p (Vn sv r) sv' _ f Ha Hx Hi1 Hc); [|exact Hf].
  eapply accounted_grown; [apply Hv|apply (vw_loaded _ _ Hv p _ Hx)|exact Hg|exact (ch_others _ _ _ _ _ _ Hc)|apply Ha].
Qed.

Lemma abs_file_shrunk T N vol A p sv r fs' sv' f : volume_abs T N vol A → vheap vol !! p = Some (Vn sv r) →
  sv_ino sv ≠ SFS_ROOTDIR_INO → shrunk (vol_fs vol) sv fs' sv' → is_u32 (sfi_size (sv_i sv')) → sv_dirty sv' = true → is_file fs' sv' f →
  volume_abs T (<[sv_ino sv := sv']> N) (with_vn p (Vn sv' r) (with_fs fs' vol)) (with_files (<[sv_ino sv := f]> (files A)) A).
Proof.
  intros Ha Hx Hi1 Hg Hsz Hd Hf. pose proof (va_vol _ _ _ _ Ha) as Hv. pose proof (changed_shrunk N vol p (Vn sv r) fs' sv' Hv Hx Hg Hsz Hd) as Hc.
  apply (abs_file T N vol A p (Vn sv r) sv' _ f Ha Hx Hi1 Hc); [|exact Hf].
  eapply accounted_shrunk; [apply Hv|apply (vw_loaded _ _ Hv p _ Hx)|exact Hg|exact (ch_others _ _ _ _ _ _ Hc)|apply Ha].
Qed.

End ops.
