(* ===== verification/SfsDemo.v ===== *)
(** * A small SFS volume

    Sixteen blocks: the superblock, the root directory, the freemap, and one file [a]
    with five bytes.  The directory and the file are in memory.  It represents the
    abstract volume below, and serves as the concrete input on which the theorems about
    the vnode operations are applied. *)

From stdpp Require Import base gmap list list_numbers.
From Stdlib Require Import ZArith Lia.
From S2P Require Import Prelude FrameTable CopyInOut Uio Lhd Bitmap SfsDisk SfsBmap SfsTrunc SfsIo SfsWrite SfsDir SfsVnode SfsVol SfsTree SfsOps.
Open Scope Z_scope.

Definition good_hw : Hardware := λ _ _, false.
Definition good_hw_reliable : @Reliable good_hw := λ _ _, eq_refl.

Definition demo_root : sfs_vnode := SfsVnode (Dinode 64 SFS_TYPE_DIR 1 (4 :: replicate 14 0) 0 (replicate 110 0)) 1 true.
Definition demo_file : sfs_vnode := SfsVnode (Dinode 5 SFS_TYPE_FILE 1 (5 :: replicate 14 0) 0 (replicate 110 0)) 3 true.

Definition demo_entry : list Z := enc_direntry (Direntry 3 (97 :: replicate 59 0)) ++ replicate 448 0.
Definition demo_block : list Z := [104; 101; 108; 108; 111] ++ replicate 507 0.

Definition demo_super : sfs_superblock := Superblock SFS_MAGIC 16 (replicate 32 0) (replicate 118 0).
Definition demo_freemap : bitmap := Bitmap 4096 (63 :: 0 :: replicate 510 255).

Definition demo_fs : sfs_fs :=
  SfsFs demo_super false
    (Lhd (enc_super demo_super :: replicate 3 iobuf0 ++ [demo_entry; demo_block] ++ replicate 10 iobuf0) iobuf0 0)
    demo_freemap true.

Definition demo_vol : volume :=
  Volume demo_fs [1; 2] (<[1 := Vn demo_root 1]> (<[2 := Vn demo_file 1]> ∅)) [].

Definition demo_nodes : gmap Z sfs_vnode := <[1 := demo_root]> (<[3 := demo_file]> ∅).

Definition demo_afile : afile := AFile 5 (fbyte demo_fs demo_file).
Definition demo_abs : fs_abs :=
  FsAbs (<[[97] := 3]> ∅) (<[3 := demo_afile]> ∅) (<[1 := (1, 1)]> (<[2 := (3, 1)]> ∅)).

Lemma demo_pad b : 4096 ≤ b → in_use demo_freemap b = true.
Proof.
  intros Hb. unfold in_use. rewrite (proj2 (zget_None _ _)); [done|]. right. change (zlen (v demo_freemap)) with 512.
  Z.to_euclidean_division_equations. lia.
Qed.

Lemma demo_used b : 0 ≤ b → used demo_fs b = (b <? 6) || (16 <=? b).
Proof.
  intros Hb. destruct (decide (b < 4096)) as [Hlt|Hge].
  - assert (forallb (λ b, eqb (used demo_fs b) ((b <? 6) || (16 <=? b))) (seqZ 0 4096) = true) as Hall by (vm_compute; reflexivity).
    rewrite forallb_forall in Hall. apply eqb_true_iff, Hall, list_elem_of_In, elem_of_seqZ. lia.
  - unfold used. rewrite (proj2 (Z.leb_le 16 b)) by lia. rewrite orb_true_r. apply demo_pad. lia.
Qed.

Lemma demo_fs_wf : sfs_wf demo_fs.
Proof.
  constructor.
  - constructor; [|done|vm_compute; congruence]. repeat (constructor; [done|]). constructor.
  - constructor; [done|done| |exact demo_pad]. intros i w Hw. assert (w ∈ v demo_freemap) as Hin by (apply elem_of_zget; by exists i).
    apply elem_of_cons in Hin as [->|Hin]; [lia|]. apply elem_of_cons in Hin as [->|Hin]; [lia|].
    apply elem_of_replicate in Hin as [-> _]. lia.
  - done.
  - done.
  - intros b Hb. cbn in Hb. rewrite demo_used by lia. rewrite (proj2 (Z.leb_le 16 b)) by lia. apply orb_true_r.
  - done.
Qed.

Lemma demo_owned : owned demo_fs demo_root = [4] ∧ owned demo_fs demo_file = [5].
Proof. done. Qed.

Lemma demo_node i sv : demo_nodes !! i = Some sv → i = 1 ∧ sv = demo_root ∨ i = 3 ∧ sv = demo_file.
Proof.
  unfold demo_nodes. intros [[<- <-]|[_ [[<- <-]|[_ Hc]]%lookup_insert_Some]]%lookup_insert_Some; [by left|by right|].
  by rewrite lookup_empty in Hc.
Qed.

Lemma demo_nodes_wf : nodes_wf demo_nodes demo_fs.
Proof.
  destruct demo_owned as [O1 O2].
  assert (Forall is_u32 (replicate 110 0)) as Hw by (by apply Forall_replicate).
  constructor.
  - apply demo_fs_wf.
  - intros i sv [[-> ->]|[-> ->]]%demo_node; (constructor; [done|by rewrite demo_used| |]).
    + constructor; [done|rewrite O1; apply NoDup_singleton|rewrite O1]. by intros b ->%list_elem_of_singleton.
    + constructor; [done|done|done|split; [done|]|done|split; done]. constructor; [done|by apply Forall_replicate].
    + constructor; [done|rewrite O2; apply NoDup_singleton|rewrite O2]. by intros b ->%list_elem_of_singleton.
    + constructor; [done|done|done|split; [done|]|done|split; done]. constructor; [done|by apply Forall_replicate].
  - intros i j sv [[-> ->]|[-> ->]]%demo_node [sv' [[-> _]|[-> _]]%demo_node]; rewrite ?O1, ?O2; by intros ?%list_elem_of_singleton.
  - intros i j svi svj Hij [[-> ->]|[-> ->]]%demo_node [[-> ->]|[-> ->]]%demo_node; try done; intros b; rewrite O1, O2;
      by intros ->%list_elem_of_singleton ?%list_elem_of_singleton.
  - by intros i sv [[-> ->]|[-> ->]]%demo_node.
Qed.

Lemma demo_heap p x : vheap demo_vol !! p = Some x → p = 1 ∧ x = Vn demo_root 1 ∨ p = 2 ∧ x = Vn demo_file 1.
Proof.
  cbn. intros [[<- <-]|[_ [[<- <-]|[_ Hc]]%lookup_insert_Some]]%lookup_insert_Some; [by left|by right|].
  by rewrite lookup_empty in Hc.
Qed.

Lemma demo_vol_wf : vol_wf demo_nodes demo_vol.
Proof.
  constructor.
  - apply demo_nodes_wf.
  - intros p x [[-> ->]|[-> ->]]%demo_heap; cbn; (split; [done|]; split; [done|]); [by left|right; by left].
  - intros p Hp. apply elem_of_cons in Hp as [->|Hp]; [done|]. apply list_elem_of_singleton in Hp as ->. done.
  - repeat constructor; [|by intros ?%elem_of_nil]. by intros ?%list_elem_of_singleton.
  - by intros p q x y [[-> ->]|[-> ->]]%demo_heap [[-> ->]|[-> ->]]%demo_heap.
  - intros i sv [[-> ->]|[-> ->]]%demo_node Hun; exfalso; [by apply (Hun 1 (Vn demo_root 1))|by apply (Hun 2 (Vn demo_file 1))].
Qed.

Lemma demo_slot : entry demo_fs demo_root 0 = (3, [97]).
Proof. vm_compute. reflexivity. Qed.

Lemma demo_binds name i s : binds demo_fs demo_root name i s ↔ name = [97] ∧ i = 3 ∧ s = 0.
Proof.
  split.
  - intros (Hs & _ & He). change (nslots demo_root) with 1 in Hs. assert (s = 0) as -> by lia. rewrite demo_slot in He. by simplify_eq.
  - intros (-> & -> & ->). split; [done|]. split; [done|]. exact demo_slot.
Qed.

Lemma demo_accounted : accounted demo_nodes demo_fs.
Proof.
  destruct demo_owned as [O1 O2]. change (SFS_FREEMAPBLOCKS 16) with 1.
  assert (∀ b, reserved demo_fs b ↔ b = 0 ∨ b = 2) as Hres.
  { intros b. unfold reserved. change (SFS_FREEMAPBLOCKS (sb_nblocks (sfs_sb demo_fs))) with 1.
    unfold SFS_SUPER_BLOCK, SFS_FREEMAP_START. lia. }
  constructor.
  - intros b Hb. change (sb_nblocks (sfs_sb demo_fs)) with 16 in Hb. rewrite demo_used by lia. intros Hu. rewrite Hres.
    assert (b = 0 ∨ b = 1 ∨ b = 2 ∨ b = 3 ∨ b = 4 ∨ b = 5) as Hc.
    { destruct (Z.leb_spec 16 b); [lia|]. rewrite orb_false_r in Hu. apply Z.ltb_lt in Hu. lia. }
    unfold node_block. destruct Hc as [->|[->|[->|[->|[->| ->]]]]]; [left; by left| |left; by right|..]; right.
    + exists 1, demo_root. split; [done|by left].
    + exists 3, demo_file. split; [done|by left].
    + exists 1, demo_root. split; [done|right; rewrite O1; by left].
    + exists 3, demo_file. split; [done|right; rewrite O2; by left].
  - intros b i sv Hr%Hres [[-> ->]|[-> ->]]%demo_node; unfold node_block; rewrite ?O1, ?O2, list_elem_of_singleton; lia.
  - by intros b [->| ->]%Hres.
  - constructor; [|done|vm_compute; reflexivity|done|done].
    constructor; [done|done|split; [done|]|split; [done|]]; by apply Forall_replicate.
Qed.

Lemma demo_represents : represents demo_vol demo_abs.
Proof.
  exists demo_nodes. constructor.
  - exact demo_vol_wf.
  - exact demo_accounted.
  - intros d [= <-]. split; [|split; [done|]].
    + constructor; [done|done|]. intros nm i1 s1 i2 s2 (_ & _ & ->)%demo_binds (_ & _ & ->)%demo_binds. done.
    + intros nm i. cbn [names demo_abs]. rewrite lookup_insert_Some, lookup_empty. split.
      * intros [[<- <-]|[_ Hc]]; [exists 0; by apply demo_binds|done].
      * intros [s (-> & -> & _)%demo_binds]. by left.
  - done.
  - intros i. cbn [files demo_abs vol_fs demo_vol]. destruct (decide (i = 3)) as [->|Hi3].
    + rewrite lookup_insert_eq. change (delete SFS_ROOTDIR_INO demo_nodes !! 3) with (Some demo_file). constructor. by split.
    + rewrite lookup_insert_ne, lookup_empty by done. destruct (delete SFS_ROOTDIR_INO demo_nodes !! i) as [sv|] eqn:E; [|constructor].
      apply lookup_delete_Some in E as [Hi1 [[-> _]|[-> _]]%demo_node]; done.
  - cbn. rewrite !fmap_insert, fmap_empty. done.
  - intros nm i. cbn. intros [[<- <-]|[_ Hc]]%lookup_insert_Some; [done|by rewrite lookup_empty in Hc].
  - intros i sv [[-> ->]|[-> ->]]%demo_node Hi; [done|]. done.
  - intros i. cbn. intros [f [[<- _]|[_ Hc]]%lookup_insert_Some] _; [by exists 2, 1|by rewrite lookup_empty in Hc].
Qed.

Lemma demo_is_root : is_root demo_abs 1.
Proof. by exists 1. Qed.
