(* ===== verification/SfsSpec.v ===== *)
(** * What the SFS vnode operations do (kern/fs/sfs/sfs_vnops.c)

    The operations a mounted volume offers, as functions on the abstract volume of
    [SfsTree]: every call returns, keeps the volume consistent and has the effect the
    name space, the files and the handles show. *)

From stdpp Require Import base gmap list list_numbers.
From Stdlib Require Import ZArith Lia.
From S2P Require Import Prelude FrameTable CopyInOut Uio Lhd Bitmap SfsDisk SfsBmap SfsTrunc SfsIo SfsWrite SfsDir SfsVnode SfsVol SfsTree SfsOps SfsDemo.
Open Scope Z_scope.

Implicit Types (vol : volume) (sfs fs : sfs_fs) (sv d : sfs_vnode) (name : list Z) (p i j b : Z) (N : gmap Z sfs_vnode).
Implicit Types (A : fs_abs) (T : gmap (list Z) Z).

#[local] Opaque dec_dinode enc_dinode dec_direntry.

(** Names as the system call layer passes them. *)
Definition is_name name : Prop := Forall (λ c, 0 < c < 256) name.

(** At most one block is free. *)
Definition nearly_full fs : Prop :=
  ∀ b b', 0 ≤ b → 0 ≤ b' → used fs b = false → used fs b' = false → b = b'.

Inductive creat_result A name (excl : bool) (nomem full : Prop) : Z → Z → fs_abs → Prop :=
| creat_exists i : names A !! name = Some i → excl = true → creat_result A name excl nomem full EEXIST 0 A
| creat_opens i p hs : names A !! name = Some i → excl = false → holds p i (handles A) hs →
    creat_result A name excl nomem full 0 p (with_handles hs A)
| creat_makes i p : names A !! name = None → zlen name < SFS_NAMELEN → files A !! i = None → handles A !! p = None →
    creat_result A name excl nomem full 0 p
      (FsAbs (<[name := i]> (names A)) (<[i := AFile 0 (λ _, 0)]> (files A)) (<[p := (i, 1)]> (handles A)))
| creat_nomem : nomem → creat_result A name excl nomem full ENOMEM 0 A
| creat_refused e : names A !! name = None → link_refused A name full e → creat_result A name excl nomem full e 0 A.

(** Whether somebody holds the vnode of a file. *)
Definition is_open A i : Prop := ∃ p r, handles A !! p = Some (i, r).

Inductive remove_result A name (nomem : Prop) : Z → fs_abs → Prop :=
| remove_nothing : names A !! name = None → remove_result A name nomem ENOENT A
| remove_nomem : nomem → remove_result A name nomem ENOMEM A
| remove_name i : names A !! name = Some i → links (delete name (names A)) i ≠ 0 ∨ is_open A i →
    remove_result A name nomem 0 (with_names (delete name (names A)) A)
| remove_file i : names A !! name = Some i → links (delete name (names A)) i = 0 → ¬ is_open A i →
    remove_result A name nomem 0 (FsAbs (delete name (names A)) (delete i (files A)) (handles A)).

Inductive rename_result A n1 n2 (nomem full : Prop) : Z → fs_abs → Prop :=
| rename_nothing : names A !! n1 = None → rename_result A n1 n2 nomem full ENOENT A
| rename_nomem : nomem → rename_result A n1 n2 nomem full ENOMEM A
| rename_refused e : link_refused A n2 full e → rename_result A n1 n2 nomem full e A
| rename_done i : names A !! n1 = Some i → names A !! n2 = None → zlen n2 < SFS_NAMELEN →
    rename_result A n1 n2 nomem full 0 (with_names (delete n1 (<[n2 := i]> (names A))) A).

Inductive link_result A name i (full : Prop) : Z → fs_abs → Prop :=
| link_directory : i = SFS_ROOTDIR_INO → link_result A name i full EINVAL A
| link_refuses e : i ≠ SFS_ROOTDIR_INO → link_refused A name full e → link_result A name i full e A
| link_adds : i ≠ SFS_ROOTDIR_INO → names A !! name = None → zlen name < SFS_NAMELEN →
    link_result A name i full 0 (with_names (<[name := i]> (names A)) A).

Inductive lookup_result A name (nomem : Prop) : Z → Z → fs_abs → Prop :=
| lookup_nothing : names A !! name = None → lookup_result A name nomem ENOENT 0 A
| lookup_nomem : nomem → lookup_result A name nomem ENOMEM 0 A
| lookup_finds i p hs : names A !! name = Some i → holds p i (handles A) hs →
    lookup_result A name nomem 0 p (with_handles hs A).

Section spec.
Context `{Hardware} {Hrel : Reliable}.

Lemma drop_new A i p f : handles A !! p = None → files A !! i = None → links (names A) i = 0 → i ≠ SFS_ROOTDIR_INO →
  drop_handle p (FsAbs (names A) (<[i := f]> (files A)) (<[p := (i, 1)]> (handles A))) = A.
Proof.
  intros Hp Hf Hl Hi1. unfold drop_handle. cbn [handles names files]. rewrite lookup_insert_eq. change (1 <? 1) with false. cbv iota.
  rewrite Hl, (proj2 (Z.eqb_neq _ _) Hi1). cbn [Z.eqb negb andb]. rewrite !delete_insert_id by done. by destruct A.
Qed.

Lemma refused_full A name (P Q : Prop) e : (P → Q) → link_refused A name P e → link_refused A name Q e.
Proof. intros HPQ []; constructor; auto. Qed.

Lemma creat_new N vol A dir name : volume_abs (names A) N vol A → is_root A dir → is_name name → names A !! name = None →
  ∃ e p vol' A', ('(result, p, vol) ← sfs_makeobj SFS_TYPE_FILE vol;
        if negb (result =? 0) then Ok (result, 0, vol)
        else
          x ← get_vn p vol;
          '(result, _, vol) ← dir_link dir name (sv_ino (vn_data x)) vol;
          if negb (result =? 0) then vol ← vnode_decref p vol; Ok (result, 0, vol)
          else vol ← vn_add_links p 1 vol; Ok (0, p, vol)) = Ok (e, p, vol') ∧
    represents vol' A' ∧ ∀ excl, creat_result A name excl (mallocs vol ≠ []) (nearly_full (vol_fs vol')) e p A'.
Proof.
  intros Ha [r Hr] Hname Hno. pose proof (va_vol _ _ _ _ Ha) as Hv.
  destruct (sfs_makeobj_ok N vol Hv) as [e vol' He Hv' Hs Hh Hu Hsb Hmeta|p ino vol' Hino Hu32 Hv' Hs Hp Hh Hu Hfree Hsb Hms Hmeta];
    rewrite bind_of_Ok; cbv beta iota.
  { assert (negb (e =? 0) = true) as -> by (by destruct He as [[-> _]|[-> _]]). cbv iota.
    exists e, 0, vol', A. split; [done|]. split.
    - exists N. rewrite <-(abs_eta A) at 2. eapply abs_all_same; [exact Ha|exact Hv'|exact Hs|exact Hu|exact Hsb|exact Hmeta| |by eauto].
      rewrite Hh. apply (va_handles _ _ _ _ Ha).
    - intros excl. destruct He as [[-> Hf]|[-> Hm]]; [|by apply creat_nomem]. apply creat_refused; [done|].
      apply refused_nospace; [done|]. intros b b' Hb Hb'. rewrite Hu, Hf by done. done. }
  rewrite no_error.
  assert (∀ nm, names A !! nm ≠ Some ino) as Hnm.
  { intros nm Hn. apply (va_names _ _ _ _ Ha), (files_some _ _ _ _ _ Ha) in Hn as [_ [? ?]]. congruence. }
  assert (handles A !! p = None) as Hpn by (by rewrite (va_handles _ _ _ _ Ha), lookup_fmap, Hp).
  assert (files A !! ino = None) as Hfn.
  { destruct (files A !! ino) eqn:E; [|done]. destruct (proj1 (files_some _ _ _ _ ino Ha)) as [_ [? ?]]; [by rewrite E|congruence]. }
  assert (ino ≠ SFS_ROOTDIR_INO) as Hi1 by (intros ->; destruct (va_rooted _ _ _ _ Ha); congruence).
  pose proof (abs_new (names A) N vol A p ino vol' Ha Hnm Hino Hv' Hs Hp Hh Hu Hfree Hsb Hmeta) as Ha1.
  set (A1 := FsAbs _ _ _) in Ha1. set (N1 := <[ino := _]> N) in Ha1.
  assert (vheap vol' !! p = Some (Vn (new_inode SFS_TYPE_FILE ino) 1)) as Hx by (by rewrite Hh, lookup_insert_eq).
  rewrite (get_vn_eq p _ vol' Hx), bind_of_Ok. cbn [vn_data new_inode sv_ino].
  assert (is_root A1 dir) as Hroot1.
  { exists r. cbn. rewrite lookup_insert_ne; [done|]. intros ->. congruence. }
  assert (0 < ino) as Hpos by (destruct (nw_block _ _ _ (ns_node _ _ (vw_nodes _ _ Hv') ino _ (lookup_insert_eq _ _ _))); lia).
  destruct (dir_link_ok (names A) N1 vol' A1 dir name ino Ha1 Hroot1 Hname Hu32) as
    [e slot vol2 N2 He Href Ha2 HN Hm|slot vol2 N2 _ Hlen Ha2 HN _ Hm]; [lia|by cbn; rewrite lookup_insert_eq| |];
    rewrite bind_of_Ok; cbv beta iota.
  - rewrite (proj2 (Z.eqb_neq e 0) He). cbn [negb].
    destruct (decref_ok N2 vol2 A1 p ino 1 Ha2) as (N3 & vol3 & sv & -> & Ha3 & _ & Hsv & Hfree3); [by cbn; rewrite lookup_insert_eq|].
    rewrite bind_of_Ok. exists e, 0, vol3, A. split; [done|].
    assert (drop_handle p A1 = A) as Hdrop by (apply drop_new; [done|done|by apply links_none|done]).
    rewrite Hdrop in Ha3. split; [by exists N3|]. intros excl. apply creat_refused; [done|].
    apply (refused_full A name (disk_full (vol_fs vol2))); [|by destruct Href; constructor].
    intros Hfull. rewrite HN in Hsv by done. unfold N1 in Hsv. rewrite lookup_insert_eq in Hsv. simplify_eq.
    assert (∀ b, 0 ≤ b → used (vol_fs vol3) b = false → b = ino) as Hone.
    { intros b Hb Hf. destruct (Hfree3 b Hb Hf) as [Hc|[->|Hc]]; [rewrite Hfull in Hc; done|done|].
      rewrite new_inode_owned in Hc. by apply elem_of_nil in Hc. }
    intros b b' Hb Hb' H1 H2. by rewrite (Hone b), (Hone b').
  - rewrite no_error. destruct (add_links_ok (names A) (<[name := ino]> (names A)) N2 vol2 A1 p ino 1 1 Ha2) as (N3 & vol3 & -> & Ha3 & _);
      [by cbn; rewrite lookup_insert_eq|done|intros j; by apply links_insert|].
    rewrite bind_of_Ok. exists 0, p, vol3, (with_names (<[name := ino]> (names A)) A1). split; [done|]. split; [by exists N3|].
    intros excl. by apply creat_makes.
Qed.

(** C12: creating a file.  On a consistent volume [sfs_creat] on the root directory
    returns, leaves the volume consistent, and does one of these: it refuses a name
    that exists when asked to; it opens the file of that name; it makes an empty file
    with that name, a new inode and a new handle; it fails for a reason that holds (no
    memory, name too long, directory full, no block left) and then the names, files
    and handles are as before. *)
Theorem sfs_creat_spec vol A dir name excl (Hr : represents vol A) (Hdir : is_root A dir) (Hname : is_name name) :
  ∃ e p vol' A', sfs_creat dir name excl vol = Ok (e, p, vol') ∧ represents vol' A' ∧
    creat_result A name excl (mallocs vol ≠ []) (nearly_full (vol_fs vol')) e p A'.
Proof.
  destruct Hr as [N Ha]. destruct (dir_findname_ok _ N vol A dir name Ha Hdir) as (found & vol1 & Ef & Ha1 & Ht & Hf & _).
  unfold sfs_creat. rewrite Ef, bind_of_Ok. cbv beta iota. destruct found as [[i slot]|]; cbn in Hf; symmetry in Hf.
  - change (negb (0 =? 0) && negb (0 =? ENOENT)) with false. cbv iota. change (0 =? 0) with true. cbn [andb].
    destruct excl; [exists EEXIST, 0, vol1, A; split; [done|]; split; [by exists N|]; by eapply creat_exists|].
    destruct (proj1 (files_some _ _ _ _ i Ha1) (va_names _ _ _ _ Ha1 name i Hf)) as [Hi1 Hi].
    destruct (loadvnode_ok _ N vol1 A i Ha1 Hi) as [vol2 Hm Ha2|p vol2 hs Ha2 Hho Hs Hm]; rewrite bind_of_Ok; cbv beta iota.
    + change (negb (ENOMEM =? 0)) with true. cbv iota. exists ENOMEM, 0, vol2, A. split; [done|]. split; [by exists N|].
      apply creat_nomem. by rewrite <-(to_mallocs _ _ Ht).
    + rewrite no_error. exists 0, p, vol2, (with_handles hs A). split; [done|]. split; [by exists N|]. by eapply creat_opens.
  - change (negb (ENOENT =? 0) && negb (ENOENT =? ENOENT)) with false. cbv iota. change (ENOENT =? 0) with false. cbn [andb].
    destruct (creat_new N vol1 A dir name Ha1 Hdir Hname Hf) as (e & p & vol' & A' & E & Hr' & Hres).
    exists e, p, vol', A'. split; [exact E|]. split; [done|]. rewrite <-(to_mallocs _ _ Ht). apply Hres.
Qed.

Lemma node_number N vol i sv : vol_wf N vol → N !! i = Some sv → i ≠ 0 ∧ is_u32 i.
Proof.
  intros Hv Hi. pose proof (vw_nodes _ _ Hv) as Hn. destruct (ns_node _ _ Hn i sv Hi) as [_ [Hb _] _ _].
  pose proof (lw_blocks _ (sw_device _ (ns_fs _ _ Hn))). pose proof (sw_nblocks _ (ns_fs _ _ Hn)). split; [lia|width].
Qed.

Lemma sfs_lookup_ok vol A dir name : represents vol A → is_root A dir →
  ∃ e p vol' A', sfs_lookup dir name vol = Ok (e, p, vol') ∧ represents vol' A' ∧
    lookup_result A name (mallocs vol ≠ []) e p A'.
Proof.
  intros [N Ha] Hdir. pose proof Hdir as [r Hr]. destruct (handle_vnode _ _ _ _ _ _ _ Ha Hr) as (d & Hx & _ & Hd).
  unfold sfs_lookup. rewrite (get_vn_eq dir _ vol Hx), bind_of_Ok. cbn [vn_data].
  destruct (va_root _ _ _ _ Ha d Hd) as (Hdw & _). rewrite (dw_type _ _ Hdw). change (negb (SFS_TYPE_DIR =? SFS_TYPE_DIR)) with false. cbv iota.
  destruct (lookonce_ok N vol A dir name Ha Hdir) as [vol' Hn Ha'|vol' Hm Ha'|p i slot vol' hs Hn Ha' Hho Hb]; rewrite bind_of_Ok; cbv beta iota.
  - exists ENOENT, 0, vol', A. split; [done|]. split; [by exists N|]. by apply lookup_nothing.
  - exists ENOMEM, 0, vol', A. split; [done|]. split; [by exists N|]. by apply lookup_nomem.
  - exists 0, p, vol', (with_handles hs A). split; [done|]. split; [by exists N|]. by eapply lookup_finds.
Qed.

(** [sfs_link] of anything the volume has open. *)
Lemma sfs_link_ok vol A dir name file i r (Hr : represents vol A) (Hdir : is_root A dir) (Hname : is_name name)
  (Hfile : handles A !! file = Some (i, r)) :
  ∃ e vol' A', sfs_link dir name file vol = Ok (e, vol') ∧ represents vol' A' ∧
    link_result A name i (disk_full (vol_fs vol')) e A'.
Proof.
  destruct Hr as [N Ha]. destruct (handle_vnode _ _ _ _ file i r Ha Hfile) as (sv & Hx & Hino & Hsv).
  unfold sfs_link. rewrite (get_vn_eq file _ vol Hx), bind_of_Ok. cbn [vn_data]. rewrite Hino.
  destruct (decide (i = SFS_ROOTDIR_INO)) as [->|Hi1].
  { destruct (va_root _ _ _ _ Ha sv Hsv) as (Hdw & _). rewrite (dw_type _ _ Hdw). change (SFS_TYPE_DIR =? SFS_TYPE_DIR) with true. cbv iota.
    exists EINVAL, vol, A. split; [done|]. split; [by exists N|]. by apply link_directory. }
  destruct (va_links _ _ _ _ Ha i sv Hsv Hi1) as [-> _]. change (SFS_TYPE_FILE =? SFS_TYPE_DIR) with false. cbv iota.
  destruct (node_number N vol i sv (va_vol _ _ _ _ Ha) Hsv) as [Hi0 Hu32].
  destruct (dir_link_ok (names A) N vol A dir name i Ha Hdir Hname Hu32 Hi0) as
    [e slot vol2 N2 He Href Ha2 HN Hm|slot vol2 N2 Hno Hlen Ha2 HN _ Hm];
    [apply (files_some _ _ _ _ _ Ha); by eauto| |]; rewrite bind_of_Ok; cbv beta iota.
  - rewrite (proj2 (Z.eqb_neq e 0) He). cbn [negb]. exists e, vol2, A. split; [done|]. split; [by exists N2|]. by apply link_refuses.
  - rewrite no_error. destruct (add_links_ok (names A) (<[name := i]> (names A)) N2 vol2 A file i r 1 Ha2) as (N3 & vol3 & -> & Ha3 & _);
      [done|done|intros j; by apply links_insert|].
    rewrite bind_of_Ok. exists 0, vol3, (with_names (<[name := i]> (names A)) A). split; [done|]. split; [by exists N3|]. by apply link_adds.
Qed.

(** C15: linking a file.  For a file that is not the root directory, [sfs_link] adds
    the name for the inode of the file, whose link count goes up with it, or fails for
    a reason that holds (the name exists or is too long, the disk or the directory is
    full) and changes no name, file or handle. *)
Theorem sfs_link_spec vol A dir name file i r (Hr : represents vol A) (Hdir : is_root A dir) (Hname : is_name name)
  (Hfile : handles A !! file = Some (i, r)) (Hi : i ≠ SFS_ROOTDIR_INO) :
  ∃ e vol' A', sfs_link dir name file vol = Ok (e, vol') ∧ represents vol' A' ∧
    link_result A name i (disk_full (vol_fs vol')) e A'.
Proof. by eapply sfs_link_ok. Qed.

Lemma handle_unique T N vol A p q i r r' : volume_abs T N vol A → handles A !! p = Some (i, r) → handles A !! q = Some (i, r') → p = q.
Proof.
  intros Ha Hp Hq. destruct (handle_vnode _ _ _ _ _ _ _ Ha Hp) as (sv & Hx & E1 & _). destruct (handle_vnode _ _ _ _ _ _ _ Ha Hq) as (sv' & Hy & E2 & _).
  apply (vw_unique _ _ (va_vol _ _ _ _ Ha) p q _ _ Hx Hy). cbn. congruence.
Qed.

Lemma handle_count T N vol A p i r : volume_abs T N vol A → handles A !! p = Some (i, r) → 1 ≤ r.
Proof.
  intros Ha Hp. destruct (handle_vnode _ _ _ _ _ _ _ Ha Hp) as (sv & Hx & _). by destruct (vw_loaded _ _ (va_vol _ _ _ _ Ha) p _ Hx) as (_ & Hr & _).
Qed.

(** A vnode that was held for the time of a call is given up. *)
Lemma drop_held T N vol A p i hs T2 : volume_abs T N vol A → holds p i (handles A) hs → i ≠ SFS_ROOTDIR_INO →
  (∀ q r, hs !! q = Some (i, r) → q = p) →
  let A' := drop_handle p (FsAbs T2 (files A) hs) in
  handles A' = handles A ∧ names A' = T2 ∧
  (links T2 i ≠ 0 ∨ is_open A i → files A' = files A) ∧ (links T2 i = 0 → ¬ is_open A i → files A' = delete i (files A)).
Proof.
  intros Ha (r & -> & Hold) Hi1 Huniq A'. unfold A', drop_handle. cbn [handles names files]. rewrite lookup_insert_eq.
  destruct Hold as [[Hn ->]|Hs].
  - change (1 <? 1) with false. cbv iota. cbn [handles names files]. rewrite (proj2 (Z.eqb_neq _ _) Hi1), andb_true_r.
    assert (¬ is_open A i) as Hno.
    { intros (q & r & Hq). assert (q ≠ p) as Hqp by congruence. apply Hqp, (Huniq q r). by rewrite lookup_insert_ne. }
    rewrite delete_insert_id by done. split; [done|]. split; [done|]. split.
    + intros [Hl|Hc]; [|done]. by rewrite (proj2 (Z.eqb_neq _ _) Hl).
    + intros -> _. done.
  - pose proof (handle_count _ _ _ _ _ _ _ Ha Hs) as Hc. rewrite (proj2 (Z.ltb_lt 1 r)) by lia. cbn [handles names files with_handles].
    rewrite insert_insert_eq, insert_id by done. split; [done|]. split; [done|]. split; [done|].
    intros _ Hno. destruct Hno. by exists p, (r - 1).
Qed.

Lemma root_held A dir p i hs : is_root A dir → holds p i (handles A) hs → i ≠ SFS_ROOTDIR_INO → is_root (with_handles hs A) dir.
Proof.
  intros [rd Hrd] (r & -> & Hc) Hi1. exists rd. cbn. rewrite lookup_insert_ne; [done|]. intros ->. destruct Hc as [[? _]|?]; congruence.
Qed.

Lemma open_or_not A i : is_open A i ∨ ¬ is_open A i.
Proof.
  destruct (map_choose_or_empty (filter (λ kv, kv.2.1 = i) (handles A))) as [(q & [i' r] & [Hq Hi]%map_lookup_filter_Some)|Hnone].
  - left. exists q, r. cbn in Hi. by subst.
  - right. intros (q & r & Hq). assert (filter (λ kv, kv.2.1 = i) (handles A) !! q = Some (i, r)) as Hf by (by apply map_lookup_filter_Some).
    by rewrite Hnone in Hf.
Qed.

(** The same for a call after which all names are as [T2] says. *)
Lemma drop_held_abs N vol A p i hs T2 : volume_abs T2 N vol (FsAbs T2 (files A) hs) → (∃ T0 N0 vol0, volume_abs T0 N0 vol0 A) →
  holds p i (handles A) hs → i ≠ SFS_ROOTDIR_INO →
  ∃ vol', vnode_decref p vol = Ok vol' ∧ (∀ b, 0 ≤ b → used (vol_fs vol) b = true → links T2 i ≠ 0 → used (vol_fs vol') b = true) ∧
    (links T2 i ≠ 0 ∨ is_open A i → represents vol' (with_names T2 A)) ∧
    (links T2 i = 0 → ¬ is_open A i → represents vol' (FsAbs T2 (delete i (files A)) (handles A))).
Proof.
  intros Ha (T0 & N0 & vol0 & Ha0) Hho Hi1. destruct (holds_handle _ _ _ _ Hho) as [r Hr].
  assert (∀ q r', hs !! q = Some (i, r') → q = p) as Huniq by (intros q r' Hq; by eapply (handle_unique _ _ _ _ q p); [exact Ha|..]).
  destruct (drop_held T0 N0 vol0 A p i hs T2 Ha0 Hho Hi1 Huniq) as (E1 & E2 & E3 & E4).
  destruct (handle_vnode _ _ _ _ p i r Ha Hr) as (sv & Hx & Hino & Hsv).
  destruct (vnode_decref_ok N vol p _ (va_vol _ _ _ _ Ha) Hx) as (vol' & Ed & Hdr).
  pose proof (abs_drop N vol (FsAbs T2 (files A) hs) p _ vol' Ha Hx Hdr) as Ha'. exists vol'. split; [done|].
  destruct (drop_handle p _) as [T' F' H']. cbn in E1, E2, E3, E4, Ha'. subst T' H'. split; [|split].
  - intros b Hb Hu Hl. rewrite (dr_used _ _ _ _ _ Hdr), Hu by done. rewrite bool_decide_eq_false_2; [done|].
    intros [Hgone _]. cbn [vn_data] in Hgone. rewrite Hino in Hgone. unfold after_drop in Hgone. cbn [vn_refcount vn_data] in Hgone.
    destruct (va_links _ _ _ _ Ha i sv Hsv Hi1) as [_ Hlc]. rewrite Hlc, Hino in Hgone.
    rewrite (proj2 (Z.eqb_neq _ _) Hl) in Hgone. destruct (1 <? r); [congruence|]. by rewrite lookup_insert_eq in Hgone.
  - intros Hc. rewrite (E3 Hc) in Ha'. by eexists.
  - intros H1 H2. rewrite (E4 H1 H2) in Ha'. by eexists.
Qed.

(** C13: removing a name.  [sfs_remove] deletes the name if it exists; when it was the
    last name of a file nobody holds, the file goes away and its blocks are free again;
    otherwise the file stays.  No other name, file or handle changes. *)
Theorem sfs_remove_spec vol A dir name (Hr : represents vol A) (Hdir : is_root A dir) :
  ∃ e vol' A', sfs_remove dir name vol = Ok (e, vol') ∧ represents vol' A' ∧
    remove_result A name (mallocs vol ≠ []) e A'.
Proof.
  destruct Hr as [N Ha]. unfold sfs_remove.
  destruct (lookonce_ok N vol A dir name Ha Hdir) as [vol1 Hn Ha1|vol1 Hm Ha1|p i slot vol1 hs Hn Ha1 Hho Hb]; rewrite bind_of_Ok; cbv beta iota.
  { exists ENOENT, vol1, A. split; [done|]. split; [by exists N|]. by apply remove_nothing. }
  { exists ENOMEM, vol1, A. split; [done|]. split; [by exists N|]. by apply remove_nomem. }
  rewrite no_error. destruct (va_rooted _ _ _ _ Ha) as [d Hd]. destruct (holds_handle _ _ _ _ Hho) as [r Hr].
  destruct (proj1 (files_some _ _ _ _ i Ha) (va_names _ _ _ _ Ha name i Hn)) as [Hi1 _].
  pose proof (root_held A dir p i hs Hdir Hho Hi1) as Hdir1.
  destruct (dir_unlink_ok _ N vol1 _ dir name i slot d Ha1 Hdir1 Hd (Hb d Hd)) as (vol2 & d' & -> & Ha2 & _). rewrite bind_of_Ok. cbv beta iota.
  change (0 =? 0) with true. cbv iota. set (T2 := delete name (names A)) in *.
  destruct (handle_vnode _ _ _ _ p i r Ha2 Hr) as (sv & Hx & _ & Hsv). rewrite (get_vn_eq p _ vol2 Hx), bind_of_Ok. cbn [vn_data].
  destruct (va_links _ _ _ _ Ha2 i sv Hsv Hi1) as [_ ->]. rewrite (proj2 (Z.ltb_lt 0 _)) by (by eapply links_positive).
  change (kassert true) with (Ok tt). rewrite bind_of_Ok.
  destruct (add_links_ok (names A) T2 _ vol2 (with_handles hs A) p i r (-1) Ha2 Hr Hi1) as (N3 & vol3 & -> & Ha3 & _).
  { intros j. unfold T2. rewrite (links_delete _ _ i) by done. case_decide; lia. }
  rewrite bind_of_Ok. destruct (drop_held_abs N3 vol3 A p i hs T2 Ha3) as (vol4 & -> & _ & Hkeep & Hgone); [by eauto|done|done|].
  rewrite bind_of_Ok. destruct (decide (links T2 i ≠ 0)) as [Hl|Hl%dec_stable].
  { eexists 0, vol4, _. split; [done|]. split; [by apply Hkeep; left|]. apply (remove_name _ _ _ i Hn). by left. }
  destruct (open_or_not A i) as [Ho|Ho]; eexists 0, vol4, _; (split; [done|]).
  - split; [by apply Hkeep; right|]. apply (remove_name _ _ _ i Hn). by right.
  - split; [by apply Hgone|]. by apply (remove_file _ _ _ i Hn).
Qed.

(** The names after a rename, and their numbers. *)
Lemma rename_links T n1 n2 i j : T !! n1 = Some i → T !! n2 = None →
  links (delete n1 (<[n2 := i]> T)) j = links T j ∧ <[n2 := i]> T !! n1 = Some i.
Proof.
  intros H1 H2. assert (<[n2 := i]> T !! n1 = Some i) as Hn1 by (rewrite lookup_insert_ne; [done|congruence]).
  split; [|done]. rewrite (links_delete _ _ i) by done. rewrite links_insert by done. case_decide; lia.
Qed.

(** [sfs_rename] within the root directory, whatever the two names are. *)
Lemma sfs_rename_ok vol A dir n1 n2 (Hr : represents vol A) (Hdir : is_root A dir) (Hname : is_name n2) :
  ∃ e vol' A', sfs_rename dir n1 dir n2 vol = Ok (e, vol') ∧ represents vol' A' ∧
    rename_result A n1 n2 (mallocs vol ≠ []) (disk_full (vol_fs vol')) e A'.
Proof.
  destruct Hr as [N Ha]. pose proof Hdir as [rd Hrd]. destruct (handle_vnode _ _ _ _ _ _ _ Ha Hrd) as (d0 & Hx0 & Hino0 & _).
  unfold sfs_rename. rewrite (get_vn_eq dir _ vol Hx0), bind_of_Ok, Z.eqb_refl. cbn [vn_data]. rewrite Hino0, Z.eqb_refl.
  change (kassert true) with (Ok tt). rewrite !bind_of_Ok.
  destruct (lookonce_ok N vol A dir n1 Ha Hdir) as [vol1 Hn Ha1|vol1 Hm Ha1|p i slot vol1 hs Hn Ha1 Hho Hb]; rewrite bind_of_Ok; cbv beta iota.
  { exists ENOENT, vol1, A. split; [done|]. split; [by exists N|]. by apply rename_nothing. }
  { exists ENOMEM, vol1, A. split; [done|]. split; [by exists N|]. by apply rename_nomem. }
  rewrite no_error. destruct (va_rooted _ _ _ _ Ha) as [d Hd]. destruct (holds_handle _ _ _ _ Hho) as [r Hr].
  pose proof (va_names _ _ _ _ Ha n1 i Hn) as Hfi. destruct (proj1 (files_some _ _ _ _ i Ha) Hfi) as [Hi1 _].
  pose proof (root_held A dir p i hs Hdir Hho Hi1) as Hdir1.
  destruct (handle_vnode _ _ _ _ p i r Ha1 Hr) as (sv & Hx & Hino & Hsv). rewrite (get_vn_eq p _ vol1 Hx), bind_of_Ok. cbn [vn_data].
  destruct (va_links _ _ _ _ Ha1 i sv Hsv Hi1) as [-> _]. change (kassert (SFS_TYPE_FILE =? SFS_TYPE_FILE)) with (Ok tt).
  rewrite bind_of_Ok, Hino. destruct (node_number N vol1 i sv (va_vol _ _ _ _ Ha1) Hsv) as [Hi0 Hu32].
  pose proof (links_positive _ _ _ Hn) as Hpos.
  destruct (dir_link_ok (names A) N vol1 _ dir n2 i Ha1 Hdir1 Hname Hu32 Hi0 Hfi) as
    [e slot2 vol2 N2 He Href Ha2 HN Hm|slot2 vol2 N2 Hno Hlen Ha2 HN Hb2 Hm]; rewrite bind_of_Ok; cbv beta iota.
  { rewrite (proj2 (Z.eqb_neq e 0) He). cbn [negb].
    destruct (drop_held_abs N2 vol2 A p i hs (names A) Ha2) as (vol3 & -> & Hfull & Hkeep & _); [by eauto|done|done|]. rewrite bind_of_Ok.
    exists e, vol3, A. split; [done|]. split; [rewrite <-(with_names_id A); apply Hkeep; lia|]. apply rename_refused.
    apply (refused_full A n2 (disk_full (vol_fs vol2))); [|by destruct Href; constructor]. intros Hf b Hb0. apply Hfull; [done|by apply Hf|lia]. }
  rewrite no_error. cbn [with_handles names] in Hno. set (T1 := <[n2 := i]> (names A)) in *.
  destruct (add_links_ok (names A) T1 N2 vol2 (with_handles hs A) p i r 1 Ha2 Hr Hi1) as (N3 & vol3 & -> & Ha3 & _ & Hfs3 & HN3);
    [intros j; by apply links_insert|]. rewrite bind_of_Ok.
  destruct (va_rooted _ _ _ _ Ha2) as [d2 Hd2]. rewrite Hd2 in HN3.
  destruct (dir_unlink_ok T1 N3 vol3 _ dir n1 i slot d2 Ha3 Hdir1 HN3) as (vol4 & d4 & -> & Ha4 & _);
    [rewrite Hfs3; by apply (Hb2 n1 i slot d d2 Hd Hd2), Hb|]. rewrite bind_of_Ok. cbv beta iota. rewrite no_error.
  destruct (rename_links (names A) n1 n2 i i Hn Hno) as [Hli Hn1]. cbn [with_names with_handles names files handles] in Ha4. fold T1 in Hli, Hn1.
  destruct (handle_vnode _ _ _ _ p i r Ha4 Hr) as (sv4 & Hx4 & _ & Hsv4). rewrite (get_vn_eq p _ vol4 Hx4), bind_of_Ok. cbn [vn_data].
  destruct (va_links _ _ _ _ Ha4 i sv4 Hsv4 Hi1) as [_ ->]. rewrite (proj2 (Z.ltb_lt 0 _)) by (by eapply links_positive).
  change (kassert true) with (Ok tt). rewrite bind_of_Ok.
  destruct (add_links_ok T1 (delete n1 T1) _ vol4 (with_handles hs A) p i r (-1) Ha4 Hr Hi1) as (N5 & vol5 & -> & Ha5 & _).
  { intros j. rewrite (links_delete _ _ i) by done. case_decide; lia. }
  rewrite bind_of_Ok. destruct (drop_held_abs N5 vol5 A p i hs (delete n1 T1) Ha5) as (vol6 & -> & _ & Hkeep & _); [by eauto|done|done|].
  rewrite bind_of_Ok. exists 0, vol6, (with_names (delete n1 T1) A). split; [done|]. split; [apply Hkeep; lia|]. by apply rename_done.
Qed.

(** An existing new name is refused, also when it is the old name. *)
Lemma sfs_rename_existing vol A dir n1 n2 (Hr : represents vol A) (Hdir : is_root A dir) (Hname : is_name n2)
  (Hn : is_Some (names A !! n2)) :
  ∃ e vol', sfs_rename dir n1 dir n2 vol = Ok (e, vol') ∧ represents vol' A ∧ (e = ENOENT ∨ e = ENOMEM ∨ e = EEXIST).
Proof.
  destruct (sfs_rename_ok vol A dir n1 n2 Hr Hdir Hname) as (e & vol' & A' & Hres & HA & Hcase). exists e, vol'. split; [done|].
  destruct Hcase as [_|_|e [?|Hno|Hno|Hno]|i _ Hno]; try (rewrite Hno in Hn; by destruct Hn); auto.
Qed.

(** C14: renaming to a new name.  When no file has the new name, [sfs_rename] within
    the root directory moves the file from its old name to the new one, or fails for a
    reason that holds and changes nothing; the file, its link count, the other names
    and all handles are the same in every case. *)
Theorem sfs_rename_spec vol A dir n1 n2 (Hr : represents vol A) (Hdir : is_root A dir) (Hname : is_name n2)
  (Hnew : names A !! n2 = None) :
  ∃ e vol' A', sfs_rename dir n1 dir n2 vol = Ok (e, vol') ∧ represents vol' A' ∧
    rename_result A n1 n2 (mallocs vol ≠ []) (disk_full (vol_fs vol')) e A'.
Proof. by apply sfs_rename_ok. Qed.

(** ** The contents of files *)

Lemma file_vnode T N vol A p i r f : volume_abs T N vol A → handles A !! p = Some (i, r) → files A !! i = Some f →
  ∃ sv, vheap vol !! p = Some (Vn sv r) ∧ sv_ino sv = i ∧ N !! i = Some sv ∧ i ≠ SFS_ROOTDIR_INO ∧ is_file (vol_fs vol) sv f.
Proof.
  intros Ha Hp Hf. destruct (handle_vnode _ _ _ _ p i r Ha Hp) as (sv & Hx & Hino & Hsv). exists sv.
  destruct (proj1 (files_some _ _ _ _ i Ha)) as [Hi1 _]; [by rewrite Hf|]. do 4 (split; [done|]).
  pose proof (va_files _ _ _ _ Ha i) as Hff. rewrite lookup_delete_ne, Hsv, Hf in Hff by done. by inversion Hff.
Qed.

Definition file_bytes (f : afile) (off n : Z) : list Z := map (af_bytes f) (seqZ off n).

Lemma file_frange fs sv f off n : is_file fs sv f → 0 ≤ off → frange fs sv off n = file_bytes f off n.
Proof.
  intros [_ Hb] Ho. unfold frange, file_bytes. apply map_ext_in. intros k Hk. symmetry. apply Hb.
  apply list_elem_of_In, elem_of_seqZ in Hk. lia.
Qed.

(** C11: reading a file.  [sfs_read] delivers the bytes of the file from the offset of
    the request up to its end, into exactly the memory the request describes, advances
    the request by that much, and changes no file.  A file whose size has been set
    beyond the 73216 bytes that the block map can hold is read up to there, and the
    read fails with EFBIG once it has to go on; the result is EFAULT when memory of the
    request cannot be written.  (A request for no bytes is covered for the files that
    the block map can hold.) *)
Theorem sfs_read_spec vol A p i r f u m (Hr : represents vol A) (Hp : handles A !! p = Some (i, r)) (Hf : files A !! i = Some f)
  (Hu : uio_wf m u) (Hk : kernel_uio m u) (Hd : uio_dir u = UIO_READ) (Hn : uio_resid u = 0 → af_size f ≤ 73216) :
  let n := Z.max 0 (Z.min (uio_resid u) (af_size f - uio_offset u)) in
  let k := Z.max 0 (Z.min n (73216 - uio_offset u)) in
  let bytes := file_bytes f (uio_offset u) k in
  ∃ e u' m' vol', sfs_read p u m vol = Ok (if (e =? 0) && (k <? n) then EFBIG else e, u', m', vol') ∧ represents vol' A ∧
    moved k bytes u m (e, bytes, u', m').
Proof.
  destruct Hr as [N Ha]. destruct (file_vnode _ _ _ _ p i r f Ha Hp Hf) as (sv & Hx & Hino & Hsv & Hi1 & Hfile).
  pose proof (vw_nodes _ _ (va_vol _ _ _ _ Ha)) as Hns. destruct (ns_node _ _ Hns i sv Hsv) as [_ _ Hin Hty].
  rewrite (proj1 Hfile) in *. intros n k bytes.
  destruct (sfs_io_read sv u m (vol_fs vol) (ns_fs _ _ Hns) Hin Hu Hk Hd (dt_size _ Hty) Hn) as (e & u' & m' & fs' & Eio & Hs & Hm).
  fold n in Eio, Hm. change (below_map (uio_offset u) n) with k in Eio, Hm. pose proof (uw_offset _ _ Hu) as [Ho _].
  rewrite (file_frange _ _ f) in Hm by done. fold bytes in Hm.
  eexists e, u', m', _. split; [|split; [|exact Hm]].
  - unfold sfs_read, writing. rewrite Hd. change (kassert (negb false)) with (Ok tt). rewrite bind_of_Ok.
    rewrite (on_vnode_eq p (Vn sv r) _ vol (if (e =? 0) && (k <? n) then EFBIG else e, u', m') sv fs' Hx); [done|].
    cbn [vn_data]. by rewrite Eio, bind_of_Ok.
  - exists N. by apply (abs_touched (names A) N vol A p (Vn sv r)).
Qed.



Lemma bdata_zero fs k : default 0 (zget (bdata fs 0) k) = 0.
Proof.
  unfold bdata, iobuf0, zget. cbn [Z.eqb]. case_decide; [|done].
  destruct (replicate _ _ !! _) as [y|] eqn:E; [|done]. by apply lookup_replicate_1 in E as [-> _].
Qed.

(** [sfs_truncate] on every byte of every block. *)
Lemma sfs_truncate_exact vol A p i r f len (Hr : represents vol A) (Hp : handles A !! p = Some (i, r)) (Hf : files A !! i = Some f)
  (Hlen : 0 ≤ len < two32) :
  ∃ vol' f', sfs_truncate p len vol = Ok (0, vol') ∧ represents vol' (with_files (<[i := f']> (files A)) A) ∧ af_size f' = len ∧
    ∀ k, 0 ≤ k → af_bytes f' k = if kept ((len + 511) / 512) (k / 512) then af_bytes f k else 0.
Proof.
  destruct Hr as [N Ha]. destruct (file_vnode _ _ _ _ p i r f Ha Hp Hf) as (sv & Hx & Hino & Hsv & Hi1 & [Hfs Hfb]).
  destruct (vnode_truncated N vol p _ len (va_vol _ _ _ _ Ha) Hx Hlen) as (sv' & fs' & Et & _ & He). cbn [vn_data vn_refcount] in *.
  inversion He as [fs0 sv0 Hsh Hbl Hsec Hsz Hd _ Heq]. subst fs0 sv0.
  pose proof (vw_nodes _ _ (va_vol _ _ _ _ Ha)) as Hn. destruct (ns_node _ _ Hn i sv Hsv) as [_ _ Hin _].
  eexists _, (AFile len (fbyte fs' sv')). split; [exact Et|]. split.
  { eexists. rewrite <-Hino. eapply (abs_file_shrunk _ N vol A p sv r); [exact Ha|exact Hx|congruence|exact Hsh|by rewrite Hsz|done|].
    by split; [rewrite Hsz|]. }
  split; [done|]. intros k Hk. cbn [af_bytes]. rewrite (Hfb k Hk). unfold fbyte, fdata. rewrite Hbl.
  destruct (kept _ _); [|by rewrite bdata_zero]. unfold bdata. destruct (Z.eqb_spec (fblock (vol_fs vol) sv (k / 512)) 0) as [|Hne]; [done|].
  rewrite Hsec; [done|]. apply (fblock_indirect (vol_fs vol) sv Hin); [|done].
  destruct (decide (0 ≤ k / 512 < 143)); [done|]. by rewrite fblock_out in Hne.
Qed.

(** The block of the indirect range that begins at the new end is not given back: its
    bytes are there again when the file is extended. *)
Lemma truncate_keeps_block vol A p i r f len (Hr : represents vol A) (Hp : handles A !! p = Some (i, r)) (Hf : files A !! i = Some f)
  (Hlen : 15 * 512 ≤ len < two32) (Hal : len mod 512 = 0) :
  ∃ vol' f', sfs_truncate p len vol = Ok (0, vol') ∧ represents vol' (with_files (<[i := f']> (files A)) A) ∧ af_size f' = len ∧
    ∀ k, len ≤ k < len + 512 → af_bytes f' k = af_bytes f k.
Proof.
  destruct (sfs_truncate_exact vol A p i r f len Hr Hp Hf ltac:(lia)) as (vol' & f' & Ht & HA & Hs & Hb).
  exists vol', f'. split_and!; try done. intros k Hk. rewrite Hb by lia. unfold kept, SFS_NDIRECT.
  destruct (Z.ltb_spec (k / 512) 15) as [Hc|Hc]; [Z.to_euclidean_division_equations; lia|].
  rewrite (proj2 (Z.leb_le _ _)); [done|]. Z.to_euclidean_division_equations. lia.
Qed.


End spec.

(** ** The theorems on a concrete volume *)

#[local] Existing Instance good_hw.
#[local] Existing Instance good_hw_reliable.

Lemma demo_new_name : is_name [98].
Proof. repeat constructor. Qed.

Lemma sfs_creat_spec_witness :
  ∃ e p vol' A', sfs_creat 1 [98] true demo_vol = Ok (e, p, vol') ∧ represents vol' A' ∧
    creat_result demo_abs [98] true (mallocs demo_vol ≠ []) (nearly_full (vol_fs vol')) e p A'.
Proof. exact (sfs_creat_spec demo_vol demo_abs 1 [98] true demo_represents demo_is_root demo_new_name). Defined.

Lemma sfs_link_spec_witness :
  ∃ e vol' A', sfs_link 1 [98] 2 demo_vol = Ok (e, vol') ∧ represents vol' A' ∧
    link_result demo_abs [98] 3 (disk_full (vol_fs vol')) e A'.
Proof. exact (sfs_link_spec demo_vol demo_abs 1 [98] 2 3 1 demo_represents demo_is_root demo_new_name eq_refl ltac:(discriminate)). Defined.

Lemma sfs_remove_spec_witness :
  ∃ e vol' A', sfs_remove 1 [97] demo_vol = Ok (e, vol') ∧ represents vol' A' ∧
    remove_result demo_abs [97] (mallocs demo_vol ≠ []) e A'.
Proof. exact (sfs_remove_spec demo_vol demo_abs 1 [97] demo_represents demo_is_root). Defined.

Lemma sfs_rename_spec_witness :
  ∃ e vol' A', sfs_rename 1 [97] 1 [98] demo_vol = Ok (e, vol') ∧ represents vol' A' ∧
    rename_result demo_abs [97] [98] (mallocs demo_vol ≠ []) (disk_full (vol_fs vol')) e A'.
Proof. exact (sfs_rename_spec demo_vol demo_abs 1 [97] [98] demo_represents demo_is_root demo_new_name eq_refl). Defined.

Definition demo_request (rw : uio_rw) : uio := Uio [Iovec 4096 4] 1 4 UIO_USERSPACE rw 1.

Lemma demo_request_wf rw : uio_wf demo_mem (demo_request rw).
Proof. constructor; try done. repeat (constructor; [done|]). constructor. Qed.

Lemma demo_request_kernel rw : kernel_uio demo_mem (demo_request rw).
Proof. intros Hc. discriminate Hc. Qed.

Lemma sfs_read_spec_witness :
  ∃ e u' m' vol', sfs_read 2 (demo_request UIO_READ) demo_mem demo_vol = Ok (e, u', m', vol') ∧ represents vol' demo_abs ∧
    moved 4 (file_bytes demo_afile 1 4) (demo_request UIO_READ) demo_mem (e, file_bytes demo_afile 1 4, u', m').
Proof.
  destruct (sfs_read_spec demo_vol demo_abs 2 3 1 demo_afile (demo_request UIO_READ) demo_mem demo_represents eq_refl eq_refl
    (demo_request_wf UIO_READ) (demo_request_kernel UIO_READ) eq_refl ltac:(discriminate)) as (e & u' & m' & vol' & He & Hv & Hm).
  change (if (e =? 0) && (_ <? _) then EFBIG else e) with (if (e =? 0) && false then EFBIG else e) in He.
  rewrite andb_false_r in He. exists e, u', m', vol'. split; [exact He|]. split; [exact Hv|exact Hm].
Defined.


