(* ===== verification/SfsFsops.v ===== *)
(** * Mounting, syncing and unmounting SFS (kern/fs/sfs/sfs_fsops.c)

    The operations on a whole volume: [sfs_sync] and its parts, [sfs_unmount],
    [sfs_domount] and the input and output of the freemap.  The abstract file system
    object is the volume itself.  A mount takes the device and gives a volume; an
    unmount gives the device back.  [ms] says which of the memory allocations succeed;
    when it is empty all of them do.

    The theorem: on a disk that does not fail, a volume that has been synced can be
    mounted again from the contents of the disk alone and then holds the same names and
    files. *)

From stdpp Require Import base gmap list list_numbers.
From Stdlib Require Import ZArith Lia.
From S2P Require Import Prelude FrameTable CopyInOut Uio Lhd Bitmap SfsDisk SfsBmap SfsTrunc SfsIo SfsWrite SfsDir SfsVnode SfsVol SfsTree SfsOps SfsDemo.
Open Scope Z_scope.

Implicit Types (vol : volume) (sfs fs : sfs_fs) (sv d : sfs_vnode) (p i j b : Z) (N : gmap Z sfs_vnode) (lh : lhd).
Implicit Types (A : fs_abs) (T : gmap (list Z) Z).

#[local] Opaque dec_dinode enc_dinode dec_direntry.

(** The 512 bytes at [freemapdata + j*SFS_BLOCKSIZE], and the data with other bytes
    there. *)
Definition data_at (data : list Z) j : outcome (list Z) :=
  let a := u32 (j * SFS_BLOCKSIZE) in
  if a + SFS_BLOCKSIZE <=? zlen data then Ok (take 512 (drop (Z.to_nat a) data)) else Fault.

Definition data_put (data : list Z) j (ptr : list Z) : list Z :=
  let a := u32 (j * SFS_BLOCKSIZE) in
  take (Z.to_nat a) data ++ ptr ++ drop (Z.to_nat a + 512) data.

(** Whether the next [kmalloc] succeeds. *)
Definition next_malloc (ms : list bool) : bool * list bool :=
  match ms with
  | [] => (true, [])
  | ok :: ms => (ok, ms)
  end.

Section fsops.
Context `{Hardware}.

Fixpoint freemapio_loop (js : list Z) (rw : uio_rw) sfs : outcome (Z * sfs_fs) :=
  match js with
  | [] => Ok (0, sfs)
  | j :: js =>
      let freemap := sfs_freemap sfs in
      ptr ← data_at (bitmap_getdata freemap) j;
      '(result, sfs) ←
        match rw with
        | UIO_READ =>
            '(result, ptr, sfs) ← fs_readblock (u32 (SFS_FREEMAP_START + j)) ptr sfs;
            Ok (result, with_freemap (Bitmap (nbits freemap) (data_put (bitmap_getdata freemap) j ptr)) (sfs_freemapdirty sfs) sfs)
        | UIO_WRITE => fs_writeblock (u32 (SFS_FREEMAP_START + j)) ptr sfs
        end;
      if negb (result =? 0) then Ok (result, sfs)
      else freemapio_loop js rw sfs
  end.

Definition sfs_freemapio (rw : uio_rw) sfs : outcome (Z * sfs_fs) :=
  freemapio_loop (seqZ 0 (SFS_FREEMAPBLOCKS (sb_nblocks (sfs_sb sfs)))) rw sfs.

(** [VOP_FSYNC] on each vnode; its result is not used. *)
Fixpoint sync_each (ps : list Z) vol : outcome volume :=
  match ps with
  | [] => Ok vol
  | p :: ps =>
      '(_, vol) ← sfs_fsync p vol;
      sync_each ps vol
  end.

Definition sfs_sync_vnodes vol : outcome (Z * volume) :=
  vol ← sync_each (sfs_vnodes vol) vol;
  Ok (0, vol).

Definition sfs_sync_freemap sfs : outcome (Z * sfs_fs) :=
  if sfs_freemapdirty sfs then
    '(result, sfs) ← sfs_freemapio UIO_WRITE sfs;
    if negb (result =? 0) then Ok (result, sfs)
    else Ok (0, with_freemap (sfs_freemap sfs) false sfs)
  else Ok (0, sfs).

Definition sfs_sync_superblock sfs : outcome (Z * sfs_fs) :=
  if sfs_superdirty sfs then
    '(result, sfs) ← fs_writeblock SFS_SUPER_BLOCK (enc_super (sfs_sb sfs)) sfs;
    if negb (result =? 0) then Ok (result, sfs)
    else Ok (0, SfsFs (sfs_sb sfs) false (sfs_device sfs) (sfs_freemap sfs) (sfs_freemapdirty sfs))
  else Ok (0, sfs).

Definition sfs_sync vol : outcome (Z * volume) :=
  '(result, vol) ← sfs_sync_vnodes vol;
  if negb (result =? 0) then Ok (result, vol)
  else
    '(result, sfs) ← sfs_sync_freemap (vol_fs vol);
    let vol := with_fs sfs vol in
    if negb (result =? 0) then Ok (result, vol)
    else
      '(result, sfs) ← sfs_sync_superblock (vol_fs vol);
      let vol := with_fs sfs vol in
      if negb (result =? 0) then Ok (result, vol)
      else Ok (0, vol).

Definition sfs_getvolname vol : list Z := sb_volname (sfs_sb (vol_fs vol)).

(** [vnodearray_destroy] asserts that the array is empty. *)
Definition sfs_fs_destroy (freemap : option bitmap) (vnodes : list Z) (device : option lhd) : outcome unit :=
  let _ := bitmap_destroy <$> freemap in
  _ ← kassert (zlen vnodes =? 0);
  kassert (match device with None => true | Some _ => false end).

(** The volume, or the device when there is no volume any more. *)
Definition sfs_unmount vol : outcome (Z * (volume + lhd)) :=
  let sfs := vol_fs vol in
  if 0 <? zlen (sfs_vnodes vol) then Ok (EBUSY, inl vol)
  else
    _ ← kassert (negb (sfs_superdirty sfs));
    _ ← kassert (negb (sfs_freemapdirty sfs));
    _ ← sfs_fs_destroy (Some (sfs_freemap sfs)) (sfs_vnodes vol) None;
    Ok (0, inr (sfs_device sfs)).

(** Whether there is memory for the object and its table of vnodes. *)
Definition sfs_fs_create (ms : list bool) : bool * list bool :=
  let '(have_sfs, ms) := next_malloc ms in
  if have_sfs then next_malloc ms else (false, ms).

Definition create_freemap (n : Z) (ms : list bool) : outcome (option bitmap * list bool) :=
  let '(have_b, ms) := next_malloc ms in
  let '(have_v, ms) := if have_b : bool then next_malloc ms else (false, ms) in
  freemap ← bitmap_create n have_b have_v;
  Ok (freemap, ms).

Definition sfs_domount (ms : list bool) (d_blocksize : Z) lh : outcome (Z * (volume + lhd)) :=
  if negb (d_blocksize =? SFS_BLOCKSIZE) then Ok (ENXIO, inr lh)
  else
    let '(have_sfs, ms) := sfs_fs_create ms in
    if negb have_sfs then Ok (ENOMEM, inr lh)
    else
      '(result, data, lh) ← sfs_readblock SFS_SUPER_BLOCK iobuf0 lh;
      if negb (result =? 0) then
        _ ← sfs_fs_destroy None [] None; Ok (result, inr lh)
      else
        let sb := dec_super data in
        if negb (sb_magic sb =? SFS_MAGIC) then
          _ ← sfs_fs_destroy None [] None; Ok (EINVAL, inr lh)
        else
          let sb := end_volname sb in
          '(freemap, ms) ← create_freemap (SFS_FREEMAPBITS (sb_nblocks sb)) ms;
          match freemap with
          | None => _ ← sfs_fs_destroy None [] None; Ok (ENOMEM, inr lh)
          | Some freemap =>
              '(result, sfs) ← sfs_freemapio UIO_READ (SfsFs sb false lh freemap false);
              if negb (result =? 0) then
                _ ← sfs_fs_destroy (Some (sfs_freemap sfs)) [] None; Ok (result, inr (sfs_device sfs))
              else Ok (0, inl (Volume sfs [] ∅ ms))
          end.

(** ** The freemap as blocks *)

Section reliable.
Context {Hrel : Reliable}.

Lemma freemap_blocks fs : sfs_wf fs →
  zlen (v (sfs_freemap fs)) = 512 * SFS_FREEMAPBLOCKS (sb_nblocks (sfs_sb fs)) ∧
  0 ≤ SFS_FREEMAPBLOCKS (sb_nblocks (sfs_sb fs)) ≤ 4096 ∧ nbits (sfs_freemap fs) = 4096 * SFS_FREEMAPBLOCKS (sb_nblocks (sfs_sb fs)).
Proof.
  intros Hwf. rewrite (bm_len _ (sw_freemap _ Hwf)), (sw_bits _ Hwf).
  pose proof (lw_blocks _ (sw_device _ Hwf)). pose proof (sw_nblocks _ Hwf). set (n := sb_nblocks (sfs_sb fs)) in *.
  unfold SFS_FREEMAPBLOCKS, SFS_FREEMAPBITS, SFS_ROUNDUP, SFS_BITSPERBLOCK. rewrite (u32_id (n + 4096 - 1)) by width.
  rewrite u32_id by (unfold is_u32, two32; Z.to_euclidean_division_equations; lia).
  rewrite Z.div_mul by lia. Z.to_euclidean_division_equations. lia.
Qed.

Lemma data_at_eq data j n : zlen data = 512 * n → 0 ≤ j < n → n ≤ 4096 → data_at data j = Ok (take 512 (drop (Z.to_nat (512 * j)) data)).
Proof.
  intros Hl Hj Hn. unfold data_at, SFS_BLOCKSIZE. rewrite u32_id by width. rewrite (proj2 (Z.leb_le _ _)) by lia.
  do 3 f_equal. lia.
Qed.

(** Writing the freemap. *)
Lemma freemap_written n j fs : sfs_wf fs → 0 ≤ j → j + Z.of_nat n ≤ SFS_FREEMAPBLOCKS (sb_nblocks (sfs_sb fs)) →
  SFS_FREEMAP_START + SFS_FREEMAPBLOCKS (sb_nblocks (sfs_sb fs)) ≤ sb_nblocks (sfs_sb fs) →
  ∃ fs', freemapio_loop (seqZ j (Z.of_nat n)) UIO_WRITE fs = Ok (0, fs') ∧ sfs_wf fs' ∧ sfs_sb fs' = sfs_sb fs ∧
    sfs_superdirty fs' = sfs_superdirty fs ∧ sfs_freemap fs' = sfs_freemap fs ∧
    ∀ b, sector fs' b = if decide (SFS_FREEMAP_START + j ≤ b < SFS_FREEMAP_START + j + Z.of_nat n)
                        then map_block fs (b - SFS_FREEMAP_START) else sector fs b.
Proof.
  revert j fs. induction n as [|n IH]; intros j fs Hwf Hj Hn Hroom.
  - exists fs. split; [done|]. do 4 (split; [done|]). intros b. by rewrite decide_False by lia.
  - destruct (freemap_blocks fs Hwf) as (Hl & Hk & _). pose proof (lw_blocks _ (sw_device _ Hwf)). pose proof (sw_nblocks _ Hwf).
    rewrite Nat2Z.inj_succ in *. rewrite seqZ_cons by lia. cbn [freemapio_loop]. unfold bitmap_getdata.
    rewrite (data_at_eq _ j _ Hl) by lia. rewrite bind_of_Ok, u32_id by (unfold SFS_FREEMAP_START in *; width).
    destruct (fs_writeblock_ok (SFS_FREEMAP_START + j) (map_block fs j) fs Hwf) as (fs1 & E & [W1 W2 W3 W4 W5 W6]).
    { unfold SFS_FREEMAP_START in *. lia. }
    { unfold map_block. rewrite length_take, length_drop. unfold zlen in Hl. lia. }
    unfold map_block in E. rewrite E, bind_of_Ok. cbv beta iota. rewrite no_error.
    destruct (IH (Z.succ j) fs1) as (fs2 & E2 & Hwf2 & S1 & S2 & S3 & S4); [done|lia|by rewrite W1; lia|by rewrite W1|].
    rewrite Z.pred_succ, E2. exists fs2. split; [done|]. split; [done|]. split; [congruence|]. split; [congruence|]. split; [congruence|].
    intros b. rewrite S4, W5. unfold map_block. rewrite W3. repeat case_decide; try lia; [done| |done]. do 3 f_equal. lia.
Qed.

(** Reading a freemap whose blocks are those of [w]. *)
Lemma freemap_read w K n j fs : lhd_wf (sfs_device fs) → SFS_FREEMAP_START + K ≤ d_blocks (sfs_device fs) → K ≤ 4096 →
  zlen w = 512 * K → zlen (v (sfs_freemap fs)) = 512 * K → 0 ≤ j → j + Z.of_nat n = K →
  (∀ k, j ≤ k < K → sector fs (SFS_FREEMAP_START + k) = take 512 (drop (Z.to_nat (512 * k)) w)) →
  take (Z.to_nat (512 * j)) (v (sfs_freemap fs)) = take (Z.to_nat (512 * j)) w →
  ∃ lh', freemapio_loop (seqZ j (Z.of_nat n)) UIO_READ fs =
      Ok (0, SfsFs (sfs_sb fs) (sfs_superdirty fs) lh' (Bitmap (nbits (sfs_freemap fs)) w) (sfs_freemapdirty fs)) ∧
    same_disk (sfs_device fs) lh'.
Proof.
  revert j fs. induction n as [|n IH]; intros j fs Hd Hb HK Hw Hv Hj Hn Hs Ht.
  - exists (sfs_device fs). split; [|done]. unfold zlen in *. rewrite !take_ge in Ht by lia. cbn. subst w. by destruct fs as [??? [] ?].
  - rewrite Nat2Z.inj_succ in *. rewrite seqZ_cons by lia. cbn [freemapio_loop]. unfold bitmap_getdata.
    pose proof (lw_blocks _ Hd) as Hlim. rewrite (data_at_eq _ j _ Hv) by lia.
    rewrite bind_of_Ok, u32_id by (unfold SFS_FREEMAP_START in *; width). unfold fs_readblock.
    destruct (zget_range (sectors (sfs_device fs)) (SFS_FREEMAP_START + j)) as [s Es]; [unfold SFS_FREEMAP_START, d_blocks in *; lia|].
    destruct (sfs_readblock_spec (SFS_FREEMAP_START + j) (take 512 (drop (Z.to_nat (512 * j)) (v (sfs_freemap fs)))) (sfs_device fs) s Hd)
      as (lh' & Hsame & E); [rewrite length_take, length_drop; unfold zlen in Hv; lia|done|].
    rewrite decide_True in E by (left; apply reliable). rewrite E, !bind_of_Ok. cbv beta iota. rewrite no_error.
    pose proof (Hs j ltac:(lia)) as Ej. unfold sector in Ej. rewrite Es in Ej. cbn in Ej. subst s.
    set (fs1 := with_freemap _ _ _). destruct Hsame as [D1 D2].
    assert (length (take 512 (drop (Z.to_nat (512 * j)) w)) = 512%nat) as Hlen by (rewrite length_take, length_drop; unfold zlen in Hw; lia).
    destruct (IH (Z.succ j) fs1) as (lh2 & E2 & D3 & D4).
    + by apply D2.
    + cbn. unfold d_blocks. by rewrite D1.
    + done.
    + done.
    + cbn. unfold data_put, SFS_BLOCKSIZE, zlen in *. rewrite u32_id by width. rewrite !length_app, Hlen, length_take, length_drop. lia.
    + lia.
    + lia.
    + intros k Hk. rewrite <-Hs by lia. unfold sector. cbn. by rewrite D1.
    + cbn. unfold data_put, SFS_BLOCKSIZE, zlen in *. rewrite u32_id by width. replace (j * 512) with (512 * j) by lia.
      replace (Z.to_nat (512 * Z.succ j)) with (Z.to_nat (512 * j) + 512)%nat by lia.
      rewrite <-(take_take_drop w (Z.to_nat (512 * j)) 512), <-Ht, app_assoc.
      apply take_app_length'. rewrite length_app, length_take, Hlen. lia.
    + rewrite Z.pred_succ, E2. exists lh2. split; [done|]. split; [by rewrite D3|]. auto.
Qed.

(** ** Syncing *)

(** Only the blocks of the superblock and the freemap are written. *)
Lemma nodes_reserved N fs fs' : nodes_wf N fs → accounted N fs → sfs_wf fs' → sfs_sb fs' = sfs_sb fs →
  sfs_freemap fs' = sfs_freemap fs → (∀ b, ¬ reserved fs b → sector fs' b = sector fs b) →
  nodes_wf N fs' ∧ all_same N fs fs'.
Proof.
  intros Hn Hac Hwf Hsb Hfm Hsec.
  assert (∀ i sv b, N !! i = Some sv → node_block fs i sv b → used fs' b = used fs b ∧ sector fs' b = sector fs b) as Hf.
  { intros i sv b Hi Hb. split; [unfold used; by rewrite Hfm|]. apply Hsec. intros Hr. by eapply (ac_files _ _ Hac). }
  assert (∀ i sv, N !! i = Some sv → node_wf fs' i sv ∧ owned fs' sv = owned fs sv ∧ same_data fs sv fs' sv) as Hnode.
  { intros i sv Hi. apply node_frame; [done|by eapply ns_node|]. intros b Hb. by eapply Hf. }
  split; [|intros i sv Hi; by destruct (Hnode i sv Hi) as (_ & ? & ?)]. constructor; [done|..].
  - intros i sv Hi. by apply Hnode.
  - intros i j sv Hi Hj. rewrite (proj1 (proj2 (Hnode i sv Hi))). by eapply ns_inode.
  - intros i j svi svj Hij Hi Hj b. rewrite (proj1 (proj2 (Hnode i svi Hi))), (proj1 (proj2 (Hnode j svj Hj))).
    by eapply (ns_disjoint _ _ Hn i j).
  - intros i sv Hi Hd. rewrite (proj2 (Hf i sv i Hi (or_introl eq_refl))). by apply (ns_clean _ _ Hn).
Qed.

Lemma abs_reserved T N vol A fs' : volume_abs T N vol A → sfs_wf fs' → sfs_sb fs' = sfs_sb (vol_fs vol) →
  sfs_freemap fs' = sfs_freemap (vol_fs vol) → (∀ b, ¬ reserved (vol_fs vol) b → sector fs' b = sector (vol_fs vol) b) →
  on_disk fs' → volume_abs T N (with_fs fs' vol) A.
Proof.
  intros Ha Hwf Hsb Hfm Hsec Hod. pose proof (va_blocks _ _ _ _ Ha) as Hac. pose proof (va_vol _ _ _ _ Ha) as Hv.
  destruct (nodes_reserved N (vol_fs vol) fs' (vw_nodes _ _ Hv) Hac Hwf Hsb Hfm Hsec) as [Hn Hs].
  rewrite <-(abs_eta A). apply (abs_same_nodes T N vol); [done|by apply with_fs_wf|done| |apply Ha|apply Ha].
  destruct Hac as [A1 A2 A3 _]. cbn [vol_fs with_fs]. unfold reserved, node_block, used in *. rewrite <-Hsb, <-Hfm in *. constructor; [| | |done].
  - intros b Hb Hu. destruct (A1 b Hb Hu) as [?|(i & sv & Hi & Hb')]; [by left|right]. exists i, sv. unfold node_block.
    by rewrite (proj2 (Hs i sv Hi)).
  - intros b i sv Hr Hi. unfold node_block. rewrite (proj2 (Hs i sv Hi)). by apply A2.
  - done.
Qed.

(** One vnode is written. *)
Lemma abs_fsync T N vol A p x : volume_abs T N vol A → vheap vol !! p = Some x →
  ∃ vol', sfs_fsync p vol = Ok (0, vol') ∧ volume_abs T (<[sv_ino (vn_data x) := cleaned (vn_data x)]> N) vol' A ∧
    vheap vol' = <[p := Vn (cleaned (vn_data x)) (vn_refcount x)]> (vheap vol) ∧ sfs_vnodes vol' = sfs_vnodes vol.
Proof.
  intros Ha Hp. pose proof (va_vol _ _ _ _ Ha) as Hv. destruct (vnode_synced N vol p x Hv Hp) as (vol' & E & Hc & Hd & Hown & Hfm & Hk).
  exists vol'. split; [done|]. split; [|split; apply Hc]. rewrite <-(abs_eta A).
  eapply abs_kept; [exact Ha|exact Hp|done|apply Hc|apply Hc|done|done| |apply Hc| | |].
  - intros b _. unfold used. by rewrite Hfm.
  - eapply kept_weaken; [|exact Hk]. intros b Hb ->. apply Hb. by left.
  - rewrite (ch_heap _ _ _ _ _ _ Hc), handles_set; [apply Ha|done|done].
  - apply Ha.
Qed.

(** The inodes that have not been written are those of the vnodes [ps]. *)
Definition dirty_in (ps : list Z) N vol : Prop :=
  ∀ i sv, N !! i = Some sv → sv_dirty sv = true → ∃ p x, p ∈ ps ∧ vheap vol !! p = Some x ∧ sv_ino (vn_data x) = i.

Lemma sync_each_ok T A ps : ∀ N vol, volume_abs T N vol A → dirty_in ps N vol → (∀ p, p ∈ ps → is_Some (vheap vol !! p)) →
  ∃ N' vol', sync_each ps vol = Ok vol' ∧ volume_abs T N' vol' A ∧ sfs_vnodes vol' = sfs_vnodes vol ∧
    ∀ i sv, N' !! i = Some sv → sv_dirty sv = false.
Proof.
  induction ps as [|p ps IH]; intros N vol Ha Hdirty Hps; cbn [sync_each].
  - exists N, vol. split; [done|]. split; [done|]. split; [done|]. intros i sv Hi. destruct (sv_dirty sv) eqn:E; [|done].
    destruct (Hdirty i sv Hi E) as (p & x & Hp & _). by apply elem_of_nil in Hp.
  - destruct (Hps p) as [x Hx]; [by left|]. destruct (abs_fsync T N vol A p x Ha Hx) as (vol1 & E & Ha1 & Hh & Ht).
    rewrite E, bind_of_Ok. cbv beta iota. set (i := sv_ino (vn_data x)) in *.
    destruct (IH _ vol1 Ha1) as (N2 & vol2 & -> & Ha2 & Ht2 & Hc).
    + intros j sv. destruct (decide (j = i)) as [->|Hji]; [rewrite lookup_insert_eq; intros [= <-]; done|].
      rewrite lookup_insert_ne by done. intros Hj Hd. destruct (Hdirty j sv Hj Hd) as (q & y & Hq & Hy & Ej).
      assert (q ≠ p) as Hqp by (intros ->; simplify_eq). exists q, y. rewrite Hh, lookup_insert_ne by done.
      split; [|done]. by apply elem_of_cons in Hq as [?|?].
    + intros q Hq. rewrite Hh. apply lookup_insert_is_Some'. right. apply Hps. by right.
    + exists N2, vol2. split; [done|]. split; [done|]. split; [congruence|done].
Qed.

(** The freemap on disk is the one in memory. *)
Lemma sync_freemap_ok T N vol A : volume_abs T N vol A →
  ∃ fs', sfs_sync_freemap (vol_fs vol) = Ok (0, fs') ∧ volume_abs T N (with_fs fs' vol) A ∧
    sfs_freemapdirty fs' = false ∧ sfs_superdirty fs' = sfs_superdirty (vol_fs vol).
Proof.
  intros Ha. unfold sfs_sync_freemap. destruct (sfs_freemapdirty (vol_fs vol)) eqn:Ed.
  - pose proof (ns_fs _ _ (vw_nodes _ _ (va_vol _ _ _ _ Ha))) as Hwf. pose proof (ac_disk _ _ (va_blocks _ _ _ _ Ha)) as Hod.
    destruct (freemap_blocks _ Hwf) as (_ & Hk & _). unfold sfs_freemapio.
    set (k := SFS_FREEMAPBLOCKS (sb_nblocks (sfs_sb (vol_fs vol)))) in *.
    destruct (freemap_written (Z.to_nat k) 0 (vol_fs vol) Hwf) as (fs1 & E & Hwf1 & S1 & S2 & S3 & S4); [lia|fold k; lia|apply Hod|].
    rewrite Z2Nat.id in E by lia. rewrite E, bind_of_Ok. cbv beta iota. rewrite no_error. eexists. split; [done|]. split; [|done].
    assert (∀ b, sector fs1 b = if decide (SFS_FREEMAP_START ≤ b < SFS_FREEMAP_START + k)
      then map_block (vol_fs vol) (b - SFS_FREEMAP_START) else sector (vol_fs vol) b) as Hsec.
    { intros b. rewrite S4. apply decide_ext. rewrite Z2Nat.id by lia. lia. }
    apply abs_reserved; [done| |done|done| |].
    + apply with_freemap_wf; [done|apply Hwf1|done|]. intros j _ [->|Hj]; [by apply (sw_zero _ Hwf1)|by apply (sw_beyond _ Hwf1)].
    + intros b Hr. change (sector fs1 b = sector (vol_fs vol) b). rewrite Hsec, decide_False; [done|]. intros Hb. apply Hr. by right.
    + destruct Hod as [O1 O2 O3 O4 O5]. constructor; cbn [sfs_sb with_freemap sfs_freemapdirty]; rewrite ?S1; try done.
      * change (end_volname (dec_super (sector fs1 SFS_SUPER_BLOCK)) = sfs_sb (vol_fs vol)). rewrite Hsec, decide_False; [done|].
        unfold SFS_FREEMAP_START, SFS_SUPER_BLOCK. lia.
      * fold k. intros j _ Hj. change (sector fs1 (SFS_FREEMAP_START + j) = map_block fs1 j). rewrite Hsec, decide_True by lia.
        unfold map_block. rewrite S3. do 4 f_equal. lia.
  - exists (vol_fs vol). split; [done|]. by rewrite with_fs_id.
Qed.

Lemma super_ended s : super_typed s → sb_volname s !! 31%nat = Some 0 → end_volname s = s.
Proof. intros Ht Hn. unfold end_volname. rewrite list_insert_id by done. by destruct s. Qed.

Lemma end_volname_last s : length (sb_volname s) = 32%nat → sb_volname (end_volname s) !! 31%nat = Some 0.
Proof. intros Hl. cbn. apply list_lookup_insert_eq. lia. Qed.

(** The superblock on disk is the one in memory. *)
Lemma sync_superblock_ok T N vol A : volume_abs T N vol A →
  ∃ fs', sfs_sync_superblock (vol_fs vol) = Ok (0, fs') ∧ volume_abs T N (with_fs fs' vol) A ∧
    sfs_superdirty fs' = false ∧ sfs_freemapdirty fs' = sfs_freemapdirty (vol_fs vol).
Proof.
  intros Ha. unfold sfs_sync_superblock. destruct (sfs_superdirty (vol_fs vol)) eqn:Ed.
  - pose proof (ns_fs _ _ (vw_nodes _ _ (va_vol _ _ _ _ Ha))) as Hwf. pose proof (ac_disk _ _ (va_blocks _ _ _ _ Ha)) as Hod.
    destruct Hod as [O1 O2 O3 O4 O5]. destruct (super_roundtrip _ O1) as (Hdec & Hlen & _). pose proof (sw_nblocks _ Hwf) as Hnb.
    destruct (fs_writeblock_ok SFS_SUPER_BLOCK (enc_super (sfs_sb (vol_fs vol))) _ Hwf) as (fs1 & -> & [W1 W2 W3 W4 W5 W6]);
      [unfold SFS_SUPER_BLOCK; lia|done|].
    rewrite bind_of_Ok. cbv beta iota. rewrite no_error. eexists. split; [done|]. split; [|done]. set (fs2 := SfsFs _ _ _ _ _).
    assert (∀ b, sector fs2 b = sector fs1 b) as Hsec by done.
    apply abs_reserved; [done|by destruct W6|done|done| |].
    + intros b Hr. rewrite Hsec, W5, decide_False; [done|]. intros ->. apply Hr. by left.
    + constructor; cbn [fs2 sfs_sb sfs_freemapdirty]; rewrite ?W1; try done.
      * rewrite Hsec, W5, decide_True, Hdec by done. apply super_ended; [done|]. rewrite <-O3. apply end_volname_last.
        rewrite <-O3 in O1. destruct O1 as [_ _ [O1 _] _]. cbn in O1. by rewrite length_insert in O1.
      * intros j. rewrite W4. intros Hd Hj. rewrite Hsec, W5, decide_False by (unfold SFS_FREEMAP_START, SFS_SUPER_BLOCK; lia).
        unfold map_block. cbn [fs2 sfs_freemap]. rewrite W3. by apply O5.
  - exists (vol_fs vol). split; [done|]. by rewrite with_fs_id.
Qed.

(** A volume all of which is on disk. *)
Record clean N vol : Prop := {
  cl_super : sfs_superdirty (vol_fs vol) = false;
  cl_freemap : sfs_freemapdirty (vol_fs vol) = false;
  cl_nodes i sv : N !! i = Some sv → sv_dirty sv = false
}.

Lemma dirty_loaded N vol : vol_wf N vol → dirty_in (sfs_vnodes vol) N vol.
Proof.
  intros Hv i sv Hi Hd. destruct (decide (map_Exists (λ _ x, sv_ino (vn_data x) = i) (vheap vol))) as [(p & x & Hp & E)|Hno].
  - exists p, x. split; [|done]. by apply (vw_loaded _ _ Hv p x).
  - rewrite (vw_unloaded _ _ Hv i sv Hi) in Hd; [done|]. intros p x Hp E. apply Hno. by exists p, x.
Qed.

Lemma sync_ok T N vol A : volume_abs T N vol A →
  ∃ N' vol', sfs_sync vol = Ok (0, vol') ∧ volume_abs T N' vol' A ∧ clean N' vol' ∧ sfs_vnodes vol' = sfs_vnodes vol.
Proof.
  intros Ha. pose proof (va_vol _ _ _ _ Ha) as Hv. unfold sfs_sync, sfs_sync_vnodes.
  destruct (sync_each_ok T A (sfs_vnodes vol) N vol Ha) as (N1 & vol1 & -> & Ha1 & Ht1 & Hc1);
    [by apply dirty_loaded|by apply (vw_table _ _ Hv)|].
  rewrite !bind_of_Ok. cbv beta iota. rewrite no_error.
  destruct (sync_freemap_ok T N1 vol1 A Ha1) as (fs2 & -> & Ha2 & D2 & _). rewrite bind_of_Ok. cbv beta iota zeta. rewrite no_error.
  destruct (sync_superblock_ok T N1 (with_fs fs2 vol1) A Ha2) as (fs3 & -> & Ha3 & D3 & D4). rewrite bind_of_Ok. cbv beta iota zeta.
  rewrite no_error. exists N1, (with_fs fs3 vol1). split; [done|]. split; [exact Ha3|]. split; [|done]. constructor; [done| |done].
  cbn [with_fs vol_fs] in *. congruence.
Qed.

(** ** Mounting again *)

(** What a mount finds on the disk of a volume that has been synced. *)
Lemma mount_loads fs : sfs_wf fs → on_disk fs → sfs_superdirty fs = false → sfs_freemapdirty fs = false →
  ∃ fs', sfs_domount [] SFS_BLOCKSIZE (sfs_device fs) = Ok (0, inl (Volume fs' [] ∅ [])) ∧ same_fs fs fs'.
Proof.
  intros Hwf [O1 O2 O3 O4 O5] C1 C2. destruct (freemap_blocks _ Hwf) as (Hlen & Hk & Hbits).
  pose proof (sw_nblocks _ Hwf) as Hnb. unfold sfs_domount, sfs_fs_create, create_freemap. cbn [next_malloc].
  change (negb (SFS_BLOCKSIZE =? SFS_BLOCKSIZE)) with false. cbn [negb].
  destruct (zget_range (sectors (sfs_device fs)) SFS_SUPER_BLOCK) as [s Es]; [unfold d_blocks in Hnb; unfold SFS_SUPER_BLOCK; lia|].
  destruct (sfs_readblock_spec SFS_SUPER_BLOCK iobuf0 (sfs_device fs) s (sw_device _ Hwf) eq_refl Es) as (lh1 & [D1 D2] & E).
  rewrite decide_True in E by (left; apply reliable). rewrite E, bind_of_Ok. cbv beta iota zeta. rewrite no_error.
  unfold sector in O3. rewrite Es in O3. cbn [default] in O3. unfold id in O3.
  change (sb_magic (dec_super s)) with (sb_magic (end_volname (dec_super s))). rewrite O3, O2, Z.eqb_refl. cbn [negb].
  destruct (bitmap_create_spec (SFS_FREEMAPBITS (sb_nblocks (sfs_sb fs)))) as (bm & -> & Hbm & Hnbits & _).
  { rewrite <-(sw_bits _ Hwf), Hbits. unfold two32. lia. }
  rewrite !bind_of_Ok. unfold sfs_freemapio. cbn [sfs_sb]. set (fs1 := SfsFs _ _ _ _ _).
  set (K := SFS_FREEMAPBLOCKS (sb_nblocks (sfs_sb fs))) in *.
  destruct (freemap_read (v (sfs_freemap fs)) K (Z.to_nat K) 0 fs1) as (lh2 & E2 & D3 & D4).
  - by apply D2, Hwf.
  - change (SFS_FREEMAP_START + K ≤ zlen (sectors lh1)). rewrite D1. fold (d_blocks (sfs_device fs)). lia.
  - lia.
  - done.
  - cbn [fs1 sfs_freemap]. rewrite (bm_len _ Hbm), Hnbits, <-(sw_bits _ Hwf), Hbits. Z.to_euclidean_division_equations. lia.
  - lia.
  - lia.
  - intros k Hk'. change (sector fs1 ?x) with (default iobuf0 (zget (sectors lh1) x)). rewrite D1. by apply O5.
  - done.
  - rewrite Z2Nat.id in E2 by lia. rewrite E2, bind_of_Ok. cbv beta iota. rewrite no_error. eexists. split; [done|].
    assert (Bitmap (nbits bm) (v (sfs_freemap fs)) = sfs_freemap fs) as Ebm.
    { rewrite Hnbits, <-(sw_bits _ Hwf). by destruct (sfs_freemap fs). }
    cbn [fs1 sfs_sb sfs_superdirty sfs_freemap sfs_freemapdirty]. rewrite Ebm.
    constructor; cbn; [done|done|by rewrite D3|done|done|]. intros _.
    destruct Hwf as [W1 W2 W3 W4 W5 W6]. constructor; cbn; [by apply D4, D2|done| |done|done|done].
    unfold d_blocks. rewrite D3. cbn. by rewrite D1.
Qed.

Lemma mount_ok T N vol A : volume_abs T N vol A → clean N vol → (∀ i, is_Some (files A !! i) → links T i ≠ 0) →
  ∃ vol', sfs_domount [] SFS_BLOCKSIZE (sfs_device (vol_fs vol)) = Ok (0, inl vol') ∧ volume_abs T N vol' (with_handles ∅ A) ∧
    sfs_getvolname vol' = sfs_getvolname vol.
Proof.
  intros Ha [C1 C2 C3] Hlinked. pose proof (va_vol _ _ _ _ Ha) as Hv. pose proof (vw_nodes _ _ Hv) as Hn.
  pose proof (va_blocks _ _ _ _ Ha) as Hac.
  destruct (mount_loads (vol_fs vol) (ns_fs _ _ Hn) (ac_disk _ _ Hac) C1 C2) as (fs' & -> & Hs).
  exists (Volume fs' [] ∅ []). split; [done|]. split; [|unfold sfs_getvolname; cbn; by rewrite (sf_sb _ _ Hs)].
  destruct (nodes_same N _ fs' Hn Hs) as [Hn' _].
  assert (all_same N (vol_fs vol) fs') as Hall by (intros i sv _; split; [by apply same_fs_data|by apply same_fs_owned]).
  apply (abs_same_nodes T N vol); [done| |done| |cbn [vheap]; by rewrite fmap_empty|by intros i Hi ?%Hlinked].
  - constructor; cbn [vol_fs vheap sfs_vnodes]; [done| |by intros p ?%elem_of_nil|constructor| |].
    + intros p x. by rewrite lookup_empty.
    + intros p q x y. by rewrite lookup_empty.
    + intros i sv Hi _. by apply (C3 i).
  - eapply accounted_same; [exact Hall| |apply Hs|by apply same_fs_kept|done]. intros b _. by apply same_fs_used.
Qed.

End reliable.

(** A mount that is refused leaves the disk as it was. *)
Lemma mount_refuses {Hrel : Reliable} lh ms : lhd_wf lh → 0 < d_blocks lh →
  (∀ bs, bs ≠ SFS_BLOCKSIZE → sfs_domount ms bs lh = Ok (ENXIO, inr lh)) ∧
  sfs_domount (false :: ms) SFS_BLOCKSIZE lh = Ok (ENOMEM, inr lh) ∧
  (∀ s, zget (sectors lh) SFS_SUPER_BLOCK = Some s → sb_magic (dec_super s) ≠ SFS_MAGIC →
    ∃ lh', sfs_domount [] SFS_BLOCKSIZE lh = Ok (EINVAL, inr lh') ∧ same_disk lh lh').
Proof.
  intros Hwf Hd. split; [|split; [done|]].
  - intros bs Hbs. unfold sfs_domount. by rewrite (proj2 (Z.eqb_neq _ _) Hbs).
  - intros s Es Hm. destruct (sfs_readblock_spec SFS_SUPER_BLOCK iobuf0 lh s Hwf eq_refl Es) as (lh1 & Hs & E).
    rewrite decide_True in E by (left; apply reliable). exists lh1. split; [|done]. unfold sfs_domount. cbn [sfs_fs_create next_malloc negb].
    change (negb (SFS_BLOCKSIZE =? SFS_BLOCKSIZE)) with false. cbv iota. rewrite E, bind_of_Ok. cbv beta iota zeta. rewrite no_error.
    by rewrite (proj2 (Z.eqb_neq _ _) Hm).
Qed.

Lemma unmount_synced T N vol A : volume_abs T N vol A → clean N vol →
  sfs_unmount vol = if decide (handles A = ∅) then Ok (0, inr (sfs_device (vol_fs vol))) else Ok (EBUSY, inl vol).
Proof.
  intros Ha [C1 C2 _]. pose proof (va_vol _ _ _ _ Ha) as Hv. unfold sfs_unmount. rewrite C1, C2.
  assert (handles A = ∅ ↔ sfs_vnodes vol = []) as Hiff.
  { rewrite (va_handles _ _ _ _ Ha), fmap_empty_iff. split.
    - intros E. destruct (sfs_vnodes vol) as [|p ps] eqn:Et; [done|]. destruct (vw_table _ _ Hv p) as [x Hx]; [rewrite Et; by left|].
      by rewrite E, lookup_empty in Hx.
    - intros E. apply map_empty. intros p. destruct (vheap vol !! p) as [x|] eqn:Ex; [|done].
      destruct (vw_loaded _ _ Hv p x Ex) as (_ & _ & Hin). rewrite E in Hin. by apply elem_of_nil in Hin. }
  destruct (decide (handles A = ∅)) as [E|E]; rewrite Hiff in E; [by rewrite E|].
  destruct (sfs_vnodes vol) as [|p ps]; [done|]. rewrite (proj2 (Z.ltb_lt _ _)); [done|]. unfold zlen. cbn [length]. lia.
Qed.

(** C17: What has been synced is durable. On a disk that does not fail, [sfs_sync] succeeds and changes
    neither names nor files; [sfs_unmount] then succeeds exactly if no vnode is in use; and from the contents of
    the disk at that moment alone, be it after the unmount or after a crash, [sfs_domount] builds a volume with
    the same name, the same names and the same files, provided that no file that has lost its last name is still
    open. *)
Theorem sfs_sync_durable {Hrel : Reliable} vol A : represents vol A →
  ∃ vol1, sfs_sync vol = Ok (0, vol1) ∧ represents vol1 A ∧
    sfs_unmount vol1 = (if decide (handles A = ∅) then Ok (0, inr (sfs_device (vol_fs vol1))) else Ok (EBUSY, inl vol1)) ∧
    ((∀ i, is_Some (files A !! i) → ∃ name, names A !! name = Some i) →
      ∃ vol2, sfs_domount [] SFS_BLOCKSIZE (sfs_device (vol_fs vol1)) = Ok (0, inl vol2) ∧
        represents vol2 (with_handles ∅ A) ∧ sfs_getvolname vol2 = sfs_getvolname vol1).
Proof.
  intros [N Ha]. destruct (sync_ok (names A) N vol A Ha) as (N1 & vol1 & -> & Ha1 & Hc & _).
  exists vol1. split; [done|]. split; [by exists N1|]. split; [by eapply unmount_synced|]. intros Hnamed.
  destruct (mount_ok (names A) N1 vol1 A Ha1 Hc) as (vol2 & -> & Ha2 & Hn).
  - intros i [name Hi]%Hnamed. apply links_positive in Hi. lia.
  - exists vol2. split; [done|]. split; [by exists N1|done].
Qed.

End fsops.

Lemma sfs_sync_durable_witness : ∃ vol1 vol2,
  @sfs_sync good_hw demo_vol = Ok (0, vol1) ∧ sfs_unmount vol1 = Ok (EBUSY, inl vol1) ∧
  @sfs_domount good_hw [] SFS_BLOCKSIZE (sfs_device (vol_fs vol1)) = Ok (0, inl vol2) ∧
  represents vol2 (FsAbs (<[[97] := 3]> ∅) (<[3 := demo_afile]> ∅) ∅).
Proof.
  destruct (@sfs_sync_durable good_hw good_hw_reliable demo_vol demo_abs demo_represents) as (vol1 & E1 & _ & E2 & Hm).
  destruct Hm as (vol2 & E3 & Hr & _).
  - intros i. cbn [files demo_abs]. intros [f [[<- _]|[_ Hf]]%lookup_insert_Some]; [by exists [97]|by rewrite lookup_empty in Hf].
  - exists vol1, vol2. split; [exact E1|]. split; [|split; [exact E3|exact Hr]]. rewrite E2. by rewrite decide_False.
Defined.
