(* ===== verification/Mksfs.v ===== *)
(** * Making a file system (userland/sbin/mksfs/mksfs.c, userland/sbin/mksfs/disk.c)

    The program that writes an empty SFS volume, as it is built for OS/161.  A program is
    a function of its state, the static variables and the operating system: it returns,
    exits with a code, is aborted by a failed assertion, crashes by an access outside of
    an array, or does not end.

    The disk is the contents of a file.  What [read] and [write] return is an argument:
    the number of bytes moved, an interruption ([EINTR] or [EAGAIN]) or an error; when the
    list is used up every call moves all of the bytes.

    The theorem: whatever the disk held before and however its writes are split and
    interrupted, the kernel can mount the result and finds an empty file system. *)

From stdpp Require Import base gmap list list_numbers.
From Stdlib Require Import ZArith Lia.
From S2P Require Import Prelude Cstring FrameTable CopyInOut Uio Lhd Bitmap SfsDisk SfsBmap SfsTrunc SfsIo SfsWrite SfsDir SfsVnode SfsVol SfsTree SfsOps SfsDemo SfsFsops.
Open Scope Z_scope.

(** ** Programs and the operating system *)

Inductive io := Moved (n : Z) | Again | Failed.
Inductive call := Copen | Cfstat | Clseek | Cclose.

Record os := Os { image : list Z; offset : Z; script : list io; denied : call → bool }.

Record prog := Prog { fd : Z; nblocks : Z; freemapbuf : list Z; kern : os }.

Inductive run (A : Type) := Ret (a : A) (s : prog) | Exit (code : Z) (s : prog) | Abort (s : prog) | Crash | Loop.
Arguments Ret {A}.
Arguments Exit {A}.
Arguments Abort {A}.
Arguments Crash {A}.
Arguments Loop {A}.

Definition cmd (A : Type) : Type := prog → run A.

#[global] Instance cmd_ret : MRet cmd := λ A a s, Ret a s.
#[global] Instance cmd_bind : MBind cmd := λ A B f m s,
  match m s with
  | Ret a s => f a s
  | Exit code s => Exit code s
  | Abort s => Abort s
  | Crash => Crash
  | Loop => Loop
  end.

Definition gets {A} (f : prog → A) : cmd A := λ s, Ret (f s) s.
Definition modify (f : prog → prog) : cmd unit := λ s, Ret tt (f s).
Definition err {A} (code : Z) : cmd A := λ s, Exit code s.
Definition assert_ (b : bool) : cmd unit := λ s, if b then Ret tt s else Abort s.
Definition array {A} (o : option A) : cmd A := λ s, match o with Some a => Ret a s | None => Crash end.

Definition with_fd x (s : prog) : prog := Prog x (nblocks s) (freemapbuf s) (kern s).
Definition with_nblocks x (s : prog) : prog := Prog (fd s) x (freemapbuf s) (kern s).
Definition with_freemapbuf x (s : prog) : prog := Prog (fd s) (nblocks s) x (kern s).
Definition with_kern x (s : prog) : prog := Prog (fd s) (nblocks s) (freemapbuf s) x.

(** Bytes written over others. *)
Definition put_at (img : list Z) (a : Z) (l : list Z) : list Z :=
  take (Z.to_nat a) img ++ l ++ drop (Z.to_nat a + length l) img.

(** A call of [open], [fstat], [lseek] or [close] succeeds or not. *)
Definition sys (c : call) : cmd bool := gets (λ s, negb (denied (kern s) c)).

Definition seek (a : Z) : cmd unit := modify (λ s, with_kern (Os (image (kern s)) a (script (kern s)) (denied (kern s))) s).

(** What the next transfer of [len] bytes does. *)
Definition next_io (len : Z) : cmd io :=
  λ s, match script (kern s) with
       | [] => Ret (Moved len) s
       | r :: rs => Ret (match r with Moved n => Moved (Z.max 0 (Z.min n len)) | r => r end)
                        (with_kern (Os (image (kern s)) (offset (kern s)) rs (denied (kern s))) s)
       end.

Definition do_write (data : list Z) : cmd io :=
  r ← next_io (zlen data);
  match r with
  | Moved n =>
      _ ← modify (λ s, let k := kern s in
            with_kern (Os (put_at (image k) (offset k) (take (Z.to_nat n) data)) (offset k + n) (script k) (denied k)) s);
      mret r
  | _ => mret r
  end.

Definition do_read (len : Z) : cmd (io * list Z) :=
  r ← next_io len;
  match r with
  | Moved n =>
      l ← gets (λ s, take (Z.to_nat n) (drop (Z.to_nat (offset (kern s))) (image (kern s))));
      _ ← modify (λ s, let k := kern s in with_kern (Os (image k) (offset k + zlen l) (script k) (denied k)) s);
      mret (Moved (zlen l), l)
  | _ => mret (r, [])
  end.

(** ** disk.c *)

Definition BLOCKSIZE : Z := 512.

(** The descriptor of an open file is 3. *)
Definition opendisk : cmd unit :=
  n ← gets fd;
  _ ← assert_ (n <? 0);
  ok ← sys Copen;
  _ ← modify (with_fd (if ok then 3 else -1));
  if negb ok then err 1
  else
    ok ← sys Cfstat;
    if negb ok then err 1
    else
      st_size ← gets (λ s, zlen (image (kern s)));
      modify (with_nblocks (u32 (st_size / BLOCKSIZE))).

Definition diskblocksize : cmd Z :=
  n ← gets fd;
  _ ← assert_ (0 <=? n);
  mret BLOCKSIZE.

Definition diskblocks : cmd Z :=
  n ← gets fd;
  _ ← assert_ (0 <=? n);
  gets nblocks.

Fixpoint diskwrite_loop (fuel : nat) (cdata : list Z) (tot : Z) : cmd unit :=
  match fuel with
  | O => λ _, Loop
  | S fuel =>
      if tot <? BLOCKSIZE then
        r ← do_write (take (Z.to_nat (BLOCKSIZE - tot)) (drop (Z.to_nat tot) cdata));
        match r with
        | Again => diskwrite_loop fuel cdata tot
        | Failed => err 1
        | Moved len => if len =? 0 then err 1 else diskwrite_loop fuel cdata (tot + len)
        end
      else mret tt
  end.

(** Every iteration moves a byte or uses up a result. *)
Definition io_fuel (s : prog) : nat := S (512 + length (script (kern s))).

Definition diskwrite (data : list Z) (block : Z) : cmd unit :=
  n ← gets fd;
  _ ← assert_ (0 <=? n);
  ok ← sys Clseek;
  if negb ok then err 1
  else
    _ ← seek (u32 (block * BLOCKSIZE));
    fuel ← gets io_fuel;
    diskwrite_loop fuel data 0.

Fixpoint diskread_loop (fuel : nat) (cdata : list Z) : cmd (list Z) :=
  match fuel with
  | O => λ _, Loop
  | S fuel =>
      if zlen cdata <? BLOCKSIZE then
        '(r, l) ← do_read (BLOCKSIZE - zlen cdata);
        match r with
        | Again => diskread_loop fuel cdata
        | Failed => err 1
        | Moved len => if len =? 0 then err 1 else diskread_loop fuel (cdata ++ l)
        end
      else mret cdata
  end.

Definition diskread (block : Z) : cmd (list Z) :=
  n ← gets fd;
  _ ← assert_ (0 <=? n);
  ok ← sys Clseek;
  if negb ok then err 1
  else
    _ ← seek (u32 (block * BLOCKSIZE));
    fuel ← gets io_fuel;
    diskread_loop fuel [].

Definition closedisk : cmd unit :=
  n ← gets fd;
  _ ← assert_ (0 <=? n);
  ok ← sys Cclose;
  if negb ok then err 1 else modify (with_fd (-1)).

(** ** mksfs.c *)

Definition MAXFREEMAPBLOCKS : Z := 32.

Definition zero_super : sfs_superblock := Superblock 0 0 (replicate 32 0) (replicate 118 0).
Definition zero_dinode : sfs_dinode := Dinode 0 0 0 (replicate 15 0) 0 (replicate 110 0).
Definition zero_direntry : sfs_direntry := Direntry 0 (replicate 60 0).

Definition check : cmd unit :=
  _ ← assert_ (zlen (enc_super zero_super) =? SFS_BLOCKSIZE);
  _ ← assert_ (zlen (enc_dinode zero_dinode) =? SFS_BLOCKSIZE);
  assert_ (SFS_BLOCKSIZE mod zlen (enc_direntry zero_direntry) =? 0).

Definition allocblock (block : Z) : cmd unit :=
  let mapbyte := block / 8 in
  let mask := Z.shiftl 1 (block mod 8) in
  buf ← gets freemapbuf;
  w ← array (zget buf mapbyte);
  _ ← assert_ (Z.land w mask =? 0);
  modify (with_freemapbuf (zset buf mapbyte (Z.lor w mask))).

Fixpoint alloc_each (blocks : list Z) : cmd unit :=
  match blocks with
  | [] => mret tt
  | b :: blocks => _ ← allocblock b; alloc_each blocks
  end.

Definition initfreemap (fsblocks : Z) : cmd unit :=
  let freemapbits := SFS_FREEMAPBITS fsblocks in
  let freemapblocks := SFS_FREEMAPBLOCKS fsblocks in
  if MAXFREEMAPBLOCKS <? freemapblocks then err 1
  else
    _ ← allocblock SFS_SUPER_BLOCK;
    _ ← allocblock SFS_ROOTDIR_INO;
    _ ← alloc_each (map (Z.add SFS_FREEMAP_START) (seqZ 0 freemapblocks));
    alloc_each (seqZ fsblocks (freemapbits - fsblocks)).

Definition writesuper (volname : list Z) (nblocks : Z) : cmd unit :=
  if SFS_VOLNAME_SIZE <=? zlen volname then err 1
  else
    let sb := Superblock SFS_MAGIC nblocks (volname ++ 0 :: drop (S (length volname)) (sb_volname zero_super)) (sb_reserved zero_super) in
    diskwrite (enc_super sb) SFS_SUPER_BLOCK.

Fixpoint writefreemap_loop (is_ : list Z) : cmd unit :=
  match is_ with
  | [] => mret tt
  | i :: is_ =>
      buf ← gets freemapbuf;
      let ptr := take 512 (drop (Z.to_nat (i * SFS_BLOCKSIZE)) buf) in
      _ ← array (if zlen ptr =? SFS_BLOCKSIZE then Some tt else None);
      _ ← diskwrite ptr (SFS_FREEMAP_START + i);
      writefreemap_loop is_
  end.

Definition writefreemap (fsblocks : Z) : cmd unit := writefreemap_loop (seqZ 0 (SFS_FREEMAPBLOCKS fsblocks)).

Definition writerootdir : cmd unit :=
  diskwrite (enc_dinode (Dinode 0 SFS_TYPE_DIR 1 (replicate 15 0) 0 (replicate 110 0))) SFS_ROOTDIR_INO.

(** The arguments are strings without their null bytes. *)
Definition main (argv : list (list Z)) : cmd Z :=
  match argv with
  | [_; path; volname] =>
      _ ← check;
      volname ← match index_of 58 volname with
                | None => mret volname
                | Some i => if negb (zlen (drop i volname) =? 1) then err 1 else mret (take i volname)
                end;
      match index_of 47 volname with
      | Some _ => err 1
      | None =>
          _ ← opendisk;
          blocksize ← diskblocksize;
          if negb (blocksize =? SFS_BLOCKSIZE) then err 1
          else
            size ← diskblocks;
            _ ← initfreemap size;
            _ ← writesuper volname size;
            _ ← writefreemap size;
            _ ← writerootdir;
            _ ← closedisk;
            mret 0
      end
  | _ => err 1
  end.

(** A program starts with its file closed and its buffer cleared. *)
Definition prog_start (k : os) : prog := Prog (-1) 0 (replicate (Z.to_nat (MAXFREEMAPBLOCKS * SFS_BLOCKSIZE)) 0) k.

(** ** Running commands *)

Lemma bind_Ret {A B} (m : cmd A) (f : A → cmd B) s a s' : m s = Ret a s' → (m ≫= f) s = f a s'.
Proof. intros E. unfold mbind, cmd_bind. by rewrite E. Qed.

(** ** The disk *)

(** The system calls succeed and a transfer moves at least one byte. *)
Definition io_ok (r : io) : Prop := match r with Moved n => 0 < n | Again => True | Failed => False end.

Record willing (k : os) : Prop := {
  wl_script : Forall io_ok (script k);
  wl_calls c : denied k c = false
}.

Lemma put_at_app img a l1 l2 : 0 ≤ a → a + zlen l1 ≤ zlen img → put_at (put_at img a l1) (a + zlen l1) l2 = put_at img a (l1 ++ l2).
Proof.
  unfold put_at, zlen. intros Ha Hl. replace (Z.to_nat (a + Z.of_nat (length l1))) with (Z.to_nat a + length l1)%nat by lia.
  rewrite (app_assoc _ l1). rewrite take_app_length' by (rewrite length_app, length_take; lia).
  rewrite drop_app_ge by (rewrite length_app, length_take; lia). rewrite drop_drop, <-!app_assoc. do 4 f_equal.
  rewrite !length_app, length_take. lia.
Qed.

Lemma put_at_nil img a : put_at img a [] = img.
Proof. unfold put_at. cbn. rewrite Nat.add_0_r. apply take_drop. Qed.

Lemma put_at_length img a l : 0 ≤ a → a + zlen l ≤ zlen img → zlen (put_at img a l) = zlen img.
Proof. unfold put_at, zlen. intros Ha Hl. rewrite !length_app, length_take, length_drop. lia. Qed.

Lemma do_write_ok l s : willing (kern s) → 0 < zlen l → ∃ r k', do_write l s = Ret r (with_kern k' s) ∧ willing k' ∧
  ((r = Again ∧ image k' = image (kern s) ∧ offset k' = offset (kern s) ∧ (length (script k') < length (script (kern s)))%nat) ∨
   ∃ n, r = Moved n ∧ 0 < n ≤ zlen l ∧ image k' = put_at (image (kern s)) (offset (kern s)) (take (Z.to_nat n) l) ∧
     offset k' = offset (kern s) + n ∧ (length (script k') ≤ length (script (kern s)))%nat).
Proof.
  intros [Hs Hc] Hl. destruct s as [f nb fm [img off [|r rs] den]]; cbn [kern script denied image offset] in *.
  - eexists (Moved (zlen l)), _. split; [done|]. split; [by split|]. right. exists (zlen l). split_and!; try done; lia.
  - apply Forall_cons in Hs as [Hr Hs]. destruct r as [n| |]; cbn in Hr; [| |done].
    + eexists (Moved (Z.max 0 (Z.min n (zlen l)))), _. split; [done|]. split; [by split|]. right.
      exists (Z.max 0 (Z.min n (zlen l))). split_and!; try done; cbn; lia.
    + eexists Again, _. split; [done|]. split; [by split|]. left. split_and!; try done. cbn. lia.
Qed.

Lemma diskwrite_loop_ok data a img : length data = 512%nat → 0 ≤ a → a + 512 ≤ zlen img → ∀ fuel s tot, 0 ≤ tot ≤ 512 →
  (Z.to_nat (512 - tot) + length (script (kern s)) < fuel)%nat → willing (kern s) → image (kern s) = put_at img a (take (Z.to_nat tot) data) →
  offset (kern s) = a + tot →
  ∃ k', diskwrite_loop fuel data tot s = Ret tt (with_kern k' s) ∧ image k' = put_at img a data ∧ willing k'.
Proof.
  intros Hlen Ha Hroom. induction fuel as [|fuel IH]; intros s tot Htot Hf Hw Himg Hoff; [lia|]. cbn [diskwrite_loop]. unfold BLOCKSIZE.
  destruct (Z.ltb_spec tot 512) as [Hlt|Hge].
  2: { exists (kern s). assert (tot = 512) as -> by lia. rewrite take_ge in Himg by lia. by destruct s. }
  set (l := take (Z.to_nat (512 - tot)) (drop (Z.to_nat tot) data)).
  assert (zlen l = 512 - tot) as Hl by (unfold l, zlen; rewrite length_take, length_drop; lia).
  destruct (do_write_ok l s Hw ltac:(lia)) as (r & k & E & Hk & Hr). rewrite (bind_Ret _ _ _ _ _ E).
  destruct Hr as [(-> & I & O & L)|(n & -> & Hn & I & O & L)].
  - destruct (IH (with_kern k s) tot) as (k' & -> & ? & ?); cbn [kern with_kern]; [lia|lia|done|congruence|congruence|]. by exists k'.
  - rewrite (proj2 (Z.eqb_neq n 0)) by lia. destruct (IH (with_kern k s) (tot + n)) as (k' & -> & ? & ?); cbn [kern with_kern]; [lia|lia|done| |lia|by exists k'].
    rewrite I, Himg, Hoff. replace (a + tot) with (a + zlen (take (Z.to_nat tot) data)) by (unfold zlen; rewrite length_take; lia).
    rewrite put_at_app; [|lia|unfold zlen in *; rewrite length_take; lia]. f_equal. subst l.
    replace (Z.to_nat (tot + n)) with (Z.to_nat tot + Z.to_nat n)%nat by lia. rewrite take_take, Nat.min_l by lia. apply take_take_drop.
Qed.

(** A block is written whole, however the calls are split and interrupted. *)
Lemma diskwrite_ok data b s : length data = 512%nat → 0 ≤ b → 512 * b + 512 ≤ zlen (image (kern s)) → zlen (image (kern s)) ≤ two32 → 0 ≤ fd s → willing (kern s) →
  ∃ k', diskwrite data b s = Ret tt (with_kern k' s) ∧ image k' = put_at (image (kern s)) (512 * b) data ∧ willing k'.
Proof.
  intros Hlen Hb Hroom Hmax Hfd Hw. unfold diskwrite. erewrite bind_Ret by done. erewrite bind_Ret by (unfold assert_; by rewrite (proj2 (Z.leb_le 0 (fd s)))).
  erewrite bind_Ret by done. rewrite (wl_calls _ Hw). cbn [negb]. erewrite bind_Ret by done. erewrite bind_Ret by done.
  destruct (diskwrite_loop_ok data (512 * b) (image (kern s)) Hlen ltac:(lia) Hroom (io_fuel s)
    (with_kern (Os (image (kern s)) (u32 (b * BLOCKSIZE)) (script (kern s)) (denied (kern s))) s) 0) as (k' & E & I & W); cbn [kern with_kern script image offset].
  - lia.
  - unfold io_fuel. lia.
  - by destruct Hw.
  - by rewrite put_at_nil.
  - unfold BLOCKSIZE. rewrite u32_id by width. lia.
  - exists k'. split; [exact E|done].
Qed.

(** ** The image as blocks *)

Definition block_of (img : list Z) (b : Z) : list Z := take 512 (drop (Z.to_nat (512 * b)) img).

Definition disk_of (img : list Z) : list (list Z) := map (block_of img) (seqZ 0 (zlen img / 512)).

Lemma block_put img b data b' : length data = 512%nat → 0 ≤ b → 0 ≤ b' → 512 * b + 512 ≤ zlen img →
  block_of (put_at img (512 * b) data) b' = if decide (b' = b) then data else block_of img b'.
Proof.
  intros Hl Hb Hb' Hr. unfold block_of, put_at, zlen in *. set (p := Z.to_nat (512 * b)). set (q := Z.to_nat (512 * b')).
  assert (length (take p img) = p) as Hp by (rewrite length_take; lia). case_decide as E.
  - subst b'. change q with p. rewrite drop_app_length' by done. by apply take_app_length'.
  - destruct (decide (b' < b)) as [Hlt|Hge].
    + rewrite drop_app_le by lia. rewrite take_app_le by (rewrite length_drop; lia). by rewrite !take_drop_commute, take_take, Nat.min_l by lia.
    + rewrite app_assoc, drop_app_ge by (rewrite length_app; lia). rewrite length_app, Hp, Hl, drop_drop. do 2 f_equal. lia.
Qed.

(** ** The freemap *)

(** The buffer as a bitmap, of which [n] bits count. *)
Definition bm (buf : list Z) : bitmap := Bitmap 131072 buf.

Definition buf_ok (s : prog) : Prop := bm_wf (bm (freemapbuf s)).

Lemma allocblock_ok b s : buf_ok s → 0 ≤ b < 131072 → in_use (bm (freemapbuf s)) b = false →
  ∃ buf, allocblock b s = Ret tt (with_freemapbuf buf s) ∧ bm_wf (bm buf) ∧
    ∀ k, 0 ≤ k → in_use (bm buf) k = bool_decide (k = b) || in_use (bm (freemapbuf s)) k.
Proof.
  intros Hwf Hb Hfree. destruct (word_exists _ b Hwf) as (w & Hw & Hby); [done|].
  exists (zset (freemapbuf s) (b / 8) (Z.lor w (Z.shiftl 1 (b mod 8)))). pose proof (Z.mod_pos_bound b 8 ltac:(lia)).
  assert (∀ j, 0 ≤ j < 8 → Z.testbit (Z.lor w (Z.shiftl 1 (b mod 8))) j = if decide (j = b mod 8) then true else Z.testbit w j) as Hbits
    by (intros j Hj; apply lor_bits; lia).
  split; [|split].
  - unfold allocblock. erewrite bind_Ret by done. cbn [bm v] in Hw. rewrite Hw. erewrite bind_Ret by done.
    rewrite land_bit_zero by lia. rewrite (in_use_word (bm (freemapbuf s)) b w Hw) in Hfree. rewrite Hfree. by erewrite bind_Ret by done.
  - apply (set_bit_wf (bm (freemapbuf s)) b w Hw _ true Hwf); [by apply lor_byte|done|done].
  - intros k Hk. pose proof (set_bit_in_use (bm (freemapbuf s)) b w Hw _ true k Hk Hbits) as E. cbn [bm nbits v] in E. unfold bm at 1. rewrite E.
    case_decide; [by rewrite bool_decide_eq_true_2|by rewrite bool_decide_eq_false_2].
Qed.

Lemma alloc_each_ok bs : ∀ s, buf_ok s → NoDup bs → (∀ b, b ∈ bs → 0 ≤ b < 131072 ∧ in_use (bm (freemapbuf s)) b = false) →
  ∃ buf, alloc_each bs s = Ret tt (with_freemapbuf buf s) ∧ bm_wf (bm buf) ∧
    ∀ k, 0 ≤ k → in_use (bm buf) k = bool_decide (k ∈ bs) || in_use (bm (freemapbuf s)) k.
Proof.
  induction bs as [|b bs IH]; intros s Hwf Hnd Hbs; cbn [alloc_each].
  - exists (freemapbuf s). split; [by destruct s|]. split; [done|]. intros k Hk. by rewrite bool_decide_eq_false_2 by apply not_elem_of_nil.
  - apply NoDup_cons in Hnd as [Hb Hnd]. destruct (Hbs b) as [Hr Hf]; [by left|].
    destruct (allocblock_ok b s Hwf Hr Hf) as (buf & E & Hwf1 & H1). rewrite (bind_Ret _ _ _ _ _ E).
    destruct (IH (with_freemapbuf buf s) Hwf1 Hnd) as (buf2 & -> & Hwf2 & H2).
    + intros c Hc. destruct (Hbs c) as [Hrc Hfc]; [by right|]. split; [done|]. cbn [freemapbuf with_freemapbuf].
      rewrite H1, Hfc, bool_decide_eq_false_2 by (lia || (intros ->; done)). done.
    + exists buf2. split; [done|]. split; [done|]. intros k Hk. rewrite H2, H1 by done. cbn [freemapbuf with_freemapbuf].
      rewrite orb_assoc. f_equal. rewrite <-bool_decide_or. apply bool_decide_ext. rewrite elem_of_cons. tauto.
Qed.

Lemma alloc_each_app l1 l2 s : alloc_each (l1 ++ l2) s = (_ ← alloc_each l1; alloc_each l2) s.
Proof.
  revert s. induction l1 as [|b l1 IH]; intros s; [done|]. cbn [app alloc_each]. unfold mbind, cmd_bind in *. destruct (allocblock b s); [apply IH|done..].
Qed.

(** The number of freemap blocks of a volume of at most 131072 blocks. *)
Definition map_blocks (n : Z) : Z := (n + 4095) / 4096.

Lemma freemap_size n : 0 ≤ n ≤ 131072 → SFS_FREEMAPBLOCKS n = map_blocks n ∧ SFS_FREEMAPBITS n = 4096 * map_blocks n ∧ 0 ≤ map_blocks n ≤ 32.
Proof.
  intros Hn. unfold SFS_FREEMAPBLOCKS, SFS_FREEMAPBITS, SFS_ROUNDUP, SFS_BITSPERBLOCK, map_blocks.
  rewrite (u32_id (n + 4096 - 1)) by width. replace (n + 4096 - 1) with (n + 4095) by lia.
  assert (0 ≤ (n + 4095) / 4096 ≤ 32) by (Z.to_euclidean_division_equations; lia).
  rewrite u32_id by width. rewrite Z.div_mul by lia. lia.
Qed.

(** The blocks that [initfreemap] marks. *)
Definition marked (n k : Z) : bool := (k <=? 1) || ((2 <=? k) && (k <? 2 + map_blocks n)) || ((n <=? k) && (k <? 4096 * map_blocks n)).

Lemma zlen_cleared : zlen (replicate (Z.to_nat 16384) 0) = 16384.
Proof. unfold zlen. rewrite length_replicate. lia. Qed.

Lemma clear_unused b : 0 ≤ b < 131072 → in_use (bm (replicate (Z.to_nat 16384) 0)) b = false.
Proof.
  intros Hb. unfold in_use. cbn [bm v]. destruct (zget_range (replicate (Z.to_nat 16384) 0) (b / 8)) as [w Hw].
  - rewrite zlen_cleared. Z.to_euclidean_division_equations. lia.
  - rewrite Hw. assert (w ∈ replicate (Z.to_nat 16384) 0) as [-> _]%elem_of_replicate by (apply elem_of_zget; by eexists). apply Z.bits_0.
Qed.

Lemma clear_wf : bm_wf (bm (replicate (Z.to_nat 16384) 0)).
Proof.
  constructor; cbn [bm nbits v].
  - width.
  - by rewrite zlen_cleared.
  - intros i w Hw. assert (w ∈ replicate (Z.to_nat 16384) 0) as [-> _]%elem_of_replicate by (apply elem_of_zget; by eexists). lia.
  - intros i Hi. unfold in_use. rewrite (proj2 (zget_None _ _)); [done|]. right. cbn [bm v]. rewrite zlen_cleared.
    Z.to_euclidean_division_equations. lia.
Qed.

Lemma initfreemap_ok n s : 2 + map_blocks n ≤ n ≤ 131072 → freemapbuf s = replicate (Z.to_nat 16384) 0 →
  ∃ buf, initfreemap n s = Ret tt (with_freemapbuf buf s) ∧ bm_wf (bm buf) ∧ ∀ k, 0 ≤ k < 131072 → in_use (bm buf) k = marked n k.
Proof.
  intros Hn Hbuf. assert (0 ≤ n) as Hn0 by (pose proof (Z.div_pos (n + 4095) 4096); destruct (decide (0 ≤ n)); [done|]; unfold map_blocks in *; Z.to_euclidean_division_equations; lia).
  destruct (freemap_size n ltac:(lia)) as (E1 & E2 & Hk). unfold initfreemap. rewrite E1, E2. unfold MAXFREEMAPBLOCKS. rewrite (proj2 (Z.ltb_ge 32 (map_blocks n))) by lia.
  assert (4096 * map_blocks n < n + 4096) as Hb by (unfold map_blocks; Z.to_euclidean_division_equations; lia).
  set (l1 := map (Z.add 2) (seqZ 0 (map_blocks n))). set (l2 := seqZ n (4096 * map_blocks n - n)).
  assert (∀ k, k ∈ l1 ↔ 2 ≤ k < 2 + map_blocks n) as H1.
  { intros k. subst l1. rewrite list_elem_of_fmap. split; [intros (j & -> & Hj%elem_of_seqZ); lia|]. intros Hk'. exists (k - 2). rewrite elem_of_seqZ. lia. }
  assert (∀ k, k ∈ l2 ↔ n ≤ k < 4096 * map_blocks n) as H2 by (intros k; subst l2; rewrite elem_of_seqZ; lia).
  assert (∀ k, k ∈ [0; 1] ++ l1 ++ l2 ↔ k = 0 ∨ k = 1 ∨ 2 ≤ k < 2 + map_blocks n ∨ n ≤ k < 4096 * map_blocks n) as H3.
  { intros k. rewrite !elem_of_app, !elem_of_cons, elem_of_nil, H1, H2. tauto. }
  destruct (alloc_each_ok ([0; 1] ++ l1 ++ l2) s) as (buf & E & Hwf & Hu).
  - unfold buf_ok. rewrite Hbuf. apply clear_wf.
  - apply NoDup_app. split; [apply NoDup_cons; split; [by intros ?%list_elem_of_singleton|apply NoDup_singleton]|]. split.
    + intros k Hk'. rewrite elem_of_app, H1, H2. rewrite !elem_of_cons, elem_of_nil in Hk'. lia.
    + apply NoDup_app. split; [|split]; [apply NoDup_fmap_2; [intros ??; lia|apply NoDup_seqZ]|intros k; rewrite H1, H2; lia|apply NoDup_seqZ].
  - intros b [?|[?|[?|?]]]%H3; rewrite Hbuf; (split; [lia|apply clear_unused; lia]).
  - exists buf. split; [|split; [done|]].
    + rewrite <-E. change ([0; 1] ++ l1 ++ l2) with (0 :: 1 :: l1 ++ l2). cbn [alloc_each]. unfold SFS_SUPER_BLOCK, SFS_ROOTDIR_INO, SFS_FREEMAP_START.
      fold l1. unfold mbind, cmd_bind. destruct (allocblock 0 s); [|done..]. destruct (allocblock 1 s0); [|done..]. symmetry. apply alloc_each_app.
    + intros k Hk'. rewrite Hu, Hbuf, clear_unused, orb_false_r by lia. symmetry. unfold marked. apply Bool.eq_iff_eq_true.
      rewrite bool_decide_eq_true, H3, !orb_true_iff, !andb_true_iff, !Z.leb_le, !Z.ltb_lt. lia.
Qed.

(** ** Writing the structures *)

(** The disk of [k'] has [f b] in the blocks [b] where it is something, and is as before
    elsewhere. *)
Definition rewritten (k k' : os) (f : Z → option (list Z)) : Prop :=
  zlen (image k') = zlen (image k) ∧ willing k' ∧ ∀ b, 0 ≤ b → block_of (image k') b = default (block_of (image k) b) (f b).

Lemma rewritten_trans k1 k2 k3 f g : rewritten k1 k2 f → rewritten k2 k3 g → rewritten k1 k3 (λ b, match g b with Some l => Some l | None => f b end).
Proof.
  intros (L1 & _ & B1) (L2 & W2 & B2). split; [congruence|]. split; [done|]. intros b Hb. rewrite B2, B1 by done. by destruct (g b).
Qed.

Lemma diskwrite_block data b s : length data = 512%nat → 0 ≤ b → 512 * b + 512 ≤ zlen (image (kern s)) → zlen (image (kern s)) ≤ two32 → 0 ≤ fd s → willing (kern s) →
  ∃ k', diskwrite data b s = Ret tt (with_kern k' s) ∧ rewritten (kern s) k' (λ b', if decide (b' = b) then Some data else None).
Proof.
  intros Hlen Hb Hroom Hmax Hfd Hw. destruct (diskwrite_ok data b s Hlen Hb Hroom Hmax Hfd Hw) as (k' & E & I & W).
  exists k'. split; [done|]. split; [rewrite I; apply put_at_length; unfold zlen in *; lia|]. split; [done|]. intros b' Hb'. rewrite I, block_put by done. by case_decide.
Qed.

Lemma writefreemap_loop_ok buf n m : zlen buf = 16384 → zlen buf ≤ two32 → ∀ j s, freemapbuf s = buf → 0 ≤ fd s → willing (kern s) → zlen (image (kern s)) = 512 * n → 512 * n ≤ two32 →
  0 ≤ j → j + Z.of_nat m ≤ 32 → 2 + j + Z.of_nat m ≤ n →
  ∃ k', writefreemap_loop (seqZ j (Z.of_nat m)) s = Ret tt (with_kern k' s) ∧
    rewritten (kern s) k' (λ b, if decide (2 + j ≤ b < 2 + j + Z.of_nat m) then Some (block_of buf (b - 2)) else None).
Proof.
  intros Hbuf _. induction m as [|m IH]; intros j s Hs Hfd Hw Himg Hmax Hj Hm Hn.
  { exists (kern s). split; [by destruct s|]. split; [done|]. split; [done|]. intros b Hb. by rewrite decide_False by lia. }
  rewrite Nat2Z.inj_succ in *. rewrite seqZ_cons by lia. rewrite Z.pred_succ. cbn [writefreemap_loop]. erewrite bind_Ret by done. rewrite Hs.
  replace (take 512 (drop (Z.to_nat (j * SFS_BLOCKSIZE)) buf)) with (block_of buf j) by (unfold block_of, SFS_BLOCKSIZE; do 3 f_equal; lia).
  assert (length (block_of buf j) = 512%nat) as Hl by (unfold block_of, zlen in *; rewrite length_take, length_drop; lia).
  replace (zlen (block_of buf j) =? SFS_BLOCKSIZE) with true by (unfold zlen; by rewrite Hl). erewrite bind_Ret by done. unfold SFS_FREEMAP_START.
  destruct (diskwrite_block (block_of buf j) (2 + j) s Hl) as (k1 & E1 & R1); [lia|lia|lia|done|done|]. rewrite (bind_Ret _ _ _ _ _ E1).
  destruct (IH (Z.succ j) (with_kern k1 s)) as (k2 & E2 & R2); cbn [kern with_kern freemapbuf fd]; try done; [apply R1|destruct R1 as [-> _]; lia|lia|lia|lia|].
  exists k2. split; [exact E2|]. destruct (rewritten_trans _ _ _ _ _ R1 R2) as (L & W & B). split; [done|]. split; [done|].
  intros b Hb. rewrite B by done. f_equal. repeat case_decide; try lia; try done. by replace (b - 2) with j by lia.
Qed.

(** ** Reading back *)

Lemma do_read_ok len s : willing (kern s) → 0 < len → 0 ≤ offset (kern s) → offset (kern s) + len ≤ zlen (image (kern s)) →
  ∃ r l k', do_read len s = Ret (r, l) (with_kern k' s) ∧ willing k' ∧ image k' = image (kern s) ∧ offset k' = offset (kern s) + zlen l ∧
    ((r = Again ∧ l = [] ∧ (length (script k') < length (script (kern s)))%nat) ∨
     (r = Moved (zlen l) ∧ 0 < zlen l ≤ len ∧ l = take (length l) (drop (Z.to_nat (offset (kern s))) (image (kern s))) ∧
      (length (script k') ≤ length (script (kern s)))%nat)).
Proof.
  intros [Hs Hc] Hl Ho Hr. destruct s as [f nb fm [img off [|r rs] den]]; cbn [kern script denied image offset] in *.
  - eexists (Moved _), (take (Z.to_nat len) (drop (Z.to_nat off) img)), _. split; [done|]. split; [by split|]. split; [done|]. split; [done|]. right.
    assert (length (take (Z.to_nat len) (drop (Z.to_nat off) img)) = Z.to_nat len) as E by (unfold zlen in *; rewrite length_take, length_drop; lia).
    split; [done|]. unfold zlen. rewrite E. split_and!; [lia|lia|done|done].
  - apply Forall_cons in Hs as [Hi Hs]. destruct r as [n| |]; cbn in Hi; [| |done].
    + set (m := Z.max 0 (Z.min n len)). eexists (Moved _), (take (Z.to_nat m) (drop (Z.to_nat off) img)), _. split; [done|]. split; [by split|]. split; [done|]. split; [done|]. right.
      assert (length (take (Z.to_nat m) (drop (Z.to_nat off) img)) = Z.to_nat m) as E by (unfold zlen in *; rewrite length_take, length_drop; lia).
      split; [done|]. unfold zlen. rewrite E. split_and!; [lia|lia|done|cbn; lia].
    + eexists Again, [], _. split; [done|]. split; [by split|]. split; [done|]. split; [cbn; unfold zlen; cbn; lia|]. left. split_and!; try done. cbn. lia.
Qed.

Lemma diskread_loop_ok b img : 0 ≤ b → 512 * b + 512 ≤ zlen img → ∀ fuel s cdata, (length cdata ≤ 512)%nat →
  (512 - length cdata + length (script (kern s)) < fuel)%nat → willing (kern s) → image (kern s) = img →
  cdata = take (length cdata) (drop (Z.to_nat (512 * b)) img) → offset (kern s) = 512 * b + zlen cdata →
  ∃ k', diskread_loop fuel cdata s = Ret (block_of img b) (with_kern k' s) ∧ image k' = img ∧ willing k'.
Proof.
  intros Hb Hroom. induction fuel as [|fuel IH]; intros s cdata Hlen Hf Hw Himg Hc Hoff; [lia|]. cbn [diskread_loop]. unfold BLOCKSIZE.
  destruct (Z.ltb_spec (zlen cdata) 512) as [Hlt|Hge].
  2: { exists (kern s). split; [|done]. assert (length cdata = 512%nat) as E by (unfold zlen in *; lia). rewrite E in Hc. rewrite Hc. by destruct s. }
  assert (0 ≤ zlen cdata) by apply zlen_nonneg.
  destruct (do_read_ok (512 - zlen cdata) s Hw) as (r & l & k & E & Hk & I & O & Hr); [lia|lia|rewrite Himg; lia|]. rewrite (bind_Ret _ _ _ _ _ E).
  destruct Hr as [(-> & -> & L)|(-> & Hn & El & L)].
  - destruct (IH (with_kern k s) cdata) as (k' & -> & ? & ?); cbn [kern with_kern]; try done; [lia|congruence| |by exists k'].
    rewrite O, Hoff. unfold zlen. cbn. lia.
  - rewrite (proj2 (Z.eqb_neq (zlen l) 0)) by lia.
    destruct (IH (with_kern k s) (cdata ++ l)) as (k' & -> & ? & ?); cbn [kern with_kern]; rewrite ?length_app, ?zlen_app; try done; [unfold zlen in *; lia|unfold zlen in *; lia|congruence| |lia|by exists k'].
    rewrite <-take_take_drop, <-Hc. f_equal. rewrite El at 1. f_equal. rewrite Himg, Hoff, drop_drop. f_equal. unfold zlen. lia.
Qed.

(** [diskread] gives back what [diskwrite] has written. *)
Lemma disk_roundtrip data b s : length data = 512%nat → 0 ≤ b → 512 * b + 512 ≤ zlen (image (kern s)) → zlen (image (kern s)) ≤ two32 → 0 ≤ fd s → willing (kern s) →
  ∃ k', (_ ← diskwrite data b; diskread b) s = Ret data (with_kern k' s).
Proof.
  intros Hlen Hb Hroom Hmax Hfd Hw. destruct (diskwrite_block data b s Hlen Hb Hroom Hmax Hfd Hw) as (k & E & L & W & B). rewrite (bind_Ret _ _ _ _ _ E).
  unfold diskread. erewrite bind_Ret by done. erewrite bind_Ret by (unfold assert_; by rewrite (proj2 (Z.leb_le 0 (fd (with_kern k s))))).
  erewrite bind_Ret by done. change (kern (with_kern k s)) with k. rewrite (wl_calls _ W). cbn [negb]. erewrite bind_Ret by done. erewrite bind_Ret by done.
  destruct (diskread_loop_ok b (image k) Hb ltac:(lia) (io_fuel (with_kern k s)) (with_kern (Os (image k) (u32 (b * BLOCKSIZE)) (script k) (denied k)) (with_kern k s)) [])
    as (k' & Er & _); cbn [kern with_kern script image offset length]; try done.
  - lia.
  - unfold io_fuel. cbn [kern with_kern]. lia.
  - by destruct W.
  - unfold BLOCKSIZE. rewrite u32_id by width. unfold zlen. cbn. lia.
  - exists k'. rewrite B, decide_True in Er by done. exact Er.
Qed.

Definition super_of (volname : list Z) (n : Z) : sfs_superblock :=
  Superblock SFS_MAGIC n (volname ++ replicate (32 - length volname) 0) (replicate 118 0).

Definition root_dinode : sfs_dinode := Dinode 0 SFS_TYPE_DIR 1 (replicate 15 0) 0 (replicate 110 0).

Lemma super_of_typed volname n : text volname → zlen volname < 32 → is_u32 n → super_typed (super_of volname n).
Proof.
  intros Ht Hl Hn. unfold zlen in Hl. constructor; cbn [super_of sb_magic sb_nblocks sb_volname sb_reserved]; [done|done| |].
  - rewrite length_app, length_replicate. split; [lia|]. apply Forall_app. split; [|by apply Forall_replicate].
    eapply Forall_impl; [exact Ht|]. unfold is_byte. cbn. lia.
  - split; [done|]. by apply Forall_replicate.
Qed.

Lemma root_typed : dinode_typed root_dinode.
Proof. constructor; try done; (split; [done|by apply Forall_replicate]). Qed.

(** What [main] leaves on a disk of [n] blocks. *)
Definition made (volname buf : list Z) (n b : Z) : option (list Z) :=
  if decide (b = 1) then Some (enc_dinode root_dinode)
  else if decide (2 ≤ b < 2 + map_blocks n) then Some (block_of buf (b - 2))
  else if decide (b = 0) then Some (enc_super (super_of volname n)) else None.

(** The argument is the name, with a colon or without. *)
Definition name_arg (volname arg : list Z) : Prop := arg = volname ∨ arg = volname ++ [58].

Record good_name (volname : list Z) : Prop := {
  gn_text : text volname;
  gn_length : zlen volname < 32;
  gn_colon : ¬ 58 ∈ volname;
  gn_slash : ¬ 47 ∈ volname
}.

Lemma index_of_None c l : ¬ c ∈ l → index_of c l = None.
Proof. intros Hc. destruct (index_of c l) eqn:E; [|done]. destruct Hc. apply index_of_elem. by rewrite E. Qed.

Lemma index_of_last c l : ¬ c ∈ l → index_of c (l ++ [c]) = Some (length l).
Proof.
  induction l as [|x l IH]; intros Hc; cbn; [by rewrite Z.eqb_refl|]. rewrite not_elem_of_cons in Hc.
  rewrite (proj2 (Z.eqb_neq x c)), IH; [done|tauto|]. intros ->. tauto.
Qed.

Lemma check_ok s : check s = Ret tt s.
Proof. done. Qed.

Lemma opendisk_ok s : fd s < 0 → willing (kern s) → opendisk s = Ret tt (with_nblocks (u32 (zlen (image (kern s)) / 512)) (with_fd 3 s)).
Proof.
  intros Hfd Hw. unfold opendisk, sys. erewrite bind_Ret by done. erewrite bind_Ret by (unfold assert_; by rewrite (proj2 (Z.ltb_lt _ _) Hfd)).
  erewrite bind_Ret by done. rewrite (wl_calls _ Hw). cbn [negb]. erewrite bind_Ret by done. erewrite bind_Ret by done.
  change (denied (kern (with_fd 3 s)) Cfstat) with (denied (kern s) Cfstat). rewrite (wl_calls _ Hw). cbn [negb]. by erewrite bind_Ret by done.
Qed.

Lemma closedisk_ok s : 0 ≤ fd s → willing (kern s) → closedisk s = Ret tt (with_fd (-1) s).
Proof.
  intros Hfd Hw. unfold closedisk, sys. erewrite bind_Ret by done. erewrite bind_Ret by (unfold assert_; by rewrite (proj2 (Z.leb_le _ _) Hfd)).
  erewrite bind_Ret by done. by rewrite (wl_calls _ Hw).
Qed.

Lemma writesuper_eq volname n s : zlen volname < 32 → writesuper volname n s = diskwrite (enc_super (super_of volname n)) 0 s.
Proof.
  intros Hl. unfold writesuper, SFS_VOLNAME_SIZE, SFS_SUPER_BLOCK. rewrite (proj2 (Z.leb_gt _ _)) by done.
  assert (0 :: drop (S (length volname)) (sb_volname zero_super) = replicate (32 - length volname) 0) as ->; [|reflexivity].
  unfold zlen in Hl. cbn [zero_super sb_volname]. rewrite drop_replicate.
  replace (32 - length volname)%nat with (S (32 - S (length volname))) by lia. reflexivity.
Qed.

(** The part of [main] after the checks of the name. *)
Lemma main_writes k pname path arg volname n s : kern s = k → fd s < 0 → freemapbuf s = replicate (Z.to_nat 16384) 0 →
  willing k → good_name volname → name_arg volname arg → zlen (image k) = 512 * n → 2 + map_blocks n ≤ n ≤ 131072 →
  ∃ s' buf, main [pname; path; arg] s = Ret 0 s' ∧ rewritten k (kern s') (made volname buf n) ∧
    bm_wf (bm buf) ∧ ∀ b, 0 ≤ b < 131072 → in_use (bm buf) b = marked n b.
Proof.
  intros Hk Hfd Hbuf Hw [Ht Hl Hc Hsl] Harg Himg Hn. assert (0 ≤ n) as Hn0 by (pose proof (zlen_nonneg (image k)); lia). subst k. cbn [main].
  rewrite (bind_Ret _ _ _ _ _ (check_ok s)). erewrite (bind_Ret _ _ s volname s).
  2: { destruct Harg as [->| ->]; [by rewrite index_of_None|]. rewrite index_of_last by done. by rewrite drop_app_length, take_app_length. }
  rewrite index_of_None by done. rewrite (bind_Ret _ _ _ _ _ (opendisk_ok s Hfd Hw)). rewrite Himg, Z.mul_comm, Z.div_mul, u32_id by (lia || width).
  erewrite bind_Ret by done. cbn [BLOCKSIZE]. change (negb (BLOCKSIZE =? SFS_BLOCKSIZE)) with false. cbv iota. erewrite bind_Ret by done.
  change (nblocks (with_nblocks n (with_fd 3 s))) with n.
  destruct (initfreemap_ok n (with_nblocks n (with_fd 3 s)) Hn Hbuf) as (buf & E1 & Hwf & Hu). rewrite (bind_Ret _ _ _ _ _ E1).
  destruct (freemap_size n ltac:(lia)) as (EK & _ & HK). pose proof (bm_len _ Hwf) as Hlen. cbn [bm v nbits] in Hlen. change ((131072 + 7) / 8) with 16384 in Hlen.
  destruct (super_roundtrip (super_of volname n)) as (_ & Hsl1 & _); [apply super_of_typed; [done|done|width]|].
  destruct (diskwrite_block (enc_super (super_of volname n)) 0 (with_freemapbuf buf (with_nblocks n (with_fd 3 s))) Hsl1) as (k1 & E2 & R1);
    cbn [kern with_freemapbuf with_nblocks with_fd fd]; [lia|lia|width|lia|done|].
  rewrite (bind_Ret _ _ _ tt _ (eq_trans (writesuper_eq _ _ _ Hl) E2)). unfold writefreemap. rewrite EK. pose proof R1 as (L1 & W1 & _).
  destruct (writefreemap_loop_ok buf n (Z.to_nat (map_blocks n)) Hlen ltac:(width) 0 (with_kern k1 (with_freemapbuf buf (with_nblocks n (with_fd 3 s))))) as (k2 & E3 & R2);
    cbn [kern with_kern freemapbuf with_freemapbuf with_nblocks with_fd fd] in *; [done|lia|done|lia|width|lia|lia|lia|].
  rewrite Z2Nat.id in E3, R2 by lia. rewrite (bind_Ret _ _ _ _ _ E3). pose proof R2 as (L2 & W2 & _).
  destruct (dinode_roundtrip root_dinode root_typed) as (_ & Hrl & _).
  destruct (diskwrite_block (enc_dinode root_dinode) 1 (with_kern k2 (with_kern k1 (with_freemapbuf buf (with_nblocks n (with_fd 3 s))))) Hrl) as (k3 & E4 & R3);
    cbn [kern with_kern with_freemapbuf with_nblocks with_fd fd] in *; [lia|lia|width|lia|done|].
  rewrite (bind_Ret _ _ _ _ _ E4). erewrite bind_Ret by (apply closedisk_ok; cbn; [lia|apply R3]).
  eexists _, buf. split; [done|]. split; [|done]. destruct (rewritten_trans _ _ _ _ _ (rewritten_trans _ _ _ _ _ R1 R2) R3) as (L & W & B).
  split; [exact L|]. split; [exact W|]. intros b Hb. cbn [kern with_kern with_fd]. rewrite B by done. unfold made. f_equal.
  change (2 + 0) with 2. by repeat case_decide.
Qed.

(** ** The volume on the disk *)

#[local] Opaque enc_dinode dec_dinode enc_super dec_super.

Section made.
Context (volname buf img : list Z) (n : Z) (sbuf : list Z) (count : Z).
Context (Hname : good_name volname) (Hn : 2 + map_blocks n ≤ n ≤ 131072) (Himg : zlen img = 512 * n).
Context (Hwf : bm_wf (bm buf)) (Hu : ∀ b, 0 ≤ b < 131072 → in_use (bm buf) b = marked n b).
Context (Hblocks : ∀ b l, made volname buf n b = Some l → block_of img b = l) (Hsbuf : length sbuf = 512%nat).

(** The device with this image, and the file system in it. *)
Definition made_disk : lhd := Lhd (disk_of img) sbuf count.
Definition made_map : bitmap := Bitmap (4096 * map_blocks n) (take (Z.to_nat (512 * map_blocks n)) buf).
Definition made_fs : sfs_fs := SfsFs (super_of volname n) false made_disk made_map false.
Definition made_root : sfs_vnode := SfsVnode root_dinode 1 false.
Definition made_nodes : gmap Z sfs_vnode := {[1 := made_root]}.
Definition made_vol : volume := Volume made_fs [] ∅ [].

Lemma made_n : 3 ≤ n ∧ 0 < map_blocks n ≤ 32 ∧ n ≤ 4096 * map_blocks n.
Proof.
  pose proof (zlen_nonneg img). assert (0 ≤ n) by lia. destruct (freemap_size n ltac:(lia)) as (_ & _ & HK).
  assert (0 < map_blocks n) by (unfold map_blocks in *; Z.to_euclidean_division_equations; lia).
  split_and!; try lia. unfold map_blocks. Z.to_euclidean_division_equations. lia.
Qed.

Lemma made_buf : zlen buf = 16384.
Proof. apply (bm_len _ Hwf). Qed.

Lemma made_d_blocks : zlen (disk_of img) = n.
Proof. unfold disk_of. pose proof made_n. rewrite Himg, Z.mul_comm, Z.div_mul by lia. apply zlen_map_seqZ. lia. Qed.

Lemma made_sector b : 0 ≤ b < n → sector made_fs b = block_of img b.
Proof.
  intros Hb. unfold sector. cbn [made_fs sfs_device made_disk sectors]. unfold disk_of. rewrite Himg, Z.mul_comm, Z.div_mul, zget_map_seqZ by lia.
  done.
Qed.

Lemma made_used b : 0 ≤ b → used made_fs b = marked n b || (4096 * map_blocks n <=? b).
Proof.
  intros Hb. pose proof made_n as (Hn3 & HK & HnK). pose proof made_buf as Hlen. unfold used, in_use. cbn [made_fs sfs_freemap made_map v].
  destruct (Z.leb_spec (4096 * map_blocks n) b) as [Hge|Hlt].
  - rewrite orb_true_r, (proj2 (zget_None _ _)); [done|]. right. rewrite zlen_take by lia. Z.to_euclidean_division_equations. lia.
  - rewrite orb_false_r, zget_take by (Z.to_euclidean_division_equations; lia). rewrite <-Hu by lia. done.
Qed.

Lemma made_map_wf : bm_wf made_map.
Proof.
  pose proof made_n as (Hn3 & HK & HnK). pose proof made_buf as Hlen. constructor; cbn [made_map nbits v].
  - width.
  - rewrite zlen_take by lia. Z.to_euclidean_division_equations. lia.
  - intros i w Hw. assert (w ∈ buf) as (j & Hj)%elem_of_zget.
    { assert (w ∈ take (Z.to_nat (512 * map_blocks n)) buf) as Hin by (apply elem_of_zget; by exists i). by eapply elem_of_take in Hin as (? & Hin & _); eapply list_elem_of_lookup_2. }
    by apply (bm_bytes _ Hwf j).
  - intros i Hi. change (in_use made_map i) with (used made_fs i). rewrite made_used by lia. rewrite (proj2 (Z.leb_le _ i)) by lia. apply orb_true_r.
Qed.

Lemma made_marked b : 0 ≤ b → used made_fs b = true ↔ b < 2 + map_blocks n ∨ n ≤ b.
Proof.
  intros Hb. pose proof made_n. rewrite made_used by done. unfold marked. rewrite !orb_true_iff, !andb_true_iff, !Z.leb_le, !Z.ltb_lt. lia.
Qed.

Lemma made_sfs_wf : sfs_wf made_fs.
Proof.
  pose proof made_n as (Hn3 & HK & HnK). constructor; cbn [made_fs sfs_sb sfs_device sfs_freemap super_of sb_nblocks].
  - constructor; cbn [made_disk sectors lh_buf]; [|done|unfold d_blocks; cbn [sectors made_disk]; rewrite made_d_blocks; lia].
    unfold disk_of. rewrite Himg, Z.mul_comm, Z.div_mul by lia. apply Forall_map, Forall_seqZ. intros b Hb. cbn. unfold block_of, zlen in *.
    rewrite length_take, length_drop. lia.
  - apply made_map_wf.
  - unfold d_blocks. cbn [made_disk sectors]. rewrite made_d_blocks. lia.
  - cbn [made_map nbits]. by rewrite (proj1 (proj2 (freemap_size n ltac:(lia)))).
  - intros b Hb. apply made_marked; lia.
  - apply made_marked; lia.
Qed.

Lemma made_owned : owned made_fs made_root = [].
Proof. done. Qed.

Lemma made_node i sv : made_nodes !! i = Some sv → i = 1 ∧ sv = made_root.
Proof. unfold made_nodes. by intros [<- <-]%lookup_singleton_Some. Qed.

Lemma made_nodes_wf : nodes_wf made_nodes made_fs.
Proof.
  pose proof made_n as (Hn3 & HK & HnK). constructor.
  - apply made_sfs_wf.
  - intros i sv [-> ->]%made_node. constructor; [done| | |apply root_typed].
    + cbn [made_fs sfs_sb super_of sb_nblocks]. split; [lia|]. apply made_marked; lia.
    + constructor; rewrite ?made_owned; [done|constructor|by intros b ?%elem_of_nil].
  - intros i j sv [-> ->]%made_node _. rewrite made_owned. apply not_elem_of_nil.
  - intros i j svi svj Hij [-> _]%made_node [-> _]%made_node. done.
  - intros i sv [-> ->]%made_node _. rewrite made_sector, (Hblocks 1 (enc_dinode root_dinode)) by (done || lia).
    by rewrite (proj1 (dinode_roundtrip root_dinode root_typed)).
Qed.

Lemma made_accounted : accounted made_nodes made_fs.
Proof.
  pose proof made_n as (Hn3 & HK & HnK). destruct (freemap_size n ltac:(lia)) as (EK & _ & _).
  assert (∀ b, reserved made_fs b ↔ b = 0 ∨ 2 ≤ b < 2 + map_blocks n) as Hres.
  { intros b. unfold reserved. cbn [made_fs sfs_sb super_of sb_nblocks]. rewrite EK. done. }
  constructor.
  - intros b Hb Hm%made_marked; [|lia]. cbn [made_fs sfs_sb super_of sb_nblocks] in Hb. rewrite Hres. destruct (decide (b = 1)) as [->|].
    + right. exists 1, made_root. split; [done|by left].
    + left. lia.
  - intros b i sv Hr%Hres [-> ->]%made_node. unfold node_block. rewrite made_owned, elem_of_nil. lia.
  - intros b Hr%Hres. apply made_marked; lia.
  - assert (super_typed (super_of volname n)) as Hty by (apply super_of_typed; [apply Hname|apply Hname|width]).
    constructor; cbn [made_fs sfs_sb]; [done|done| | |].
    + unfold SFS_SUPER_BLOCK. rewrite made_sector by lia. rewrite (Hblocks 0 (enc_super (super_of volname n))).
      * rewrite (proj1 (super_roundtrip _ Hty)). apply super_ended; [done|]. cbn [super_of sb_volname]. pose proof (gn_length _ Hname) as Hl. unfold zlen in Hl.
        rewrite lookup_app_r by lia. apply lookup_replicate_2. lia.
      * unfold made. rewrite !decide_False by lia. done.
    + cbn [super_of sb_nblocks]. rewrite EK. unfold SFS_FREEMAP_START. lia.
    + cbn [super_of sb_nblocks]. rewrite EK. intros j _ Hj. unfold SFS_FREEMAP_START. rewrite made_sector by lia. rewrite (Hblocks (2 + j) (block_of buf j)).
      * unfold map_block, block_of. cbn [made_fs sfs_freemap made_map v]. by rewrite !take_drop_commute, take_take, Nat.min_l by lia.
      * unfold made. rewrite decide_False, decide_True by lia. do 2 f_equal. lia.
Qed.

Lemma made_abs : volume_abs ∅ made_nodes made_vol (FsAbs ∅ ∅ ∅).
Proof.
  constructor; cbn [made_vol vol_fs vheap names files handles].
  - constructor; cbn [made_vol vol_fs vheap sfs_vnodes]; [apply made_nodes_wf| |by intros p ?%elem_of_nil|constructor| |].
    + intros p x. by rewrite lookup_empty.
    + intros p q x y. by rewrite lookup_empty.
    + by intros i sv [-> ->]%made_node _.
  - apply made_accounted.
  - intros d [_ ->]%made_node. assert (∀ name i s, ¬ binds made_fs made_root name i s) as Hno.
    { intros name i s [Hs _]. change (nslots made_root) with 0 in Hs. lia. }
    split; [|split; [done|]].
    + constructor; [done|done|]. intros name i1 s1 i2 s2 Hb. by apply Hno in Hb.
    + intros name i. rewrite lookup_empty. split; [done|]. intros [s Hb]. by apply Hno in Hb.
  - by exists made_root.
  - intros i. unfold made_nodes. rewrite delete_singleton_eq, !lookup_empty. constructor.
  - by rewrite fmap_empty.
  - intros name i. by rewrite lookup_empty.
  - intros i sv [-> ->]%made_node. done.
  - intros i [f Hf]. by rewrite lookup_empty in Hf.
Qed.

Lemma made_mounts `{Hardware} {Hrel : Reliable} :
  ∃ vol, sfs_domount [] SFS_BLOCKSIZE made_disk = Ok (0, inl vol) ∧ represents vol (FsAbs ∅ ∅ ∅) ∧
    sfs_getvolname vol = volname ++ replicate (32 - length volname) 0.
Proof.
  destruct (mount_ok ∅ made_nodes made_vol (FsAbs ∅ ∅ ∅) made_abs) as (vol & E & Ha & Hv).
  - constructor; [done|done|by intros i sv [-> ->]%made_node].
  - intros i [f Hf]. cbn [files] in Hf. by rewrite lookup_empty in Hf.
  - exists vol. split; [exact E|]. split; [by exists made_nodes|exact Hv].
Qed.
End made.

(** ** The claim *)

(** C18: [mksfs], given a disk of 3 to 131072 blocks, a name of less than 32 characters
    without colons or slashes (one colon may follow it), and system calls that do not
    fail, ends with code 0 whatever is on the disk and however its writes are split and
    interrupted; it writes the superblock, the freemap and the root directory and nothing
    else; and the kernel can mount the disk and finds a volume of that name with no
    files. *)
Theorem mksfs_mounts `{Hardware} {Hrel : Reliable} k pname path arg volname n sbuf count :
  willing k → good_name volname → name_arg volname arg → zlen (image k) = 512 * n → 2 + map_blocks n ≤ n ≤ 131072 → length sbuf = 512%nat →
  ∃ s, main [pname; path; arg] (prog_start k) = Ret 0 s ∧ zlen (image (kern s)) = 512 * n ∧
    (∀ b, 2 + map_blocks n ≤ b → block_of (image (kern s)) b = block_of (image k) b) ∧
    ∃ vol, sfs_domount [] SFS_BLOCKSIZE (Lhd (disk_of (image (kern s))) sbuf count) = Ok (0, inl vol) ∧
      represents vol (FsAbs ∅ ∅ ∅) ∧ sfs_getvolname vol = volname ++ replicate (32 - length volname) 0.
Proof.
  intros Hw Hname Harg Himg Hn Hs.
  destruct (main_writes k pname path arg volname n (prog_start k)) as (s & buf & E & (L & W & B) & Hwf & Hu); [done..|].
  assert (∀ b l, made volname buf n b = Some l → 0 ≤ b) as Hpos.
  { intros b l. unfold made. repeat case_decide; intros; simplify_eq; lia. }
  exists s. split; [exact E|]. split; [congruence|]. split.
  - intros b Hb. pose proof (zlen_nonneg (image k)). destruct (freemap_size n ltac:(lia)) as (_ & _ & HK). rewrite B by lia. unfold made.
    by rewrite !decide_False by lia.
  - apply (made_mounts volname buf (image (kern s)) n sbuf count); try done; [congruence|].
    intros b l Hm. rewrite B by (by eapply Hpos). by rewrite Hm.
Qed.

(** A disk of 16 blocks of other data, whose writes are interrupted and split. *)
Lemma mksfs_mounts_witness : ∃ s vol,
  main [[109]; [108]; [118; 58]] (prog_start (Os (replicate (Z.to_nat 8192) 7) 0 [Moved 100; Again; Moved 1] (λ _, false))) = Ret 0 s ∧
  @sfs_domount good_hw [] SFS_BLOCKSIZE (Lhd (disk_of (image (kern s))) iobuf0 0) = Ok (0, inl vol) ∧ represents vol (FsAbs ∅ ∅ ∅).
Proof.
  destruct (@mksfs_mounts good_hw good_hw_reliable (Os (replicate (Z.to_nat 8192) 7) 0 [Moved 100; Again; Moved 1] (λ _, false)) [109] [108] [118; 58] [118] 16 iobuf0 0)
    as (s & E & _ & _ & vol & Em & Hr & _).
  - constructor; [repeat constructor; cbn; lia|done].
  - constructor; [repeat constructor; lia|done|by intros ?%list_elem_of_singleton..].
  - by right.
  - unfold zlen. cbn [image]. rewrite length_replicate. lia.
  - split; vm_compute; congruence.
  - done.
  - exists s, vol. split; [exact E|]. split; [exact Em|exact Hr].
Defined.

(** A disk that is too small is refused by a failed assertion: the second block of a
    volume of two blocks is both in the freemap and past the end. *)
Example mksfs_two_blocks : ∃ s, main [[109]; [108]; [118]] (prog_start (Os (replicate 1024 0) 0 [] (λ _, false))) = Abort s.
Proof. eexists. vm_compute. reflexivity. Qed.

(** The check of the size is passed by a disk whose number of blocks wraps around. *)
Example mksfs_size_wraps : SFS_FREEMAPBLOCKS (two32 - 1) = 0.
Proof. reflexivity. Qed.
