(* ===== verification/Kmalloc.v ===== *)
(** * The kernel heap (kern/vm/kmalloc.c)

    [kmalloc] and [kfree] with their pool of pages divided into blocks, as compiled by
    default (without SLOW, GUARDS and LABELS).  The pageref structures are records at
    their addresses; the free lists are in the words of memory.  Kernel addresses in
    kseg0 are always mapped and other addresses fault.

    The spinlock is released around the calls of [alloc_kpages] and [free_kpages], so the
    code between two such calls is one atomic section and a call of [kmalloc] or [kfree]
    is a sequence of sections; the sections of different threads interleave.  The place
    where a thread is between two sections is a [kpc].  One section of one thread is a
    step of the executable function [kstep].  The clients are part of the system: the map
    [live] holds the blocks they have not yet freed, and they may write to them.

    The frame allocator is behind the class [KPages]; FrameTable is an instance. *)

From stdpp Require Import base gmap list list_numbers.
From Stdlib Require Import ZArith Lia.
From S2P Require Import Prelude FrameTable.
Open Scope Z_scope.

(** ** Data *)

Definition sizes : list Z := [16; 32; 64; 128; 256; 512; 1024; 2048].
Definition NSIZES : Z := 8.
Definition LARGEST_SUBPAGE_SIZE : Z := 2048.
Definition INVALID_OFFSET : Z := 65535.
Definition sizeof_pageref : Z := 16.
Definition NPAGEREFS_PER_PAGE : Z := PAGE_SIZE / sizeof_pageref.
Definition INUSE_WORDS : Z := NPAGEREFS_PER_PAGE / 32.
Definition NUM_PAGEREFPAGES : Z := 16.

Record pageref := PageRef {
  next_samesize : Z;
  next_all : Z;
  pageaddr_and_blocktype : Z;
  freelist_offset : Z;
  nfree : Z
}.

Record kheap_root := Root { page : Z; pagerefs_inuse : list Z; numinuse : Z }.

Record kheap := Kheap {
  kheaproots : list kheap_root;
  prefs : gmap Z pageref;
  sizebases : list Z;
  allbase : Z;
  words : Z → Z
}.

Implicit Types (h : kheap) (pr : pageref).

(** The fields [freelist_offset] and [nfree] have 16 bits. *)
Definition u16 (x : Z) : Z := x mod 65536.

Definition with_roots x h : kheap := Kheap x (prefs h) (sizebases h) (allbase h) (words h).
Definition with_prefs x h : kheap := Kheap (kheaproots h) x (sizebases h) (allbase h) (words h).
Definition with_words x h : kheap := Kheap (kheaproots h) (prefs h) (sizebases h) (allbase h) x.

Definition PR_PAGEADDR pr : Z := Z.land (pageaddr_and_blocktype pr) PAGE_FRAME.
Definition PR_BLOCKTYPE pr : Z := Z.land (pageaddr_and_blocktype pr) 4095.
Definition MKPAB (pa blk : Z) : Z := Z.lor (Z.land pa PAGE_FRAME) (Z.land blk 4095).

Definition block_size (blktype : Z) : outcome Z := deref (zget sizes blktype).

(** Words of kernel memory. *)
Definition MIPS_KSEG1 : Z := 0xa0000000.
Definition in_kseg0 (a : Z) : bool := (MIPS_KSEG0 <=? a) && (a <? MIPS_KSEG1).

Definition kload (a : Z) h : outcome Z := if in_kseg0 a then Ok (words h a) else Fault.
Definition kstore (a x : Z) h : outcome kheap :=
  if in_kseg0 a then Ok (with_words (λ b, if b =? a then x else words h b) h) else Fault.

Fixpoint fill_words (is_ : list Z) (ptr : Z) h : outcome kheap :=
  match is_ with
  | [] => Ok h
  | i :: is_ => h ← kstore (ptr + 4 * i) 0xdeadbeef h; fill_words is_ ptr h
  end.

Definition fill_deadbeef (vptr len : Z) h : outcome kheap := fill_words (seqZ 0 (len / 4)) vptr h.

(** ** Pagerefs *)

Fixpoint find_bit (js : list Z) (w : Z) : option Z :=
  match js with
  | [] => None
  | j :: js => if Z.land w (Z.shiftl 1 j) =? 0 then Some j else find_bit js w
  end.

(** The word and the bit to take; [KASSERT(0)] if a word that is not full has no bit. *)
Fixpoint find_word (is_ : list Z) (inuse : list Z) : outcome (option (Z * Z)) :=
  match is_ with
  | [] => Ok None
  | i :: is_ =>
      w ← deref (zget inuse i);
      if w =? 0xffffffff then find_word is_ inuse
      else match find_bit (seqZ 0 32) w with
           | Some j => Ok (Some (i, j))
           | None => Panic
           end
  end.

(** [allocpageref] up to the test of the page: the root, and the index of the pageref. *)
Fixpoint claim_loop (rs : list Z) h : outcome (option (Z * Z) * kheap) :=
  match rs with
  | [] => Ok (None, h)
  | r :: rs =>
      root ← deref (zget (kheaproots h) r);
      if NPAGEREFS_PER_PAGE <=? numinuse root then claim_loop rs h
      else
        found ← find_word (seqZ 0 INUSE_WORDS) (pagerefs_inuse root);
        match found with
        | None => claim_loop rs h
        | Some (i, j) =>
            w ← deref (zget (pagerefs_inuse root) i);
            let root := Root (page root) (zset (pagerefs_inuse root) i (Z.lor w (Z.shiftl 1 j))) (u32 (numinuse root + 1)) in
            Ok (Some (r, i * 32 + j), with_roots (zset (kheaproots h) r root) h)
        end
  end.

Definition claim_pageref h : outcome (option (Z * Z) * kheap) := claim_loop (seqZ 0 NUM_PAGEREFPAGES) h.

(** The address of a pageref, or [NULL] if there is no page for it. *)
Definition pageref_addr (slot : Z * Z) h : outcome Z :=
  root ← deref (zget (kheaproots h) slot.1);
  Ok (if page root =? 0 then 0 else page root + sizeof_pageref * slot.2).

Fixpoint freepageref_loop (rs : list Z) (p : Z) h : outcome kheap :=
  match rs with
  | [] => Panic
  | r :: rs =>
      root ← deref (zget (kheaproots h) r);
      if page root =? 0 then
        _ ← kassert (numinuse root =? 0);
        freepageref_loop rs p h
      else
        let j := u32 ((p - page root) / sizeof_pageref) in
        if j <? NPAGEREFS_PER_PAGE then
          let i := j / 32 in
          let k := Z.shiftl 1 (j mod 32) in
          w ← deref (zget (pagerefs_inuse root) i);
          _ ← kassert (negb (Z.land w k =? 0));
          _ ← kassert (0 <? numinuse root);
          let root := Root (page root) (zset (pagerefs_inuse root) i (Z.land w (Z.lnot k))) (numinuse root - 1) in
          Ok (with_roots (zset (kheaproots h) r root) h)
        else freepageref_loop rs p h
  end.

Definition freepageref (p : Z) h : outcome kheap := freepageref_loop (seqZ 0 NUM_PAGEREFPAGES) p h.

(** ** Lists *)

(** The list that starts at [cur] without [p]: its new start and the pagerefs.  [next]
    and [set] select the list. *)
Fixpoint unlink (next : pageref → Z) (set : Z → pageref → pageref) (fuel : nat) (cur p : Z) (m : gmap Z pageref) : outcome (Z * gmap Z pageref) :=
  match fuel with
  | O => Hang
  | S fuel =>
      if cur =? 0 then Ok (cur, m)
      else
        x ← deref (m !! cur);
        if cur =? p then Ok (next x, m)
        else
          '(n, m) ← unlink next set fuel (next x) p m;
          x ← deref (m !! cur);
          Ok (cur, <[cur := set n x]> m)
  end.

Definition set_samesize n pr : pageref := PageRef n (next_all pr) (pageaddr_and_blocktype pr) (freelist_offset pr) (nfree pr).
Definition set_all n pr : pageref := PageRef (next_samesize pr) n (pageaddr_and_blocktype pr) (freelist_offset pr) (nfree pr).

(** More than the pagerefs in a list. *)
Definition list_fuel h : nat := S (size (prefs h)).

Definition remove_lists (p blktype : Z) h : outcome kheap :=
  _ ← kassert ((0 <=? blktype) && (blktype <? NSIZES));
  base ← deref (zget (sizebases h) blktype);
  '(base, m) ← unlink next_samesize set_samesize (list_fuel h) base p (prefs h);
  '(all, m) ← unlink next_all set_all (list_fuel h) (allbase h) p m;
  Ok (Kheap (kheaproots h) m (zset (sizebases h) blktype base) all (words h)).

(** ** Allocating blocks *)

Fixpoint blocktype_loop (is_ : list Z) (clientsz : Z) : outcome Z :=
  match is_ with
  | [] => Panic
  | i :: is_ => sz ← block_size i; if clientsz <=? sz then Ok i else blocktype_loop is_ clientsz
  end.

Definition blocktype (clientsz : Z) : outcome Z := blocktype_loop (seqZ 0 NSIZES) clientsz.

(** The first page of the right size with a free block. *)
Fixpoint find_page (fuel : nat) (p blktype : Z) h : outcome (option Z) :=
  match fuel with
  | O => Hang
  | S fuel =>
      if p =? 0 then Ok None
      else
        pr ← deref (prefs h !! p);
        _ ← kassert (PR_BLOCKTYPE pr =? blktype);
        if 0 <? nfree pr then Ok (Some p) else find_page fuel (next_samesize pr) blktype h
  end.

(** From the label [doalloc] on. *)
Definition doalloc (p : Z) h : outcome (Z * kheap) :=
  pr ← deref (prefs h !! p);
  _ ← kassert (freelist_offset pr <? PAGE_SIZE);
  let prpage := PR_PAGEADDR pr in
  let fla := prpage + freelist_offset pr in
  fl ← kload fla h;
  let n := u16 (nfree pr - 1) in
  off ← (if negb (fl =? 0) then
           _ ← kassert (0 <? n);
           _ ← kassert (u32 (fl - prpage) <? PAGE_SIZE);
           Ok (u32 (fl - prpage))
         else
           _ ← kassert (n =? 0);
           Ok INVALID_OFFSET);
  Ok (fla, with_prefs (<[p := PageRef (next_samesize pr) (next_all pr) (pageaddr_and_blocktype pr) off n]> (prefs h)) h).

(** The blocks of a new page in a list, the last one first; [fl] is the last one so far. *)
Fixpoint chain_blocks (is_ : list Z) (fl fla size : Z) h : outcome (Z * kheap) :=
  match is_ with
  | [] => Ok (fl, h)
  | i :: is_ =>
      let fl := fla + i * size in
      let next := fla + (i - 1) * size in
      h ← kstore fl next h;
      _ ← kassert (negb (fl =? next));
      chain_blocks is_ fl fla size h
  end.

(** A new page [prpage] with the pageref [p], and a block of it. *)
Definition new_page (p prpage blktype : Z) h : outcome (Z * kheap) :=
  size ← block_size blktype;
  let n := u16 (PAGE_SIZE / size) in
  h ← kstore prpage 0 h;
  '(fl, h) ← chain_blocks (seqZ 1 (n - 1)) prpage prpage size h;
  let off := u16 (fl - prpage) in
  _ ← kassert (off =? (n - 1) * size);
  base ← deref (zget (sizebases h) blktype);
  let pr := PageRef base (allbase h) (MKPAB prpage blktype) off n in
  doalloc p (Kheap (kheaproots h) (<[p := pr]> (prefs h)) (zset (sizebases h) blktype p) p (words h)).

(** ** Freeing blocks *)

(** The pageref of the page that [ptraddr] is in, or [NULL]. *)
Fixpoint find_owner (fuel : nat) (p ptraddr : Z) h : outcome Z :=
  match fuel with
  | O => Hang
  | S fuel =>
      if p =? 0 then Ok 0
      else
        pr ← deref (prefs h !! p);
        _ ← kassert (PR_BLOCKTYPE pr <? NSIZES);
        if (PR_PAGEADDR pr <=? ptraddr) && (ptraddr <? PR_PAGEADDR pr + PAGE_SIZE) then Ok p
        else find_owner fuel (next_all pr) ptraddr h
  end.

(** [None] if the address is not on a page of the pool; otherwise the heap and the page
    to give back, if any. *)
Definition subpage_kfree (ptraddr : Z) h : outcome (option (kheap * option Z)) :=
  p ← find_owner (list_fuel h) (allbase h) ptraddr h;
  if p =? 0 then Ok None
  else
    pr ← deref (prefs h !! p);
    let prpage := PR_PAGEADDR pr in
    let blktype := PR_BLOCKTYPE pr in
    size ← block_size blktype;
    let offset := ptraddr - prpage in
    _ ← kassert (negb ((PAGE_SIZE <=? offset) || negb (offset mod size =? 0)));
    h ← fill_deadbeef ptraddr size h;
    let fla := prpage + offset in
    h ← (if freelist_offset pr =? INVALID_OFFSET then kstore fla 0 h
         else
           h ← kstore fla (prpage + freelist_offset pr) h;
           _ ← kassert (negb (fla =? prpage + freelist_offset pr));
           Ok h);
    let n := u16 (nfree pr + 1) in
    let h := with_prefs (<[p := PageRef (next_samesize pr) (next_all pr) (pageaddr_and_blocktype pr) offset n]> (prefs h)) h in
    _ ← kassert (n <=? PAGE_SIZE / size);
    if n =? PAGE_SIZE / size then
      h ← remove_lists p blktype h;
      h ← freepageref p h;
      Ok (Some (h, Some prpage))
    else Ok (Some (h, None)).

(** ** The frame allocator

    [kp_ok k A]: the runs of pages [A], each an address and a number of pages, are
    allocated and not yet freed. *)
Class KPages (K : Type) := {
  kp_alloc : Z → K → outcome (Z * K);
  kp_free : Z → K → outcome K
}.

Class KPagesOk (K : Type) `{KPages K} := {
  kp_ok : K → list (Z * Z) → Prop;
  kp_perm k A B : A ≡ₚ B → kp_ok k A → kp_ok k B;
  kp_apart k a n b m A : kp_ok k ((a, n) :: (b, m) :: A) → a + 4096 * n ≤ b ∨ b + 4096 * m ≤ a;
  kp_range k a n A : kp_ok k ((a, n) :: A) → MIPS_KSEG0 < a ∧ a mod 4096 = 0 ∧ 1 ≤ n ∧ a + 4096 * n ≤ MIPS_KSEG1;
  kp_alloc_ok k A n : kp_ok k A →
    ∃ va k', kp_alloc n k = Ok (va, k') ∧ (va = 0 ∧ kp_ok k' A ∨ va ≠ 0 ∧ kp_ok k' ((va, n) :: A));
  kp_free_ok k a n A : kp_ok k ((a, n) :: A) → ∃ k', kp_free a k = Ok k' ∧ kp_ok k' A
}.

(** ** Threads *)

Inductive kpc :=
  | Idle
  | BigAlloc (sz : Z)
  | PageAlloc (sz blktype : Z)
  | GotPage (sz blktype prpage : Z)
  | RefPageAlloc (sz blktype prpage : Z) (slot : Z * Z)
  | RefPageGot (sz blktype prpage : Z) (slot : Z * Z) (va : Z)
  | RefPageFree (sz blktype prpage : Z) (slot : Z * Z) (va : Z)
  | RefPageBack (sz blktype prpage : Z) (slot : Z * Z)
  | PageFree (prpage : Z)
  | BigFree (ptr : Z).

(** What an idle thread calls, or a write of its own. *)
Inductive kcall := Cmalloc (sz : Z) | Cfree (ptr : Z) | Cwrite (a x : Z) | Continue.

Section system.
Context {K : Type} `{KPages K}.

(** [leaks] counts the pagerefs taken for which there was no page. *)
Record ksys := Ksys { heap : kheap; frames : K; threads : list kpc; live : gmap Z Z; leaks : nat }.

Implicit Types s : ksys.

Definition goto (t : nat) (c : kpc) s : ksys := Ksys (heap s) (frames s) (<[t := c]> (threads s)) (live s) (leaks s).
Definition with_heap x s : ksys := Ksys x (frames s) (threads s) (live s) (leaks s).
Definition with_frames x s : ksys := Ksys (heap s) x (threads s) (live s) (leaks s).
Definition with_live x s : ksys := Ksys (heap s) (frames s) (threads s) x (leaks s).

(** A block is handed to the client, or [NULL]. *)
Definition return_block (t : nat) (p sz : Z) s : ksys := goto t Idle (with_live (<[p := sz]> (live s)) s).

Definition malloc_start (t : nat) (sz : Z) s : outcome ksys :=
  if LARGEST_SUBPAGE_SIZE <=? sz then Ok (goto t (BigAlloc sz) s)
  else
    blktype ← blocktype sz;
    base ← deref (zget (sizebases (heap s)) blktype);
    found ← find_page (list_fuel (heap s)) base blktype (heap s);
    match found with
    | Some p => '(ptr, h) ← doalloc p (heap s); Ok (return_block t ptr sz (with_heap h s))
    | None => Ok (goto t (PageAlloc sz blktype) s)
    end.

(** The end of [allocpageref] and what follows it. *)
Definition use_pageref (t : nat) (sz blktype prpage : Z) (slot : Z * Z) s : outcome ksys :=
  p ← pageref_addr slot (heap s);
  if p =? 0 then Ok (goto t (PageFree prpage) (Ksys (heap s) (frames s) (threads s) (live s) (S (leaks s))))
  else '(ptr, h) ← new_page p prpage blktype (heap s); Ok (return_block t ptr sz (with_heap h s)).

Definition set_page (r va : Z) h : outcome kheap :=
  root ← deref (zget (kheaproots h) r);
  Ok (with_roots (zset (kheaproots h) r (Root va (pagerefs_inuse root) (numinuse root))) h).

Definition kfree_start (t : nat) (ptr : Z) s : outcome ksys :=
  if ptr =? 0 then Ok s
  else
    let s := with_live (delete ptr (live s)) s in
    result ← subpage_kfree ptr (heap s);
    match result with
    | None => Ok (goto t (BigFree ptr) s)
    | Some (h, None) => Ok (with_heap h s)
    | Some (h, Some prpage) => Ok (goto t (PageFree prpage) (with_heap h s))
    end.

Definition kstep (t : nat) (call : kcall) s : outcome ksys :=
  pc ← deref (threads s !! t);
  match pc with
  | Idle =>
      match call with
      | Cmalloc sz => malloc_start t sz s
      | Cfree ptr => kfree_start t ptr s
      | Cwrite a x => h ← kstore a x (heap s); Ok (with_heap h s)
      | Continue => Ok s
      end
  | BigAlloc sz =>
      '(address, k) ← kp_alloc (u32 (sz + PAGE_SIZE - 1) / PAGE_SIZE) (frames s);
      let s := with_frames k s in
      if address =? 0 then Ok (goto t Idle s)
      else
        _ ← kassert (address mod PAGE_SIZE =? 0);
        Ok (return_block t address sz s)
  | PageAlloc sz blktype =>
      '(prpage, k) ← kp_alloc 1 (frames s);
      let s := with_frames k s in
      if prpage =? 0 then Ok (goto t Idle s)
      else
        _ ← kassert (prpage mod PAGE_SIZE =? 0);
        Ok (goto t (GotPage sz blktype prpage) s)
  | GotPage sz blktype prpage =>
      '(found, h) ← claim_pageref (heap s);
      let s := with_heap h s in
      match found with
      | None => Ok (goto t (PageFree prpage) s)
      | Some slot =>
          p ← pageref_addr slot h;
          if p =? 0 then Ok (goto t (RefPageAlloc sz blktype prpage slot) s)
          else use_pageref t sz blktype prpage slot s
      end
  | RefPageAlloc sz blktype prpage slot =>
      '(va, k) ← kp_alloc 1 (frames s);
      Ok (goto t (RefPageGot sz blktype prpage slot va) (with_frames k s))
  | RefPageGot sz blktype prpage slot va =>
      if va =? 0 then use_pageref t sz blktype prpage slot s
      else
        _ ← kassert (va mod PAGE_SIZE =? 0);
        p ← pageref_addr slot (heap s);
        if negb (p =? 0) then Ok (goto t (RefPageFree sz blktype prpage slot va) s)
        else
          h ← set_page slot.1 va (heap s);
          use_pageref t sz blktype prpage slot (with_heap h s)
  | RefPageFree sz blktype prpage slot va =>
      k ← kp_free va (frames s);
      Ok (goto t (RefPageBack sz blktype prpage slot) (with_frames k s))
  | RefPageBack sz blktype prpage slot =>
      p ← pageref_addr slot (heap s);
      _ ← kassert (negb (p =? 0));
      use_pageref t sz blktype prpage slot s
  | PageFree prpage =>
      k ← kp_free prpage (frames s);
      Ok (goto t Idle (with_frames k s))
  | BigFree ptr =>
      _ ← kassert (ptr mod PAGE_SIZE =? 0);
      k ← kp_free ptr (frames s);
      Ok (goto t Idle (with_frames k s))
  end.

(** What clients may do: they free what they have and write to words of it. *)
Definition allowed (call : kcall) s : Prop :=
  match call with
  | Cmalloc sz => is_u32 sz
  | Cfree ptr => ptr = 0 ∨ is_Some (live s !! ptr)
  | Cwrite a _ => ∃ p sz, live s !! p = Some sz ∧ p ≤ a < p + sz ∧ a mod 4 = 0
  | Continue => True
  end.

(** A step of some thread, with a call that is allowed. *)
Inductive ksys_step : ksys → ksys → Prop :=
  | ksys_one t call s s' : (t < length (threads s))%nat → allowed call s → kstep t call s = Ok s' → ksys_step s s'.

(** [allowed], decided for the calls other than writes. *)
Definition allowedb (call : kcall) s : bool :=
  match call with
  | Cmalloc sz => (0 <=? sz) && (sz <? two32)
  | Cfree ptr => (ptr =? 0) || bool_decide (is_Some (live s !! ptr))
  | Cwrite _ _ => false
  | Continue => true
  end.

Fixpoint run_allowed (cs : list (nat * kcall)) s : option ksys :=
  match cs with
  | [] => Some s
  | (t, c) :: cs =>
      if (t <? length (threads s))%nat && allowedb c s then
        match kstep t c s with Ok s => run_allowed cs s | _ => None end
      else None
  end.

End system.

(** The heap at boot. *)
Definition kheap0 (w : Z → Z) : kheap :=
  Kheap (replicate 16 (Root 0 (replicate 8 0) 0)) ∅ (replicate 8 0) 0 w.

(** At boot no thread is in the allocator. *)
Definition ksys0 {K} (n : nat) (w : Z → Z) (k : K) : ksys := Ksys (kheap0 w) k (replicate n Idle) ∅ 0.
