(* ===== verification/KmallocInv.v ===== *)
(** * The invariant of the kernel heap

    The heap as a list of pages ([pinfo]), each with its pageref, its block type and the
    list of its free blocks, and the set of pagerefs in use; what each atomic section of
    Kmalloc does to them. *)

From stdpp Require Import base gmap list list_numbers.
From Stdlib Require Import ZArith Lia.
From S2P Require Import Prelude FrameTable Bitmap Kmalloc.
Open Scope Z_scope.

Record pinfo := PI { pi_slot : Z * Z; pi_pr : Z; pi_page : Z; pi_type : Z; pi_free : list Z }.

Implicit Types (h : kheap) (pr : pageref) (p : pinfo) (ps : list pinfo) (m : gmap Z pageref).

Definition set_free fl p : pinfo := PI (pi_slot p) (pi_pr p) (pi_page p) (pi_type p) fl.

Definition bsize (t : Z) : Z := default 0 (zget sizes t).
Definition nblocks_of (t : Z) : Z := PAGE_SIZE / bsize t.

(** ** Lists of pagerefs and free lists *)

Fixpoint chain (next : pageref → Z) m (a : Z) (l : list Z) : Prop :=
  match l with
  | [] => a = 0
  | b :: l => a = b ∧ b ≠ 0 ∧ ∃ x, m !! b = Some x ∧ chain next m (next x) l
  end.

Fixpoint free_list (w : Z → Z) (page : Z) (fl : list Z) : Prop :=
  match fl with
  | [] => True
  | o :: fl => w (page + o) = match fl with [] => 0 | o' :: _ => page + o' end ∧ free_list w page fl
  end.

Definition head_offset (fl : list Z) : Z := match fl with [] => INVALID_OFFSET | o :: _ => o end.

Definition is_page (a : Z) : Prop := MIPS_KSEG0 < a ∧ a mod 4096 = 0 ∧ a + 4096 ≤ MIPS_KSEG1.
Definition is_block (t o : Z) : Prop := 0 ≤ o < 4096 ∧ o mod bsize t = 0.

Record page_ok h p : Prop := {
  po_type : 0 ≤ pi_type p < 8;
  po_page : is_page (pi_page p);
  po_pref : ∃ x, prefs h !! pi_pr p = Some x ∧ pageaddr_and_blocktype x = pi_page p + pi_type p ∧
    freelist_offset x = head_offset (pi_free p) ∧ nfree x = zlen (pi_free p);
  po_blocks : Forall (is_block (pi_type p)) (pi_free p);
  po_nodup : NoDup (pi_free p);
  po_list : free_list (words h) (pi_page p) (pi_free p)
}.

Record heap_ok h ps : Prop := {
  ho_all : chain next_all (prefs h) (allbase h) (map pi_pr ps);
  ho_same t : 0 ≤ t < 8 → ∃ a, zget (sizebases h) t = Some a ∧
    chain next_samesize (prefs h) a (map pi_pr (filter (λ p, pi_type p = t) ps));
  ho_bases : zlen (sizebases h) = 8;
  ho_pages : Forall (page_ok h) ps;
  ho_prs : NoDup (map pi_pr ps);
  ho_distinct : NoDup (map pi_page ps)
}.

(** Every page has a block in use. *)
Definition busy p : Prop := zlen (pi_free p) < nblocks_of (pi_type p).

(** ** Sizes *)

Lemma type_cases t : 0 ≤ t < 8 → t ∈ seqZ 0 8.
Proof. intros Ht. apply elem_of_seqZ. lia. Qed.

Lemma bsize_ok t : 0 ≤ t < 8 → zget sizes t = Some (bsize t) ∧ 16 ≤ bsize t ≤ 2048 ∧ bsize t mod 16 = 0 ∧ bsize t * nblocks_of t = 4096 ∧ 2 ≤ nblocks_of t.
Proof.
  intros Ht%type_cases. revert t Ht. apply Forall_forall. repeat constructor; done || lia.
Qed.

(** The offsets of the first [k + 1] blocks, the last one first. *)
Fixpoint down (size : Z) (k : nat) : list Z :=
  match k with
  | O => [0]
  | S k => Z.of_nat (S k) * size :: down size k
  end.

Lemma elem_of_down size k o : o ∈ down size k ↔ ∃ i, 0 ≤ i ≤ Z.of_nat k ∧ o = i * size.
Proof.
  induction k as [|k IH]; cbn [down].
  - rewrite list_elem_of_singleton. split; [intros ->; exists 0; lia|]. intros (i & Hi & ->). replace i with 0 by lia. lia.
  - rewrite elem_of_cons, IH. split.
    + intros [->|(i & Hi & ->)]; [exists (Z.of_nat (S k)); lia|exists i; lia].
    + intros (i & Hi & ->). destruct (decide (i = Z.of_nat (S k))) as [->|]; [by left|right]. exists i. lia.
Qed.

Lemma down_NoDup size k : 0 < size → NoDup (down size k).
Proof.
  intros Hs. induction k as [|k IH]; cbn [down]; [apply NoDup_singleton|]. apply NoDup_cons. split; [|done].
  intros (i & Hi & E)%elem_of_down. nia.
Qed.

Lemma down_length size k : zlen (down size k) = Z.of_nat k + 1.
Proof. induction k as [|k IH]; [done|]. cbn [down]. rewrite zlen_cons, IH. lia. Qed.

Lemma down_head size k : ∃ l, down size k = Z.of_nat k * size :: l.
Proof. destruct k; by eexists. Qed.

Lemma down_blocks t o : 0 ≤ t < 8 → o ∈ down (bsize t) (Z.to_nat (nblocks_of t - 1)) ↔ is_block t o.
Proof.
  intros Ht. destruct (bsize_ok t Ht) as (_ & Hs & _ & Hn & Hn2). rewrite elem_of_down, Z2Nat.id by lia. unfold is_block. split.
  - intros (i & Hi & ->). rewrite Z.mod_mul by lia. nia.
  - intros [Ho Hm]. exists (o / bsize t). pose proof (Z.div_mod o (bsize t) ltac:(lia)). rewrite Hm in *. nia.
Qed.

Lemma free_count t fl : 0 ≤ t < 8 → Forall (is_block t) fl → NoDup fl → zlen fl ≤ nblocks_of t.
Proof.
  intros Ht Hb Hnd. destruct (bsize_ok t Ht) as (_ & _ & _ & _ & Hn). pose proof (down_length (bsize t) (Z.to_nat (nblocks_of t - 1))) as Hl.
  assert (fl ⊆ down (bsize t) (Z.to_nat (nblocks_of t - 1))) as Hsub by (intros o Ho; apply down_blocks; [done|]; rewrite Forall_forall in Hb; by apply Hb).
  pose proof (submseteq_length _ _ (NoDup_submseteq _ _ Hnd Hsub)). unfold zlen in *. lia.
Qed.

Lemma u16_id x : 0 ≤ x < 65536 → u16 x = x.
Proof. intros Hx. unfold u16. by apply Z.mod_small. Qed.

Lemma nblocks_small t : 0 ≤ t < 8 → nblocks_of t ≤ 256.
Proof. intros Ht. destruct (bsize_ok t Ht) as (_ & Hs & _ & Hn & _). nia. Qed.

Lemma block_size_ok t : 0 ≤ t < 8 → block_size t = Ok (bsize t).
Proof. intros Ht. unfold block_size. by rewrite (proj1 (bsize_ok t Ht)). Qed.

(** [blocktype] finds the smallest size that is enough. *)
Lemma blocktype_ok sz : 0 ≤ sz ≤ 2048 → ∃ t, blocktype sz = Ok t ∧ 0 ≤ t < 8 ∧ sz ≤ bsize t.
Proof.
  intros Hsz. unfold blocktype, NSIZES. change (seqZ 0 8) with [0; 1; 2; 3; 4; 5; 6; 7]. cbn [blocktype_loop block_size].
  repeat match goal with
  | |- context [block_size ?i] => change (block_size i) with (Ok (bsize i)); rewrite bind_of_Ok; destruct (Z.leb_spec sz (bsize i)); [exists i; split; [done|split; [lia|done]]|]
  end. change (bsize 7) with 2048 in *. lia.
Qed.

Lemma pab_ok pg t : is_page pg → 0 ≤ t < 8 → MKPAB pg t = pg + t ∧ Z.land (pg + t) PAGE_FRAME = pg ∧ Z.land (pg + t) 4095 = t.
Proof.
  unfold is_page, MIPS_KSEG0, MIPS_KSEG1, MKPAB, PAGE_FRAME. intros (H1 & H2 & H3) Ht.
  assert (is_u32 pg ∧ is_u32 (pg + t)) as [Hu Hu'] by width.
  rewrite !land_page_frame, !land_page_offset by done.
  assert (pg / 4096 * 4096 = pg) as E by (Z.to_euclidean_division_equations; lia). rewrite E. rewrite (Z.mod_small t) by lia.
  split; [rewrite <-E at 1; rewrite lor_page by lia; lia|]. Z.to_euclidean_division_equations. lia.
Qed.

Lemma kseg0_page pg o : is_page pg → 0 ≤ o < 4096 → in_kseg0 (pg + o) = true.
Proof. unfold is_page, in_kseg0. intros (H1 & _ & H3) Ho. rewrite andb_true_iff, Z.leb_le, Z.ltb_lt. lia. Qed.

(** Pages are disjoint. *)
Lemma pages_apart a b o o' : is_page a → is_page b → a ≠ b → 0 ≤ o < 4096 → 0 ≤ o' < 4096 → a + o ≠ b + o'.
Proof. unfold is_page. intros (_ & H1 & _) (_ & H2 & _) Hne Ho Ho'. Z.to_euclidean_division_equations. lia. Qed.

(** ** Frames *)

Lemma chain_ext next m m' a l : (∀ b, b ∈ l → next <$> m' !! b = next <$> m !! b) → chain next m a l → chain next m' a l.
Proof.
  revert a. induction l as [|b l IH]; intros a Hm; [done|]. intros (-> & Hb & x & Hx & Hc). split; [done|]. split; [done|].
  pose proof (Hm b ltac:(by left)) as E. rewrite Hx in E. destruct (m' !! b) as [x'|]; [|done]. injection E as E. exists x'. split; [done|]. rewrite E.
  apply IH; [|done]. intros c Hc'. apply Hm. by right.
Qed.

Lemma chain_fuel next m a l : chain next m a l → NoDup l → (length l ≤ size m)%nat.
Proof.
  intros Hc Hnd. assert (list_to_set l ⊆ dom m) as Hsub.
  { intros b Hb%elem_of_list_to_set. apply elem_of_dom. clear Hnd. revert a Hc. induction l as [|c l IH]; intros a; [by apply elem_of_nil in Hb|].
    intros (_ & _ & x & Hx & Hc). apply elem_of_cons in Hb as [->|Hb]; [by eexists|by eapply IH]. }
  apply subseteq_size in Hsub. by rewrite size_dom, size_list_to_set in Hsub.
Qed.

Lemma free_list_ext w w' pg fl : (∀ o, o ∈ fl → w' (pg + o) = w (pg + o)) → free_list w pg fl → free_list w' pg fl.
Proof.
  induction fl as [|o fl IH]; intros Hw; [done|]. intros [H1 H2]. split; [by rewrite Hw by (by left)|]. apply IH; [|done]. intros o' Ho'. apply Hw. by right.
Qed.

Lemma page_ext h h' p : prefs h' !! pi_pr p = prefs h !! pi_pr p → (∀ o, 0 ≤ o < 4096 → words h' (pi_page p + o) = words h (pi_page p + o)) →
  page_ok h p → page_ok h' p.
Proof.
  intros Hp Hw [H1 H2 H3 H4 H5 H6]. constructor; try done; [by rewrite Hp|]. eapply free_list_ext; [|exact H6].
  intros o Ho. apply Hw. rewrite Forall_forall in H4. by apply H4.
Qed.

(** The pages of a list other than one of them. *)
Lemma elem_split ps1 p ps2 q : q ∈ ps1 ++ p :: ps2 → q = p ∨ q ∈ ps1 ++ ps2.
Proof. rewrite !elem_of_app, elem_of_cons. tauto. Qed.

Lemma others_differ {A} (f : pinfo → A) ps1 p ps2 q : NoDup (map f (ps1 ++ p :: ps2)) → q ∈ ps1 ++ ps2 → f q ≠ f p.
Proof.
  rewrite map_app. cbn [map]. intros Hnd Hq E. apply NoDup_app in Hnd as (_ & H1 & [H2 _]%NoDup_cons).
  apply elem_of_app in Hq as [Hq|Hq].
  - apply (H1 (f p)); [|by left]. rewrite <-E. by apply list_elem_of_fmap_2.
  - apply H2. rewrite <-E. by apply list_elem_of_fmap_2.
Qed.

(** One page changes: its free list and the words in it. *)
Lemma heap_change h h' ps1 p ps2 fl : heap_ok h (ps1 ++ p :: ps2) → kheaproots h' = kheaproots h → sizebases h' = sizebases h → allbase h' = allbase h →
  (∀ b, b ≠ pi_pr p → prefs h' !! b = prefs h !! b) → (∀ x, prefs h !! pi_pr p = Some x → prefs h' !! pi_pr p =
    Some (PageRef (next_samesize x) (next_all x) (pageaddr_and_blocktype x) (head_offset fl) (zlen fl))) →
  (∀ a, ¬ pi_page p ≤ a < pi_page p + 4096 → words h' a = words h a) →
  Forall (is_block (pi_type p)) fl → NoDup fl → free_list (words h') (pi_page p) fl →
  heap_ok h' (ps1 ++ set_free fl p :: ps2).
Proof.
  intros [H1 H2 H3 H4 H5 H6] E1 E2 E3 Hm Hp Hw Hb Hnd Hfl. assert (page_ok h p) as Hok by (rewrite Forall_forall in H4; apply H4; set_solver).
  destruct (po_pref _ _ Hok) as (x & Hx & X1 & X2 & X3). pose proof (Hp x Hx) as Hx'.
  assert (∀ {A} (f : pinfo → A), (∀ q fl, f (set_free fl q) = f q) → map f (ps1 ++ set_free fl p :: ps2) = map f (ps1 ++ p :: ps2)) as Hmap.
  { intros A f Hf. rewrite !map_app. cbn [map]. by rewrite Hf. }
  assert (∀ next, (∀ x, next (PageRef (next_samesize x) (next_all x) (pageaddr_and_blocktype x) (head_offset fl) (zlen fl)) = next x) →
    ∀ a l, chain next (prefs h) a l → chain next (prefs h') a l) as Hch.
  { intros next Hn a l. apply chain_ext. intros b _. destruct (decide (b = pi_pr p)) as [->|Hne]; [|by rewrite Hm].
    rewrite Hx', Hx. cbn. by rewrite Hn. }
  constructor; [|intros t Ht|congruence| |by rewrite Hmap..].
  - rewrite E3, Hmap by done. by apply Hch.
  - destruct (H2 t Ht) as (a & Ha & Hc). exists a. rewrite E2. split; [done|]. apply Hch; [done|]. revert Hc.
    rewrite !filter_app, !map_app, !filter_cons. cbn [set_free pi_type]. by case_decide.
  - rewrite !Forall_app, Forall_cons in *. destruct H4 as (P1 & P2 & P3).
    assert (∀ q, q ∈ ps1 ++ ps2 → page_ok h q → page_ok h' q) as Hother.
    { intros q Hq Hqok. assert (pi_pr q ≠ pi_pr p) as Hd1 by (by eapply (others_differ pi_pr)). assert (pi_page q ≠ pi_page p) as Hd2 by (by eapply (others_differ pi_page)).
      apply (page_ext h); [by rewrite Hm| |done]. intros o Ho. apply Hw. pose proof (po_page _ _ Hqok) as (_ & M1 & _). pose proof (po_page _ _ Hok) as (_ & M2 & _).
      Z.to_euclidean_division_equations. lia. }
    split; [|split]; [| |]; try (rewrite Forall_forall in *; intros q Hq; apply Hother; [set_solver|auto]).
    destruct Hok as [O1 O2 _ _ _ _]. constructor; cbn [set_free pi_type pi_page pi_pr pi_free]; try done. eexists. split; [exact Hx'|]. cbn. done.
Qed.

(** ** Taking a block *)

Lemma heap_page h ps p : heap_ok h ps → p ∈ ps → page_ok h p.
Proof. intros H Hp. pose proof (ho_pages _ _ H) as HF. rewrite Forall_forall in HF. by apply HF. Qed.

Lemma find_page_ok h ps t a l : heap_ok h ps → (∀ p, p ∈ l → p ∈ ps ∧ pi_type p = t) → chain next_samesize (prefs h) a (map pi_pr l) →
  ∀ fuel, (length l < fuel)%nat →
  (∃ p, p ∈ ps ∧ pi_type p = t ∧ pi_free p ≠ [] ∧ find_page fuel a t h = Ok (Some (pi_pr p))) ∨ find_page fuel a t h = Ok None.
Proof.
  intros Hok. revert a. induction l as [|p l IH]; intros a Hl Hc [|fuel] Hf; cbn [length] in Hf; try lia; cbn [find_page map chain] in *.
  - subst a. by right.
  - destruct Hc as (-> & Hne & x & Hx & Hc). rewrite (proj2 (Z.eqb_neq _ _) Hne), Hx. cbn [deref]. rewrite bind_of_Ok.
    destruct (Hl p) as [Hp Ht]; [by left|]. pose proof (heap_page _ _ _ Hok Hp) as [O1 O2 (x' & Hx' & X1 & X2 & X3) _ _ _]. rewrite Hx in Hx'. injection Hx' as <-.
    unfold PR_BLOCKTYPE. rewrite X1, (proj2 (proj2 (pab_ok _ _ O2 O1))), Ht, Z.eqb_refl. cbn [kassert]. rewrite bind_of_Ok, X3.
    destruct (Z.ltb_spec 0 (zlen (pi_free p))) as [Hz|Hz].
    + left. exists p. split; [done|]. split; [done|]. split; [|done]. intros E. rewrite E in Hz. unfold zlen in Hz. cbn in Hz. lia.
    + apply IH; [|done|lia]. intros q Hq. apply Hl. by right.
Qed.

Lemma find_page_list h ps t : heap_ok h ps → 0 ≤ t < 8 → ∃ base, zget (sizebases h) t = Some base ∧
  ((∃ p, p ∈ ps ∧ pi_type p = t ∧ pi_free p ≠ [] ∧ find_page (list_fuel h) base t h = Ok (Some (pi_pr p))) ∨ find_page (list_fuel h) base t h = Ok None).
Proof.
  intros Hok Ht. destruct (ho_same _ _ Hok t Ht) as (a & Ha & Hc). exists a. split; [done|].
  eapply (find_page_ok h ps t a _ Hok); [|exact Hc|].
  - intros p. rewrite list_elem_of_filter. tauto.
  - apply le_n_S. rewrite <-(length_map pi_pr). eapply chain_fuel; [exact Hc|].
    eapply sublist_NoDup; [apply (ho_prs _ _ Hok)|]. apply fmap_sublist, sublist_filter.
Qed.

Lemma doalloc_ok h ps1 p ps2 o fl : heap_ok h (ps1 ++ p :: ps2) → pi_free p = o :: fl →
  ∃ h', doalloc (pi_pr p) h = Ok (pi_page p + o, h') ∧ heap_ok h' (ps1 ++ set_free fl p :: ps2) ∧ kheaproots h' = kheaproots h ∧ words h' = words h.
Proof.
  intros Hok Hfree. pose proof (heap_page _ _ p Hok ltac:(set_solver)) as [O1 O2 (x & Hx & X1 & X2 & X3) O4 O5 O6]. pose proof (free_count _ _ O1 O4 O5) as Hcnt. rewrite Hfree in *.
  apply Forall_cons in O4 as [Ho O4]. apply NoDup_cons in O5 as [Hno O5]. destruct O6 as [Hw O6]. destruct (pab_ok _ _ O2 O1) as (_ & Epg & _).
  unfold doalloc. rewrite Hx. cbn [deref]. rewrite bind_of_Ok. cbn [head_offset] in X2. unfold PR_PAGEADDR. rewrite X1, X2, X3, Epg.
  destruct Ho as [Ho Hom]. unfold PAGE_SIZE. rewrite (proj2 (Z.ltb_lt o 4096)) by lia. cbn [kassert]. rewrite bind_of_Ok. unfold kload. rewrite kseg0_page by done.
  pose proof (nblocks_small _ O1) as Hsm. rewrite bind_of_Ok, Hw. rewrite zlen_cons in *. rewrite Z.add_simpl_r, u16_id by (pose proof (zlen_nonneg fl); lia).
  assert (∃ off, (if negb (match fl with [] => 0 | o' :: _ => pi_page p + o' end =? 0)
      then _ ← kassert (0 <? zlen fl); _ ← kassert (u32 (match fl with [] => 0 | o' :: _ => pi_page p + o' end - pi_page p) <? 4096);
           Ok (u32 (match fl with [] => 0 | o' :: _ => pi_page p + o' end - pi_page p))
      else _ ← kassert (zlen fl =? 0); Ok INVALID_OFFSET) = Ok off ∧ off = head_offset fl) as (off & -> & ->).
  { destruct fl as [|o' fl]; [by eexists|]. apply Forall_cons in O4 as [[Ho' _] _]. destruct O2 as (M1 & _ & M3). unfold MIPS_KSEG0 in M1.
    rewrite (proj2 (Z.eqb_neq _ _)) by lia. cbn [negb]. rewrite (proj2 (Z.ltb_lt 0 (zlen (o' :: fl)))) by (rewrite zlen_cons; pose proof (zlen_nonneg fl); lia). cbn [kassert]. rewrite bind_of_Ok.
    replace (pi_page p + o' - pi_page p) with o' by lia. rewrite u32_id, (proj2 (Z.ltb_lt o' 4096)) by (lia || width). by eexists. }
  rewrite bind_of_Ok. eexists. split; [done|]. split; [|done].
  apply (heap_change h); try done; cbn [prefs with_prefs].
  - intros b Hb. by rewrite lookup_insert_ne.
  - intros x' Hx'. rewrite Hx in Hx'. injection Hx' as <-. by rewrite lookup_insert_eq, X1.
Qed.

(** ** A new page *)

Lemma kstore_ok a x h : in_kseg0 a = true → kstore a x h = Ok (with_words (λ b, if b =? a then x else words h b) h).
Proof. intros E. unfold kstore. by rewrite E. Qed.

(** Only the words of one page differ. *)
Definition in_page_only (pg : Z) h h' : Prop :=
  kheaproots h' = kheaproots h ∧ prefs h' = prefs h ∧ sizebases h' = sizebases h ∧ allbase h' = allbase h ∧
  ∀ a, ¬ pg ≤ a < pg + 4096 → words h' a = words h a.

Lemma in_page_trans pg h1 h2 h3 : in_page_only pg h1 h2 → in_page_only pg h2 h3 → in_page_only pg h1 h3.
Proof.
  intros (A1 & A2 & A3 & A4 & A5) (B1 & B2 & B3 & B4 & B5). split; [congruence|]. split; [congruence|]. split; [congruence|]. split; [congruence|].
  intros a Ha. by rewrite B5, A5.
Qed.

Lemma in_page_store pg a x h : pg ≤ a < pg + 4096 → in_page_only pg h (with_words (λ b, if b =? a then x else words h b) h).
Proof. intros Ha. split_and!; try done. intros b Hb. cbn. by rewrite (proj2 (Z.eqb_neq b a)) by lia. Qed.

Lemma chain_blocks_ok pg size n : is_page pg → 0 < size → ∀ k h, (Z.of_nat (k + n) + 1) * size ≤ 4096 → free_list (words h) pg (down size k) →
  ∃ h', chain_blocks (seqZ (Z.of_nat k + 1) (Z.of_nat n)) (pg + Z.of_nat k * size) pg size h = Ok (pg + Z.of_nat (k + n) * size, h') ∧
    free_list (words h') pg (down size (k + n)) ∧ in_page_only pg h h'.
Proof.
  intros Hpg Hs. induction n as [|n IH]; intros k h Hk Hfl.
  { exists h. rewrite Nat.add_0_r. cbn. by split. }
  rewrite (Nat2Z.inj_succ n), seqZ_cons, Z.pred_succ by lia. cbn [chain_blocks]. replace (Z.of_nat k + 1 - 1) with (Z.of_nat k) by lia.
  set (a := pg + (Z.of_nat k + 1) * size). assert (pg ≤ a < pg + 4096) as Ha by (subst a; nia).
  rewrite kstore_ok by (replace a with (pg + (a - pg)) by lia; apply kseg0_page; [done|lia]). rewrite bind_of_Ok.
  rewrite (proj2 (Z.eqb_neq a (pg + Z.of_nat k * size))) by (subst a; lia). cbn [negb kassert]. rewrite bind_of_Ok.
  set (h1 := with_words _ h). destruct (IH (S k) h1) as (h' & E & F & P).
  - by replace (S k + n)%nat with (k + S n)%nat by lia.
  - cbn [down free_list]. replace (Z.of_nat (S k)) with (Z.of_nat k + 1) by lia. fold a. split.
    + cbn. rewrite Z.eqb_refl. by destruct (down_head size k) as [l ->].
    + eapply free_list_ext; [|exact Hfl]. intros o (i & Hi & ->)%elem_of_down. cbn. rewrite (proj2 (Z.eqb_neq _ _)); [done|]. subst a. nia.
  - replace (k + S n)%nat with (S k + n)%nat by lia. exists h'. rewrite Nat2Z.inj_succ, <-Z.add_1_r in E. split; [exact E|]. split; [done|].
    eapply in_page_trans; [by apply in_page_store|exact P].
Qed.

Lemma heap_push h ps slot (pr : Z) pg t fl : heap_ok h ps → 0 ≤ t < 8 → is_page pg → pr ≠ 0 → pr ∉ map pi_pr ps → pg ∉ map pi_page ps →
  Forall (is_block t) fl → NoDup fl → free_list (words h) pg fl →
  ∃ base, zget (sizebases h) t = Some base ∧
    heap_ok (Kheap (kheaproots h) (<[pr := PageRef base (allbase h) (MKPAB pg t) (head_offset fl) (zlen fl)]> (prefs h)) (zset (sizebases h) t pr) pr (words h))
      (PI slot pr pg t fl :: ps).
Proof.
  intros [H1 H2 H3 H4 H5 H6] Ht Hpg Hpr Hfresh Hpgf Hb Hnd Hfl. destruct (H2 t Ht) as (base & Hbase & Hc). exists base. split; [done|].
  set (x := PageRef _ _ _ _ _). assert (∀ next a l, pr ∉ l → chain next (prefs h) a l → chain next (<[pr := x]> (prefs h)) a l) as Hch.
  { intros next a l Hl. apply chain_ext. intros b Hb'. rewrite lookup_insert_ne; [done|]. intros ->. done. }
  assert (∀ t, pr ∉ map pi_pr (filter (λ p, pi_type p = t) ps)) as Hff.
  { intros t' Hin. apply Hfresh. apply list_elem_of_fmap in Hin as (q & -> & Hq). apply list_elem_of_filter in Hq as [_ Hq]. by apply list_elem_of_fmap_2. }
  constructor; cbn [prefs allbase sizebases words map pi_pr pi_page].
  - split; [done|]. split; [done|]. exists x. rewrite lookup_insert_eq. split; [done|]. by apply Hch.
  - intros t' Ht'. rewrite zget_zset. destruct (decide (t' = t)) as [->|Hne].
    + exists pr. rewrite decide_True by lia. split; [done|]. rewrite filter_cons_True by done. split; [done|]. split; [done|]. exists x.
      rewrite lookup_insert_eq. split; [done|]. by apply Hch.
    + destruct (H2 t' Ht') as (a & Ha & Hc'). exists a. rewrite decide_False by lia. split; [done|]. rewrite filter_cons_False by (cbn; congruence). by apply Hch.
  - by rewrite zlen_zset.
  - apply Forall_cons. split.
    + constructor; cbn [pi_type pi_page pi_pr pi_free prefs words]; try done. exists x. rewrite lookup_insert_eq. split; [done|]. by rewrite <-(proj1 (pab_ok _ _ Hpg Ht)).
    + apply Forall_forall. intros q Hq. rewrite Forall_forall in H4. apply (page_ext h); [|done|by apply H4]. cbn. rewrite lookup_insert_ne; [done|]. intros ->.
      apply Hfresh. by apply list_elem_of_fmap_2.
  - by apply NoDup_cons.
  - by apply NoDup_cons.
Qed.

(** The words matter only where a free block begins. *)
Lemma heap_words h h' ps : heap_ok h ps → prefs h' = prefs h → sizebases h' = sizebases h → allbase h' = allbase h →
  (∀ p o, p ∈ ps → o ∈ pi_free p → words h' (pi_page p + o) = words h (pi_page p + o)) → heap_ok h' ps.
Proof.
  intros [H1 H2 H3 H4 H5 H6] E1 E2 E3 Hw. constructor; try done; [by rewrite E1, E3|by rewrite E1, E2|by rewrite E2|].
  apply Forall_forall. intros p Hp. rewrite Forall_forall in H4. destruct (H4 p Hp) as [O1 O2 O3 O4 O5 O6]. constructor; try done; [by rewrite E1|].
  eapply free_list_ext; [|exact O6]. intros o Ho. by apply Hw.
Qed.

Lemma heap_in_page h h' ps pg : heap_ok h ps → in_page_only pg h h' → is_page pg → pg ∉ map pi_page ps → heap_ok h' ps.
Proof.
  intros Hok (E1 & E2 & E3 & E4 & Hw) Hpg Hf. apply (heap_words h); try done. intros p o Hp Ho. apply Hw.
  destruct (heap_page _ _ _ Hok Hp) as [_ O2 _ O4 _ _]. rewrite Forall_forall in O4. destruct (O4 o Ho) as [Hlt _].
  intros Hin. apply (pages_apart (pi_page p) pg o (pi_page p + o - pg)); try done; [|lia|lia]. intros E. apply Hf. rewrite <-E. by apply list_elem_of_fmap_2.
Qed.

Lemma new_page_ok h ps slot (pr : Z) pg t : heap_ok h ps → 0 ≤ t < 8 → is_page pg → pr ≠ 0 → pr ∉ map pi_pr ps → pg ∉ map pi_page ps →
  ∃ o fl h', new_page pr pg t h = Ok (pg + o, h') ∧ heap_ok h' (PI slot pr pg t fl :: ps) ∧ kheaproots h' = kheaproots h ∧ (∀ a, ¬ pg ≤ a < pg + 4096 → words h' a = words h a) ∧
    (o ∉ fl) ∧ (∀ o', o' = o ∨ o' ∈ fl ↔ is_block t o') ∧ zlen fl = nblocks_of t - 1.
Proof.
  intros Hok Ht Hpg Hpr Hf1 Hf2. destruct (bsize_ok t Ht) as (_ & Hs & _ & Hn & Hn2). unfold new_page. rewrite block_size_ok, bind_of_Ok by done.
  fold (nblocks_of t). pose proof (nblocks_small t Ht) as Hsm. rewrite (u16_id (nblocks_of t)) by lia. pose proof (kseg0_page pg 0 Hpg ltac:(lia)) as Hk. rewrite Z.add_0_r in Hk. rewrite kstore_ok, bind_of_Ok by done.
  set (h1 := with_words _ h). set (n := Z.to_nat (nblocks_of t - 1)).
  destruct (chain_blocks_ok pg (bsize t) n Hpg ltac:(lia) 0 h1) as (h2 & E & F & P).
  { subst n. rewrite Nat.add_0_l, Z2Nat.id by lia. lia. }
  { cbn. by rewrite Z.add_0_r, Z.eqb_refl. }
  replace (nblocks_of t - 1) with (Z.of_nat n) by (subst n; lia). rewrite Nat.add_0_l in *. rewrite Z.mul_0_l, Z.add_0_r, Z.add_0_l in E. rewrite E, bind_of_Ok.
  replace (pg + Z.of_nat n * bsize t - pg) with (Z.of_nat n * bsize t) by lia. rewrite u16_id by (subst n; nia). rewrite Z.eqb_refl. cbn [kassert]. rewrite bind_of_Ok.
  assert (in_page_only pg h h2) as P' by (eapply in_page_trans; [apply in_page_store|exact P]; lia).
  pose proof (heap_in_page h h2 ps pg Hok P' Hpg Hf2) as Hok2. destruct P' as (A1 & A2 & A3 & A4 & A5). destruct (down_head (bsize t) n) as [l El].
  pose proof (down_NoDup (bsize t) n ltac:(lia)) as Hnd. pose proof (down_length (bsize t) n) as Hlen.
  assert (∀ o, o ∈ down (bsize t) n ↔ is_block t o) as Hin by (intros o; by apply down_blocks).
  destruct (heap_push h2 ps slot pr pg t (down (bsize t) n) Hok2 Ht Hpg Hpr Hf1 Hf2) as (base & Hb & Hok3); try done.
  { apply Forall_forall. intros o. apply Hin. }
  rewrite Hb. cbn [deref]. rewrite bind_of_Ok. rewrite El in *. cbn [head_offset] in Hok3. rewrite Hlen in Hok3. replace (Z.of_nat n + 1) with (nblocks_of t) in Hok3 by (subst n; lia).
  destruct (doalloc_ok _ [] _ ps _ _ Hok3 eq_refl) as (h' & E' & Hok4 & R & W). exists (Z.of_nat n * bsize t), l, h'.
  split; [exact E'|]. split; [exact Hok4|]. split; [by rewrite R|]. split; [intros a Ha; rewrite W; by apply A5|].
  apply NoDup_cons in Hnd as [Hno _]. split; [done|]. split; [intros o; rewrite <-Hin, elem_of_cons; done|]. rewrite zlen_cons in Hlen. lia.
Qed.

(** ** Freeing a block *)

Lemma find_owner_ok h ps a l ptr : heap_ok h ps → (∀ p, p ∈ l → p ∈ ps) → chain next_all (prefs h) a (map pi_pr l) →
  ∀ fuel, (length l < fuel)%nat →
  (∃ p, p ∈ l ∧ pi_page p ≤ ptr < pi_page p + 4096 ∧ find_owner fuel a ptr h = Ok (pi_pr p)) ∨
  (∀ p, p ∈ l → ¬ pi_page p ≤ ptr < pi_page p + 4096) ∧ find_owner fuel a ptr h = Ok 0.
Proof.
  intros Hok. revert a. induction l as [|p l IH]; intros a Hl Hc [|fuel] Hf; cbn [length] in Hf; try lia; cbn [find_owner map chain] in *.
  { subst a. right. split; [|done]. intros p Hp. by apply elem_of_nil in Hp. }
  destruct Hc as (-> & Hne & x & Hx & Hc). rewrite (proj2 (Z.eqb_neq _ _) Hne), Hx. cbn [deref]. rewrite bind_of_Ok.
  destruct (heap_page _ _ p Hok ltac:(apply Hl; by left)) as [O1 O2 (x' & Hx' & X1 & _) _ _ _]. rewrite Hx in Hx'. injection Hx' as <-.
  destruct (pab_ok _ _ O2 O1) as (_ & Epg & Et). unfold PR_BLOCKTYPE, PR_PAGEADDR. rewrite X1, Epg, Et.
  unfold NSIZES. rewrite (proj2 (Z.ltb_lt _ 8)) by lia. cbn [kassert]. rewrite bind_of_Ok. unfold PAGE_SIZE.
  destruct (decide (pi_page p ≤ ptr < pi_page p + 4096)) as [Hin|Hout].
  - left. exists p. split; [by left|]. split; [done|]. by rewrite (proj2 (Z.leb_le _ _)), (proj2 (Z.ltb_lt _ _)) by lia.
  - replace ((pi_page p <=? ptr) && (ptr <? pi_page p + 4096)) with false by (symmetry; apply andb_false_iff; rewrite Z.leb_gt, Z.ltb_ge; lia).
    destruct (IH (next_all x) ltac:(intros q Hq; apply Hl; by right) Hc fuel ltac:(lia)) as [(q & Hq & Hq')|[Hq E]].
    + left. exists q. split; [by right|done].
    + right. split; [|done]. intros q [->|Hq']%elem_of_cons; [done|by apply Hq].
Qed.

Lemma find_owner_list h ps ptr : heap_ok h ps →
  (∃ p, p ∈ ps ∧ pi_page p ≤ ptr < pi_page p + 4096 ∧ find_owner (list_fuel h) (allbase h) ptr h = Ok (pi_pr p)) ∨
  (∀ p, p ∈ ps → ¬ pi_page p ≤ ptr < pi_page p + 4096) ∧ find_owner (list_fuel h) (allbase h) ptr h = Ok 0.
Proof.
  intros Hok. apply (find_owner_ok h ps _ ps); [done|done|by apply ho_all|]. apply le_n_S. rewrite <-(length_map pi_pr).
  exact (chain_fuel _ _ _ _ (ho_all _ _ Hok) (ho_prs _ _ Hok)).
Qed.

Lemma fill_words_ok pg ptr is_ : is_page pg → (∀ i, i ∈ is_ → pg ≤ ptr + 4 * i < pg + 4096) → ∀ h,
  ∃ h', fill_words is_ ptr h = Ok h' ∧ in_page_only pg h h' ∧ (∀ a, (∀ i, i ∈ is_ → a ≠ ptr + 4 * i) → words h' a = words h a).
Proof.
  intros Hpg. induction is_ as [|i is_ IH]; intros Hi h; cbn [fill_words].
  - exists h. by split_and!.
  - pose proof (Hi i ltac:(by left)) as Hii. rewrite kstore_ok by (replace (ptr + 4 * i) with (pg + (ptr + 4 * i - pg)) by lia; apply kseg0_page; [done|lia]). rewrite bind_of_Ok.
    destruct (IH ltac:(intros j Hj; apply Hi; by right) (with_words (λ b, if b =? ptr + 4 * i then 0xdeadbeef else words h b) h)) as (h' & E & P & W).
    exists h'. split; [done|]. split; [eapply in_page_trans; [by apply in_page_store|exact P]|].
    intros a Ha. rewrite W by (intros j Hj; apply Ha; by right). cbn. by rewrite (proj2 (Z.eqb_neq a _)) by (apply Ha; by left).
Qed.

Lemma block_end t o : 0 ≤ t < 8 → is_block t o → o + bsize t ≤ 4096.
Proof.
  intros Ht [Ho Hm]. destruct (bsize_ok t Ht) as (_ & Hs & _ & Hn & _). pose proof (Z.div_mod o (bsize t) ltac:(lia)) as D. rewrite Hm in D.
  assert (o / bsize t < nblocks_of t) by (apply (Z.mul_lt_mono_pos_l (bsize t)); lia). nia.
Qed.

Lemma fill_deadbeef_ok pg o t h : is_page pg → 0 ≤ t < 8 → is_block t o →
  ∃ h', fill_deadbeef (pg + o) (bsize t) h = Ok h' ∧ in_page_only pg h h' ∧ (∀ a, ¬ pg + o ≤ a < pg + o + bsize t → words h' a = words h a).
Proof.
  intros Hpg Ht [Ho Hm]. destruct (bsize_ok t Ht) as (_ & Hs & _ & Hn & _). pose proof (block_end t o Ht (conj Ho Hm)) as Hend.
  pose proof (Z.div_mod (bsize t) 4 ltac:(lia)) as D. pose proof (Z.mod_pos_bound (bsize t) 4 ltac:(lia)) as D'.
  destruct (fill_words_ok pg (pg + o) (seqZ 0 (bsize t / 4)) Hpg) with h as (h' & E & P & W).
  { intros i Hi%elem_of_seqZ. lia. }
  exists h'. split; [done|]. split; [done|]. intros a Ha. apply W. intros i Hi%elem_of_seqZ. lia.
Qed.

(** Blocks of one page are disjoint. *)
Lemma blocks_apart t o o' : 0 ≤ t < 8 → is_block t o → is_block t o' → o ≠ o' → o + bsize t ≤ o' ∨ o' + bsize t ≤ o.
Proof.
  intros Ht [Ho Hm] [Ho' Hm'] Hne. destruct (bsize_ok t Ht) as (_ & Hs & _). 
  pose proof (Z.div_mod o (bsize t) ltac:(lia)) as D. rewrite Hm in D. pose proof (Z.div_mod o' (bsize t) ltac:(lia)) as D'. rewrite Hm' in D'.
  destruct (Z.lt_trichotomy (o / bsize t) (o' / bsize t)) as [Hlt|[Heq|Hlt]]; [left|exfalso; apply Hne; rewrite D, D', Heq; lia|right]; nia.
Qed.

(** ** Removal from the lists *)

(** The pagerefs differ only in the link that [set] sets. *)
Definition relinked (set : Z → pageref → pageref) m m' : Prop :=
  ∀ c, m' !! c = m !! c ∨ ∃ x n, m !! c = Some x ∧ m' !! c = Some (set n x).

Lemma unlink_ok next set b l2 : (∀ n x, next (set n x) = n) → (∀ n n' x, set n' (set n x) = set n' x) → ∀ l1 fuel a m,
  chain next m a (l1 ++ b :: l2) → NoDup (l1 ++ b :: l2) → (length (l1 ++ b :: l2) < fuel)%nat →
  ∃ a' m', unlink next set fuel a b m = Ok (a', m') ∧ chain next m' a' (l1 ++ l2) ∧ relinked set m m' ∧ (∀ c, c ∉ l1 → m' !! c = m !! c).
Proof.
  intros Hn Hs. induction l1 as [|c l1 IH]; intros [|fuel] a m Hc Hnd Hf; try (cbn [length app] in Hf; lia); cbn [app chain unlink] in *;
    destruct Hc as (-> & Hne & x & Hx & Hc); rewrite (proj2 (Z.eqb_neq _ _) Hne), Hx; cbn [deref]; rewrite bind_of_Ok.
  - rewrite Z.eqb_refl. exists (next x), m. split; [done|]. split; [done|]. split; [by left|done].
  - apply NoDup_cons in Hnd as [Hno Hnd]. rewrite (proj2 (Z.eqb_neq c b)) by (intros ->; apply Hno; set_solver).
    destruct (IH fuel (next x) m Hc Hnd ltac:(cbn [length] in Hf; lia)) as (a' & m' & E & C & R & U). rewrite E, bind_of_Ok.
    rewrite (U c), Hx by (intros Hin; apply Hno; apply elem_of_app; by left). cbn [deref]. rewrite bind_of_Ok. eexists _, _. split; [done|]. split; [|split].
    + split; [done|]. split; [done|]. exists (set a' x). rewrite lookup_insert_eq. split; [done|]. rewrite Hn. eapply chain_ext; [|exact C].
      intros d Hd. rewrite lookup_insert_ne; [done|]. intros <-. apply Hno. set_solver.
    + intros d. destruct (decide (d = c)) as [->|Hdc]; [right; exists x, a'; by rewrite lookup_insert_eq|]. rewrite lookup_insert_ne by done. apply R.
    + intros d Hd. rewrite lookup_insert_ne by (intros ->; apply Hd; by left). apply U. intros Hin. apply Hd. by right.
Qed.

Lemma set_lookup set m m' c x f : relinked set m m' → m !! c = Some x → (∀ n y, f (set n y) = f y :> Z) → ∃ x', m' !! c = Some x' ∧ f x' = f x.
Proof. intros R Hx Hf. destruct (R c) as [E|(y & n & E1 & E2)]; [exists x; by rewrite E|]. rewrite Hx in E1. injection E1 as <-. eauto. Qed.

Lemma relinked_chain set m m' next a l : relinked set m m' → (∀ n y, next (set n y) = next y) → chain next m a l → chain next m' a l.
Proof.
  intros R Hn. apply chain_ext. intros b _. destruct (R b) as [->|(y & n & E1 & E2)]; [done|]. rewrite E1, E2. cbn. by rewrite Hn.
Qed.

Lemma relinked_page set h h' p : (∀ n y, pageaddr_and_blocktype (set n y) = pageaddr_and_blocktype y ∧ freelist_offset (set n y) = freelist_offset y ∧ nfree (set n y) = nfree y) →
  relinked set (prefs h) (prefs h') → words h' = words h → page_ok h p → page_ok h' p.
Proof.
  intros Hs R W [O1 O2 (x & Hx & X) O4 O5 O6]. constructor; try done; [|by rewrite W].
  destruct (R (pi_pr p)) as [E|(y & n & E1 & E2)]; [exists x; by rewrite E|]. exists (set n y). split; [done|]. rewrite Hx in E1. injection E1 as <-.
  by destruct (Hs n x) as (-> & -> & ->).
Qed.

Lemma NoDup_app_remove_mid {A} (l1 : list A) x l2 : NoDup (l1 ++ x :: l2) → NoDup (l1 ++ l2).
Proof. intros Hnd. eapply sublist_NoDup; [exact Hnd|]. apply sublist_app; [done|]. by apply sublist_cons. Qed.

Lemma map_inj {A} (f : pinfo → A) ps p q : NoDup (map f ps) → p ∈ ps → q ∈ ps → f p = f q → p = q.
Proof.
  intros Hnd Hp (ps1 & ps2 & ->)%list_elem_of_split E. apply elem_split in Hp as [Hp|Hp]; [done|]. by apply (others_differ _ _ _ _ _ Hnd) in Hp.
Qed.

Lemma remove_lists_ok h ps1 p ps2 : heap_ok h (ps1 ++ p :: ps2) →
  ∃ h', remove_lists (pi_pr p) (pi_type p) h = Ok h' ∧ heap_ok h' (ps1 ++ ps2) ∧ kheaproots h' = kheaproots h ∧ words h' = words h.
Proof.
  intros Hok. pose proof (heap_page _ _ p Hok ltac:(set_solver)) as [Ht _ _ _ _ _]. destruct Hok as [H1 H2 H3 H4 H5 H6].
  unfold remove_lists. unfold NSIZES. rewrite (proj2 (Z.leb_le _ _)), (proj2 (Z.ltb_lt _ _)) by lia. cbn [andb kassert]. rewrite bind_of_Ok.
  destruct (H2 _ Ht) as (a & Ha & Hc). rewrite Ha. cbn [deref]. rewrite bind_of_Ok.
  set (ft := λ q, pi_type q = pi_type p). assert (filter ft (ps1 ++ p :: ps2) = filter ft ps1 ++ p :: filter ft ps2) as Ef by (by rewrite filter_app, filter_cons_True).
  fold ft in Hc. rewrite Ef, map_app in Hc. cbn [map] in Hc. assert (NoDup (map pi_pr (filter ft ps1) ++ pi_pr p :: map pi_pr (filter ft ps2))) as Hnd.
  { change (NoDup (map pi_pr (filter ft ps1) ++ map pi_pr (p :: filter ft ps2))). rewrite <-map_app, <-Ef. eapply sublist_NoDup; [exact H5|]. apply fmap_sublist, sublist_filter. }
  destruct (unlink_ok next_samesize set_samesize (pi_pr p) (map pi_pr (filter ft ps2)) ltac:(done) ltac:(done) _ (list_fuel h) _ _ Hc Hnd) as (a1 & m1 & E1 & C1 & R1 & U1).
  { apply le_n_S. by eapply chain_fuel. }
  rewrite E1, bind_of_Ok. pose proof (relinked_chain _ _ _ next_all _ _ R1 ltac:(done) H1) as C1'. rewrite map_app in C1', H5. cbn [map] in C1', H5.
  destruct (unlink_ok next_all set_all (pi_pr p) (map pi_pr ps2) ltac:(done) ltac:(done) _ (list_fuel h) _ _ C1' H5) as (a2 & m2 & E2 & C2 & R2 & U2).
  { apply le_n_S. eapply chain_fuel; [|exact H5]. by rewrite map_app in H1. }
  rewrite E2, bind_of_Ok. eexists. split; [done|]. split; [|done].
  assert (∀ q, q ∈ ps1 ++ ps2 → q ∈ ps1 ++ p :: ps2) as Hsub by (intros q; rewrite !elem_of_app, elem_of_cons; tauto).
  constructor; cbn [prefs allbase sizebases].
  - by rewrite map_app.
  - intros t Ht'. rewrite zget_zset. destruct (decide (t = pi_type p)) as [->|Hne].
    + exists a1. rewrite decide_True by lia. split; [done|]. apply (relinked_chain _ _ _ next_samesize _ _ R2 ltac:(done)). fold ft. by rewrite filter_app, map_app.
    + destruct (H2 t Ht') as (a' & Ha' & Hc'). exists a'. rewrite decide_False by lia. split; [done|]. apply (relinked_chain _ _ _ next_samesize _ _ R2 ltac:(done)).
      rewrite filter_app, filter_cons_False, <-filter_app in Hc' by congruence. eapply chain_ext; [|exact Hc']. intros b (q & -> & [Hq Hq']%list_elem_of_filter)%list_elem_of_fmap.
      rewrite U1; [done|]. intros (q' & E & [Hr Hr']%list_elem_of_filter)%list_elem_of_fmap. apply Hne. rewrite <-Hq, <-Hr. f_equal.
      apply (map_inj pi_pr (ps1 ++ p :: ps2)); [by rewrite map_app|by apply Hsub|apply elem_of_app; by left|done].
  - by rewrite zlen_zset.
  - apply Forall_forall. intros q Hq. rewrite Forall_forall in H4. apply (relinked_page set_all (with_prefs m1 h)); [done|done|done|].
    apply (relinked_page set_samesize h); [done|done|done|]. by apply H4, Hsub.
  - rewrite map_app. by apply NoDup_app_remove_mid in H5.
  - rewrite map_app in *. by apply NoDup_app_remove_mid in H6.
Qed.

(** A freed block goes to the front of the list of its page; a page whose blocks are all
    free leaves the lists, and its pageref is given back. *)
Lemma push_block h ps1 p ps2 o : heap_ok h (ps1 ++ p :: ps2) → is_block (pi_type p) o → o ∉ pi_free p →
  ∃ x h', prefs h !! pi_pr p = Some x ∧
    (h ← fill_deadbeef (pi_page p + o) (bsize (pi_type p)) h;
     h ← (if freelist_offset x =? INVALID_OFFSET then kstore (pi_page p + o) 0 h
          else h ← kstore (pi_page p + o) (pi_page p + freelist_offset x) h; _ ← kassert (negb (pi_page p + o =? pi_page p + freelist_offset x)); Ok h);
     Ok (with_prefs (<[pi_pr p := PageRef (next_samesize x) (next_all x) (pageaddr_and_blocktype x) o (nfree x + 1)]> (prefs h)) h)) = Ok h' ∧
    heap_ok h' (ps1 ++ set_free (o :: pi_free p) p :: ps2) ∧ kheaproots h' = kheaproots h ∧
    ∀ a, ¬ pi_page p + o ≤ a < pi_page p + o + bsize (pi_type p) → words h' a = words h a.
Proof.
  intros Hok Hb Hno. pose proof (heap_page _ _ p Hok ltac:(set_solver)) as [O1 O2 (x & Hx & X1 & X2 & X3) O4 O5 O6]. exists x.
  destruct (fill_deadbeef_ok (pi_page p) o _ h O2 O1 Hb) as (h1 & E1 & (P1 & P2 & P3 & P4 & P5) & W1). rewrite E1, bind_of_Ok. pose proof (bsize_ok _ O1) as (_ & Hs & _).
  pose proof Hb as [Ho _]. pose proof (kseg0_page _ o O2 Ho) as Hk. rewrite !(kstore_ok (pi_page p + o)) by done.
  set (next := match pi_free p with [] => 0 | o' :: _ => pi_page p + o' end).
  assert ((if freelist_offset x =? INVALID_OFFSET then Ok (with_words (λ b, if b =? pi_page p + o then 0 else words h1 b) h1)
    else h ← Ok (with_words (λ b, if b =? pi_page p + o then pi_page p + freelist_offset x else words h1 b) h1);
      _ ← kassert (negb (pi_page p + o =? pi_page p + freelist_offset x)); Ok h) = Ok (with_words (λ b, if b =? pi_page p + o then next else words h1 b) h1)) as ->.
  { rewrite X2. subst next. destruct (pi_free p) as [|o' fl]; [done|]. cbn [head_offset]. apply Forall_cons in O4 as [[Ho' _] _].
    rewrite (proj2 (Z.eqb_neq o' INVALID_OFFSET)) by (unfold INVALID_OFFSET; lia). rewrite bind_of_Ok, (proj2 (Z.eqb_neq _ _)); [done|].
    intros E. apply Hno. replace o with o' by lia. by left. }
  rewrite bind_of_Ok. eexists. split; [done|]. split; [done|]. split; [|split; [done|]].
  - apply (heap_change h); try done; cbn [prefs with_prefs with_words].
    + intros b Hne. by rewrite lookup_insert_ne, P2.
    + intros x' Hx'. rewrite Hx in Hx'. injection Hx' as <-. rewrite lookup_insert_eq, X3, zlen_cons. done.
    + intros a Ha. cbn. rewrite (proj2 (Z.eqb_neq a _)) by lia. by apply P5.
    + by constructor.
    + by apply NoDup_cons.
    + cbn [free_list]. split; [cbn; by rewrite Z.eqb_refl|]. eapply free_list_ext; [|exact O6]. intros o' Ho'. cbn. rewrite Forall_forall in O4.
      destruct (blocks_apart _ o o' O1 Hb (O4 o' Ho')) as [Hd|Hd]; [by intros ->| |]; rewrite (proj2 (Z.eqb_neq _ _)), W1 by lia; done.
  - intros a Ha. cbn. rewrite (proj2 (Z.eqb_neq a _)) by lia. by apply W1.
Qed.

Lemma subpage_kfree_ok h ps1 p ps2 o : heap_ok h (ps1 ++ p :: ps2) → is_block (pi_type p) o → o ∉ pi_free p →
  (∃ h', subpage_kfree (pi_page p + o) h = Ok (Some (h', None)) ∧ heap_ok h' (ps1 ++ set_free (o :: pi_free p) p :: ps2) ∧ zlen (o :: pi_free p) < nblocks_of (pi_type p) ∧
     kheaproots h' = kheaproots h ∧ ∀ a, ¬ pi_page p + o ≤ a < pi_page p + o + bsize (pi_type p) → words h' a = words h a) ∨
  (∃ h', subpage_kfree (pi_page p + o) h = (h ← freepageref (pi_pr p) h'; Ok (Some (h, Some (pi_page p)))) ∧ heap_ok h' (ps1 ++ ps2) ∧
     zlen (o :: pi_free p) = nblocks_of (pi_type p) ∧
     kheaproots h' = kheaproots h ∧ ∀ a, ¬ pi_page p + o ≤ a < pi_page p + o + bsize (pi_type p) → words h' a = words h a).
Proof.
  intros Hok Hb Hno. assert (p ∈ ps1 ++ p :: ps2) as Hin by set_solver. pose proof (heap_page _ _ p Hok Hin) as [O1 O2 (x & Hx & X1 & X2 & X3) O4 O5 O6].
  destruct (find_owner_list h _ (pi_page p + o) Hok) as [(q & Hq & Hqr & E)|[Hnone _]]; [|exfalso; apply (Hnone p Hin); destruct Hb; lia].
  assert (q = p) as ->.
  { apply (map_inj pi_page (ps1 ++ p :: ps2)); [by apply ho_distinct with h|done|done|]. destruct (decide (pi_page q = pi_page p)) as [|Hne]; [done|]. exfalso.
    apply (pages_apart (pi_page q) (pi_page p) (pi_page p + o - pi_page q) o); [by apply (heap_page _ _ _ Hok Hq)|done|done|lia|by destruct Hb|lia]. }
  destruct (push_block h ps1 p ps2 o Hok Hb Hno) as (x' & h' & Hx' & E' & Hok' & R & W). rewrite Hx in Hx'. injection Hx' as <-.
  apply bind_Ok in E' as (h1 & E1 & E'). apply bind_Ok in E' as (h2 & E2 & [= <-]).
  unfold subpage_kfree. rewrite E, bind_of_Ok. assert (pi_pr p ≠ 0) as Hnz.
  { pose proof (ho_all _ _ Hok) as Hc. clear -Hc. revert Hc. generalize (allbase h). induction ps1 as [|q ps1 IH]; cbn; intros a (-> & Hne & y & _ & Hc); [done|by eapply IH]. }
  rewrite (proj2 (Z.eqb_neq _ _) Hnz), Hx. cbn [deref]. rewrite bind_of_Ok. destruct (pab_ok _ _ O2 O1) as (_ & Epg & Et). unfold PR_PAGEADDR, PR_BLOCKTYPE. rewrite X1, Epg, Et.
  rewrite block_size_ok, bind_of_Ok by done. replace (pi_page p + o - pi_page p) with o by lia. pose proof Hb as [Ho Hm]. rewrite (proj2 (Z.leb_gt PAGE_SIZE o)), Hm by (unfold PAGE_SIZE; lia).
  cbn [negb orb kassert Z.eqb]. rewrite bind_of_Ok, E1, bind_of_Ok, E2, bind_of_Ok. fold (nblocks_of (pi_type p)). rewrite X1 in *.
  pose proof (free_count (pi_type p) (o :: pi_free p) O1 ltac:(by constructor) ltac:(by apply NoDup_cons)) as Hle. rewrite X3 in *. rewrite zlen_cons in *.
  pose proof (nblocks_small _ O1) as Hsm. pose proof (zlen_nonneg (pi_free p)) as Hz. rewrite u16_id by lia.
  rewrite (proj2 (Z.leb_le _ _) Hle). cbn [kassert]. rewrite bind_of_Ok. destruct (Z.eqb_spec (zlen (pi_free p) + 1) (nblocks_of (pi_type p))) as [Heq|Hne].
  - right. destruct (remove_lists_ok _ ps1 (set_free (o :: pi_free p) p) ps2 Hok') as (h3 & E3 & Hok3 & R3 & W3). cbn [set_free pi_pr pi_type] in E3. rewrite E3, bind_of_Ok.
    exists h3. split; [done|]. split; [done|]. split; [done|]. split; [congruence|]. intros a Ha. rewrite W3. by apply W.
  - left. eexists. split; [done|]. split; [done|]. split; [lia|]. split; [done|done].
Qed.

Lemma subpage_kfree_none h ps ptr : heap_ok h ps → (∀ p, p ∈ ps → ¬ pi_page p ≤ ptr < pi_page p + 4096) → subpage_kfree ptr h = Ok None.
Proof.
  intros Hok Hnone. unfold subpage_kfree. destruct (find_owner_list h ps ptr Hok) as [(p & Hp & Hr & _)|[_ ->]]; [by destruct (Hnone p Hp)|done].
Qed.
