(* ===== verification/KmallocSlots.v ===== *)
(** * The pagerefs of the kernel heap

    Which pagerefs are in use, as a list of slots (a root and an index); [claim_pageref]
    takes a slot that is not in use and [freepageref] gives it back. *)

From stdpp Require Import base list list_numbers.
From Stdlib Require Import ZArith Lia.
From S2P Require Import Prelude FrameTable Bitmap Kmalloc.
Open Scope Z_scope.

Implicit Types (h : kheap) (root : kheap_root) (js : list Z) (S : list (Z * Z)).

(** ** One root *)

Record root_ok root js : Prop := {
  ro_words : zlen (pagerefs_inuse root) = 8;
  ro_bits j : 0 ≤ j < 256 → ∃ w, zget (pagerefs_inuse root) (j / 32) = Some w ∧ is_u32 w ∧ Z.testbit w (j mod 32) = bool_decide (j ∈ js);
  ro_range j : j ∈ js → 0 ≤ j < 256;
  ro_nodup : NoDup js;
  ro_count : numinuse root = zlen js
}.

Lemma root_ok_perm root js js' : js ≡ₚ js' → root_ok root js → root_ok root js'.
Proof.
  intros E [H1 H2 H3 H4 H5]. constructor; [done| |intros j; rewrite <-E; apply H3|by rewrite <-E|unfold zlen; by rewrite <-(Permutation_length E)].
  intros j Hj. destruct (H2 j Hj) as (w & Hw & Hu & Hb). exists w. split; [done|]. split; [done|]. rewrite Hb. apply bool_decide_ext. by rewrite E.
Qed.

Lemma root_le root js : root_ok root js → zlen js ≤ 256.
Proof.
  intros [_ _ H3 H4 _]. assert (js ⊆ seqZ 0 256) as Hsub by (intros j Hj%H3; apply elem_of_seqZ; lia).
  pose proof (submseteq_length _ _ (NoDup_submseteq _ _ H4 Hsub)) as Hl. rewrite length_seqZ in Hl. unfold zlen. lia.
Qed.

Lemma u32_full w : is_u32 w → (∀ j, 0 ≤ j < 32 → Z.testbit w j = true) → w = 0xffffffff.
Proof.
  intros Hw Hj. change 0xffffffff with (Z.ones 32). rewrite <-(Z.land_ones_low w 32) at 1; [|width|].
  - apply Z.bits_inj'. intros n Hn. rewrite Z.land_spec, Z.testbit_ones_nonneg by lia. destruct (Z.ltb_spec n 32); [by rewrite Hj by lia|]. apply andb_false_r.
  - destruct (decide (w = 0)) as [->|]; [done|]. apply Z.log2_lt_pow2; width.
Qed.

Lemma find_bit_spec js w : Forall (Z.le 0) js →
  match find_bit js w with Some j => j ∈ js ∧ Z.testbit w j = false | None => Forall (λ j, Z.testbit w j = true) js end.
Proof.
  induction js as [|j js IH]; intros Hjs; cbn [find_bit]; [constructor|]. apply Forall_cons in Hjs as [Hj Hjs]. rewrite land_bit_zero by done.
  destruct (Z.testbit w j) eqn:E; cbn [negb]; [|split; [by left|done]]. specialize (IH Hjs). destruct (find_bit js w); [destruct IH; split; [by right|done]|by constructor].
Qed.

Lemma find_word_ok root js is_ : root_ok root js → (∀ i, i ∈ is_ → 0 ≤ i < 8) →
  (∃ i j, find_word is_ (pagerefs_inuse root) = Ok (Some (i, j)) ∧ 0 ≤ i < 8 ∧ 0 ≤ j < 32 ∧ i * 32 + j ∉ js) ∨
  find_word is_ (pagerefs_inuse root) = Ok None ∧ ∀ i j, i ∈ is_ → 0 ≤ j < 32 → i * 32 + j ∈ js.
Proof.
  intros Hr. induction is_ as [|i is_ IH]; intros Hi; cbn [find_word].
  { right. split; [done|]. intros i j Hin. by apply elem_of_nil in Hin. }
  pose proof (Hi i ltac:(by left)) as Hii.
  assert (∀ j, 0 ≤ j < 32 → (i * 32 + j) / 32 = i ∧ (i * 32 + j) mod 32 = j) as Hd by (intros j Hj; Z.to_euclidean_division_equations; lia).
  assert (∃ w, zget (pagerefs_inuse root) i = Some w ∧ is_u32 w ∧ ∀ j, 0 ≤ j < 32 → Z.testbit w j = bool_decide (i * 32 + j ∈ js)) as (w & Hw & Hu & Hb).
  { destruct (ro_bits _ _ Hr (i * 32 + 0)) as (w & Hw & Hu & _); [lia|]. rewrite (proj1 (Hd 0 ltac:(lia))) in Hw. exists w. split; [done|]. split; [done|].
    intros j Hj. destruct (ro_bits _ _ Hr (i * 32 + j)) as (w' & Hw' & _ & Hb); [lia|]. destruct (Hd j Hj) as [E1 E2]. rewrite E1, E2 in *. congruence. }
  rewrite Hw. cbn [deref]. rewrite bind_of_Ok. destruct (Z.eqb_spec w 0xffffffff) as [->|Hne].
  - destruct IH as [?|[E IH]]; [intros k Hk; apply Hi; by right|by left|]. right. split; [done|]. intros k j [->|Hk]%elem_of_cons Hj; [|by apply IH].
    specialize (Hb j Hj). symmetry in Hb. change 0xffffffff with (Z.ones 32) in Hb. rewrite Z.ones_spec_low in Hb by lia. by apply bool_decide_eq_true_1 in Hb.
  - left. pose proof (find_bit_spec (seqZ 0 32) w ltac:(apply Forall_forall; intros k Hk%elem_of_seqZ; lia)) as Hf.
    destruct (find_bit (seqZ 0 32) w) as [j|].
    + destruct Hf as [Hj%elem_of_seqZ Ht]. exists i, j. split; [done|]. split; [done|]. split; [lia|]. rewrite Hb in Ht by lia. by apply bool_decide_eq_false_1 in Ht.
    + destruct Hne. apply u32_full; [done|]. intros j Hj. rewrite Forall_forall in Hf. apply Hf, elem_of_seqZ. lia.
Qed.

(** A root that is not full has a free pageref. *)
Lemma root_find root js : root_ok root js → numinuse root < 256 →
  ∃ i j, find_word (seqZ 0 8) (pagerefs_inuse root) = Ok (Some (i, j)) ∧ 0 ≤ i < 8 ∧ 0 ≤ j < 32 ∧ i * 32 + j ∉ js.
Proof.
  intros Hr Hn. destruct (find_word_ok root js (seqZ 0 8) Hr) as [?|[_ Hall]]; [intros i ?%elem_of_seqZ; lia|done|].
  assert (seqZ 0 256 ⊆ js) as Hsub.
  { intros k Hk%elem_of_seqZ. replace k with (k / 32 * 32 + k mod 32) by (Z.to_euclidean_division_equations; lia).
    apply Hall; [apply elem_of_seqZ|]; Z.to_euclidean_division_equations; lia. }
  pose proof (submseteq_length _ _ (NoDup_submseteq _ _ (NoDup_seqZ _ _) Hsub)) as Hl. rewrite length_seqZ in Hl. rewrite (ro_count _ _ Hr) in Hn. unfold zlen in Hn. lia.
Qed.

Lemma root_set root js js' (n pg i b w w' : Z) : root_ok root js → 0 ≤ i < 8 → 0 ≤ b < 32 → zget (pagerefs_inuse root) i = Some w → is_u32 w' →
  (∀ k, 0 ≤ k → k ≠ b → Z.testbit w' k = Z.testbit w k) → Z.testbit w' b = bool_decide (i * 32 + b ∈ js') →
  (∀ k, k ≠ i * 32 + b → k ∈ js' ↔ k ∈ js) → (∀ k, k ∈ js' → 0 ≤ k < 256) → NoDup js' → n = zlen js' →
  root_ok (Root pg (zset (pagerefs_inuse root) i w') n) js'.
Proof.
  intros [H1 H2 H3 H4 H5] Hi Hb Hw Hu Ho Hbit Hjs Hr Hnd Hn. constructor; cbn [pagerefs_inuse numinuse]; [by rewrite zlen_zset| |done..].
  intros j Hj. destruct (H2 j Hj) as (x & Hx & Hux & Hbx). rewrite zget_zset. destruct (decide (i = j / 32 ∧ 0 ≤ i < zlen (pagerefs_inuse root))) as [Hc|Hc].
  - exists w'. split; [done|]. split; [done|]. rewrite <-(proj1 Hc), Hw in Hx. injection Hx as <-.
    destruct (decide (j mod 32 = b)) as [E|E].
    + rewrite E, Hbit. apply bool_decide_ext. by replace (i * 32 + b) with j by (Z.to_euclidean_division_equations; lia).
    + rewrite Ho, Hbx by (Z.to_euclidean_division_equations; lia). apply bool_decide_ext. symmetry. apply Hjs. Z.to_euclidean_division_equations. lia.
  - exists x. split; [done|]. split; [done|]. rewrite Hbx. apply bool_decide_ext. symmetry. apply Hjs. intros ->. apply Hc. rewrite H1.
    Z.to_euclidean_division_equations. lia.
Qed.

Lemma word_bits w : is_u32 w ↔ 0 ≤ w ∧ ∀ n, 32 ≤ n → Z.testbit w n = false.
Proof.
  split.
  - intros Hw. split; [width|]. intros n Hn. apply Z.bits_above_log2; [width|]. destruct (decide (w = 0)) as [->|]; [cbn; lia|].
    assert (Z.log2 w < 32) by (apply Z.log2_lt_pow2; width). lia.
  - intros [H0 Hn]. destruct (decide (w = 0)) as [->|]; [width|]. assert (Z.log2 w < 32) as Hl.
    { destruct (Z.lt_ge_cases (Z.log2 w) 32) as [|Hge]; [done|]. pose proof (Z.bit_log2 w ltac:(lia)) as E. by rewrite Hn in E. }
    apply Z.log2_lt_pow2 in Hl; width.
Qed.

Lemma lor_u32 w b : is_u32 w → 0 ≤ b < 32 → is_u32 (Z.lor w (Z.shiftl 1 b)) ∧ Z.testbit (Z.lor w (Z.shiftl 1 b)) b = true ∧
  ∀ k, 0 ≤ k → k ≠ b → Z.testbit (Z.lor w (Z.shiftl 1 b)) k = Z.testbit w k.
Proof.
  intros [Hw Hn]%word_bits Hb. split; [|split].
  - apply word_bits. split; [apply Z.lor_nonneg; split; [done|apply Z.shiftl_nonneg; lia]|]. intros n Hn'. rewrite Z.lor_spec, Hn, testbit_one by lia. apply bool_decide_eq_false_2. lia.
  - rewrite Z.lor_spec, testbit_one by lia. rewrite bool_decide_eq_true_2 by done. apply orb_true_r.
  - intros k Hk Hne. rewrite Z.lor_spec, testbit_one by lia. rewrite bool_decide_eq_false_2 by done. apply orb_false_r.
Qed.

Lemma ldiff_u32 w b : is_u32 w → 0 ≤ b < 32 → is_u32 (Z.land w (Z.lnot (Z.shiftl 1 b))) ∧ Z.testbit (Z.land w (Z.lnot (Z.shiftl 1 b))) b = false ∧
  ∀ k, 0 ≤ k → k ≠ b → Z.testbit (Z.land w (Z.lnot (Z.shiftl 1 b))) k = Z.testbit w k.
Proof.
  intros [Hw Hn]%word_bits Hb. split; [|split].
  - apply word_bits. split; [apply Z.land_nonneg; by left|]. intros n Hn'. by rewrite Z.land_spec, Hn by lia.
  - rewrite Z.land_spec, Z.lnot_spec, testbit_one by lia. rewrite bool_decide_eq_true_2 by done. apply andb_false_r.
  - intros k Hk Hne. rewrite Z.land_spec, Z.lnot_spec, testbit_one by lia. rewrite bool_decide_eq_false_2 by done. apply andb_true_r.
Qed.

Lemma root_word root js i : root_ok root js → 0 ≤ i < 8 → ∃ w, zget (pagerefs_inuse root) i = Some w ∧ is_u32 w.
Proof.
  intros Hr Hi. destruct (ro_bits _ _ Hr (i * 32)) as (w & Hw & Hu & _); [lia|]. exists w. rewrite Z.div_mul in Hw by lia. done.
Qed.

Lemma root_take root js i b w : root_ok root js → 0 ≤ i < 8 → 0 ≤ b < 32 → zget (pagerefs_inuse root) i = Some w → is_u32 w → i * 32 + b ∉ js →
  root_ok (Root (page root) (zset (pagerefs_inuse root) i (Z.lor w (Z.shiftl 1 b))) (u32 (numinuse root + 1))) (i * 32 + b :: js).
Proof.
  intros Hr Hi Hb Hw Hu Hno. destruct (lor_u32 w b Hu Hb) as (U & B & O). pose proof (root_le _ _ Hr) as Hle. pose proof Hr as [_ _ H3 H4 H5].
  apply (root_set _ js _ _ _ _ b w); try done.
  - rewrite B. symmetry. apply bool_decide_eq_true_2. by left.
  - intros k Hk. rewrite elem_of_cons. tauto.
  - intros k [->|Hk]%elem_of_cons; [lia|by apply H3].
  - by apply NoDup_cons.
  - rewrite H5, zlen_cons, u32_id; [lia|]. pose proof (zlen_nonneg js). width.
Qed.

Lemma root_drop root js i b w : root_ok root (i * 32 + b :: js) → 0 ≤ i < 8 → 0 ≤ b < 32 → zget (pagerefs_inuse root) i = Some w → is_u32 w →
  root_ok (Root (page root) (zset (pagerefs_inuse root) i (Z.land w (Z.lnot (Z.shiftl 1 b)))) (numinuse root - 1)) js.
Proof.
  intros Hr Hi Hb Hw Hu. destruct (ldiff_u32 w b Hu Hb) as (U & B & O). pose proof Hr as [_ _ H3 [H4 H4']%NoDup_cons H5].
  apply (root_set _ (i * 32 + b :: js) _ _ _ _ b w); try done.
  - rewrite B. symmetry. by apply bool_decide_eq_false_2.
  - intros k Hk. rewrite elem_of_cons. tauto.
  - intros k Hk. apply H3. by right.
  - rewrite H5, zlen_cons. lia.
Qed.

(** ** All the roots *)

Definition of_root (r : Z) S : list Z := map snd (filter (λ s, s.1 = r) S).

Record slots_ok h S : Prop := {
  so_roots : zlen (kheaproots h) = 16;
  so_range s : s ∈ S → 0 ≤ s.1 < 16;
  so_root r root : zget (kheaproots h) r = Some root → root_ok root (of_root r S)
}.

Definition root_pages h : list Z := map page (kheaproots h).

(** Only the bits in use and their number differ. *)
Definition roots_only h h' : Prop :=
  prefs h' = prefs h ∧ sizebases h' = sizebases h ∧ allbase h' = allbase h ∧ words h' = words h ∧ root_pages h' = root_pages h.

Lemma of_root_cons r j r' S : of_root r' ((r, j) :: S) = if decide (r = r') then j :: of_root r' S else of_root r' S.
Proof. unfold of_root. rewrite filter_cons. cbn. by case_decide. Qed.

Lemma elem_of_root r j S : j ∈ of_root r S ↔ (r, j) ∈ S.
Proof.
  unfold of_root. rewrite list_elem_of_fmap. split.
  - intros ([r' j'] & -> & [E Hin]%list_elem_of_filter). cbn in *. by subst.
  - intros Hin. exists (r, j). split; [done|]. by apply list_elem_of_filter.
Qed.

Lemma slots_perm h S S' : S ≡ₚ S' → slots_ok h S → slots_ok h S'.
Proof.
  intros E [H1 H2 H3]. constructor; [done|intros s; rewrite <-E; apply H2|]. intros r root Hr. eapply root_ok_perm; [|by apply H3]. unfold of_root. by rewrite E.
Qed.

Lemma slots_NoDup h S : slots_ok h S → NoDup S.
Proof.
  intros [H1 H2 H3]. assert (∀ r, NoDup (of_root r S)) as Hr.
  { intros r. destruct (zget (kheaproots h) r) as [root|] eqn:E; [by eapply ro_nodup, H3|].
    destruct (of_root r S) as [|j js] eqn:Ej; [constructor|]. assert ((r, j) ∈ S) as Hin by (apply elem_of_root; rewrite Ej; by left).
    apply H2 in Hin. cbn in Hin. apply zget_None in E. lia. }
  clear H1 H2 H3. induction S as [|[r j] S IH]; [constructor|]. apply NoDup_cons. split.
  - specialize (Hr r). rewrite of_root_cons, decide_True in Hr by done. apply NoDup_cons in Hr as [Hr _]. by rewrite elem_of_root in Hr.
  - apply IH. intros r'. specialize (Hr r'). rewrite of_root_cons in Hr. case_decide; [by apply NoDup_cons in Hr as [_ Hr]|done].
Qed.

Lemma root_set_slots h S S' r root root' : slots_ok h S → zget (kheaproots h) r = Some root → root_ok root' (of_root r S') →
  (∀ r', r' ≠ r → of_root r' S' = of_root r' S) → slots_ok (with_roots (zset (kheaproots h) r root') h) S'.
Proof.
  intros [H1 H2 H3] Hr Hok Hother. assert (0 ≤ r < 16) as Hrr by (apply zget_Some_range in Hr; lia). constructor; cbn [kheaproots with_roots].
  - by rewrite zlen_zset.
  - intros [r' j] Hin. destruct (decide (r' = r)) as [->|Hne]; [done|]. apply elem_of_root in Hin. rewrite Hother, elem_of_root in Hin by done. by apply H2.
  - intros r' root1. rewrite zget_zset. destruct (decide (r = r' ∧ 0 ≤ r < zlen (kheaproots h))) as [[<- _]|Hne]; [by intros [= <-]|].
    intros Hr'. rewrite Hother by (intros ->; apply Hne; split; [done|lia]). by apply H3.
Qed.

Lemma root_pages_get h r root : zget (kheaproots h) r = Some root → zget (root_pages h) r = Some (page root).
Proof. unfold root_pages, zget. case_decide; [|done]. intros E. etrans; [apply list_lookup_fmap|]. by rewrite E. Qed.

Lemma root_pages_zset h r root : root_pages (with_roots (zset (kheaproots h) r root) h) = zset (root_pages h) r (page root).
Proof. unfold root_pages, zset. cbn [kheaproots with_roots]. case_decide; [|done]. apply list_fmap_insert. Qed.

Lemma root_pages_set h r root root' : zget (kheaproots h) r = Some root → page root' = page root →
  roots_only h (with_roots (zset (kheaproots h) r root') h).
Proof. intros Hr E. split_and!; try done. rewrite root_pages_zset, E. by apply zset_id, root_pages_get. Qed.

(** ** Taking and giving back *)

Definition claimed h S (s : Z * Z) h' : Prop :=
  slots_ok h' (s :: S) ∧ (s ∉ S) ∧ 0 ≤ s.1 < 16 ∧ 0 ≤ s.2 < 256 ∧ roots_only h h' ∧ ∀ r, 0 ≤ r < s.1 → zlen (of_root r S) = 256.

Lemma claim_loop_ok h S n : slots_ok h S → ∀ r, 0 ≤ r → r + Z.of_nat n = 16 → (∀ r', 0 ≤ r' < r → zlen (of_root r' S) = 256) →
  (∃ s h', claim_loop (seqZ r (Z.of_nat n)) h = Ok (Some s, h') ∧ claimed h S s h') ∨ claim_loop (seqZ r (Z.of_nat n)) h = Ok (None, h).
Proof.
  intros Hs. induction n as [|n IH]; intros r Hr Hn Hfull; [by right|].
  rewrite Nat2Z.inj_succ, seqZ_cons, Z.pred_succ by lia. cbn [claim_loop]. pose proof Hs as [H1 H2 H3].
  destruct (zget_range (kheaproots h) r ltac:(lia)) as [root Hroot]. rewrite Hroot. cbn [deref]. rewrite bind_of_Ok.
  pose proof (H3 r root Hroot) as Hok. change NPAGEREFS_PER_PAGE with 256. destruct (Z.leb_spec 256 (numinuse root)) as [Hle|Hlt].
  { apply (IH (Z.succ r)); [lia|lia|]. intros r' Hr'. destruct (decide (r' = r)) as [->|]; [|apply Hfull; lia].
    pose proof (root_le _ _ Hok). rewrite (ro_count _ _ Hok) in Hle. lia. }
  destruct (root_find root _ Hok Hlt) as (i & j & E & Hi & Hj & Hno). destruct (root_word _ _ i Hok Hi) as (w & Hw & Hu).
  change (seqZ 0 INUSE_WORDS) with (seqZ 0 8). rewrite E, bind_of_Ok, Hw. cbn [deref]. rewrite bind_of_Ok. left. eexists (r, i * 32 + j), _. split; [done|].
  split; [|split; [by rewrite <-elem_of_root|split; [cbn; lia|split; [cbn; lia|split; [by eapply root_pages_set|done]]]]].
  eapply root_set_slots; [exact Hs|exact Hroot| |].
  - rewrite of_root_cons, decide_True by done. by apply root_take.
  - intros r' Hne. by rewrite of_root_cons, decide_False by done.
Qed.

Lemma claim_ok h S : slots_ok h S → (∃ s h', claim_pageref h = Ok (Some s, h') ∧ claimed h S s h') ∨ claim_pageref h = Ok (None, h).
Proof. intros Hs. apply (claim_loop_ok h S 16 Hs 0); [lia|lia|]. lia. Qed.

Lemma freepageref_loop_ok h S r j pg n : slots_ok h ((r, j) :: S) → zget (root_pages h) r = Some pg → pg ≠ 0 →
  (∀ r' pg', 0 ≤ r' < r → zget (root_pages h) r' = Some pg' → pg' ≠ 0 ∧ 256 ≤ u32 ((pg + 16 * j - pg') / 16)) → ∀ r0, 0 ≤ r0 ≤ r → r0 + Z.of_nat n = 16 →
  ∃ h', freepageref_loop (seqZ r0 (Z.of_nat n)) (pg + 16 * j) h = Ok h' ∧ slots_ok h' S ∧ roots_only h h'.
Proof.
  intros Hs Hpg Hnz Hprev. pose proof Hs as [H1 H2 H3]. pose proof (H2 (r, j) ltac:(by left)) as Hr. cbn in Hr.
  induction n as [|n IH]; intros r0 Hr0 Hn; [lia|]. rewrite Nat2Z.inj_succ, seqZ_cons, Z.pred_succ by lia. cbn [freepageref_loop].
  destruct (zget_range (kheaproots h) r0 ltac:(lia)) as [root Hroot]. pose proof (root_pages_get _ _ _ Hroot) as Hpage. rewrite Hroot. cbn [deref]. rewrite bind_of_Ok.
  change NPAGEREFS_PER_PAGE with 256. change sizeof_pageref with 16. destruct (decide (r0 = r)) as [->|Hne].
  - rewrite Hpage in Hpg. injection Hpg as <-. rewrite (proj2 (Z.eqb_neq _ _) Hnz). pose proof (H3 r root Hroot) as Hok. rewrite of_root_cons, decide_True in Hok by done.
    pose proof (ro_range _ _ Hok j ltac:(by left)) as Hj. replace ((page root + 16 * j - page root) / 16) with j by (Z.to_euclidean_division_equations; lia).
    rewrite u32_id by width. rewrite (proj2 (Z.ltb_lt j 256)) by lia. assert (j = j / 32 * 32 + j mod 32 ∧ 0 ≤ j / 32 < 8 ∧ 0 ≤ j mod 32 < 32) as (E & Hi & Hb) by (Z.to_euclidean_division_equations; lia).
    destruct (ro_bits _ _ Hok j Hj) as (w & Hw & Hu & Hbit). rewrite Hw. cbn [deref]. rewrite bind_of_Ok, land_bit_zero by lia. rewrite Hbit, bool_decide_eq_true_2 by (by left).
    cbn [negb kassert]. rewrite bind_of_Ok. pose proof (zlen_nonneg (of_root r S)) as Hz. pose proof (ro_count _ _ Hok) as Hc. rewrite zlen_cons in Hc.
    rewrite (proj2 (Z.ltb_lt 0 _)) by lia. cbn [kassert]. rewrite bind_of_Ok. eexists. split; [done|]. split; [|by eapply root_pages_set].
    eapply root_set_slots; [exact Hs|exact Hroot| |].
    + rewrite E in Hok. by apply root_drop.
    + intros r' Hne. by rewrite of_root_cons, decide_False by done.
  - destruct (Hprev r0 (page root) ltac:(lia) Hpage) as [Hz Hge]. rewrite (proj2 (Z.eqb_neq _ _) Hz), (proj2 (Z.ltb_ge _ _) Hge). apply (IH (Z.succ r0)); lia.
Qed.

Lemma freepageref_ok h S r j pg : slots_ok h ((r, j) :: S) → zget (root_pages h) r = Some pg → pg ≠ 0 →
  (∀ r' pg', 0 ≤ r' < r → zget (root_pages h) r' = Some pg' → pg' ≠ 0 ∧ 256 ≤ u32 ((pg + 16 * j - pg') / 16)) →
  ∃ h', freepageref (pg + 16 * j) h = Ok h' ∧ slots_ok h' S ∧ roots_only h h'.
Proof.
  intros Hs Hpg Hnz Hprev. pose proof (so_range _ _ Hs (r, j) ltac:(by left)) as Hr. cbn in Hr.
  apply (freepageref_loop_ok h S r j pg 16 Hs Hpg Hnz Hprev 0); lia.
Qed.
