(* ===== verification/KmallocSpec.v ===== *)
(** * Correctness of the kernel heap

    The invariant of the whole system of Kmalloc: the heap of KmallocInv, the pagerefs of
    KmallocSlots and the pages taken from the frame allocator.  Every page that is
    allocated is a page of the heap, a page of pagerefs, a large block or in the hands of
    one thread; every block a client has is a block in use. *)

From stdpp Require Import base gmap list list_numbers.
From Stdlib Require Import ZArith Lia.
From S2P Require Import Prelude FrameTable Bitmap Kmalloc KmallocInv KmallocSlots.
Open Scope Z_scope.

Implicit Types (h : kheap) (p : pinfo) (ps : list pinfo).

(** ** Pages and blocks *)

Definition one_page (a : Z) : Z * Z := (a, 1).
Definition ref_pages (l : list Z) : list (Z * Z) := map one_page (filter (λ a, a ≠ 0) l).
Definition heap_pages ps : list (Z * Z) := map (one_page ∘ pi_page) ps.

(** A block in use, with its size: of a page of the heap, or a run of pages. *)
Definition block_of ps (bigs : list (Z * Z)) (a n : Z) : Prop :=
  (∃ p o, p ∈ ps ∧ is_block (pi_type p) o ∧ (o ∉ pi_free p) ∧ a = pi_page p + o ∧ n = bsize (pi_type p)) ∨
  (∃ m, (a, m) ∈ bigs ∧ n = 4096 * m).

Section spec.
Context {K : Type} `{KPagesOk K}.

(** [held] are the runs of pages and [claims] the pagerefs in the hands of threads, [bigs]
    the large blocks, [lost] the pagerefs without a page. *)
Record core h (k : K) (lv : gmap Z Z) ps (held : list (Z * Z)) (claims : list (Z * Z)) (bigs : list (Z * Z)) (lost : list (Z * Z)) : Prop := {
  co_heap : heap_ok h ps;
  co_busy : Forall busy ps;
  co_slots : slots_ok h (map pi_slot ps ++ claims ++ lost);
  co_place p : p ∈ ps → ∃ pg, zget (root_pages h) (pi_slot p).1 = Some pg ∧ pg ≠ 0 ∧ pi_pr p = pg + 16 * (pi_slot p).2;
  co_before r r' pg pg' : 0 ≤ r' < r → zget (root_pages h) r = Some pg → zget (root_pages h) r' = Some pg' →
    pg ≠ 0 ∨ (∃ s, s ∈ claims ++ lost ∧ s.1 = r) → pg' ≠ 0;
  co_pages : kp_ok k (held ++ heap_pages ps ++ ref_pages (root_pages h) ++ bigs);
  co_live a sz : lv !! a = Some sz → 0 ≤ sz ∧ ∃ n, block_of ps bigs a n ∧ sz ≤ n;
  co_used a n : block_of ps bigs a n → is_Some (lv !! a)
}.

(** What clients have is unchanged. *)
Definition kept (lv lv' : gmap Z Z) h h' : Prop :=
  ∀ a sz x, lv !! a = Some sz → lv' !! a = Some sz → a ≤ x < a + sz → words h' x = words h x.

(** ** Runs of pages *)

Lemma kp_two k A a n b m : kp_ok k A → (a, n) ∈ A → (b, m) ∈ A → a ≠ b → a + 4096 * n ≤ b ∨ b + 4096 * m ≤ a.
Proof.
  intros Hk (l1 & l2 & ->)%list_elem_of_split Hb Hne.
  assert ((b, m) ∈ l1 ++ l2) as (l3 & l4 & E)%list_elem_of_split by (rewrite elem_of_app, elem_of_cons in Hb; rewrite elem_of_app; naive_solver).
  eapply (kp_apart k a n b m (l3 ++ l4)), kp_perm; [|exact Hk]. rewrite <-Permutation_middle, E, <-Permutation_middle. done.
Qed.

Lemma kp_elem k A a n : kp_ok k A → (a, n) ∈ A → MIPS_KSEG0 < a ∧ a mod 4096 = 0 ∧ 1 ≤ n ∧ a + 4096 * n ≤ MIPS_KSEG1.
Proof.
  intros Hk (l1 & l2 & ->)%list_elem_of_split. apply (kp_range k a n (l1 ++ l2)). eapply kp_perm; [|exact Hk]. by rewrite Permutation_middle.
Qed.

Lemma kp_head k A a n b m : kp_ok k ((a, n) :: A) → (b, m) ∈ A → a + 4096 * n ≤ b ∨ b + 4096 * m ≤ a.
Proof.
  intros Hk (l1 & l2 & ->)%list_elem_of_split. eapply (kp_apart k a n b m (l1 ++ l2)), kp_perm; [|exact Hk]. by rewrite <-Permutation_middle.
Qed.

Lemma kp_app k A B a n b m : kp_ok k (A ++ B) → (a, n) ∈ A → (b, m) ∈ B → a + 4096 * n ≤ b ∨ b + 4096 * m ≤ a.
Proof.
  intros Hk (l1 & l2 & ->)%list_elem_of_split Hb. apply (kp_head k (l1 ++ l2 ++ B)); [|set_solver]. eapply kp_perm; [|exact Hk].
  rewrite <-app_assoc. cbn [app]. by rewrite <-Permutation_middle.
Qed.

Lemma heap_pages_elem ps p : p ∈ ps → (pi_page p, 1) ∈ heap_pages ps.
Proof. intros Hp. apply list_elem_of_fmap. by exists p. Qed.

Lemma ref_pages_elem l r pg : zget l r = Some pg → pg ≠ 0 → (pg, 1) ∈ ref_pages l.
Proof.
  intros Hr Hne. apply list_elem_of_fmap. exists pg. split; [done|]. apply list_elem_of_filter. split; [done|].
  unfold zget in Hr. case_decide; [|done]. by eapply list_elem_of_lookup_2.
Qed.

Section blocks.
Context h k lv ps held claims bigs lost (Hc : core h k lv ps held claims bigs lost).

Lemma core_page p : p ∈ ps → page_ok h p.
Proof. apply heap_page, (co_heap _ _ _ _ _ _ _ _ Hc). Qed.

(** A block is in a run of pages. *)
Lemma block_run a n : block_of ps bigs a n → ∃ b m, (b, m) ∈ heap_pages ps ++ ref_pages (root_pages h) ++ bigs ∧ b ≤ a ∧ a + n ≤ b + 4096 * m.
Proof.
  intros [(p & o & Hp & Hb & _ & -> & ->)|(m & Hm & ->)].
  - exists (pi_page p), 1. split; [apply elem_of_app; left; by apply heap_pages_elem|]. destruct (core_page p Hp) as [Ht _ _ _ _ _].
    pose proof (block_end _ _ Ht Hb). destruct Hb. lia.
  - exists a, m. split; [|lia]. rewrite !elem_of_app. by right; right.
Qed.

Lemma block_nonneg a n : block_of ps bigs a n → MIPS_KSEG0 < a ∧ a mod 16 = 0 ∧ 0 < n ∧ a + n ≤ MIPS_KSEG1.
Proof.
  pose proof (co_pages _ _ _ _ _ _ _ _ Hc) as Hk. intros Hb. destruct (block_run a n Hb) as (b & m & Hin & H1 & H2).
  destruct (kp_elem _ _ b m Hk ltac:(apply elem_of_app; by right)) as (R1 & R2 & R3 & R4). split; [lia|]. split; [|split; [|lia]].
  - destruct Hb as [(p & o & Hp & [Ho Hm] & _ & -> & ->)|(m' & Hm & ->)].
    + destruct (core_page p Hp) as [Ht (_ & Hpg & _) _ _ _ _]. destruct (bsize_ok _ Ht) as (_ & Hs & Hs16 & _). 
      pose proof (Z.div_mod o _ (ltac:(lia) : bsize (pi_type p) ≠ 0)) as D. rewrite Hm in D. pose proof (Z.div_mod (bsize (pi_type p)) 16 ltac:(lia)) as D2. rewrite Hs16 in D2.
      pose proof (Z.div_mod (pi_page p) 4096 ltac:(lia)) as D3. rewrite Hpg in D3.
      replace (pi_page p + o) with ((256 * (pi_page p / 4096) + bsize (pi_type p) / 16 * (o / bsize (pi_type p))) * 16) by nia. by apply Z.mod_mul.
    + destruct (kp_elem _ _ a m' Hk ltac:(rewrite !elem_of_app; tauto)) as (_ & Hm0 & _). Z.to_euclidean_division_equations. lia.
  - destruct Hb as [(p & o & Hp & _ & _ & _ & ->)|(m' & Hm & ->)].
    + destruct (core_page p Hp) as [Ht _ _ _ _ _]. destruct (bsize_ok _ Ht). lia.
    + destruct (kp_elem _ _ a m' Hk ltac:(rewrite !elem_of_app; tauto)). lia.
Qed.

Lemma sub_big_apart p o a n : p ∈ ps → is_block (pi_type p) o → (a, n) ∈ bigs → pi_page p + o + bsize (pi_type p) ≤ a ∨ a + 4096 * n ≤ pi_page p + o.
Proof.
  pose proof (co_pages _ _ _ _ _ _ _ _ Hc) as Hk. intros Hp Hb Ha. destruct (core_page p Hp) as [Ht _ _ _ _ _]. pose proof (block_end _ _ Ht Hb). destruct Hb as [Ho _].
  rewrite app_assoc in Hk. destruct (kp_app _ _ _ (pi_page p) 1 a n Hk); [rewrite elem_of_app; right; by apply heap_pages_elem|rewrite elem_of_app; by right|lia..].
Qed.

Lemma sub_apart p o q o' : p ∈ ps → q ∈ ps → is_block (pi_type p) o → is_block (pi_type q) o' → pi_page p + o ≠ pi_page q + o' →
  pi_page p + o + bsize (pi_type p) ≤ pi_page q + o' ∨ pi_page q + o' + bsize (pi_type q) ≤ pi_page p + o.
Proof.
  pose proof (co_pages _ _ _ _ _ _ _ _ Hc) as Hk. intros Hp Hq Hb Hb' Hne.
  destruct (core_page p Hp) as [Ht _ _ _ _ _]. destruct (core_page q Hq) as [Ht' _ _ _ _ _]. destruct (decide (pi_page p = pi_page q)) as [E|E].
  - apply (map_inj pi_page ps) in E as ->; [|by apply ho_distinct with h, (co_heap _ _ _ _ _ _ _ _ Hc)|done..].
    destruct (blocks_apart _ o o' Ht Hb Hb'); [by intros ->|lia..].
  - pose proof (block_end _ _ Ht Hb). pose proof (block_end _ _ Ht' Hb'). destruct Hb as [Ho _], Hb' as [Ho' _].
    destruct (kp_two _ _ (pi_page p) 1 (pi_page q) 1 Hk) as [?|?]; [rewrite !elem_of_app; right; left; by apply heap_pages_elem..|done|lia|lia].
Qed.

Lemma blocks_disjoint a n b m : block_of ps bigs a n → block_of ps bigs b m → a ≠ b → a + n ≤ b ∨ b + m ≤ a.
Proof.
  pose proof (co_pages _ _ _ _ _ _ _ _ Hc) as Hk. intros [(p & o & Hp & Hb & _ & -> & ->)|(n' & Hn & ->)] [(q & o' & Hq & Hb' & _ & -> & ->)|(m' & Hm & ->)] Hne.
  - by apply sub_apart.
  - by apply sub_big_apart.
  - apply or_comm. by apply sub_big_apart.
  - apply (kp_two _ _ a n' b m' Hk); [rewrite !elem_of_app; tauto..|done].
Qed.

(** A block in use and a free block. *)
Lemma free_apart a n q o : block_of ps bigs a n → q ∈ ps → o ∈ pi_free q → pi_page q + o + bsize (pi_type q) ≤ a ∨ a + n ≤ pi_page q + o.
Proof.
  intros Hb Hq Ho. pose proof (core_page q Hq) as [Ht _ _ Hbl _ _]. rewrite Forall_forall in Hbl. specialize (Hbl o Ho).
  destruct Hb as [(p & o' & Hp & Hb & Hno & -> & ->)|(m & Hm & ->)]; [|by apply sub_big_apart]. apply sub_apart; try done. intros E.
  pose proof (core_page p Hp) as [Ht' _ _ _ _ _]. assert (p = q) as ->; [|apply Hno; by replace o' with o by lia].
  apply (map_inj pi_page ps); [by apply ho_distinct with h, (co_heap _ _ _ _ _ _ _ _ Hc)|done|done|]. destruct (decide (pi_page p = pi_page q)) as [|Hne]; [done|]. exfalso.
  apply (pages_apart (pi_page p) (pi_page q) o' o); [by apply (core_page p)|by apply (core_page q)|done|by destruct Hb|by destruct Hbl|done].
Qed.
End blocks.

(** ** Steps *)

Lemma core_perm h k lv ps held claims bigs lost held' claims' : held ≡ₚ held' → claims ≡ₚ claims' → core h k lv ps held claims bigs lost → core h k lv ps held' claims' bigs lost.
Proof.
  intros E1 E2 [H1 H2 H3 H4 H5 H6 H7 H8]. constructor; try done.
  - eapply slots_perm; [|exact H3]. by rewrite E2.
  - intros r r' pg pg' Hr Hg Hg' Hor. apply (H5 r r' pg pg'); try done. by setoid_rewrite E2.
  - eapply kp_perm; [|exact H6]. by rewrite E1.
Qed.

(** The frame allocator. *)
Lemma core_alloc h k lv ps held claims bigs lost : core h k lv ps held claims bigs lost →
  ∃ va k', kp_alloc 1 k = Ok (va, k') ∧ (va = 0 ∧ core h k' lv ps held claims bigs lost ∨ va ≠ 0 ∧ is_page va ∧ core h k' lv ps ((va, 1) :: held) claims bigs lost).
Proof.
  intros [H1 H2 H3 H4 H5 H6 H7 H8]. destruct (kp_alloc_ok k _ 1 H6) as (va & k' & E & [[-> Hk]|[Hva Hk]]); exists va, k' || exists 0, k'; (split; [done|]); [left|right]; split; try done.
  split; [|done]. destruct (kp_range k' va 1 _ Hk) as (R1 & R2 & R3 & R4). unfold is_page. lia.
Qed.

Lemma core_free h k lv ps a n held claims bigs lost : core h k lv ps ((a, n) :: held) claims bigs lost →
  ∃ k', kp_free a k = Ok k' ∧ core h k' lv ps held claims bigs lost.
Proof. intros [H1 H2 H3 H4 H5 H6 H7 H8]. destruct (kp_free_ok k a n _ H6) as (k' & E & Hk). by exists k'. Qed.

(** A large block. *)
Lemma core_big_alloc h k lv ps held claims bigs lost sz : core h k lv ps held claims bigs lost → 2048 ≤ sz < two32 →
  ∃ a k', kp_alloc (u32 (sz + PAGE_SIZE - 1) / PAGE_SIZE) k = Ok (a, k') ∧
    (a = 0 ∧ core h k' lv ps held claims bigs lost ∨
     a ≠ 0 ∧ a mod PAGE_SIZE = 0 ∧ ∃ n, core h k' (<[a := sz]> lv) ps held claims ((a, n) :: bigs) lost).
Proof.
  intros [H1 H2 H3 H4 H5 H6 H7 H8] Hsz. set (n := u32 (sz + PAGE_SIZE - 1) / PAGE_SIZE).
  destruct (kp_alloc_ok k _ n H6) as (a & k' & E & [[-> Hk]|[Ha Hk]]); [exists 0, k'; split; [done|]; by left|]. exists a, k'. split; [done|]. right.
  destruct (kp_range k' a n _ Hk) as (R1 & R2 & R3 & R4). split; [done|]. split; [done|]. exists n.
  assert (sz ≤ 4096 * n) as Hn.
  { subst n. revert R3. unfold PAGE_SIZE, two32 in *. destruct (decide (sz + 4096 - 1 < 4294967296)) as [Hlt|Hge].
    - rewrite u32_id by width. Z.to_euclidean_division_equations. lia.
    - unfold u32, two32. Z.to_euclidean_division_equations. lia. }
  constructor; try done.
  - eapply kp_perm; [|exact Hk]. by rewrite !app_assoc, <-Permutation_middle.
  - intros b x. destruct (decide (b = a)) as [->|Hne].
    + rewrite lookup_insert_eq. intros [= <-]. split; [lia|]. exists (4096 * n). split; [|done]. right. exists n. split; [by left|done].
    + rewrite lookup_insert_ne by done. intros Hb. destruct (H7 b x Hb) as (Hx & m & [?|(m' & Hm & ->)] & Hle); split; try done; eexists; (split; [|exact Hle]); [by left|].
      right. exists m'. split; [by right|done].
  - intros b m [Hb|(m' & [[= -> ->]|Hm]%elem_of_cons & ->)]; [|rewrite lookup_insert_eq; by eexists|]; apply lookup_insert_is_Some'; right; eapply H8; [by left|right; by exists m'].
Qed.

(** *** Blocks of a page *)

Lemma block_of_mid ps1 p ps2 bigs fl a n : block_of (ps1 ++ set_free fl p :: ps2) bigs a n ↔
  block_of (ps1 ++ ps2) bigs a n ∨ ∃ o, is_block (pi_type p) o ∧ (o ∉ fl) ∧ a = pi_page p + o ∧ n = bsize (pi_type p).
Proof.
  unfold block_of. split.
  - intros [(q & o & [->|Hq]%elem_split & Hb)|Hb]; [right; by exists o|left; left; by exists q, o|left; by right].
  - intros [[(q & o & Hq & Hb)|Hb]|(o & Hb)]; [left|by right|left].
    + exists q, o. split; [|done]. rewrite elem_of_app in *. rewrite elem_of_cons. tauto.
    + exists (set_free fl p), o. split; [set_solver|done].
Qed.

Lemma set_free_id p : set_free (pi_free p) p = p.
Proof. by destruct p. Qed.

Lemma block_rest_ne h k lv ps1 p ps2 held claims bigs lost a n o : core h k lv (ps1 ++ p :: ps2) held claims bigs lost →
  block_of (ps1 ++ ps2) bigs a n → is_block (pi_type p) o → a ≠ pi_page p + o.
Proof.
  intros Hc Hb Ho. assert (p ∈ ps1 ++ p :: ps2) as Hin by set_solver. destruct (core_page _ _ _ _ _ _ _ _ Hc p Hin) as [Ht Hpg _ _ _ _].
  destruct Hb as [(q & o' & Hq & [Ho' _] & _ & -> & _)|(m & Hm & _)].
  - assert (pi_page q ≠ pi_page p) as Hne by (eapply (others_differ pi_page); [apply (ho_distinct _ _ (co_heap _ _ _ _ _ _ _ _ Hc))|done]).
    apply pages_apart; [|done|done|done|by destruct Ho]. apply (core_page _ _ _ _ _ _ _ _ Hc q). rewrite elem_of_app in *. rewrite elem_of_cons. tauto.
  - intros ->. pose proof (kp_elem _ _ (pi_page p + o) m (co_pages _ _ _ _ _ _ _ _ Hc) ltac:(rewrite !elem_of_app; tauto)) as (_ & _ & Hm1 & _).
    destruct (bsize_ok _ Ht) as (_ & Hs & _). destruct (sub_big_apart _ _ _ _ _ _ _ _ Hc p o _ m Hin Ho Hm); lia.
Qed.

(** The same pages with other free blocks. *)
Lemma core_change h h' k lv lv' ps1 p ps2 fl held claims bigs lost : core h k lv (ps1 ++ p :: ps2) held claims bigs lost →
  heap_ok h' (ps1 ++ set_free fl p :: ps2) → kheaproots h' = kheaproots h → zlen fl < nblocks_of (pi_type p) →
  (∀ a sz, lv' !! a = Some sz → 0 ≤ sz ∧ ∃ n, block_of (ps1 ++ set_free fl p :: ps2) bigs a n ∧ sz ≤ n) →
  (∀ a n, block_of (ps1 ++ set_free fl p :: ps2) bigs a n → is_Some (lv' !! a)) →
  core h' k lv' (ps1 ++ set_free fl p :: ps2) held claims bigs lost.
Proof.
  intros [H1 H2 H3 H4 H5 H6 H7 H8] Hok R Hbusy Hl Hu. assert (root_pages h' = root_pages h) as Hrp by (unfold root_pages; by rewrite R).
  constructor; try done.
  - apply Forall_app in H2 as [B1 [B2 B3]%Forall_cons]. apply Forall_app. split; [done|]. by constructor.
  - destruct H3 as [S1 S2 S3]. replace (map pi_slot (ps1 ++ set_free fl p :: ps2)) with (map pi_slot (ps1 ++ p :: ps2)) by (rewrite !map_app; done).
    constructor; rewrite ?R; done.
  - intros q Hq. rewrite Hrp. apply elem_split in Hq as [->|Hq]; [apply (H4 p); set_solver|]. apply H4. rewrite elem_of_app in *. rewrite elem_of_cons. tauto.
  - by rewrite Hrp.
  - rewrite Hrp. unfold heap_pages in *. rewrite map_app in *. done.
Qed.

Lemma core_doalloc h k lv ps p held claims bigs lost sz : core h k lv ps held claims bigs lost → p ∈ ps → pi_free p ≠ [] → 0 ≤ sz ≤ bsize (pi_type p) →
  ∃ a h' ps', doalloc (pi_pr p) h = Ok (a, h') ∧ core h' k (<[a := sz]> lv) ps' held claims bigs lost ∧ words h' = words h ∧ kheaproots h' = kheaproots h.
Proof.
  intros Hc (ps1 & ps2 & ->)%list_elem_of_split Hfree Hsz. destruct (pi_free p) as [|o fl] eqn:Ef; [done|]. clear Hfree.
  pose proof (core_page _ _ _ _ _ _ _ _ Hc p ltac:(set_solver)) as [Ht _ _ Hbl Hnd _]. rewrite Ef in Hbl, Hnd. apply Forall_cons in Hbl as [Ho Hbl]. apply NoDup_cons in Hnd as [Hno Hnd].
  destruct (doalloc_ok h ps1 p ps2 o fl (co_heap _ _ _ _ _ _ _ _ Hc) Ef) as (h' & E & Hok & R & W). exists (pi_page p + o), h', (ps1 ++ set_free fl p :: ps2).
  split; [done|]. split; [|done]. pose proof (free_count _ (o :: fl) Ht ltac:(by constructor) ltac:(by apply NoDup_cons)) as Hle. rewrite zlen_cons in Hle.
  assert (∀ a n, block_of (ps1 ++ p :: ps2) bigs a n ↔ block_of (ps1 ++ ps2) bigs a n ∨ ∃ o', is_block (pi_type p) o' ∧ (o' ∉ o :: fl) ∧ a = pi_page p + o' ∧ n = bsize (pi_type p)) as Hold.
  { intros a n. rewrite <-Ef, <-block_of_mid, set_free_id. done. }
  apply (core_change h _ _ lv _ _ _ _ _ _ _ _ _ Hc Hok R ltac:(lia)).
  - intros a x. destruct (decide (a = pi_page p + o)) as [->|Hne].
    + rewrite lookup_insert_eq. intros [= <-]. split; [lia|]. exists (bsize (pi_type p)). split; [|lia]. apply block_of_mid. right. by exists o.
    + rewrite lookup_insert_ne by done. intros Ha. destruct (co_live _ _ _ _ _ _ _ _ Hc a x Ha) as (Hx & n & Hb & Hn). split; [done|]. exists n. split; [|done].
      apply block_of_mid. apply Hold in Hb as [Hb|(o' & Hb & Hno' & Hb')]; [by left|]. right. exists o'. split; [done|]. split; [|done]. intros Hin. apply Hno'. by right.
  - intros a n Hb. apply lookup_insert_is_Some'. destruct (decide (pi_page p + o = a)) as [|Hne]; [by left|right]. apply (co_used _ _ _ _ _ _ _ _ Hc a n), Hold.
    apply block_of_mid in Hb as [Hb|(o' & Hb & Hno' & -> & ->)]; [by left|]. right. exists o'. split; [done|]. split; [|done]. intros [->|Hin]%elem_of_cons; [done|done].
Qed.

(** *** Pagerefs *)

Lemma heap_roots_only h h' ps : heap_ok h ps → roots_only h h' → heap_ok h' ps.
Proof. intros Hok (E1 & E2 & E3 & E4 & _). apply (heap_words h); try done. intros p o _ _. by rewrite E4. Qed.

(** A root without a page has no pagerefs on the heap. *)
Lemma root_unused h k lv ps held claims bigs lost r : core h k lv ps held claims bigs lost → zget (root_pages h) r = Some 0 →
  of_root r (map pi_slot ps ++ claims ++ lost) = of_root r (claims ++ lost).
Proof.
  intros Hc Hr. unfold of_root. rewrite filter_app, map_app. replace (filter (λ s : Z * Z, s.1 = r) (map pi_slot ps)) with (@nil (Z * Z)); [done|]. symmetry.
  apply elem_of_nil_inv. intros s [Es (p & -> & Hp)%list_elem_of_fmap]%list_elem_of_filter. destruct (co_place _ _ _ _ _ _ _ _ Hc p Hp) as (pg & Hpg & Hne & _). rewrite Es in Hpg. congruence.
Qed.

Lemma core_claim h k lv ps held claims bigs lost : core h k lv ps held claims bigs lost → zlen (claims ++ lost) < 256 →
  (∃ s h' pg, claim_pageref h = Ok (Some s, h') ∧ core h' k lv ps held (s :: claims) bigs lost ∧ roots_only h h' ∧ zget (root_pages h') s.1 = Some pg ∧ 0 ≤ s.2) ∨
  claim_pageref h = Ok (None, h).
Proof.
  intros Hc Hb. pose proof Hc as [H1 H2 H3 H4 H5 H6 H7 H8]. destruct (claim_ok h _ H3) as [(s & h' & E & Hs & Hno & Hr & Hj & Hro & Hfull)|E]; [left|by right].
  pose proof Hro as (_ & _ & _ & _ & Erp). assert (zlen (root_pages h) = 16) as Hl by (unfold root_pages, zlen; rewrite length_map; exact (so_roots _ _ H3)).
  destruct (zget_range (root_pages h) s.1 ltac:(lia)) as [pg Hpg]. exists s, h', pg. split; [done|]. split; [|split; [done|split; [by rewrite Erp|lia]]].
  constructor; try done; [by eapply heap_roots_only|eapply slots_perm; [|exact Hs]; cbn [app]; by rewrite <-Permutation_middle|by rewrite Erp| |by rewrite Erp].
  rewrite Erp. intros r r' pg1 pg' Hrr Hg Hg' Hor. destruct (decide (r = s.1)) as [->|Hne].
  - intros ->. pose proof (Hfull r' ltac:(lia)) as Hf. rewrite (root_unused h k lv ps held claims bigs lost r' Hc Hg') in Hf.
    unfold of_root, zlen in *. rewrite length_map in Hf. pose proof (length_filter (λ s : Z * Z, s.1 = r') (claims ++ lost)). lia.
  - apply (H5 r r' pg1 pg'); try done. destruct Hor as [?|(s' & Hs' & Es')]; [by left|right]. cbn [app] in Hs'. apply elem_of_cons in Hs' as [->|Hs']; [done|]. by exists s'.
Qed.

Lemma core_lose h k lv ps held s claims bigs lost : core h k lv ps held (s :: claims) bigs lost → core h k lv ps held claims bigs (s :: lost).
Proof.
  intros [H1 H2 H3 H4 H5 H6 H7 H8]. assert (claims ++ s :: lost ≡ₚ (s :: claims) ++ lost) as E by (by rewrite <-Permutation_middle).
  constructor; try done; [eapply slots_perm; [|exact H3]; by rewrite E|]. intros r r' pg pg' Hr Hg Hg' Hor. apply (H5 r r' pg pg'); try done. by setoid_rewrite E in Hor.
Qed.

Lemma ref_pages_zset l r va : zget l r = Some 0 → va ≠ 0 → ref_pages (zset l r va) ≡ₚ (va, 1) :: ref_pages l.
Proof.
  intros Hr Hva. pose proof (zget_Some_range _ _ _ Hr) as [Hr0 _]. unfold zget in Hr. rewrite decide_True in Hr by done. unfold zset. rewrite decide_True by done.
  rewrite <-(take_drop_middle _ _ _ Hr) at 2. rewrite insert_take_drop by (by eapply lookup_lt_Some). unfold ref_pages.
  rewrite !filter_app, filter_cons_True, filter_cons_False by naive_solver. rewrite !map_app. cbn [map]. by rewrite <-Permutation_middle.
Qed.

Lemma core_set_page h k lv ps va held claims bigs lost s : core h k lv ps ((va, 1) :: held) claims bigs lost → s ∈ claims → va ≠ 0 →
  zget (root_pages h) s.1 = Some 0 →
  ∃ h', set_page s.1 va h = Ok h' ∧ core h' k lv ps held claims bigs lost ∧ words h' = words h ∧ root_pages h' = zset (root_pages h) s.1 va.
Proof.
  intros [H1 H2 H3 H4 H5 H6 H7 H8] Hs Hva Hz. pose proof (so_range _ _ H3 s ltac:(rewrite !elem_of_app; tauto)) as Hr.
  destruct (zget_range (kheaproots h) s.1 ltac:(rewrite (so_roots _ _ H3); lia)) as [root Hroot]. unfold set_page. rewrite Hroot. cbn [deref]. rewrite bind_of_Ok.
  set (root' := Root va (pagerefs_inuse root) (numinuse root)). assert (root_pages (with_roots (zset (kheaproots h) s.1 root') h) = zset (root_pages h) s.1 va) as Erp by (by rewrite root_pages_zset).
  assert (∀ r pg, zget (root_pages h) r = Some pg → pg ≠ 0 → zget (zset (root_pages h) s.1 va) r = Some pg) as Hkeep.
  { intros r pg Hg Hne. rewrite zget_zset_ne; [done|]. intros <-. congruence. }
  eexists. split; [done|]. split; [|done]. constructor; try done.
  - by apply (heap_words h).
  - eapply root_set_slots; [exact H3|exact Hroot| |done]. destruct (so_root _ _ H3 _ _ Hroot) as [R1 R2 R3 R4 R5]. by constructor.
  - rewrite Erp. intros p Hp. destruct (H4 p Hp) as (pg & Hpg & Hne & Epr). exists pg. split; [|done]. by apply Hkeep.
  - rewrite Erp. intros r r' pg pg' Hrr Hg Hg' Hor.
    destruct (decide (r' = s.1)) as [->|Hne']; [rewrite zget_zset_eq in Hg'; [congruence|by apply zget_Some_range in Hz]|]. rewrite zget_zset_ne in Hg' by done.
    destruct (decide (r = s.1)) as [->|Hne].
    + apply (H5 s.1 r' 0 pg'); try done. right. exists s. split; [|done]. apply elem_of_app. by left.
    + rewrite zget_zset_ne in Hg by done. by apply (H5 r r' pg pg').
  - rewrite Erp. eapply kp_perm; [|exact H6]. rewrite (ref_pages_zset _ _ _ Hz Hva). cbn [app]. by rewrite <-!Permutation_middle.
Qed.

(** Two pages of pagerefs are apart. *)
Lemma ref_two k A l B r r' pg pg' : kp_ok k (A ++ ref_pages l ++ B) → r' ≠ r → zget l r = Some pg → zget l r' = Some pg' → pg ≠ 0 → pg' ≠ 0 →
  pg + 4096 ≤ pg' ∨ pg' + 4096 ≤ pg.
Proof.
  assert (∀ r r' pg pg', kp_ok k (A ++ ref_pages l ++ B) → r' < r → zget l r = Some pg → zget l r' = Some pg' → pg ≠ 0 → pg' ≠ 0 → pg + 4096 ≤ pg' ∨ pg' + 4096 ≤ pg) as Hlt.
  - clear. intros r r' pg pg' Hk Hlt Hr Hr' Hne Hne'. pose proof (zget_Some_range _ _ _ Hr') as [Hge _]. unfold zget in Hr, Hr'. rewrite decide_True in Hr by lia. rewrite decide_True in Hr' by lia.
    pose proof (take_drop_middle _ _ _ Hr') as El. assert (pg ∈ drop (S (Z.to_nat r')) l) as Hin.
    { apply list_elem_of_lookup. exists (Z.to_nat r - S (Z.to_nat r'))%nat. rewrite lookup_drop. replace (S (Z.to_nat r') + (Z.to_nat r - S (Z.to_nat r')))%nat with (Z.to_nat r) by lia. done. }
    rewrite <-El in Hk. unfold ref_pages in Hk. rewrite filter_app, filter_cons_True, map_app in Hk by done. cbn [map] in Hk. apply or_comm.
    apply (kp_head k (A ++ (map one_page (filter (λ a, a ≠ 0) (take (Z.to_nat r') l)) ++ map one_page (filter (λ a, a ≠ 0) (drop (S (Z.to_nat r')) l))) ++ B) pg' 1 pg 1).
    + eapply kp_perm; [|exact Hk]. rewrite <-!app_assoc. cbn [app]. unfold one_page at 2. by rewrite <-!Permutation_middle.
    + rewrite !elem_of_app. right. left. right. apply list_elem_of_fmap. exists pg. split; [done|]. by apply list_elem_of_filter.
  - intros Hk Hne Hr Hr' Hz Hz'. destruct (decide (r' < r)); [by eapply (Hlt r r')|]. apply or_comm. eapply (Hlt r' r); try done. lia.
Qed.

(** *** A new page of blocks *)

Lemma kept_outside h h' k lv lv' ps held claims bigs lost lo hi : core h k lv ps held claims bigs lost → (∀ x, ¬ lo ≤ x < hi → words h' x = words h x) →
  (∀ a n sz, block_of ps bigs a n → lv' !! a = Some sz → a + n ≤ lo ∨ hi ≤ a) → kept lv lv' h h'.
Proof.
  intros Hc Hw Hd a sz x Ha Ha' Hx. destruct (co_live _ _ _ _ _ _ _ _ Hc a sz Ha) as (_ & n & Hb & Hn). apply Hw. destruct (Hd a n sz Hb Ha'); lia.
Qed.

Lemma pr_fresh h k lv ps held s claims bigs lost pg : core h k lv ps held (s :: claims) bigs lost → zget (root_pages h) s.1 = Some pg → pg ≠ 0 →
  pg + 16 * s.2 ≠ 0 ∧ pg + 16 * s.2 ∉ map pi_pr ps.
Proof.
  intros Hc Hpg Hne. pose proof (co_slots _ _ _ _ _ _ _ _ Hc) as Hs. pose proof (co_pages _ _ _ _ _ _ _ _ Hc) as Hk. rewrite app_assoc in Hk.
  assert (∀ q, q ∈ map pi_slot ps ++ (s :: claims) ++ lost → 0 ≤ q.2 < 256) as Hrange.
  { intros q Hq. destruct (zget_range (kheaproots h) q.1) as [root Hroot]; [rewrite (so_roots _ _ Hs); by apply (so_range _ _ Hs)|].
    apply (ro_range _ _ (so_root _ _ Hs _ _ Hroot)), elem_of_root. by destruct q. }
  pose proof (Hrange s ltac:(rewrite !elem_of_app; right; left; by left)) as Hs2.
  pose proof (kp_elem _ _ pg 1 Hk ltac:(rewrite !elem_of_app; right; left; by eapply ref_pages_elem)) as (Hkseg & _). unfold MIPS_KSEG0 in Hkseg. split; [lia|].
  intros (p & E & Hp)%list_elem_of_fmap. destruct (co_place _ _ _ _ _ _ _ _ Hc p Hp) as (pg' & Hpg' & Hne' & Epr). rewrite Epr in E.
  pose proof (Hrange (pi_slot p) ltac:(rewrite elem_of_app; left; by apply list_elem_of_fmap_2)) as Hp2.
  destruct (decide ((pi_slot p).1 = s.1)) as [Er|Er].
  - rewrite Er, Hpg in Hpg'. injection Hpg' as <-. assert (pi_slot p = s) as Eslot by (destruct (pi_slot p), s; cbn in *; f_equal; lia).
    apply slots_NoDup in Hs. apply NoDup_app in Hs as (_ & Hs & _). apply (Hs s); [rewrite <-Eslot; by apply list_elem_of_fmap_2|by left].
  - destruct (ref_two _ _ _ _ s.1 (pi_slot p).1 pg pg' Hk); try done; lia.
Qed.

Lemma core_new_page h k lv ps pg held s claims bigs lost rp t sz : core h k lv ps ((pg, 1) :: held) (s :: claims) bigs lost → is_page pg →
  zget (root_pages h) s.1 = Some rp → rp ≠ 0 → 0 ≤ t < 8 → 0 ≤ sz ≤ bsize t →
  ∃ a h' ps', new_page (rp + 16 * s.2) pg t h = Ok (a, h') ∧ core h' k (<[a := sz]> lv) ps' held claims bigs lost ∧
    kept lv (<[a := sz]> lv) h h' ∧ kheaproots h' = kheaproots h.
Proof.
  intros Hc Hpg Hrp Hne Ht Hsz. destruct (pr_fresh _ _ _ _ _ _ _ _ _ _ Hc Hrp Hne) as [Hnz Hfresh]. pose proof Hc as [H1 H2 H3 H4 H5 H6 H7 H8].
  assert (pg ∉ map pi_page ps) as Hpf.
  { intros (p & -> & Hp)%list_elem_of_fmap. destruct (kp_head _ _ _ _ (pi_page p) 1 H6); [|lia|lia]. rewrite !elem_of_app. right. left. by apply heap_pages_elem. }
  destruct (new_page_ok h ps s _ pg t H1 Ht Hpg Hnz Hfresh Hpf) as (o & fl & h' & E & Hok & R & W & Hno & Hall & Hl).
  exists (pg + o), h', (PI s (rp + 16 * s.2) pg t fl :: ps). split; [done|]. set (p := PI s (rp + 16 * s.2) pg t fl) in *.
  assert (root_pages h' = root_pages h) as Erp by (unfold root_pages; by rewrite R).
  assert (∀ a n, block_of (p :: ps) bigs a n ↔ block_of ps bigs a n ∨ a = pg + o ∧ n = bsize t) as Hbl.
  { intros a n. pose proof (block_of_mid [] p ps bigs fl a n) as Em. cbn [app] in Em. change (set_free fl p) with p in Em. rewrite Em. cbn [p pi_type pi_page]. split; (intros [Hb|Hb]; [by left|right]).
    - destruct Hb as (o' & Hb & Hno' & -> & ->). apply Hall in Hb as [->|Hb]; [done|done].
    - destruct Hb as [-> ->]. exists o. split; [apply Hall; by left|done]. }
  split; [|split; [|done]].
  - constructor; try done.
    + constructor; [|done]. unfold busy. cbn. lia.
    + assert (slots_ok h' (map pi_slot ps ++ (s :: claims) ++ lost)) as Hs' by (destruct H3 as [S1 S2 S3]; constructor; rewrite ?R; done).
      eapply slots_perm; [|exact Hs']. cbn [map app p pi_slot]. by rewrite <-Permutation_middle.
    + rewrite Erp. intros q [->|Hq]%elem_of_cons; [by exists rp|by apply H4].
    + rewrite Erp. intros r r' pg1 pg' Hr Hg Hg' Hor. apply (H5 r r' pg1 pg'); try done. destruct Hor as [?|(q & Hq & Hq')]; [by left|right]. exists q. split; [by right|done].
    + rewrite Erp. eapply kp_perm; [|exact H6]. cbn [heap_pages map app]. by rewrite <-Permutation_middle.
    + intros a x. destruct (decide (a = pg + o)) as [->|Hne'].
      * rewrite lookup_insert_eq. intros [= <-]. split; [lia|]. exists (bsize t). split; [apply Hbl; by right|lia].
      * rewrite lookup_insert_ne by done. intros Ha. destruct (H7 a x Ha) as (Hx & n & Hb & Hn). split; [done|]. exists n. split; [apply Hbl; by left|done].
    + intros a n Hb. apply lookup_insert_is_Some'. apply Hbl in Hb as [Hb|[-> _]]; [right; by eapply H8|by left].
  - eapply (kept_outside _ _ _ _ _ _ _ _ _ _ pg (pg + 4096) Hc W). intros a n x Hb _. destruct (block_run _ _ _ _ _ _ _ _ Hc a n Hb) as (b & m & Hin & Hb1 & Hb2).
    destruct (kp_head _ _ _ _ b m H6); [rewrite elem_of_app; by right|lia..].
Qed.

(** *** Freeing *)

Lemma kfree_big h k lv ps held claims bigs lost ptr m : core h k lv ps held claims bigs lost → (ptr, m) ∈ bigs →
  subpage_kfree ptr h = Ok None ∧ ∃ bigs', core h k (delete ptr lv) ps ((ptr, m) :: held) claims bigs' lost.
Proof.
  intros Hc Hin. pose proof Hc as [H1 H2 H3 H4 H5 H6 H7 H8]. pose proof (kp_elem _ _ ptr m H6 ltac:(rewrite !elem_of_app; tauto)) as (_ & _ & Hm & _). split.
  - apply (subpage_kfree_none h ps); [done|]. intros p Hp Hr. rewrite app_assoc in H6.
    destruct (kp_app _ _ _ (pi_page p) 1 ptr m H6); [rewrite elem_of_app; right; by apply heap_pages_elem|rewrite elem_of_app; by right|lia..].
  - apply list_elem_of_split in Hin as (l1 & l2 & ->). exists (l1 ++ l2).
    assert (kp_ok k ((ptr, m) :: held ++ heap_pages ps ++ ref_pages (root_pages h) ++ l1 ++ l2)) as Hk.
    { eapply kp_perm; [|exact H6]. rewrite !app_assoc. by rewrite <-Permutation_middle. }
    assert (∀ a n, a ≠ ptr → block_of ps (l1 ++ (ptr, m) :: l2) a n → block_of ps (l1 ++ l2) a n) as Hb1.
    { intros a n Hne [Hb|(m' & Hm' & ->)]; [by left|right]. exists m'. split; [|done]. rewrite elem_of_app, elem_of_cons in Hm'. rewrite elem_of_app. destruct Hm' as [?|[[= -> ->]|?]]; tauto. }
    assert (∀ a n, block_of ps (l1 ++ l2) a n → block_of ps (l1 ++ (ptr, m) :: l2) a n) as Hb2.
    { intros a n [Hb|(m' & Hm' & ->)]; [by left|right]. exists m'. split; [|done]. rewrite elem_of_app in Hm'. rewrite elem_of_app, elem_of_cons. tauto. }
    constructor; try done.
    + intros a x [Hne Ha]%lookup_delete_Some. destruct (H7 a x Ha) as (Hx & n & Hb & Hn). split; [done|]. exists n. split; [|done]. by apply Hb1.
    + intros a n Hb. rewrite lookup_delete_ne; [by eapply H8, Hb2|]. intros <-. destruct Hb as [(p & o & Hp & [Ho _] & _ & -> & _)|(m' & Hm' & _)].
      * destruct (kp_head _ _ _ _ (pi_page p) 1 Hk); [rewrite !elem_of_app; right; left; by apply heap_pages_elem|lia..].
      * destruct (kp_head _ _ _ _ ptr m' Hk); [rewrite !elem_of_app in *; tauto|lia|].
        pose proof (kp_elem _ _ ptr m' H6 ltac:(rewrite !elem_of_app, elem_of_cons in *; tauto)) as (_ & _ & Hm1 & _). lia.
Qed.

Lemma free_all t fl o : 0 ≤ t < 8 → Forall (is_block t) fl → NoDup fl → zlen fl = nblocks_of t → is_block t o → o ∈ fl.
Proof.
  intros Ht Hb Hnd Hl Ho. destruct (decide (o ∈ fl)) as [|Hno]; [done|]. pose proof (free_count t (o :: fl) Ht ltac:(by constructor) ltac:(by apply NoDup_cons)) as Hle.
  rewrite zlen_cons in Hle. lia.
Qed.

Lemma ref_index pg pg' j : is_page pg → is_page pg' → 0 ≤ j < 256 → pg + 4096 ≤ pg' ∨ pg' + 4096 ≤ pg → 256 ≤ u32 ((pg + 16 * j - pg') / 16).
Proof.
  unfold is_page, MIPS_KSEG0, MIPS_KSEG1, u32, two32. intros (H1 & H2 & H3) (H1' & H2' & H3') Hj Hd.
  assert ((pg + 16 * j - pg') / 16 = (pg - pg') / 16 + j ∧ (pg - pg') mod 4096 = 0) as [-> _] by (Z.to_euclidean_division_equations; lia). 
  destruct Hd; [|rewrite Z.mod_small]; Z.to_euclidean_division_equations; lia.
Qed.

Lemma is_page_of k A a : kp_ok k A → (a, 1) ∈ A → is_page a.
Proof. intros Hk Ha. destruct (kp_elem _ _ _ _ Hk Ha) as (R1 & R2 & _ & R4). unfold is_page. lia. Qed.

Lemma live_after_free h k lv ps1 p ps2 held claims bigs lost o : core h k lv (ps1 ++ p :: ps2) held claims bigs lost → is_block (pi_type p) o → o ∉ pi_free p →
  let ptr := pi_page p + o in
  (∀ a x, delete ptr lv !! a = Some x → 0 ≤ x ∧ ∃ n, block_of (ps1 ++ set_free (o :: pi_free p) p :: ps2) bigs a n ∧ x ≤ n) ∧
  (∀ a n, block_of (ps1 ++ set_free (o :: pi_free p) p :: ps2) bigs a n → is_Some (delete ptr lv !! a)).
Proof.
  intros Hc Ho Hno ptr. pose proof (λ a n, block_of_mid ps1 p ps2 bigs (pi_free p) a n) as Hold. rewrite set_free_id in Hold. split.
  - intros a x [Hne Ha]%lookup_delete_Some. destruct (co_live _ _ _ _ _ _ _ _ Hc a x Ha) as (Hx & n & Hb & Hn). split; [done|]. exists n. split; [|done].
    apply block_of_mid. apply Hold in Hb as [Hb|(o' & Hb & Hno' & -> & ->)]; [by left|right]. exists o'. split; [done|]. split; [|done].
    intros [->|Hin]%elem_of_cons; done.
  - intros a n Hb. apply block_of_mid in Hb as [Hb|(o' & Hb & Hno' & -> & ->)].
    + rewrite lookup_delete_ne; [|symmetry; by eapply block_rest_ne]. eapply (co_used _ _ _ _ _ _ _ _ Hc), Hold. by left.
    + rewrite lookup_delete_ne; [|intros E; apply Hno'; replace o' with o by (subst ptr; lia); by left]. eapply (co_used _ _ _ _ _ _ _ _ Hc), Hold. right. exists o'.
      split; [done|]. split; [|done]. intros Hin. apply Hno'. by right.
Qed.

(** The page leaves the heap. *)
Lemma core_remove h h' k lv lv' ps1 p ps2 held claims bigs lost : core h k lv (ps1 ++ p :: ps2) held claims bigs lost → heap_ok h' (ps1 ++ ps2) →
  slots_ok h' (map pi_slot (ps1 ++ ps2) ++ claims ++ lost) → root_pages h' = root_pages h →
  (∀ a sz, lv' !! a = Some sz → 0 ≤ sz ∧ ∃ n, block_of (ps1 ++ ps2) bigs a n ∧ sz ≤ n) → (∀ a n, block_of (ps1 ++ ps2) bigs a n → is_Some (lv' !! a)) →
  core h' k lv' (ps1 ++ ps2) ((pi_page p, 1) :: held) claims bigs lost.
Proof.
  intros [H1 H2 H3 H4 H5 H6 H7 H8] Hok Hs Erp Hl Hu. constructor; try done.
  - apply Forall_app in H2 as [B1 [B2 B3]%Forall_cons]. by apply Forall_app.
  - intros q Hq. rewrite Erp. apply H4. rewrite elem_of_app in *. rewrite elem_of_cons. tauto.
  - by rewrite Erp.
  - rewrite Erp. eapply kp_perm; [|exact H6]. unfold heap_pages. rewrite !map_app. cbn [map app compose]. rewrite <-!app_assoc. cbn [app]. by rewrite <-!Permutation_middle.
Qed.

Lemma kfree_slot h k lv ps1 p ps2 held claims bigs lost h1 : core h k lv (ps1 ++ p :: ps2) held claims bigs lost → kheaproots h1 = kheaproots h →
  ∃ h', freepageref (pi_pr p) h1 = Ok h' ∧ slots_ok h' (map pi_slot (ps1 ++ ps2) ++ claims ++ lost) ∧ roots_only h1 h'.
Proof.
  intros Hc R. pose proof (co_slots _ _ _ _ _ _ _ _ Hc) as Hs. pose proof (co_pages _ _ _ _ _ _ _ _ Hc) as Hk. rewrite app_assoc in Hk.
  destruct (co_place _ _ _ _ _ _ _ _ Hc p ltac:(set_solver)) as (pg & Hpg & Hne & ->). destruct (pi_slot p) as [r j] eqn:Eslot. cbn [fst snd] in *.
  assert (root_pages h1 = root_pages h) as Erp by (unfold root_pages; by rewrite R).
  assert (slots_ok h1 ((r, j) :: map pi_slot (ps1 ++ ps2) ++ claims ++ lost)) as Hs1.
  { assert (slots_ok h1 (map pi_slot (ps1 ++ p :: ps2) ++ claims ++ lost)) as Hs' by (destruct Hs as [S1 S2 S3]; constructor; rewrite ?R; done).
    eapply slots_perm; [|exact Hs']. rewrite !map_app. cbn [map]. rewrite Eslot, <-!app_assoc. cbn [app]. by rewrite <-Permutation_middle. }
  assert (0 ≤ j < 256) as Hj.
  { pose proof (so_range _ _ Hs1 (r, j) ltac:(by left)) as Hr. destruct (zget_range (kheaproots h1) r) as [root Hroot]; [rewrite (so_roots _ _ Hs1); done|].
    apply (ro_range _ _ (so_root _ _ Hs1 _ _ Hroot)), elem_of_root. by left. }
  apply (freepageref_ok h1 _ r j pg); [done|by rewrite Erp|done|]. rewrite Erp. intros r' pg' Hr' Hpg'.
  pose proof (co_before _ _ _ _ _ _ _ _ Hc r r' pg pg' Hr' Hpg Hpg' ltac:(by left)) as Hne'. split; [done|].
  apply ref_index; [eapply is_page_of; [exact Hk|rewrite !elem_of_app; right; left; by eapply ref_pages_elem]..|done|].
  apply (ref_two _ _ _ _ r r' pg pg' Hk); try done. lia.
Qed.

Definition freed h k lv ps held claims bigs lost ptr (res : option (kheap * option Z)) : Prop :=
  match res with
  | None => ∃ n bigs', core h k (delete ptr lv) ps ((ptr, n) :: held) claims bigs' lost ∧ ptr mod 4096 = 0
  | Some (h', None) => ∃ ps', core h' k (delete ptr lv) ps' held claims bigs lost ∧ kept lv (delete ptr lv) h h' ∧ root_pages h' = root_pages h
  | Some (h', Some pg) => ∃ ps', core h' k (delete ptr lv) ps' ((pg, 1) :: held) claims bigs lost ∧ kept lv (delete ptr lv) h h' ∧ root_pages h' = root_pages h
  end.

Lemma core_kfree h k lv ps held claims bigs lost ptr sz : core h k lv ps held claims bigs lost → lv !! ptr = Some sz →
  ∃ res, subpage_kfree ptr h = Ok res ∧ freed h k lv ps held claims bigs lost ptr res.
Proof.
  intros Hc Hptr. destruct (co_live _ _ _ _ _ _ _ _ Hc ptr sz Hptr) as (_ & n & [(p & o & Hp & Ho & Hno & -> & ->)|(m & Hm & ->)] & Hn).
  2:{ destruct (kfree_big _ _ _ _ _ _ _ _ _ _ Hc Hm) as [E (bigs' & Hc')]. exists None. split; [done|]. exists m, bigs'. split; [done|].
      destruct (kp_elem _ _ ptr m (co_pages _ _ _ _ _ _ _ _ Hc)) as (_ & Hmod & _); [rewrite !elem_of_app; tauto|done]. }
  assert (block_of ps bigs (pi_page p + o) (bsize (pi_type p))) as Hblk by (left; by exists p, o).
  assert (∀ h', (∀ a, ¬ pi_page p + o ≤ a < pi_page p + o + bsize (pi_type p) → words h' a = words h a) → kept lv (delete (pi_page p + o) lv) h h') as Hkept.
  { intros h' W. eapply kept_outside; [exact Hc|exact W|]. intros a m x Hb [Hne _]%lookup_delete_Some.
    apply (blocks_disjoint _ _ _ _ _ _ _ _ Hc a m (pi_page p + o) (bsize (pi_type p))); done. }
  apply list_elem_of_split in Hp as (ps1 & ps2 & ->). destruct (core_page _ _ _ _ _ _ _ _ Hc p ltac:(set_solver)) as [Ht _ _ Hbl Hnd _].
  destruct (live_after_free _ _ _ _ _ _ _ _ _ _ o Hc Ho Hno) as [HL HU].
  destruct (subpage_kfree_ok h ps1 p ps2 o (co_heap _ _ _ _ _ _ _ _ Hc) Ho Hno) as [(h' & E & Hok & Hlt & R & W)|(h' & E & Hok & Hl & R & W)].
  - exists (Some (h', None)). split; [done|]. eexists. split; [by eapply core_change|]. split; [by apply Hkept|]. unfold root_pages. by rewrite R.
  - destruct (kfree_slot _ _ _ _ _ _ _ _ _ _ h' Hc R) as (h2 & E2 & Hs & Hro). rewrite E, E2, bind_of_Ok. exists (Some (h2, Some (pi_page p))). split; [done|].
    pose proof Hro as (_ & _ & _ & W2 & Erp). assert (root_pages h2 = root_pages h) as Erp' by (rewrite Erp; unfold root_pages; by rewrite R).
    assert (∀ a n, block_of (ps1 ++ set_free (o :: pi_free p) p :: ps2) bigs a n ↔ block_of (ps1 ++ ps2) bigs a n) as Hall.
    { intros a n. rewrite block_of_mid. split; [|by left]. intros [Hb|(o' & Hb & Hno' & _)]; [done|]. destruct Hno'. apply (free_all (pi_type p)); try done; [by constructor|by apply NoDup_cons]. }
    exists (ps1 ++ ps2). split; [|split; [apply Hkept; intros a Ha; rewrite W2; by apply W|done]].
    apply (core_remove h _ _ lv _ _ _ _ _ _ _ _ Hc); [by eapply heap_roots_only|done|done| |].
    + intros a x Ha. destruct (HL a x Ha) as (Hx & n & Hb & Hle). split; [done|]. exists n. split; [by apply Hall|done].
    + intros a n Hb. by eapply HU, Hall.
Qed.

(** *** A write of a client *)
Lemma core_write h k lv ps held claims bigs lost (p sz a x : Z) : core h k lv ps held claims bigs lost → lv !! p = Some sz → p ≤ a < p + sz →
  ∃ h', kstore a x h = Ok h' ∧ core h' k lv ps held claims bigs lost ∧ kheaproots h' = kheaproots h ∧ ∀ b, b ≠ a → words h' b = words h b.
Proof.
  intros Hc Hp Ha. destruct (co_live _ _ _ _ _ _ _ _ Hc p sz Hp) as (_ & n & Hb & Hn). destruct (block_nonneg _ _ _ _ _ _ _ _ Hc p n Hb) as (R1 & _ & _ & R2).
  rewrite kstore_ok by (unfold in_kseg0; rewrite andb_true_iff, Z.leb_le, Z.ltb_lt; lia). eexists. split; [done|]. split; [|split; [done|]].
  - pose proof (free_apart _ _ _ _ _ _ _ _ Hc p n) as Hfree. destruct Hc as [H1 H2 H3 H4 H5 H6 H7 H8]. constructor; try done; [|by destruct H3; constructor].
    apply (heap_words h); try done. intros q o Hq Ho. cbn. destruct (heap_page _ _ _ H1 Hq) as [Ht _ _ _ _ _]. destruct (bsize_ok _ Ht) as (_ & Hs & _).
    destruct (Hfree q o Hb Hq Ho); rewrite (proj2 (Z.eqb_neq _ a)) by lia; done.
  - intros b Hne. cbn. by rewrite (proj2 (Z.eqb_neq b a)).
Qed.

(** ** Threads *)

Definition holds (c : kpc) (A : list (Z * Z)) : Prop :=
  match c with
  | Idle | BigAlloc _ | PageAlloc _ _ => A = []
  | GotPage _ _ pg | RefPageAlloc _ _ pg _ | RefPageBack _ _ pg _ | PageFree pg => A = [(pg, 1)]
  | RefPageGot _ _ pg _ va => A = if va =? 0 then [(pg, 1)] else [(pg, 1); (va, 1)]
  | RefPageFree _ _ pg _ va => A = [(pg, 1); (va, 1)]
  | BigFree ptr => ptr mod 4096 = 0 ∧ ∃ n, A = [(ptr, n)]
  end.

Definition claims_of (c : kpc) : list (Z * Z) :=
  match c with
  | RefPageAlloc _ _ _ s | RefPageGot _ _ _ s _ | RefPageFree _ _ _ s _ | RefPageBack _ _ _ s => [s]
  | _ => []
  end.

Definition type_ok (sz t : Z) : Prop := 0 ≤ t < 8 ∧ 0 ≤ sz ≤ bsize t.
Definition has_page (rp : list Z) (s : Z * Z) : Prop := ∃ pg, zget rp s.1 = Some pg ∧ pg ≠ 0.

Definition pc_ok (rp : list Z) (c : kpc) : Prop :=
  match c with
  | Idle | PageFree _ | BigFree _ => True
  | BigAlloc sz => 2048 ≤ sz < two32
  | PageAlloc sz t | GotPage sz t _ | RefPageAlloc sz t _ _ | RefPageGot sz t _ _ _ => type_ok sz t
  | RefPageFree sz t _ s _ | RefPageBack sz t _ s => type_ok sz t ∧ has_page rp s
  end.

Record inv (s : ksys (K := K)) ps (T : list (list (Z * Z))) (bigs lost : list (Z * Z)) : Prop := {
  inv_core : core (heap s) (frames s) (live s) ps (concat T) (concat (map claims_of (threads s))) bigs lost;
  inv_lost : length lost = leaks s;
  inv_held : Forall2 holds (threads s) T;
  inv_pcs : Forall (pc_ok (root_pages (heap s))) (threads s)
}.

(** Roots keep their pages. *)
Definition grows (l l' : list Z) : Prop := ∀ r pg, zget l r = Some pg → pg ≠ 0 → zget l' r = Some pg.

Lemma pc_ok_grows l l' c : grows l l' → pc_ok l c → pc_ok l' c.
Proof. intros Hg. destruct c; cbn; try done; intros [Ht (pg & Hpg & Hne)]; (split; [done|]; exists pg; split; [by apply Hg|done]). Qed.

Lemma concat_focus {A} (T : list (list A)) t x : T !! t = Some x → ∃ rest, concat T ≡ₚ x ++ rest ∧ ∀ y, concat (<[t := y]> T) ≡ₚ y ++ rest.
Proof.
  intros Ht. exists (concat (take t T) ++ concat (drop (S t) T)). assert (∀ y, concat (take t T ++ y :: drop (S t) T) ≡ₚ y ++ concat (take t T) ++ concat (drop (S t) T)) as E.
  { intros y. rewrite concat_app. cbn [concat]. rewrite !app_assoc. by rewrite (Permutation_app_comm (concat (take t T)) y). }
  split; [rewrite <-(take_drop_middle _ _ _ Ht) at 1; apply E|]. intros y. rewrite insert_take_drop by (by eapply lookup_lt_Some). apply E.
Qed.

Lemma claims_le (l : list kpc) : (length (concat (map claims_of l)) ≤ length l)%nat.
Proof. induction l as [|c l IH]; [done|]. cbn [map concat length]. rewrite length_app. assert (length (claims_of c) ≤ 1)%nat by (destruct c; cbn; lia). lia. Qed.

Definition ok_sys (s : ksys (K := K)) : Prop := ∃ ps T bigs lost, inv s ps T bigs lost.

(** What one thread has to show at the end of a step. *)
Definition closes (s : ksys (K := K)) (t : nat) (rest restc : list (Z * Z)) : Prop :=
  ∀ h' k' lv' c' A' ps' bigs' lost', core h' k' lv' ps' (A' ++ rest) (claims_of c' ++ restc) bigs' lost' → holds c' A' → pc_ok (root_pages h') c' →
    grows (root_pages (heap s)) (root_pages h') → ∀ lk, length lost' = lk → ok_sys (Ksys h' k' (<[t := c']> (threads s)) lv' lk).

(** The invariant seen from one thread. *)
Lemma inv_focus s t c : ok_sys s → threads s !! t = Some c →
  ∃ ps bigs lost A rest restc, core (heap s) (frames s) (live s) ps (A ++ rest) (claims_of c ++ restc) bigs lost ∧ holds c A ∧ pc_ok (root_pages (heap s)) c ∧
    (length (claims_of c ++ restc) ≤ length (threads s))%nat ∧ length lost = leaks s ∧ closes s t rest restc.
Proof.
  intros (ps & T & bigs & lost & [Hc Hl Hh Hp]) Ht. exists ps, bigs, lost. destruct (Forall2_lookup_l _ _ _ _ _ Hh Ht) as (A & HA & Hholds).
  destruct (concat_focus T t A HA) as (rest & E1 & E1'). destruct (concat_focus (map claims_of (threads s)) t (claims_of c)) as (restc & E2 & E2').
  { etrans; [apply list_lookup_fmap|]. by rewrite Ht. }
  exists A, rest, restc. split; [by eapply core_perm|]. split; [done|]. split; [by eapply Forall_lookup_1|]. split; [rewrite <-E2; apply claims_le|]. split; [done|].
  intros h' k' lv' c' A' ps' bigs' lost' Hc' Hh' Hp' Hg lk Hlk. exists ps', (<[t := A']> T), bigs', lost'. constructor; cbn [heap frames live leaks threads]; try done.
  - eapply core_perm; [symmetry; apply E1'| |exact Hc']. assert (map claims_of (<[t := c']> (threads s)) = <[t := claims_of c']> (map claims_of (threads s))) as -> by apply list_fmap_insert.
    symmetry. apply E2'.
  - by apply Forall2_insert.
  - apply Forall_insert; [|done]. eapply Forall_impl; [exact Hp|]. intros d. by apply pc_ok_grows.
Qed.

Definition frame (call : kcall) (s s' : ksys (K := K)) : Prop :=
  ∀ a sz x, live s !! a = Some sz → live s' !! a = Some sz → a ≤ x < a + sz → (∀ v, call ≠ Cwrite x v) → words (heap s') x = words (heap s) x.

Definition good (call : kcall) (s s' : ksys (K := K)) : Prop := ok_sys s' ∧ frame call s s'.

Lemma kept_frame call s s' : kept (live s) (live s') (heap s) (heap s') → frame call s s'.
Proof. intros Hk a sz x Ha Ha' Hx _. by eapply Hk. Qed.

Lemma frame_same call s s' : words (heap s') = words (heap s) → frame call s s'.
Proof. intros E a sz x _ _ _ _. by rewrite E. Qed.

Lemma grows_same l l' : l' = l → grows l l'.
Proof. intros ->. by intros r pg. Qed.

Lemma root_pages_eq h h' : kheaproots h' = kheaproots h → root_pages h' = root_pages h.
Proof. intros E. unfold root_pages. by rewrite E. Qed.

Lemma pageref_addr_ok h s rp : zget (root_pages h) s.1 = Some rp → pageref_addr s h = Ok (if rp =? 0 then 0 else rp + 16 * s.2).
Proof.
  intros Hrp. unfold pageref_addr. destruct (zget_range (kheaproots h) s.1) as [root Hroot].
  { apply zget_Some_range in Hrp. unfold root_pages, zlen in *. by rewrite length_map in Hrp. }
  rewrite (root_pages_get _ _ _ Hroot) in Hrp. injection Hrp as <-. by rewrite Hroot.
Qed.

Lemma use_pageref_ok s t sz bt pg slot ps rest restc bigs lost rp : core (heap s) (frames s) (live s) ps ((pg, 1) :: rest) (slot :: restc) bigs lost →
  zget (root_pages (heap s)) slot.1 = Some rp → type_ok sz bt → ∃ h' lv', kept (live s) lv' (heap s) h' ∧ root_pages h' = root_pages (heap s) ∧
  (use_pageref t sz bt pg slot s = Ok (Ksys h' (frames s) (<[t := Idle]> (threads s)) lv' (leaks s)) ∧ (∃ ps', core h' (frames s) lv' ps' rest restc bigs lost) ∨
   use_pageref t sz bt pg slot s = Ok (Ksys h' (frames s) (<[t := PageFree pg]> (threads s)) lv' (S (leaks s))) ∧ core h' (frames s) lv' ps ((pg, 1) :: rest) restc bigs (slot :: lost)).
Proof.
  intros Hc Hrp [Hbt Hsz]. unfold use_pageref. rewrite (pageref_addr_ok _ _ _ Hrp), bind_of_Ok. destruct (Z.eqb_spec rp 0) as [->|Hne].
  - exists (heap s), (live s). split; [done|]. split; [done|]. right. split; [done|]. by apply core_lose.
  - destruct (pr_fresh _ _ _ _ _ _ _ _ _ _ Hc Hrp Hne) as [Hnz _]. rewrite (proj2 (Z.eqb_neq _ _) Hnz).
    destruct (core_new_page _ _ _ _ _ _ _ _ _ _ rp bt sz Hc) as (a & h' & ps' & E & Hc' & Hk & R); [eapply is_page_of; [apply (co_pages _ _ _ _ _ _ _ _ Hc)|by left]|done..|].
    rewrite E, bind_of_Ok. exists h', (<[a := sz]> (live s)). split; [done|]. split; [by apply root_pages_eq|]. left. split; [done|]. by exists ps'.
Qed.

Lemma claim_root h k lv ps held s claims bigs lost : core h k lv ps held (s :: claims) bigs lost → ∃ rp, zget (root_pages h) s.1 = Some rp.
Proof.
  intros Hc. pose proof (co_slots _ _ _ _ _ _ _ _ Hc) as Hs. apply zget_range. unfold root_pages, zlen. rewrite length_map.
  pose proof (so_roots _ _ Hs) as E. unfold zlen in E. rewrite E. apply (so_range _ _ Hs). rewrite !elem_of_app. right. left. by left.
Qed.

Section step.
Context (s : ksys (K := K)) (t : nat) (call : kcall) (Hinv : ok_sys s).

Lemma step_malloc sz : threads s !! t = Some Idle → is_u32 sz → ∃ s', malloc_start t sz s = Ok s' ∧ good call s s'.
Proof.
  intros Ht Hsz. destruct (inv_focus _ _ _ Hinv Ht) as (ps & bigs & lost & A & rest & restc & Hc & -> & _ & _ & Hl & Hclose). cbn [app claims_of] in *.
  unfold malloc_start. change LARGEST_SUBPAGE_SIZE with 2048. destruct (Z.leb_spec 2048 sz) as [Hge|Hlt].
  { eexists. split; [done|]. split; [|by apply frame_same]. eapply (Hclose _ _ _ (BigAlloc sz) []); [done|done|cbn; width|by apply grows_same|done]. }
  destruct (blocktype_ok sz) as (bt & E & Hbt & Hle); [width|]. rewrite E, bind_of_Ok. destruct (find_page_list _ _ bt (co_heap _ _ _ _ _ _ _ _ Hc) Hbt) as (base & Hb & Hf).
  rewrite Hb. cbn [deref]. rewrite bind_of_Ok. destruct Hf as [(p & Hp & Htp & Hfree & ->)| ->]; rewrite bind_of_Ok.
  - destruct (core_doalloc _ _ _ _ _ _ _ _ _ sz Hc Hp Hfree) as (a & h' & ps' & E' & Hc' & W & R); [subst bt; width|]. rewrite E', bind_of_Ok. eexists. split; [done|].
    split; [|by apply frame_same]. eapply (Hclose h' _ _ Idle []); [done|done|done|by apply grows_same, root_pages_eq|done].
  - eexists. split; [done|]. split; [|by apply frame_same]. eapply (Hclose _ _ _ (PageAlloc sz bt) []); [done|done|cbn; unfold type_ok; width|by apply grows_same|done].
Qed.

Lemma step_free ptr : threads s !! t = Some Idle → ptr = 0 ∨ is_Some (live s !! ptr) → ∃ s', kfree_start t ptr s = Ok s' ∧ good call s s'.
Proof.
  intros Ht Hptr. destruct (inv_focus _ _ _ Hinv Ht) as (ps & bigs & lost & A & rest & restc & Hc & -> & _ & _ & Hl & Hclose). cbn [app claims_of] in *.
  unfold kfree_start. destruct (Z.eqb_spec ptr 0) as [->|Hne]; [exists s; split; [done|]; split; [done|by apply frame_same]|]. destruct Hptr as [?|[sz Hptr]]; [done|].
  destruct (core_kfree _ _ _ _ _ _ _ _ _ _ Hc Hptr) as (res & E & Hres). cbn [heap with_live]. rewrite E, bind_of_Ok. destruct res as [[h' [pg|]]|]; cbn [freed] in Hres.
  - destruct Hres as (ps' & Hc' & Hk & R). eexists. split; [done|]. split; [|by apply kept_frame]. eapply (Hclose h' _ _ (PageFree pg) [(pg, 1)]); [done|done|done|by apply grows_same|done].
  - destruct Hres as (ps' & Hc' & Hk & R). eexists. split; [done|]. split; [|by apply kept_frame]. unfold with_heap, with_live. cbn [frames threads live leaks].
    rewrite <-(list_insert_id (threads s) t Idle Ht). eapply (Hclose h' _ _ Idle []); [done|done|done|by apply grows_same|done].
  - destruct Hres as (n & bigs' & Hc' & Hm). eexists. split; [done|]. split; [|by apply frame_same]. eapply (Hclose _ _ _ (BigFree ptr) [(ptr, n)]); [done|by split; [|exists n]|done|by apply grows_same|done].
Qed.

Lemma step_write a x : call = Cwrite a x → threads s !! t = Some Idle → (∃ p sz : Z, live s !! p = Some sz ∧ p ≤ a < p + sz ∧ a mod 4 = 0) →
  ∃ s', (h ← kstore a x (heap s); Ok (with_heap h s)) = Ok s' ∧ good call s s'.
Proof.
  intros -> Ht (p & sz & Hp & Ha & _). destruct (inv_focus _ _ _ Hinv Ht) as (ps & bigs & lost & A & rest & restc & Hc & -> & _ & _ & Hl & Hclose). cbn [app claims_of] in *.
  destruct (core_write _ _ _ _ _ _ _ _ _ _ a x Hc Hp Ha) as (h' & E & Hc' & R & W). rewrite E, bind_of_Ok. eexists. split; [done|]. split.
  - unfold with_heap. rewrite <-(list_insert_id (threads s) t Idle Ht). eapply (Hclose h' _ _ Idle []); [done|done|done|by apply grows_same, root_pages_eq|done].
  - intros b sz' y _ _ _ Hcall. apply W. intros ->. by destruct (Hcall x).
Qed.

Lemma step_big sz : threads s !! t = Some (BigAlloc sz) → ∃ s', kstep t call s = Ok s' ∧ good call s s'.
Proof.
  intros Ht. destruct (inv_focus _ _ _ Hinv Ht) as (ps & bigs & lost & A & rest & restc & Hc & -> & Hpc & _ & Hl & Hclose). cbn [app claims_of pc_ok] in *.
  unfold kstep. rewrite Ht. cbn [deref]. rewrite bind_of_Ok. destruct (core_big_alloc _ _ _ _ _ _ _ _ _ Hc Hpc) as (a & k' & E & Hres). rewrite E, bind_of_Ok.
  destruct Hres as [[-> Hc']|(Hne & Hm & n & Hc')].
  - eexists. split; [done|]. split; [|by apply frame_same]. eapply (Hclose _ k' _ Idle []); [done|done|done|by apply grows_same|done].
  - rewrite (proj2 (Z.eqb_neq _ _) Hne), Hm. cbn [kassert Z.eqb]. rewrite bind_of_Ok. eexists. split; [done|]. split; [|by apply frame_same].
    eapply (Hclose _ k' _ Idle []); [done|done|done|by apply grows_same|done].
Qed.

Lemma step_page sz bt : threads s !! t = Some (PageAlloc sz bt) → ∃ s', kstep t call s = Ok s' ∧ good call s s'.
Proof.
  intros Ht. destruct (inv_focus _ _ _ Hinv Ht) as (ps & bigs & lost & A & rest & restc & Hc & -> & Hpc & _ & Hl & Hclose). cbn [app claims_of pc_ok] in *.
  unfold kstep. rewrite Ht. cbn [deref]. rewrite bind_of_Ok. destruct (core_alloc _ _ _ _ _ _ _ _ Hc) as (va & k' & E & Hres). rewrite E, bind_of_Ok.
  destruct Hres as [[-> Hc']|(Hne & Hpg & Hc')].
  - eexists. split; [done|]. split; [|by apply frame_same]. eapply (Hclose _ k' _ Idle []); [done|done|done|by apply grows_same|done].
  - rewrite (proj2 (Z.eqb_neq _ _) Hne), (proj1 (proj2 Hpg) : va mod PAGE_SIZE = 0). cbn [kassert Z.eqb]. rewrite bind_of_Ok. eexists. split; [done|]. split; [|by apply frame_same].
    eapply (Hclose _ k' _ (GotPage sz bt va) [(va, 1)]); [done|done|done|by apply grows_same|done].
Qed.
Lemma step_use s1 sz bt pg slot ps rest restc bigs lost : core (heap s1) (frames s1) (live s1) ps ((pg, 1) :: rest) (slot :: restc) bigs lost → type_ok sz bt →
  closes s t rest restc → threads s1 = threads s → live s1 = live s → leaks s1 = leaks s → length lost = leaks s → words (heap s1) = words (heap s) →
  grows (root_pages (heap s)) (root_pages (heap s1)) → ∃ s', use_pageref t sz bt pg slot s1 = Ok s' ∧ good call s s'.
Proof.
  intros Hc Hty Hclose E1 E2 E3 Hl W Hg. destruct (claim_root _ _ _ _ _ _ _ _ _ Hc) as [rp Hrp].
  destruct (use_pageref_ok s1 t sz bt pg slot ps rest restc bigs lost rp Hc Hrp Hty) as (h' & lv' & Hk & R & Hres). rewrite E1, E3 in Hres.
  assert (∀ c lk, frame call s (Ksys h' (frames s1) c lv' lk)) as Hf by (intros c lk; apply kept_frame; cbn; rewrite <-E2; intros a n x Ha Ha' Hx; rewrite <-W; by eapply Hk).
  assert (grows (root_pages (heap s)) (root_pages h')) as Hg' by (by rewrite R). destruct Hres as [[-> (ps' & Hc')]|[-> Hc']]; eexists; (split; [done|]); (split; [|apply Hf]).
  - by eapply (Hclose h' _ _ Idle []).
  - eapply (Hclose h' _ _ (PageFree pg) [(pg, 1)]); try done. cbn. by rewrite Hl.
Qed.

Lemma step_got sz bt pg : threads s !! t = Some (GotPage sz bt pg) → (leaks s + length (threads s) < 256)%nat → ∃ s', kstep t call s = Ok s' ∧ good call s s'.
Proof.
  intros Ht Hb. destruct (inv_focus _ _ _ Hinv Ht) as (ps & bigs & lost & A & rest & restc & Hc & -> & Hpc & Hle & Hl & Hclose). cbn [app claims_of pc_ok] in *.
  unfold kstep. rewrite Ht. cbn [deref]. rewrite bind_of_Ok. destruct (core_claim _ _ _ _ _ _ _ _ Hc) as [(slot & h' & rp & E & Hc' & Hro & Hrp & Hj)|E].
  - unfold zlen. rewrite length_app. lia.
  - rewrite E, bind_of_Ok, (pageref_addr_ok _ _ _ Hrp), bind_of_Ok. pose proof Hro as (_ & _ & _ & W & R). destruct (Z.eqb_spec rp 0) as [->|Hne].
    + eexists. split; [done|]. split; [|by apply frame_same]. eapply (Hclose h' _ _ (RefPageAlloc sz bt pg slot) [(pg, 1)]); [done|done|done|by apply grows_same|done].
    + destruct (pr_fresh _ _ _ _ _ _ _ _ _ _ Hc' Hrp Hne) as [Hnz _]. rewrite (proj2 (Z.eqb_neq _ _) Hnz).
      eapply (step_use (with_heap h' s)); try done. by apply grows_same.
  - rewrite E, bind_of_Ok. eexists. split; [done|]. split; [|by apply frame_same]. eapply (Hclose _ _ _ (PageFree pg) [(pg, 1)]); [done|done|done|by apply grows_same|done].
Qed.

Lemma step_refpage sz bt pg slot : threads s !! t = Some (RefPageAlloc sz bt pg slot) → ∃ s', kstep t call s = Ok s' ∧ good call s s'.
Proof.
  intros Ht. destruct (inv_focus _ _ _ Hinv Ht) as (ps & bigs & lost & A & rest & restc & Hc & -> & Hpc & _ & Hl & Hclose). cbn [app claims_of pc_ok] in *.
  unfold kstep. rewrite Ht. cbn [deref]. rewrite bind_of_Ok. destruct (core_alloc _ _ _ _ _ _ _ _ Hc) as (va & k' & E & Hres). rewrite E, bind_of_Ok.
  eexists. split; [done|]. split; [|by apply frame_same]. destruct Hres as [[-> Hc']|(Hne & Hpg & Hc')].
  - eapply (Hclose _ k' _ (RefPageGot sz bt pg slot 0) [(pg, 1)]); [done|done|done|by apply grows_same|done].
  - eapply (Hclose _ k' _ (RefPageGot sz bt pg slot va) [(pg, 1); (va, 1)]); [|cbn; by rewrite (proj2 (Z.eqb_neq _ _) Hne)|done|by apply grows_same|done].
    eapply core_perm; [|done|exact Hc']. cbn [app]. apply perm_swap.
Qed.

Lemma step_refgot sz bt pg slot va : threads s !! t = Some (RefPageGot sz bt pg slot va) → ∃ s', kstep t call s = Ok s' ∧ good call s s'.
Proof.
  intros Ht. destruct (inv_focus _ _ _ Hinv Ht) as (ps & bigs & lost & A & rest & restc & Hc & HA & Hpc & _ & Hl & Hclose). cbn [app claims_of pc_ok holds] in *.
  unfold kstep. rewrite Ht. cbn [deref]. rewrite bind_of_Ok. destruct (Z.eqb_spec va 0) as [->|Hne]; subst A; cbn [app] in Hc.
  - eapply (step_use s); try done. by apply grows_same.
  - pose proof (is_page_of _ _ va (co_pages _ _ _ _ _ _ _ _ Hc) ltac:(right; by left)) as (_ & Hm & _). rewrite (Hm : va mod PAGE_SIZE = 0). cbn [kassert Z.eqb]. rewrite bind_of_Ok.
    destruct (claim_root _ _ _ _ _ _ _ _ _ Hc) as [rp Hrp]. rewrite (pageref_addr_ok _ _ _ Hrp), bind_of_Ok. destruct (Z.eqb_spec rp 0) as [->|Hnr].
    + cbn [negb Z.eqb]. destruct (core_set_page (heap s) (frames s) (live s) ps va ((pg, 1) :: rest) (slot :: restc) bigs lost slot) as (h' & E & Hc' & W & R); [|by left|done|done|].
      { eapply core_perm; [|done|exact Hc]. apply perm_swap. }
      rewrite E, bind_of_Ok. eapply (step_use (with_heap h' s)); try done. cbn. rewrite R. intros r p Hr Hp. rewrite zget_zset_ne; [done|]. intros <-. congruence.
    + destruct (pr_fresh _ _ _ _ _ _ _ _ _ _ Hc Hrp Hnr) as [Hnz _]. rewrite (proj2 (Z.eqb_neq _ _) Hnz). cbn [negb]. eexists. split; [done|]. split; [|by apply frame_same].
      eapply (Hclose _ _ _ (RefPageFree sz bt pg slot va) [(pg, 1); (va, 1)]); [done|done|split; [done|by exists rp]|by apply grows_same|done].
Qed.

Lemma step_reffree sz bt pg slot va : threads s !! t = Some (RefPageFree sz bt pg slot va) → ∃ s', kstep t call s = Ok s' ∧ good call s s'.
Proof.
  intros Ht. destruct (inv_focus _ _ _ Hinv Ht) as (ps & bigs & lost & A & rest & restc & Hc & -> & Hpc & _ & Hl & Hclose). cbn [app claims_of pc_ok] in *.
  unfold kstep. rewrite Ht. cbn [deref]. rewrite bind_of_Ok. destruct (core_free (heap s) (frames s) (live s) ps va 1 ((pg, 1) :: rest) (slot :: restc) bigs lost) as (k' & E & Hc').
  { eapply core_perm; [|done|exact Hc]. apply perm_swap. }
  rewrite E, bind_of_Ok. eexists. split; [done|]. split; [|by apply frame_same]. eapply (Hclose _ k' _ (RefPageBack sz bt pg slot) [(pg, 1)]); [done|done|done|by apply grows_same|done].
Qed.

Lemma step_refback sz bt pg slot : threads s !! t = Some (RefPageBack sz bt pg slot) → ∃ s', kstep t call s = Ok s' ∧ good call s s'.
Proof.
  intros Ht. destruct (inv_focus _ _ _ Hinv Ht) as (ps & bigs & lost & A & rest & restc & Hc & -> & Hpc & _ & Hl & Hclose). cbn [app claims_of pc_ok] in *.
  unfold kstep. rewrite Ht. cbn [deref]. rewrite bind_of_Ok. destruct Hpc as [Hty (rp & Hrp & Hne)]. rewrite (pageref_addr_ok _ _ _ Hrp), bind_of_Ok.
  destruct (pr_fresh _ _ _ _ _ _ _ _ _ _ Hc Hrp Hne) as [Hnz _]. rewrite (proj2 (Z.eqb_neq rp 0) Hne), (proj2 (Z.eqb_neq _ _) Hnz). cbn [negb kassert]. rewrite bind_of_Ok.
  eapply (step_use s); try done. by apply grows_same.
Qed.

Lemma step_pagefree pg : threads s !! t = Some (PageFree pg) → ∃ s', kstep t call s = Ok s' ∧ good call s s'.
Proof.
  intros Ht. destruct (inv_focus _ _ _ Hinv Ht) as (ps & bigs & lost & A & rest & restc & Hc & -> & Hpc & _ & Hl & Hclose). cbn [app claims_of pc_ok] in *.
  unfold kstep. rewrite Ht. cbn [deref]. rewrite bind_of_Ok. destruct (core_free _ _ _ _ _ _ _ _ _ _ Hc) as (k' & E & Hc'). rewrite E, bind_of_Ok.
  eexists. split; [done|]. split; [|by apply frame_same]. eapply (Hclose _ k' _ Idle []); [done|done|done|by apply grows_same|done].
Qed.

Lemma step_bigfree ptr : threads s !! t = Some (BigFree ptr) → ∃ s', kstep t call s = Ok s' ∧ good call s s'.
Proof.
  intros Ht. destruct (inv_focus _ _ _ Hinv Ht) as (ps & bigs & lost & A & rest & restc & Hc & [Hm [n ->]] & Hpc & _ & Hl & Hclose). cbn [app claims_of pc_ok] in *.
  unfold kstep. rewrite Ht. cbn [deref]. rewrite bind_of_Ok, (Hm : ptr mod PAGE_SIZE = 0). cbn [kassert Z.eqb]. rewrite bind_of_Ok.
  destruct (core_free _ _ _ _ _ _ _ _ _ _ Hc) as (k' & E & Hc'). rewrite E, bind_of_Ok.
  eexists. split; [done|]. split; [|by apply frame_same]. eapply (Hclose _ k' _ Idle []); [done|done|done|by apply grows_same|done].
Qed.

Lemma step_ok c : threads s !! t = Some c → allowed call s → (leaks s + length (threads s) < 256)%nat → ∃ s', kstep t call s = Ok s' ∧ good call s s'.
Proof.
  intros Ht Hal Hb. destruct c; [|by eapply step_big|by eapply step_page|by eapply step_got|by eapply step_refpage|by eapply step_refgot|by eapply step_reffree|by eapply step_refback|by eapply step_pagefree|by eapply step_bigfree].
  unfold kstep. rewrite Ht. cbn [deref]. rewrite bind_of_Ok. destruct call as [sz|ptr|a x|] eqn:Ec; rewrite <-Ec; cbn [allowed] in Hal.
  - by apply step_malloc.
  - by apply step_free.
  - by apply step_write.
  - exists s. split; [done|]. split; [done|by apply frame_same].
Qed.
End step.

(** ** Runs *)

Lemma grow_step (s s' : ksys (K := K)) : ksys_step s s' → (leaks s ≤ leaks s')%nat ∧ length (threads s') = length (threads s).
Proof.
  intros [t call s1 s2 _ _ E]. unfold kstep, malloc_start, kfree_start, use_pageref in E.
  repeat match goal with
  | H : (_ ≫= _) = Ok _ |- _ => apply bind_Ok in H as (? & ? & H)
  | H : Ok _ = Ok _ |- _ => injection H as <-
  | H : match ?x with _ => _ end = Ok _ |- _ => destruct x
  end; cbn; rewrite ?length_insert; lia.
Qed.

Lemma slots_boot w : slots_ok (kheap0 w) [].
Proof.
  constructor; [done|intros s Hs; by apply elem_of_nil in Hs|]. intros r root Hr. unfold zget in Hr. case_decide; [|done].
  apply lookup_replicate in Hr as [-> _]. change (of_root r []) with (@nil Z). constructor; cbn; try done; [|intros j Hj; by apply elem_of_nil in Hj|constructor].
  intros j Hj. exists 0. split; [|split; [width|]].
  - unfold zget. rewrite decide_True by (Z.to_euclidean_division_equations; lia). apply (lookup_replicate_2 8 0). Z.to_euclidean_division_equations. lia.
  - by rewrite Z.testbit_0_l.
Qed.

Lemma boot_ok n w (k : K) : kp_ok k [] → ok_sys (ksys0 n w k).
Proof.
  intros Hk. exists [], (replicate n []), [], []. assert (∀ r pg, zget (root_pages (kheap0 w)) r = Some pg → pg = 0) as Hz.
  { intros r pg Hr. unfold zget in Hr. case_decide; [|done]. change (root_pages (kheap0 w)) with (replicate 16 0) in Hr. by apply lookup_replicate in Hr as [-> _]. }
  constructor; cbn [heap frames live threads leaks ksys0]; try done.
  - assert (concat (map claims_of (replicate n Idle)) = []) as -> by (induction n; done). assert (concat (replicate n (@nil (Z * Z))) = []) as -> by (induction n; done).
    constructor; try done.
    + constructor; cbn; [done| |done|constructor|constructor|constructor]. intros t Ht. exists 0. split; [|done]. unfold zget. rewrite decide_True by lia. apply (lookup_replicate_2 8 0). lia.
    + apply slots_boot.
    + intros p Hp. by apply elem_of_nil in Hp.
    + intros r r' pg pg' _ Hg _ [Hne|(s & Hs & _)]; [by apply Hz in Hg|by apply elem_of_nil in Hs].
    + intros a m [(p & o & Hp & _)|(m' & Hm & _)]; [by apply elem_of_nil in Hp|by apply elem_of_nil in Hm].
  - apply Forall2_replicate. done.
  - by apply Forall_replicate.
Qed.

Lemma reach_ok n w (k : K) s : kp_ok k [] → reachable (eq (ksys0 n w k)) ksys_step s → (leaks s + length (threads s) < 256)%nat → ok_sys s.
Proof.
  intros Hk. induction 1 as [s <-|s s' Hr IH Hstep]; intros Hb; [by apply boot_ok|]. destruct (grow_step _ _ Hstep) as [Hl Ht].
  destruct Hstep as [t call s s' Hlt Hal E]. destruct (lookup_lt_is_Some_2 _ _ Hlt) as [c Hc].
  destruct (step_ok s t call (IH ltac:(lia)) c Hc Hal ltac:(lia)) as (s1 & E1 & Hok & _). rewrite E in E1. by injection E1 as <-.
Qed.

(** The blocks of the clients: in kernel memory, aligned and disjoint. *)
Definition blocks_ok (s : ksys (K := K)) : Prop :=
  (∀ a sz, live s !! a = Some sz → MIPS_KSEG0 < a ∧ a mod 16 = 0 ∧ 0 ≤ sz ∧ a + sz ≤ MIPS_KSEG1) ∧
  (∀ a sz b sz', live s !! a = Some sz → live s !! b = Some sz' → a ≠ b → a + sz ≤ b ∨ b + sz' ≤ a).

Lemma ok_blocks s : ok_sys s → blocks_ok s.
Proof.
  intros (ps & T & bigs & lost & [Hc _ _ _]). split.
  - intros a sz Ha. destruct (co_live _ _ _ _ _ _ _ _ Hc a sz Ha) as (Hsz & n & Hb & Hn). destruct (block_nonneg _ _ _ _ _ _ _ _ Hc a n Hb) as (? & ? & ? & ?). lia.
  - intros a sz b sz' Ha Hb Hne. destruct (co_live _ _ _ _ _ _ _ _ Hc a sz Ha) as (_ & n & Ha' & Hn). destruct (co_live _ _ _ _ _ _ _ _ Hc b sz' Hb) as (_ & m & Hb' & Hm).
    destruct (blocks_disjoint _ _ _ _ _ _ _ _ Hc a n b m Ha' Hb' Hne); lia.
Qed.

(** A page that is not free has a block in use. *)
Lemma busy_block h p : page_ok h p → busy p → ∃ o, is_block (pi_type p) o ∧ (o ∉ pi_free p).
Proof.
  intros [Ht _ _ _ _ _] Hb. destruct (bsize_ok _ Ht) as (_ & _ & _ & _ & Hn). set (all := down (bsize (pi_type p)) (Z.to_nat (nblocks_of (pi_type p) - 1))).
  destruct (decide (Forall (λ o, o ∈ pi_free p) all)) as [Hall|Hex].
  - exfalso. rewrite Forall_forall in Hall. assert (NoDup all) as Hnd by (apply down_NoDup; destruct (bsize_ok _ Ht); lia).
    pose proof (submseteq_length _ _ (NoDup_submseteq _ _ Hnd Hall)) as Hle. pose proof (down_length (bsize (pi_type p)) (Z.to_nat (nblocks_of (pi_type p) - 1))) as Hl. fold all in Hl.
    unfold busy, zlen in *. lia.
  - apply not_Forall_Exists in Hex; [|apply _]. apply Exists_exists in Hex as (o & Ho & Hno). exists o. split; [by apply down_blocks in Ho|done].
Qed.

Lemma ok_idle s : ok_sys s → Forall (eq Idle) (threads s) → live s = ∅ → kp_ok (frames s) (ref_pages (root_pages (heap s))).
Proof.
  intros (ps & T & bigs & lost & [Hc _ Hh _]) Hidle Hlive. assert (concat T = []) as ET.
  { revert Hidle. clear -Hh. induction Hh as [|c A l T Hc Hh IH]; intros Hidle; [done|]. apply Forall_cons in Hidle as [<- Hidle]. cbn in Hc. subst A. by apply IH. }
  assert (∀ a n, ¬ block_of ps bigs a n) as Hnone.
  { intros a n Hb. apply (co_used _ _ _ _ _ _ _ _ Hc) in Hb. rewrite Hlive, lookup_empty in Hb. by destruct Hb. }
  assert (ps = []) as ->.
  { destruct ps as [|p ps]; [done|]. exfalso. destruct (busy_block (heap s) p) as (o & Ho & Hno); [by eapply core_page; [exact Hc|left]|exact (Forall_inv (co_busy _ _ _ _ _ _ _ _ Hc))|].
    apply (Hnone (pi_page p + o) (bsize (pi_type p))). left. exists p, o. split; [by left|done]. }
  assert (bigs = []) as ->.
  { destruct bigs as [|[a m] bigs]; [done|]. exfalso. apply (Hnone a (4096 * m)). right. exists m. split; [by left|done]. }
  pose proof (co_pages _ _ _ _ _ _ _ _ Hc) as Hk. rewrite ET in Hk. cbn [app heap_pages map] in Hk. by rewrite app_nil_r in Hk.
Qed.
End spec.

(** ** The theorems *)

(** C8: in any run of any number of threads that call [kmalloc] and [kfree] in any
    interleaving (the allocator gives up its lock around [alloc_kpages] and
    [free_kpages]), free only what they have and write only to it, the next step of any
    thread returns: no assertion of the allocator fails, no list is broken and no search
    runs on.  After it the blocks of the clients are in kernel memory, aligned to 16 bytes
    and disjoint, and no word of a block has changed but by the client's own write.  This
    holds while the pagerefs lost for want of a page and the threads are fewer than the
    pagerefs of a page. *)
Theorem kmalloc_safe {K} `{KPagesOk K} n w (k : K) s t call (Hk : kp_ok k []) (Hr : reachable (eq (ksys0 n w k)) ksys_step s)
  (Hb : (leaks s + length (threads s) < 256)%nat) (Ht : (t < length (threads s))%nat) (Hal : allowed call s) :
  ∃ s', kstep t call s = Ok s' ∧ blocks_ok s' ∧ frame call s s'.
Proof.
  destruct (lookup_lt_is_Some_2 _ _ Ht) as [c Hc]. destruct (step_ok s t call (reach_ok n w k s Hk Hr Hb) c Hc Hal Hb) as (s' & E & Hok & Hf).
  exists s'. split; [done|]. split; [by apply ok_blocks|done].
Qed.

(** C9: nothing is lost, as long as fewer than 256 pagerefs have leaked or may leak in the
    calls in progress: when every block has been freed and no thread is in the allocator,
    the pages it holds are the pages of pagerefs, which it never gives back, and there are
    at most 16 of them. *)
Theorem kmalloc_returns_pages {K} `{KPagesOk K} n w (k : K) s (Hk : kp_ok k []) (Hr : reachable (eq (ksys0 n w k)) ksys_step s)
  (Hb : (leaks s + length (threads s) < 256)%nat) (Hidle : Forall (eq Idle) (threads s)) (Hlive : live s = ∅) :
  kp_ok (frames s) (ref_pages (root_pages (heap s))) ∧ zlen (ref_pages (root_pages (heap s))) ≤ 16.
Proof.
  pose proof (reach_ok n w k s Hk Hr Hb) as Hok. split; [by apply ok_idle|]. destruct Hok as (ps & T & bigs & lost & [Hc _ _ _]).
  pose proof (so_roots _ _ (co_slots _ _ _ _ _ _ _ _ Hc)) as Hl. unfold ref_pages, root_pages, zlen in *. rewrite length_map.
  pose proof (length_filter (λ a, a ≠ 0) (map page (kheaproots (heap s)))) as Hle. rewrite length_map in Hle. lia.
Qed.

(** ** The frame table as the frame allocator *)

Import FrameTable.

#[global] Instance ft_kpages : KPages ft_state := {| kp_alloc := alloc_kpages; kp_free := free_kpages |}.

Definition ft_pages (k : ft_state) (A : list (Z * Z)) : Prop :=
  ft_inv k ∧ NoDup (map fst A) ∧ ∀ a n, (a, n) ∈ A → n = 1 ∧ ∃ i, a = frame_kvaddr i ∧ 0 < i < frame_nums k ∧ frame_used k i = true.

Lemma ft_nums k : ft_inv k → frame_nums k ≤ 131072.
Proof. by intros [fl [_ Hs _]]. Qed.

Lemma frame_kvaddr_inj i j : frame_kvaddr i = frame_kvaddr j → i = j.
Proof. unfold frame_kvaddr, PAGE_SIZE. lia. Qed.

Lemma ft_pages_alloc k A n : ft_pages k A → ∃ va k', alloc_kpages n k = Ok (va, k') ∧ (va = 0 ∧ ft_pages k' A ∨ va ≠ 0 ∧ ft_pages k' ((va, n) :: A)).
Proof.
  intros (Hinv & Hnd & HA). pose proof (ft_nums k Hinv) as Hnums. destruct Hinv as [fl Hok]. destruct (decide (n = 1)) as [->|Hne].
  - destruct fl as [|i fl]; [exists 0, k; split; [by apply alloc_nil|left]; split; [done|]; split; [by exists []|done]|].
    pose proof (proj1 (ft_ok_free_iff _ _ i Hok) ltac:(by left)) as [_ Hfree]. pose proof (ft_ok_range _ _ i Hok ltac:(by left)) as Hi.
    destruct (alloc_cons _ _ _ Hok) as (k' & E & Hok' & Hn & Hu). exists (frame_kvaddr i), k'. split; [done|]. right. split; [unfold frame_kvaddr, MIPS_KSEG0, PAGE_SIZE; lia|].
    split; [by exists fl|]. split.
    + apply NoDup_cons. split; [|done]. intros ([a m] & E1 & Hin)%list_elem_of_fmap. destruct (HA a m Hin) as (_ & j & -> & _ & Hused). apply frame_kvaddr_inj in E1 as ->. congruence.
    + intros a m [[= -> ->]|Hin]%elem_of_cons.
      * split; [done|]. exists i. split; [done|]. split; [lia|]. by rewrite Hu, decide_True.
      * destruct (HA a m Hin) as (-> & j & -> & Hj & Hused). split; [done|]. exists j. split; [done|]. split; [lia|]. rewrite Hu. by case_decide.
  - exists 0, k. split; [|left; split; [done|]; split; [by exists fl|done]]. destruct Hok as [(tb & Htb & _) _ _]. unfold alloc_kpages. rewrite Htb, (proj2 (Z.eqb_neq _ _) Hne). done.
Qed.

Lemma ft_pages_free k a n A : ft_pages k ((a, n) :: A) → ∃ k', free_kpages a k = Ok k' ∧ ft_pages k' A.
Proof.
  intros ([fl Hok] & [Hno Hnd]%NoDup_cons & HA). destruct (HA a n ltac:(by left)) as (-> & i & -> & Hi & Hu).
  destruct (free_used k fl i 0 Hok Hi ltac:(done) Hu) as (k' & E & Hok' & Hn & Hu'). rewrite Z.add_0_r in E. exists k'. split; [done|]. split; [by eexists|]. split; [done|].
  intros b m Hin. destruct (HA b m ltac:(by right)) as (-> & j & -> & Hj & Hused). split; [done|]. exists j. split; [done|]. split; [lia|]. rewrite Hu'. case_decide as E'; [|done].
  subst j. destruct Hno. apply list_elem_of_fmap. by exists (frame_kvaddr i, 1).
Qed.

#[global] Instance ft_kpages_ok : KPagesOk ft_state.
Proof.
  refine {| kp_ok := ft_pages |}.
  - intros k A B E (Hinv & Hnd & HA). split; [done|]. split; [by rewrite <-E|]. intros a n. rewrite <-E. apply HA.
  - intros k a n b m A ((_ & _) & [Hno Hnd]%NoDup_cons & HA). destruct (HA a n ltac:(by left)) as (-> & i & -> & _). destruct (HA b m ltac:(right; by left)) as (-> & j & -> & _).
    assert (i ≠ j) by (intros ->; apply Hno; by left). unfold frame_kvaddr, PAGE_SIZE. lia.
  - intros k a n A (Hinv & _ & HA). pose proof (ft_nums k Hinv). destruct (HA a n ltac:(by left)) as (-> & i & -> & Hi & _).
    unfold frame_kvaddr, MIPS_KSEG0, MIPS_KSEG1, PAGE_SIZE. split; [lia|]. split; [|lia]. by rewrite Z.mod_add by lia.
  - apply ft_pages_alloc.
  - apply ft_pages_free.
Defined.

(** ** Runs that can be evaluated *)

Lemma allowedb_ok {K} `{KPages K} call (s : ksys (K := K)) : allowedb call s = true → allowed call s.
Proof.
  destruct call as [sz|ptr|a x|]; cbn; [|intros [E|E]%orb_true_iff|done|done].
  - intros [E1 E2]%andb_true_iff. apply Z.leb_le in E1. apply Z.ltb_lt in E2. done.
  - left. by apply Z.eqb_eq.
  - right. by apply bool_decide_eq_true_1 in E.
Qed.

Lemma run_allowed_reach {K} `{KPages K} s0 cs (s s' : ksys (K := K)) : run_allowed cs s = Some s' → reachable (eq s0) ksys_step s → reachable (eq s0) ksys_step s'.
Proof.
  revert s. induction cs as [|[t c] cs IH]; intros s; cbn [run_allowed]; [by intros [= <-]|]. destruct (_ && _) eqn:E; [|done]. apply andb_true_iff in E as [E1 E2].
  apply Nat.ltb_lt in E1. apply allowedb_ok in E2. destruct (kstep t c s) as [s1| | |] eqn:E3; try done. intros E4 Hr. apply (IH s1 E4). eapply reach_step; [exact Hr|]. by eapply ksys_one.
Qed.

(** A machine with two free frames. *)
Definition small_ft : ft_state := FTState (Ram.RamState 0 0) (Some [FTE true 0; FTE false 2; FTE false 3]) 3 1.

Lemma small_ft_ok : kp_ok small_ft [].
Proof.
  split; [|split; [constructor|intros a n Hin; by apply elem_of_nil in Hin]]. exists [1; 2]. constructor; cbn.
  - eexists. split; [done|]. split; [done|]. split; [repeat (split; [done|]); eexists; split; [done|]; split; [done|]; repeat (split; [done|]); eexists; done|].
    intros i e Hi Hu. pose proof (zget_Some_range _ _ _ Hi) as Hr. change (0 ≤ i < 3) in Hr. assert (i = 0 ∨ i = 1 ∨ i = 2) as [->|[->| ->]] by lia; [|set_solver..].
    change (Some (FTE true 0) = Some e) in Hi. injection Hi as <-. done.
  - lia.
  - apply (bool_decide_unpack _). by vm_compute.
Qed.

Definition continue (n : nat) : list (nat * kcall) := replicate n (0%nat, Continue).

(** [kmalloc(16)] when there is a frame for the blocks and none for the pagerefs. *)
Definition starved : list (nat * kcall) := (0%nat, Cmalloc 16) :: continue 5.

(** A large block takes one of the two frames; 256 small requests fail; the large block is
    freed, and a small block is allocated. *)
Definition lost_run : list (nat * kcall) :=
  (0%nat, Cmalloc 4096) :: continue 1 ++ concat (replicate 256 starved) ++ (0%nat, Cfree (frame_kvaddr 1)) :: continue 1 ++ (0%nat, Cmalloc 16) :: continue 4.

Definition small_block : Z := frame_kvaddr 1 + 4080.

Definition lost_check (o : option (ksys (K := ft_state))) : bool :=
  match o with
  | Some s => (leaks s =? 256)%nat && bool_decide (live s = {[small_block := 16]}) && match kstep 0 (Cfree small_block) s with Panic => true | _ => false end
  | None => false
  end.

Lemma lost_check_ok : lost_check (run_allowed lost_run (ksys0 1 (λ _, 0) small_ft)) = true.
Proof. by vm_compute. Qed.

(** C40: the bound of [kmalloc_safe] is needed, and a single client that does nothing wrong
    can pass it: [allocpageref] marks a pageref as in use before it looks for a page and
    leaves it so when there is none.  After 256 requests that find no page for pagerefs the
    first root is full and has no page; a later request is served from the second root, and
    when its block is freed [freepageref] stops the kernel at the first root. *)
Theorem kmalloc_lost_pagerefs : ∃ s, reachable (eq (ksys0 1 (λ _, 0) small_ft)) ksys_step s ∧ leaks s = 256%nat ∧ live s = {[small_block := 16]} ∧
  kstep 0 (Cfree small_block) s = Panic.
Proof.
  pose proof lost_check_ok as Hc. destruct (run_allowed lost_run _) as [s|] eqn:E; [|discriminate Hc]. exists s.
  apply andb_true_iff in Hc as [[Hl%Nat.eqb_eq Hm%bool_decide_eq_true_1]%andb_true_iff Hp].
  split; [exact (run_allowed_reach _ _ _ _ E (reach_init _ _ _ eq_refl))|]. split; [exact Hl|]. split; [exact Hm|].
  revert Hp. generalize (kstep 0 (Cfree small_block) s). by intros [].
Qed.

(** Two threads ask for a block of 100 bytes each; the second asks while the first is
    between its two pages. *)
Definition race_run : list (nat * kcall) := [(0%nat, Cmalloc 100); (0%nat, Continue); (1%nat, Cmalloc 100); (0%nat, Continue)].

Definition race_check (o : option (ksys (K := ft_state))) : bool :=
  match o with Some s => (leaks s =? 0)%nat && (length (threads s) =? 2)%nat | None => false end.

Lemma race_check_ok : race_check (run_allowed race_run (ksys0 2 (λ _, 0) small_ft)) = true.
Proof. by vm_compute. Qed.

Lemma kmalloc_safe_witness : ∃ s s', run_allowed race_run (ksys0 2 (λ _, 0) small_ft) = Some s ∧ kstep 1 Continue s = Ok s' ∧ blocks_ok s' ∧ frame Continue s s'.
Proof.
  pose proof race_check_ok as Hc. destruct (run_allowed race_run _) as [s|] eqn:E; [|discriminate Hc].
  apply andb_true_iff in Hc as [Hl%Nat.eqb_eq Ht%Nat.eqb_eq]. exists s.
  destruct (kmalloc_safe 2 (λ _, 0) small_ft s 1 Continue small_ft_ok (run_allowed_reach _ _ _ _ E (reach_init _ _ _ eq_refl)) ltac:(lia) ltac:(lia) I) as (s' & Hs).
  exists s'. split; [reflexivity|exact Hs].
Defined.

(** A block is allocated and freed. *)
Definition round_run : list (nat * kcall) := (0%nat, Cmalloc 100) :: continue 4 ++ (0%nat, Cfree (frame_kvaddr 1 + 3968)) :: continue 1.

Definition round_check (o : option (ksys (K := ft_state))) : bool :=
  match o with
  | Some s => (leaks s =? 0)%nat && match threads s with [Idle] => true | _ => false end && bool_decide (live s = ∅) && bool_decide (free_frames (frames s) = [1])
  | None => false
  end.

Lemma round_check_ok : round_check (run_allowed round_run (ksys0 1 (λ _, 0) small_ft)) = true.
Proof. by vm_compute. Qed.

Lemma kmalloc_returns_pages_witness : ∃ s, run_allowed round_run (ksys0 1 (λ _, 0) small_ft) = Some s ∧
  kp_ok (frames s) (ref_pages (root_pages (heap s))) ∧ zlen (ref_pages (root_pages (heap s))) ≤ 16 ∧ free_frames (frames s) = [1].
Proof.
  pose proof round_check_ok as Hc. destruct (run_allowed round_run _) as [s|] eqn:E; [|discriminate Hc].
  apply andb_true_iff in Hc as [[[Hl%Nat.eqb_eq Ht]%andb_true_iff Hv%bool_decide_eq_true_1]%andb_true_iff Hf%bool_decide_eq_true_1]. exists s.
  assert (threads s = [Idle]) as Ei by (destruct (threads s) as [|[] [|]]; done).
  destruct (kmalloc_returns_pages 1 (λ _, 0) small_ft s small_ft_ok (run_allowed_reach _ _ _ _ E (reach_init _ _ _ eq_refl))) as [Hk Hn].
  - rewrite Ei, Hl. cbn. lia.
  - rewrite Ei. by constructor.
  - exact Hv.
  - split; [reflexivity|]. split; [exact Hk|]. split; [exact Hn|exact Hf].
Defined.
